(* ===== verification/_CoqProject ===== *)
-Q . S2P
Prelude.v
GoStrings.v
GoStrconv.v
GoSha256.v
GoHttp.v
GoRegexp.v
GoNet.v
ConfigTypes.v
Observability.v
Headers.v
PathMapper.v
PathRules.v
Router.v
GrpcRules.v
GrpcMetadata.v
Selectors.v
Targets.v
Backend.v
CompareJson.v
Compare.v
Logging.v
Protobuf.v
Protocol.v
MilterCodec.v
Milterproxy.v
ConfigLogFields.v
JsonLogFields.v
ConfigCallerAuth.v
ConfigGrpc.v
ConfigGrpcSpec.v
CallerAuth.v
GrpcFlights.v
Bearer.v
GrpcStream.v
GrpcCompare.v
GrpcShadow.v
GrpcReport.v
ShadowWorker.v
MilterHandler.v
HttpForward.v
GrpcHandler.v
HttpHandler.v
Config.v
ConfigSpec.v
RuntimeSecurity.v
Activation.v
Lifecycle.v
Telemetry.v
Wiring.v
CommandLine.v
GoFlag.v
Load.v
Logger.v
MilterProxy.v
MilterServe.v
TraceContext.v
HttpProxy.v
GrpcProxy.v
Process.v
Tracing.v
FakeGrpc.v
FakeHttp.v
FakeMain.v
TestMains.v
