(* ===== verification/Prelude.v ===== *)
(** * Doppelgaenger: a verification development

    Doppelgaenger is a shadow proxy for HTTP, gRPC and milter.  Each request goes
    to a primary backend, whose answer the client gets; a sample of the requests
    also goes to a shadow backend, whose answer is only compared, logged and
    counted.  The promise of the program is that the shadow side never shows:
    most of the theorems below are about that, about what is let in, and about
    what the configuration means.

    ** How the program is put together, and where it is modelled

    [main.go] reads the command line and runs an [fx] application: it loads the
    configuration, builds the components and registers start and stop hooks; one
    of the three protocols is served until a signal or a failure ends it.

    - Go's own library: GoStrings.v, GoStrconv.v, GoSha256.v, GoHttp.v, GoNet.v
      transcribe what the program uses of [strings], [strconv], [crypto/sha256],
      [net/http] headers and [net]; GoRegexp.v is an interface to [regexp].
      Strings are byte sequences; integers are [Z] with the wrap-around of their
      width written out ([u32], [u64], [i64] below); [float64] is [spec_float] at
      precision 53; a nil and an empty slice differ where the program tests it.
    - Configuration ([internal/config]): ConfigTypes.v, ConfigLogFields.v,
      JsonLogFields.v, ConfigCallerAuth.v, ConfigGrpc.v and Config.v have the
      record of the configuration, its defaults, and [validate] with every
      normalisation and check; ConfigGrpcSpec.v and ConfigSpec.v say what is
      accepted and prove it.  Load.v has [Load] with the file search, the formats
      and the two reads of the vendored viper.
    - Policy: PathMapper.v ([internal/mapping]), PathRules.v
      ([internal/pathrules]), GrpcRules.v ([internal/grpcproxy/resolver.go]),
      Router.v ([internal/proxy/router.go] on the route trees of the vendored gin).
    - HTTP: Headers.v ([internal/headers]), Selectors.v and Backend.v
      ([internal/backend]), Protocol.v ([internal/protocol]: sessions, runner,
      HTTP adapter), HttpForward.v and HttpHandler.v ([internal/proxy/handler.go]).
      [Handle] returns the response, the log and metric records, and the shadow
      goroutine as a job that is run afterwards.
    - Comparison ([internal/compare]): CompareJson.v, Compare.v.
    - Milter: MilterCodec.v ([internal/protocol/milter_*.go]), Milterproxy.v
      (macros), ShadowWorker.v (the bounded queue as a step relation) and
      MilterHandler.v (the connection loop) of [internal/milterproxy].
    - gRPC ([internal/grpcproxy]): GrpcMetadata.v, Targets.v (connections and
      their selection), CallerAuth.v and GrpcFlights.v (caller authentication,
      token cache, shared introspections), Bearer.v (the token for the primary),
      GrpcStream.v (forwarding), GrpcShadow.v (the shadow stream and its
      goroutines), GrpcCompare.v, GrpcReport.v, and GrpcHandler.v, which composes
      them as [Handler.Handle] does.
    - Logging and metrics: Logging.v and Protobuf.v ([internal/logging]), Logger.v
      (what is written at which level), Observability.v (labels) and Telemetry.v
      (collectors, trace ids, the metrics endpoint) of [internal/observability].
    - Tracing: TraceContext.v has the vendored span contexts and the
      [traceparent] and [tracestate] headers; Tracing.v the samplers and spans of
      the vendored tracer, the span functions of [internal/observability] and
      their callers in the handlers, the requester and the milter.
    - Process: RuntimeSecurity.v and Activation.v ([internal/app]), Lifecycle.v
      ([internal/health] and the three servers), Wiring.v (construction, TLS,
      token bucket, reload), CommandLine.v ([parseCLI] on the vendored pflag) and
      Process.v ([main], the start, stop and run of the vendored fx, and the five
      hooks).
    - The program as a whole, on byte streams, requests and RPCs: MilterProxy.v
      puts the milter handler on its sessions and MilterServe.v adds the dial, the
      shadow worker and the close of the handler that an accepted configuration
      builds; HttpProxy.v and GrpcProxy.v put the handlers on the requesters,
      pools, token source and clients of such a configuration.
    - Test programs: FakeGrpc.v ([cmd/fakegrpcserver], [cmd/grpcprobe]),
      FakeHttp.v ([internal/fakehttpserver], [cmd/fakeotlpcollector]), FakeMain.v
      ([cmd/fakehttpserver]), the fake milter server with its probe at the end of
      MilterProxy.v, and TestMains.v, the flags and mains of the others on GoFlag.v
      (Go's [flag]).

    A pure function of the source is a function here; a method that changes its
    receiver returns the new one; errors are [res] or [option error]; system
    calls, start-up and shutdown thread a trace or a world through [stres]; what
    goroutines share is a state under a step relation, and its theorems hold in
    every reachable state.

    ** Interfaces

    Code that is not in the repository is a class or an argument.  [Unicode],
    [Regexp], [NetIP], [URLs], [JSONLib], [PEMFiles] and [Decoders] are library
    functions; [OS], [Descriptors], [Sockets], [Files], [Shutdowns], [TokenWorld]
    and [Introspector] answer system calls and requests.  [Selector] (with the law [SelectorOk]), [Requester],
    [TestSession], [ShadowQueue] and [Shared] are interfaces of the program: the
    client's theorems are proved for any implementation and the implementations
    of the repository are instances.  Go ranges over a map in any order: where
    the code does, the order is an argument, and the theorems hold for each.
    Witnesses instantiate all of these with concrete functions.

    ** What the theorems show

    - End to end: [HttpProxy.accepted_http_proxied],
      [GrpcProxy.accepted_grpc_proxied] and [MilterServe.accepted_milter_proxied]
      (from an accepted configuration to what each side is sent and what the client
      gets; the milter proxy byte for byte), [probe_sees_decision] and [FakeGrpc.probe_sees_fake] (probe,
      proxy and fake server together), [Tracing.http_trace_continues] and
      [grpc_trace_continues] (what a backend reads is the span context of its own
      request, in the trace of the client).
    - Isolation: [HttpHandler.Handle_isolated], [MilterHandler.HandleConn_isolated],
      [GrpcHandler.Handle_shadow_isolated], [Protocol.RunEvent_primary_isolated]:
      what the client and the primary see does not depend on the shadow.
    - Shadow queues: [ShadowWorker.reachable_inv] and [close_drains],
      [GrpcShadow.shadow_stream_inv], [shadow_refines_lossy] (the queue refines a
      lossy channel that ends at the first loss) and [shadow_terminates].
    - Forwarding: [HttpHandler.Handle_success] and [Handle_failures],
      [Backend.Do_spec], [GrpcStream.forwardPrimaryToClient_relays] and
      [forwardClientToPrimary_spec], [GrpcHandler.Handle_served],
      [MilterHandler.handleFrame_spec], [MilterCodec.frame_roundtrip].
    - Authentication: [CallerAuth.authenticateCaller_spec],
      [GrpcHandler.Handle_authenticates], [GrpcFlights.flights_shared] and
      [flight_completes], [introspection_caches_valid], [Bearer.Authorization_spec]
      and [tokenExpiresAt_spec], [Telemetry.metrics_protected].
    - Comparison: [CompareJson.compareBodies_structural],
      [Compare.Registry_Compare_spec], [GrpcCompare.compareRPCResult_spec],
      [HttpHandler.one_comparison], [GrpcHandler.Handle_compares_once].
    - Configuration: [ConfigSpec.validate_wf], [ConfigGrpcSpec.normalizeGRPC_wf]
      (what is accepted is well-formed, and accepting it again changes nothing),
      [accepted_rules_usable], [accepted_path_rules_usable],
      [Wiring.accepted_wires] (it builds the proxy it describes),
      [Load.Load_reads] (which file is read, and that fields and aliases come from
      one text of it), [JsonLogFields.validateAliases_spec].
    - Process: [CommandLine.parseCLI_words], [Process.run_releases] (whatever
      fails, a run leaves no listener open and ends not ready, by a discipline that
      each hook keeps and [fx] carries through), [Lifecycle.startHooks_one_server]
      and [health_Handler_spec], [RuntimeSecurity.ApplyRuntimeSecurity_spec],
      [Activation.resolveListener_spec], [Router.NewRouter_spec],
      [Targets.NewTargetPools_no_leak], [Telemetry.exporters_agree].

    ** Fuel

    Loops that consume a byte sequence run on its length: the UTF-8 decoder
    ([runes_go]), the protobuf scanner ([validWire_fuel]), the JSONPath parser
    ([parse_fuel]), the trace state ([parse_loop]), the milter reader, the SHA-256
    blocks and the HTML words.  The walk over YAML aliases runs on the number of nodes, since its path visits no
    node twice.  Arguments of the command line run on their number and a group of
    shorthands on its length ([GoFlag.parseAll_fuel] for Go's [flag]); a route tree with a catch-all is three nodes deep.
    Every step consumes a byte or visits a node; where a function can
    report that it ran out, a lemma shows that it does not.  Step relations need
    no fuel; termination is proved of the milter worker and of the shadow stream.

    ** Not modelled

    - The codecs of the file formats, mapstructure and the YAML parser: [Load] and
      [validate] take what they return; the defaults and the decoding of the
      aliases are modelled.
    - Exporters, the batching and limits of the tracing SDK, and [log/slog]
      handlers: outputs, which appear as records.
    - [net/http] and [grpc] themselves, TLS handshakes and certificate parsing:
      events and parameters.  Of [fx], the dependency graph (it is the composition
      of the constructors) and a hook that outlives its context ([Run] gives up on
      it and the process exits); of gin, redirect targets.
    - Listeners and the JSON text of logs of the test programs, and [contrib/e2e]:
      glue.
    - The two atomics of the health state are written in one step, and a mutex
      makes a method one step. *)
From Stdlib Require Export Lia ZArith Ascii.
From stdpp Require Export base tactics list gmap strings numbers option pretty sorting.

Declare Scope doppel_scope.
Delimit Scope doppel_scope with doppel.
#[global] Open Scope Z_scope.
#[global] Open Scope list_scope.
#[global] Set Default Goal Selector "!".

(** ** Go errors

A Go [error] is [nil] (here: [None] of an [option error]) or a value with a
message, a chain of wrapped errors and, for gRPC, a status.  The sentinels
the program tests with [errors.Is] are constructors of their own. *)

Inductive error :=
  | errors_New (msg : string)
  | errors_Wrap (msg : string) (inner : error)
  | errors_JoinTwo (first second : error)
  | context_Canceled
  | context_DeadlineExceeded
  | io_EOF
  | io_ErrUnexpectedEOF
  | net_ErrClosed
  | status_Error (code : Z) (msg : string).

#[export] Instance error_eq_dec : EqDecision error.
Proof. solve_decision. Defined.

(** gRPC status codes and [codes.Code.String]. *)
Definition codes_OK : Z := 0.
Definition codes_Canceled : Z := 1.
Definition codes_Unknown : Z := 2.
Definition codes_DeadlineExceeded : Z := 4.
Definition codes_PermissionDenied : Z := 7.
Definition codes_Unimplemented : Z := 12.
Definition codes_Internal : Z := 13.
Definition codes_Unavailable : Z := 14.
Definition codes_Unauthenticated : Z := 16.

Definition Code_String (c : Z) : string :=
  let names := ["OK"; "Canceled"; "Unknown"; "InvalidArgument"; "DeadlineExceeded"; "NotFound";
    "AlreadyExists"; "PermissionDenied"; "ResourceExhausted"; "FailedPrecondition"; "Aborted";
    "OutOfRange"; "Unimplemented"; "Internal"; "Unavailable"; "DataLoss"; "Unauthenticated"] in
  match (if c <? 0 then None else names !! Z.to_nat c) with
  | Some n => n
  | None => "Code(" +:+ pretty c +:+ ")"
  end.

(** [err.Error()]. *)
Fixpoint Error (e : error) : string :=
  match e with
  | errors_New m => m
  | errors_Wrap m _ => m
  | errors_JoinTwo e1 e2 => Error e1 +:+ String (ascii_of_nat 10) (Error e2)
  | context_Canceled => "context canceled"
  | context_DeadlineExceeded => "context deadline exceeded"
  | io_EOF => "EOF"
  | io_ErrUnexpectedEOF => "unexpected EOF"
  | net_ErrClosed => "use of closed network connection"
  | status_Error c m => "rpc error: code = " +:+ Code_String c +:+ " desc = " +:+ m
  end.

(** [errors.Is(err, target)]: the error itself or one it wraps. *)
Fixpoint errors_Is (e target : error) : bool :=
  bool_decide (e = target) ||
  match e with
  | errors_Wrap _ e' => errors_Is e' target
  | errors_JoinTwo e1 e2 => errors_Is e1 target || errors_Is e2 target
  | _ => false
  end.

(** [errors.Join] of two errors that may be nil; the join of one error has
    its text and its chain. *)
Definition errors_Join (e1 e2 : option error) : option error :=
  match e1, e2 with
  | None, e | e, None => e
  | Some e1, Some e2 => Some (errors_JoinTwo e1 e2)
  end.

(** [status.FromError]: the code and message of the first error of the chain
    that carries a status; a wrapping error keeps the code and shows its own
    text.  [None] is [ok = false]. *)
Fixpoint status_FromError (e : error) : option (Z * string) :=
  match e with
  | status_Error c m => Some (c, m)
  | errors_Wrap m e' =>
      match status_FromError e' with Some (c, _) => Some (c, m) | None => None end
  | errors_JoinTwo e1 e2 =>
      match status_FromError e1, status_FromError e2 with
      | Some (c, _), _ | None, Some (c, _) => Some (c, Error e)
      | None, None => None
      end
  | _ => None
  end.

(** [status.Code] of a non-nil error. *)
Definition status_Code (e : error) : Z :=
  match status_FromError e with Some (c, _) => c | None => codes_Unknown end.

(** ** Fallible computations

[res A] is Go's [(A, error)] pair where exactly one of the two is used. *)

Inductive res (A : Type) :=
  | Ok (a : A)
  | Err (e : error).
Arguments Ok {A} a.
Arguments Err {A} e.

#[export] Instance res_ret : MRet res := @Ok.
#[export] Instance res_bind : MBind res :=
  fun A B f r => match r with Ok a => f a | Err e => Err e end.
#[export] Instance res_fmap : FMap res :=
  fun A B f r => match r with Ok a => Ok (f a) | Err e => Err e end.

Definition is_ok {A} (r : res A) : bool :=
  match r with Ok _ => true | Err _ => false end.

(** [for _, x := range l { y, err := f(x); if err != nil { return err } ... }] *)
Fixpoint res_map {A B} (f : A -> res B) (l : list A) : res (list B) :=
  match l with
  | [] => Ok []
  | x :: l' => y ← f x; ys ← res_map f l'; mret (y :: ys)
  end.

(** [if err := ...; err != nil { return wrap(err) }] *)
Definition res_wrap {A} (f : error -> error) (r : res A) : res A :=
  match r with Ok a => Ok a | Err e => Err (f e) end.

(** A computation on a state that may fail; what it did to the state before the
    failure stays. *)
Definition stres (S A : Type) : Type := S -> res A * S.
#[export] Instance stres_ret {S} : MRet (stres S) := fun A a s => (Ok a, s).
#[export] Instance stres_bind {S} : MBind (stres S) := fun A B f m s =>
  match m s with (Ok a, s') => f a s' | (Err e, s') => (Err e, s') end.
Definition lift {S A} (r : res A) : stres S A := fun s => (r, s).

(** ** Machine integers *)

Definition u32 (x : Z) : Z := x mod 2 ^ 32.
Definition u64 (x : Z) : Z := x mod 2 ^ 64.
Definition i64 (x : Z) : Z := (x + 2 ^ 63) mod 2 ^ 64 - 2 ^ 63.

(** ** Tactics *)

(** Case analysis on the scrutinees of the goal, closing the absurd cases. *)
Ltac cases := repeat (case_match; simplify_eq/=; try done).

(** Destruct the [res] computations of a hypothesis that ended in [Ok]. *)
Ltac res_inv :=
  repeat match goal with
  | H : mbind _ ?r = Ok _ |- _ =>
      let E := fresh "E" in destruct r eqn:E; simpl in H; [|discriminate H]
  | H : res_wrap _ ?r = Ok _ |- _ =>
      let E := fresh "E" in destruct r eqn:E; simpl in H; [|discriminate H]
  | H : Ok _ = Ok _ |- _ => injection H as H; subst
  end.

Create HintDb doppel.

(** ** Lemmas *)

Section res.
Context {A B : Type}.
Implicit Types (f : A -> res B).

Lemma res_bind_ok (r : res A) (k : A -> res B) b :
  r ≫= k = Ok b <-> exists a, r = Ok a /\ k a = Ok b.
Proof. destruct r; simpl; naive_solver. Qed.

Lemma res_wrap_ok g (r : res A) a : res_wrap g r = Ok a <-> r = Ok a.
Proof. destruct r; simpl; naive_solver. Qed.

Lemma res_map_ok f l l' :
  res_map f l = Ok l' <-> Forall2 (fun x y => f x = Ok y) l l'.
Proof.
  revert l'. induction l as [|x l IH]; intros l'; simpl.
  { split; [intros [= <-]; constructor | by inversion 1]. }
  split.
  - destruct (f x) eqn:Hx; simpl; [|done].
    destruct (res_map f l) eqn:Hl; simpl; [|done].
    intros [= <-]. constructor; [done|]. by apply IH.
  - inversion 1 as [|? y ? l'' Hx Hl]; subst. rewrite Hx; simpl.
    by rewrite (proj2 (IH _) Hl).
Qed.

Lemma res_map_err f l e :
  res_map f l = Err e -> exists x, x ∈ l /\ f x = Err e.
Proof.
  induction l as [|x l IH]; simpl; [done|].
  destruct (f x) eqn:Hx; simpl.
  - destruct (res_map f l) eqn:Hl; simpl; [done|]. intros [= <-].
    destruct IH as (y & ? & ?); [done|]. exists y. split; [by right | done].
  - intros [= <-]. exists x. split; [by left | done].
Qed.
End res.

(** A filter that every element passes. *)
Lemma list_filter_all {A} (Q : A -> Prop) `{forall x, Decision (Q x)} (l : list A) :
  Forall Q l -> filter Q l = l.
Proof. induction 1; [done|]. rewrite filter_cons_True by done. by f_equal. Qed.

(** A filter that no element passes. *)
Lemma list_filter_none {A} (Q : A -> Prop) `{forall x, Decision (Q x)} (l : list A) :
  Forall (fun x => ~ Q x) l -> filter Q l = [].
Proof. induction 1; [done|]. by rewrite filter_cons_False. Qed.

Section machine.
Lemma u64_range x : 0 <= u64 x < 2 ^ 64.
Proof. unfold u64. apply Z.mod_pos_bound. lia. Qed.

Lemma u32_range x : 0 <= u32 x < 2 ^ 32.
Proof. unfold u32. apply Z.mod_pos_bound. lia. Qed.

Lemma u64_small x : 0 <= x < 2 ^ 64 -> u64 x = x.
Proof. apply Z.mod_small. Qed.

Lemma u32_small x : 0 <= x < 2 ^ 32 -> u32 x = x.
Proof. apply Z.mod_small. Qed.

Lemma i64_small x : - 2 ^ 63 <= x < 2 ^ 63 -> i64 x = x.
Proof. intros. unfold i64. rewrite Z.mod_small; lia. Qed.

Lemma i64_range x : - 2 ^ 63 <= i64 x < 2 ^ 63.
Proof. unfold i64. pose proof (Z.mod_pos_bound (x + 2 ^ 63) (2 ^ 64)). lia. Qed.
End machine.
#[export] Hint Resolve u64_range u32_range : doppel.
