(* ===== verification/GoStrings.v ===== *)
(** * The parts of Go's [strings], [strconv] and [unicode/utf8] the program uses

A Go [string] and a [[]byte] are byte sequences: both are modelled by
[string], whose characters are bytes.  White space is Go's Unicode
[White_Space] set through its UTF-8 encodings.  Case mapping is exact on ASCII
strings; on a string with a byte above 0x7F it is Unicode's, which depends on
tables of the Go release: the class [Unicode] stands for them. *)
From S2P Require Export Prelude.

(** Unicode tables of the Go release. *)
Class Unicode := {
  unicode_ToLower : string -> string;   (* strings.ToLower off ASCII *)
  unicode_ToUpper : string -> string;   (* strings.ToUpper off ASCII *)
  unicode_Quote : string -> string;     (* strconv.Quote off ASCII *)
  unicode_IsLetter : Z -> bool;
  unicode_IsDigit : Z -> bool
}.

(** Tables for closed examples over ASCII text. *)
Definition asciiUnicode : Unicode := {|
  unicode_ToLower s := s; unicode_ToUpper s := s; unicode_Quote s := s;
  unicode_IsLetter _ := false; unicode_IsDigit _ := false
|}.

(** ** Bytes *)

Definition chars (s : string) : list ascii := String.list_ascii_of_string s.
Definition of_chars (l : list ascii) : string := String.string_of_list_ascii l.
Definition code (c : ascii) : Z := Z.of_nat (nat_of_ascii c).
Definition chr (z : Z) : ascii := ascii_of_nat (Z.to_nat z).
Definition bytes (l : list Z) : string := of_chars (chr <$> l).
Definition len (s : string) : Z := Z.of_nat (String.length s).
Definition is_ascii (s : string) : bool := forallb (fun c => code c <? 128) (chars s).

(** ** White space: [unicode.IsSpace] on UTF-8 *)

Definition space1 (c : ascii) : bool :=
  ((9 <=? code c) && (code c <=? 13)) || (code c =? 32).

(** U+0085, U+00A0 *)
Definition space2 (a b : ascii) : bool :=
  (code a =? 0xC2) && ((code b =? 0x85) || (code b =? 0xA0)).

(** U+1680, U+2000..U+200A, U+2028, U+2029, U+202F, U+205F, U+3000 *)
Definition space3 (a b c : ascii) : bool :=
  ((code a =? 0xE1) && (code b =? 0x9A) && (code c =? 0x80)) ||
  ((code a =? 0xE2) && (code b =? 0x80) &&
     (((0x80 <=? code c) && (code c <=? 0x8A)) ||
      (code c =? 0xA8) || (code c =? 0xA9) || (code c =? 0xAF))) ||
  ((code a =? 0xE2) && (code b =? 0x81) && (code c =? 0x9F)) ||
  ((code a =? 0xE3) && (code b =? 0x80) && (code c =? 0x80)).

(** Drop leading spaces; [r] reads the bytes backwards (trailing spaces). *)
Fixpoint trim_front (r : bool) (l : list ascii) : list ascii :=
  match l with
  | a :: l1 =>
      if space1 a then trim_front r l1 else
      match l1 with
      | b :: l2 =>
          if (if r then space2 b a else space2 a b) then trim_front r l2 else
          match l2 with
          | c :: l3 => if (if r then space3 c b a else space3 a b c) then trim_front r l3 else l
          | [] => l
          end
      | [] => l
      end
  | [] => []
  end.

Definition trim_chars (l : list ascii) : list ascii :=
  reverse (trim_front true (reverse (trim_front false l))).

(** [strings.TrimSpace] *)
Definition TrimSpace (s : string) : string := of_chars (trim_chars (chars s)).

(** [strings.Fields] *)
Fixpoint fields_go (cur : list ascii) (l : list ascii) : list string :=
  let flush := if decide (cur = []) then [] else [of_chars (reverse cur)] in
  match l with
  | [] => flush
  | a :: l1 =>
      if space1 a then (flush ++ fields_go [] l1)%list else
      match l1 with
      | b :: l2 =>
          if space2 a b then (flush ++ fields_go [] l2)%list else
          match l2 with
          | c :: l3 => if space3 a b c then (flush ++ fields_go [] l3)%list
                       else fields_go (a :: cur) l1
          | [] => fields_go (a :: cur) l1
          end
      | [] => fields_go (a :: cur) l1
      end
  end.
Definition Fields (s : string) : list string := fields_go [] (chars s).

(** ** Case mapping *)

Definition lower1 (c : ascii) : ascii :=
  if (65 <=? code c) && (code c <=? 90) then chr (code c + 32) else c.
Definition upper1 (c : ascii) : ascii :=
  if (97 <=? code c) && (code c <=? 122) then chr (code c - 32) else c.
Definition map_chars (f : ascii -> ascii) (s : string) : string := of_chars (f <$> chars s).

Definition ToLower `{Unicode} (s : string) : string :=
  if is_ascii s then map_chars lower1 s else unicode_ToLower s.
Definition ToUpper `{Unicode} (s : string) : string :=
  if is_ascii s then map_chars upper1 s else unicode_ToUpper s.

(** ** Searching and cutting *)

Definition HasPrefix (s p : string) : bool := String.prefix p s.
Definition HasSuffix (s p : string) : bool :=
  bool_decide (reverse (chars p) `prefix_of` reverse (chars s)).
Definition TrimPrefix (s p : string) : string :=
  if HasPrefix s p then of_chars (drop (String.length p) (chars s)) else s.
Definition TrimSuffix (s p : string) : string :=
  if HasSuffix s p then of_chars (take (String.length s - String.length p) (chars s)) else s.
Definition ContainsByte (s : string) (c : ascii) : bool := bool_decide (c ∈ chars s).
Definition ContainsAny (s cs : string) : bool := existsb (fun c => ContainsByte cs c) (chars s).

(** [strings.Split(s, sep)] for a one-byte separator. *)
Fixpoint split_go (sep : ascii) (cur : list ascii) (l : list ascii) : list string :=
  match l with
  | [] => [of_chars (reverse cur)]
  | c :: l' => if decide (c = sep) then of_chars (reverse cur) :: split_go sep [] l'
               else split_go sep (c :: cur) l'
  end.
Definition Split (s : string) (sep : ascii) : list string := split_go sep [] (chars s).

(** [strings.Cut(s, sep)] for a one-byte separator: [None] is [ok = false]. *)
Fixpoint cut_go (sep : ascii) (cur : list ascii) (l : list ascii) : option (string * string) :=
  match l with
  | [] => None
  | c :: l' => if decide (c = sep) then Some (of_chars (reverse cur), of_chars l')
               else cut_go sep (c :: cur) l'
  end.
Definition Cut (s : string) (sep : ascii) : option (string * string) := cut_go sep [] (chars s).

(** [strings.Join] *)
Fixpoint Join (l : list string) (sep : string) : string :=
  match l with
  | [] => ""
  | [s] => s
  | s :: l' => s +:+ sep +:+ Join l' sep
  end.

(** [strconv.Itoa], [fmt.Sprintf("%d")] *)
Definition Itoa (z : Z) : string := pretty z.

(** ** Copies *)

(** [make] and [copy]; [make] and an insertion per pair of the range. *)
Definition copy_slice {A} (l : list A) : list A := foldr cons [] l.
Definition copy_map {A} (m : gmap string A) : gmap string A :=
  foldr (fun kv cloned => <[kv.1 := kv.2]> cloned) ∅ (map_to_list m).

(** ** Quoting ([%q]) *)

Definition hex_digit (z : Z) : ascii := chr (if z <? 10 then 48 + z else 87 + z).
Definition dquote : ascii := chr 34.
Definition quote1 (c : ascii) : list ascii :=
  let z := code c in
  if (z =? 34) || (z =? 92) then [chr 92; c]
  else if z =? 7 then [chr 92; "a"%char] else if z =? 8 then [chr 92; "b"%char]
  else if z =? 9 then [chr 92; "t"%char] else if z =? 10 then [chr 92; "n"%char]
  else if z =? 11 then [chr 92; "v"%char] else if z =? 12 then [chr 92; "f"%char]
  else if z =? 13 then [chr 92; "r"%char]
  else if (z <? 32) || (z =? 127)
  then [chr 92; "x"%char; hex_digit (z / 16); hex_digit (z mod 16)]
  else [c].
Definition Quote `{Unicode} (s : string) : string :=
  if is_ascii s then of_chars (dquote :: (chars s ≫= quote1) ++ [dquote])%list
  else unicode_Quote s.

(** ** UTF-8 *)

Definition cont (lo hi : Z) (c : ascii) : bool := (lo <=? code c) && (code c <=? hi).

(** [utf8.DecodeRune] on a non-empty input: the rune and its width. *)
Definition decode_rune (l : list ascii) : Z * nat :=
  let bad := (0xFFFD, 1%nat) in
  match l with
  | [] => (0xFFFD, 0%nat)
  | a :: l1 =>
      let z := code a in
      if z <? 0x80 then (z, 1%nat) else
      match l1 with
      | b :: l2 =>
          if (0xC2 <=? z) && (z <=? 0xDF) then
            if cont 0x80 0xBF b then ((z - 0xC0) * 64 + (code b - 0x80), 2%nat) else bad
          else
          match l2 with
          | c :: l3 =>
              if (0xE0 <=? z) && (z <=? 0xEF) then
                let lo := if z =? 0xE0 then 0xA0 else 0x80 in
                let hi := if z =? 0xED then 0x9F else 0xBF in
                if cont lo hi b && cont 0x80 0xBF c
                then ((z - 0xE0) * 4096 + (code b - 0x80) * 64 + (code c - 0x80), 3%nat)
                else bad
              else
              match l3 with
              | d :: _ =>
                  let lo := if z =? 0xF0 then 0x90 else 0x80 in
                  let hi := if z =? 0xF4 then 0x8F else 0xBF in
                  if (0xF0 <=? z) && (z <=? 0xF4) && cont lo hi b && cont 0x80 0xBF c && cont 0x80 0xBF d
                  then ((z - 0xF0) * 262144 + (code b - 0x80) * 4096 + (code c - 0x80) * 64
                        + (code d - 0x80), 4%nat)
                  else bad
              | [] => bad
              end
          | [] => bad
          end
      | [] => bad
      end
  end.

(** The runes of [for _, r := range s], each with its width. *)
Fixpoint runes_go (fuel : nat) (l : list ascii) : list (Z * nat) :=
  match fuel, l with
  | S fuel', _ :: _ =>
      let rw := decode_rune l in rw :: runes_go fuel' (drop (Nat.max 1 (snd rw)) l)
  | _, _ => []
  end.
Definition runes (s : string) : list Z := fst <$> runes_go (String.length s) (chars s).

(** [utf8.ValidString]: no byte decodes to an error of width one. *)
Definition utf8_ValidString (s : string) : bool :=
  forallb (fun rw => negb ((fst rw =? 0xFFFD) && bool_decide (snd rw = 1%nat)))
    (runes_go (String.length s) (chars s)).

(** ** Sorting: [sort.Strings] orders by bytes *)

Definition sort_Strings (l : list string) : list string := merge_sort String.le l.

(** ** Lemmas *)

Section copies.
Context {A : Type}.

Lemma copy_slice_id (l : list A) : copy_slice l = l.
Proof. induction l as [|x l IH]; [done|]. unfold copy_slice in *. simpl. by rewrite IH. Qed.

Lemma copy_map_id (m : gmap string A) : copy_map m = m.
Proof.
  unfold copy_map. rewrite <-(list_to_map_to_list m) at 2.
  induction (map_to_list m) as [|[i x] l IH]; [done|]. simpl. by rewrite IH.
Qed.
End copies.

Section chars.
Lemma of_chars_chars s : of_chars (chars s) = s.
Proof. apply String.string_of_list_ascii_of_string. Qed.

Lemma chars_of_chars l : chars (of_chars l) = l.
Proof. apply String.list_ascii_of_string_of_list_ascii. Qed.

Lemma chars_inj s t : chars s = chars t -> s = t.
Proof. intros H. by rewrite <-(of_chars_chars s), H, of_chars_chars. Qed.

Lemma of_chars_inj l k : of_chars l = of_chars k -> l = k.
Proof. intros H. by rewrite <-(chars_of_chars l), H, chars_of_chars. Qed.

Lemma chars_app s t : chars (s +:+ t) = (chars s ++ chars t)%list.
Proof. induction s as [|c s IH]; [done|]. simpl. by f_equal. Qed.

Lemma of_chars_app l k : of_chars (l ++ k) = of_chars l +:+ of_chars k.
Proof. induction l as [|c l IH]; [done|]. simpl. unfold of_chars in *. simpl. by rewrite IH. Qed.

Lemma length_chars s : length (chars s) = String.length s.
Proof. induction s; [done|]. simpl. by f_equal. Qed.

Lemma app_empty_r s : s +:+ "" = s.
Proof. apply chars_inj. rewrite chars_app. by rewrite app_nil_r. Qed.

Lemma app_assoc_s s t u : (s +:+ t) +:+ u = s +:+ t +:+ u.
Proof. apply chars_inj. by rewrite !chars_app, <-app_assoc. Qed.

Lemma code_range c : 0 <= code c < 256.
Proof. unfold code. pose proof (nat_ascii_bounded c). lia. Qed.

Lemma code_chr z : 0 <= z < 256 -> code (chr z) = z.
Proof. intros. unfold code, chr. rewrite nat_ascii_embedding by lia. lia. Qed.

Lemma chr_code c : chr (code c) = c.
Proof. unfold code, chr. by rewrite Nat2Z.id, ascii_nat_embedding. Qed.

Lemma code_inj c d : code c = code d -> c = d.
Proof. intros H. by rewrite <-(chr_code c), H, chr_code. Qed.
End chars.

(** Induction on the length of a list, for the functions that read two or
three bytes at a time. *)
Lemma length_ind {A} (P : list A -> Prop) :
  (forall l, (forall k, (length k < length l)%nat -> P k) -> P l) -> forall l, P l.
Proof. intros H l. induction l using (induction_ltof1 _ length). by apply H. Qed.

(** Walk down the [if]s of a byte scanner. *)
Ltac scan := repeat (simpl in *; case_match; simplify_eq/=; try done).

Section trim.
Implicit Types (l : list ascii).

Lemma trim_front_suffix r l : trim_front r l `suffix_of` l.
Proof.
  induction l as [l IH] using length_ind.
  assert (forall p k, (length k < length (p ++ k))%nat -> l = (p ++ k)%list ->
            trim_front r k `suffix_of` l) as step.
  { intros p k Hk ->. etrans; [apply IH; done|]. by exists p. }
  destruct l as [|a l1]; [done|]. simpl trim_front.
  destruct (space1 a). { apply (step [a] l1); [simpl; lia | done]. }
  destruct l1 as [|b l2]; [done|].
  destruct (if r then _ else _). { apply (step [a; b] l2); [simpl; lia | done]. }
  destruct l2 as [|c l3]; [done|].
  destruct (if r then _ else _); [|done].
  apply (step [a; b; c] l3); [simpl; lia | done].
Qed.

Lemma trim_front_idemp r l : trim_front r (trim_front r l) = trim_front r l.
Proof.
  induction l as [l IH] using length_ind.
  destruct l as [|a l1]; [done|].
  destruct (space1 a) eqn:E1. { simpl. rewrite E1. apply IH. simpl. lia. }
  destruct l1 as [|b l2]. { simpl. rewrite E1. simpl. by rewrite E1. }
  destruct (if r then space2 b a else space2 a b) eqn:E2.
  { simpl. rewrite E1, E2. apply IH. simpl. lia. }
  destruct l2 as [|c l3].
  { simpl. rewrite E1, E2. simpl. by rewrite E1, E2. }
  destruct (if r then space3 c b a else space3 a b c) eqn:E3.
  - simpl. rewrite E1, E2, E3. apply IH. simpl. lia.
  - assert (trim_front r (a :: b :: c :: l3) = a :: b :: c :: l3) as E.
    { simpl. by rewrite E1, E2, E3. }
    by rewrite !E.
Qed.

(** A list that starts with no space has no prefix that does. *)
Lemma trim_front_prefix r l p :
  trim_front r l = l -> p `prefix_of` l -> trim_front r p = p.
Proof.
  intros Hl [k ->]. destruct p as [|a [|b [|c p]]]; simpl in *; [done|..].
  - destruct (space1 a); [|done].
    exfalso. pose proof (suffix_length _ _ (trim_front_suffix r k)).
    rewrite Hl in *. simpl in *. lia.
  - destruct (space1 a); [|destruct (if r then _ else _); [|done]].
    all: exfalso; apply (f_equal length) in Hl; simpl in Hl.
    + pose proof (suffix_length _ _ (trim_front_suffix r (b :: k))). simpl in *. lia.
    + pose proof (suffix_length _ _ (trim_front_suffix r k)). simpl in *. lia.
  - destruct (space1 a); [|destruct (if r then space2 b a else space2 a b);
      [|destruct (if r then space3 c b a else space3 a b c); [|done]]].
    all: exfalso; apply (f_equal length) in Hl; simpl in Hl.
    + pose proof (suffix_length _ _ (trim_front_suffix r (b :: c :: p ++ k))). simpl in *. lia.
    + pose proof (suffix_length _ _ (trim_front_suffix r (c :: p ++ k))). simpl in *. lia.
    + pose proof (suffix_length _ _ (trim_front_suffix r (p ++ k))). lia.
Qed.

Lemma trim_chars_idemp l : trim_chars (trim_chars l) = trim_chars l.
Proof.
  unfold trim_chars.
  set (a := trim_front false l). set (t := trim_front true (reverse a)).
  assert (trim_front false (reverse t) = reverse t) as ->.
  { apply (trim_front_prefix _ a); [apply trim_front_idemp|].
    destruct (trim_front_suffix true (reverse a)) as [k Hk].
    exists (reverse k). fold t in Hk.
    by rewrite <-(reverse_involutive a), Hk, reverse_app. }
  rewrite reverse_involutive. unfold t. by rewrite trim_front_idemp.
Qed.

Lemma TrimSpace_idemp s : TrimSpace (TrimSpace s) = TrimSpace s.
Proof. unfold TrimSpace. by rewrite chars_of_chars, trim_chars_idemp. Qed.
End trim.

Section case.
Context `{Unicode}.

Lemma lower1_idemp c : lower1 (lower1 c) = lower1 c.
Proof.
  unfold lower1. destruct ((65 <=? code c) && (code c <=? 90)) eqn:E; [|by rewrite E].
  apply andb_true_iff in E as [E1%Z.leb_le E2%Z.leb_le].
  rewrite code_chr by lia.
  destruct ((65 <=? code c + 32) && (code c + 32 <=? 90)) eqn:E; [|done].
  apply andb_true_iff in E as [E3%Z.leb_le E4%Z.leb_le]. lia.
Qed.

Lemma lower1_ascii c : code c < 128 -> code (lower1 c) < 128.
Proof.
  intros. unfold lower1. case_match eqn:E; [|done].
  apply andb_true_iff in E as [E1%Z.leb_le E2%Z.leb_le]. rewrite code_chr by lia. lia.
Qed.

Lemma is_ascii_spec s : is_ascii s = true <-> Forall (fun c => code c < 128) (chars s).
Proof.
  unfold is_ascii.
  rewrite <-Is_true_true, forallb_True, !Forall_forall.
  split; intros Hs c Hc; specialize (Hs c Hc).
  - by apply Is_true_true, Z.ltb_lt in Hs.
  - by apply Is_true_true, Z.ltb_lt.
Qed.

Lemma ToLower_ascii_idemp s : is_ascii s = true -> ToLower (ToLower s) = ToLower s.
Proof.
  intros Hs. unfold ToLower. rewrite Hs. unfold map_chars.
  assert (is_ascii (of_chars (lower1 <$> chars s)) = true) as ->.
  { apply is_ascii_spec. rewrite chars_of_chars, Forall_fmap.
    apply is_ascii_spec in Hs. rewrite Forall_forall in Hs |- *.
    intros c Hc. by apply lower1_ascii, Hs. }
  rewrite chars_of_chars, <-list_fmap_compose. f_equal.
  apply list_fmap_ext. intros. apply lower1_idemp.
Qed.
End case.

Section split.
Implicit Types (sep : ascii) (l : list ascii).

Lemma split_go_app sep l k cur :
  sep ∉ l ->
  split_go sep cur (l ++ sep :: k) = of_chars (reverse cur ++ l) :: split_go sep [] k.
Proof.
  revert cur. induction l as [|c l IH]; intros cur; simpl.
  { intros _. rewrite decide_True by done. by rewrite app_nil_r. }
  intros [??]%not_elem_of_cons. rewrite decide_False by done. rewrite IH by done.
  by rewrite reverse_cons, <-app_assoc.
Qed.

Lemma split_go_none sep l cur :
  sep ∉ l -> split_go sep cur l = [of_chars (reverse cur ++ l)].
Proof.
  revert cur. induction l as [|c l IH]; intros cur; simpl.
  { intros _. by rewrite app_nil_r. }
  intros [??]%not_elem_of_cons. rewrite decide_False by done. rewrite IH by done.
  by rewrite reverse_cons, <-app_assoc.
Qed.

(** A byte list either lacks the separator or has a first occurrence. *)
Lemma sep_case sep l :
  sep ∉ l \/ exists l1 l2, l = (l1 ++ sep :: l2)%list /\ sep ∉ l1.
Proof.
  destruct (decide (sep ∈ l)) as [H|H]; [right | by left].
  apply list_elem_of_split_l in H as (l1 & l2 & ? & ?). by exists l1, l2.
Qed.

Lemma Split_none s sep : sep ∉ chars s -> Split s sep = [s].
Proof.
  intros H. unfold Split. rewrite split_go_none by done. simpl. by rewrite of_chars_chars.
Qed.

Lemma Split_cons s t sep :
  sep ∉ chars s -> Split (s +:+ String sep t) sep = s :: Split t sep.
Proof.
  intros H. unfold Split. rewrite chars_app. simpl.
  rewrite split_go_app by done. simpl. by rewrite of_chars_chars.
Qed.

(** Splitting and joining are inverse on non-empty lists of separator-free
    pieces. *)
Lemma Split_Join sep (l : list string) :
  Forall (fun s => sep ∉ chars s) l -> l <> [] -> Split (Join l (String sep "")) sep = l.
Proof.
  induction l as [|s l IH]; [done|]. intros [Hs Hl]%Forall_cons_1 _.
  destruct l as [|t l]. { simpl. by apply Split_none. }
  change (Join (s :: t :: l) (String sep "")) with
    (s +:+ String sep (Join (t :: l) (String sep ""))).
  rewrite Split_cons by done. by rewrite IH.
Qed.

Lemma Split_pieces s sep : Forall (fun p => sep ∉ chars p) (Split s sep) /\ Split s sep <> [].
Proof.
  unfold Split. generalize (chars s) as l. intros l.
  induction l as [l IH] using length_ind.
  destruct (sep_case sep l) as [H|(l1 & l2 & -> & H)].
  - rewrite split_go_none by done. split; [|done].
    apply Forall_singleton. by rewrite chars_of_chars.
  - rewrite split_go_app by done. destruct (IH l2) as [IH1 _].
    { rewrite length_app. simpl. lia. }
    split; [|done]. constructor; [by rewrite chars_of_chars | done].
Qed.

Lemma Join_Split s sep : Join (Split s sep) (String sep "") = s.
Proof.
  rewrite <-(of_chars_chars s) at 2. unfold Split. generalize (chars s) as l. intros l.
  induction l as [l IH] using length_ind.
  destruct (sep_case sep l) as [H|(l1 & l2 & -> & H)].
  - by rewrite split_go_none.
  - rewrite split_go_app by done. rewrite of_chars_app. simpl.
    specialize (IH l2). rewrite length_app in IH. simpl in IH.
    specialize (IH ltac:(lia)).
    destruct (split_go sep [] l2) as [|p ps] eqn:E.
    + destruct (Split_pieces (of_chars l2) sep) as [_ HN].
      unfold Split in HN. by rewrite chars_of_chars in HN.
    + by rewrite IH, of_chars_app.
Qed.

Lemma cut_go_app sep l k cur :
  sep ∉ l -> cut_go sep cur (l ++ sep :: k) = Some (of_chars (reverse cur ++ l), of_chars k).
Proof.
  revert cur. induction l as [|c l IH]; intros cur; simpl.
  { intros _. rewrite decide_True by done. by rewrite app_nil_r. }
  intros [??]%not_elem_of_cons. rewrite decide_False by done. rewrite IH by done.
  by rewrite reverse_cons, <-app_assoc.
Qed.

Lemma cut_go_none sep l cur : sep ∉ l -> cut_go sep cur l = None.
Proof.
  revert cur. induction l as [|c l IH]; intros cur; simpl; [done|].
  intros [??]%not_elem_of_cons. rewrite decide_False by done. by apply IH.
Qed.

Lemma Cut_some s a b sep :
  Cut s sep = Some (a, b) <-> s = a +:+ String sep b /\ sep ∉ chars a.
Proof.
  unfold Cut. split.
  - destruct (sep_case sep (chars s)) as [H|(l1 & l2 & E & H)].
    { by rewrite cut_go_none. }
    rewrite E, cut_go_app by done. intros [= <- <-]. simpl.
    rewrite chars_of_chars. split; [|done].
    apply chars_inj. rewrite E, chars_app, chars_of_chars. simpl. by rewrite chars_of_chars.
  - intros [-> H]. rewrite chars_app. simpl. rewrite cut_go_app by done. simpl.
    by rewrite !of_chars_chars.
Qed.

Lemma Cut_none s sep : Cut s sep = None <-> sep ∉ chars s.
Proof.
  split.
  - destruct (sep_case sep (chars s)) as [H|(l1 & l2 & E & H)]; [done|].
    unfold Cut. by rewrite E, cut_go_app.
  - intros H. unfold Cut. by apply cut_go_none.
Qed.
End split.

Section prefix.
Lemma HasPrefix_spec s p : HasPrefix s p = true <-> exists t, s = p +:+ t.
Proof.
  unfold HasPrefix. revert s. induction p as [|c p IH]; intros s.
  { split; [by exists s | by destruct s]. }
  destruct s as [|d s]; simpl.
  { split; [done | by intros [? ?]]. }
  destruct (ascii_dec c d) as [->|]; simpl.
  - rewrite IH. split; intros [t Ht]; exists t; [by rewrite Ht | by injection Ht].
  - split; [done|]. intros [t [= ? ?]]. congruence.
Qed.

Lemma HasSuffix_spec s p : HasSuffix s p = true <-> exists t, s = t +:+ p.
Proof.
  unfold HasSuffix. rewrite bool_decide_eq_true. split.
  - intros [k Hk]. exists (of_chars (reverse k)). apply chars_inj.
    by rewrite chars_app, chars_of_chars, <-(reverse_involutive (chars s)), Hk, reverse_app,
      reverse_involutive.
  - intros [t ->]. rewrite chars_app, reverse_app. by exists (reverse (chars t)).
Qed.

Lemma TrimPrefix_app p t : TrimPrefix (p +:+ t) p = t.
Proof.
  unfold TrimPrefix. rewrite (proj2 (HasPrefix_spec _ _)) by by exists t.
  rewrite chars_app, <-length_chars, drop_app_length. apply of_chars_chars.
Qed.

Lemma TrimSuffix_app t p : TrimSuffix (t +:+ p) p = t.
Proof.
  unfold TrimSuffix. rewrite (proj2 (HasSuffix_spec _ _)) by by exists t.
  rewrite chars_app, <-!length_chars, chars_app, length_app.
  rewrite Nat.add_sub, take_app_length. apply of_chars_chars.
Qed.
End prefix.

Section sort.
Lemma sort_Strings_perm l : sort_Strings l ≡ₚ l.
Proof. apply merge_sort_Permutation. Qed.

Lemma sort_Strings_sorted l : StronglySorted String.le (sort_Strings l).
Proof. apply (StronglySorted_merge_sort _). Qed.

(** The order in which a map was ranged over does not show after sorting. *)
Lemma sort_Strings_proper l k : l ≡ₚ k -> sort_Strings l = sort_Strings k.
Proof.
  intros H. eapply (StronglySorted_unique String.le);
    [apply sort_Strings_sorted..|].
  by rewrite !sort_Strings_perm.
Qed.

Lemma sort_Strings_id l : StronglySorted String.le l -> sort_Strings l = l.
Proof.
  intros H. eapply (StronglySorted_unique String.le);
    [apply sort_Strings_sorted | done | apply sort_Strings_perm].
Qed.
End sort.
