(* ===== verification/GoStrconv.v ===== *)
(** * Decimal integers: [strconv.Atoi] and its agreement with [strconv.Itoa] *)
From S2P Require Export GoStrings.

(** [strconv.Atoi] on 64-bit integers; [None] is an error. *)
Definition digit_value (c : ascii) : option Z :=
  if (48 <=? code c) && (code c <=? 57) then Some (code c - 48) else None.
Fixpoint digits_value (acc : Z) (l : list ascii) : option Z :=
  match l with
  | [] => Some acc
  | c :: l' => d ← digit_value c; digits_value (acc * 10 + d) l'
  end.
Definition Atoi (s : string) : option Z :=
  let '(sign, ds) := match chars s with
                     | c :: l => if decide (c = "-"%char) then (-1, l)
                                 else if decide (c = "+"%char) then (1, l) else (1, c :: l)
                     | [] => (1, [])
                     end in
  if decide (ds = []) then None
  else
    n ← digits_value 0 ds;
    if (- 2 ^ 63 <=? sign * n) && (sign * n <? 2 ^ 63) then Some (sign * n) else None.

(** A decimal digit. *)
Definition is_digit (c : ascii) : Prop := 48 <= code c <= 57.

(** ** Lemmas *)

Lemma digit_value_digit c : is_digit c <-> is_Some (digit_value c).
Proof.
  unfold is_digit, digit_value. destruct (Z.leb_spec 48 (code c)), (Z.leb_spec (code c) 57); simpl;
    (split; [|]); try lia; try (intros _; by eexists); by intros [].
Qed.

Lemma digits_value_digits acc l n : digits_value acc l = Some n -> Forall is_digit l.
Proof.
  revert acc. induction l as [|c l IH]; intros acc; simpl; [by constructor|].
  intros (d & Hd & Hl)%bind_Some. constructor; [|by eapply IH].
  apply digit_value_digit. by eexists.
Qed.

Lemma digit_value_pretty x : (x < 10)%N -> digit_value (pretty_N_char x) = Some (Z.of_N x).
Proof.
  intros Hx.
  assert (x = 0 \/ x = 1 \/ x = 2 \/ x = 3 \/ x = 4 \/ x = 5 \/ x = 6 \/ x = 7 \/ x = 8 \/ x = 9)%N
    as Hc by lia.
  destruct Hc as [->|[->|[->|[->|[->|[->|[->|[->|[->| ->]]]]]]]]]; reflexivity.
Qed.

Lemma digits_value_pretty_go x s :
  digits_value 0 (chars (pretty_N_go x s)) = digits_value (Z.of_N x) (chars s).
Proof.
  revert s. induction (N.lt_wf_0 x) as [x _ IH]; intros s.
  destruct (decide (x = 0)%N) as [->|Hx]; [by rewrite pretty_N_go_0|].
  rewrite pretty_N_go_step by lia. rewrite IH by (apply N.div_lt; lia).
  change (chars (String ?c s)) with (c :: chars s). cbn [digits_value].
  change (chars (String (pretty_N_char (x `mod` 10)) s))
    with (pretty_N_char (x `mod` 10) :: chars s). cbn [digits_value].
  rewrite digit_value_pretty by (apply N.mod_lt; lia). simpl. f_equal.
  pose proof (N.div_mod x 10). lia.
Qed.

Lemma digits_value_Itoa z : 0 <= z -> digits_value 0 (chars (Itoa z)) = Some z.
Proof.
  intros Hz. destruct z as [|x|]; [done| |lia].
  change (Itoa (Z.pos x)) with (pretty_N_go (N.pos x) "").
  by rewrite digits_value_pretty_go.
Qed.

Lemma Itoa_digits z : 0 <= z -> Forall is_digit (chars (Itoa z)) /\ chars (Itoa z) <> [].
Proof.
  intros Hz. pose proof (digits_value_Itoa z Hz) as H. split; [by eapply digits_value_digits|].
  destruct z as [|x|]; [done| |lia]. intros E. rewrite E in H. simpl in H. by injection H.
Qed.

(** A digit string reads as its value. *)
Lemma Atoi_digits s n :
  s <> "" -> digits_value 0 (chars s) = Some n -> 0 <= n < 2 ^ 63 -> Atoi s = Some n.
Proof.
  intros Hs Hd Hn. unfold Atoi. pose proof (digits_value_digits _ _ _ Hd) as HF.
  destruct (chars s) as [|c l] eqn:E.
  { destruct Hs. apply chars_inj. by rewrite E. }
  apply Forall_cons_1 in HF as [Hc _]. unfold is_digit in Hc.
  rewrite decide_False by (intros ->; vm_compute in Hc; naive_solver).
  rewrite decide_False by (intros ->; vm_compute in Hc; naive_solver).
  rewrite decide_False by done. rewrite Hd. cbn [mbind option_bind].
  replace (1 * n) with n by lia.
  rewrite (proj2 (Z.leb_le _ _)), (proj2 (Z.ltb_lt _ _)) by lia. done.
Qed.

Lemma Atoi_Itoa z : 0 <= z < 2 ^ 63 -> Atoi (Itoa z) = Some z.
Proof.
  intros Hz. apply Atoi_digits; [|apply digits_value_Itoa; lia|done].
  intros E. destruct (Itoa_digits z) as [_ H]; [lia|]. by rewrite E in H.
Qed.

(** Printable ASCII other than space is never trimmed. *)
Definition plain (c : ascii) : Prop := 33 <= code c < 127.

Lemma plain_not_space r a l : plain a -> trim_front r (a :: l) = a :: l.
Proof.
  unfold plain. intros Ha. simpl. unfold space1.
  destruct (Z.leb_spec 9 (code a)), (Z.leb_spec (code a) 13), (Z.eqb_spec (code a) 32); try lia;
    simpl.
  all: destruct l as [|b l]; [done|].
  all: assert ((if r then space2 b a else space2 a b) = false) as -> by
    (destruct r; unfold space2; apply andb_false_iff;
     [right; apply orb_false_iff; split; apply Z.eqb_neq; lia | left; apply Z.eqb_neq; lia]).
  all: destruct l as [|c l]; [done|].
  all: assert ((if r then space3 c b a else space3 a b c) = false) as ->; [|done].
  all: destruct r; unfold space3.
  all: repeat match goal with |- context [?x =? ?y] => rewrite (proj2 (Z.eqb_neq x y)) by lia end.
  all: repeat match goal with |- context [?x <=? ?y] => rewrite (proj2 (Z.leb_gt x y)) by lia end.
  all: by rewrite ?andb_false_r, ?andb_false_l.
Qed.

Lemma TrimSpace_plain s : Forall plain (chars s) -> TrimSpace s = s.
Proof.
  intros H. unfold TrimSpace, trim_chars. apply chars_inj. rewrite chars_of_chars.
  destruct (chars s) as [|a l]; [done|].
  rewrite plain_not_space by (by apply Forall_cons_1 in H as [? _]).
  destruct (reverse (a :: l)) as [|b k] eqn:E.
  { apply (f_equal length) in E. rewrite length_reverse in E. done. }
  rewrite plain_not_space; [|].
  - by rewrite <-E, reverse_involutive.
  - apply Forall_reverse in H. rewrite E in H. by apply Forall_cons_1 in H as [? _].
Qed.

Lemma Itoa_plain z : 0 <= z -> Forall plain (chars (Itoa z)).
Proof.
  intros Hz. destruct (Itoa_digits z Hz) as [H _]. eapply Forall_impl; [done|].
  unfold is_digit, plain. intros. lia.
Qed.
