(* ===== verification/GoSha256.v ===== *)
(** * Go's [crypto/sha256], [encoding/hex] and [encoding/binary] as the program uses them

    [sha256_Sum256] is FIPS 180-4; a [hash.Hash] is the bytes written so far. *)
From S2P Require Export GoStrings.

(** ** Words *)

Definition rotr (n x : Z) : Z := Z.lor (Z.shiftr x n) (u32 (Z.shiftl x (32 - n))).
Definition bsig0 (x : Z) : Z := Z.lxor (rotr 2 x) (Z.lxor (rotr 13 x) (rotr 22 x)).
Definition bsig1 (x : Z) : Z := Z.lxor (rotr 6 x) (Z.lxor (rotr 11 x) (rotr 25 x)).
Definition ssig0 (x : Z) : Z := Z.lxor (rotr 7 x) (Z.lxor (rotr 18 x) (Z.shiftr x 3)).
Definition ssig1 (x : Z) : Z := Z.lxor (rotr 17 x) (Z.lxor (rotr 19 x) (Z.shiftr x 10)).
Definition choose (x y z : Z) : Z := Z.lxor (Z.land x y) (Z.land (Z.lxor x (2 ^ 32 - 1)) z).
Definition majority (x y z : Z) : Z := Z.lxor (Z.land x y) (Z.lxor (Z.land x z) (Z.land y z)).

(** The constants of FIPS 180-4: the first 32 fractional bits of the cube roots
    of the first 64 primes and of the square roots of the first eight. *)
Definition prime (n : nat) : bool :=
  (1 <? n)%nat && forallb (fun d => negb (Nat.eqb (Nat.modulo n d) 0)) (seq 2 (n - 2)).
Definition primes (bound : nat) : list Z := Z.of_nat <$> filter (fun n => Is_true (prime n)) (seq 0 bound).
(** The integer cube root of [n < 2 ^ 108], by its bits. *)
Definition cube_root (n : Z) : Z :=
  foldl (fun r i => let r' := r + 2 ^ Z.of_nat i in if r' ^ 3 <=? n then r' else r) 0 (reverse (seq 0 36)).

Definition sha256_K : list Z := Eval vm_compute in
  (fun p => cube_root (p * 2 ^ 96) mod 2 ^ 32) <$> take 64 (primes 312).
Definition sha256_H0 : list Z := Eval vm_compute in
  (fun p => Z.sqrt (p * 2 ^ 64) mod 2 ^ 32) <$> take 8 (primes 312).

(** ** Bytes and words *)

(** The [k] bytes of [z], the most significant first. *)
Fixpoint be_bytes (k : nat) (z : Z) : list Z :=
  match k with
  | O => []
  | S k' => (z / 256 ^ Z.of_nat k') mod 256 :: be_bytes k' z
  end.

(** [binary.BigEndian.PutUint64] *)
Definition PutUint64 (z : Z) : string := bytes (be_bytes 8 (u64 z)).

(** The value of big-endian bytes undoes [be_bytes]. *)
Fixpoint be_value (l : list Z) : Z :=
  match l with [] => 0 | b :: l' => b * 256 ^ Z.of_nat (length l') + be_value l' end.

Fixpoint be_words (l : list Z) : list Z :=
  match l with
  | a :: b :: c :: d :: l' => a * 2 ^ 24 + b * 2 ^ 16 + c * 2 ^ 8 + d :: be_words l'
  | _ => []
  end.

(** ** The compression function *)

(** The message schedule; [rev_w] holds the words so far, the last first. *)
Fixpoint schedule (n : nat) (rev_w : list Z) : list Z :=
  match n with
  | O => reverse rev_w
  | S n' =>
      let w i := nth i rev_w 0 in
      schedule n' (u32 (ssig1 (w 1%nat) + w 6%nat + ssig0 (w 14%nat) + w 15%nat) :: rev_w)
  end.

Definition sha256_round (s : list Z) (kw : Z * Z) : list Z :=
  match s with
  | [a; b; c; d; e; f; g; h] =>
      let t1 := h + bsig1 e + choose e f g + kw.1 + kw.2 in
      let t2 := bsig0 a + majority a b c in
      [u32 (t1 + t2); a; b; c; u32 (d + t1); e; f; g]
  | _ => s
  end.

Definition sha256_block (h : list Z) (words : list Z) : list Z :=
  zip_with (fun x y => u32 (x + y)) h
    (foldl sha256_round h (zip sha256_K (schedule 48 (reverse words)))).

Fixpoint sha256_blocks (fuel : nat) (h : list Z) (words : list Z) : list Z :=
  match fuel with
  | O => h
  | S fuel' => sha256_blocks fuel' (sha256_block h (take 16 words)) (drop 16 words)
  end.

Definition sha256_pad (l : list Z) : list Z :=
  let n := Z.of_nat (length l) in
  (l ++ 128 :: replicate (Z.to_nat ((55 - n) mod 64)) 0 ++ be_bytes 8 (u64 (8 * n)))%list.

Definition sha256_Sum256 (s : string) : string :=
  let padded := sha256_pad (code <$> chars s) in
  bytes (sha256_blocks (length padded / 64) sha256_H0 (be_words padded) ≫= be_bytes 4).

(** [hex.EncodeToString] *)
Definition hex_EncodeToString (s : string) : string :=
  of_chars (chars s ≫= (fun c => [hex_digit (code c / 16); hex_digit (code c mod 16)])).

(** The vectors of FIPS 180-4: one block, the empty message, two blocks. *)
Example sha256_abc : hex_EncodeToString (sha256_Sum256 "abc") =
  "ba7816bf8f01cfea414140de5dae2223b00361a396177a9cb410ff61f20015ad".
Proof. vm_compute. reflexivity. Qed.

Example sha256_empty : hex_EncodeToString (sha256_Sum256 "") =
  "e3b0c44298fc1c149afbf4c8996fb92427ae41e4649b934ca495991b7852b855".
Proof. vm_compute. reflexivity. Qed.

Example sha256_two_blocks :
  hex_EncodeToString (sha256_Sum256 "abcdbcdecdefdefgefghfghighijhijkijkljklmklmnlmnomnopnopq") =
  "248d6a61d20638b8e5c026930c3e6039a33ce45964ff2167f6ecedd419db06c1".
Proof. vm_compute. reflexivity. Qed.

(** ** Lemmas *)

Section bytes.
Lemma length_be_bytes k z : length (be_bytes k z) = k.
Proof. induction k; simpl; congruence. Qed.

Lemma be_bytes_range k z b : b ∈ be_bytes k z -> 0 <= b < 256.
Proof.
  induction k; simpl; [by intros ?%elem_of_nil|]. intros [->|?]%elem_of_cons; [|auto].
  apply Z.mod_pos_bound. lia.
Qed.

Lemma be_value_bytes k z : be_value (be_bytes k z) = z mod 256 ^ Z.of_nat k.
Proof.
  induction k as [|k IH]; cbn [be_bytes be_value]; [by rewrite Z.mod_1_r|].
  rewrite length_be_bytes, IH, Nat2Z.inj_succ, Z.pow_succ_r, (Z.mul_comm 256) by lia.
  rewrite Z.rem_mul_r by (try apply Z.pow_nonzero; lia). lia.
Qed.

Lemma be_bytes_inj k x y :
  0 <= x < 256 ^ Z.of_nat k -> 0 <= y < 256 ^ Z.of_nat k -> be_bytes k x = be_bytes k y -> x = y.
Proof.
  intros Hx Hy E. rewrite <-(Z.mod_small x (256 ^ Z.of_nat k)), <-(Z.mod_small y (256 ^ Z.of_nat k)) by done.
  by rewrite <-!be_value_bytes, E.
Qed.

Lemma chr_inj x y : 0 <= x < 256 -> 0 <= y < 256 -> chr x = chr y -> x = y.
Proof. intros ?? E. by rewrite <-(code_chr x), E, code_chr. Qed.

Lemma bytes_inj l k :
  Forall (fun b => 0 <= b < 256) l -> Forall (fun b => 0 <= b < 256) k -> bytes l = bytes k -> l = k.
Proof.
  intros Hl Hk E%of_chars_inj. revert k Hk E. induction Hl as [|x l Hx Hl IH]; intros [|y k] Hk E;
    try done. apply Forall_cons in Hk as [Hy Hk]. injection E as E1 E2.
  by rewrite (chr_inj x y), (IH k).
Qed.

Lemma length_PutUint64 z : String.length (PutUint64 z) = 8%nat.
Proof.
  rewrite <-length_chars. unfold PutUint64, bytes. by rewrite chars_of_chars, length_fmap, length_be_bytes.
Qed.

Lemma PutUint64_inj x y : 0 <= x < 2 ^ 64 -> 0 <= y < 2 ^ 64 -> PutUint64 x = PutUint64 y -> x = y.
Proof.
  intros Hx Hy E. unfold PutUint64 in E. rewrite !u64_small in E by done.
  apply bytes_inj in E; [|apply Forall_forall; intros ?; apply be_bytes_range..].
  by apply be_bytes_inj in E.
Qed.

Lemma hex_digit_inj x y : 0 <= x < 16 -> 0 <= y < 16 -> hex_digit x = hex_digit y -> x = y.
Proof.
  intros Hx Hy E. unfold hex_digit in E.
  destruct (Z.ltb_spec x 10), (Z.ltb_spec y 10); apply chr_inj in E; lia.
Qed.

Lemma hex_EncodeToString_inj s t : hex_EncodeToString s = hex_EncodeToString t -> s = t.
Proof.
  intros E%of_chars_inj. apply chars_inj. revert E. generalize (chars t). induction (chars s) as [|c l IH];
    intros [|d k] E; try done.
  cbn in E. injection E as E1 E2 E3.
  pose proof (code_range c). pose proof (code_range d).
  apply hex_digit_inj in E1; [|split; [apply Z.div_pos | apply Z.div_lt_upper_bound]; lia..].
  apply hex_digit_inj in E2; [|apply Z.mod_pos_bound; lia..].
  f_equal; [|by apply IH].
  rewrite <-(chr_code c), <-(chr_code d). f_equal.
  rewrite (Z.div_mod (code c) 16), (Z.div_mod (code d) 16) by lia. by rewrite E1, E2.
Qed.
End bytes.
