(* ===== verification/GoHttp.v ===== *)
(** * The parts of Go's [net/http] headers the program uses

[http.Header] is [map[string][]string]: a finite map from the key as stored to
its list of values.  A missing key and a key with an empty list read the same.
Keys are canonicalised as [textproto.CanonicalMIMEHeaderKey] does. *)
From S2P Require Export GoStrings.

Abbreviation header := (gmap string (list string)).

(** RFC 7230 token bytes ([validHeaderFieldByte], [httpguts.IsTokenRune]). *)
Definition token_byte (c : ascii) : bool :=
  let z := code c in
  ((48 <=? z) && (z <=? 57)) || ((65 <=? z) && (z <=? 90)) || ((97 <=? z) && (z <=? 122)) ||
  existsb (Z.eqb z) [33; 35; 36; 37; 38; 39; 42; 43; 45; 46; 94; 95; 96; 124; 126].

(** [httpguts.ValidHeaderFieldName] *)
Definition ValidHeaderFieldName (s : string) : bool :=
  match chars s with [] => false | l => forallb token_byte l end.

Definition dash : ascii := "-"%char.

Fixpoint canon_go (upper : bool) (l : list ascii) : list ascii :=
  match l with
  | [] => []
  | c :: l' =>
      (if upper then upper1 c else lower1 c) :: canon_go (bool_decide (c = dash)) l'
  end.

(** [http.CanonicalHeaderKey]: a key with a byte outside the token set is
    returned as it is. *)
Definition CanonicalHeaderKey (s : string) : string :=
  if forallb token_byte (chars s) then of_chars (canon_go true (chars s)) else s.

Definition Values (h : header) (key : string) : list string :=
  default [] (h !! CanonicalHeaderKey key).
Definition Get (h : header) (key : string) : string :=
  match Values h key with v :: _ => v | [] => "" end.
Definition HeaderSet (h : header) (key value : string) : header :=
  <[CanonicalHeaderKey key := [value]]> h.
Definition Add (h : header) (key value : string) : header :=
  <[CanonicalHeaderKey key := (Values h key ++ [value])%list]> h.
Definition Del (h : header) (key : string) : header :=
  delete (CanonicalHeaderKey key) h.

(** A key is canonical when [CanonicalHeaderKey] keeps it. *)
Definition canonical (k : string) : Prop := CanonicalHeaderKey k = k.

(** ** Lemmas *)

Section canonical.
Lemma upper1_lower_dash c : (upper1 c = dash <-> c = dash) /\ (lower1 c = dash <-> c = dash).
Proof. destruct c as [[] [] [] [] [] [] [] []]; vm_compute; split; split; congruence. Qed.

Lemma token_case c : token_byte (upper1 c) = token_byte c /\ token_byte (lower1 c) = token_byte c.
Proof. by destruct c as [[] [] [] [] [] [] [] []]. Qed.

Lemma case_idemp c : upper1 (upper1 c) = upper1 c /\ lower1 (lower1 c) = lower1 c.
Proof. by destruct c as [[] [] [] [] [] [] [] []]. Qed.

Lemma canon_go_token u l : forallb token_byte (canon_go u l) = forallb token_byte l.
Proof.
  revert u. induction l as [|c l IH]; intros u; [done|]. simpl. rewrite IH.
  by destruct u; rewrite (proj1 (token_case c)) || rewrite (proj2 (token_case c)).
Qed.

Lemma canon_go_idemp u l : canon_go u (canon_go u l) = canon_go u l.
Proof.
  revert u. induction l as [|c l IH]; intros u; [done|]. simpl.
  destruct u; rewrite ?(proj1 (case_idemp c)), ?(proj2 (case_idemp c)); f_equal;
    rewrite <-IH at 2; f_equal; apply bool_decide_ext;
    [apply (proj1 (upper1_lower_dash c)) | apply (proj2 (upper1_lower_dash c))].
Qed.

Lemma CanonicalHeaderKey_idemp s :
  CanonicalHeaderKey (CanonicalHeaderKey s) = CanonicalHeaderKey s.
Proof.
  unfold CanonicalHeaderKey. destruct (forallb token_byte (chars s)) eqn:E; [|by rewrite E].
  by rewrite chars_of_chars, canon_go_token, E, canon_go_idemp.
Qed.

Lemma canonical_CanonicalHeaderKey s : canonical (CanonicalHeaderKey s).
Proof. apply CanonicalHeaderKey_idemp. Qed.
End canonical.
#[export] Hint Resolve canonical_CanonicalHeaderKey : doppel.

Section header_ops.
Implicit Types (h : header).

Lemma Values_Set_eq h k v : Values (HeaderSet h k v) k = [v].
Proof. unfold Values, HeaderSet. by rewrite lookup_insert_eq. Qed.

Lemma Values_Set_ne h k k' v :
  CanonicalHeaderKey k <> CanonicalHeaderKey k' -> Values (HeaderSet h k v) k' = Values h k'.
Proof. intros. unfold Values, HeaderSet. by rewrite lookup_insert_ne. Qed.

Lemma Get_HeaderSet_eq h k v : Get (HeaderSet h k v) k = v.
Proof. unfold Get. by rewrite Values_Set_eq. Qed.

Lemma Get_Set_ne h k k' v :
  CanonicalHeaderKey k <> CanonicalHeaderKey k' -> Get (HeaderSet h k v) k' = Get h k'.
Proof. intros. unfold Get. by rewrite Values_Set_ne. Qed.

(** Deleting a list of keys. *)
Lemma lookup_Del_list h ks k :
  foldl Del h ks !! k = if decide (k ∈ CanonicalHeaderKey <$> ks) then None else h !! k.
Proof.
  revert h. induction ks as [|x ks IH]; intros h.
  { by rewrite decide_False by (by intros ?%elem_of_nil). }
  simpl foldl. rewrite IH, fmap_cons. unfold Del.
  destruct (decide (k ∈ CanonicalHeaderKey <$> ks)) as [H|H].
  - by rewrite decide_True by (by right).
  - destruct (decide (CanonicalHeaderKey x = k)) as [<-|Hx].
    + rewrite decide_True by (by left). by rewrite lookup_delete_eq.
    + rewrite decide_False by (intros [?|?]%elem_of_cons; congruence).
      by rewrite lookup_delete_ne.
Qed.
End header_ops.
