(* ===== verification/GoRegexp.v ===== *)
(** * Interface to Go's [regexp] package

The program compiles patterns, matches paths against them and expands
templates; it never looks inside a compiled expression.  The class is the
boundary: the theorems hold for every matching engine. *)
From S2P Require Export GoStrings.

Class Regexp := {
  regex : Type;
  regexp_Compile : string -> res regex;
  MatchString : regex -> string -> bool;
  ReplaceAllString : regex -> string -> string -> string
}.

(** An engine for closed examples: the pattern [^p] with a literal [p]
    matches a prefix, any other pattern matches itself only; a replacement
    template takes the place of the matched text. *)
Definition literalRegexp : Regexp := {|
  regex := string;
  regexp_Compile p := if decide (p = "(") then Err (errors_New "missing closing )") else Ok p;
  MatchString r s :=
    match r with
    | String "^"%char p => HasPrefix s p
    | _ => bool_decide (r = s)
    end;
  ReplaceAllString r s repl :=
    match r with
    | String "^"%char p => if HasPrefix s p then repl +:+ TrimPrefix s p else s
    | _ => if decide (r = s) then repl else s
    end
|}.
