(* ===== verification/GoNet.v ===== *)
(** * The parts of Go's [net] package the program uses

[SplitHostPort] is transcribed from its documented behaviour; IP addresses
are opaque: the class [NetIP] is the boundary to [net.ParseIP] and
[net.IP.String]. *)
From S2P Require Export GoStrings.

(** Index of the first, and of the last, occurrence of a byte. *)
Definition IndexByte (l : list ascii) (c : ascii) : option nat :=
  fst <$> list_find (fun d => c = d) l.
Definition LastIndexByte (l : list ascii) (c : ascii) : option nat :=
  (fun k => (length l - 1 - k)%nat) <$> IndexByte (reverse l) c.

Definition colon : ascii := ":"%char.
Definition lbrack : ascii := "["%char.
Definition rbrack : ascii := "]"%char.

Definition AddrError (msg hostport : string) : error :=
  errors_New ("address " +:+ hostport +:+ ": " +:+ msg).

(** [net.SplitHostPort] *)
Definition SplitHostPort (hostport : string) : res (string * string) :=
  let l := chars hostport in
  let missingPort := Err (AddrError "missing port in address" hostport) in
  let tooManyColons := Err (AddrError "too many colons in address" hostport) in
  let brackets (j k i : nat) (host : list ascii) : res (string * string) :=
    if decide (lbrack ∈ drop j l) then Err (AddrError "unexpected '[' in address" hostport)
    else if decide (rbrack ∈ drop k l) then Err (AddrError "unexpected ']' in address" hostport)
    else Ok (of_chars host, of_chars (drop (S i) l)) in
  match LastIndexByte l colon with
  | None => missingPort
  | Some i =>
      if decide (head l = Some lbrack) then
        match IndexByte l rbrack with
        | None => Err (AddrError "missing ']' in address" hostport)
        | Some e =>
            if decide (S e = length l) then missingPort
            else if decide (S e = i) then brackets 1%nat (S e) i (take (e - 1) (drop 1 l))
            else if decide (l !! S e = Some colon) then tooManyColons
            else missingPort
        end
      else
        let host := take i l in
        if decide (colon ∈ host) then tooManyColons else brackets 0%nat 0%nat i host
  end.

(** [net.IP]; a nil IP is [None] of an option. *)
Class NetIP := {
  IP : Type;
  ParseIP : string -> option IP;
  IP_String : IP -> string
}.

(** Addresses for closed examples: a textual address denotes itself when it
    starts with a digit. *)
Definition textIP : NetIP := {|
  IP := string;
  ParseIP s := match s with
               | String c _ => if (48 <=? code c) && (code c <=? 57) then Some s else None
               | "" => None
               end;
  IP_String s := s
|}.

(** ** Lemmas *)

Lemma IndexByte_some l1 c l2 :
  c ∉ l1 -> IndexByte (l1 ++ c :: l2) c = Some (length l1).
Proof.
  intros H. unfold IndexByte. apply fmap_Some. exists (length l1, c). split; [|done].
  apply list_find_Some. split_and!; [by rewrite lookup_app_r, Nat.sub_diag|done|].
  intros j y Hj Hlt ->. apply H. rewrite lookup_app_l in Hj by done.
  by eapply list_elem_of_lookup_2.
Qed.

Lemma LastIndexByte_some l1 c l2 :
  c ∉ l2 -> LastIndexByte (l1 ++ c :: l2) c = Some (length l1).
Proof.
  intros H. unfold LastIndexByte. rewrite reverse_app, reverse_cons, <-app_assoc. simpl.
  rewrite IndexByte_some by (by rewrite elem_of_reverse). simpl. f_equal.
  rewrite length_app, length_reverse. simpl. lia.
Qed.

(** A host without colon or bracket, joined with any bracket-free port. *)
Lemma SplitHostPort_plain host port :
  colon ∉ chars host -> lbrack ∉ chars host -> rbrack ∉ chars host ->
  colon ∉ chars port -> lbrack ∉ chars port -> rbrack ∉ chars port ->
  SplitHostPort (host +:+ String colon port) = Ok (host, port).
Proof.
  intros. unfold SplitHostPort. rewrite chars_app.
  change (chars (String colon port)) with (colon :: chars port).
  rewrite LastIndexByte_some by done.
  rewrite decide_False.
  2: { destruct (chars host) as [|x l]; simpl; [done|]. set_solver. }
  rewrite take_app_length, decide_False by done.
  rewrite decide_False by (rewrite drop_0; set_solver).
  rewrite decide_False by (rewrite drop_0; set_solver).
  rewrite (drop_app_ge (chars host)) by lia.
  replace (S (length (chars host)) - length (chars host))%nat with 1%nat by lia. simpl.
  by rewrite drop_0, !of_chars_chars.
Qed.

(** A bracketed host, joined with any bracket-free port. *)
Lemma SplitHostPort_bracket host port :
  lbrack ∉ chars host -> rbrack ∉ chars host ->
  colon ∉ chars port -> lbrack ∉ chars port -> rbrack ∉ chars port ->
  SplitHostPort ("[" +:+ host +:+ "]" +:+ String colon port) = Ok (host, port).
Proof.
  intros. unfold SplitHostPort. rewrite !chars_app.
  change (chars (String colon port)) with (colon :: chars port).
  change (chars "[") with [lbrack]. change (chars "]") with [rbrack]. simpl app.
  set (l := lbrack :: _).
  assert (l = ((lbrack :: chars host ++ [rbrack]) ++ colon :: chars port)%list) as El.
  { unfold l. simpl. by rewrite <-app_assoc. }
  assert (LastIndexByte l colon = Some (S (S (length (chars host))))) as ->.
  { rewrite El, LastIndexByte_some by done. simpl. rewrite length_app. simpl. do 2 f_equal. lia. }
  assert (IndexByte l rbrack = Some (S (length (chars host)))) as ->.
  { unfold l. rewrite app_comm_cons, IndexByte_some by set_solver. done. }
  rewrite decide_True by done. rewrite decide_False.
  2: { rewrite El, length_app. simpl. rewrite length_app. simpl. lia. }
  rewrite decide_True by done.
  assert (drop 1 l = (chars host ++ rbrack :: colon :: chars port)%list) as -> by done.
  assert (drop (S (S (length (chars host)))) l = colon :: chars port) as ->.
  { rewrite El, drop_app_ge by (simpl; rewrite length_app; simpl; lia).
    simpl. rewrite length_app. simpl. replace (_ - _)%nat with 0%nat by lia. done. }
  rewrite decide_False by set_solver. rewrite decide_False by set_solver.
  rewrite El, drop_app_ge by (simpl; rewrite length_app; simpl; lia).
  simpl length. rewrite length_app. simpl length.
  replace (S (S (S (length (chars host)))) - S (length (chars host) + 1))%nat with 1%nat by lia.
  simpl. rewrite Nat.sub_0_r, take_app_length, drop_0.
  by rewrite !of_chars_chars.
Qed.
