(* ===== verification/ConfigTypes.v ===== *)
(** * [internal/config]: the configuration records other components read

A nil slice and an empty one differ where the program tests [!= nil]: such
fields are an [option] of a list.  Durations are in nanoseconds. *)
From S2P Require Export GoStrings.

Record PathRule := {
  pr_Name : string;
  pr_Methods : option (list string);
  pr_Match : string;
  pr_Shadow : string;
  pr_Compare : string;
  pr_CompareMode : string;
  pr_CompareHeaders : option (list string);
  pr_PrimaryRequestHeaders : option (gmap string string);
  pr_ShadowRequestHeaders : option (gmap string string)
}.

Record GRPCRule := {
  gr_Name : string;
  gr_Service : string;
  gr_Methods : option (list string);
  gr_Shadow : string;
  gr_Compare : string;
  gr_CompareMode : string;
  gr_CompareMetadata : option (list string);
  gr_PrimaryMetadata : option (gmap string string);
  gr_ShadowMetadata : option (gmap string string)
}.

Record GRPCTargetTLS := {
  gtls_Enabled : bool;
  gtls_RootCA : string;
  gtls_ServerName : string;
  gtls_InsecureSkipVerify : bool;
  gtls_ClientCert : string;
  gtls_ClientKey : string
}.

Record GRPCTarget := {
  gt_Name : string;
  gt_Address : string;
  gt_Authority : string;
  gt_TLS : GRPCTargetTLS
}.

Record GRPCTLSConfig := {
  tls_Enabled : bool;
  tls_Cert : string;
  tls_Key : string;
  tls_ClientCA : string;
  tls_RequireClientCert : bool;
  tls_MinTLSVersion : string
}.

Record GRPCBackendOIDCAuthConfig := {
  oidc_CAFile : string;
  oidc_ServerName : string;
  oidc_MinTLSVersion : string;
  oidc_Enabled : bool;
  oidc_ConfigurationURI : string;
  oidc_TokenEndpoint : string;
  oidc_ClientID : string;
  oidc_ClientSecret : string;
  oidc_ClientSecretEnv : string;
  oidc_AuthMethod : string;
  oidc_Scopes : option (list string);
  oidc_Timeout : Z;
  oidc_RefreshSkew : Z;
  oidc_InsecureTLS : bool
}.

Record GRPCCallerMethodScopes := { ms_Method : string; ms_Scopes : list string }.

Record GRPCCallerAuthConfig := {
  ca_CAFile : string;
  ca_ServerName : string;
  ca_MinTLSVersion : string;
  ca_Mode : string;
  ca_AllowUnauthenticated : bool;
  ca_IntrospectionEndpoint : string;
  ca_Issuer : string;
  ca_Audience : string;
  ca_ClientID : string;
  ca_ClientSecretEnv : string;
  ca_RequiredScopes : list string;
  ca_MethodScopes : list GRPCCallerMethodScopes;
  ca_Timeout : Z;
  ca_IntrospectionCacheTTL : Z;
  ca_IntrospectionCacheMaxEntries : Z;
  ca_IntrospectionMaxConcurrent : Z
}.

(** The parts of a [*url.URL] the program looks at; [net/url] parses it. *)
Record parsedURL := {
  u_Scheme : string;
  u_Host : string;
  u_hasUser : bool;
  u_Fragment : string;
  u_RawQuery : string
}.
Class URLs := { url_Parse : string -> option parsedURL }.
