(* ===== verification/Observability.v ===== *)
(** * [internal/observability]: metric labels

    Metrics and traces are outputs; what the program decides is their labels. *)
From S2P Require Export GoStrings.

Definition LabelMethod : string := "method".
Definition LabelOutcome : string := "outcome".
Definition LabelProtocol : string := "protocol".
Definition LabelResult : string := "result".
Definition LabelShadow : string := "shadow".
Definition LabelShadowStarted : string := "shadow_started".
Definition LabelStatus : string := "status".
Definition LabelTarget : string := "target".

Definition OutcomeBadRequest : string := "bad_request".
Definition OutcomeError : string := "error".
Definition OutcomeOK : string := "ok".
Definition OutcomePrimaryError : string := "primary_error".
Definition OutcomeTimeout : string := "timeout".
Definition ResultDiff : string := "diff".
Definition ResultError : string := "error".
Definition ResultOK : string := "ok".
Definition ResultSame : string := "same".
Definition ResultSkipped : string := "skipped".
Definition ResultStatusCode : string := "status_code".
Definition ResultQueueFull : string := "queue_full".
Definition ResultTimeout : string := "timeout".
Definition StatusError : string := "error".
Definition StatusNone : string := "none".

Definition HTTPStatusClass (status : Z) : string :=
  if (100 <=? status) && (status <? 200) then "1xx"
  else if (200 <=? status) && (status <? 300) then "2xx"
  else if (300 <=? status) && (status <? 400) then "3xx"
  else if (400 <=? status) && (status <? 500) then "4xx"
  else if (500 <=? status) && (status <? 600) then "5xx"
  else StatusError.

Definition BoolLabel (value : bool) : string := if value then "true" else "false".

