(* ===== verification/Headers.v ===== *)
(** * [internal/headers]: copying, cleaning and comparing HTTP headers *)
From S2P Require Export GoHttp.

Definition headerConnection : string := "Connection".

(** The keys [RemoveHopByHop] always deletes. *)
Definition hopByHopKeys : list string :=
  [headerConnection; "Keep-Alive"; "Proxy-Authenticate"; "Proxy-Authorization";
   "Proxy-Connection"; "TE"; "Trailer"; "Transfer-Encoding"; "Upgrade"].

Record HeaderDiff := { hd_Key : string; hd_Primary : string; hd_Shadow : string }.

#[export] Instance HeaderDiff_eq_dec : EqDecision HeaderDiff.
Proof. solve_decision. Defined.

(** [Clone]: a copy of every value list is stored in a fresh map. *)
Definition Clone (h : header) : header := copy_map (copy_slice <$> h).

(** The tokens of the [Connection] values, read before anything is deleted. *)
Definition connectionTokens (h : header) : list string :=
  Values h headerConnection ≫= fun value =>
    filter (fun token => token <> "") (TrimSpace <$> Split value ","%char).

Definition RemoveHopByHop (h : header) : header :=
  foldl Del (foldl Del h (connectionTokens h)) hopByHopKeys.

(** The named results of [CompareDetailed]. *)
Record compared := {
  c_p : gmap string string;
  c_s : gmap string string;
  c_diffs : list HeaderDiff;
  c_diff : bool
}.

Definition compareStep (primary shadow : header) (includeEmpty : bool) (acc : compared)
    (key : string) : compared :=
  let ck := CanonicalHeaderKey key in
  let pv := Join (Values primary ck) "," in
  let sv := Join (Values shadow ck) "," in
  if negb includeEmpty && bool_decide (pv = "") && bool_decide (sv = "") then acc else
  let p := <[ck := pv]> (c_p acc) in
  let s := <[ck := sv]> (c_s acc) in
  if decide (pv = sv)
  then {| c_p := p; c_s := s; c_diffs := c_diffs acc; c_diff := c_diff acc |}
  else {| c_p := p; c_s := s;
          c_diffs := (c_diffs acc ++ [{| hd_Key := ck; hd_Primary := pv; hd_Shadow := sv |}])%list;
          c_diff := true |}.

Definition CompareDetailed (primary shadow : header) (keys : list string)
    (includeEmpty : bool) : compared :=
  foldl (compareStep primary shadow includeEmpty)
    {| c_p := ∅; c_s := ∅; c_diffs := []; c_diff := false |} keys.

(** [WriteSelected(w, src, allow)].  Go ranges over the map [src] in an
    unspecified order: [items] is the list of its pairs in the order of the
    range, and the result is the header of [w] afterwards. *)
Definition WriteSelected (w : header) (items : list (string * list string))
    (allow : list string) : header :=
  let allowSet := CanonicalHeaderKey <$> allow in
  foldl (fun w kv =>
    let ck := CanonicalHeaderKey kv.1 in
    if decide (ck ∈ allowSet)
    then foldl (fun w v => Add w ck v) (Del w ck) kv.2
    else w) w items.

(** ** Specifications *)

(** The value a comparison sees under a key. *)
Definition joined (h : header) (key : string) : string :=
  Join (Values h (CanonicalHeaderKey key)) ",".

Definition headerDiffsOf (primary shadow : header) (keys : list string) : list HeaderDiff :=
  (fun key => {| hd_Key := CanonicalHeaderKey key; hd_Primary := joined primary key;
                 hd_Shadow := joined shadow key |}) <$>
    filter (fun key => joined primary key <> joined shadow key) keys.

(** A response header as [net/http] produces it: canonical keys. *)
Definition canonical_header (h : header) : Prop := map_Forall (fun k _ => canonical k) h.

(** ** Lemmas *)

Section clone.
Lemma Clone_id h : Clone h = h.
Proof.
  unfold Clone. rewrite copy_map_id. rewrite <-(map_fmap_id h) at 2.
  apply map_fmap_ext. intros k vs _. apply copy_slice_id.
Qed.
End clone.

Section hop.
Lemma lookup_RemoveHopByHop h k :
  RemoveHopByHop h !! k =
    if decide (k ∈ CanonicalHeaderKey <$> connectionTokens h ++ hopByHopKeys)
    then None else h !! k.
Proof.
  unfold RemoveHopByHop. rewrite lookup_Del_list, lookup_Del_list, fmap_app.
  repeat case_decide; set_solver.
Qed.

(** Headers without hop-by-hop fields pass through unchanged. *)
Lemma RemoveHopByHop_id h :
  (forall k, k ∈ CanonicalHeaderKey <$> hopByHopKeys -> h !! k = None) ->
  RemoveHopByHop h = h.
Proof.
  intros H. apply map_eq. intros k. rewrite lookup_RemoveHopByHop, fmap_app.
  assert (connectionTokens h = []) as ->.
  { unfold connectionTokens, Values.
    rewrite (H (CanonicalHeaderKey headerConnection)); [done|]. by left. }
  case_decide; [|done]. symmetry. apply H. set_solver.
Qed.
End hop.

Section compare.
Context (primary shadow : header).

Lemma compareStep_fold b keys acc :
  let r := foldl (compareStep primary shadow b) acc keys in
  c_diffs r = (c_diffs acc ++ headerDiffsOf primary shadow keys)%list /\
  c_diff r = c_diff acc || bool_decide (headerDiffsOf primary shadow keys <> []).
Proof.
  revert acc. induction keys as [|key keys IH]; intros acc; simpl.
  { rewrite app_nil_r. by destruct (c_diff acc). }
  destruct (IH (compareStep primary shadow b acc key)) as [-> ->].
  unfold headerDiffsOf. rewrite filter_cons.
  fold (joined primary key) (joined shadow key).
  assert (forall x, joined x key = Join (Values x (CanonicalHeaderKey key)) ",") as Hj by done.
  unfold compareStep. rewrite <-!Hj.
  destruct (decide (joined primary key = joined shadow key)) as [E|E].
  - rewrite (decide_False (P := _ <> _)) by tauto.
    by destruct (_ && _ && _); rewrite ?decide_True by done.
  - rewrite (decide_True (P := _ <> _)) by done.
    assert (negb b && bool_decide (joined primary key = "") &&
            bool_decide (joined shadow key = "") = false) as ->.
    { destruct (bool_decide_reflect (joined primary key = "")),
        (bool_decide_reflect (joined shadow key = "")), b; simpl; congruence. }
    simpl. rewrite <-app_assoc. split; [done|].
    by destruct (c_diff acc).
Qed.

(** Everything a comparison reports is under canonical keys. *)
Lemma CompareDetailed_canonical b keys k :
  ~ canonical k ->
  let r := CompareDetailed primary shadow keys b in
  c_p r !! k = None /\ c_s r !! k = None /\ Forall (fun d => hd_Key d <> k) (c_diffs r).
Proof.
  intros Hk. unfold CompareDetailed.
  assert (forall acc, c_p acc !! k = None -> c_s acc !! k = None ->
    Forall (fun d => hd_Key d <> k) (c_diffs acc) ->
    let r := foldl (compareStep primary shadow b) acc keys in
    c_p r !! k = None /\ c_s r !! k = None /\ Forall (fun d => hd_Key d <> k) (c_diffs r)) as Hf.
  { induction keys as [|key keys' IH]; intros acc Hp Hs Hd; [done|]. simpl foldl.
    assert (CanonicalHeaderKey key <> k) as Hne by (intros <-; apply Hk; auto with doppel).
    apply IH; unfold compareStep; (destruct (_ && _); [done|]);
      (destruct (decide (_ = _)); cbn [c_p c_s c_diffs]);
      rewrite ?lookup_insert_ne by done; try done.
    apply Forall_app. split; [done|]. by constructor. }
  apply Hf; [apply lookup_empty..|constructor].
Qed.

Lemma CompareDetailed_diffs b keys :
  c_diffs (CompareDetailed primary shadow keys b) = headerDiffsOf primary shadow keys.
Proof. unfold CompareDetailed. by rewrite (proj1 (compareStep_fold _ _ _)). Qed.

Lemma CompareDetailed_diff b keys :
  c_diff (CompareDetailed primary shadow keys b) =
    bool_decide (headerDiffsOf primary shadow keys <> []).
Proof. unfold CompareDetailed. by rewrite (proj2 (compareStep_fold _ _ _)). Qed.

(** The keys the two maps hold. *)
Lemma compareStep_dom b keys acc k :
  c_p (foldl (compareStep primary shadow b) acc keys) !! k =
    if decide (Exists (fun key => CanonicalHeaderKey key = k /\
                 (b = true \/ joined primary key <> "" \/ joined shadow key <> "")) keys)
    then Some (Join (Values primary k) ",") else c_p acc !! k.
Proof.
  revert acc. induction keys as [|key keys IH]; intros acc; simpl foldl.
  { rewrite decide_False; [done|]. by intros ?%Exists_nil. }
  rewrite IH. case_decide as H1.
  { rewrite decide_True; [done|]. by apply Exists_cons_tl. }
  unfold compareStep.
  change (Join (Values ?h (CanonicalHeaderKey key)) ",") with (joined h key).
  destruct (negb b && _ && _) eqn:E.
  - rewrite decide_False; [done|]. rewrite Exists_cons.
    apply andb_true_iff in E as [[E1%negb_true_iff E2]%andb_true_iff E3].
    apply bool_decide_eq_true in E2, E3. naive_solver congruence.
  - assert (b = true \/ joined primary key <> "" \/ joined shadow key <> "") as Hb.
    { destruct b; [by left|right]. simpl in E.
      apply andb_false_iff in E. rewrite !bool_decide_eq_false in E. tauto. }
    destruct (decide (CanonicalHeaderKey key = k)) as [<-|Hk].
    + rewrite (decide_True (P := Exists _ _)) by (by apply Exists_cons_hd).
      destruct (decide (joined primary key = _)); simpl; by rewrite lookup_insert_eq.
    + rewrite (decide_False (P := Exists _ _)) by (rewrite Exists_cons; tauto).
      destruct (decide (joined primary key = _)); simpl; by rewrite lookup_insert_ne.
Qed.
End compare.

Section write.
Implicit Types (w : header) (items : list (string * list string)).

Lemma fold_Add w ck vs k :
  canonical ck ->
  foldl (fun w v => Add w ck v) w vs !! k =
    if decide (k = ck)
    then (if decide (vs = []) then w !! ck else Some (default [] (w !! ck) ++ vs)%list)
    else w !! k.
Proof.
  intros Hc. revert w. induction vs as [|v vs IH]; intros w.
  { simpl. case_decide; by subst. }
  simpl foldl. rewrite IH. unfold Add, Values. rewrite Hc.
  destruct (decide (k = ck)) as [->|Hk].
  - rewrite (decide_False (P := v :: vs = [])) by done.
    case_decide; subst; rewrite lookup_insert_eq; simpl; by rewrite <-?app_assoc.
  - by rewrite lookup_insert_ne.
Qed.

(** One item of the range, when its key is canonical. *)
Lemma write_item w ck vs k :
  canonical ck ->
  foldl (fun w v => Add w ck v) (Del w ck) vs !! k =
    if decide (k = ck) then (if decide (vs = []) then None else Some vs) else w !! k.
Proof.
  intros Hc. rewrite fold_Add by done. unfold Del. rewrite Hc.
  rewrite lookup_delete_eq. repeat case_decide; try done.
  by rewrite lookup_delete_ne.
Qed.

Lemma lookup_WriteSelected_items w items allow k :
  NoDup items.*1 -> Forall canonical items.*1 ->
  WriteSelected w items allow !! k =
    if decide (k ∈ CanonicalHeaderKey <$> allow) then
      match list_to_map (M := header) items !! k with
      | Some [] => None
      | Some vs => Some vs
      | None => w !! k
      end
    else w !! k.
Proof.
  revert w. induction items as [|[i vs] items IH]; intros w; simpl.
  { intros _ _. case_decide; [|done]. by rewrite lookup_empty. }
  intros [Hi Hnd]%NoDup_cons [Hc Hcs]%Forall_cons_1. unfold WriteSelected in *. simpl.
  rewrite IH by done. rewrite Hc.
  destruct (decide (k ∈ CanonicalHeaderKey <$> allow)) as [Hk|Hk].
  - destruct (decide (i = k)) as [->|Hik].
    + rewrite lookup_insert_eq, (not_elem_of_list_to_map_1 items k) by done.
      rewrite decide_True by done. rewrite write_item by done.
      rewrite decide_True by done. by destruct vs.
    + rewrite lookup_insert_ne by done. case_match; [done|].
      case_decide; [|done]. rewrite write_item by done. by rewrite decide_False.
  - case_decide as Hi'; [|done]. rewrite write_item by done.
    rewrite decide_False; [done|]. congruence.
Qed.

Lemma lookup_WriteSelected w src items allow k :
  items ≡ₚ map_to_list src -> canonical_header src ->
  WriteSelected w items allow !! k =
    if decide (k ∈ CanonicalHeaderKey <$> allow) then
      match src !! k with
      | Some [] => None
      | Some vs => Some vs
      | None => w !! k
      end
    else w !! k.
Proof.
  intros Hp Hc.
  assert (NoDup items.*1) as Hnd by (rewrite Hp; apply NoDup_fst_map_to_list).
  rewrite lookup_WriteSelected_items; [|done|].
  - rewrite (list_to_map_proper items (map_to_list src)) by done.
    by rewrite list_to_map_to_list.
  - apply Forall_fmap, Forall_forall. intros [i vs] Hi. simpl.
    rewrite Hp in Hi. apply elem_of_map_to_list in Hi. by apply (Hc i vs).
Qed.
End write.

(** ** Properties *)

(** After [RemoveHopByHop] exactly the hop-by-hop headers and the headers
    named by a token of [Connection] are gone, every other header keeps its
    values, and doing it again changes nothing. *)
Theorem RemoveHopByHop_spec h :
  (forall k, RemoveHopByHop h !! k =
     if decide (k ∈ CanonicalHeaderKey <$> connectionTokens h ++ hopByHopKeys)
     then None else h !! k) /\
  RemoveHopByHop (RemoveHopByHop h) = RemoveHopByHop h.
Proof.
  split; [apply lookup_RemoveHopByHop|]. apply RemoveHopByHop_id. intros k Hk.
  rewrite lookup_RemoveHopByHop, decide_True; [done|]. rewrite fmap_app. set_solver.
Qed.

(** [CompareDetailed] reports a difference exactly when some compared
    key has different joined values; the diffs are those keys in the order of
    the key list, and the logged values are the joined values of the keys that
    are not skipped as empty on both sides. *)
Theorem CompareDetailed_spec primary shadow keys includeEmpty :
  let r := CompareDetailed primary shadow keys includeEmpty in
  c_diffs r = headerDiffsOf primary shadow keys /\
  (c_diff r = true <-> exists key, key ∈ keys /\ joined primary key <> joined shadow key) /\
  (forall k v, c_p r !! k = Some v <->
     v = Join (Values primary k) "," /\
     exists key, key ∈ keys /\ CanonicalHeaderKey key = k /\
       (includeEmpty = true \/ joined primary key <> "" \/ joined shadow key <> "")).
Proof.
  intros r. unfold r. split; [apply CompareDetailed_diffs|]. split.
  - rewrite CompareDetailed_diff, bool_decide_eq_true. unfold headerDiffsOf. split.
    + intros H. destruct (filter _ keys) as [|key l] eqn:E; [done|].
      assert (key ∈ filter (fun key => joined primary key <> joined shadow key) keys) as Hk
        by (rewrite E; left).
      apply list_elem_of_filter in Hk as [??]. by exists key.
    + intros (key & Hk & Hd) E. apply fmap_nil_inv in E.
      assert (key ∈ filter (fun key => joined primary key <> joined shadow key) keys) as Hf
        by by apply list_elem_of_filter.
      rewrite E in Hf. by apply not_elem_of_nil in Hf.
  - intros k v. unfold CompareDetailed. rewrite compareStep_dom. simpl. case_decide as HE.
    + apply Exists_exists in HE as (key & ? & ? & ?). naive_solver.
    + rewrite lookup_empty. split; [done|]. intros (_ & key & Hk & Hc & Hv).
      exfalso. apply HE, Exists_exists. naive_solver.
Qed.

(** [WriteSelected] forwards a response header to the client only when
    its key is allowed, with all its values in order; keys that are not
    allowed, or that the source lacks, keep what the client header had.  The
    order in which Go ranges over the source does not matter. *)
Theorem WriteSelected_spec w src items allow k :
  items ≡ₚ map_to_list src -> canonical_header src ->
  WriteSelected w items allow !! k =
    if decide (k ∈ CanonicalHeaderKey <$> allow) then
      match src !! k with
      | Some [] => None
      | Some vs => Some vs
      | None => w !! k
      end
    else w !! k.
Proof.
  apply lookup_WriteSelected.
Qed.

Lemma WriteSelected_spec_witness :
  let src : header := {[ "Set-Cookie" := ["a"; "b"]; "Server" := ["x"] ]} in
  WriteSelected ∅ (map_to_list src) ["set-cookie"] !! "Set-Cookie" = Some ["a"; "b"].
Proof.
  intros src. rewrite (WriteSelected_spec ∅ src).
  - vm_compute. reflexivity.
  - reflexivity.
  - unfold canonical_header, src. apply map_Forall_insert_2; [reflexivity|].
    apply map_Forall_singleton. reflexivity.
Defined.
