(* ===== verification/PathMapper.v ===== *)
(** * [internal/mapping]: primary and shadow paths of an incoming path *)
From S2P Require Export GoRegexp.

Module mapping.
Section mapping.
Context `{Regexp} `{Unicode}.

Record Rule := { r_Match : string; r_Primary : string; r_Shadow : string }.
Record Config := { c_Mode : string; c_Rules : list Rule }.

Record compiledRule := { pattern : regex; primary : string; shadow : string }.

Inductive PathMapper :=
  | DirectMapper
  | RegexMapper (rules : list compiledRule).

Definition newRegexMapper (cfg : Config) : res PathMapper :=
  compiled ← res_map (fun rule =>
    if decide (TrimSpace (r_Match rule) = "")
    then Err (errors_New "path mapping rule match is required")
    else match regexp_Compile (r_Match rule) with
         | Err e => Err (errors_Wrap ("invalid path mapping rule regex: " +:+ Error e) e)
         | Ok p => Ok {| pattern := p; primary := r_Primary rule; shadow := r_Shadow rule |}
         end) (c_Rules cfg);
  mret (RegexMapper compiled).

Definition NewPathMapper (cfg : Config) : res PathMapper :=
  let mode := ToLower (TrimSpace (c_Mode cfg)) in
  let mode := if decide (mode = "") then "direct" else mode in
  if decide (mode = "direct") then Ok DirectMapper
  else if decide (mode = "rewrite") then newRegexMapper cfg
  else Err (errors_New ("unsupported path mapping mode: " +:+ c_Mode cfg)).

(** The loop of [RegexMapper.Map]: [continue] on a mismatch, [break] after
    the first match. *)
Fixpoint regexMap (rules : list compiledRule) (path : string) : string * string :=
  match rules with
  | [] => (path, path)
  | rule :: rules' =>
      if MatchString (pattern rule) path then
        (if decide (primary rule = "") then path
         else ReplaceAllString (pattern rule) path (primary rule),
         if decide (shadow rule = "") then path
         else ReplaceAllString (pattern rule) path (shadow rule))
      else regexMap rules' path
  end.

Definition Map_ (m : PathMapper) (path : string) : res (string * string) :=
  match m with
  | DirectMapper => Ok (path, path)
  | RegexMapper rules => Ok (regexMap rules path)
  end.

(** ** Specification: the first matching rule, read off the configuration *)

Definition configMatch (path : string) (rule : Rule) : Prop :=
  exists p, regexp_Compile (r_Match rule) = Ok p /\ MatchString p path = true.

Definition expand (path template pat : string) : string :=
  if decide (template = "") then path else
  match regexp_Compile pat with
  | Ok p => ReplaceAllString p path template
  | Err _ => path
  end.

(** ** Lemmas *)

Lemma newRegexMapper_ok cfg m :
  newRegexMapper cfg = Ok m <->
  exists rs, m = RegexMapper rs /\
    Forall2 (fun rule c => TrimSpace (r_Match rule) <> "" /\
      regexp_Compile (r_Match rule) = Ok (pattern c) /\
      primary c = r_Primary rule /\ shadow c = r_Shadow rule) (c_Rules cfg) rs.
Proof.
  unfold newRegexMapper.
  rewrite res_bind_ok. setoid_rewrite res_map_ok.
  split.
  - intros (rs & HF & [= <-]). exists rs. split; [done|].
    eapply Forall2_impl; [done|]. intros rule c Hc. simpl in Hc.
    case_decide; [done|]. destruct (regexp_Compile _); [|done]. by injection Hc as <-.
  - intros (rs & -> & HF). exists rs. split; [|done].
    eapply Forall2_impl; [done|]. intros rule c (Ht & Hc & Hp & Hs). simpl.
    rewrite decide_False by done. rewrite Hc, <-Hp, <-Hs. by destruct c.
Qed.

Lemma regexMap_split rules1 rule rules2 path :
  Forall (fun r => MatchString (pattern r) path = false) rules1 ->
  MatchString (pattern rule) path = true ->
  regexMap (rules1 ++ rule :: rules2) path =
    (if decide (primary rule = "") then path
     else ReplaceAllString (pattern rule) path (primary rule),
     if decide (shadow rule = "") then path
     else ReplaceAllString (pattern rule) path (shadow rule)).
Proof.
  intros HF Hm. induction HF as [|r rs Hr HF IH]; simpl; [by rewrite Hm|]. by rewrite Hr.
Qed.

Lemma regexMap_none rules path :
  Forall (fun r => MatchString (pattern r) path = false) rules ->
  regexMap rules path = (path, path).
Proof. induction 1 as [|r rs Hr HF IH]; simpl; [done|]. by rewrite Hr. Qed.

Lemma matches_none path rules rs :
  Forall2 (fun rule c => TrimSpace (r_Match rule) <> "" /\
      regexp_Compile (r_Match rule) = Ok (pattern c) /\
      primary c = r_Primary rule /\ shadow c = r_Shadow rule) rules rs ->
  Forall (fun r => ~ configMatch path r) rules ->
  Forall (fun r => MatchString (pattern r) path = false) rs.
Proof.
  induction 1 as [|rule c rules rs (Ht & Hc & Hp & Hs) HF IH]; [constructor|].
  intros [Hr Hrs]%Forall_cons_1. constructor; [|by apply IH].
  apply not_true_is_false. intros Hm. apply Hr. by exists (pattern c).
Qed.

(** A mapper built from a valid configuration never fails.  In direct
    mode both backends get the incoming path; in rewrite mode the first rule
    whose pattern matches decides both paths, an empty template keeps the
    incoming path, and so does the absence of a match. *)
Theorem Map_first_match cfg m path :
  NewPathMapper cfg = Ok m ->
  (ToLower (TrimSpace (c_Mode cfg)) <> "rewrite" -> Map_ m path = Ok (path, path)) /\
  (ToLower (TrimSpace (c_Mode cfg)) = "rewrite" ->
   (forall rules1 rule rules2,
      c_Rules cfg = (rules1 ++ rule :: rules2)%list ->
      Forall (fun r => ~ configMatch path r) rules1 -> configMatch path rule ->
      Map_ m path = Ok (expand path (r_Primary rule) (r_Match rule),
                        expand path (r_Shadow rule) (r_Match rule))) /\
   (Forall (fun r => ~ configMatch path r) (c_Rules cfg) -> Map_ m path = Ok (path, path))).
Proof.
  unfold NewPathMapper. intros Hm.
  set (mode := ToLower (TrimSpace (c_Mode cfg))) in *. split.
  - intros Hr. repeat case_decide; try done; by injection Hm as <-.
  - intros Hr. rewrite Hr in Hm. simpl in Hm.
    apply newRegexMapper_ok in Hm as (rs & -> & HF). simpl. split.
    + intros rules1 rule rules2 HR H1 (p & Hp & Hpm). rewrite HR in HF.
      apply Forall2_app_inv_l in HF as (rs1 & rs2 & HF1 & HF2 & ->).
      inversion HF2 as [|? c ? rs3 (Ht & Hc & Hcp & Hcs) _]; subst.
      rewrite Hp in Hc. injection Hc as Hc.
      rewrite regexMap_split; [|by eapply matches_none|by rewrite <-Hc].
      unfold expand. by rewrite Hcp, Hcs, Hp, Hc.
    + intros HN. rewrite regexMap_none; [done|]. by eapply matches_none.
Qed.
End mapping.

Definition exampleConfig : Config :=
  {| c_Mode := " Rewrite"; c_Rules :=
     [ {| r_Match := "^/api/v1/"; r_Primary := "/v1/"; r_Shadow := "" |};
       {| r_Match := "^/api/"; r_Primary := "/x/"; r_Shadow := "/legacy/" |} ] |}.

Lemma Map_first_match_witness :
  let H := literalRegexp in let H0 := asciiUnicode in
  exists m, NewPathMapper exampleConfig = Ok m /\
    Map_ m "/api/v2/a" = Ok ("/x/v2/a", "/legacy/v2/a").
Proof.
  intros H H0. destruct (NewPathMapper exampleConfig) as [m|e] eqn:E; [|discriminate].
  exists m. split; [reflexivity|].
  rewrite (proj1 (proj2 (Map_first_match exampleConfig m "/api/v2/a" E) ltac:(reflexivity))
    [nth 0 (c_Rules exampleConfig) {| r_Match := ""; r_Primary := ""; r_Shadow := "" |}]
    {| r_Match := "^/api/"; r_Primary := "/x/"; r_Shadow := "/legacy/" |} []).
  - reflexivity.
  - reflexivity.
  - repeat constructor. intros (p & Hp & Hm). injection Hp as <-. vm_compute in Hm. discriminate.
  - exists "^/api/". split; reflexivity.
Defined.
End mapping.
