(* ===== verification/PathRules.v ===== *)
(** * [internal/pathrules]: shadow and comparison policy of a method and path *)
From S2P Require Export GoRegexp ConfigTypes.

Module pathrules.
Inductive ShadowMode := ShadowModeInherit | ShadowModeAuto | ShadowModeNever | ShadowModeAlways.
Inductive CompareDecision := CompareDecisionInherit | CompareDecisionOn | CompareDecisionOff.

#[export] Instance ShadowMode_eq_dec : EqDecision ShadowMode.
Proof. solve_decision. Defined.
#[export] Instance CompareDecision_eq_dec : EqDecision CompareDecision.
Proof. solve_decision. Defined.

(** The text of a mode in logs. *)
Definition ShadowMode_string (m : ShadowMode) : string :=
  match m with
  | ShadowModeInherit => "inherit" | ShadowModeAuto => "auto"
  | ShadowModeNever => "never" | ShadowModeAlways => "always"
  end.

Definition SkipReasonPathRule : string := "path_rule".
Definition SkipReasonPathUnmatched : string := "path_unmatched".

Record Decision := {
  RuleName : string;
  d_ShadowMode : ShadowMode;
  d_CompareDecision : CompareDecision;
  CompareMode : string;
  CompareHeaders : option (list string);
  CompareHeadersSet : bool;
  PrimaryRequestHeaders : option (gmap string string);
  ShadowRequestHeaders : option (gmap string string);
  ShadowSkipReason : string;
  CompareSkipReason : string
}.

(** A [Decision] literal with only the modes and skip reasons set. *)
Definition plainDecision (m : ShadowMode) (c : CompareDecision) (reason : string) : Decision :=
  {| RuleName := ""; d_ShadowMode := m; d_CompareDecision := c; CompareMode := "";
     CompareHeaders := None; CompareHeadersSet := false; PrimaryRequestHeaders := None;
     ShadowRequestHeaders := None; ShadowSkipReason := reason; CompareSkipReason := reason |}.

Definition shadowMode (raw : string) : ShadowMode :=
  let s := TrimSpace raw in
  if decide (s = "auto") then ShadowModeAuto
  else if decide (s = "never") then ShadowModeNever
  else if decide (s = "always") then ShadowModeAlways
  else ShadowModeInherit.

Definition compareDecision (raw : string) : CompareDecision :=
  let s := TrimSpace raw in
  if decide (s = "on") then CompareDecisionOn
  else if decide (s = "off") then CompareDecisionOff
  else CompareDecisionInherit.

Definition pathRuleName (index : Z) (name : string) : string :=
  let trimmed := TrimSpace name in
  if decide (trimmed = "") then "rule[" +:+ Itoa index +:+ "]" else trimmed.

(** Copies: a fresh slice or map with the same content, [nil] for [nil]. *)
Definition cloneStrings (values : option (list string)) : option (list string) :=
  match values with None => None | Some l => Some (copy_slice l) end.
Definition cloneStringMap (values : option (gmap string string)) : option (gmap string string) :=
  match values with None => None | Some m => Some (copy_map m) end.

Section rules.
Context `{Regexp} `{Unicode}.

Record compiledRule := {
  name : string;
  methods : option (gset string);
  pattern : regex;
  shadow : ShadowMode;
  compare : CompareDecision;
  compareMode : string;
  compareHeaders : option (list string);
  compareHeadersSet : bool;
  primaryRequestHeaders : option (gmap string string);
  shadowRequestHeaders : option (gmap string string)
}.

(** A [*Resolver]: [None] is the nil pointer. *)
Definition Resolver := option (list compiledRule).

Definition compileMethods (ms : option (list string)) : option (gset string) :=
  match default [] ms with
  | [] => None
  | l => Some (foldl (fun compiled m => {[ ToUpper (TrimSpace m) ]} ∪ compiled) ∅ l)
  end.

Definition compileRule (i : Z) (rule : PathRule) : res compiledRule :=
  match regexp_Compile (pr_Match rule) with
  | Err e => Err (errors_Wrap ("path rule " +:+ Itoa i +:+ " regex: " +:+ Error e) e)
  | Ok p => Ok {|
      name := pathRuleName i (pr_Name rule);
      methods := compileMethods (pr_Methods rule);
      pattern := p;
      shadow := shadowMode (pr_Shadow rule);
      compare := compareDecision (pr_Compare rule);
      compareMode := TrimSpace (pr_CompareMode rule);
      compareHeaders := cloneStrings (pr_CompareHeaders rule);
      compareHeadersSet := bool_decide (pr_CompareHeaders rule <> None);
      primaryRequestHeaders := cloneStringMap (pr_PrimaryRequestHeaders rule);
      shadowRequestHeaders := cloneStringMap (pr_ShadowRequestHeaders rule) |}
  end.

Fixpoint compileRules (i : Z) (rules : list PathRule) : res (list compiledRule) :=
  match rules with
  | [] => Ok []
  | rule :: rules' =>
      c ← compileRule i rule; cs ← compileRules (i + 1) rules'; mret (c :: cs)
  end.

Definition NewResolver (rules : list PathRule) : res Resolver :=
  compiled ← compileRules 0 rules; mret (Some compiled).

Definition matchesMethod (r : compiledRule) (method : string) : bool :=
  match methods r with
  | None => true
  | Some ms => if decide (ms = ∅) then true else bool_decide (method ∈ ms)
  end.

Definition decision (r : compiledRule) : Decision :=
  let never := bool_decide (shadow r = ShadowModeNever) in
  let off := bool_decide (compare r = CompareDecisionOff) in
  {| RuleName := name r;
     d_ShadowMode := shadow r;
     d_CompareDecision := compare r;
     CompareMode := compareMode r;
     CompareHeaders := cloneStrings (compareHeaders r);
     CompareHeadersSet := compareHeadersSet r;
     PrimaryRequestHeaders := cloneStringMap (primaryRequestHeaders r);
     ShadowRequestHeaders := cloneStringMap (shadowRequestHeaders r);
     ShadowSkipReason := if never then SkipReasonPathRule else "";
     CompareSkipReason := if never || off then SkipReasonPathRule else "" |}.

Fixpoint resolveLoop (rules : list compiledRule) (normalizedMethod path : string) : Decision :=
  match rules with
  | [] => plainDecision ShadowModeNever CompareDecisionOff SkipReasonPathUnmatched
  | rule :: rules' =>
      if negb (matchesMethod rule normalizedMethod) || negb (MatchString (pattern rule) path)
      then resolveLoop rules' normalizedMethod path
      else decision rule
  end.

Definition Resolve (r : Resolver) (method path : string) : Decision :=
  match r with
  | None | Some [] => plainDecision ShadowModeInherit CompareDecisionInherit ""
  | Some rules => resolveLoop rules (ToUpper (TrimSpace method)) path
  end.

(** ** Specification: rules read off the configuration *)

(** Rule [rule] of the configuration admits the request. *)
Definition ruleAdmits (rule : PathRule) (method path : string) : Prop :=
  (default [] (pr_Methods rule) = [] \/
   ToUpper (TrimSpace method) ∈ (fun m => ToUpper (TrimSpace m)) <$> default [] (pr_Methods rule)) /\
  exists p, regexp_Compile (pr_Match rule) = Ok p /\ MatchString p path = true.

(** The decision a matched rule gives, read off the configuration. *)
Definition configDecision (i : Z) (rule : PathRule) : Decision :=
  let m := shadowMode (pr_Shadow rule) in
  let c := compareDecision (pr_Compare rule) in
  {| RuleName := pathRuleName i (pr_Name rule);
     d_ShadowMode := m;
     d_CompareDecision := c;
     CompareMode := TrimSpace (pr_CompareMode rule);
     CompareHeaders := pr_CompareHeaders rule;
     CompareHeadersSet := match pr_CompareHeaders rule with Some _ => true | None => false end;
     PrimaryRequestHeaders := pr_PrimaryRequestHeaders rule;
     ShadowRequestHeaders := pr_ShadowRequestHeaders rule;
     ShadowSkipReason := match m with ShadowModeNever => SkipReasonPathRule | _ => "" end;
     CompareSkipReason :=
       match m, c with
       | ShadowModeNever, _ | _, CompareDecisionOff => SkipReasonPathRule
       | _, _ => ""
       end |}.

(** ** Lemmas *)

Lemma cloneStrings_id v : cloneStrings v = v.
Proof. destruct v; [|done]. simpl. by rewrite copy_slice_id. Qed.

Lemma cloneStringMap_id v : cloneStringMap v = v.
Proof. destruct v; [|done]. simpl. by rewrite copy_map_id. Qed.

Lemma elem_of_compileMethods_fold (l : list string) (acc : gset string) m :
  m ∈ foldl (fun compiled m => {[ ToUpper (TrimSpace m) ]} ∪ compiled) acc l <->
  m ∈ acc \/ m ∈ (fun m => ToUpper (TrimSpace m)) <$> l.
Proof.
  revert acc. induction l as [|x l IH]; intros acc; simpl.
  { rewrite elem_of_nil. tauto. }
  rewrite IH. set_solver.
Qed.

Lemma matchesMethod_compiled r ms m :
  methods r = compileMethods ms ->
  matchesMethod r m = true <->
  default [] ms = [] \/ m ∈ (fun m => ToUpper (TrimSpace m)) <$> default [] ms.
Proof.
  intros Hr. unfold matchesMethod. rewrite Hr. unfold compileMethods.
  destruct (default [] ms) as [|x l] eqn:E; [naive_solver|].
  set (s := foldl _ _ _).
  assert (ToUpper (TrimSpace x) ∈ s) as Hx.
  { apply elem_of_compileMethods_fold. right. by left. }
  rewrite decide_False by set_solver. rewrite bool_decide_eq_true. unfold s.
  rewrite elem_of_compileMethods_fold. set_solver.
Qed.

Lemma compileRules_app i rules1 rules2 cs :
  compileRules i (rules1 ++ rules2) = Ok cs <->
  exists cs1 cs2, cs = (cs1 ++ cs2)%list /\ compileRules i rules1 = Ok cs1 /\
    compileRules (i + Z.of_nat (length rules1)) rules2 = Ok cs2.
Proof.
  revert i cs. induction rules1 as [|r rules1 IH]; intros i cs; simpl.
  { rewrite Z.add_0_r. split; [intros; by exists [], cs | naive_solver]. }
  rewrite res_bind_ok. setoid_rewrite res_bind_ok. setoid_rewrite IH.
  replace (i + Z.of_nat (S (length rules1))) with (i + 1 + Z.of_nat (length rules1)) by lia.
  split.
  - intros (c & Hc & ? & (cs1 & cs2 & -> & H1 & H2) & [= <-]).
    exists (c :: cs1), cs2. split; [done|]. split; [|done].
    exists c. split; [done|]. by rewrite H1.
  - intros (cs1 & cs2 & -> & (c & Hc & H1) & H2).
    apply res_bind_ok in H1 as (cs1' & H1 & [= <-]).
    exists c. split; [done|]. exists (cs1' ++ cs2)%list. split; [|done]. by exists cs1', cs2.
Qed.

Lemma compileRule_admits i rule c method path :
  compileRule i rule = Ok c ->
  negb (matchesMethod c (ToUpper (TrimSpace method))) || negb (MatchString (pattern c) path) = false
  <-> ruleAdmits rule method path.
Proof.
  unfold compileRule, ruleAdmits. destruct (regexp_Compile (pr_Match rule)) as [p|] eqn:E; [|done].
  intros [= <-]. rewrite orb_false_iff, !negb_false_iff.
  rewrite (matchesMethod_compiled _ (pr_Methods rule)) by done. simpl. naive_solver.
Qed.

Lemma resolveLoop_skip i rules cs cs' method path :
  compileRules i rules = Ok cs ->
  Forall (fun r => ~ ruleAdmits r method path) rules ->
  resolveLoop (cs ++ cs') (ToUpper (TrimSpace method)) path =
  resolveLoop cs' (ToUpper (TrimSpace method)) path.
Proof.
  revert i cs. induction rules as [|r rules IH]; intros i cs; simpl.
  { by intros [= <-]. }
  intros (c & Hc & Hcs)%res_bind_ok [Hr Hrs]%Forall_cons_1.
  apply res_bind_ok in Hcs as (cs1 & Hcs & [= <-]). simpl.
  rewrite <-(compileRule_admits i r c) in Hr by done.
  apply not_false_is_true in Hr. rewrite Hr. by eapply IH.
Qed.

Lemma decision_compileRule i rule c :
  compileRule i rule = Ok c -> decision c = configDecision i rule.
Proof.
  unfold compileRule. destruct (regexp_Compile _); [|done]. intros [= <-].
  unfold decision, configDecision. simpl. rewrite !cloneStrings_id, !cloneStringMap_id.
  destruct (pr_CompareHeaders rule), (shadowMode _), (compareDecision _); done.
Qed.

Lemma Resolve_cons c cs method path :
  Resolve (Some (c :: cs)) method path = resolveLoop (c :: cs) (ToUpper (TrimSpace method)) path.
Proof. done. Qed.

Lemma NewResolver_ok rules r :
  NewResolver rules = Ok r -> exists cs, r = Some cs /\ compileRules 0 rules = Ok cs.
Proof. unfold NewResolver. intros (cs & Hcs & [= <-])%res_bind_ok. by exists cs. Qed.

(** The resolver applies the first rule, in configuration order, whose
    method list and pattern admit the request.  Without rules the global
    policy is inherited; with rules and no match shadowing and comparison are
    off, with the skip reason [path_unmatched]. *)
Theorem Resolve_first_match rules r method path :
  NewResolver rules = Ok r ->
  (rules = [] ->
     Resolve r method path = plainDecision ShadowModeInherit CompareDecisionInherit "") /\
  (forall rules1 rule rules2,
     rules = (rules1 ++ rule :: rules2)%list ->
     Forall (fun r => ~ ruleAdmits r method path) rules1 ->
     ruleAdmits rule method path ->
     Resolve r method path = configDecision (Z.of_nat (length rules1)) rule) /\
  (rules <> [] ->
     Forall (fun r => ~ ruleAdmits r method path) rules ->
     Resolve r method path =
       plainDecision ShadowModeNever CompareDecisionOff SkipReasonPathUnmatched).
Proof.
  intros (cs & -> & Hcs)%NewResolver_ok. split_and!.
  - intros ->. by injection Hcs as <-.
  - intros rules1 rule rules2 -> H1 Hrule.
    apply compileRules_app in Hcs as (cs1 & cs2 & -> & Hcs1 & Hcs2).
    simpl in Hcs2. apply res_bind_ok in Hcs2 as (c & Hc & Hcs2).
    apply res_bind_ok in Hcs2 as (cs3 & _ & [= <-]).
    assert (forall l, Resolve (Some (l ++ c :: cs3)%list) method path =
      resolveLoop (l ++ c :: cs3) (ToUpper (TrimSpace method)) path) as -> by by intros [].
    rewrite (resolveLoop_skip 0 rules1 cs1) by done. simpl.
    rewrite (proj2 (compileRule_admits _ rule c method path Hc)) by done.
    by apply decision_compileRule.
  - intros Hne HF. destruct rules as [|rule rules]; [done|].
    pose proof (resolveLoop_skip 0 _ cs [] method path Hcs HF) as Hl.
    rewrite app_nil_r in Hl.
    destruct cs as [|c cs]; [|by rewrite Resolve_cons].
    simpl in Hcs. apply res_bind_ok in Hcs as (? & _ & (? & _ & [=])%res_bind_ok).
Qed.
End rules.

(** Two rules: the first one wants a POST, the second one answers a GET of [/b]. *)
Definition postRule : PathRule :=
  {| pr_Name := ""; pr_Methods := Some ["post"]; pr_Match := "^/"; pr_Shadow := "always";
     pr_Compare := ""; pr_CompareMode := ""; pr_CompareHeaders := None;
     pr_PrimaryRequestHeaders := None; pr_ShadowRequestHeaders := None |}.
Definition bRule : PathRule :=
  {| pr_Name := " b "; pr_Methods := None; pr_Match := "^/b"; pr_Shadow := "never";
     pr_Compare := "on"; pr_CompareMode := "json"; pr_CompareHeaders := Some [];
     pr_PrimaryRequestHeaders := None; pr_ShadowRequestHeaders := None |}.

Lemma Resolve_first_match_witness :
  let H := literalRegexp in let H0 := asciiUnicode in
  exists r, NewResolver [postRule; bRule] = Ok r /\
    Resolve r " get" "/b/1" = configDecision 1 bRule /\
    Resolve r "get" "b" = plainDecision ShadowModeNever CompareDecisionOff "path_unmatched".
Proof.
  intros H H0. destruct (NewResolver [postRule; bRule]) as [r|e] eqn:E; [|discriminate].
  exists r. split; [reflexivity|]. split.
  - apply (proj1 (proj2 (Resolve_first_match _ r " get" "/b/1" E)) [postRule] bRule []).
    + reflexivity.
    + constructor; [|constructor]. intros [[Hm|Hm] _]; vm_compute in Hm; [discriminate|].
      apply list_elem_of_singleton in Hm. discriminate.
    + split; [left; reflexivity|]. exists "^/b". split; reflexivity.
  - apply (proj2 (proj2 (Resolve_first_match _ r "get" "b" E))); [discriminate|].
    repeat constructor; intros [_ (p & Hp & Hm)]; injection Hp as <-; vm_compute in Hm; discriminate.
Defined.
End pathrules.
