(* ===== verification/Router.v ===== *)
(** * [internal/proxy/router.go] on the vendored gin

    The route trees of [vendor/github.com/gin-gonic/gin] as far as routes without
    parameters and one catch-all reach them: such a tree has no node that is both
    indexed and a wildcard, so nothing is ever skipped and no match is undone.
    The target of a redirect is left out; a panic of the route registration is an
    error. *)
From S2P Require Export PathRules.

Module gin.

Inductive nodeType := static | root | catchAll.
#[export] Instance nodeType_eq_dec : EqDecision nodeType.
Proof. solve_decision. Defined.

(** [handlers] is the handlers chain, empty for nil. *)
Inductive node (H : Type) := Node {
  path : string; indices : list ascii; wildChild : bool; nType : nodeType; handlers : list H; children : list (node H)
}.
Arguments Node {H}.
Arguments path {H} _.
Arguments indices {H} _.
Arguments wildChild {H} _.
Arguments nType {H} _.
Arguments handlers {H} _.
Arguments children {H} _.

(** What a wildcard of the route stands for, the first parameter first. *)
Record Param := { Key : string; Value : string }.
Definition Params : Type := list Param.

Section tree.
Context {H : Type}.
Implicit Types (n : node H) (hs : list H).

(** *** [tree.go] *)

Definition newNode : node H := Node "" [] false static [] [].

(** The wildcard with its index, and whether it is valid; a backslash escapes a
    colon. *)
Fixpoint findWildcard (escapeColon : bool) (l : list ascii) (start : nat) : res (option (list ascii * nat * bool)) :=
  match l with
  | [] => Ok None
  | c :: l' =>
      if escapeColon then
        if decide (c = ":"%char) then findWildcard false l' (S start) else Err (errors_New "invalid escape string in path")
      else if decide (c = chr 92) then findWildcard true l' (S start)
      else if bool_decide (c = ":"%char) || bool_decide (c = "*"%char) then
        let segment := (fix go l := match l with [] => [] | c :: l => if decide (c = "/"%char) then [] else c :: go l end) l' in
        Ok (Some (c :: segment, start, negb (existsb (fun c => bool_decide (c = ":"%char) || bool_decide (c = "*"%char)) segment)))
      else findWildcard false l' (S start)
  end.

(** On the fresh node of a new tree; a path parameter is left out. *)
Definition insertChild (p : string) hs : res (node H) :=
  found ← findWildcard false (chars p) 0;
  match found with
  | None => Ok (Node p [] false static hs [])
  | Some (wildcard, i, valid) =>
      if negb valid then Err (errors_New "only one wildcard per path segment is allowed")
      else if (length wildcard <? 2)%nat then Err (errors_New "wildcards must be named with a non-empty name")
      else if decide (head wildcard = Some ":"%char) then Err (errors_New "path parameter")
      else if negb (i + length wildcard =? length (chars p))%nat then
        Err (errors_New "catch-all routes are only allowed at the end of the path")
      else
        let i := Z.of_nat i - 1 in
        if (i <? 0) || negb (bool_decide (nth_error (chars p) (Z.to_nat i) = Some "/"%char)) then Err (errors_New "no / before catch-all")
        else
          let child := Node "" [] true catchAll [] [Node (of_chars (drop (Z.to_nat i) (chars p))) [] false catchAll hs []] in
          Ok (Node (of_chars (take (Z.to_nat i) (chars p))) ["/"%char] false static [] [child])
  end.
(** [addRoute] on an empty tree. *)
Definition addRoute (p : string) hs : res (node H) :=
  n ← insertChild p hs; Ok (Node (path n) (indices n) (wildChild n) root (handlers n) (children n)).

(** The children by their index, and the last one. *)
Definition childAt n (c : ascii) : option (node H) :=
  match list_find (fun p => p.1 = c) (zip (indices n) (children n)) with Some (_, (_, child)) => Some child | None => None end.

Definition isNonEmpty hs : bool := match hs with [] => false | _ => true end.
(** [Params.Get] is the value and whether the first parameter of that name
    exists. *)
Definition Get (ps : Params) (name : string) : string * bool :=
  match list_find (fun entry => Key entry = name) ps with Some (_, entry) => (Value entry, true) | None => ("", false) end.
Definition ByName (ps : Params) (name : string) : string := (Get ps name).1.

(** The handlers, empty when there is no route, the parameters, and the
    recommendation of a redirect; [None] is a panic. *)
Fixpoint getValue (fuel : nat) n (p : string) : option (list H * Params * bool) :=
  match fuel with
  | O => None
  | S fuel =>
      let prefix := path n in
      if (len prefix <? len p) && HasPrefix p prefix then
        let p' := TrimPrefix p prefix in
        match head (chars p') ≫= childAt n with
        | Some child => getValue fuel child p'
        | None =>
            if negb (wildChild n) then Some ([], [], bool_decide (p' = "/") && isNonEmpty (handlers n))
            else match last (children n) with
                 | Some child =>
                     if decide (nType child = catchAll)
                     then Some (handlers child, [{| Key := of_chars (drop 2 (chars (path child))); Value := p' |}], false) else None
                 | None => None
                 end
        end
      else if decide (p = prefix) then
        if isNonEmpty (handlers n) then Some (handlers n, [], false)
        else if bool_decide (p = "/") && wildChild n && negb (bool_decide (nType n = root)) then Some ([], [], true)
        else if bool_decide (p = "/") && bool_decide (nType n = static) then Some ([], [], true)
        else match childAt n "/" with
             | Some child =>
                 Some ([], [], ((len (path child) =? 1) && isNonEmpty (handlers child)) ||
                           (bool_decide (nType child = catchAll) && existsb (fun c => isNonEmpty (handlers c)) (take 1 (children child))))
             | None => Some ([], [], false)
             end
      else Some ([], [], bool_decide (p = "/") ||
                     ((len prefix =? len p + 1) && bool_decide (prefix = p +:+ "/") && isNonEmpty (handlers n)))
  end.

(** *** [routergroup.go] and [gin.go] *)

Definition anyMethods : list string := ["GET"; "POST"; "PUT"; "PATCH"; "HEAD"; "OPTIONS"; "DELETE"; "CONNECT"; "TRACE"].
(** The trees in the order of their methods, each with one route, and the
    middleware. *)
Record Engine := { Handlers : list H; trees : list (string * node H) }.
Definition New : Engine := {| Handlers := []; trees := [] |}.
Definition Use (e : Engine) (h : H) : Engine := {| Handlers := (Handlers e ++ [h])%list; trees := trees e |}.
(** [p] is a clean path under the group [/]; a second route for a method is left
    out. *)
Definition handle (e : Engine) (method p : string) (h : H) : res Engine :=
  _ ← (if HasPrefix p "/" then Ok tt else Err (errors_New "path must begin with '/'"));
  tree ← addRoute p (Handlers e ++ [h])%list;
  if decide (method ∈ (trees e).*1) then Err (errors_New "second route") else Ok {| Handlers := Handlers e; trees := (trees e ++ [(method, tree)])%list |}.
Fixpoint handleAll (e : Engine) (methods : list string) (p : string) (h : H) : res Engine :=
  match methods with [] => Ok e | m :: methods => e ← handle e m p h; handleAll e methods p h end.
Definition Any (e : Engine) (p : string) (h : H) : res Engine := handleAll e anyMethods p h.

(** How a request is answered: by a chain with the parameters in its context, by a
    redirect to the path with a slash, by 404; or a panic. *)
Inductive answer := Run (chain : list H) (params : Params) | Redirect (code : Z) | NotFound | Panic.
Definition redirectRequest (method : string) : answer := Redirect (if decide (method = "GET") then 301 else 307).
(** With the options [New] sets: no fixed path is looked for, and a method that
    is not allowed is not told apart.  The depth of the trees is at most 3. *)
Definition handleHTTPRequest (e : Engine) (method rPath : string) : answer :=
  match list_find (fun t => t.1 = method) (trees e) with
  | None => NotFound
  | Some (_, (_, tree)) =>
      match getValue 3 tree rPath with
      | None => Panic
      | Some (chain, params, tsr) =>
          if isNonEmpty chain then Run chain params
          else if bool_decide (method <> "CONNECT") && bool_decide (rPath <> "/") && tsr then redirectRequest method
          else NotFound
      end
  end.
End tree.
Arguments Engine : clear implicits.
Arguments answer : clear implicits.
End gin.

Module router.
Import gin.

Section router.
Context {H : Type}.
Implicit Types (recovery handle : H).

Definition NewRouter recovery handle : res (Engine H) := Any (Use New recovery) "/*path" handle.

(** The tree of every method. *)
Definition catchAllTree (hs : list H) : node H :=
  Node "" ["/"%char] false root [] [Node "" [] true catchAll [] [Node "/*path" [] false catchAll hs []]].
Lemma NewRouter_trees recovery handle :
  NewRouter recovery handle =
    Ok {| Handlers := [recovery]; trees := (fun m => (m, catchAllTree [recovery; handle])) <$> anyMethods |}.
Proof. reflexivity. Qed.

(** At a node with an empty path. *)
Lemma getValue_step k (n : node H) c p : path n = "" ->
  getValue (S k) n (String c p) =
    match childAt n c with
    | Some child => getValue k child (String c p)
    | None =>
        if negb (wildChild n) then Some ([], [], bool_decide (String c p = "/") && isNonEmpty (handlers n))
        else match last (children n) with
             | Some child =>
                 if decide (nType child = catchAll)
                 then Some (handlers child, [{| Key := of_chars (drop 2 (chars (path child))); Value := String c p |}], false) else None
             | None => None
             end
    end.
Proof.
  intros Hn. cbn [getValue]. rewrite Hn. assert (len "" <? len (String c p) = true) as ->.
  { apply Z.ltb_lt. unfold len. change (String.length (String c p)) with (S (String.length p)).
    change (String.length "") with 0%nat. lia. }
  assert (HasPrefix (String c p) "" = true) as -> by done. cbn [andb].
  assert (TrimPrefix (String c p) "" = String c p) as ->; [|done].
  unfold TrimPrefix. change (HasPrefix (String c p) "") with true. cbv iota.
  change (drop (String.length "") (chars (String c p))) with (chars (String c p)). apply of_chars_chars.
Qed.

Lemma catch_all (hs : list H) p : hs <> [] ->
  getValue 3 (catchAllTree hs) p =
    Some (if HasPrefix p "/" then (hs, [{| Key := "path"; Value := p |}], false) else ([], [], bool_decide (p = ""))).
Proof.
  intros Hne. destruct p as [|c p].
  { cbn. by destruct hs. }
  rewrite getValue_step by done. change (HasPrefix (String c p) "/") with (if ascii_dec "/" c then String.prefix "" p else false).
  destruct (ascii_dec "/" c) as [<-|Hc].
  - change (childAt (catchAllTree hs) "/") with (Some (Node "" [] true catchAll [] [Node "/*path" [] false catchAll hs []])).
    cbv iota. rewrite getValue_step by done. by destruct p.
  - assert (childAt (catchAllTree hs) c = None) as ->.
    { unfold childAt. cbn [catchAllTree indices children zip zip_with list_find fst]. by rewrite decide_False by congruence. }
    cbn [wildChild catchAllTree negb handlers isNonEmpty]. rewrite andb_false_r. by rewrite bool_decide_false.
Qed.

(** What reaches [Handler.Handle]: a request of one of nine methods whose path
    starts with a slash, whatever follows, behind the recovery from panics; its
    parameter [path] is the whole path, as the handler takes it to be.  Any
    other method is answered 404 whatever its path, and so is a path without a
    slash; the empty path of an absolute URL is redirected, but for [CONNECT]. *)
Lemma NewRouter_spec recovery handle method rPath :
  exists e, NewRouter recovery handle = Ok e /\
  handleHTTPRequest e method rPath =
    if decide (method ∉ anyMethods) then NotFound
    else if HasPrefix rPath "/" then Run [recovery; handle] [{| Key := "path"; Value := rPath |}]
    else if bool_decide (rPath = "" /\ method <> "CONNECT") then redirectRequest method
    else NotFound.
Proof.
  eexists. split; [apply NewRouter_trees|]. unfold handleHTTPRequest. cbn [trees].
  assert (Hfind : match list_find (fun t : string * node H => t.1 = method) ((fun m => (m, catchAllTree [recovery; handle])) <$> anyMethods) with
    | Some (_, (_, tree)) => method ∈ anyMethods /\ tree = catchAllTree [recovery; handle] | None => method ∉ anyMethods end).
  { destruct (list_find _ _) as [[i [m tree]]|] eqn:E.
    - apply list_find_Some in E as (E & Hm & _). cbn in Hm. subst m. apply list_elem_of_lookup_2, list_elem_of_fmap in E as (m & [= -> ->] & Hm). done.
    - intros Hm. apply list_find_None in E. rewrite Forall_forall in E. apply (E (method, catchAllTree [recovery; handle])); [|done].
      apply list_elem_of_fmap. by exists method. }
  destruct (list_find _ _) as [[i [m tree]]|]; [|by rewrite decide_True by done].
  destruct Hfind as [Hm ->]. rewrite decide_False by (intros G; by apply G). rewrite catch_all by done.
  destruct (HasPrefix rPath "/") eqn:Hp; [done|]. cbn [isNonEmpty].
  assert (rPath <> "/") as Hs by (intros ->; discriminate Hp). rewrite (bool_decide_true (rPath <> "/")) by done. rewrite andb_true_r.
  destruct (decide (rPath = "")) as [->|He]; [|rewrite (bool_decide_false (rPath = "")), andb_false_r, bool_decide_false by tauto; done].
  rewrite (bool_decide_true ("" = "")), andb_true_r by done. case_bool_decide; [rewrite bool_decide_true|rewrite bool_decide_false]; done || tauto.
Qed.

(** A path rule may name a method that is never routed. *)
Example unroutable : forall recovery handle : H,
  match NewRouter recovery handle with
  | Ok e => handleHTTPRequest e "PROPFIND" "/calendar" = NotFound | Err _ => False end.
Proof. intros. by vm_compute. Qed.
End router.
End router.
