(* ===== verification/GrpcRules.v ===== *)
(** * [internal/grpcproxy/resolver.go]: policy of a gRPC service and method *)
From S2P Require Export GoStrings ConfigTypes.

Module grpcrules.
Inductive ShadowMode := ShadowModeInherit | ShadowModeAuto | ShadowModeNever | ShadowModeAlways.
Inductive CompareDecision := CompareDecisionInherit | CompareDecisionOn | CompareDecisionOff.

#[export] Instance ShadowMode_eq_dec : EqDecision ShadowMode.
Proof. solve_decision. Defined.
#[export] Instance CompareDecision_eq_dec : EqDecision CompareDecision.
Proof. solve_decision. Defined.

Definition SkipReasonGRPCRule : string := "grpc_rule".
Definition SkipReasonGRPCRuleUnmatched : string := "grpc_rule_unmatched".

Record Decision := {
  RuleName : string;
  Service : string;
  Method : string;
  d_ShadowMode : ShadowMode;
  d_CompareDecision : CompareDecision;
  CompareMode : string;
  CompareMetadata : option (list string);
  CompareMetadataSet : bool;
  PrimaryMetadata : option (gmap string string);
  ShadowMetadata : option (gmap string string);
  ShadowSkipReason : string;
  CompareSkipReason : string
}.

(** A [Decision] literal with only the method, modes and skip reasons set. *)
Definition plainDecision (service method : string) (m : ShadowMode) (c : CompareDecision)
    (reason : string) : Decision :=
  {| RuleName := ""; Service := service; Method := method; d_ShadowMode := m;
     d_CompareDecision := c; CompareMode := ""; CompareMetadata := None;
     CompareMetadataSet := false; PrimaryMetadata := None; ShadowMetadata := None;
     ShadowSkipReason := reason; CompareSkipReason := reason |}.

Record compiledRule := {
  name : string;
  service : string;
  methods : option (gset string);
  shadow : ShadowMode;
  compare : CompareDecision;
  compareMode : string;
  compareMetadata : option (list string);
  compareMetadataSet : bool;
  primaryMetadata : option (gmap string string);
  shadowMetadata : option (gmap string string)
}.

(** A [*Resolver]: [None] is the nil pointer. *)
Definition Resolver := option (list compiledRule).

Definition cloneStrings (values : option (list string)) : option (list string) :=
  match values with None => None | Some l => Some (copy_slice l) end.
Definition cloneStringMap (values : option (gmap string string)) : option (gmap string string) :=
  match values with None => None | Some m => Some (copy_map m) end.

Definition ruleName (index : Z) (name : string) : string :=
  let trimmed := TrimSpace name in
  if decide (trimmed = "") then "rule[" +:+ Itoa index +:+ "]" else trimmed.

Definition compileMethods (ms : option (list string)) : option (gset string) :=
  match default [] ms with
  | [] => None
  | l => Some (foldl (fun compiled m => {[ TrimSpace m ]} ∪ compiled) ∅ l)
  end.

Definition shadowMode (raw : string) : ShadowMode :=
  let s := TrimSpace raw in
  if decide (s = "auto") then ShadowModeAuto
  else if decide (s = "never") then ShadowModeNever
  else if decide (s = "always") then ShadowModeAlways
  else ShadowModeInherit.

Definition compareDecision (raw : string) : CompareDecision :=
  let s := TrimSpace raw in
  if decide (s = "on") then CompareDecisionOn
  else if decide (s = "off") then CompareDecisionOff
  else CompareDecisionInherit.

Definition compileRule (i : Z) (rule : GRPCRule) : res compiledRule :=
  let service := TrimSpace (gr_Service rule) in
  if decide (service = "")
  then Err (errors_New ("grpc rule " +:+ Itoa i +:+ " service is required"))
  else Ok {|
    name := ruleName i (gr_Name rule);
    service := service;
    methods := compileMethods (gr_Methods rule);
    shadow := shadowMode (gr_Shadow rule);
    compare := compareDecision (gr_Compare rule);
    compareMode := TrimSpace (gr_CompareMode rule);
    compareMetadata := cloneStrings (gr_CompareMetadata rule);
    compareMetadataSet := bool_decide (gr_CompareMetadata rule <> None);
    primaryMetadata := cloneStringMap (gr_PrimaryMetadata rule);
    shadowMetadata := cloneStringMap (gr_ShadowMetadata rule) |}.

Fixpoint compileRules (i : Z) (rules : list GRPCRule) : res (list compiledRule) :=
  match rules with
  | [] => Ok []
  | rule :: rules' =>
      c ← compileRule i rule; cs ← compileRules (i + 1) rules'; mret (c :: cs)
  end.

Definition NewResolver (rules : list GRPCRule) : res Resolver :=
  compiled ← compileRules 0 rules; mret (Some compiled).

Definition slash : ascii := "/"%char.

Definition SplitFullMethod `{Unicode} (fullMethod : string) : res (string * string) :=
  let trimmed := TrimSpace fullMethod in
  if negb (HasPrefix trimmed "/")
  then Err (errors_New "gRPC full method must start with '/'")
  else
    let invalid := Err (errors_New ("invalid gRPC full method " +:+ Quote fullMethod)) in
    match Cut (TrimPrefix trimmed "/") slash with
    | None => invalid
    | Some (service, method) =>
        if decide (service = "") then invalid
        else if decide (method = "") then invalid
        else if ContainsByte method slash then invalid
        else Ok (service, method)
    end.

Definition matches (r : compiledRule) (svc method : string) : bool :=
  if decide (service r <> "*" /\ service r <> svc) then false
  else match methods r with
       | None => true
       | Some ms => if decide (ms = ∅) then true else bool_decide (method ∈ ms)
       end.

Definition decision (r : compiledRule) (service method : string) : Decision :=
  let never := bool_decide (shadow r = ShadowModeNever) in
  let off := bool_decide (compare r = CompareDecisionOff) in
  {| RuleName := name r;
     Service := service;
     Method := method;
     d_ShadowMode := shadow r;
     d_CompareDecision := compare r;
     CompareMode := compareMode r;
     CompareMetadata := cloneStrings (compareMetadata r);
     CompareMetadataSet := compareMetadataSet r;
     PrimaryMetadata := cloneStringMap (primaryMetadata r);
     ShadowMetadata := cloneStringMap (shadowMetadata r);
     ShadowSkipReason := if never then SkipReasonGRPCRule else "";
     CompareSkipReason := if never || off then SkipReasonGRPCRule else "" |}.

Fixpoint resolveLoop (rules : list compiledRule) (service method : string) : Decision :=
  match rules with
  | [] => plainDecision service method ShadowModeNever CompareDecisionOff SkipReasonGRPCRuleUnmatched
  | rule :: rules' =>
      if negb (matches rule service method) then resolveLoop rules' service method
      else decision rule service method
  end.

Definition Resolve `{Unicode} (r : Resolver) (fullMethod : string) : res Decision :=
  match SplitFullMethod fullMethod with
  | Err e => Err e
  | Ok (service, method) =>
      match r with
      | None | Some [] =>
          Ok (plainDecision service method ShadowModeInherit CompareDecisionInherit "")
      | Some rules => Ok (resolveLoop rules service method)
      end
  end.

(** ** Specification *)

(** A full method names [service] and [method]. *)
Definition names (fullMethod service method : string) : Prop :=
  TrimSpace fullMethod = "/" +:+ service +:+ "/" +:+ method /\
  service <> "" /\ method <> "" /\ slash ∉ chars service /\ slash ∉ chars method.

Definition ruleAdmits (rule : GRPCRule) (svc method : string) : Prop :=
  (TrimSpace (gr_Service rule) = "*" \/ TrimSpace (gr_Service rule) = svc) /\
  (default [] (gr_Methods rule) = [] \/ method ∈ TrimSpace <$> default [] (gr_Methods rule)).

Definition configDecision (i : Z) (rule : GRPCRule) (svc method : string) : Decision :=
  let m := shadowMode (gr_Shadow rule) in
  let c := compareDecision (gr_Compare rule) in
  {| RuleName := ruleName i (gr_Name rule);
     Service := svc;
     Method := method;
     d_ShadowMode := m;
     d_CompareDecision := c;
     CompareMode := TrimSpace (gr_CompareMode rule);
     CompareMetadata := gr_CompareMetadata rule;
     CompareMetadataSet := match gr_CompareMetadata rule with Some _ => true | None => false end;
     PrimaryMetadata := gr_PrimaryMetadata rule;
     ShadowMetadata := gr_ShadowMetadata rule;
     ShadowSkipReason := match m with ShadowModeNever => SkipReasonGRPCRule | _ => "" end;
     CompareSkipReason :=
       match m, c with
       | ShadowModeNever, _ | _, CompareDecisionOff => SkipReasonGRPCRule
       | _, _ => ""
       end |}.

(** ** Lemmas *)

Lemma elem_of_methods_fold (l : list string) (acc : gset string) m :
  m ∈ foldl (fun compiled m => {[ TrimSpace m ]} ∪ compiled) acc l <->
  m ∈ acc \/ m ∈ TrimSpace <$> l.
Proof.
  revert acc. induction l as [|x l IH]; intros acc; simpl.
  { rewrite elem_of_nil. tauto. }
  rewrite IH. set_solver.
Qed.

Lemma compileRule_ok i rule c :
  compileRule i rule = Ok c ->
  (forall svc method, matches c svc method = true <-> ruleAdmits rule svc method) /\
  (forall svc method, decision c svc method = configDecision i rule svc method).
Proof.
  unfold compileRule. case_decide; [done|]. intros [= <-]. split; intros svc method.
  - unfold matches, ruleAdmits. cbn [service methods].
    destruct (decide (TrimSpace (gr_Service rule) <> "*" /\ TrimSpace (gr_Service rule) <> svc))
      as [[H1 H2]|H1].
    { split; [done|]. by intros [[?|?] _]. }
    assert (TrimSpace (gr_Service rule) = "*" \/ TrimSpace (gr_Service rule) = svc) as H2.
    { destruct (decide (TrimSpace (gr_Service rule) = "*")), (decide (TrimSpace (gr_Service rule) = svc));
        tauto. }
    unfold compileMethods. destruct (default [] (gr_Methods rule)) as [|x l]; [naive_solver|].
    pose proof (elem_of_methods_fold (x :: l) ∅) as Hs.
    set (s := foldl _ _ _) in *.
    rewrite (decide_False (P := s = ∅)).
    2: { intros E. assert (TrimSpace x ∈ s) as Hx; [apply Hs; right; by left | set_solver]. }
    rewrite bool_decide_eq_true, Hs. set_solver.
  - unfold decision, configDecision. simpl.
    unfold cloneStrings, cloneStringMap.
    destruct (gr_CompareMetadata rule), (gr_PrimaryMetadata rule), (gr_ShadowMetadata rule),
      (shadowMode _), (compareDecision _); simpl; by rewrite ?copy_slice_id, ?copy_map_id.
Qed.

Lemma resolveLoop_compiled i rules cs cs' svc method :
  compileRules i rules = Ok cs ->
  (Forall (fun r => ~ ruleAdmits r svc method) rules ->
     resolveLoop (cs ++ cs') svc method = resolveLoop cs' svc method) /\
  (forall rules1 rule rules2, rules = (rules1 ++ rule :: rules2)%list ->
     Forall (fun r => ~ ruleAdmits r svc method) rules1 -> ruleAdmits rule svc method ->
     resolveLoop (cs ++ cs') svc method =
       configDecision (i + Z.of_nat (length rules1)) rule svc method).
Proof.
  revert i cs. induction rules as [|r rules IH]; intros i cs.
  { intros [= <-]. split; [done|]. by intros []. }
  simpl. intros (c & Hc & Hcs)%res_bind_ok.
  apply res_bind_ok in Hcs as (cs1 & Hcs & [= <-]).
  destruct (compileRule_ok _ _ _ Hc) as [Hm Hd].
  destruct (IH _ _ Hcs) as [IH1 IH2]. simpl.
  split.
  - intros [Hr Hrs]%Forall_cons_1. rewrite <-Hm in Hr. apply not_true_is_false in Hr.
    rewrite Hr. simpl. by apply IH1.
  - intros [|r' rules1] rule rules2 [= <- ->] H1 Hrule.
    + rewrite (proj2 (Hm _ _) Hrule). simpl. by rewrite Hd, Z.add_0_r.
    + apply Forall_cons_1 in H1 as [Hr Hrs]. rewrite <-Hm in Hr. apply not_true_is_false in Hr.
      rewrite Hr. simpl. rewrite (IH2 rules1 rule rules2) by done. f_equal. simpl. lia.
Qed.

Section split.
Context `{Unicode}.

Lemma SplitFullMethod_ok fullMethod svc method :
  SplitFullMethod fullMethod = Ok (svc, method) <-> names fullMethod svc method.
Proof.
  unfold SplitFullMethod, names. set (t := TrimSpace fullMethod).
  destruct (HasPrefix t "/") eqn:Hp; simpl.
  - pose proof Hp as Hp'. apply HasPrefix_spec in Hp' as [u Hu].
    assert (TrimPrefix t "/" = u) as ->.
    { unfold TrimPrefix. rewrite Hp, Hu. simpl. unfold chars. simpl. apply of_chars_chars. }
    destruct (Cut u slash) as [[a b]|] eqn:Hc.
    + apply Cut_some in Hc as [-> Ha].
      assert (forall s m, t = "/" +:+ s +:+ "/" +:+ m /\ slash ∉ chars s -> s = a /\ m = b) as Huniq.
      { intros s m [Ht Hs]. rewrite Hu in Ht. injection Ht as Ht.
        assert (Cut (a +:+ String slash b) slash = Some (s, m)) as E by by apply Cut_some.
        assert (Cut (a +:+ String slash b) slash = Some (a, b)) as E' by by apply Cut_some.
        rewrite E in E'. by injection E' as -> ->. }
      destruct (decide (a = "")) as [Ea|Ea]; [|destruct (decide (b = "")) as [Eb|Eb];
        [|unfold ContainsByte; case_bool_decide as Es]].
      4: { split; [by intros [= <- <-]; rewrite Hu|].
           intros (Ht & _ & _ & Hs' & _). by destruct (Huniq _ _ (conj Ht Hs')) as [-> ->]. }
      all: split; [done|]; intros (Ht & Hs & Hm & Hs' & Hm');
        destruct (Huniq _ _ (conj Ht Hs')) as [-> ->]; tauto.
    + split; [done|]. intros (Ht & _ & _ & Hs & _). apply Cut_none in Hc. exfalso. apply Hc.
      rewrite Hu in Ht. assert (u = svc +:+ "/" +:+ method) as -> by (by injection Ht).
      rewrite !chars_app. simpl. set_solver.
  - split; [done|]. intros (Ht & _). apply not_true_iff_false in Hp. exfalso. apply Hp.
    rewrite Ht. apply HasPrefix_spec. by eexists.
Qed.

(** A full method resolves exactly when it reads [/service/method] with
    two non-empty names and no further slash.  The decision is then that of
    the first admitting rule of the configuration, the inherited policy when
    there are no rules, and never/off with reason [grpc_rule_unmatched] when
    no rule admits the method. *)
Theorem grpc_Resolve_first_match rules r fullMethod :
  NewResolver rules = Ok r ->
  (is_ok (Resolve r fullMethod) = true <-> exists svc method, names fullMethod svc method) /\
  (forall svc method, names fullMethod svc method ->
    (rules = [] -> Resolve r fullMethod =
       Ok (plainDecision svc method ShadowModeInherit CompareDecisionInherit "")) /\
    (forall rules1 rule rules2, rules = (rules1 ++ rule :: rules2)%list ->
       Forall (fun r => ~ ruleAdmits r svc method) rules1 -> ruleAdmits rule svc method ->
       Resolve r fullMethod = Ok (configDecision (Z.of_nat (length rules1)) rule svc method)) /\
    (rules <> [] -> Forall (fun r => ~ ruleAdmits r svc method) rules ->
       Resolve r fullMethod = Ok (plainDecision svc method ShadowModeNever CompareDecisionOff
                                    SkipReasonGRPCRuleUnmatched))).
Proof.
  intros (cs & Hcs & [= <-])%res_bind_ok. split.
  { unfold Resolve. split.
    - destruct (SplitFullMethod fullMethod) as [[s m]|] eqn:E; [|done].
      apply SplitFullMethod_ok in E. eauto.
    - intros (s & m & E%SplitFullMethod_ok). rewrite E. by destruct cs. }
  intros svc method Hn%SplitFullMethod_ok. unfold Resolve. rewrite Hn.
  destruct (resolveLoop_compiled 0 rules cs [] svc method Hcs) as [HN HM].
  rewrite app_nil_r in HN, HM. split_and!.
  - intros ->. by injection Hcs as <-.
  - intros rules1 rule rules2 HR H1 Hrule. pose proof (HM rules1 rule rules2 HR H1 Hrule) as E.
    rewrite Z.add_0_l in E. destruct cs; [|by rewrite E]. subst rules. by destruct rules1; simpl in Hcs; res_inv.
  - intros Hne HF. specialize (HN HF). destruct cs; [|by rewrite HN].
    destruct rules; [done|]. simpl in Hcs. by res_inv.
Qed.
End split.

Definition exampleRule : GRPCRule :=
  {| gr_Name := "all"; gr_Service := "*"; gr_Methods := Some [" Get "]; gr_Shadow := "always";
     gr_Compare := "off"; gr_CompareMode := ""; gr_CompareMetadata := None;
     gr_PrimaryMetadata := None; gr_ShadowMetadata := None |}.

Lemma grpc_Resolve_first_match_witness :
  let H := asciiUnicode in
  exists r, NewResolver [exampleRule] = Ok r /\
    Resolve r " /a.B/Get" = Ok (configDecision 0 exampleRule "a.B" "Get").
Proof.
  intros H. destruct (NewResolver [exampleRule]) as [r|e] eqn:E; [|discriminate].
  exists r. split; [reflexivity|].
  apply (proj1 (proj2 (proj2 (grpc_Resolve_first_match _ r " /a.B/Get" E) "a.B" "Get"
    ltac:(apply SplitFullMethod_ok; vm_compute; reflexivity))) [] exampleRule []).
  - reflexivity.
  - constructor.
  - split; [left; reflexivity|]. right. vm_compute. left.
Defined.
End grpcrules.
