(* ===== verification/GrpcMetadata.v ===== *)
(** * [internal/grpcproxy/metadata.go], [codec.go], [inactive.go]: metadata and raw messages

    gRPC metadata is a map from lower-case keys to lists of values
    ([vendor/google.golang.org/grpc/metadata]).  A nil map and an empty one
    read the same.  A loop over a Go map takes the list of its pairs in the
    order in which the runtime ranges over it. *)
From S2P Require Export GoStrings.

Abbreviation MD := (gmap string (list string)).

Module grpcmetadata.
Section metadata.
Context `{Unicode}.

(** ** [metadata.MD] *)

Definition md_Get (md : MD) (k : string) : list string := default [] (md !! ToLower k).
Definition md_Set (md : MD) (k : string) (vals : list string) : MD :=
  match vals with [] => md | _ => <[ToLower k := vals]> md end.
Definition md_Append (md : MD) (k : string) (vals : list string) : MD :=
  match vals with
  | [] => md
  | _ => <[ToLower k := (default [] (md !! ToLower k) ++ vals)%list]> md
  end.

(** ** [metadata.go] *)

Definition normalizeMetadataKey (key : string) : string := ToLower (TrimSpace key).

Definition isReservedOutgoingMetadata (key : string) : bool :=
  HasPrefix key ":" || bool_decide (key = "content-type") || bool_decide (key = "te") ||
  HasPrefix key "grpc-" || HasSuffix key "-bin".

(** One turn of the loop of [cloneIncomingMetadata] and [cloneMetadata]. *)
Definition appendNormalized (out : MD) (kv : string * list string) : MD :=
  let normalized := normalizeMetadataKey kv.1 in
  if decide (normalized = "") then out else md_Append out normalized kv.2.

Definition cloneIncomingMetadata (range : list (string * list string)) : MD :=
  foldl appendNormalized ∅ range.

(** [len(in) == 0] and a nil result read like the empty map. *)
Definition cloneMetadata (range : list (string * list string)) : MD :=
  match range with [] => ∅ | _ => foldl appendNormalized ∅ range end.

Definition overlayOne (out : MD) (kv : string * string) : MD :=
  let normalized := normalizeMetadataKey kv.1 in
  if decide (normalized = "") then out
  else if isReservedOutgoingMetadata normalized then out
  else md_Set out normalized [kv.2].

(** [inject] is [obs.InjectGRPCTraceContext(ctx, _)]: the identity without
    observability. *)
Definition outgoingMetadata (inject : MD -> MD) (incoming : list (string * list string))
    (overlay : list (string * string)) : MD :=
  inject (foldl overlayOne (cloneIncomingMetadata incoming) overlay).
End metadata.

(** ** [codec.go]: messages are passed on as they are

    A value given to the codec is a raw message, a pointer to one (nil or
    not), or something else, of which only the type name is used. *)

Definition rawMessage : Type := string.

Inductive anyMessage :=
  | AnyRaw (m : rawMessage)
  | AnyPointer (m : option rawMessage)
  | AnyOther (typeName : string).

Definition codecName : string := "proto".

Definition codecMarshal (v : anyMessage) : res string :=
  match v with
  | AnyRaw m => Ok m
  | AnyPointer None => Err (errors_New "unsupported nil raw message")
  | AnyPointer (Some m) => Ok m
  | AnyOther t => Err (errors_New ("unsupported raw message type " +:+ t))
  end.

(** The target after the call; a nil pointer is dereferenced: the call panics
    ([None]). *)
Definition codecUnmarshal (data : string) (v : anyMessage) : option (res anyMessage) :=
  match v with
  | AnyPointer (Some m) => Some (Ok (AnyPointer (Some (of_chars (take 0 (chars m)) +:+ data))))
  | AnyPointer None => None
  | AnyRaw _ => Some (Err (errors_New "unsupported raw message target grpcproxy.rawMessage"))
  | AnyOther t => Some (Err (errors_New ("unsupported raw message target " +:+ t)))
  end.

Definition cloneRawMessage (msg : rawMessage) : rawMessage := of_chars ([] ++ chars msg)%list.

(** ** Lemmas *)

Lemma cloneRawMessage_id m : cloneRawMessage m = m.
Proof. apply of_chars_chars. Qed.

(** Every raw message survives the codec, whatever the target held before. *)
Lemma codec_roundtrip m old :
  codecMarshal (AnyRaw m) = Ok m /\
  codecUnmarshal m (AnyPointer (Some old)) = Some (Ok (AnyPointer (Some m))) /\
  codecMarshal (AnyPointer (Some m)) = Ok m.
Proof. done. Qed.

Section lemmas.
Context `{Unicode}.
Implicit Types (out md : MD) (k : string).

(** A key the metadata of a context may have: its own normal form. *)
Definition normalKey (k : string) : Prop :=
  k <> "" /\ normalizeMetadataKey k = k /\ ToLower k = k.

#[export] Instance normalKey_dec k : Decision (normalKey k).
Proof. apply _. Defined.

Lemma appendNormalized_normal out k vs :
  normalKey k ->
  appendNormalized out (k, vs) =
  match vs with [] => out | _ => <[k := (default [] (out !! k) ++ vs)%list]> out end.
Proof.
  intros (Hne & Hn & Hl). unfold appendNormalized. cbn [fst snd].
  rewrite Hn. rewrite decide_False by done. unfold md_Append. rewrite Hl. by destruct vs.
Qed.

(** Cloning metadata of normal keys keeps every value list, in any order of
    the range; empty lists read as missing keys. *)
Lemma cloneIncomingMetadata_lookup range k :
  Forall (fun kv => normalKey kv.1) range -> NoDup range.*1 ->
  default [] (cloneIncomingMetadata range !! k) = default [] (list_to_map (M := MD) range !! k).
Proof.
  intros Hn Hd. unfold cloneIncomingMetadata.
  cut (forall out, (forall j, j ∈ range.*1 -> out !! j = None) ->
    default [] (foldl appendNormalized out range !! k) =
    default [] ((list_to_map (M := MD) range ∪ out) !! k)).
  { intros G. rewrite G by (intros; apply lookup_empty). by rewrite (right_id_L ∅ (∪)). }
  induction range as [|[j vs] range IH]; intros out Hout; cbn [foldl].
  { cbn. by rewrite (left_id_L ∅ (∪)). }
  apply Forall_cons in Hn as [Hj Hn]. rewrite fmap_cons in Hd. cbn [fst] in *.
  apply NoDup_cons in Hd as [Hjr Hd].
  rewrite (appendNormalized_normal _ _ _ Hj).
  assert (Hj0 : out !! j = None) by (apply Hout; by left).
  assert (Hr : list_to_map (M := MD) range !! j = None)
    by (by apply not_elem_of_list_to_map_1).
  rewrite IH; [|done..|].
  - cbn [list_to_map foldr uncurry]. rewrite !lookup_union.
    destruct (decide (j = k)) as [<-|Hk].
    + rewrite lookup_insert_eq, Hr. rewrite Hj0. destruct vs; [by rewrite Hj0|].
      rewrite lookup_insert_eq. done.
    + rewrite (lookup_insert_ne (list_to_map range)) by done.
      destruct vs; [done|]. by rewrite lookup_insert_ne.
  - intros i Hi. assert (i <> j) by (intros ->; done).
    destruct vs; [|rewrite lookup_insert_ne by done]; apply Hout; by right.
Qed.

(** The overlay only touches keys it may set. *)
Lemma overlay_untouched overlay out k :
  (forall kv, kv ∈ overlay -> normalizeMetadataKey kv.1 = "" \/
     isReservedOutgoingMetadata (normalizeMetadataKey kv.1) = true \/
     ToLower (normalizeMetadataKey kv.1) <> k) ->
  foldl overlayOne out overlay !! k = out !! k.
Proof.
  revert out. induction overlay as [|[j v] overlay IH]; intros out Ho; [done|].
  cbn [foldl]. rewrite IH by (intros kv Hkv; apply Ho; by right).
  specialize (Ho (j, v) (list_elem_of_here _ _)). unfold overlayOne. cbn [fst snd] in *.
  destruct (decide (normalizeMetadataKey j = "")) as [|Hne]; [done|].
  destruct (isReservedOutgoingMetadata (normalizeMetadataKey j)) eqn:E; [done|].
  destruct Ho as [|[|Hk]]; [done..|]. unfold md_Set. by rewrite lookup_insert_ne.
Qed.

(** A permitted overlay key carries exactly the overlay's value. *)
Lemma overlay_set overlay out k v :
  normalKey k -> isReservedOutgoingMetadata k = false -> (k, v) ∈ overlay ->
  (forall kv, kv ∈ overlay -> ToLower (normalizeMetadataKey kv.1) = k -> kv = (k, v)) ->
  foldl overlayOne out overlay !! k = Some [v].
Proof.
  intros (Hne & Hn & Hl) Hres Hin Huniq. revert out.
  assert (Hstep : forall out, overlayOne out (k, v) !! k = Some [v]).
  { intros out. unfold overlayOne. cbn [fst snd]. rewrite Hn, decide_False by done.
    rewrite Hres. unfold md_Set. rewrite Hl. apply lookup_insert_eq. }
  cut (forall out, (k, v) ∈ overlay \/ out !! k = Some [v] ->
    foldl overlayOne out overlay !! k = Some [v]); [naive_solver|].
  clear Hin. induction overlay as [|[j w] overlay IH]; intros out Hin; cbn [foldl].
  { by destruct Hin as [Hin%elem_of_nil|]. }
  apply IH; [intros; apply Huniq; [by right|done]|].
  destruct (decide ((j, w) = (k, v))) as [Heq|Hneq]; [right; by rewrite Heq|].
  destruct Hin as [[Heq|Hin]%elem_of_cons|Hout]; [by rewrite Heq in Hneq|by left|right].
  rewrite <-Hout. apply (overlay_untouched [(j, w)]).
  intros kv ->%list_elem_of_singleton. right. right. intros E. apply Hneq.
  apply Huniq; [by left|done].
Qed.
End lemmas.
End grpcmetadata.
