(* ===== verification/Selectors.v ===== *)
(** * [internal/backend/selector.go] and the selection part of
    [internal/grpcproxy/target.go], [selector.go]

    The round-robin counter is an atomic 64-bit integer: concurrent
    selections are serialised by its [Add], so a sequence of state-passing
    calls stands for every interleaving. *)
From S2P Require Export GoNet GoHttp.

Definition SelectionRoundRobin : string := "round_robin".
Definition SelectionSourceIP : string := "source_ip_hash".

Definition Kind := string.
Definition BackendPrimary : Kind := "primary".
Definition BackendShadow : Kind := "shadow".

(** [backend.Request], less its context. *)
Record Request := {
  rq_Kind : Kind;
  rq_Method : string;
  rq_Path : string;
  rq_RawQuery : string;
  rq_Host : string;
  rq_RemoteAddr : string;
  rq_Header : header;
  rq_Body : string;
  rq_RequestID : Z
}.

(** The [Selector] interface: a selector's state and its [Select]; [None] is
    a run-time panic.  [SelectorOk] is the contract clients rely on. *)
Class Selector (S : Type) := Select : S -> Request -> Z -> option (Z * S).
Class SelectorOk (S : Type) `{Selector S} :=
  Select_in_range : forall s item n, 1 <= n < 2 ^ 32 ->
    exists i s', Select s item n = Some (i, s') /\ 0 <= i < n.

(** ** HTTP selectors *)

(** [RoundRobinSelector.Select] on its counter. *)
Definition RoundRobin_Select (counter : Z) (item : Request) (backendCount : Z) : option (Z * Z) :=
  if backendCount <=? 1 then Some (0, counter)
  else
    let counter' := u64 (counter + 1) in
    let idx := u64 (counter' - 1) in
    Some (i64 (idx mod u64 backendCount), counter').

Definition normalizeSourceIP (remote : string) : string :=
  let trimmed := TrimSpace remote in
  if decide (trimmed = "") then ""
  else match SplitHostPort trimmed with
       | Ok (host, _) => host
       | Err _ => trimmed
       end.

(** One round of FNV-1a on 32 bits. *)
Definition fnv1a32_step (hash : Z) (c : ascii) : Z :=
  u32 (Z.lxor hash (code c) * 16777619).
Definition fnv1a32 (s : string) : Z := foldl fnv1a32_step 2166136261 (chars s).

(** [SourceIPHashSelector.Select]; the conversion [uint32(backendCount)] may
    give a zero divisor, on which Go panics. *)
Definition SourceIPHash_Select (item : Request) (backendCount : Z) : option Z :=
  if backendCount <=? 1 then Some 0
  else
    let hash := fnv1a32 (normalizeSourceIP (rq_RemoteAddr item)) in
    if u32 backendCount =? 0 then None else Some (hash mod u32 backendCount).

(** The two implementations behind the interface. *)
Inductive selector :=
  | RoundRobinSelector (counter : Z)
  | SourceIPHashSelector.

Definition NewSelector `{Unicode} (mode : string) : selector :=
  if decide (ToLower (TrimSpace mode) = SelectionSourceIP) then SourceIPHashSelector
  else RoundRobinSelector 0.

#[export] Instance selector_Select : Selector selector := fun s item n =>
  match s with
  | RoundRobinSelector c =>
      '(i, c') ← RoundRobin_Select c item n; Some (i, RoundRobinSelector c')
  | SourceIPHashSelector => i ← SourceIPHash_Select item n; Some (i, SourceIPHashSelector)
  end.

(** The indexes of a run of [m] selections. *)
Fixpoint selectMany {S} `{Selector S} (s : S) (items : list Request) (n : Z) : option (list Z * S) :=
  match items with
  | [] => Some ([], s)
  | item :: items' =>
      '(i, s1) ← Select s item n; '(idxs, s2) ← selectMany s1 items' n; Some (i :: idxs, s2)
  end.

(** ** Specification *)

Definition no_bracket (s : string) : Prop := lbrack ∉ chars s /\ rbrack ∉ chars s.

(** The textual forms of a remote address whose host is [host]. *)
Definition remoteOf (host remote : string) : Prop :=
  (TrimSpace remote = host /\ colon ∉ chars host) \/
  (exists port, TrimSpace remote = host +:+ String colon port /\ colon ∉ chars host /\
     no_bracket host /\ colon ∉ chars port /\ no_bracket port) \/
  (exists port, TrimSpace remote = "[" +:+ host +:+ "]" +:+ String colon port /\
     no_bracket host /\ colon ∉ chars port /\ no_bracket port).

Definition exampleRequest (remote : string) : Request :=
  {| rq_Kind := BackendPrimary; rq_Method := "GET"; rq_Path := "/x"; rq_RawQuery := "";
     rq_Host := ""; rq_RemoteAddr := remote; rq_Header := ∅; rq_Body := ""; rq_RequestID := 1 |}.

(** ** Lemmas *)

Lemma SplitHostPort_bare s : colon ∉ chars s -> is_ok (SplitHostPort s) = false.
Proof.
  intros H. unfold SplitHostPort, LastIndexByte, IndexByte.
  destruct (list_find _ (reverse (chars s))) as [[k c]|] eqn:E; [|done].
  apply list_find_Some in E as (E%list_elem_of_lookup_2 & <- & _).
  by rewrite elem_of_reverse in E.
Qed.

Lemma normalizeSourceIP_remote host remote :
  remoteOf host remote -> normalizeSourceIP remote = host.
Proof.
  unfold normalizeSourceIP.
  intros [[E H]|[(port & E & H & [? ?] & ? & [? ?])|(port & E & [? ?] & ? & [? ?])]]; rewrite E.
  - case_decide; [done|]. apply SplitHostPort_bare in H. by destruct (SplitHostPort host) as [[]|].
  - rewrite decide_False by (by destruct host). by rewrite SplitHostPort_plain.
  - rewrite decide_False by done. by rewrite SplitHostPort_bracket.
Qed.


Lemma fnv1a32_range s : 0 <= fnv1a32 s < 2 ^ 32.
Proof.
  unfold fnv1a32. assert (0 <= 2166136261 < 2 ^ 32) as H by lia. revert H.
  generalize 2166136261. induction (chars s) as [|c l IH]; intros h H; simpl; [done|].
  apply IH, u32_range.
Qed.

Lemma RoundRobin_Select_eq c item n :
  1 < n < 2 ^ 63 -> 0 <= c < 2 ^ 64 ->
  RoundRobin_Select c item n = Some (c mod n, u64 (c + 1)).
Proof.
  intros Hn Hc. unfold RoundRobin_Select. rewrite (proj2 (Z.leb_gt n 1)) by lia.
  assert (u64 (u64 (c + 1) - 1) = c) as ->.
  { unfold u64. rewrite Zminus_mod_idemp_l. rewrite Z.mod_small; lia. }
  rewrite (u64_small n) by lia. rewrite i64_small; [done|].
  pose proof (Z.mod_pos_bound c n). lia.
Qed.

#[export] Instance selector_ok : SelectorOk selector.
Proof.
  intros s item n Hn. destruct s as [c|]; unfold Select, selector_Select.
  - unfold RoundRobin_Select. destruct (n <=? 1) eqn:E; simpl.
    { eexists _, _. split; [done|lia]. }
    apply Z.leb_gt in E. eexists _, _. split; [done|]. rewrite (u64_small n) by lia.
    pose proof (Z.mod_pos_bound (u64 (u64 (c + 1) - 1)) n). rewrite i64_small; lia.
  - unfold SourceIPHash_Select. destruct (n <=? 1) eqn:E; simpl.
    { eexists _, _. split; [done|lia]. }
    apply Z.leb_gt in E. rewrite (u32_small n) by lia.
    rewrite (proj2 (Z.eqb_neq n 0)) by lia. simpl.
    eexists _, _. split; [done|]. apply Z.mod_pos_bound. lia.
Qed.

(** A run of round-robin selections that does not wrap the counter. *)
Lemma selectMany_round_robin c items n :
  1 < n < 2 ^ 63 -> 0 <= c -> c + Z.of_nat (length items) < 2 ^ 64 ->
  selectMany (RoundRobinSelector c) items n =
    Some ((fun j => j mod n) <$> seqZ c (Z.of_nat (length items)),
          RoundRobinSelector (c + Z.of_nat (length items))).
Proof.
  intros Hn. revert c. induction items as [|item items IH]; intros c Hc Hlen; simpl.
  { by rewrite Z.add_0_r. }
  change (Select (RoundRobinSelector c) item n) with
    ('(i, c') ← RoundRobin_Select c item n; Some (i, RoundRobinSelector c')).
  rewrite RoundRobin_Select_eq by (simpl in Hlen; lia).
  simpl. rewrite u64_small by (simpl in Hlen; lia).
  rewrite IH by (simpl in Hlen; lia). simpl.
  rewrite (seqZ_cons c) by lia. rewrite fmap_cons.
  replace (Z.pred (Z.of_nat (S (length items)))) with (Z.of_nat (length items)) by lia.
  replace (c + Z.of_nat (S (length items))) with (c + 1 + Z.of_nat (length items)) by lia.
  done.
Qed.

(** Residues of a window of [n] consecutive integers. *)
Lemma seqZ_residues c n :
  0 < n -> (fun j => j mod n) <$> seqZ c n ≡ₚ seqZ 0 n.
Proof.
  intros Hn. apply submseteq_length_Permutation.
  - apply NoDup_submseteq.
    + apply NoDup_fmap_2_strong; [|apply NoDup_seqZ].
      intros x y Hx%elem_of_seqZ Hy%elem_of_seqZ Hxy.
      pose proof (Z.div_mod x n ltac:(lia)) as Ex. pose proof (Z.div_mod y n ltac:(lia)) as Ey.
      rewrite Hxy in Ex. assert (x / n = y / n) as Eq by nia. rewrite Eq in Ex. lia.
    + intros x (y & -> & _)%list_elem_of_fmap. apply elem_of_seqZ.
      pose proof (Z.mod_pos_bound y n). lia.
  - by rewrite length_fmap, !length_seqZ.
Qed.

Lemma seqZ_rounds (k : nat) c n :
  0 < n ->
  (fun j => j mod n) <$> seqZ c (Z.of_nat k * n) ≡ₚ concat (replicate k (seqZ 0 n)).
Proof.
  intros Hn. revert c. induction k as [|k IH]; intros c.
  { by rewrite Z.mul_0_l. }
  replace (Z.of_nat (S k) * n) with (n + Z.of_nat k * n) by lia.
  rewrite seqZ_app by lia. rewrite fmap_app. simpl. by rewrite IH, seqZ_residues.
Qed.

Section selector_props.
Context `{Unicode}.

(** Round-robin fairness: from a selector built by [NewSelector] with any
    mode but [source_ip_hash], [k * n] consecutive selections over [n]
    backends, in whatever order concurrent requests reach the counter, give
    every backend exactly [k] times, as long as the 64-bit counter does not
    wrap. *)
Theorem round_robin_fair mode (k : nat) items n :
  ToLower (TrimSpace mode) <> SelectionSourceIP ->
  1 < n < 2 ^ 63 -> Z.of_nat (length items) = Z.of_nat k * n -> Z.of_nat k * n < 2 ^ 64 ->
  exists idxs s', selectMany (NewSelector mode) items n = Some (idxs, s') /\
    idxs ≡ₚ concat (replicate k (seqZ 0 n)).
Proof.
  intros Hm Hn Hlen Hb. unfold NewSelector. rewrite decide_False by done.
  rewrite selectMany_round_robin by lia. eexists _, _. split; [done|].
  rewrite Hlen. apply seqZ_rounds. lia.
Qed.

(** Source pinning: with [source_ip_hash] the selected backend depends on
    the client host alone: requests whose remote addresses read [host],
    [host:port] or [[host]:port], with whatever ports, are sent to the same
    backend; the selection keeps no state and its index is in range. *)
Theorem source_ip_pinned host item n :
  remoteOf host (rq_RemoteAddr item) -> 1 <= n < 2 ^ 32 ->
  exists i, 0 <= i < n /\ forall item', remoteOf host (rq_RemoteAddr item') ->
    Select (NewSelector SelectionSourceIP) item' n = Some (i, NewSelector SelectionSourceIP).
Proof.
  intros H1 Hn. unfold NewSelector. rewrite decide_True by done.
  destruct (Select_in_range SourceIPHashSelector item n Hn) as (i & s & Hi & Hr).
  exists i. split; [done|]. intros item' H2. revert Hi.
  unfold Select, selector_Select, SourceIPHash_Select.
  rewrite (normalizeSourceIP_remote _ _ H1), (normalizeSourceIP_remote _ _ H2).
  destruct (n <=? 1); simpl; [by intros [= <- _]|]. destruct (u32 n =? 0); simpl; [done|].
  by intros [= <- _].
Qed.
End selector_props.

Lemma round_robin_fair_witness :
  exists idxs s', @selectMany _ selector_Select (@NewSelector asciiUnicode " Round_Robin")
    (replicate 6 (exampleRequest "10.0.0.1:99")) 3 = Some (idxs, s') /\
    idxs ≡ₚ [0; 1; 2; 0; 1; 2].
Proof.
  apply (@round_robin_fair asciiUnicode " Round_Robin" 2 (replicate 6 (exampleRequest "10.0.0.1:99")) 3).
  - vm_compute. discriminate.
  - lia.
  - reflexivity.
  - lia.
Defined.

Lemma source_ip_pinned_witness :
  exists i, 0 <= i < 3 /\
    @Select _ selector_Select (@NewSelector asciiUnicode SelectionSourceIP)
      (exampleRequest "[fe80::1]:443") 3 = Some (i, SourceIPHashSelector).
Proof.
  destruct (@source_ip_pinned asciiUnicode "fe80::1" (exampleRequest " [fe80::1]:99") 3) as (i & Hi & H).
  - right. right. exists "99". vm_compute. set_solver.
  - lia.
  - exists i. split; [exact Hi|]. apply H. right. right. exists "443". vm_compute. set_solver.
Defined.
