(* ===== verification/Targets.v ===== *)
(** * [internal/grpcproxy/target.go], [selector.go]: upstream connections

    Building a pool opens connections and closes them again when a later step
    fails.  The connections are a resource: [conns] records which ones exist
    and which are still open. *)
From S2P Require Export GoNet ConfigTypes.

Module targets.
Definition ProtocolName : string := "grpc".
Definition selectionModeRoundRobin : string := "round_robin".
Definition selectionModeSourceIPHash : string := "source_ip_hash".

(** The connections opened so far and those not closed. *)
Record conns := { opened : nat; live : gset nat }.

Record Target := {
  t_Name : string;
  t_Address : string;
  t_Authority : string;
  t_Conn : option nat
}.

Record TargetPool := { tp_targets : list (option Target); tp_mode : string; tp_next : Z }.
Record TargetPools := { Primary : option TargetPool; Shadow : option TargetPool }.

(** [*tls.Config] *)
Record tlsConfig (cert pool : Type) := {
  tls_MinVersion : Z;
  tls_ServerName : string;
  tls_InsecureSkipVerify : bool;
  tls_RootCAs : option pool;
  tls_Certificates : list cert
}.
Arguments tls_MinVersion {cert pool}.
Arguments tls_ServerName {cert pool}.
Arguments tls_InsecureSkipVerify {cert pool}.
Arguments tls_RootCAs {cert pool}.
Arguments tls_Certificates {cert pool}.

Definition VersionTLS12 : Z := 0x0303.

(** The fields of [config.Config] the pools read. *)
Record poolConfig := {
  pc_Protocol : string;
  pc_PrimaryGRPCTargets : list GRPCTarget;
  pc_PrimaryGRPCSelectionMode : string;
  pc_ShadowGRPCTargets : list GRPCTarget;
  pc_ShadowGRPCSelectionMode : string;
  pc_GRPCMaxReceiveMessageBytes : Z;
  pc_GRPCMaxSendMessageBytes : Z
}.

(** [grpc.CallOption]s *)
Inductive callOption := ForceRawCodec | MaxCallRecvMsgSize (n : Z) | MaxCallSendMsgSize (n : Z).

Definition defaultCallOptions (cfg : poolConfig) : list callOption :=
  ([ForceRawCodec] ++
   (if 0 <? pc_GRPCMaxReceiveMessageBytes cfg
    then [MaxCallRecvMsgSize (pc_GRPCMaxReceiveMessageBytes cfg)] else []) ++
   (if 0 <? pc_GRPCMaxSendMessageBytes cfg
    then [MaxCallSendMsgSize (pc_GRPCMaxSendMessageBytes cfg)] else []))%list.

Definition targetName (index : Z) (targetCfg : GRPCTarget) : string :=
  if decide (gt_Name targetCfg = "") then "target[" +:+ Itoa index +:+ "]" else gt_Name targetCfg.

Section build.
(** The file system, the certificate parsers, and [grpc.NewClient] with the
    close of a connection. *)
Context {cert pool : Type}.
Context (os_ReadFile : string -> res string).
Context (AppendCertsFromPEM : string -> option pool).
Context (LoadX509KeyPair : string -> string -> res cert).
Context (grpc_NewClient :
  string -> option (tlsConfig cert pool) -> list callOption -> option string -> option error).
Context (conn_Close : nat -> option error).

Definition certPoolFromFile (path : string) : res pool :=
  pemBytes ← os_ReadFile path;
  match AppendCertsFromPEM pemBytes with
  | Some p => Ok p
  | None => Err (errors_New ("failed to parse CA PEM: " +:+ path))
  end.

(** [None] is [insecure.NewCredentials()]. *)
Definition targetCredentials (cfg : GRPCTargetTLS) : res (option (tlsConfig cert pool)) :=
  if negb (gtls_Enabled cfg) then Ok None
  else
    roots ← (if decide (gtls_RootCA cfg = "") then Ok None
             else p ← certPoolFromFile (gtls_RootCA cfg); Ok (Some p));
    certs ← (if decide (gtls_ClientCert cfg = "" /\ gtls_ClientKey cfg = "") then Ok []
             else c ← LoadX509KeyPair (gtls_ClientCert cfg) (gtls_ClientKey cfg); Ok [c]);
    Ok (Some {| tls_MinVersion := VersionTLS12;
                tls_ServerName := gtls_ServerName cfg;
                tls_InsecureSkipVerify := gtls_InsecureSkipVerify cfg;
                tls_RootCAs := roots;
                tls_Certificates := certs |}).

Definition newTarget (index : Z) (targetCfg : GRPCTarget) (cfg : poolConfig) (w : conns)
    : res Target * conns :=
  let wrap e := errors_Wrap (targetName index targetCfg +:+ ": " +:+ Error e) e in
  match targetCredentials (gt_TLS targetCfg) with
  | Err e => (Err (wrap e), w)
  | Ok creds =>
      let authority := if decide (gt_Authority targetCfg = "") then None
                       else Some (gt_Authority targetCfg) in
      match grpc_NewClient (gt_Address targetCfg) creds (defaultCallOptions cfg) authority with
      | Some e => (Err (wrap e), w)
      | None =>
          (Ok {| t_Name := targetName index targetCfg;
                 t_Address := gt_Address targetCfg;
                 t_Authority := gt_Authority targetCfg;
                 t_Conn := Some (opened w) |},
           {| opened := S (opened w); live := {[opened w]} ∪ live w |})
      end
  end.

(** [TargetPool.Close]: the first loop of the deferred errors. *)
Fixpoint closeTargets (ts : list (option Target)) (w : conns) (closeErr : option error)
    : option error * conns :=
  match ts with
  | [] => (closeErr, w)
  | Some {| t_Conn := Some c |} :: ts' =>
      closeTargets ts' {| opened := opened w; live := live w ∖ {[c]} |}
        (errors_Join closeErr (conn_Close c))
  | _ :: ts' => closeTargets ts' w closeErr
  end.

Definition TargetPool_Close (p : option TargetPool) (w : conns) : option error * conns :=
  match p with
  | None => (None, w)
  | Some p => closeTargets (tp_targets p) w None
  end.

Definition TargetPools_Close (p : option TargetPools) (w : conns) : option error * conns :=
  match p with
  | None => (None, w)
  | Some p =>
      let '(e1, w) := TargetPool_Close (Primary p) w in
      let '(e2, w) := TargetPool_Close (Shadow p) w in
      (errors_Join e1 e2, w)
  end.

Fixpoint newTargetPool_loop (i : Z) (ts : list GRPCTarget) (cfg : poolConfig) (p : TargetPool)
    (w : conns) : res TargetPool * conns :=
  match ts with
  | [] => (Ok p, w)
  | targetCfg :: ts' =>
      match newTarget i targetCfg cfg w with
      | (Err e, w) => let '(_, w) := TargetPool_Close (Some p) w in (Err e, w)
      | (Ok target, w) =>
          newTargetPool_loop (i + 1) ts' cfg
            {| tp_targets := (tp_targets p ++ [Some target])%list;
               tp_mode := tp_mode p; tp_next := tp_next p |} w
      end
  end.

Definition newTargetPool (ts : list GRPCTarget) (mode : string) (cfg : poolConfig) (w : conns)
    : res TargetPool * conns :=
  newTargetPool_loop 0 ts cfg {| tp_targets := []; tp_mode := mode; tp_next := 0 |} w.

Definition NewTargetPools (cfg : poolConfig) (w : conns) : res TargetPools * conns :=
  if decide (pc_Protocol cfg = ProtocolName) then
    match newTargetPool (pc_PrimaryGRPCTargets cfg) (pc_PrimaryGRPCSelectionMode cfg) cfg w with
    | (Err e, w) => (Err (errors_Wrap ("primary gRPC targets: " +:+ Error e) e), w)
    | (Ok primary, w) =>
        match newTargetPool (pc_ShadowGRPCTargets cfg) (pc_ShadowGRPCSelectionMode cfg) cfg w with
        | (Err e, w) =>
            let '(_, w) := TargetPool_Close (Some primary) w in
            (Err (errors_Wrap ("shadow gRPC targets: " +:+ Error e) e), w)
        | (Ok shadow, w) => (Ok {| Primary := Some primary; Shadow := Some shadow |}, w)
        end
    end
  else (Ok {| Primary := None; Shadow := None |}, w).
End build.

(** ** Selection *)

Section pick.
Context `{NetIP}.

Record RequestInfo := {
  ri_FullMethod : string;
  ri_Service : string;
  ri_Method : string;
  ri_PeerAddr : string;
  ri_PeerIP : option IP
}.

Definition parsePeerIP (peerAddr : string) : option IP :=
  let trimmed := TrimSpace peerAddr in
  if decide (trimmed = "") then None
  else match SplitHostPort trimmed with
       | Err _ => ParseIP trimmed
       | Ok (host, _) => ParseIP host
       end.

(** [fnv.New64a], [Write], [Sum64] of the standard library. *)
Definition fnv64a_step (hash : Z) (c : ascii) : Z := u64 (Z.lxor hash (code c) * 1099511628211).
Definition fnv64a (s : string) : Z := foldl fnv64a_step 14695981039346656037 (chars s).

(** [p.targets[i]] *)
Definition targetAt (p : TargetPool) (i : Z) : option Target :=
  default None (tp_targets p !! Z.to_nat i).

Definition pickRoundRobin (p : TargetPool) : option Target * TargetPool :=
  let next := u64 (tp_next p + 1) in
  let index := u64 (next - 1) in
  (targetAt p (index mod Z.of_nat (length (tp_targets p))),
   {| tp_targets := tp_targets p; tp_mode := tp_mode p; tp_next := next |}).

Definition pickSourceIPHash (p : TargetPool) (info : RequestInfo) : option Target :=
  let ip := match ri_PeerIP info with Some ip => Some ip | None => parsePeerIP (ri_PeerAddr info) end in
  match ip with
  | None => None
  | Some ip => targetAt p (fnv64a (IP_String ip) mod Z.of_nat (length (tp_targets p)))
  end.

(** [TargetPool.Pick]; the pool is returned with its counter. *)
Definition Pick (p : option TargetPool) (info : RequestInfo) : option Target * option TargetPool :=
  match p with
  | None => (None, None)
  | Some p =>
      match tp_targets p with
      | [] => (None, Some p)
      | [t] => (t, Some p)
      | _ =>
          let roundRobin := let '(t, p') := pickRoundRobin p in (t, Some p') in
          if decide (tp_mode p = selectionModeSourceIPHash) then
            match pickSourceIPHash p info with
            | Some t => (Some t, Some p)
            | None => roundRobin
            end
          else roundRobin
      end
  end.
End pick.

(** ** Specification and lemmas *)

(** The open connections of a list of targets. *)
Definition targetConns (ts : list (option Target)) : gset nat :=
  list_to_set (omap (fun t => t ≫= t_Conn) ts).
Definition poolConns (p : option TargetPool) : gset nat :=
  match p with None => ∅ | Some p => targetConns (tp_targets p) end.
Definition conns_ok (w : conns) : Prop := forall c, c ∈ live w -> (c < opened w)%nat.

(** A target built from its configuration entry. *)
Definition builtFrom (i : Z) (cfg : GRPCTarget) (t : option Target) : Prop :=
  match t with
  | Some t => t_Name t = targetName i cfg /\ t_Address t = gt_Address cfg /\
              t_Authority t = gt_Authority cfg /\ is_Some (t_Conn t)
  | None => False
  end.

Section leak.
Context {cert pool : Type} (rf : string -> res string) (pem : string -> option pool)
  (kp : string -> string -> res cert)
  (nc : string -> option (tlsConfig cert pool) -> list callOption -> option string -> option error)
  (cc : nat -> option error).

Lemma closeTargets_live ts w e :
  live (closeTargets cc ts w e).2 = live w ∖ targetConns ts /\
  opened (closeTargets cc ts w e).2 = opened w.
Proof.
  unfold targetConns. revert w e. induction ts as [|[[? ? ? [c|]]|] ts IH]; intros w e; simpl.
  - split; [set_solver|done].
  - destruct (IH {| opened := opened w; live := live w ∖ {[c]} |}
      (errors_Join e (cc c))) as [-> ->]. simpl. split; [set_solver|done].
  - apply IH.
  - apply IH.
Qed.

Lemma TargetPools_Close_live pools w :
  live (TargetPools_Close cc (Some pools) w).2 =
  live w ∖ poolConns (Primary pools) ∖ poolConns (Shadow pools).
Proof.
  assert (forall p w, live (TargetPool_Close cc p w).2 = live w ∖ poolConns p) as HC.
  { intros [p|] w'; simpl; [apply closeTargets_live | set_solver]. }
  unfold TargetPools_Close. destruct (TargetPool_Close cc (Primary pools) w) as [e1 w1] eqn:E1.
  pose proof (HC (Shadow pools) w1) as H2.
  destruct (TargetPool_Close cc (Shadow pools) w1) as [e2 w2]. simpl in *.
  specialize (HC (Primary pools) w). rewrite E1 in HC. simpl in HC. by rewrite H2, HC.
Qed.

Lemma newTarget_spec i tc cfg w r w' :
  newTarget rf pem kp nc i tc cfg w = (r, w') ->
  match r with
  | Err _ => w' = w
  | Ok t => builtFrom i tc (Some t) /\ t_Conn t = Some (opened w) /\
            w' = {| opened := S (opened w); live := {[opened w]} ∪ live w |}
  end.
Proof.
  unfold newTarget. intros E. repeat (case_match; simplify_eq/=; try done).
Qed.

Lemma targetConns_app ts ts' : targetConns (ts ++ ts') = targetConns ts ∪ targetConns ts'.
Proof. unfold targetConns. by rewrite omap_app, list_to_set_app_L. Qed.

Lemma targetConns_one t c : t_Conn t = Some c -> targetConns [Some t] = {[c]}.
Proof. intros E. unfold targetConns. simpl. rewrite E. set_solver. Qed.

(** What a pool-building loop does to the open connections. *)
Lemma newTargetPool_loop_spec i ts cfg p w r w' :
  conns_ok w -> newTargetPool_loop rf pem kp nc cc i ts cfg p w = (r, w') ->
  conns_ok w' /\
  match r with
  | Err _ => live w' = live w ∖ targetConns (tp_targets p)
  | Ok p' => exists new, tp_targets p' = (tp_targets p ++ new)%list /\
       live w' = live w ∪ targetConns new /\ targetConns new ## live w /\
       tp_mode p' = tp_mode p /\ tp_next p' = tp_next p /\
       length new = length ts /\
       (forall k t c, new !! k = Some t -> ts !! k = Some c -> builtFrom (i + Z.of_nat k) c t)
  end.
Proof.
  revert i p w. induction ts as [|tc ts IH]; intros i p w Hw; simpl.
  { intros [= <- <-]. split; [done|]. exists []. rewrite app_nil_r. unfold targetConns. simpl.
    split_and!; set_solver. }
  destruct (newTarget _ _ _ _ i tc cfg w) as [[t|e] w1] eqn:Et;
    apply newTarget_spec in Et as Ht; clear Et.
  - destruct Ht as (Hb & Hc & ->). intros E.
    assert (opened w ∉ live w) as Hfresh by (intros ?%Hw; lia).
    apply IH in E as [Hw' E].
    2: { intros c. simpl. intros [->%elem_of_singleton|?%Hw]%elem_of_union; lia. }
    split; [done|]. destruct r as [p'|e]; simpl in E.
    + destruct E as (new & -> & -> & Hd & -> & -> & Hl & Hk). exists (Some t :: new).
      rewrite <-app_assoc. change (Some t :: new) with ([Some t] ++ new)%list.
      rewrite targetConns_app, (targetConns_one t _ Hc). split_and!; try done; [set_solver..| |].
      * simpl. by rewrite Hl.
      * intros [|k] t' c; simpl; [by intros [= <-] [= <-]; rewrite Z.add_0_r|].
        intros H1 H2. specialize (Hk _ _ _ H1 H2).
        by replace (i + Z.of_nat (S k)) with (i + 1 + Z.of_nat k) by lia.
    + rewrite E, targetConns_app, (targetConns_one t _ Hc). set_solver.
  - subst w1. destruct (closeTargets cc (tp_targets p) w None) as [e' w2] eqn:Ecl.
    intros [= <- <-]. pose proof (closeTargets_live (tp_targets p) w None) as [Hl Ho].
    rewrite Ecl in Hl, Ho. simpl in Hl, Ho. split; [|done].
    intros c. rewrite Hl, Ho. set_solver.
Qed.

(** C40. Building the pools never leaks a connection: when a credential or a
    dial fails, primary or shadow, every connection opened on the way is closed
    again and the earlier ones are untouched; when it succeeds the open
    connections are exactly the earlier ones and those of the pools, whose
    targets are the configured ones in order, and closing the pools restores
    the initial connections. *)
Theorem NewTargetPools_no_leak cfg w r w' :
  conns_ok w -> NewTargetPools rf pem kp nc cc cfg w = (r, w') ->
  match r with
  | Err _ => live w' = live w
  | Ok pools =>
      live w' = live w ∪ poolConns (Primary pools) ∪ poolConns (Shadow pools) /\
      live (TargetPools_Close cc (Some pools) w').2 = live w /\
      (pc_Protocol cfg = ProtocolName ->
       exists p q, Primary pools = Some p /\ Shadow pools = Some q /\
         tp_mode p = pc_PrimaryGRPCSelectionMode cfg /\
         tp_mode q = pc_ShadowGRPCSelectionMode cfg /\
         length (tp_targets p) = length (pc_PrimaryGRPCTargets cfg) /\
         length (tp_targets q) = length (pc_ShadowGRPCTargets cfg) /\
         (forall k t c, tp_targets p !! k = Some t -> pc_PrimaryGRPCTargets cfg !! k = Some c ->
            builtFrom (Z.of_nat k) c t) /\
         (forall k t c, tp_targets q !! k = Some t -> pc_ShadowGRPCTargets cfg !! k = Some c ->
            builtFrom (Z.of_nat k) c t))
  end.
Proof.
  intros Hw. unfold NewTargetPools. case_decide as Hp.
  2: { intros [= <- <-]. simpl. split_and!; [set_solver|done..]. }
  unfold newTargetPool.
  destruct (newTargetPool_loop _ _ _ _ _ 0 (pc_PrimaryGRPCTargets cfg) _ _ w) as [[p|e] w1] eqn:E1;
    apply newTargetPool_loop_spec in E1 as [Hw1 E1]; try done; simpl in E1.
  2: { intros [= <- <-]. rewrite E1. unfold targetConns. simpl. set_solver. }
  destruct E1 as (new1 & Ht1 & Hl1 & Hd1 & Hm1 & _ & Hn1 & Hk1).
  destruct (newTargetPool_loop _ _ _ _ _ 0 (pc_ShadowGRPCTargets cfg) _ _ w1) as [[q|e] w2] eqn:E2;
    apply newTargetPool_loop_spec in E2 as [Hw2 E2]; try done; simpl in E2.
  - destruct E2 as (new2 & Ht2 & Hl2 & Hd2 & Hm2 & _ & Hn2 & Hk2). intros [= <- <-].
    rewrite TargetPools_Close_live. simpl. rewrite Ht1, Ht2 in *. simpl in *.
    split_and!; [set_solver|set_solver|]. intros _. exists p, q. rewrite Ht1, Ht2. by split_and!.
  - simpl TargetPool_Close.
    destruct (closeTargets cc (tp_targets p) w2 None) as [e' w3] eqn:Ecl.
    pose proof (proj1 (closeTargets_live (tp_targets p) w2 None)) as Hl. rewrite Ecl in Hl.
    intros [= <- <-]. simpl in Hl. rewrite Hl, Ht1, E2. unfold targetConns at 1 in Hd1. simpl in *.
    set_solver.
Qed.
End leak.

Section selection.
Context `{NetIP}.

(** The client address a request is pinned by. *)
Definition pinnedBy (info : RequestInfo) : option IP :=
  match ri_PeerIP info with Some ip => Some ip | None => parsePeerIP (ri_PeerAddr info) end.

Lemma targetAt_some p k :
  Forall is_Some (tp_targets p) -> 0 <= k < Z.of_nat (length (tp_targets p)) ->
  exists t, targetAt p k = Some t /\ Some t ∈ tp_targets p.
Proof.
  intros HF Hk. unfold targetAt.
  destruct (lookup_lt_is_Some_2 (tp_targets p) (Z.to_nat k)) as [o Ho]; [lia|].
  rewrite Ho. simpl. pose proof (list_elem_of_lookup_2 _ _ _ Ho) as Hin.
  rewrite Forall_forall in HF. destruct (HF _ Hin) as [t ->]. eauto.
Qed.

Lemma fnv64a_nonneg s : 0 <= fnv64a s.
Proof.
  unfold fnv64a. assert (0 <= 14695981039346656037) as H1 by lia. revert H1.
  generalize 14695981039346656037. induction (chars s) as [|c l IH]; intros h Hh; simpl; [done|].
  apply IH, u64_range.
Qed.

(** Picking a target from a pool with targets always gives one of its
    targets and never changes them.  In [source_ip_hash] mode with a known
    client address the target is a function of that address and the counter
    stays; otherwise, an address that cannot be determined included, the pick
    is the round-robin one and the counter advances. *)
Theorem Pick_spec p info :
  tp_targets p <> [] -> Forall is_Some (tp_targets p) -> 0 <= tp_next p < 2 ^ 64 ->
  let n := Z.of_nat (length (tp_targets p)) in
  exists t p', Pick (Some p) info = (Some t, Some p') /\ Some t ∈ tp_targets p /\
    tp_targets p' = tp_targets p /\ tp_mode p' = tp_mode p /\
    (1 < n ->
     match (if decide (tp_mode p = selectionModeSourceIPHash) then pinnedBy info else None) with
     | Some ip => tp_next p' = tp_next p /\ Some t = targetAt p (fnv64a (IP_String ip) mod n)
     | None => tp_next p' = u64 (tp_next p + 1) /\ Some t = targetAt p (tp_next p mod n)
     end).
Proof.
  intros Hne HF Hr n.
  assert (forall k, 0 <= k mod n < n) as Hmod.
  { intros k. apply Z.mod_pos_bound. unfold n. destruct (tp_targets p); simpl; [done|lia]. }
  assert (u64 (u64 (tp_next p + 1) - 1) = tp_next p) as Hc.
  { unfold u64. rewrite Zminus_mod_idemp_l, Z.mod_small; lia. }
  destruct (targetAt_some p _ HF (Hmod (tp_next p))) as (t & Ht & Hin).
  assert (exists t p', (let '(t, p') := pickRoundRobin p in (t, Some p')) = (Some t, Some p') /\
    Some t ∈ tp_targets p /\ tp_targets p' = tp_targets p /\ tp_mode p' = tp_mode p /\
    tp_next p' = u64 (tp_next p + 1) /\ Some t = targetAt p (tp_next p mod n)) as (t1 & p1 & HRR & H1 & H2 & H3 & H4 & H5).
  { unfold pickRoundRobin. rewrite Hc. fold n. rewrite Ht. eexists t, _. by split_and!. }
  unfold Pick. destruct (tp_targets p) as [|o [|o' l]] eqn:E; [done| |].
  { apply Forall_cons_1 in HF as [[t2 ->] _]. exists t2, p.
    split_and!; first [done | by left]. }
  rewrite <-E in *. assert (n = Z.of_nat (length (tp_targets p))) as En by (unfold n; by rewrite E).
  destruct (decide (tp_mode p = selectionModeSourceIPHash)) as [Hm|Hm].
  2: { exists t1, p1. by split_and!. }
  unfold pickSourceIPHash. fold (pinnedBy info). destruct (pinnedBy info) as [ip|].
  2: { exists t1, p1. by split_and!. }
  pose proof (Hmod (fnv64a (IP_String ip))) as Hk. rewrite En in Hk |- *.
  destruct (targetAt_some p _ HF Hk) as (t2 & Ht2 & Hin2). rewrite Ht2. exists t2, p. by split_and!.
Qed.
End selection.

Definition exampleTarget : Target :=
  {| t_Name := "a"; t_Address := "a:1"; t_Authority := ""; t_Conn := Some 0%nat |}.

Lemma Pick_spec_witness :
  let H := textIP in
  let p := {| tp_targets := [Some exampleTarget; Some exampleTarget];
              tp_mode := selectionModeSourceIPHash; tp_next := 2 ^ 64 - 1 |} in
  exists t p', Pick (Some p) {| ri_FullMethod := ""; ri_Service := ""; ri_Method := "";
    ri_PeerAddr := "10.0.0.1:80"; ri_PeerIP := None |} = (Some t, Some p') /\
    tp_targets p' = tp_targets p.
Proof.
  intros H p.
  destruct (Pick_spec p {| ri_FullMethod := ""; ri_Service := ""; ri_Method := "";
    ri_PeerAddr := "10.0.0.1:80"; ri_PeerIP := None |}) as (t & p' & E1 & _ & E2 & _).
  - discriminate.
  - repeat constructor; eexists; reflexivity.
  - simpl. lia.
  - exists t, p'. split; [exact E1|exact E2].
Defined.

Definition exampleTLS : GRPCTargetTLS :=
  {| gtls_Enabled := false; gtls_RootCA := ""; gtls_ServerName := "";
     gtls_InsecureSkipVerify := false; gtls_ClientCert := ""; gtls_ClientKey := "" |}.
Definition exampleGRPCTarget (addr : string) : GRPCTarget :=
  {| gt_Name := ""; gt_Address := addr; gt_Authority := ""; gt_TLS := exampleTLS |}.
(** The second dial of the shadow pool fails. *)
Definition examplePools (w : conns) : res TargetPools * conns :=
  NewTargetPools (cert := unit) (pool := unit) (fun _ => Ok "") (fun _ => None) (fun _ _ => Ok tt)
    (fun a _ _ _ => if decide (a = "bad") then Some (errors_New "dial") else None) (fun _ => None)
    {| pc_Protocol := "grpc"; pc_PrimaryGRPCTargets := [exampleGRPCTarget "a"];
       pc_PrimaryGRPCSelectionMode := ""; pc_ShadowGRPCTargets :=
         [exampleGRPCTarget "b"; exampleGRPCTarget "bad"];
       pc_ShadowGRPCSelectionMode := ""; pc_GRPCMaxReceiveMessageBytes := 0;
       pc_GRPCMaxSendMessageBytes := 0 |} w.

Lemma NewTargetPools_no_leak_witness :
  let w := {| opened := 1; live := {[0%nat]} |} in
  exists e w', examplePools w = (Err e, w') /\ opened w' = 3%nat /\ live w' = live w.
Proof.
  intros w. destruct (examplePools w) as [r w'] eqn:E.
  assert (conns_ok w) as Hw by (intros c; simpl; intros ->%elem_of_singleton; lia).
  pose proof (NewTargetPools_no_leak _ _ _ _ _ _ _ _ _ Hw E) as HL.
  assert (is_ok r = false /\ opened w' = 3%nat) as [H1 H2].
  { revert E. unfold examplePools. vm_compute. intros [= <- <-]. by split. }
  destruct r as [pools|e]; [discriminate|]. exists e, w'. split_and!; [reflexivity|exact H2|exact HL].
Defined.
End targets.
