(* ===== verification/Backend.v ===== *)
(** * [internal/backend/requester.go]: one request to an HTTP backend

    The HTTP client, the validation of [http.NewRequest], URL printing and
    trace-header injection are parameters; selection is any implementation of
    the [Selector] interface. *)
From S2P Require Export Observability Selectors Headers.

Module backend.
Definition HTTPProtocolAuto : string := "auto".
Definition HTTPProtocolHTTP1 : string := "http1".
Definition HTTPProtocolHTTP2 : string := "http2".

Definition second : Z := 1000000000.
Definition defaultHTTPDialTimeout : Z := 2 * second.
Definition defaultHTTPTLSHandshakeTimeout : Z := 5 * second.
Definition defaultHTTPResponseHeaderTimeout : Z := 5 * second.
Definition defaultHTTPMaxIdleConns : Z := 1024.
Definition defaultHTTPMaxIdleConnsPerHost : Z := 256.

Record Result := {
  rs_Header : header;
  rs_Body : string;
  rs_Err : option error;
  rs_Proto : string;
  rs_Duration : Z;
  rs_RequestID : Z;
  rs_Kind : Kind;
  rs_Selected : string;
  rs_Status : Z
}.

Record HTTPClientConfig := {
  DialTimeout : Z;
  TLSHandshakeTimeout : Z;
  ResponseHeaderTimeout : Z;
  MaxIdleConns : Z;
  MaxIdleConnsPerHost : Z;
  MaxConnsPerHost : Z;
  Protocol : string
}.

Record backendObservation := {
  bo_err : option error;
  bo_status : string;
  bo_result : string;
  bo_statusCode : Z
}.

(** [*url.URL]: the parts the requester touches and the rest of it. *)
Record URL (rest : Type) := { u_Path : string; u_RawQuery : string; u_Host : string; u_rest : rest }.
Arguments u_Path {rest}.
Arguments u_RawQuery {rest}.
Arguments u_Host {rest}.
Arguments u_rest {rest}.

(** The outgoing [*http.Request], and the [*http.Response] with the bytes its
    body yields before it ends or fails. *)
Record HTTPRequest := {
  hr_Method : string; hr_URL : string; hr_Host : string; hr_Header : header; hr_Body : string }.
Record HTTPResponse := {
  resp_StatusCode : Z; resp_Proto : string; resp_ProtoMajor : Z; resp_Header : header;
  resp_Body : string }.

(** What a request leaves in metrics and traces. *)
Record observed := {
  ob_kind : Kind; ob_method : string; ob_status : string; ob_result : string;
  ob_spanError : bool; ob_err : option error }.

Definition normalizeHTTPClientConfig (cfg : HTTPClientConfig) : HTTPClientConfig :=
  let responseHeader :=
    if ResponseHeaderTimeout cfg <? 0 then 0 else ResponseHeaderTimeout cfg in
  {| DialTimeout := if DialTimeout cfg <=? 0 then defaultHTTPDialTimeout else DialTimeout cfg;
     TLSHandshakeTimeout := if TLSHandshakeTimeout cfg <=? 0 then defaultHTTPTLSHandshakeTimeout
                            else TLSHandshakeTimeout cfg;
     ResponseHeaderTimeout := if responseHeader =? 0 then defaultHTTPResponseHeaderTimeout
                              else responseHeader;
     MaxIdleConns := if MaxIdleConns cfg <=? 0 then defaultHTTPMaxIdleConns else MaxIdleConns cfg;
     MaxIdleConnsPerHost := if MaxIdleConnsPerHost cfg <=? 0 then defaultHTTPMaxIdleConnsPerHost
                            else MaxIdleConnsPerHost cfg;
     MaxConnsPerHost := if MaxConnsPerHost cfg <? 0 then 0 else MaxConnsPerHost cfg;
     Protocol :=
       if decide (Protocol cfg = "" \/ Protocol cfg = HTTPProtocolAuto) then HTTPProtocolAuto
       else if decide (Protocol cfg = HTTPProtocolHTTP1 \/ Protocol cfg = HTTPProtocolHTTP2)
       then Protocol cfg
       else HTTPProtocolAuto |}.

(** [requireHTTP2Transport.RoundTrip] over the wrapped transport. *)
Definition requireHTTP2_RoundTrip (next : HTTPRequest -> res HTTPResponse) (req : HTTPRequest)
    : res HTTPResponse :=
  match next req with
  | Err e => Err e
  | Ok resp =>
      if resp_ProtoMajor resp =? 2 then Ok resp
      else Err (errors_New ("upstream negotiated " +:+ resp_Proto resp +:+ ", expected HTTP/2"))
  end.

(** [newHTTPClient]: which protocols the transport speaks. *)
Record httpClient := { hc_ForceAttemptHTTP2 : bool; hc_HTTP1Only : bool; hc_RequireHTTP2 : bool;
                       hc_Config : HTTPClientConfig }.
Definition newHTTPClient (cfg : HTTPClientConfig) : httpClient :=
  {| hc_ForceAttemptHTTP2 := bool_decide (Protocol cfg <> HTTPProtocolHTTP1);
     hc_HTTP1Only := bool_decide (Protocol cfg = HTTPProtocolHTTP1);
     hc_RequireHTTP2 := bool_decide (Protocol cfg = HTTPProtocolHTTP2);
     hc_Config := cfg |}.
Definition roundTrip (c : httpClient) (transport : HTTPRequest -> res HTTPResponse)
    : HTTPRequest -> res HTTPResponse :=
  if hc_RequireHTTP2 c then requireHTTP2_RoundTrip transport else transport.

Definition singleJoiningSlash (a b : string) : string :=
  let aslash := HasSuffix a "/" in
  let bslash := HasPrefix b "/" in
  if aslash && bslash then a +:+ of_chars (drop 1 (chars b))
  else if negb aslash && negb bslash then
    if decide (a = "") then "/" +:+ b else a +:+ "/" +:+ b
  else a +:+ b.

Section requester.
Context {rest : Type} {S : Type} `{Selector S}.
(** [URL.String], [URL.Redacted], the checks of [http.NewRequest], the client,
    the injected trace headers and the elapsed time. *)
Context (url_String url_Redacted : URL rest -> string).
Context (http_CheckRequest : string -> string -> option error).
Context (client_Do : HTTPRequest -> res HTTPResponse).
Context (InjectHTTPTraceContext : header -> header).
Context (time_Since : Z).

Record requester := {
  bases : list (URL rest);
  rq_selector : option S;
  kind : Kind;
  maxBody : Z;
  obs : bool
}.

Definition errorResult (item : Request) (selected : string) (err : error) : Result :=
  {| rs_Header := ∅; rs_Body := ""; rs_Err := Some err; rs_Proto := ""; rs_Duration := time_Since;
     rs_RequestID := rq_RequestID item; rs_Kind := rq_Kind item; rs_Selected := selected;
     rs_Status := 0 |}.

(** [io.ReadAll], through [io.LimitReader] when a limit is set. *)
Definition readResponseBody (p : requester) (body : string) : string :=
  if 0 <? maxBody p then of_chars (take (Z.to_nat (maxBody p)) (chars body)) else body.

(** [selectBase]: [None] of the outer option is a panic of the selector. *)
Definition selectBase (p : requester) (item : Request) : option (option (URL rest) * requester) :=
  match bases p with
  | [] => Some (None, p)
  | [b] => Some (Some b, p)
  | b :: _ =>
      match rq_selector p with
      | None => Some (Some b, p)
      | Some s =>
          '(idx, s') ← Select s item (Z.of_nat (length (bases p)));
          let p' := {| bases := bases p; rq_selector := Some s'; kind := kind p;
                       maxBody := maxBody p; obs := obs p |} in
          if (idx <? 0) || (Z.of_nat (length (bases p)) <=? idx) then Some (Some b, p')
          else Some (bases p !! Z.to_nat idx, p')
      end
  end.

(** The request and the redacted base URL. *)
Definition newBackendRequest (p : requester) (item : Request) (base : URL rest)
    : res HTTPRequest * string :=
  let selected := url_Redacted base in
  let u := {| u_Path := singleJoiningSlash (u_Path base) (rq_Path item);
              u_RawQuery := rq_RawQuery item; u_Host := u_Host base; u_rest := u_rest base |} in
  match http_CheckRequest (rq_Method item) (url_String u) with
  | Some e => (Err e, selected)
  | None =>
      let h := RemoveHopByHop (Clone (rq_Header item)) in
      (Ok {| hr_Method := if decide (rq_Method item = "") then "GET" else rq_Method item;
             hr_URL := url_String u;
             hr_Host := if decide (rq_Host item = "") then u_Host base else rq_Host item;
             hr_Header := if obs p then InjectHTTPTraceContext h else h;
             hr_Body := rq_Body item |}, selected)
  end.

Definition executeRequest (p : requester) (req : HTTPRequest) (item : Request) (selected : string)
    (observation : backendObservation) : Result * backendObservation :=
  match client_Do req with
  | Err e =>
      (errorResult item selected e,
       {| bo_err := Some e; bo_status := bo_status observation; bo_result := bo_result observation;
          bo_statusCode := bo_statusCode observation |})
  | Ok resp =>
      let body := readResponseBody p (resp_Body resp) in
      ({| rs_Kind := rq_Kind item; rs_Status := resp_StatusCode resp; rs_Header := resp_Header resp;
          rs_Body := body; rs_Err := None; rs_Duration := time_Since;
          rs_RequestID := rq_RequestID item; rs_Proto := resp_Proto resp; rs_Selected := selected |},
       {| bo_err := bo_err observation;
          bo_status := HTTPStatusClass (resp_StatusCode resp);
          bo_result := if 500 <=? resp_StatusCode resp then ResultStatusCode else ResultOK;
          bo_statusCode := resp_StatusCode resp |})
  end.

Definition finishBackendObservation (p : requester) (item : Request) (o : backendObservation)
    : list observed :=
  if obs p then
    [{| ob_kind := kind p; ob_method := rq_Method item; ob_status := bo_status o;
        ob_result := bo_result o; ob_spanError := 500 <=? bo_statusCode o; ob_err := bo_err o |}]
  else [].

(** [requester.Do] *)
Definition Do (p : requester) (item : Request) : option (Result * list observed * requester) :=
  let observation := {| bo_err := None; bo_status := StatusError; bo_result := ResultError;
                        bo_statusCode := 0 |} in
  let failed e := {| bo_err := Some e; bo_status := StatusError; bo_result := ResultError;
                     bo_statusCode := 0 |} in
  '(base, p) ← selectBase p item;
  match base with
  | None =>
      let e := errors_New (kind p +:+ " backend has no configured base URL") in
      Some (errorResult item "" e, finishBackendObservation p item (failed e), p)
  | Some base =>
      match newBackendRequest p item base with
      | (Err e, selected) =>
          Some (errorResult item selected e, finishBackendObservation p item (failed e), p)
      | (Ok req, selected) =>
          let '(r, o) := executeRequest p req item selected observation in
          Some (r, finishBackendObservation p item o, p)
      end
  end.
End requester.
Arguments requester : clear implicits.

(** [NewRequester]: round robin when several bases come without a selector. *)
Definition NewRequester {rest} (k : Kind) (bs : list (URL rest)) (s : option selector)
    (max : Z) (clientCfg : HTTPClientConfig) (o : bool) : requester rest selector * httpClient :=
  let s := match s with
           | None => if (1 <? Z.of_nat (length bs)) then Some (RoundRobinSelector 0) else None
           | Some _ => s
           end in
  ({| bases := bs; rq_selector := s; kind := k; maxBody := max; obs := o |},
   newHTTPClient (normalizeHTTPClientConfig clientCfg)).

(** ** Specification and lemmas *)

(** [k] is removed by [RemoveHopByHop] from [h]. *)
Definition hopByHop (h : header) (k : string) : Prop :=
  k ∈ CanonicalHeaderKey <$> hopByHopKeys ++ connectionTokens h.

(** What a backend is asked for [item] at [base]; [u] is the printed URL. *)
Definition asked {rest} (item : Request) (base : URL rest) (inject : header -> header)
    (u : string) (req : HTTPRequest) : Prop :=
  hr_Method req = (if decide (rq_Method item = "") then "GET" else rq_Method item) /\
  hr_URL req = u /\
  hr_Host req = (if decide (rq_Host item = "") then u_Host base else rq_Host item) /\
  hr_Body req = rq_Body item /\
  exists h, hr_Header req = inject h /\
    forall k, (hopByHop (rq_Header item) k -> h !! k = None) /\
              (~ hopByHop (rq_Header item) k -> h !! k = rq_Header item !! k).

(** What the caller gets of a response; the body is cut at [max] bytes. *)
Definition received (max : Z) (item : Request) (resp : HTTPResponse) (r : Result) : Prop :=
  rs_Err r = None /\ rs_Status r = resp_StatusCode resp /\ rs_Header r = resp_Header resp /\
  rs_Proto r = resp_Proto resp /\
  (max <= 0 -> rs_Body r = resp_Body resp) /\
  (0 < max -> HasPrefix (resp_Body resp) (rs_Body r) = true /\
              len (rs_Body r) = Z.min max (len (resp_Body resp))).

Lemma readResponseBody_prefix {rest S} (p : requester rest S) body :
  (maxBody p <= 0 -> readResponseBody p body = body) /\
  (0 < maxBody p -> HasPrefix body (readResponseBody p body) = true /\
                    len (readResponseBody p body) = Z.min (maxBody p) (len body)).
Proof.
  unfold readResponseBody. split; intros H.
  - by rewrite (proj2 (Z.ltb_ge _ _)).
  - rewrite (proj2 (Z.ltb_lt _ _)) by done. split.
    + apply HasPrefix_spec. exists (of_chars (drop (Z.to_nat (maxBody p)) (chars body))).
      by rewrite <-of_chars_app, take_drop, of_chars_chars.
    + unfold len. rewrite <-!length_chars, chars_of_chars, length_take. lia.
Qed.

Lemma selectBase_in {rest S} `{SelectorOk S} (p : requester rest S) item :
  bases p <> [] -> Z.of_nat (length (bases p)) < 2 ^ 32 ->
  exists b p', selectBase p item = Some (Some b, p') /\ b ∈ bases p /\
    bases p' = bases p /\ kind p' = kind p /\ maxBody p' = maxBody p /\ obs p' = obs p.
Proof.
  intros Hne Hl. unfold selectBase. destruct (bases p) as [|b [|b' l]] eqn:E; [done| |].
  { exists b, p. split_and!; try done. by left. }
  rewrite <-E in *. destruct (rq_selector p) as [s|].
  2: { exists b, p. split_and!; try done. rewrite E. by left. }
  destruct (Select_in_range s item (Z.of_nat (length (bases p)))) as (i & s' & -> & Hi).
  { rewrite E in *. simpl in *. lia. }
  simpl. rewrite (proj2 (Z.ltb_ge _ _)), (proj2 (Z.leb_gt _ _)) by lia. simpl.
  destruct (lookup_lt_is_Some_2 (bases p) (Z.to_nat i)) as [b'' Hb]; [lia|].
  rewrite Hb. eexists b'', _. split_and!; try done. by eapply list_elem_of_lookup_2.
Qed.

(** The path sent upstream has exactly one slash where the base path and
    the request path meet. *)
Theorem singleJoiningSlash_spec a b :
  singleJoiningSlash a b = TrimSuffix a "/" +:+ "/" +:+ TrimPrefix b "/".
Proof.
  unfold singleJoiningSlash.
  destruct (HasSuffix a "/") eqn:Ea, (HasPrefix b "/") eqn:Eb; cbn [andb negb].
  - apply HasSuffix_spec in Ea as [a' ->]. apply HasPrefix_spec in Eb as [b' ->].
    rewrite TrimSuffix_app, TrimPrefix_app, chars_app.
    change (drop 1 (chars "/" ++ chars b')%list) with (chars b'). rewrite of_chars_chars.
    apply chars_inj. by rewrite !chars_app, <-app_assoc.
  - apply HasSuffix_spec in Ea as [a' ->]. rewrite TrimSuffix_app. unfold TrimPrefix. rewrite Eb.
    apply chars_inj. by rewrite !chars_app, <-app_assoc.
  - apply HasPrefix_spec in Eb as [b' ->]. rewrite TrimPrefix_app. unfold TrimSuffix. by rewrite Ea.
  - unfold TrimPrefix, TrimSuffix. rewrite Ea, Eb. by destruct (decide (a = "")) as [->|].
Qed.

(** Case analysis on the integer comparisons of the goal. *)
Ltac case_cmp :=
  repeat match goal with
  | |- context [?x <=? ?y] => destruct (Z.leb_spec x y)
  | |- context [?x <? ?y] => destruct (Z.ltb_spec x y)
  | |- context [?x =? ?y] => destruct (Z.eqb_spec x y)
  end.

Lemma normalize_protocol cfg :
  Protocol (normalizeHTTPClientConfig cfg) ∈ [HTTPProtocolAuto; HTTPProtocolHTTP1; HTTPProtocolHTTP2] /\
  (Protocol cfg ∈ [HTTPProtocolAuto; HTTPProtocolHTTP1; HTTPProtocolHTTP2] ->
   Protocol (normalizeHTTPClientConfig cfg) = Protocol cfg).
Proof.
  rewrite !elem_of_cons, elem_of_nil. cbn [Protocol normalizeHTTPClientConfig].
  unfold HTTPProtocolAuto, HTTPProtocolHTTP1, HTTPProtocolHTTP2.
  destruct (decide (Protocol cfg = "" \/ Protocol cfg = "auto"));
    [|destruct (decide (Protocol cfg = "http1" \/ Protocol cfg = "http2"))]; split; try tauto.
  - rewrite elem_of_nil. intros [H|[H|[H|H]]]; destruct o; congruence || tauto.
  - rewrite elem_of_nil. tauto.
Qed.

Lemma normalize_positive cfg :
  let cfg' := normalizeHTTPClientConfig cfg in
  0 < DialTimeout cfg' /\ 0 < TLSHandshakeTimeout cfg' /\ 0 < ResponseHeaderTimeout cfg' /\
  0 < MaxIdleConns cfg' /\ 0 < MaxIdleConnsPerHost cfg' /\ 0 <= MaxConnsPerHost cfg'.
Proof.
  simpl. unfold defaultHTTPDialTimeout, defaultHTTPTLSHandshakeTimeout,
    defaultHTTPResponseHeaderTimeout, defaultHTTPMaxIdleConns, defaultHTTPMaxIdleConnsPerHost, second.
  split_and!; case_cmp; lia.
Qed.

Lemma normalize_valid cfg :
  0 < DialTimeout cfg -> 0 < TLSHandshakeTimeout cfg -> 0 < ResponseHeaderTimeout cfg ->
  0 < MaxIdleConns cfg -> 0 < MaxIdleConnsPerHost cfg -> 0 <= MaxConnsPerHost cfg ->
  Protocol cfg ∈ [HTTPProtocolAuto; HTTPProtocolHTTP1; HTTPProtocolHTTP2] ->
  normalizeHTTPClientConfig cfg = cfg.
Proof.
  intros H1 H2 H3 H4 H5 H6 HP. pose proof (proj2 (normalize_protocol cfg) HP) as E.
  destruct cfg as [d t r m mh mc pr]. simpl in *. unfold normalizeHTTPClientConfig. simpl.
  f_equal; [case_cmp; lia..|done].
Qed.

(** The client configuration that is used is normalised: every timeout
    and pool size is positive, the protocol is a known one, normalising again
    changes nothing, settings that were already valid are kept; and a client
    for [http2] never returns a response of another protocol version. *)
Theorem client_config_spec cfg transport req resp :
  let cfg' := normalizeHTTPClientConfig cfg in
  normalizeHTTPClientConfig cfg' = cfg' /\
  (0 < DialTimeout cfg' /\ 0 < TLSHandshakeTimeout cfg' /\ 0 < ResponseHeaderTimeout cfg' /\
   0 < MaxIdleConns cfg' /\ 0 < MaxIdleConnsPerHost cfg' /\ 0 <= MaxConnsPerHost cfg') /\
  Protocol cfg' ∈ [HTTPProtocolAuto; HTTPProtocolHTTP1; HTTPProtocolHTTP2] /\
  (0 < DialTimeout cfg -> 0 < TLSHandshakeTimeout cfg -> 0 < ResponseHeaderTimeout cfg ->
   0 < MaxIdleConns cfg -> 0 < MaxIdleConnsPerHost cfg -> 0 <= MaxConnsPerHost cfg ->
   Protocol cfg ∈ [HTTPProtocolAuto; HTTPProtocolHTTP1; HTTPProtocolHTTP2] -> cfg' = cfg) /\
  (Protocol cfg = HTTPProtocolHTTP2 ->
   roundTrip (newHTTPClient cfg') transport req = Ok resp ->
   resp_ProtoMajor resp = 2 /\ transport req = Ok resp).
Proof.
  intros cfg'. destruct (normalize_positive cfg) as (H1 & H2 & H3 & H4 & H5 & H6).
  destruct (normalize_protocol cfg) as [HP HP']. split_and!; try done.
  - by apply normalize_valid.
  - by apply normalize_valid.
  - intros E. unfold roundTrip, newHTTPClient, cfg'. cbn [hc_RequireHTTP2].
    rewrite HP' by (rewrite E; set_solver). rewrite E. simpl. unfold requireHTTP2_RoundTrip.
    destruct (transport req) as [r|]; [|done]. destruct (Z.eqb_spec (resp_ProtoMajor r) 2); [|done].
    by intros [= ->].
Qed.

Section Do.
Context {rest S : Type} `{SelectorOk S}.
Context (url_String url_Redacted : URL rest -> string).
Context (http_CheckRequest : string -> string -> option error).
Context (InjectHTTPTraceContext : header -> header).
Context (time_Since : Z).

(** A backend request goes to one of the configured base URLs with the
    client's method, body, query and host (the base URL's host when the client
    sent none), the joined path and the client's headers less the hop-by-hop
    ones, plus trace headers when observability is on.  What comes back is the
    response as received, its body cut at the limit, or an error result with
    status 0 that keeps the cause; kind and request id are always the
    request's.  Observability sees exactly one record, when it is on. *)
Theorem Do_spec (client : HTTPRequest -> res HTTPResponse) (p : requester rest S) item :
  bases p <> [] -> Z.of_nat (length (bases p)) < 2 ^ 32 ->
  exists r o p' base,
    Do url_String url_Redacted http_CheckRequest client InjectHTTPTraceContext time_Since p item
      = Some (r, o, p') /\
    base ∈ bases p /\ bases p' = bases p /\ obs p' = obs p /\ maxBody p' = maxBody p /\
    rs_Kind r = rq_Kind item /\ rs_RequestID r = rq_RequestID item /\
    rs_Selected r = url_Redacted base /\
    length o = (if obs p then 1%nat else 0%nat) /\
    let u := url_String {| u_Path := singleJoiningSlash (u_Path base) (rq_Path item);
               u_RawQuery := rq_RawQuery item; u_Host := u_Host base; u_rest := u_rest base |} in
    match http_CheckRequest (rq_Method item) u with
    | Some e => rs_Err r = Some e /\ rs_Status r = 0 /\ rs_Body r = ""
    | None =>
        exists req, asked item base (if obs p then InjectHTTPTraceContext else id) u req /\
          match client req with
          | Ok resp => received (maxBody p) item resp r
          | Err e => rs_Err r = Some e /\ rs_Status r = 0 /\ rs_Body r = ""
          end
    end.
Proof.
  intros Hne Hl. destruct (selectBase_in p item Hne Hl) as (b & p' & Hs & Hb & Hbs & Hk & Hm & Ho).
  unfold Do. rewrite Hs. simpl. unfold newBackendRequest. cbv zeta.
  set (u := url_String _).
  assert (forall o, length (finishBackendObservation p' item o) = if obs p then 1%nat else 0%nat) as HO.
  { intros o. unfold finishBackendObservation. rewrite Ho. by destruct (obs p). }
  destruct (http_CheckRequest (rq_Method item) u) as [e|] eqn:Ec.
  { eexists _, _, p', b. split_and!; try done. fold u. by rewrite Ec. }
  unfold executeRequest. set (req := {| hr_Method := _ |}).
  assert (asked item b (if obs p then InjectHTTPTraceContext else id) u req) as Hask.
  { unfold asked, req. simpl. rewrite Ho. split_and!; try done.
    exists (RemoveHopByHop (rq_Header item)). rewrite Clone_id. split; [by destruct (obs p)|].
    intros k. rewrite lookup_RemoveHopByHop. unfold hopByHop. rewrite !fmap_app.
    case_decide; set_solver. }
  destruct (client req) as [resp|e] eqn:Er.
  - eexists _, _, p', b. split_and!; try done. fold u. rewrite Ec. exists req.
    split; [done|]. rewrite Er. rewrite <-Hm. unfold received. simpl.
    pose proof (readResponseBody_prefix p' (resp_Body resp)) as [H1 H2]. by split_and!.
  - eexists _, _, p', b. split_and!; try done. fold u. rewrite Ec. exists req.
    split; [done|]. by rewrite Er.
Qed.
End Do.

Definition exampleURL : URL unit :=
  {| u_Path := "/base/"; u_RawQuery := ""; u_Host := "h"; u_rest := tt |}.
Definition exampleRequester : requester unit selector :=
  fst (NewRequester BackendPrimary [exampleURL; exampleURL] None 3
    {| DialTimeout := 0; TLSHandshakeTimeout := 0; ResponseHeaderTimeout := -1; MaxIdleConns := 0;
       MaxIdleConnsPerHost := 0; MaxConnsPerHost := 0; Protocol := "" |} false).
Definition exampleClient (req : HTTPRequest) : res HTTPResponse :=
  Ok {| resp_StatusCode := 200; resp_Proto := "HTTP/1.1"; resp_ProtoMajor := 1; resp_Header := ∅;
        resp_Body := hr_URL req |}.

Lemma client_config_spec_witness :
  let cfg := {| DialTimeout := 1; TLSHandshakeTimeout := 1; ResponseHeaderTimeout := 1;
    MaxIdleConns := 1; MaxIdleConnsPerHost := 1; MaxConnsPerHost := 0;
    Protocol := HTTPProtocolHTTP2 |} in
  normalizeHTTPClientConfig cfg = cfg.
Proof.
  intros cfg.
  destruct (client_config_spec cfg exampleClient
    {| hr_Method := ""; hr_URL := ""; hr_Host := ""; hr_Header := ∅; hr_Body := "" |}
    {| resp_StatusCode := 200; resp_Proto := ""; resp_ProtoMajor := 2; resp_Header := ∅;
       resp_Body := "" |}) as (_ & _ & _ & H & _).
  apply H; try (simpl; lia). right. right. left.
Defined.

Lemma Do_spec_witness :
  exists r o p' base,
    Do u_Path u_Path (fun _ _ => None) exampleClient id 0 exampleRequester (exampleRequest "a:1")
      = Some (r, o, p') /\ base ∈ bases exampleRequester /\ rs_Body r = "/ba".
Proof.
  destruct (Do_spec u_Path u_Path (fun _ _ => None) id 0 exampleClient exampleRequester
    (exampleRequest "a:1")) as (r & o & p' & b & E & Hb & _).
  - discriminate.
  - simpl. lia.
  - exists r, o, p', b. split_and!; [exact E|exact Hb|].
    revert E. vm_compute. intros [= <- _ _]. reflexivity.
Defined.
End backend.
