(* ===== verification/CompareJson.v ===== *)
(** * [internal/compare/json.go]: structural comparison of JSON bodies

    A decoded JSON document ([interface{}] after [Unmarshal]) is a tree; an
    object keeps its fields as a list, which stands for the unordered Go map.
    Numbers are IEEE doubles, compared as [reflect.DeepEqual] compares them.
    The decoder, the encoder and the compactor are the interface [JSONLib]. *)
From Stdlib Require Import SpecFloat.
From S2P Require Export GoStrings.

Module comparejson.
Inductive json :=
  | JNull
  | JBool (b : bool)
  | JNumber (f : spec_float)
  | JString (s : string)
  | JArray (l : list json)
  | JObject (fields : list (string * json)).

Record JSONPathDiff := { Path : string; Primary : string; Shadow : string }.

(** [jsoniter] and [encoding/json]; [fmt_v] is the [%v] fallback. *)
Class JSONLib := {
  json_Unmarshal : string -> res json;
  json_Marshal : json -> res string;
  fmt_v : json -> string;
  jsoniter_Valid : string -> bool;
  json_Compact : string -> res string
}.

Definition emptyJSONText : string := "<empty>".

Definition maxLen (primary shadow : Z) : Z := if primary <? shadow then shadow else primary.
Definition sliceValue (values : list json) (index : nat) : json := nth index values JNull.

(** [m[key]]: the nil interface when the key is absent. *)
Definition field (fields : list (string * json)) (key : string) : json :=
  default JNull ((list_to_map fields : gmap string json) !! key).

Definition addKey (keys : list string) (key : string) : list string :=
  if decide (key ∈ keys) then keys else (keys ++ [key])%list.
Definition unionKeys (primary shadow : list (string * json)) : list string :=
  sort_Strings (foldl addKey (foldl addKey [] primary.*1) shadow.*1).

Definition isSimpleByte (c : ascii) : bool :=
  let r := code c in
  (r =? 95) || ((97 <=? r) && (r <=? 122)) || ((65 <=? r) && (r <=? 90)) ||
  ((48 <=? r) && (r <=? 57)).
(** Every rune of a key is tested; a rune outside ASCII fails as its bytes do. *)
Definition isSimpleJSONKey (key : string) : bool :=
  if decide (key = "") then false else forallb isSimpleByte (chars key).

(** The key with every double quote written as a backslash and a quote. *)
Definition escapeKey (key : string) : string :=
  of_chars (chars key ≫= fun c => if decide (c = dquote) then [chr 92; dquote] else [c]).

Definition appendJSONKey (path key : string) : string :=
  let path := if decide (path = "") then "$" else path in
  if isSimpleJSONKey key then path +:+ "." +:+ key
  else path +:+ "[" +:+ String dquote "" +:+ escapeKey key +:+ String dquote "" +:+ "]".

Definition indexPath (path : string) (i : nat) : string :=
  path +:+ "[" +:+ Itoa (Z.of_nat i) +:+ "]".

Section compare.
Context `{JSONLib}.

Definition stringifyJSONValue (value : json) : string :=
  match value with
  | JNull => "null"
  | _ => match json_Marshal value with Ok raw => raw | Err _ => fmt_v value end
  end.

(** The diff [appendJSONDiff] appends. *)
Definition jsonDiff (path : string) (primary shadow : json) : JSONPathDiff :=
  {| Path := path; Primary := stringifyJSONValue primary; Shadow := stringifyJSONValue shadow |}.

(** [reflect.DeepEqual] of two values of which the first is a scalar. *)
Definition scalarEqual (primary shadow : json) : bool :=
  match primary, shadow with
  | JBool b, JBool c => bool_decide (b = c)
  | JNumber f, JNumber g => SFeqb f g
  | JString s, JString t => bool_decide (s = t)
  | _, _ => false
  end.

(** [compareJSONValues] with its two recursive helpers: the diffs it appends.
    A child the primary lacks is nil on that side. *)
Fixpoint compareJSONValues (path : string) (primary shadow : json) {struct primary}
    : list JSONPathDiff :=
  let absent (path : string) (shadow : json) :=
    match shadow with JNull => [] | _ => [jsonDiff path JNull shadow] end in
  match primary with
  | JNull => absent path shadow
  | JObject fields =>
      match shadow with
      | JObject fields' =>
          let children : list (string * (string -> json -> list JSONPathDiff)) :=
            (fun kv => (kv.1, fun p s => compareJSONValues p kv.2 s)) <$> fields in
          unionKeys fields fields' ≫= fun key =>
            default absent ((list_to_map children : gmap string _) !! key)
              (appendJSONKey path key) (field fields' key)
      | _ => [jsonDiff path primary shadow]
      end
  | JArray values =>
      match shadow with
      | JArray values' =>
          let children : list (string -> json -> list JSONPathDiff) :=
            (fun v => (fun p s => compareJSONValues p v s)) <$> values in
          seq 0 (Z.to_nat (maxLen (Z.of_nat (length values)) (Z.of_nat (length values')))) ≫= fun i =>
            nth i children absent (indexPath path i) (sliceValue values' i)
      | _ => [jsonDiff path primary shadow]
      end
  | _ => if scalarEqual primary shadow then [] else [jsonDiff path primary shadow]
  end.

Definition diffForEmpty (primary shadow : string) : JSONPathDiff :=
  let text s := let t := TrimSpace s in if decide (t = "") then emptyJSONText else t in
  {| Path := "$"; Primary := text primary; Shadow := text shadow |}.

Definition compactJSON (body : string) : res string :=
  if negb (jsoniter_Valid body) then Err (errors_New "json is not valid") else json_Compact body.

Definition invalidJSON (side : string) (e : error) : error :=
  errors_Wrap ("invalid " +:+ side +:+ " json: " +:+ Error e) e.

(** [jsonComparator.compareBodies]: body difference, diffs, error. *)
Definition compareBodies (strict : bool) (primary shadow : string)
    : bool * list JSONPathDiff * option error :=
  if decide (primary = "" /\ shadow = "") then (false, [], None)
  else if decide (primary = "" \/ shadow = "") then (true, [diffForEmpty primary shadow], None)
  else if strict then
    match compactJSON primary with
    | Err e => (true, [], Some (invalidJSON "primary" e))
    | Ok compactPrimary =>
        match compactJSON shadow with
        | Err e => (true, [], Some (invalidJSON "shadow" e))
        | Ok compactShadow =>
            if decide (compactPrimary = compactShadow) then (false, [], None)
            else (true, [{| Path := "$"; Primary := compactPrimary; Shadow := compactShadow |}], None)
        end
    end
  else
    match json_Unmarshal primary with
    | Err e => (true, [], Some (invalidJSON "primary" e))
    | Ok primaryValue =>
        match json_Unmarshal shadow with
        | Err e => (true, [], Some (invalidJSON "shadow" e))
        | Ok shadowValue =>
            let jsonDiffs := compareJSONValues "$" primaryValue shadowValue in
            (negb (bool_decide (length jsonDiffs = 0%nat)), jsonDiffs, None)
        end
    end.
End compare.

(** ** Specification *)

(** Equality of documents in which an absent field or element and [null] are
    the same, and field order does not count. *)
Inductive same : json -> json -> Prop :=
  | same_null : same JNull JNull
  | same_bool b : same (JBool b) (JBool b)
  | same_number f g : SFeqb f g = true -> same (JNumber f) (JNumber g)
  | same_string s : same (JString s) (JString s)
  | same_array l m :
      (forall i, same (sliceValue l i) (sliceValue m i)) -> same (JArray l) (JArray m)
  | same_object fs gs :
      (forall key, same (field fs key) (field gs key)) -> same (JObject fs) (JObject gs).

(** Positions in a document, their printed form and the value there. *)
Inductive step := Key (k : string) | Index (i : nat).
Fixpoint render (path : string) (steps : list step) : string :=
  match steps with
  | [] => path
  | Key k :: steps' => render (appendJSONKey path k) steps'
  | Index i :: steps' => render (indexPath path i) steps'
  end.
Definition child (v : json) (s : step) : json :=
  match v, s with
  | JObject fs, Key k => field fs k
  | JArray l, Index i => sliceValue l i
  | _, _ => JNull
  end.
Definition valueAt (v : json) (steps : list step) : json := foldl child v steps.

(** Both sides are of the kind that is compared member by member. *)
Definition bothContainers (a b : json) : Prop :=
  match a, b with JObject _, JObject _ | JArray _, JArray _ => True | _, _ => False end.

(** Every proper prefix of the position is compared member by member. *)
Fixpoint reached (a b : json) (steps : list step) : Prop :=
  match steps with
  | [] => True
  | s :: steps' => bothContainers a b /\ reached (child a s) (child b s) steps'
  end.

(** The disagreement [d] of two documents at a position: the values there
    differ and are not compared member by member. *)
Definition disagreement `{JSONLib} (path : string) (a b : json) (d : JSONPathDiff) : Prop :=
  exists steps, reached a b steps /\
    ~ bothContainers (valueAt a steps) (valueAt b steps) /\
    ~ same (valueAt a steps) (valueAt b steps) /\
    d = jsonDiff (render path steps) (valueAt a steps) (valueAt b steps).

(** Depth-first induction over documents. *)
Section json_ind.
Context (P : json -> Prop).
Context (HNull : P JNull) (HBool : forall b, P (JBool b)) (HNumber : forall f, P (JNumber f))
  (HString : forall s, P (JString s)) (HArray : forall l, Forall P l -> P (JArray l))
  (HObject : forall fs, Forall P fs.*2 -> P (JObject fs)).

Fixpoint json_nested_ind (v : json) : P v :=
  match v with
  | JNull => HNull
  | JBool b => HBool b
  | JNumber f => HNumber f
  | JString s => HString s
  | JArray l => HArray l ((fix go (l : list json) : Forall P l :=
      match l with [] => Forall_nil_2 _ | x :: l => Forall_cons_2 _ _ _ (json_nested_ind x) (go l) end) l)
  | JObject fs => HObject fs ((fix go (fs : list (string * json)) : Forall P fs.*2 :=
      match fs with
      | [] => Forall_nil_2 _
      | (k, x) :: fs => Forall_cons_2 P x _ (json_nested_ind x) (go fs)
      end) fs)
  end.
End json_ind.

(** ** Lemmas *)

Lemma elem_of_addKeys l keys k : k ∈ foldl addKey keys l <-> k ∈ keys \/ k ∈ l.
Proof.
  revert keys. induction l as [|x l IH]; intros keys; simpl; [rewrite elem_of_nil; tauto|].
  rewrite IH. unfold addKey. case_decide; set_solver.
Qed.

Lemma elem_of_unionKeys fs gs k : k ∈ unionKeys fs gs <-> k ∈ fs.*1 \/ k ∈ gs.*1.
Proof.
  unfold unionKeys. rewrite sort_Strings_perm, !elem_of_addKeys, elem_of_nil. tauto.
Qed.

Lemma field_absent fs k : k ∉ fs.*1 -> field fs k = JNull.
Proof. intros Hk. unfold field. by rewrite not_elem_of_list_to_map_1. Qed.

Lemma field_cases fs k : field fs k = JNull \/ field fs k ∈ fs.*2.
Proof.
  unfold field. destruct (list_to_map fs !! k) as [v|] eqn:E; [right|by left].
  apply elem_of_list_to_map_2 in E. simpl. apply list_elem_of_fmap. by exists (k, v).
Qed.

Lemma sliceValue_cases l i : sliceValue l i = JNull \/ sliceValue l i ∈ l.
Proof.
  unfold sliceValue. destruct (nth_in_or_default i l JNull) as [Hin|Hd].
  - right. by apply list_elem_of_In.
  - by left.
Qed.

Lemma valueAt_null steps : valueAt JNull steps = JNull.
Proof. induction steps as [|s steps IH]; [done|]. by destruct s. Qed.

Lemma list_bind_nil {A B} (f : A -> list B) l : l ≫= f = [] <-> forall x, x ∈ l -> f x = [].
Proof.
  induction l as [|x l IH]; [split; [intros _ x ?%not_elem_of_nil; done | done]|].
  rewrite bind_cons. split.
  - intros [H1 H2]%app_eq_nil y Hy. apply elem_of_cons in Hy as [->|Hy]; [done|]. by apply IH.
  - intros Hx. rewrite (Hx x) by by left. simpl. apply IH. intros y Hy. apply Hx. by right.
Qed.

Lemma lookup_children {A B} (f : A -> B) (fs : list (string * A)) key :
  (list_to_map ((fun kv => (kv.1, f kv.2)) <$> fs) : gmap string B) !! key =
  f <$> (list_to_map fs : gmap string A) !! key.
Proof. rewrite <-lookup_fmap, <-list_to_map_fmap. done. Qed.

Section lemmas.
Context `{JSONLib}.
Implicit Types (path : string).

Lemma compare_object path fs gs :
  compareJSONValues path (JObject fs) (JObject gs) =
    unionKeys fs gs ≫= fun key =>
      compareJSONValues (appendJSONKey path key) (field fs key) (field gs key).
Proof.
  simpl. apply list_bind_ext; [|done]. intros key.
  rewrite (lookup_children (fun v p s => compareJSONValues p v s)). unfold field at 2.
  by destruct (list_to_map fs !! key).
Qed.

Lemma compare_array path l m :
  compareJSONValues path (JArray l) (JArray m) =
    seq 0 (Nat.max (length l) (length m)) ≫= fun i =>
      compareJSONValues (indexPath path i) (sliceValue l i) (sliceValue m i).
Proof.
  simpl. replace (Z.to_nat (maxLen (Z.of_nat (length l)) (Z.of_nat (length m))))
    with (Nat.max (length l) (length m)).
  2: { unfold maxLen. destruct (Z.ltb_spec (Z.of_nat (length l)) (Z.of_nat (length m))); lia. }
  apply list_bind_ext; [|done]. intros i. exact (f_equal (fun f => f (indexPath path i) (sliceValue m i))
    (map_nth (fun v p s => compareJSONValues p v s) l JNull i)).
Qed.

(** Where members are not compared, at most one diff is reported. *)
Lemma compare_leaf path a b :
  ~ bothContainers a b ->
  (same a b /\ compareJSONValues path a b = []) \/
  (~ same a b /\ compareJSONValues path a b = [jsonDiff path a b]).
Proof.
  intros Hc. destruct a, b; simpl in *; try tauto;
    try (right; split; [by inversion 1|done]); try (left; split; [by constructor|done]).
  - case_bool_decide; subst; [left | right]; (split; [|done]); [constructor | by inversion 1].
  - destruct (SFeqb f f0) eqn:E; [left | right]; (split; [|done]);
      [by constructor | inversion 1; congruence].
  - case_bool_decide; subst; [left | right]; (split; [|done]); [constructor | by inversion 1].
Qed.

Lemma reached_empty_leaf path a b d :
  ~ bothContainers a b -> (disagreement path a b d <-> ~ same a b /\ d = jsonDiff path a b).
Proof.
  intros Hc. split.
  - intros ([|s steps] & Hr & Hn & Hs & ->); [done|]. by destruct Hr.
  - intros [Hs ->]. by exists [].
Qed.

Lemma same_members_object fs gs :
  same (JObject fs) (JObject gs) <-> forall key, same (field fs key) (field gs key).
Proof. split; [by inversion 1|by constructor]. Qed.
Lemma same_members_array l m :
  same (JArray l) (JArray m) <-> forall i, same (sliceValue l i) (sliceValue m i).
Proof. split; [by inversion 1|by constructor]. Qed.

Lemma disagreement_object path fs gs d :
  disagreement path (JObject fs) (JObject gs) d <->
  exists key, key ∈ unionKeys fs gs /\
    disagreement (appendJSONKey path key) (field fs key) (field gs key) d.
Proof.
  split.
  - intros ([|[k|i] steps] & Hr & Hn & Hs & ->); [by destruct Hn| |].
    + destruct Hr as [_ Hr]. exists k. split; [|by exists steps].
      apply elem_of_unionKeys. destruct (decide (k ∈ fs.*1)); [by left|].
      destruct (decide (k ∈ gs.*1)); [by right|]. exfalso. apply Hs. simpl.
      rewrite !field_absent by done. fold (valueAt JNull steps). rewrite valueAt_null. constructor.
    + exfalso. apply Hs. simpl. fold (valueAt JNull steps). rewrite valueAt_null. constructor.
  - intros (key & _ & steps & Hr & Hn & Hs & ->). by exists (Key key :: steps).
Qed.

Lemma sliceValue_out l i : (length l <= i)%nat -> sliceValue l i = JNull.
Proof. apply nth_overflow. Qed.

Lemma disagreement_array path l m d :
  disagreement path (JArray l) (JArray m) d <->
  exists i, (i < Nat.max (length l) (length m))%nat /\
    disagreement (indexPath path i) (sliceValue l i) (sliceValue m i) d.
Proof.
  split.
  - intros ([|[k|i] steps] & Hr & Hn & Hs & ->); [by destruct Hn| |].
    + exfalso. apply Hs. simpl. fold (valueAt JNull steps). rewrite valueAt_null. constructor.
    + destruct Hr as [_ Hr]. exists i. split; [|by exists steps].
      destruct (decide (i < Nat.max (length l) (length m))%nat); [done|]. exfalso. apply Hs. simpl.
      rewrite !sliceValue_out by lia. fold (valueAt JNull steps). rewrite valueAt_null. constructor.
  - intros (i & _ & steps & Hr & Hn & Hs & ->). by exists (Index i :: steps).
Qed.

Lemma compare_characterised a :
  forall path b, (compareJSONValues path a b = [] <-> same a b) /\
    (forall d, d ∈ compareJSONValues path a b <-> disagreement path a b d).
Proof.
  assert (forall a path b, ~ bothContainers a b ->
    (compareJSONValues path a b = [] <-> same a b) /\
    (forall d, d ∈ compareJSONValues path a b <-> disagreement path a b d)) as Hleaf.
  { intros a' path b Hc. setoid_rewrite reached_empty_leaf; [|done].
    destruct (compare_leaf path a' b Hc) as [[Hs ->]|[Hs ->]].
    - split; [done|]. intros d. rewrite elem_of_nil. tauto.
    - split; [done|]. intros d. rewrite list_elem_of_singleton. tauto. }
  induction a as [|?|?|?|l IH|fs IH] using json_nested_ind; intros path y; try (apply Hleaf; simpl; tauto).
  - destruct y as [| | | |m|gs]; try (apply Hleaf; simpl; tauto).
    assert (forall i path b,
      (compareJSONValues path (sliceValue l i) b = [] <-> same (sliceValue l i) b) /\
      (forall d, d ∈ compareJSONValues path (sliceValue l i) b <->
                 disagreement path (sliceValue l i) b d)) as IH'.
    { intros i. destruct (sliceValue_cases l i) as [->|Hin]; [intros; apply Hleaf; simpl; tauto|].
      rewrite Forall_forall in IH. by apply IH. }
    rewrite compare_array. split.
    + rewrite list_bind_nil, same_members_array. split; intros Hm i.
      * destruct (decide (i < Nat.max (length l) (length m))%nat).
        -- apply (IH' i (indexPath path i)), Hm, elem_of_seq. lia.
        -- rewrite !sliceValue_out by lia. constructor.
      * intros _. by apply IH'.
    + intros d. rewrite list_elem_of_bind, disagreement_array. apply exist_proper. intros i.
      rewrite (proj2 (IH' i _ _)), elem_of_seq. simpl.
      split; [intros [? [? ?]] | intros [? ?]]; split; try done; lia.
  - destruct y as [| | | |m|gs]; try (apply Hleaf; simpl; tauto).
    assert (forall key path b,
      (compareJSONValues path (field fs key) b = [] <-> same (field fs key) b) /\
      (forall d, d ∈ compareJSONValues path (field fs key) b <->
                 disagreement path (field fs key) b d)) as IH'.
    { intros key. destruct (field_cases fs key) as [->|Hin]; [intros; apply Hleaf; simpl; tauto|].
      rewrite Forall_forall in IH. by apply IH. }
    rewrite compare_object. split.
    + rewrite list_bind_nil, same_members_object. split; intros Hm key.
      * destruct (decide (key ∈ unionKeys fs gs)) as [Hk|Hk].
        -- by apply (IH' key (appendJSONKey path key)), Hm.
        -- rewrite elem_of_unionKeys in Hk. rewrite !field_absent by tauto. constructor.
      * intros _. by apply IH'.
    + intros d. rewrite list_elem_of_bind, disagreement_object. apply exist_proper. intros key.
      rewrite (proj2 (IH' key _ _)). tauto.
Qed.
End lemmas.

Section bodies.
Context `{JSONLib}.

(** C36. Comparing two decodable, non-empty bodies structurally finds no
    difference exactly when the documents agree up to field order and to the
    identification of absent members with [null]; the diffs reported are
    exactly the disagreements, each with the path and the two values found
    there, so nothing is missed and nothing is blamed on an enclosing position. *)
Theorem compareBodies_structural primary shadow a b :
  primary <> "" -> shadow <> "" ->
  json_Unmarshal primary = Ok a -> json_Unmarshal shadow = Ok b ->
  exists differ diffs, compareBodies false primary shadow = (differ, diffs, None) /\
    (differ = false <-> same a b) /\
    (forall d, d ∈ diffs <-> disagreement "$" a b d).
Proof.
  intros Hp Hs Ha Hb. unfold compareBodies.
  rewrite decide_False by tauto. rewrite decide_False by tauto. rewrite Ha, Hb.
  destruct (compare_characterised a "$" b) as [H1 H2].
  eexists _, _. split; [done|]. split; [|done].
  rewrite negb_false_iff, bool_decide_eq_true, length_zero_iff_nil. done.
Qed.

(** The other ways two bodies compare: both empty are equal, one empty
    is a difference with its own text, an undecodable body is a difference with
    an error that wraps the decoder's, and in strict mode the bodies are equal
    exactly when their compacted texts are. *)
Theorem compareBodies_cases strict primary shadow :
  (primary = "" -> shadow = "" -> compareBodies strict primary shadow = (false, [], None)) /\
  ((primary = "" /\ shadow <> "") \/ (primary <> "" /\ shadow = "") ->
     compareBodies strict primary shadow = (true, [diffForEmpty primary shadow], None)) /\
  (forall e, primary <> "" -> shadow <> "" ->
     (if strict then res_map compactJSON [primary; shadow] = Err e
      else res_map json_Unmarshal [primary; shadow] = Err e) ->
     exists side, compareBodies strict primary shadow = (true, [], Some (invalidJSON side e))) /\
  (forall p s, primary <> "" -> shadow <> "" -> strict = true ->
     compactJSON primary = Ok p -> compactJSON shadow = Ok s ->
     exists diffs, compareBodies strict primary shadow = (negb (bool_decide (p = s)), diffs, None) /\
       (diffs = [] <-> p = s)).
Proof.
  unfold compareBodies. split_and!.
  - intros -> ->. by rewrite decide_True.
  - intros Ho. rewrite decide_False by tauto. by rewrite decide_True by tauto.
  - intros e Hp Hs. rewrite decide_False by tauto. rewrite decide_False by tauto.
    destruct strict; simpl.
    + destruct (compactJSON primary) as [p|e1]; simpl.
      * destruct (compactJSON shadow) as [s|e2]; simpl; [done|]. intros [= ->]. by exists "shadow".
      * intros [= ->]. by exists "primary".
    + destruct (json_Unmarshal primary) as [p|e1]; simpl.
      * destruct (json_Unmarshal shadow) as [s|e2]; simpl; [done|]. intros [= ->]. by exists "shadow".
      * intros [= ->]. by exists "primary".
  - intros p s Hp Hs -> Ep Es. rewrite decide_False by tauto. rewrite decide_False by tauto.
    rewrite Ep, Es. case_decide as E.
    + rewrite bool_decide_true by done. by eexists.
    + rewrite bool_decide_false by done. by eexists.
Qed.
End bodies.

(** A decoder for closed examples: two documents and a syntax error. *)
Definition exampleJSONLib : JSONLib := {|
  json_Unmarshal s :=
    if decide (s = "p") then Ok (JObject [("a", JNumber (S754_finite false 1 0)); ("b", JNull)])
    else if decide (s = "s") then Ok (JObject [("a", JArray [JBool true])])
    else Err (errors_New "syntax");
  json_Marshal v := Ok (match v with JNumber _ => "1" | _ => "[true]" end);
  fmt_v _ := "";
  jsoniter_Valid s := bool_decide (s <> "!");
  json_Compact s := Ok (TrimSpace s)
|}.

Lemma compareBodies_structural_witness :
  let H := exampleJSONLib in
  exists differ diffs, compareBodies false "p" "s" = (differ, diffs, None) /\ differ <> false.
Proof.
  intros H.
  destruct (compareBodies_structural (H := H) "p" "s" _ _ ltac:(done) ltac:(done) eq_refl eq_refl)
    as (differ & diffs & E & Hd & _).
  exists differ, diffs. split; [exact E|]. rewrite Hd. intros Hs. inversion Hs as [| | | | |fs gs Hk].
  specialize (Hk "a"). vm_compute in Hk. inversion Hk.
Defined.

Lemma compareBodies_cases_witness :
  let H := exampleJSONLib in
  exists diffs, compareBodies true " x" "x" = (false, diffs, None) /\ diffs = [].
Proof.
  intros H. destruct (compareBodies_cases (H := H) true " x" "x") as (_ & _ & _ & Hs).
  destruct (Hs "x" "x" ltac:(done) ltac:(done) eq_refl eq_refl eq_refl) as (diffs & E & Hd).
  exists diffs. split; [exact E|]. apply Hd. reflexivity.
Defined.
End comparejson.
