(* ===== verification/Compare.v ===== *)
(** * [internal/compare]: header, JSON and HTML comparators and their registry

    HTML parsing is a parameter ([html.Parse]); the tree walk, the token sets
    and the similarity are the code's.  Similarities are IEEE doubles. *)
From Stdlib Require Import SpecFloat.
From S2P Require Export CompareJson Backend.

Module compare.
Import comparejson backend.

Definition ModeHeader : string := "header".
Definition ModeJSON : string := "json".
Definition ModeHTML : string := "html".

(** The fields of [config.Config] the comparators read. *)
Record compareConfig := {
  cc_CompareMode : string;
  cc_CompareHeaders : list string;
  cc_HTMLSimilarityThreshold : spec_float;
  cc_JSONStrict : bool
}.

Record CResult := {
  Mode : string;
  Diff : bool;
  HeaderDiff : bool;
  HeaderPrimary : gmap string string;
  HeaderShadow : gmap string string;
  HeaderDiffs : list Headers.HeaderDiff;
  BodyDiff : bool;
  JSONDiffs : list JSONPathDiff;
  HTMLSimilarity : spec_float
}.

(** [float64] *)
Definition float64_of_int (z : Z) : spec_float := binary_normalize 53 1024 z 0 false.
Definition float64_div (x y : spec_float) : spec_float := SFdiv 53 1024 x y.
Definition f0 : spec_float := float64_of_int 0.
Definition f1 : spec_float := float64_of_int 1.

(** [*html.Node] with its children in order. *)
Inductive NodeType := ElementNode | TextNode | OtherNode.
Inductive Node := node (Type_ : NodeType) (Data : string) (children : list Node).

Section html.
Context `{Unicode}.
Context (html_Parse : string -> res Node).

Definition unicode_letter (r : Z) : bool :=
  if r <? 128 then ((65 <=? r) && (r <=? 90)) || ((97 <=? r) && (r <=? 122)) else unicode_IsLetter r.
Definition unicode_digit (r : Z) : bool :=
  if r <? 128 then (48 <=? r) && (r <=? 57) else unicode_IsDigit r.

Definition appendHTMLText (builder text : string) : string :=
  if decide (text = "") then builder
  else (if 0 <? len builder then builder +:+ " " else builder) +:+ text.

(** The elements whose subtree is not visible text. *)
Definition skippedElement (t : NodeType) (data : string) : bool :=
  match t with
  | ElementNode =>
      let name := ToLower data in
      bool_decide (name = "script") || bool_decide (name = "style") || bool_decide (name = "noscript")
  | _ => false
  end.

Fixpoint walkHTMLText (n : Node) (builder : string) : string :=
  match n with
  | node t data children =>
      if skippedElement t data then builder
      else
        let builder := match t with
                       | TextNode => appendHTMLText builder (TrimSpace data)
                       | _ => builder
                       end in
        (fix walkChildren (l : list Node) (builder : string) : string :=
           match l with
           | [] => builder
           | child :: l' => walkChildren l' (walkHTMLText child builder)
           end) children builder
  end.

Definition extractHTMLText (body : string) : res string :=
  if decide (body = "") then Ok ""
  else root ← html_Parse body; Ok (walkHTMLText root "").

(** [strings.Map] of [normalizeText]: a letter or digit keeps its bytes, any
    other rune becomes one space. *)
Fixpoint mapLetters (fuel : nat) (l : list ascii) : list ascii :=
  match fuel, l with
  | S fuel', _ :: _ =>
      let '(r, w) := decode_rune l in
      let w := Nat.max 1 w in
      ((if unicode_letter r || unicode_digit r then take w l else [" "%char]) ++
       mapLetters fuel' (drop w l))%list
  | _, _ => []
  end.
Definition normalizeText (value : string) : string :=
  ToLower (of_chars (mapLetters (String.length value) (chars value))).

Definition tokenizeHTMLText (text : string) : gset string :=
  foldl (fun set token => if decide (token = "") then set else {[token]} ∪ set) ∅
    (Fields (normalizeText text)).

(** The loop counts the tokens of the range over [primary], in any order. *)
Definition jaccardSimilarity (primary shadow : gset string) : spec_float :=
  if (Z.of_nat (size primary) =? 0) && (Z.of_nat (size shadow) =? 0) then f1
  else if (Z.of_nat (size primary) =? 0) || (Z.of_nat (size shadow) =? 0) then f0
  else
    let intersection := foldl (fun n token => if decide (token ∈ shadow) then n + 1 else n) 0
                          (elements primary) in
    let union := Z.of_nat (size primary) + Z.of_nat (size shadow) - intersection in
    if union =? 0 then f0
    else float64_div (float64_of_int intersection) (float64_of_int union).

Definition compareHTMLSimilarity (primary shadow : string) : res spec_float :=
  primaryText ← extractHTMLText primary;
  shadowText ← extractHTMLText shadow;
  Ok (jaccardSimilarity (tokenizeHTMLText primaryText) (tokenizeHTMLText shadowText)).
End html.

Section comparators.
Context `{Unicode} `{JSONLib}.
Context (html_Parse : string -> res Node).

(** [baseComparator.compareHeaders]: a nil override means the configuration. *)
Definition compareHeaders (cfg : compareConfig) (primary shadow : header)
    (compareHeaders : option (list string)) : compared :=
  CompareDetailed primary shadow (default (cc_CompareHeaders cfg) compareHeaders) false.

Definition headerCompare (cfg : compareConfig) (primary shadow : Result)
    (hs : option (list string)) : CResult * option error :=
  let c := compareHeaders cfg (rs_Header primary) (rs_Header shadow) hs in
  ({| Mode := ModeHeader; Diff := c_diff c; HeaderDiff := c_diff c; HeaderPrimary := c_p c;
      HeaderShadow := c_s c; HeaderDiffs := c_diffs c; BodyDiff := false; JSONDiffs := [];
      HTMLSimilarity := f0 |}, None).

Definition jsonCompare (cfg : compareConfig) (primary shadow : Result)
    (hs : option (list string)) : CResult * option error :=
  let c := compareHeaders cfg (rs_Header primary) (rs_Header shadow) hs in
  let '(bodyDiff, jsonDiffs, err) :=
    compareBodies (cc_JSONStrict cfg) (rs_Body primary) (rs_Body shadow) in
  let failed := match err with Some _ => true | None => false end in
  ({| Mode := ModeJSON;
      Diff := if failed then true else c_diff c || bodyDiff;
      HeaderDiff := c_diff c; HeaderPrimary := c_p c; HeaderShadow := c_s c;
      HeaderDiffs := c_diffs c;
      BodyDiff := if failed then true else bodyDiff;
      JSONDiffs := jsonDiffs; HTMLSimilarity := f0 |}, err).

Definition htmlCompare (cfg : compareConfig) (primary shadow : Result)
    (hs : option (list string)) : CResult * option error :=
  let c := compareHeaders cfg (rs_Header primary) (rs_Header shadow) hs in
  let '(similarity, err) :=
    match compareHTMLSimilarity html_Parse (rs_Body primary) (rs_Body shadow) with
    | Ok s => (s, None)
    | Err e => (f0, Some e)
    end in
  let bodyDiff := SFltb similarity (cc_HTMLSimilarityThreshold cfg) in
  let failed := match err with Some _ => true | None => false end in
  ({| Mode := ModeHTML;
      Diff := if failed then true else c_diff c || bodyDiff;
      HeaderDiff := c_diff c; HeaderPrimary := c_p c; HeaderShadow := c_s c;
      HeaderDiffs := c_diffs c;
      BodyDiff := if failed then true else bodyDiff;
      JSONDiffs := []; HTMLSimilarity := similarity |}, err).

Definition normalizeCompareMode (raw : string) : string :=
  let mode := ToLower (TrimSpace raw) in
  if decide (mode = "" \/ mode = ModeHeader) then ModeHeader else mode.

(** The [headerAwareComparator]s. *)
Inductive comparator := headerComparator | jsonComparator | htmlComparator.
Definition CompareWithHeaders (c : comparator) (cfg : compareConfig) (primary shadow : Result)
    (hs : option (list string)) : CResult * option error :=
  match c with
  | headerComparator => headerCompare cfg primary shadow hs
  | jsonComparator => jsonCompare cfg primary shadow hs
  | htmlComparator => htmlCompare cfg primary shadow hs
  end.

Definition unsupportedMode (mode : string) : error :=
  errors_New ("unsupported compare mode " +:+ Quote mode).

Definition NewComparator (cfg : compareConfig) : res comparator :=
  let mode := normalizeCompareMode (cc_CompareMode cfg) in
  if decide (mode = ModeHeader) then Ok headerComparator
  else if decide (mode = ModeJSON) then Ok jsonComparator
  else if decide (mode = ModeHTML) then Ok htmlComparator
  else Err (unsupportedMode mode).

Record Registry := {
  defaultMode : string;
  comparators : gmap string comparator;
  registryConfig : compareConfig
}.

Definition NewRegistry (cfg : compareConfig) : res Registry :=
  let comparators := <[ModeHeader := headerComparator]>
    (<[ModeJSON := jsonComparator]> (<[ModeHTML := htmlComparator]> ∅)) in
  let defaultMode := normalizeCompareMode (cc_CompareMode cfg) in
  match comparators !! defaultMode with
  | None => Err (unsupportedMode defaultMode)
  | Some _ => Ok {| defaultMode := defaultMode; comparators := comparators; registryConfig := cfg |}
  end.

Definition emptyResult : CResult :=
  {| Mode := ""; Diff := false; HeaderDiff := false; HeaderPrimary := ∅; HeaderShadow := ∅;
     HeaderDiffs := []; BodyDiff := false; JSONDiffs := []; HTMLSimilarity := f0 |}.

(** [Registry.Compare]; [None] is the nil registry. *)
Definition Compare (r : option Registry) (mode : string) (hs : option (list string))
    (primary shadow : Result) : CResult * option error :=
  match r with
  | None => (emptyResult, Some (errors_New "missing compare registry"))
  | Some r =>
      let selectedMode :=
        if decide (TrimSpace mode = "") then defaultMode r else normalizeCompareMode mode in
      match comparators r !! selectedMode with
      | None => (emptyResult, Some (unsupportedMode selectedMode))
      | Some c => CompareWithHeaders c (registryConfig r) primary shadow hs
      end
  end.
End comparators.

(** ** Specification and lemmas *)

(** The text a node shows itself. *)
Definition ownText (t : NodeType) (data : string) : list string :=
  match t with
  | TextNode => if decide (TrimSpace data = "") then [] else [TrimSpace data]
  | _ => []
  end.

(** The visible texts of a tree in document order. *)
Fixpoint visibleTexts `{Unicode} (n : Node) : list string :=
  match n with
  | node t data children =>
      if skippedElement t data then []
      else (ownText t data ++ mjoin (visibleTexts <$> children))%list
  end.

Section html_lemmas.
Context `{Unicode}.

(** Append texts to a builder, one space apart. *)
Definition appendAll (builder : string) (texts : list string) : string :=
  foldl appendHTMLText builder texts.

Lemma appendAll_app b l k : appendAll b (l ++ k) = appendAll (appendAll b l) k.
Proof. apply foldl_app. Qed.

Lemma walkHTMLText_visible n b : walkHTMLText n b = appendAll b (visibleTexts n).
Proof.
  revert n b. fix IH 1. intros [t data children] b. simpl.
  destruct (skippedElement t data); [done|].
  rewrite appendAll_app.
  assert (forall b, (match t with TextNode => appendHTMLText b (TrimSpace data) | _ => b end) =
    appendAll b (ownText t data)) as Hown.
  { clear IH. intros b'. unfold ownText, appendAll. destruct t; try done.
    destruct (decide (TrimSpace data = "")) as [E|E]; [by rewrite E|done]. }
  rewrite Hown. generalize (appendAll b (ownText t data)). clear b Hown.
  induction children as [|c l IHl]; intros b; [done|]. simpl. rewrite appendAll_app, IH. apply IHl.
Qed.

Lemma visibleTexts_nonempty n : Forall (fun text => text <> "") (visibleTexts n).
Proof.
  revert n. fix IH 1. intros [t data children]. simpl.
  destruct (skippedElement t data); [done|]. apply Forall_app. split.
  - clear IH. unfold ownText. destruct t; [done| |done]. case_decide; [done|]. by constructor.
  - induction children as [|c l IHl]; [done|]. simpl. by apply Forall_app.
Qed.

Lemma appendAll_Join l : Forall (fun text => text <> "") l -> appendAll "" l = Join l " ".
Proof.
  assert (forall b l, b <> "" -> Forall (fun text => text <> "") l ->
    appendAll b l = Join (b :: l) " ") as Hgen.
  { intros b l'. revert b. induction l' as [|x l' IH]; intros b Hb; [done|].
    intros [Hx Hl]%Forall_cons_1. unfold appendAll. simpl. fold (appendAll (appendHTMLText b x) l').
    assert (appendHTMLText b x = b +:+ " " +:+ x) as ->.
    { unfold appendHTMLText. rewrite decide_False by done.
      rewrite (proj2 (Z.ltb_lt _ _)); [by rewrite app_assoc_s|].
      unfold len. destruct b; [done|]. simpl. lia. }
    rewrite IH; [|by destruct b|done]. destruct l' as [|y l']; [done|].
    simpl. by rewrite !app_assoc_s. }
  intros Hl. destruct l as [|x l]; [done|]. apply Forall_cons_1 in Hl as [Hx Hl].
  unfold appendAll. simpl. fold (appendAll (appendHTMLText "" x) l).
  assert (appendHTMLText "" x = x) as -> by (unfold appendHTMLText; by rewrite decide_False).
  by apply Hgen.
Qed.

Lemma jaccard_intersection (A B : gset string) :
  foldl (fun n token => if decide (token ∈ B) then n + 1 else n) 0 (elements A) =
  Z.of_nat (size (A ∩ B)).
Proof.
  assert (forall l n, foldl (fun n token => if decide (token ∈ B) then n + 1 else n) n l =
    n + Z.of_nat (length (filter (fun token => token ∈ B) l))) as Hf.
  { induction l as [|x l IH]; intros n; simpl; [lia|]. rewrite IH, filter_cons.
    case_decide; simpl; lia. }
  rewrite Hf, Z.add_0_l. f_equal. unfold size, set_size. simpl.
  apply Permutation_length, NoDup_Permutation; [apply NoDup_filter, NoDup_elements|apply NoDup_elements|].
  intros x. rewrite list_elem_of_filter, !elem_of_elements, elem_of_intersection. tauto.
Qed.

Lemma size_intersection (A B : gset string) :
  Z.of_nat (size A) + Z.of_nat (size B) - Z.of_nat (size (A ∩ B)) = Z.of_nat (size (A ∪ B)).
Proof.
  pose proof (size_union A (B ∖ A) ltac:(set_solver)) as H1.
  pose proof (size_union (A ∩ B) (B ∖ A) ltac:(set_solver)) as H2.
  assert (A ∪ B ∖ A = A ∪ B) as E1.
  { apply set_eq. intros x. rewrite !elem_of_union, elem_of_difference.
    destruct (decide (x ∈ A)); tauto. }
  assert (A ∩ B ∪ B ∖ A = B) as E2.
  { apply set_eq. intros x. rewrite elem_of_union, elem_of_intersection, elem_of_difference.
    destruct (decide (x ∈ A)); tauto. }
  rewrite E1 in H1. rewrite E2 in H2. lia.
Qed.

(** The HTML similarity of two bodies is the Jaccard index of the sets of
    words of their visible text: |A ∩ B| / |A ∪ B| as doubles, 1 when neither
    body has a word, 0 when only one has.  Visible text is what lies outside
    script, style and noscript elements, its non-blank pieces one space apart;
    a body that cannot be parsed is an error. *)
Theorem html_similarity_spec (html_Parse : string -> res Node) primary shadow np ns :
  primary <> "" -> shadow <> "" -> html_Parse primary = Ok np -> html_Parse shadow = Ok ns ->
  let words n := tokenizeHTMLText (Join (visibleTexts n) " ") in
  let A := words np in let B := words ns in
  exists v, compareHTMLSimilarity html_Parse primary shadow = Ok v /\
    (A = ∅ -> B = ∅ -> v = f1) /\
    ((A = ∅ /\ B <> ∅) \/ (A <> ∅ /\ B = ∅) -> v = f0) /\
    (A <> ∅ -> B <> ∅ ->
       v = float64_div (float64_of_int (Z.of_nat (size (A ∩ B))))
                       (float64_of_int (Z.of_nat (size (A ∪ B))))).
Proof.
  intros Hp Hs Ep Es words A B. unfold compareHTMLSimilarity, extractHTMLText.
  rewrite !decide_False by done. rewrite Ep, Es. simpl.
  rewrite !walkHTMLText_visible, !appendAll_Join by apply visibleTexts_nonempty.
  fold (words np) (words ns). fold A B. eexists. split; [done|].
  assert (forall X : gset string, Z.of_nat (size X) =? 0 = bool_decide (X = ∅)) as Hz.
  { intros X. destruct (bool_decide_reflect (X = ∅)) as [->|HX]; [done|].
    apply Z.eqb_neq. intros E. apply HX, leibniz_equiv, size_empty_inv. lia. }
  unfold jaccardSimilarity. rewrite !Hz, jaccard_intersection, size_intersection, Hz.
  split_and!.
  - intros -> ->. done.
  - intros [[EA EB]|[EA EB]]; by rewrite ?(bool_decide_true _ EA), ?(bool_decide_false _ EA),
      ?(bool_decide_true _ EB), ?(bool_decide_false _ EB).
  - intros EA EB. rewrite !bool_decide_false by first [done | set_solver]. done.
Qed.
End html_lemmas.

Section registry_lemmas.
Context `{Unicode} `{JSONLib}.
Context (html_Parse : string -> res Node).

(** The mode a registry uses for a request. *)
Definition selectedMode (cfg : compareConfig) (mode : string) : string :=
  normalizeCompareMode (if decide (TrimSpace mode = "") then cc_CompareMode cfg else mode).

Definition comparatorOf (mode : string) : option comparator :=
  if decide (mode = ModeHeader) then Some headerComparator
  else if decide (mode = ModeJSON) then Some jsonComparator
  else if decide (mode = ModeHTML) then Some htmlComparator
  else None.

Lemma registry_lookup mode :
  (<[ModeHeader := headerComparator]> (<[ModeJSON := jsonComparator]>
     (<[ModeHTML := htmlComparator]> (∅ : gmap string comparator)))) !! mode = comparatorOf mode.
Proof.
  unfold comparatorOf. repeat case_decide; subst; try done.
  rewrite !lookup_insert_ne by done. apply lookup_empty.
Qed.

Lemma comparatorOf_some m :
  m ∈ [ModeHeader; ModeJSON; ModeHTML] <-> exists c, comparatorOf m = Some c.
Proof.
  rewrite !elem_of_cons. unfold comparatorOf. repeat case_decide; split; try tauto; try by eauto.
  - intros [?|[?|[?|?%elem_of_nil]]]; done.
  - by intros [].
Qed.

(** A comparator reports its own mode. *)
Lemma comparatorOf_inj m n c : comparatorOf m = Some c -> comparatorOf n = Some c -> m = n.
Proof. unfold comparatorOf. repeat case_decide; congruence. Qed.

Lemma NewRegistry_ok cfg r :
  NewRegistry cfg = Ok r ->
  registryConfig r = cfg /\ defaultMode r = normalizeCompareMode (cc_CompareMode cfg) /\
  forall mode, comparators r !! mode = comparatorOf mode.
Proof.
  unfold NewRegistry. rewrite registry_lookup. destruct (comparatorOf _); [|done].
  intros [= <-]. split_and!; [done..|]. intros mode. simpl. apply registry_lookup.
Qed.

Lemma CompareWithHeaders_ok c cfg primary shadow hs :
  let '(r, err) := CompareWithHeaders html_Parse c cfg primary shadow hs in
  let keys := default (cc_CompareHeaders cfg) hs in
  comparatorOf (Mode r) = Some c /\
  HeaderDiffs r = headerDiffsOf (rs_Header primary) (rs_Header shadow) keys /\
  (HeaderDiff r = true <-> HeaderDiffs r <> []) /\
  (Diff r = HeaderDiff r || BodyDiff r) /\ (is_Some err -> BodyDiff r = true).
Proof.
  assert (forall primary shadow, let c := compareHeaders cfg primary shadow hs in
    c_diffs c = headerDiffsOf primary shadow (default (cc_CompareHeaders cfg) hs) /\
    (c_diff c = true <-> c_diffs c <> [])) as Hc.
  { intros p s. unfold compareHeaders. simpl. rewrite CompareDetailed_diffs. split; [done|].
    rewrite CompareDetailed_diff. apply bool_decide_eq_true. }
  destruct (Hc (rs_Header primary) (rs_Header shadow)) as [H1 H2]. clear Hc.
  destruct c; unfold CompareWithHeaders, headerCompare, jsonCompare, htmlCompare; cbv zeta.
  all: try (destruct (compareBodies _ _ _) as [[bd jd] [e|]]);
    try (destruct (compareHTMLSimilarity _ _ _) as [v|e]);
    simpl; rewrite ?orb_false_r, ?orb_true_r; split_and!; first [done | apply H2 | by intros [] | idtac].
Qed.

(** A registry compares in the mode of the request when it names one, in
    the configured mode otherwise, with the header list of the request when it
    has one, the configured list otherwise.  Every comparator reports the
    header differences of that list and a difference exactly when headers or
    bodies differ; a comparison that fails counts as a body difference.  Modes
    other than header, json and html are errors, and the startup comparator
    is the one the registry uses by default. *)
Theorem Registry_Compare_spec cfg r mode hs primary shadow :
  NewRegistry cfg = Ok r ->
  let m := selectedMode cfg mode in
  let keys := default (cc_CompareHeaders cfg) hs in
  let '(result, err) := Compare html_Parse (Some r) mode hs primary shadow in
  (m ∈ [ModeHeader; ModeJSON; ModeHTML] ->
     Mode result = m /\
     HeaderDiffs result = headerDiffsOf (rs_Header primary) (rs_Header shadow) keys /\
     (HeaderDiff result = true <-> HeaderDiffs result <> []) /\
     Diff result = HeaderDiff result || BodyDiff result /\
     (is_Some err -> BodyDiff result = true)) /\
  (m ∉ [ModeHeader; ModeJSON; ModeHTML] -> result = emptyResult /\ err = Some (unsupportedMode m)) /\
  (TrimSpace mode = "" -> exists c, NewComparator cfg = Ok c /\
     (result, err) = CompareWithHeaders html_Parse c cfg primary shadow hs).
Proof.
  intros Hr. pose proof (NewRegistry_ok _ _ Hr) as (Hcfg & Hdef & Hlook).
  intros m keys. unfold Compare.
  assert ((if decide (TrimSpace mode = "") then defaultMode r else normalizeCompareMode mode) = m) as ->.
  { unfold m, selectedMode. rewrite Hdef. by case_decide. }
  rewrite Hlook, Hcfg.
  assert (m ∈ [ModeHeader; ModeJSON; ModeHTML] <-> exists c, comparatorOf m = Some c) as Hin.
  { apply comparatorOf_some. }
  assert (TrimSpace mode = "" -> NewComparator cfg =
    match comparatorOf m with Some c => Ok c | None => Err (unsupportedMode m) end) as HN.
  { intros E. unfold NewComparator, m, selectedMode.
    rewrite (decide_True (P := TrimSpace mode = "")) by done.
    unfold comparatorOf. by repeat case_decide. }
  destruct (comparatorOf m) as [c|] eqn:Ec.
  - pose proof (CompareWithHeaders_ok c cfg primary shadow hs) as Hok.
    destruct (CompareWithHeaders html_Parse c cfg primary shadow hs) as [result err] eqn:E.
    destruct Hok as (Hm & H1 & H2 & H3 & H4). split_and!.
    + intros _. split_and!; first [by apply (comparatorOf_inj _ _ c) | done | apply H2].
    + intros Hn. exfalso. apply Hn, Hin. by exists c.
    + intros Eb. exists c. by rewrite (HN Eb).
  - split_and!; [|done|].
    + intros [c Hc]%Hin. done.
    + intros Eb. exfalso. revert Hr. unfold NewRegistry. rewrite registry_lookup.
      assert (normalizeCompareMode (cc_CompareMode cfg) = m) as ->
        by (unfold m, selectedMode; by rewrite decide_True).
      by rewrite Ec.
Qed.
End registry_lemmas.

(** A parser for closed examples: the body is one text between a script and
    an empty element. *)
Definition exampleParse (body : string) : res Node :=
  Ok (node OtherNode "" [node ElementNode "SCRIPT" [node TextNode "x" []];
                         node TextNode body []; node ElementNode "p" []]).

Lemma html_similarity_spec_witness :
  let H := asciiUnicode in
  exists v, compareHTMLSimilarity exampleParse "One two" " two, three" = Ok v /\
    v = float64_div (float64_of_int 1) (float64_of_int 3).
Proof.
  intros H.
  destruct (html_similarity_spec (H := H) exampleParse "One two" " two, three" _ _
    ltac:(done) ltac:(done) eq_refl eq_refl) as (v & E & _ & _ & Hv).
  exists v. split; [exact E|]. rewrite Hv; [vm_compute; reflexivity|vm_compute; discriminate..].
Defined.

Definition exampleConfig : compareConfig :=
  {| cc_CompareMode := " JSON "; cc_CompareHeaders := ["X-A"]; cc_HTMLSimilarityThreshold := f1;
     cc_JSONStrict := false |}.
Definition exampleResult (h : header) (body : string) : Result :=
  {| rs_Header := h; rs_Body := body; rs_Err := None; rs_Proto := ""; rs_Duration := 0;
     rs_RequestID := 0; rs_Kind := BackendPrimary; rs_Selected := ""; rs_Status := 200 |}.

Lemma Registry_Compare_spec_witness :
  let H := asciiUnicode in let J := exampleJSONLib in
  exists r, NewRegistry exampleConfig = Ok r /\
    let '(result, err) := Compare exampleParse (Some r) "" None
        (exampleResult {["X-A" := ["1"]]} "") (exampleResult ∅ "") in
    Mode result = ModeJSON /\ HeaderDiff result = true /\ Diff result = true /\ BodyDiff result = false.
Proof.
  intros H J. destruct (NewRegistry exampleConfig) as [r|e] eqn:E; [|discriminate].
  exists r. split; [reflexivity|].
  pose proof (Registry_Compare_spec exampleParse exampleConfig r "" None
    (exampleResult {["X-A" := ["1"]]} "") (exampleResult ∅ "") E) as HR.
  assert ((Compare exampleParse (Some r) "" None (exampleResult {["X-A" := ["1"]]} "")
    (exampleResult ∅ "")).1.(BodyDiff) = false) as Hb.
  { injection E as <-. vm_compute. reflexivity. }
  destruct (Compare exampleParse (Some r) "" None (exampleResult {["X-A" := ["1"]]} "")
    (exampleResult ∅ "")) as [result err].
  destruct HR as [HR _]. destruct HR as (H1 & H2 & H3 & H4 & _); [right; left|].
  simpl in Hb. rewrite H4, Hb, H2 in *. split_and!; [exact H1|apply H3; vm_compute; discriminate| |done].
  rewrite (proj2 H3); [done|vm_compute; discriminate].
Defined.
End compare.
