(* ===== verification/Logging.v ===== *)
(** * [internal/logging]: levels, selected fields and JSON selectors

    Log output itself is [log/slog]'s; what the program computes are levels,
    attribute lists and the paths of selected JSON values.  A decoded document
    keeps number texts ([UseNumber]); decoding is a parameter. *)
From S2P Require Export GoHttp GoStrconv.

Module logging.
(** [slog.Level] *)
Definition LevelDebug : Z := -4.
Definition LevelInfo : Z := 0.
Definition LevelNotice : Z := 2.
Definition LevelWarn : Z := 4.
Definition LevelError : Z := 8.

Definition ParseLevel `{Unicode} (value : string) : res Z :=
  let v := ToLower (TrimSpace value) in
  if decide (v = "debug") then Ok LevelDebug
  else if decide (v ∈ [""; "info"; "none"]) then Ok LevelInfo
  else if decide (v = "notice") then Ok LevelNotice
  else if decide (v = "warn") then Ok LevelWarn
  else if decide (v = "error") then Ok LevelError
  else Err (errors_New ("invalid log_level " +:+ Quote value +:+
                        ": expected debug, info, notice, warn, error, or none")).

Definition ResultLevel (diff failed primaryFailed : bool) : Z :=
  if primaryFailed then LevelError
  else if failed then LevelWarn
  else if diff then LevelNotice
  else LevelInfo.

(** [slog.Attr]: a key and a value. *)
Inductive Value :=
  | StringValue (s : string)
  | StringsValue (l : list string)
  | BoolValue (b : bool)
  | NumberValue (text : string)
  | Int64Value (n : Z)
  | Uint64Value (n : Z)
  | GroupValue (attrs : list (string * Value)).
Definition Attr : Type := string * Value.

(** ** [fields.go] *)

Definition fieldRune (r : Z) : ascii :=
  if ((97 <=? r) && (r <=? 122)) || ((48 <=? r) && (r <=? 57)) then chr r else "_"%char.
Definition FieldKey `{Unicode} (name : string) : string :=
  of_chars (fieldRune <$> runes (ToLower name)).

(** The attribute of one name, if any value is not empty. *)
Definition selectedField `{Unicode} (values : string -> list string) (name : string) : list Attr :=
  match filter (fun value => value <> "") (values name) with
  | [] => []
  | [v] => [(FieldKey name, StringValue v)]
  | selected => [(FieldKey name, StringsValue selected)]
  end.
Definition SelectedFields `{Unicode} (group : string) (names : list string)
    (values : string -> list string) : Attr :=
  (group, GroupValue (names ≫= selectedField values)).

(** ** [json_fields.go]: JSON pointers *)

(** [strings.ReplaceAll(s, ab, c)] for a two-byte pattern. *)
Fixpoint replace2 (a b : ascii) (c : ascii) (l : list ascii) : list ascii :=
  match l with
  | x :: l' =>
      match l' with
      | y :: l'' => if decide (x = a /\ y = b) then c :: replace2 a b c l'' else x :: replace2 a b c l'
      | [] => [x]
      end
  | [] => []
  end.

Definition tilde : ascii := "~"%char.
Definition slash : ascii := "/"%char.

(** Every tilde is followed by 0 or 1. *)
Fixpoint validEscapes (l : list ascii) : bool :=
  match l with
  | [] => true
  | c :: l' =>
      if decide (c = tilde) then
        match l' with
        | d :: l'' => if decide (d = "0"%char \/ d = "1"%char) then validEscapes l'' else false
        | [] => false
        end
      else validEscapes l'
  end.

Definition unescapeToken (token : string) : string :=
  of_chars (replace2 tilde "0" tilde (replace2 tilde "1" slash (chars token))).

Definition ParseJSONPointer (pointer : string) : res (list string) :=
  if negb (HasPrefix pointer "/") then Err (errors_New "expected a non-root JSON pointer")
  else if negb (validEscapes (chars pointer)) then Err (errors_New "invalid JSON pointer escape")
  else Ok (unescapeToken <$> Split (of_chars (drop 1 (chars pointer))) slash).

(** ** [json_path.go]: singular JSONPaths *)

Record jsonSegment := { key : string; index : bool; pointer : bool }.

(** [strings.TrimLeft(s, " \t\r\n")] *)
Fixpoint trimLeft (l : list ascii) : list ascii :=
  match l with
  | c :: l' => if decide (code c ∈ [32; 9; 13; 10]) then trimLeft l' else l
  | [] => []
  end.

Definition jsonPathNameByte (value : ascii) (first : bool) : bool :=
  let v := code value in
  ((97 <=? v) && (v <=? 122)) || ((65 <=? v) && (v <=? 90)) || (v =? 95) ||
  (negb first && (48 <=? v) && (v <=? 57)).

(** The bytes of a member name and what follows it. *)
Fixpoint memberName (first : bool) (l : list ascii) : list ascii * list ascii :=
  match l with
  | c :: l' => if jsonPathNameByte c first
               then let '(n, r) := memberName false l' in (c :: n, r) else ([], l)
  | [] => ([], [])
  end.

Definition parseJSONPathIndex (input : list ascii) : res (jsonSegment * list ascii) :=
  match cut_go "]" [] input with
  | None => Err (errors_New "unterminated JSONPath index")
  | Some (before, rest) =>
      let k := TrimSpace before in
      let bad := Err (errors_New "expected a non-negative JSONPath array index") in
      match Atoi k with
      | None => bad
      | Some i => if (i <? 0) || negb (bool_decide (Itoa i = k)) then bad
                  else Ok ({| key := k; index := true; pointer := false |}, chars rest)
      end
  end.

(** [parseJSONPathQuotedMember] rewrites the member to a JSON string, without
    its opening quote; [None] when it is unterminated. *)
Fixpoint quotedMember (quote : ascii) (l : list ascii) : option (list ascii * list ascii) :=
  match l with
  | [] => None
  | current :: l' =>
      let add (p : list ascii) (r : option (list ascii * list ascii)) :=
        '(n, rest) ← r; Some ((p ++ n)%list, rest) in
      if decide (current = quote) then Some ([], l')
      else if decide (current = chr 92) then
        match l' with
        | [] => None
        | d :: l'' =>
            add (if decide (d = "'"%char /\ quote = "'"%char) then [d] else [chr 92; d])
                (quotedMember quote l'')
        end
      else add (if decide (current = dquote) then [chr 92; current] else [current])
               (quotedMember quote l')
  end.

Section path.
(** [json.Unmarshal] of a string literal. *)
Context (json_UnmarshalString : string -> option string).

Definition finishJSONPathMember (normalized rest : list ascii) : res (jsonSegment * list ascii) :=
  match json_UnmarshalString (of_chars (dquote :: normalized ++ [dquote])%list) with
  | None => Err (errors_New "invalid quoted JSONPath member")
  | Some k =>
      match trimLeft rest with
      | c :: rest' =>
          if decide (c = "]"%char) then Ok ({| key := k; index := false; pointer := false |}, rest')
          else Err (errors_New "expected closing JSONPath bracket")
      | [] => Err (errors_New "expected closing JSONPath bracket")
      end
  end.

Definition parseJSONPathSegment (input : list ascii) : res (jsonSegment * list ascii) :=
  match input with
  | [] => Err (errors_New "index out of range")
  | c :: input' =>
      if decide (c = "."%char) then
        match memberName true input' with
        | ([], _) => Err (errors_New "expected a JSONPath member name")
        | (n, rest) => Ok ({| key := of_chars n; index := false; pointer := false |}, rest)
        end
      else if decide (c = "["%char) then
        match trimLeft input' with
        | q :: rest =>
            if decide (q = "'"%char \/ q = dquote) then
              match quotedMember q rest with
              | None => Err (errors_New "unterminated JSONPath member")
              | Some (normalized, rest) => finishJSONPathMember normalized rest
              end
            else parseJSONPathIndex (q :: rest)
        | [] => parseJSONPathIndex []
        end
      else Err (errors_New "unsupported JSONPath operator")
  end.

(** The loop over the remaining input; every segment consumes a byte, so the
    length of the input is enough fuel ([parse_fuel]).  [None]: out of fuel. *)
Fixpoint parseSegments (fuel : nat) (remaining : list ascii) : option (res (list jsonSegment)) :=
  match remaining with
  | [] => Some (Ok [])
  | _ =>
      match fuel with
      | O => None
      | S fuel' =>
          match parseJSONPathSegment remaining with
          | Err e => Some (Err e)
          | Ok (segment, rest) =>
              r ← parseSegments fuel' rest;
              Some (match r with Err e => Err e | Ok l => Ok (segment :: l) end)
          end
      end
  end.

Definition parseJSONSelector (selector : string) : option (res (list jsonSegment)) :=
  if HasPrefix selector "/" then
    Some (match ParseJSONPointer selector with
          | Err e => Err e
          | Ok tokens =>
              Ok (map (fun t => {| key := t; index := false; pointer := true |}) tokens)
          end)
  else if negb (HasPrefix selector "$") || (len selector =? 1) then
    Some (Err (errors_New "expected a non-root JSONPath or JSON pointer"))
  else parseSegments (String.length selector) (drop 1 (chars selector)).

Definition ValidateJSONSelector (selector : string) : option (res unit) :=
  r ← parseJSONSelector selector; Some (match r with Err e => Err e | Ok _ => Ok tt end).
End path.

(** ** Resolving selectors *)

(** A document decoded with [UseNumber]. *)
Inductive document :=
  | DNull
  | DBool (b : bool)
  | DNumber (text : string)
  | DString (s : string)
  | DArray (l : list document)
  | DObject (fields : gmap string document).

Fixpoint resolveJSONPointer (value : document) (tokens : list jsonSegment) : document :=
  match tokens with
  | [] => value
  | token :: tokens' =>
      match value with
      | DObject node =>
          if index token then DNull
          else resolveJSONPointer (default DNull (node !! key token)) tokens'
      | DArray node =>
          if negb (index token) && negb (pointer token) then DNull
          else match Atoi (key token) with
               | None => DNull
               | Some i =>
                   if (i <? 0) || (Z.of_nat (length node) <=? i) ||
                      negb (bool_decide (Itoa i = key token))
                   then DNull
                   else resolveJSONPointer (default DNull (node !! Z.to_nat i)) tokens'
               end
      | _ => DNull
      end
  end.

Definition jsonScalarAttr (k : string) (value : document) : option Attr :=
  match value with
  | DString s => if decide (s = "") then None else Some (k, StringValue s)
  | DBool b => Some (k, BoolValue b)
  | DNumber t => Some (k, NumberValue t)
  | _ => None
  end.

(** [SelectedJSONFields]; [json_DecodeOne] decodes a body that holds exactly
    one document.  [None]: the empty attribute. *)
Definition SelectedJSONFields `{Unicode} (json_UnmarshalString : string -> option string)
    (json_DecodeOne : string -> option document) (group : string) (fields : gmap string string)
    (body : string) : option Attr :=
  if decide (fields = ∅ \/ body = "") then None
  else
    doc ← json_DecodeOne body;
    let attrs := sort_Strings (map_to_list fields).*1 ≫= fun name =>
      match parseJSONSelector json_UnmarshalString (default "" (fields !! name)) with
      | Some (Ok tokens) =>
          match jsonScalarAttr (FieldKey name) (resolveJSONPointer doc tokens) with
          | Some a => [a]
          | None => []
          end
      | _ => []
      end in
    Some (group, GroupValue attrs).

(** ** Specification *)

(** RFC 6901 escaping, and the pointer of a list of keys. *)
Definition escape1 (c : ascii) : list ascii :=
  if decide (c = tilde) then [tilde; "0"%char] else if decide (c = slash) then [tilde; "1"%char] else [c].
Definition escapeToken (token : string) : string := of_chars (chars token ≫= escape1).
Definition pointerOf (tokens : list string) : string := "/" +:+ Join (escapeToken <$> tokens) "/".

(** Segments that a JSONPath without quotes can name, and their text. *)
Inductive pathStep := Member (name : string) | Element (i : Z).
Definition step_ok (s : pathStep) : Prop :=
  match s with
  | Member n => match chars n with
                | c :: l => jsonPathNameByte c true = true /\ Forall (fun c => jsonPathNameByte c false = true) l
                | [] => False
                end
  | Element i => 0 <= i < 2 ^ 63
  end.
Definition stepText (s : pathStep) : list ascii :=
  match s with
  | Member n => "."%char :: chars n
  | Element i => "["%char :: chars (Itoa i) ++ ["]"%char]
  end.
Definition stepSegment (s : pathStep) : jsonSegment :=
  match s with
  | Member n => {| key := n; index := false; pointer := false |}
  | Element i => {| key := Itoa i; index := true; pointer := false |}
  end.
Definition pathText (steps : list pathStep) : string := of_chars ("$"%char :: (steps ≫= stepText)).

(** ** Lemmas *)

Section pointer.
Lemma replace2_cons a b c x l : x <> a -> replace2 a b c (x :: l) = x :: replace2 a b c l.
Proof. intros Hx. destruct l as [|y l]; simpl; [done|]. by rewrite decide_False by tauto. Qed.

Lemma replace2_hit a b c l : replace2 a b c (a :: b :: l) = c :: replace2 a b c l.
Proof. simpl. by rewrite decide_True. Qed.

Lemma replace2_miss a b c y l :
  y <> b -> replace2 a b c (a :: y :: l) = a :: replace2 a b c (y :: l).
Proof. intros Hy. simpl. by rewrite decide_False by tauto. Qed.

Definition escape0 (c : ascii) : list ascii := if decide (c = tilde) then [tilde; "0"%char] else [c].

Lemma unescape_slash l : replace2 tilde "1" slash (l ≫= escape1) = l ≫= escape0.
Proof.
  induction l as [|c l IH]; [done|]. rewrite !bind_cons. unfold escape1 at 1, escape0 at 1.
  destruct (decide (c = tilde)) as [->|Hc]; [|destruct (decide (c = slash)) as [->|Hs]].
  - cbn [app]. rewrite replace2_miss by done. rewrite replace2_cons by done. by rewrite IH.
  - cbn [app]. rewrite replace2_hit. by rewrite IH.
  - cbn [app]. rewrite replace2_cons by done. by rewrite IH.
Qed.

Lemma unescape_tilde l : replace2 tilde "0" tilde (l ≫= escape0) = l.
Proof.
  induction l as [|c l IH]; [done|]. rewrite bind_cons. unfold escape0 at 1.
  destruct (decide (c = tilde)) as [->|Hc]; cbn [app].
  - rewrite replace2_hit. by rewrite IH.
  - rewrite replace2_cons by done. by rewrite IH.
Qed.

Lemma unescape_escape t : unescapeToken (escapeToken t) = t.
Proof.
  unfold unescapeToken, escapeToken. rewrite chars_of_chars, unescape_slash, unescape_tilde.
  apply of_chars_chars.
Qed.

Lemma escape_no_slash t : slash ∉ chars (escapeToken t).
Proof.
  unfold escapeToken. rewrite chars_of_chars, list_elem_of_bind. intros (c & Hc & _).
  unfold escape1 in Hc. repeat case_decide; set_solver.
Qed.

Lemma validEscapes_escape l k : validEscapes k = true -> validEscapes ((l ≫= escape1) ++ k) = true.
Proof.
  intros Hk. induction l as [|c l IH]; [done|]. rewrite bind_cons, <-app_assoc. unfold escape1 at 1.
  destruct (decide (c = tilde)) as [->|Hc]; [|destruct (decide (c = slash)) as [->|Hs]];
    cbn [app validEscapes].
  - by rewrite decide_True, decide_True by tauto.
  - by rewrite decide_True, decide_True by tauto.
  - by rewrite decide_False.
Qed.

Lemma validEscapes_join tokens : validEscapes (chars (Join (escapeToken <$> tokens) "/")) = true.
Proof.
  induction tokens as [|t ts IH]; [done|].
  assert (forall k, validEscapes k = true -> validEscapes (chars (escapeToken t) ++ k) = true) as Ht.
  { intros k Hk. unfold escapeToken. rewrite chars_of_chars. by apply validEscapes_escape. }
  destruct ts as [|t' ts].
  - simpl Join. rewrite <-(app_nil_r (chars _)). by apply Ht.
  - change (Join (escapeToken <$> t :: t' :: ts) "/") with
      (escapeToken t +:+ "/" +:+ Join (escapeToken <$> t' :: ts) "/").
    rewrite chars_app. apply Ht. rewrite chars_app. exact IH.
Qed.

(** Every list of keys has a JSON pointer that parses to it: escaping and
    unescaping of tilde and slash are inverse, whatever the keys contain.  What
    does not start with a slash or has a stray tilde is an error. *)
Theorem ParseJSONPointer_roundtrip tokens pointer :
  tokens <> [] ->
  ParseJSONPointer (pointerOf tokens) = Ok tokens /\
  (HasPrefix pointer "/" = false \/ validEscapes (chars pointer) = false <->
   is_ok (ParseJSONPointer pointer) = false).
Proof.
  intros Ht. split.
  - unfold ParseJSONPointer, pointerOf.
    rewrite (proj2 (HasPrefix_spec _ _)) by by eexists. cbn [negb].
    rewrite chars_app. change (chars "/" ++ ?l)%list with (slash :: l). cbn [validEscapes].
    rewrite decide_False by done. rewrite validEscapes_join. cbn [negb drop]. rewrite drop_0.
    rewrite of_chars_chars. f_equal.
    rewrite Split_Join.
    + rewrite <-list_fmap_compose. rewrite <-(list_fmap_id tokens) at 2.
      apply list_fmap_ext. intros ? t _. apply unescape_escape.
    + apply Forall_fmap, Forall_forall. intros t _. apply escape_no_slash.
    + by destruct tokens.
  - unfold ParseJSONPointer. destruct (HasPrefix pointer "/"), (validEscapes (chars pointer)); simpl;
      intuition.
Qed.
End pointer.

Section path_lemmas.
Context (unq : string -> option string).

Lemma trimLeft_length l : (length (trimLeft l) <= length l)%nat.
Proof. induction l as [|c l IH]; simpl; [done|]. case_decide; simpl; lia. Qed.

Lemma memberName_app first l : (memberName first l).1 ++ (memberName first l).2 = l.
Proof.
  revert first. induction l as [|c l IH]; intros first; simpl; [done|].
  destruct (jsonPathNameByte c first); [|done]. specialize (IH false).
  destruct (memberName false l) as [n r]. simpl in *. by rewrite IH.
Qed.

Lemma quotedMember_length q l n r : quotedMember q l = Some (n, r) -> (length r < length l)%nat.
Proof.
  revert n r. induction l as [l IH] using length_ind. intros n r. destruct l as [|c l]; simpl; [done|].
  case_decide; [by intros [= <- <-]; lia|]. case_decide.
  - destruct l as [|d l]; [done|]. intros ([n' r'] & Hq & [= <- <-])%bind_Some.
    apply IH in Hq; simpl; lia.
  - intros ([n' r'] & Hq & [= <- <-])%bind_Some. apply IH in Hq; simpl; lia.
Qed.

Lemma segment_shorter input s rest :
  parseJSONPathSegment unq input = Ok (s, rest) -> (length rest < length input)%nat.
Proof.
  destruct input as [|c input]; [done|]. unfold parseJSONPathSegment.
  destruct (decide (c = "."%char)).
  { pose proof (memberName_app true input) as Happ.
    destruct (memberName true input) as [[|x nm] r]; [done|]. intros [= <- <-]. simpl in Happ.
    rewrite <-Happ. simpl. rewrite length_app. lia. }
  destruct (decide (c = "["%char)); [|done].
  assert (forall l s r, parseJSONPathIndex l = Ok (s, r) -> (length r <= length l)%nat) as Hidx.
  { intros l s' r. unfold parseJSONPathIndex.
    destruct (sep_case "]"%char l) as [Hl|(l1 & l2 & -> & Hl)]; [by rewrite cut_go_none|].
    rewrite cut_go_app by done. destruct (Atoi _); [|done]. destruct (_ || _); [done|].
    intros [= _ <-]. rewrite chars_of_chars, length_app. simpl. lia. }
  pose proof (trimLeft_length input) as Ht.
  destruct (trimLeft input) as [|q r] eqn:E.
  { intros H%Hidx. simpl in *. lia. }
  destruct (decide (q = "'"%char \/ q = dquote)).
  - destruct (quotedMember q r) as [[nm r']|] eqn:Eq; [|done]. apply quotedMember_length in Eq.
    unfold finishJSONPathMember. destruct (unq _); [|done].
    pose proof (trimLeft_length r') as Ht'. destruct (trimLeft r') as [|x r'']; [done|].
    case_decide; [|done]. intros [= _ <-]. simpl in *. lia.
  - intros H%Hidx. simpl in *. lia.
Qed.

Lemma parse_fuel fuel l : (length l <= fuel)%nat -> exists r, parseSegments unq fuel l = Some r.
Proof.
  revert l. induction fuel as [|fuel IH]; intros l Hl.
  { destruct l; simpl in *; [by eexists|lia]. }
  destruct l as [|c l]; [by eexists|].
  cbn [parseSegments]. destruct (parseJSONPathSegment unq (c :: l)) as [[s rest]|e] eqn:E; [|by eexists].
  apply segment_shorter in E. destruct (IH rest) as [r Hr]; [simpl in *; lia|].
  rewrite Hr. by eexists.
Qed.

(** A name is read up to the first byte that is not one of a name. *)
Lemma memberName_all first l k :
  (match l with c :: l' => jsonPathNameByte c first = true /\
                           Forall (fun c => jsonPathNameByte c false = true) l' | [] => True end) ->
  (match k with c :: _ => jsonPathNameByte c (if l then first else false) = false | [] => True end) ->
  memberName first (l ++ k) = (l, k).
Proof.
  revert first. induction l as [|c l IH]; intros first Hl Hk; simpl.
  - destruct k as [|d k]; [done|]. simpl. by rewrite Hk.
  - destruct Hl as [Hc Hl]. rewrite Hc. rewrite IH; [done| |].
    + destruct l as [|d l]; [done|]. by apply Forall_cons_1 in Hl.
    + by destruct l, k.
Qed.

Lemma segment_step s steps :
  step_ok s ->
  parseJSONPathSegment unq (stepText s ++ (steps ≫= stepText)) =
    Ok (stepSegment s, steps ≫= stepText).
Proof.
  intros Hs. destruct s as [n|i]; simpl stepText.
  - cbn [app parseJSONPathSegment]. rewrite decide_True by done.
    rewrite memberName_all.
    + unfold step_ok in Hs. destruct (chars n) eqn:E; [done|]. by rewrite <-E, of_chars_chars.
    + unfold step_ok in Hs. by destruct (chars n).
    + destruct steps as [|[m|j] steps]; [done| |]; rewrite bind_cons; simpl; by destruct (chars n).
  - cbn [app parseJSONPathSegment]. rewrite decide_False by done. rewrite decide_True by done.
    destruct (Itoa_digits i) as [Hd Hne]; [simpl in Hs; lia|].
    rewrite <-app_assoc. cbn [app].
    assert (exists c l, (chars (Itoa i) ++ "]"%char :: (steps ≫= stepText))%list = c :: l /\ is_digit c)
      as (c & l & E & Hc).
    { destruct (chars (Itoa i)) as [|c l]; [done|]. apply Forall_cons_1 in Hd as [Hc _].
      by eexists _, _. }
    rewrite E. unfold is_digit in Hc. cbn [trimLeft].
    rewrite decide_False by (rewrite !elem_of_cons, elem_of_nil; lia).
    rewrite decide_False by (intros [->| ->]; vm_compute in Hc; naive_solver).
    unfold parseJSONPathIndex. rewrite <-E.
    rewrite cut_go_app.
    2: { intros Hin. rewrite Forall_forall in Hd. specialize (Hd _ Hin).
         vm_compute in Hd. naive_solver. }
    rewrite reverse_nil. cbn [app]. rewrite of_chars_chars, chars_of_chars.
    rewrite TrimSpace_plain by (apply Itoa_plain; simpl in Hs; lia).
    rewrite Atoi_Itoa by done. rewrite (proj2 (Z.ltb_ge _ _)) by (simpl in Hs; lia).
    by rewrite bool_decide_true.
Qed.

Lemma parse_steps steps fuel :
  Forall step_ok steps -> (length (steps ≫= stepText) <= fuel)%nat ->
  parseSegments unq fuel (steps ≫= stepText) = Some (Ok (stepSegment <$> steps)).
Proof.
  revert fuel. induction steps as [|s steps IH]; intros fuel Hsteps Hf; [by destruct fuel|].
  apply Forall_cons_1 in Hsteps as [Hs Hsteps]. rewrite bind_cons in *.
  destruct (stepText s ++ (steps ≫= stepText))%list as [|c l] eqn:E; [by destruct s|].
  pose proof (f_equal length E) as El. rewrite length_app in El.
  assert (1 <= length (stepText s))%nat by (destruct s; simpl; lia).
  destruct fuel as [|fuel]; [simpl in Hf; lia|].
  cbn [parseSegments]. rewrite <-E, segment_step by done. rewrite IH; [done|done|].
  simpl in *. lia.
Qed.

(** Parsing a selector always ends with segments or an error.  A JSONPath
    of named members and array elements parses to exactly those segments, and
    a pointer to its keys as pointer segments. *)
Theorem parseJSONSelector_spec selector steps tokens :
  Forall step_ok steps -> steps <> [] -> tokens <> [] ->
  (exists r, parseJSONSelector unq selector = Some r) /\
  parseJSONSelector unq (pathText steps) = Some (Ok (stepSegment <$> steps)) /\
  (forall p, ParseJSONPointer p = Ok tokens ->
     parseJSONSelector unq p =
       Some (Ok ((fun t => {| key := t; index := false; pointer := true |}) <$> tokens))).
Proof.
  intros Hsteps Hne Htok. split_and!.
  - unfold parseJSONSelector. destruct (HasPrefix selector "/"); [by eexists|].
    destruct (negb _ || _); [by eexists|]. apply parse_fuel.
    rewrite length_drop, length_chars. lia.
  - unfold parseJSONSelector, pathText.
    assert (HasPrefix (of_chars ("$"%char :: (steps ≫= stepText))) "/" = false) as -> by done.
    assert (HasPrefix (of_chars ("$"%char :: (steps ≫= stepText))) "$" = true) as ->.
    { apply HasPrefix_spec. by exists (of_chars (steps ≫= stepText)). }
    assert (len (of_chars ("$"%char :: (steps ≫= stepText))) =? 1 = false) as ->.
    { apply Z.eqb_neq. unfold len. rewrite <-length_chars, chars_of_chars.
      destruct steps as [|[n|i] steps]; [done|..]; simpl; lia. }
    cbn [negb orb]. rewrite chars_of_chars. cbn [drop]. rewrite drop_0.
    rewrite <-length_chars, chars_of_chars. apply parse_steps; [done|simpl; lia].
  - intros p Hp. unfold parseJSONSelector. rewrite Hp.
    unfold ParseJSONPointer in Hp. by destruct (HasPrefix p "/").
Qed.
End path_lemmas.

Lemma ParseJSONPointer_roundtrip_witness :
  ParseJSONPointer "/a~1b/~0" = Ok ["a/b"; "~"].
Proof.
  assert (pointerOf ["a/b"; "~"] = "/a~1b/~0") as <- by reflexivity.
  apply (ParseJSONPointer_roundtrip ["a/b"; "~"] ""). discriminate.
Defined.

Lemma parseJSONSelector_spec_witness :
  parseJSONSelector (fun _ => None) "$.items[10]" =
    Some (Ok [{| key := "items"; index := false; pointer := false |};
              {| key := "10"; index := true; pointer := false |}]).
Proof.
  destruct (parseJSONSelector_spec (fun _ => None) "" [Member "items"; Element 10] ["a"])
    as (_ & H & _).
  - constructor; [split; [reflexivity|repeat constructor]|constructor; [simpl; lia|constructor]].
  - discriminate.
  - discriminate.
  - exact H.
Defined.
End logging.
