(* ===== verification/Protobuf.v ===== *)
(** * [internal/logging/protobuf_fields.go]: selected scalars of a protobuf
    message

    The wire decoder the file calls ([protowire], vendored with the
    repository) is transcribed for the field kinds the file lets through:
    groups are rejected before a group value would be read.  Loops over a
    message run on its length as fuel; every field has a byte, so it is enough
    ([validWire_fuel]). *)
From S2P Require Export Logging.

Module protobuf.
Import logging.

(** ** [protowire] *)

Definition VarintType : Z := 0.
Definition Fixed64Type : Z := 1.
Definition BytesType : Z := 2.
Definition StartGroupType : Z := 3.
Definition EndGroupType : Z := 4.
Definition Fixed32Type : Z := 5.
Definition MinValidNumber : Z := 1.
Definition MaxValidNumber : Z := 2 ^ 29 - 1.

(** Byte [k] of a varint, with the value of the bytes before it. *)
Fixpoint varint_go (k : nat) (v : Z) (b : list ascii) : option (Z * nat) :=
  match b with
  | [] => None
  | c :: b' =>
      let y := code c in
      if decide (k = 9%nat)
      then if y <? 2 then Some (u64 (v + Z.shiftl y 63), 10%nat) else None
      else
        let s := 7 * Z.of_nat k in
        let v := u64 (v + Z.shiftl y s) in
        if y <? 0x80 then Some (v, S k) else varint_go (S k) (u64 (v - Z.shiftl 0x80 s)) b'
  end.
Definition ConsumeVarint (b : list ascii) : option (Z * nat) := varint_go 0 0 b.

Definition DecodeTag (x : Z) : Z * Z :=
  if 2 ^ 31 - 1 <? Z.shiftr x 3 then (-1, 0) else (Z.shiftr x 3, Z.land x 7).
Definition ConsumeTag (b : list ascii) : option (Z * Z * nat) :=
  '(v, n) ← ConsumeVarint b;
  let '(num, typ) := DecodeTag v in
  if num <? MinValidNumber then None else Some (num, typ, n).
Definition Number_IsValid (n : Z) : bool := (MinValidNumber <=? n) && (n <=? MaxValidNumber).

Definition ConsumeBytes (b : list ascii) : option (list ascii * nat) :=
  '(m, n) ← ConsumeVarint b;
  if Z.of_nat (length (drop n b)) <? m then None
  else Some (take (Z.to_nat m) (drop n b), (n + Z.to_nat m)%nat).

(** Length of a field value; groups never reach it. *)
Definition ConsumeFieldValue (typ : Z) (b : list ascii) : option nat :=
  if typ =? VarintType then snd <$> ConsumeVarint b
  else if typ =? Fixed32Type then if decide (length b < 4)%nat then None else Some 4%nat
  else if typ =? Fixed64Type then if decide (length b < 8)%nat then None else Some 8%nat
  else if typ =? BytesType then snd <$> ConsumeBytes b
  else None.

Definition DecodeZigZag (x : Z) : Z :=
  Z.lxor (i64 (Z.shiftr x 1)) (Z.shiftr (i64 (Z.shiftl (i64 x) 63)) 63).

(** ** Selectors *)

Definition protobufInt64 : string := "int64".
Definition protobufUint64 : string := "uint64".
Definition protobufSint64 : string := "sint64".
Definition protobufString : string := "string".
Definition protobufBool : string := "bool".
Definition maxProtobufMessage : Z := 64 * 1024.
Definition maxSelectedValue : Z := 4096.
Definition maxSelectedTotal : Z := 16 * 1024.

Record ProtobufField := { f_Name : string; f_Path : list Z; f_Type : string }.

Definition aliasRune (r : Z) : bool :=
  ((97 <=? r) && (r <=? 122)) || ((65 <=? r) && (r <=? 90)) || ((48 <=? r) && (r <=? 57)) ||
  (r =? 95) || (r =? 45) || (r =? 46).
Definition ValidFieldAlias (s : string) : bool :=
  if (len s =? 0) || (64 <? len s) then false else forallb aliasRune (runes s).

Fixpoint validateFields `{Unicode} (seen : list string) (fields : list ProtobufField) : option error :=
  match fields with
  | [] => None
  | f :: fields' =>
      let key := FieldKey (f_Name f) in
      if negb (ValidFieldAlias (f_Name f)) || bool_decide (key ∈ seen)
      then Some (errors_New ("invalid or duplicate protobuf alias " +:+ Quote (f_Name f)))
      else if decide (f_Path f = []) then
        Some (errors_New "protobuf path must contain 1 to 8 field numbers")
      else if 8 <? Z.of_nat (length (f_Path f)) then
        Some (errors_New "protobuf path must contain 1 to 8 field numbers")
      else match List.find (fun n => (n <? 1) || (MaxValidNumber <? n)) (f_Path f) with
           | Some n => Some (errors_New ("invalid protobuf field number " +:+ Itoa n))
           | None =>
               if decide (f_Type f ∈ [protobufString; protobufBool; protobufInt64; protobufUint64;
                                      protobufSint64])
               then validateFields (key :: seen) fields'
               else Some (errors_New ("unsupported protobuf scalar type " +:+ Quote (f_Type f)))
           end
  end.
Definition ValidateProtobufFields `{Unicode} (fields : list ProtobufField) : option error :=
  if 32 <? Z.of_nat (length fields) then Some (errors_New "at most 32 protobuf fields are allowed")
  else validateFields [] fields.

(** ** Extraction *)

Fixpoint validWire (fuel : nat) (b : list ascii) : option bool :=
  match b, fuel with
  | [], _ => Some true
  | _, O => None
  | _, S fuel' =>
      match ConsumeTag b with
      | None => Some false
      | Some (num, typ, n) =>
          if negb (Number_IsValid num) || (typ =? StartGroupType) || (typ =? EndGroupType)
          then Some false
          else
            let b := drop n b in
            match ConsumeFieldValue typ b with
            | None => Some false
            | Some n => validWire fuel' (drop n b)
            end
      end
  end.
Definition validWireMessage (b : list ascii) : option bool := validWire (length b) b.

(** The scan for the single occurrence of field [number]: [None] is a panic or
    out of fuel, [Some None] a repeated field. *)
Fixpoint scanFields (fuel : nat) (number : Z) (b : list ascii) (found : option (list ascii * Z))
    : option (option (option (list ascii * Z))) :=
  match b, fuel with
  | [], _ => Some (Some found)
  | _, O => None
  | _, S fuel' =>
      '(num, typ, n) ← ConsumeTag b;
      let b := drop n b in
      n ← ConsumeFieldValue typ b;
      if num =? number then
        match found with
        | Some _ => Some None
        | None => scanFields fuel' number (drop n b) (Some (take n b, typ))
        end
      else scanFields fuel' number (drop n b) found
  end.

Definition protobufScalar (b : list ascii) (typ : Z) (kind : string) : option Value :=
  if decide (kind = protobufString) then
    if negb (typ =? BytesType) then None
    else
      let value := of_chars (default [] (fst <$> ConsumeBytes b)) in
      if (len value =? 0) || (maxSelectedValue <? len value) || negb (utf8_ValidString value)
      then None else Some (StringValue value)
  else if negb (typ =? VarintType) then None
  else
    let value := default 0 (fst <$> ConsumeVarint b) in
    if decide (kind = protobufBool) then Some (BoolValue (negb (value =? 0)))
    else if decide (kind = protobufInt64) then Some (Int64Value (i64 value))
    else if decide (kind = protobufUint64) then Some (Uint64Value value)
    else if decide (kind = protobufSint64) then Some (Int64Value (DecodeZigZag value))
    else None.

(** [protobufValue]: the outer option is [None] on a panic ([path[0]] of an
    empty path), the inner one is [ok = false]. *)
Fixpoint protobufValue (b : list ascii) (path : list Z) (kind : string) : option (option Value) :=
  match path with
  | [] => None
  | number :: path' =>
      valid ← validWireMessage b;
      if negb valid then Some None
      else
        scanned ← scanFields (length b) number b None;
        match scanned with
        | Some (Some (selected, selectedType)) =>
            match path' with
            | [] => Some (protobufScalar selected selectedType kind)
            | _ =>
                if negb (selectedType =? BytesType) then Some None
                else protobufValue (default [] (fst <$> ConsumeBytes selected)) path' kind
            end
        | _ => Some None
        end
  end.

(** [slog.Value.String] of a scalar. *)
Definition valueString (v : Value) : string :=
  match v with
  | StringValue s | NumberValue s => s
  | BoolValue b => if b then "true" else "false"
  | Int64Value n | Uint64Value n => Itoa n
  | StringsValue _ | GroupValue _ => ""
  end.

(** ** [ProtobufCapture] *)

Record ProtobufCapture := {
  pb_group : string;
  pb_fields : list ProtobufField;
  pb_seen : bool;
  pb_attrs : list Attr;
  pb_status : string
}.

Definition NewProtobufCapture (group : string) (fields : list ProtobufField)
    : option ProtobufCapture :=
  match fields with
  | [] => None
  | _ => Some {| pb_group := group; pb_fields := fields; pb_seen := false; pb_attrs := [];
                 pb_status := "not_seen" |}
  end.

Section capture.
Context `{Unicode}.

(** The loop over the fields: [None] is a panic. *)
Fixpoint captureFields (payload : list ascii) (fields : list ProtobufField) (total : Z)
    : option (list Attr) :=
  match fields with
  | [] => Some []
  | f :: fields' =>
      v ← protobufValue payload (f_Path f) (f_Type f);
      match v with
      | None => captureFields payload fields' total
      | Some value =>
          let size := len (valueString value) in
          if maxSelectedTotal <? total + size then captureFields payload fields' total
          else
            attrs ← captureFields payload fields' (total + size);
            Some ((FieldKey (f_Name f), value) :: attrs)
      end
  end.

Definition with_status (c : ProtobufCapture) (attrs : list Attr) (status : string)
    : ProtobufCapture :=
  {| pb_group := pb_group c; pb_fields := pb_fields c; pb_seen := true; pb_attrs := attrs;
     pb_status := status |}.

Definition Observe (c : option ProtobufCapture) (payload : string) : option (option ProtobufCapture) :=
  match c with
  | None => Some None
  | Some c =>
      if pb_seen c then Some (Some c)
      else if maxProtobufMessage <? len payload
      then Some (Some (with_status c (pb_attrs c) "message_too_large"))
      else
        valid ← validWireMessage (chars payload);
        if negb valid then Some (Some (with_status c (pb_attrs c) "malformed"))
        else
          captured ← captureFields (chars payload) (pb_fields c) 0;
          let attrs := (pb_attrs c ++ captured)%list in
          Some (Some (with_status c attrs
            (if decide (attrs = []) then "no_fields" else "captured")))
  end.
End capture.

Definition Attributes (c : option ProtobufCapture) : list Attr :=
  match c with
  | None => []
  | Some c => [(pb_group c, GroupValue (copy_slice (pb_attrs c)));
               (pb_group c +:+ "_status", StringValue (pb_status c))]
  end.

(** ** Specification: well-formed messages *)

Inductive wireValue :=
  | WVarint (v : Z)
  | WFixed64 (l : list ascii)
  | WBytes (l : list ascii)
  | WFixed32 (l : list ascii).
Definition typeOf (v : wireValue) : Z :=
  match v with
  | WVarint _ => VarintType | WFixed64 _ => Fixed64Type | WBytes _ => BytesType
  | WFixed32 _ => Fixed32Type
  end.

(** The shortest varint of a 64-bit value; the fuel bounds its bytes. *)
Fixpoint varint_bytes (fuel : nat) (v : Z) : list ascii :=
  match fuel with
  | O => []
  | S fuel' => if v <? 128 then [chr v] else chr (v mod 128 + 128) :: varint_bytes fuel' (v / 128)
  end.
Definition varint (v : Z) : list ascii := varint_bytes 10 v.

Definition encodeValue (v : wireValue) : list ascii :=
  match v with
  | WVarint v => varint v
  | WFixed64 l | WFixed32 l => l
  | WBytes l => (varint (Z.of_nat (length l)) ++ l)%list
  end.
Definition encodeField (f : Z * wireValue) : list ascii :=
  (varint (f.1 * 8 + typeOf f.2) ++ encodeValue f.2)%list.
Definition encode (msg : list (Z * wireValue)) : list ascii := msg ≫= encodeField.

Definition field_ok (f : Z * wireValue) : Prop :=
  1 <= f.1 <= MaxValidNumber /\
  match f.2 with
  | WVarint v => 0 <= v < 2 ^ 64
  | WFixed64 l => length l = 8%nat
  | WBytes l => Z.of_nat (length l) < 2 ^ 63
  | WFixed32 l => length l = 4%nat
  end.

(** The value of a field as the selected scalar kind. *)
Definition scalarOf (v : wireValue) (kind : string) : option Value :=
  match v with
  | WBytes l =>
      let s := of_chars l in
      if decide (kind = protobufString /\ s <> "" /\ len s <= maxSelectedValue /\
                 utf8_ValidString s = true) then Some (StringValue s) else None
  | WVarint v =>
      if decide (kind = protobufBool) then Some (BoolValue (negb (v =? 0)))
      else if decide (kind = protobufInt64) then Some (Int64Value (i64 v))
      else if decide (kind = protobufUint64) then Some (Uint64Value v)
      else if decide (kind = protobufSint64) then Some (Int64Value (DecodeZigZag v))
      else None
  | _ => None
  end.

(** ** Lemmas *)

Section consume.
Lemma varint_go_bounds k v b r n :
  varint_go k v b = Some (r, n) -> (k < n <= k + length b)%nat.
Proof.
  revert k v. induction b as [|c b IH]; intros k v; simpl; [done|].
  case_decide as Hk; [case_match; [|done]; intros [= _ <-]; lia|].
  case_match; [intros [= _ <-]; lia|]. intros Hr%IH. lia.
Qed.

Lemma ConsumeVarint_bounds b v n : ConsumeVarint b = Some (v, n) -> (0 < n <= length b)%nat.
Proof. apply varint_go_bounds. Qed.

Lemma ConsumeTag_bounds b num typ n : ConsumeTag b = Some (num, typ, n) -> (0 < n <= length b)%nat.
Proof.
  unfold ConsumeTag. intros ([v m] & Hv%ConsumeVarint_bounds & H)%bind_Some.
  destruct (DecodeTag v). case_match; [done|]. by injection H as _ _ <-.
Qed.

Lemma validWire_fuel fuel b : (length b <= fuel)%nat -> exists r, validWire fuel b = Some r.
Proof.
  revert b. induction fuel as [|fuel IH]; intros b Hb.
  { destruct b; simpl in *; [by eexists|lia]. }
  destruct b as [|c b]; [by eexists|]. cbn [validWire].
  destruct (ConsumeTag (c :: b)) as [[[num typ] n]|] eqn:E; [|by eexists].
  apply ConsumeTag_bounds in E. destruct (_ || _ || _); [by eexists|].
  destruct (ConsumeFieldValue _ _) as [m|]; [|by eexists].
  apply IH. rewrite !length_drop. simpl in *. lia.
Qed.

Lemma validWire_scan fuel b number found :
  validWire fuel b = Some true -> exists r, scanFields fuel number b found = Some r.
Proof.
  revert b found. induction fuel as [|fuel IH]; intros b found.
  { destruct b; [by eexists|done]. }
  destruct b as [|c b]; [by eexists|]. cbn [validWire scanFields].
  destruct (ConsumeTag (c :: b)) as [[[num typ] n]|]; [|done].
  destruct (_ || _ || _); [done|]. cbn [mbind option_bind].
  destruct (ConsumeFieldValue _ _) as [m|]; [|done]. cbn [mbind option_bind]. intros H.
  destruct (num =? number); [destruct found as [x|]; [by eexists|]|]; by apply IH.
Qed.

Lemma protobufValue_total b path kind :
  path <> [] -> exists r, protobufValue b path kind = Some r.
Proof.
  revert b. induction path as [|number path IH]; intros b; [done|]. intros _.
  cbn [protobufValue]. unfold validWireMessage.
  destruct (validWire_fuel (length b) b) as [r Hr]; [done|]. rewrite Hr. cbn [mbind option_bind].
  destruct r; cbn [negb]; [|by eexists].
  destruct (validWire_scan _ _ number None Hr) as [r' ->]. cbn [mbind option_bind].
  destruct r' as [[[selected typ]|]|]; [|by eexists..].
  destruct path as [|p path]; [by eexists|].
  destruct (negb _); [by eexists|]. by apply IH.
Qed.
End consume.

Section encode.
Lemma varint_go_bytes j k v acc rest :
  (j + k = 10)%nat -> (0 < j)%nat -> 0 <= acc < 2 ^ (7 * Z.of_nat k) ->
  0 <= v < 2 ^ (64 - 7 * Z.of_nat k) ->
  varint_go k acc (varint_bytes j v ++ rest) =
    Some (acc + v * 2 ^ (7 * Z.of_nat k), (k + length (varint_bytes j v))%nat).
Proof.
  revert k v acc. induction j as [|j IH]; intros k v acc Hjk Hj Hacc Hv; [lia|].
  assert (2 ^ 64 = 2 ^ (64 - 7 * Z.of_nat k) * 2 ^ (7 * Z.of_nat k)) as Hsplit.
  { rewrite <-Z.pow_add_r by lia. f_equal. lia. }
  assert (0 < 2 ^ (7 * Z.of_nat k)) as Hpos by (apply Z.pow_pos_nonneg; lia).
  cbn [varint_bytes].
  destruct (Z.ltb_spec v 128) as [Hs|Hb].
  - cbn [app varint_go length]. rewrite code_chr by lia.
    destruct (decide (k = 9%nat)) as [->|Hk].
    + assert (v < 2) by (simpl in Hv; lia). rewrite (proj2 (Z.ltb_lt _ _)) by done.
      rewrite Z.shiftl_mul_pow2 by lia. rewrite u64_small; [done|]. simpl in *. lia.
    + rewrite Z.shiftl_mul_pow2 by lia. rewrite (proj2 (Z.ltb_lt _ _)) by done.
      rewrite u64_small by nia. f_equal. f_equal. lia.
  - destruct (decide (k = 9%nat)) as [->|Hk]; [simpl in Hv; lia|].
    assert (1 <= j)%nat by lia.
    cbn [app varint_go length]. rewrite decide_False by done.
    pose proof (Z.mod_pos_bound v 128). rewrite code_chr by lia.
    rewrite (proj2 (Z.ltb_ge _ _)) by lia.
    rewrite !Z.shiftl_mul_pow2 by lia.
    assert (2 ^ (7 * Z.of_nat (S k)) = 128 * 2 ^ (7 * Z.of_nat k)) as Hp.
    { replace (7 * Z.of_nat (S k)) with (7 + 7 * Z.of_nat k) by lia. by rewrite Z.pow_add_r by lia. }
    assert (2 ^ (64 - 7 * Z.of_nat k) = 128 * 2 ^ (64 - 7 * Z.of_nat (S k))) as Hq.
    { replace (64 - 7 * Z.of_nat k) with (7 + (64 - 7 * Z.of_nat (S k))) by lia.
      by rewrite Z.pow_add_r by lia. }
    pose proof (Z.div_mod v 128 ltac:(lia)) as Hdm.
    assert (2 ^ (7 * Z.of_nat k) <= 2 ^ 56) by (apply Z.pow_le_mono_r; lia).
    assert (2 ^ 56 * 256 = 2 ^ 64) by done.
    rewrite (u64_small (acc + _)) by nia.
    rewrite u64_small by nia.
    rewrite IH; [|lia|lia|nia|].
    + f_equal. f_equal; [rewrite Hp; nia|]. lia.
    + split; [apply Z.div_pos; lia|]. apply Z.div_lt_upper_bound; lia.
Qed.

Lemma ConsumeVarint_varint v rest :
  0 <= v < 2 ^ 64 -> ConsumeVarint (varint v ++ rest) = Some (v, length (varint v)).
Proof.
  intros Hv. unfold ConsumeVarint, varint. rewrite varint_go_bytes; [|lia|lia|simpl; lia|done].
  simpl Z.of_nat. rewrite Z.mul_0_r, Z.pow_0_r. do 2 f_equal. lia.
Qed.

Lemma typeOf_range v : 0 <= typeOf v < 8 /\ typeOf v <> StartGroupType /\ typeOf v <> EndGroupType.
Proof. destruct v; simpl; unfold VarintType, Fixed64Type, BytesType, Fixed32Type,
  StartGroupType, EndGroupType; lia. Qed.

Lemma ConsumeTag_encode num v rest :
  1 <= num <= MaxValidNumber ->
  ConsumeTag (varint (num * 8 + typeOf v) ++ rest) =
    Some (num, typeOf v, length (varint (num * 8 + typeOf v))).
Proof.
  unfold MaxValidNumber. intros Hn. pose proof (typeOf_range v) as (Ht & _).
  unfold ConsumeTag. rewrite ConsumeVarint_varint by lia. cbn [mbind option_bind].
  assert (Z.shiftr (num * 8 + typeOf v) 3 = num) as E1.
  { rewrite Z.shiftr_div_pow2 by lia. change (2 ^ 3) with 8.
    Z.to_euclidean_division_equations. lia. }
  assert (Z.land (num * 8 + typeOf v) 7 = typeOf v) as E2.
  { change 7 with (Z.ones 3). rewrite Z.land_ones by lia. change (2 ^ 3) with 8.
    Z.to_euclidean_division_equations. lia. }
  unfold DecodeTag. rewrite E1, E2. rewrite (proj2 (Z.ltb_ge _ _)) by lia.
  unfold MinValidNumber. rewrite (proj2 (Z.ltb_ge _ _)) by lia. done.
Qed.

Lemma ConsumeBytes_encode l rest :
  Z.of_nat (length l) < 2 ^ 63 ->
  ConsumeBytes (encodeValue (WBytes l) ++ rest) =
    Some (l, length (encodeValue (WBytes l))).
Proof.
  intros Hl. unfold ConsumeBytes. simpl encodeValue. rewrite <-app_assoc.
  rewrite ConsumeVarint_varint by lia. cbn [mbind option_bind].
  rewrite drop_app_length, length_app, (proj2 (Z.ltb_ge _ _)) by lia.
  rewrite Nat2Z.id, take_app_length, length_app. done.
Qed.

Lemma ConsumeFieldValue_encode num v rest :
  field_ok (num, v) ->
  ConsumeFieldValue (typeOf v) (encodeValue v ++ rest) = Some (length (encodeValue v)).
Proof.
  intros [_ Hv]. simpl in Hv. unfold ConsumeFieldValue. destruct v as [v|l|l|l].
  - change (typeOf (WVarint v) =? VarintType) with true. cbv iota. simpl encodeValue.
    by rewrite ConsumeVarint_varint.
  - simpl. rewrite decide_False by (rewrite length_app; lia). by rewrite Hv.
  - change (ConsumeFieldValue BytesType) with (fun b => snd <$> ConsumeBytes b).
    change (typeOf (WBytes l)) with BytesType. simpl (BytesType =? _).
    cbv iota. by rewrite ConsumeBytes_encode.
  - simpl. rewrite decide_False by (rewrite length_app; lia). by rewrite Hv.
Qed.

Lemma varint_nonempty v : (0 < length (varint v))%nat.
Proof. unfold varint. simpl. destruct (v <? 128); simpl; lia. Qed.

Lemma encode_cons num v msg :
  encode ((num, v) :: msg) =
    (varint (num * 8 + typeOf v) ++ encodeValue v ++ encode msg)%list.
Proof. unfold encode. rewrite bind_cons. unfold encodeField. simpl. by rewrite <-app_assoc. Qed.

Lemma validWire_encode msg fuel :
  Forall field_ok msg -> (length (encode msg) <= fuel)%nat -> validWire fuel (encode msg) = Some true.
Proof.
  revert fuel. induction msg as [|[num v] msg IH]; intros fuel Hok Hf; [by destruct fuel|].
  apply Forall_cons_1 in Hok as [Hok Hmsg]. rewrite encode_cons in *.
  pose proof (varint_nonempty (num * 8 + typeOf v)) as Hne. rewrite !length_app in Hf.
  destruct fuel as [|fuel]; [lia|].
  assert (forall l, (0 < length l)%nat -> validWire (S fuel) l =
    match ConsumeTag l with
    | None => Some false
    | Some (num, typ, n) =>
        if negb (Number_IsValid num) || (typ =? StartGroupType) || (typ =? EndGroupType)
        then Some false
        else match ConsumeFieldValue typ (drop n l) with
             | None => Some false
             | Some m => validWire fuel (drop m (drop n l))
             end
    end) as Hunf by (intros [|]; simpl; [lia|done]).
  rewrite Hunf by (rewrite length_app; lia). destruct Hok as [Hn Hv]. simpl in Hn.
  rewrite ConsumeTag_encode by done. rewrite drop_app_length.
  pose proof (typeOf_range v) as (_ & H1 & H2).
  unfold Number_IsValid, MinValidNumber.
  rewrite (proj2 (Z.leb_le 1 num)), (proj2 (Z.leb_le num MaxValidNumber)) by lia.
  rewrite (proj2 (Z.eqb_neq _ _) H1), (proj2 (Z.eqb_neq _ _) H2). cbn [negb andb orb].
  rewrite (ConsumeFieldValue_encode num) by (split; [done|done]).
  rewrite drop_app_length. apply IH; [done|lia].
Qed.

(** The fields of a message with a number. *)
Definition occurrences (number : Z) (msg : list (Z * wireValue)) : list wireValue :=
  snd <$> filter (fun f => f.1 = number) msg.

Lemma scanFields_encode number msg fuel found :
  Forall field_ok msg -> (length (encode msg) <= fuel)%nat ->
  scanFields fuel number (encode msg) found =
    Some (match occurrences number msg, found with
          | [], _ => Some found
          | [v], None => Some (Some (encodeValue v, typeOf v))
          | _, _ => None
          end).
Proof.
  revert fuel found. induction msg as [|[num v] msg IH]; intros fuel found Hok Hf; [by destruct fuel|].
  apply Forall_cons_1 in Hok as [Hok Hmsg]. rewrite encode_cons in *.
  pose proof (varint_nonempty (num * 8 + typeOf v)) as Hne. rewrite !length_app in Hf.
  destruct fuel as [|fuel]; [lia|].
  assert (forall l, (0 < length l)%nat -> scanFields (S fuel) number l found =
    '(num, typ, n) ← ConsumeTag l;
    m ← ConsumeFieldValue typ (drop n l);
    if num =? number then
      match found with
      | Some _ => Some None
      | None => scanFields fuel number (drop m (drop n l)) (Some (take m (drop n l), typ))
      end
    else scanFields fuel number (drop m (drop n l)) found) as Hunf
    by (intros [|]; simpl; [lia|done]).
  rewrite Hunf by (rewrite length_app; lia). rewrite ConsumeTag_encode by apply Hok.
  cbn [mbind option_bind]. rewrite drop_app_length.
  rewrite (ConsumeFieldValue_encode num) by done. cbn [mbind option_bind].
  rewrite drop_app_length, take_app_length. unfold occurrences. rewrite filter_cons. simpl.
  destruct (Z.eqb_spec num number) as [E|E].
  - rewrite (decide_True (P := num = number)) by done. rewrite fmap_cons. fold (occurrences number msg).
    destruct found as [x|]; [by destruct (occurrences number msg) as [|? []]|].
    rewrite IH; [|done|lia]. simpl. by destruct (occurrences number msg) as [|? []].
  - rewrite (decide_False (P := num = number)) by done. fold (occurrences number msg).
    apply IH; [done|lia].
Qed.

Lemma protobufScalar_encode v kind num :
  field_ok (num, v) -> protobufScalar (encodeValue v) (typeOf v) kind = scalarOf v kind.
Proof.
  intros [_ Hv]. simpl in Hv. unfold protobufScalar.
  destruct v as [v|l|l|l]; cbn [typeOf scalarOf].
  - change (VarintType =? BytesType) with false. change (VarintType =? VarintType) with true.
    simpl encodeValue. rewrite <-(app_nil_r (varint v)), ConsumeVarint_varint by done. simpl.
    destruct (decide (kind = protobufString)) as [->|]; done.
  - change (Fixed64Type =? BytesType) with false. change (Fixed64Type =? VarintType) with false.
    by case_decide.
  - change (BytesType =? BytesType) with true. change (BytesType =? VarintType) with false.
    rewrite <-(app_nil_r (encodeValue (WBytes l))), ConsumeBytes_encode by done. cbn [fmap option_fmap option_map from_option id fst snd negb].
    destruct (decide (kind = protobufString)) as [->|Hk].
    2: { rewrite decide_False; [done|]. tauto. }
    assert (len (of_chars l) =? 0 = bool_decide (of_chars l = "")) as ->.
    { unfold len. destruct (of_chars l); done. }
    destruct (bool_decide_reflect (of_chars l = "")); cbn [orb negb].
    { rewrite decide_False; [done|]. tauto. }
    destruct (Z.ltb_spec maxSelectedValue (len (of_chars l))); cbn [orb negb].
    { rewrite decide_False; [done|]. lia. }
    destruct (utf8_ValidString (of_chars l)); cbn [orb negb].
    + rewrite decide_True; [done|]. split_and!; done || lia.
    + rewrite decide_False; [done|]. naive_solver.
  - change (Fixed32Type =? BytesType) with false. change (Fixed32Type =? VarintType) with false.
    by case_decide.
Qed.
End encode.

(** Extraction of a selected scalar never panics for a non-empty path,
    whatever the bytes.  On a well-formed message it finds the value of the
    first path number when that field occurs exactly once, as the requested
    scalar at the end of the path, and otherwise continues into the field's
    bytes; absent, repeated and differently typed fields give nothing. *)
Theorem protobufValue_spec (b : list ascii) msg number path kind :
  Forall field_ok msg ->
  (exists r, protobufValue b (number :: path) kind = Some r) /\
  protobufValue (encode msg) (number :: path) kind =
    match occurrences number msg, path with
    | [v], [] => Some (scalarOf v kind)
    | [WBytes l], _ => protobufValue l path kind
    | _, _ => Some None
    end.
Proof.
  intros Hok. split; [by apply protobufValue_total|].
  cbn [protobufValue]. unfold validWireMessage. rewrite validWire_encode by done.
  cbn [mbind option_bind negb]. rewrite scanFields_encode by done. cbn [mbind option_bind].
  destruct (occurrences number msg) as [|v [|v' vs]] eqn:E; [done| |by destruct v, path].
  assert (field_ok (number, v)) as Hv.
  { assert (v ∈ occurrences number msg) as Hin by (rewrite E; by left).
    unfold occurrences in Hin. apply list_elem_of_fmap in Hin as ([n w] & -> & Hin).
    apply list_elem_of_filter in Hin as [Hn Hin]. simpl in *. subst n.
    rewrite Forall_forall in Hok. by apply Hok. }
  destruct path as [|p path].
  - rewrite (protobufScalar_encode v kind number Hv). by destruct v.
  - destruct v as [v|l|l|l]; try done.
    change (negb (typeOf (WBytes l) =? BytesType)) with false. cbv iota.
    rewrite <-(app_nil_r (encodeValue (WBytes l))), ConsumeBytes_encode by apply Hv. done.
Qed.

Section capture_props.
Context `{Unicode}.

Definition attrsSize (attrs : list Attr) : Z :=
  foldr (fun a n => len (valueString a.2) + n) 0 attrs.

Lemma captureFields_spec payload fields total :
  Forall (fun f => f_Path f <> []) fields ->
  exists attrs, captureFields payload fields total = Some attrs /\
    (total <= maxSelectedTotal -> total + attrsSize attrs <= maxSelectedTotal) /\
    (forall k v, (k, v) ∈ attrs -> exists f, f ∈ fields /\ k = FieldKey (f_Name f) /\
       protobufValue payload (f_Path f) (f_Type f) = Some (Some v)).
Proof.
  revert total. induction fields as [|f fields IH]; intros total Hp; simpl.
  { eexists. split; [done|]. split; [simpl; lia|]. intros k v Hin. by apply not_elem_of_nil in Hin. }
  apply Forall_cons_1 in Hp as [Hf Hp].
  destruct (protobufValue_total payload (f_Path f) (f_Type f) Hf) as [r Hr]. rewrite Hr.
  cbn [mbind option_bind]. destruct r as [value|].
  - destruct (Z.ltb_spec maxSelectedTotal (total + len (valueString value))).
    + destruct (IH total Hp) as (attrs & E & H1 & H2). exists attrs. split_and!; [done..|].
      intros k v Hin. destruct (H2 k v Hin) as (f' & ? & ?). exists f'. split; [by right|done].
    + destruct (IH (total + len (valueString value)) Hp) as (attrs & E & H1 & H2).
      rewrite E. eexists. split; [done|]. split; [simpl; lia|].
      intros k v [[= -> ->]|Hin]%elem_of_cons; [exists f; split; [by left|done]|].
      destruct (H2 k v Hin) as (f' & ? & ?). exists f'. split; [by right|done].
  - destruct (IH total Hp) as (attrs & E & H1 & H2). exists attrs. split_and!; [done..|].
    intros k v Hin. destruct (H2 k v Hin) as (f' & ? & ?). exists f'. split; [by right|done].
Qed.

(** A capture looks at the first message only and is bounded: observing
    never panics for validated selectors, later messages change nothing, a
    message above 64 KiB or malformed is not captured, and what is kept are
    configured fields' values of that message whose texts add up to at most
    16 KiB. *)
Theorem Observe_bounded group fields payload later c :
  Forall (fun f => f_Path f <> []) fields -> NewProtobufCapture group fields = Some c ->
  exists c', Observe (Some c) payload = Some (Some c') /\
    Observe (Some c') later = Some (Some c') /\
    attrsSize (pb_attrs c') <= maxSelectedTotal /\
    (pb_attrs c' <> [] -> pb_status c' = "captured" /\ len payload <= maxProtobufMessage /\
       validWireMessage (chars payload) = Some true) /\
    (forall k v, (k, v) ∈ pb_attrs c' -> exists f, f ∈ fields /\ k = FieldKey (f_Name f) /\
       protobufValue (chars payload) (f_Path f) (f_Type f) = Some (Some v)).
Proof.
  intros Hp Hc.
  assert (c = {| pb_group := group; pb_fields := fields; pb_seen := false; pb_attrs := [];
                 pb_status := "not_seen" |}) as -> by (destruct fields; [done|]; by injection Hc).
  unfold Observe at 1. cbn [pb_seen pb_attrs pb_fields].
  assert (forall k v, (k, v) ∈ @nil Attr -> exists f, f ∈ fields /\ k = FieldKey (f_Name f) /\
    protobufValue (chars payload) (f_Path f) (f_Type f) = Some (Some v)) as Hnil
    by (intros k v Hin; by apply not_elem_of_nil in Hin).
  destruct (Z.ltb_spec maxProtobufMessage (len payload)) as [Hl|Hl].
  { eexists. split; [done|]. by split_and!. }
  unfold validWireMessage. destruct (validWire_fuel (length (chars payload)) (chars payload))
    as [r Hr]; [done|]. rewrite Hr. cbn [mbind option_bind]. destruct r; cbn [negb].
  2: { eexists. split; [done|]. by split_and!. }
  destruct (captureFields_spec (chars payload) fields 0 Hp) as (attrs & E & H1 & H2).
  rewrite E. cbn [mbind option_bind app]. eexists. split; [done|]. cbn [pb_attrs with_status pb_status].
  split_and!; [done| |  |done].
  - unfold maxSelectedTotal in *. lia.
  - intros Hne. by rewrite decide_False.
Qed.
End capture_props.

(** A message with a string in a nested message. *)
Definition exampleMessage : list (Z * wireValue) :=
  [(1, WVarint 300); (2, WBytes (encode [(5, WBytes (chars "ab"))]))].

Lemma protobufValue_spec_witness :
  protobufValue (encode exampleMessage) [2; 5] protobufString = Some (Some (StringValue "ab")).
Proof.
  destruct (protobufValue_spec [] exampleMessage 2 [5] protobufString) as [_ E].
  - repeat constructor; vm_compute; discriminate || reflexivity.
  - rewrite E. vm_compute. reflexivity.
Defined.

Lemma Observe_bounded_witness :
  let H := asciiUnicode in
  let fields := [{| f_Name := "n"; f_Path := [1]; f_Type := protobufUint64 |}] in
  exists c c', NewProtobufCapture "g" fields = Some c /\
    Observe (Some c) (of_chars (encode exampleMessage)) = Some (Some c') /\
    attrsSize (pb_attrs c') <= maxSelectedTotal /\ pb_attrs c' = [("n", Uint64Value 300)].
Proof.
  intros H fields. eexists.
  destruct (Observe_bounded "g" fields (of_chars (encode exampleMessage)) "" _
    ltac:(repeat constructor; discriminate) eq_refl) as (c' & E & _ & Hb & _).
  exists c'. split_and!; [reflexivity|exact E|exact Hb|].
  vm_compute in E. injection E as <-. reflexivity.
Defined.
End protobuf.
