(* ===== verification/Protocol.v ===== *)
(** * [internal/protocol]: events, sessions, the runner and the HTTP adapter

    A session is any type with the [TestSession] operations in state-passing
    style.  The race of the runner between the shadow session and its deadline
    is an argument: [Some err] when the context ends first. *)
From S2P Require Export Compare.

Module protocol.
Import comparejson backend compare.

(** [Target] is a string type: values other than the two constants exist. *)
Definition Target := string.
Definition TargetPrimary : Target := "primary".
Definition TargetShadow : Target := "shadow".

Definition Decision := string.
Definition DecisionAccept : Decision := "accept".
Definition DecisionReject : Decision := "reject".
Definition DecisionTempfail : Decision := "tempfail".
Definition DecisionDiscard : Decision := "discard".
Definition DecisionContinue : Decision := "continue".
Definition DecisionUnknown : Decision := "unknown".

Record Action := { a_Type : string; a_Name : string; a_Value : string }.
Record ActionDiff := { ad_Action : Action; ad_Primary : bool; ad_Shadow : bool }.

Record Event := {
  e_Kind : string;
  e_Method : string;
  e_Path : string;
  e_PrimaryPath : string;
  e_ShadowPath : string;
  e_RawQuery : string;
  e_Host : string;
  e_Header : header;
  e_Body : string;
  e_RemoteAddr : string;
  e_RequestID : Z;
  e_PrimaryRequestHeaders : gmap string string;
  e_ShadowRequestHeaders : gmap string string;
  e_Payload : string;
  e_Meta : gmap string string
}.

Record Response := {
  p_Proto : string;
  p_Selected : string;
  p_Status : Z;
  p_Header : header;
  p_Body : string;
  p_Duration : Z;
  p_Err : option error;
  p_Decision : Decision;
  p_Actions : list Action;
  p_Raw : string;
  p_RawTrace : list string
}.

Record CompareResult := {
  pc_Mode : string;
  pc_Diff : bool;
  pc_HeaderDiff : bool;
  pc_HeaderPrimary : gmap string string;
  pc_HeaderShadow : gmap string string;
  pc_HeaderDiffs : list Headers.HeaderDiff;
  pc_BodyDiff : bool;
  pc_JSONDiffs : list JSONPathDiff;
  pc_HTMLSimilarity : SpecFloat.spec_float;
  pc_DecisionDiff : bool;
  pc_ActionDiffs : list ActionDiff
}.

(** The zero values of the two result types. *)
Definition zeroResponse : Response :=
  {| p_Proto := ""; p_Selected := ""; p_Status := 0; p_Header := ∅; p_Body := ""; p_Duration := 0;
     p_Err := None; p_Decision := ""; p_Actions := []; p_Raw := ""; p_RawTrace := [] |}.
Definition zeroCompareResult : CompareResult :=
  {| pc_Mode := ""; pc_Diff := false; pc_HeaderDiff := false; pc_HeaderPrimary := ∅;
     pc_HeaderShadow := ∅; pc_HeaderDiffs := []; pc_BodyDiff := false; pc_JSONDiffs := [];
     pc_HTMLSimilarity := f0; pc_DecisionDiff := false; pc_ActionDiffs := [] |}.

(** [response.Err = err] *)
Definition with_Err (r : Response) (err : option error) : Response :=
  {| p_Proto := p_Proto r; p_Selected := p_Selected r; p_Status := p_Status r;
     p_Header := p_Header r; p_Body := p_Body r; p_Duration := p_Duration r; p_Err := err;
     p_Decision := p_Decision r; p_Actions := p_Actions r; p_Raw := p_Raw r;
     p_RawTrace := p_RawTrace r |}.

(** [util.go] *)
Definition ErrString (err : option error) : string :=
  match err with
  | None => ""
  | Some e =>
      if errors_Is e context_DeadlineExceeded then "deadline_exceeded"
      else if errors_Is e context_Canceled then "canceled"
      else Error e
  end.

(** ** [adapter.go]: the interfaces *)

Class TestSession (S : Type) := {
  Send : S -> Event -> option error * S;
  Receive : S -> (Response * option error) * S
}.
Definition Comparator := Response -> Response -> CompareResult * option error.

(** ** [milter_semantics.go] *)

Definition protocolHTTP : string := "http".
Definition protocolMilter : string := "milter".

Definition milterAbortCommand : ascii := "A".
Definition milterBodyCommand : ascii := "B".
Definition milterConnectCommand : ascii := "C".
Definition milterMacroCommand : ascii := "D".
Definition milterHeloCommand : ascii := "H".
Definition milterQuitNCCommand : ascii := "K".
Definition milterHeaderCommand : ascii := "L".
Definition milterMailCommand : ascii := "M".
Definition milterEOHCommand : ascii := "N".
Definition milterQuitCommand : ascii := "Q".
Definition milterRcptCommand : ascii := "R".
Definition milterDataCommand : ascii := "T".
Definition milterUnknownCommand : ascii := "U".

Definition MilterCommandExpectsResponse (command : ascii) : bool :=
  negb (bool_decide (command ∈
    [milterAbortCommand; milterBodyCommand; milterConnectCommand; milterMacroCommand;
     milterHeloCommand; milterQuitNCCommand; milterHeaderCommand; milterMailCommand;
     milterEOHCommand; milterQuitCommand; milterRcptCommand; milterDataCommand;
     milterUnknownCommand])).

Definition meta (event : Event) (key : string) : string := default "" (e_Meta event !! key).

Definition eventExpectsResponse (event : Event) : bool :=
  if decide (e_Kind event = protocolMilter) then
    match meta event "command" with
    | "" => true
    | String c _ => MilterCommandExpectsResponse c
    end
  else true.

(** ** [runner.go] *)

Record RunResult := {
  rr_Primary : Response;
  rr_Shadow : Response;
  rr_ShadowStarted : bool;
  rr_ShadowOK : bool;
  rr_ShadowErr : string;
  rr_Compare : CompareResult;
  rr_CompareErr : option error
}.
Definition zeroRunResult : RunResult :=
  {| rr_Primary := zeroResponse; rr_Shadow := zeroResponse; rr_ShadowStarted := false;
     rr_ShadowOK := false; rr_ShadowErr := ""; rr_Compare := zeroCompareResult;
     rr_CompareErr := None |}.

(** [Response{Proto: kind}] *)
Definition protoResponse (kind : string) : Response :=
  {| p_Proto := kind; p_Selected := ""; p_Status := 0; p_Header := ∅; p_Body := "";
     p_Duration := 0; p_Err := None; p_Decision := ""; p_Actions := []; p_Raw := "";
     p_RawTrace := [] |}.

(** [if err != nil && res.Err == nil { res.Err = err }] *)
Definition keepErr (res : Response) (err : option error) : Response :=
  match err, p_Err res with Some e, None => with_Err res (Some e) | _, _ => res end.

Section runner.
Context {P S : Type} `{TestSession P} `{TestSession S}.

Definition runPrimary (primary : option P) (event : Event) : RunResult * option P :=
  match primary with
  | None =>
      ({| rr_Primary := zeroResponse; rr_Shadow := zeroResponse; rr_ShadowStarted := false;
          rr_ShadowOK := false; rr_ShadowErr := ""; rr_Compare := zeroCompareResult;
          rr_CompareErr := Some (errors_New "primary session missing") |}, None)
  | Some p =>
      match Send p event with
      | (Some err, p) =>
          ({| rr_Primary := with_Err zeroResponse (Some err); rr_Shadow := zeroResponse;
              rr_ShadowStarted := false; rr_ShadowOK := false; rr_ShadowErr := "";
              rr_Compare := zeroCompareResult; rr_CompareErr := Some err |}, Some p)
      | (None, p) =>
          let done primaryRes p :=
            ({| rr_Primary := primaryRes; rr_Shadow := zeroResponse; rr_ShadowStarted := false;
                rr_ShadowOK := false; rr_ShadowErr := ""; rr_Compare := zeroCompareResult;
                rr_CompareErr := None |}, Some p) in
          if negb (eventExpectsResponse event) then done (protoResponse (e_Kind event)) p
          else let '(primaryRes, err, p) := Receive p in done (keepErr primaryRes err) p
      end
  end.

Definition RunPrimaryEvent := runPrimary.

(** What the shadow goroutine delivers: a response or a send error. *)
Definition shadowOutcome (shadow : S) (event : Event) : (Response + error) * S :=
  match Send shadow event with
  | (Some err, s) => (inr err, s)
  | (None, s) =>
      if negb (eventExpectsResponse event) then (inl (protoResponse (e_Kind event)), s)
      else let '(resp, err, s) := Receive s in (inl (keepErr resp err), s)
  end.

(** [runShadow]: [ctxDone] is the context's error when it wins the select. *)
Definition runShadow (shadow : S) (event : Event) (ctxDone : option error) (result : RunResult)
    : RunResult * S :=
  let '(outcome, s) := shadowOutcome shadow event in
  let failed err :=
    {| rr_Primary := rr_Primary result; rr_Shadow := with_Err (rr_Shadow result) (Some err);
       rr_ShadowStarted := true; rr_ShadowOK := false; rr_ShadowErr := ErrString (Some err);
       rr_Compare := rr_Compare result; rr_CompareErr := rr_CompareErr result |} in
  (match ctxDone, outcome with
   | Some err, _ => failed err
   | None, inr err => failed err
   | None, inl resp =>
       {| rr_Primary := rr_Primary result; rr_Shadow := resp; rr_ShadowStarted := true;
          rr_ShadowOK := match p_Err resp with None => true | Some _ => false end;
          rr_ShadowErr := ErrString (p_Err resp);
          rr_Compare := rr_Compare result; rr_CompareErr := rr_CompareErr result |}
   end, s).

Definition compareResponses (comparator : option Comparator) (result : RunResult) : RunResult :=
  match comparator with
  | None => result
  | Some f =>
      let '(compareResult, err) := f (rr_Primary result) (rr_Shadow result) in
      {| rr_Primary := rr_Primary result; rr_Shadow := rr_Shadow result;
         rr_ShadowStarted := rr_ShadowStarted result; rr_ShadowOK := rr_ShadowOK result;
         rr_ShadowErr := rr_ShadowErr result; rr_Compare := compareResult; rr_CompareErr := err |}
  end.

Definition RunShadowEvent (comparator : option Comparator) (shadow : S) (event : Event)
    (ctxDone : option error) (primary : Response) : RunResult * S :=
  let result := {| rr_Primary := primary; rr_Shadow := zeroResponse; rr_ShadowStarted := false;
                   rr_ShadowOK := false; rr_ShadowErr := ""; rr_Compare := zeroCompareResult;
                   rr_CompareErr := None |} in
  let '(result, s) := runShadow shadow event ctxDone result in
  (compareResponses comparator result, s).

Definition RunEvent (comparator : option Comparator) (primary : option P) (shadow : option S)
    (event : Event) (ctxDone : option error) : RunResult * option P * option S :=
  let '(result, p) := RunPrimaryEvent primary event in
  match p_Err (rr_Primary result), rr_CompareErr result with
  | None, None =>
      match shadow with
      | None => (result, p, None)
      | Some s =>
          let '(result, s) := RunShadowEvent comparator s event ctxDone (rr_Primary result) in
          (result, p, Some s)
      end
  | _, _ => (result, p, shadow)
  end.
End runner.

(** ** [http_adapter.go] *)

(** [backend.Requester] *)
Class Requester (R : Type) := Requester_Do : R -> Request -> Result * R.

Record httpSession := {
  hs_kind : Kind;
  hs_result : option Result;
  hs_configuredRequestHeaders : gmap string string
}.

(** [for name, value := range values { header.Set(name, value) }]; [order]
    gives the pairs of the map in the order of the range. *)
Definition applyRequestHeaders (h : header) (items : list (string * string)) : header :=
  foldl (fun h nv => HeaderSet h nv.1 nv.2) h items.

Section http.
Context {R : Type} `{Requester R}.
(** The order in which Go ranges over a map. *)
Context (range : gmap string string -> list (string * string)).

Record HTTPAdapter := {
  ha_PrimaryRequester : option R;
  ha_ShadowRequester : option R;
  ha_PrimaryRequestHeaders : gmap string string;
  ha_ShadowRequestHeaders : gmap string string
}.

Definition NewSession (a : HTTPAdapter) (target : Target) : res (httpSession * R) :=
  let open kind requester configured :=
    match requester with
    | None => Err (errors_New "missing backend requester")
    | Some r => Ok ({| hs_kind := kind; hs_result := None;
                       hs_configuredRequestHeaders := configured |}, r)
    end in
  if decide (target = TargetPrimary)
  then open BackendPrimary (ha_PrimaryRequester a) (ha_PrimaryRequestHeaders a)
  else if decide (target = TargetShadow)
  then open BackendShadow (ha_ShadowRequester a) (ha_ShadowRequestHeaders a)
  else Err (errors_New "unknown target").

(** The backend request of an event. *)
Definition requestOf (s : httpSession) (event : Event) : Request :=
  let path :=
    if decide (hs_kind s = BackendShadow /\ e_ShadowPath event <> "") then e_ShadowPath event
    else if decide (hs_kind s = BackendPrimary /\ e_PrimaryPath event <> "") then e_PrimaryPath event
    else e_Path event in
  let headersToSend := Clone (e_Header event) in
  let headersToSend := applyRequestHeaders headersToSend (range (hs_configuredRequestHeaders s)) in
  let headersToSend :=
    if decide (hs_kind s = BackendPrimary)
    then applyRequestHeaders headersToSend (range (e_PrimaryRequestHeaders event))
    else if decide (hs_kind s = BackendShadow)
    then applyRequestHeaders headersToSend (range (e_ShadowRequestHeaders event))
    else headersToSend in
  {| rq_Kind := hs_kind s; rq_Method := e_Method event; rq_Path := path;
     rq_RawQuery := e_RawQuery event; rq_Host := e_Host event; rq_RemoteAddr := e_RemoteAddr event;
     rq_Header := RemoveHopByHop headersToSend; rq_Body := e_Body event;
     rq_RequestID := e_RequestID event |}.

Definition http_Send (sr : httpSession * R) (event : Event) : option error * (httpSession * R) :=
  let '(s, r) := sr in
  match hs_result s with
  | Some _ => (Some (errors_New "request already sent"), sr)
  | None =>
      let '(result, r) := Requester_Do r (requestOf s event) in
      (None, ({| hs_kind := hs_kind s; hs_result := Some result;
                 hs_configuredRequestHeaders := hs_configuredRequestHeaders s |}, r))
  end.

Definition responseOf (res : Result) : Response :=
  {| p_Proto := rs_Proto res; p_Selected := rs_Selected res; p_Status := rs_Status res;
     p_Header := rs_Header res; p_Body := rs_Body res; p_Duration := rs_Duration res;
     p_Err := rs_Err res; p_Decision := DecisionUnknown; p_Actions := []; p_Raw := "";
     p_RawTrace := [] |}.

Definition http_Receive (sr : httpSession * R) : (Response * option error) * (httpSession * R) :=
  match hs_result (fst sr) with
  | None =>
      let e := Some (errors_New "request not sent") in ((with_Err zeroResponse e, e), sr)
  | Some res => ((responseOf res, rs_Err res), sr)
  end.

#[export] Instance http_TestSession : TestSession (httpSession * R) :=
  {| Send := http_Send; Receive := http_Receive |}.
End http.

(** ** [http_compare.go] *)

Definition backendResult (r : Response) : Result :=
  {| rs_Header := p_Header r; rs_Body := p_Body r; rs_Err := p_Err r; rs_Proto := p_Proto r;
     rs_Duration := p_Duration r; rs_RequestID := 0; rs_Kind := "";
     rs_Selected := ""; rs_Status := p_Status r |}.
Definition protocolResult (r : CResult) : CompareResult :=
  {| pc_Mode := Mode r; pc_Diff := Diff r; pc_HeaderDiff := HeaderDiff r;
     pc_HeaderPrimary := HeaderPrimary r; pc_HeaderShadow := HeaderShadow r;
     pc_HeaderDiffs := HeaderDiffs r; pc_BodyDiff := BodyDiff r; pc_JSONDiffs := JSONDiffs r;
     pc_HTMLSimilarity := HTMLSimilarity r; pc_DecisionDiff := false; pc_ActionDiffs := [] |}.

(** [HTTPComparator.Compare] over an optional [compare.Comparator]. *)
Definition HTTPComparator_Compare
    (c : option (Result -> Result -> CResult * option error)) : Comparator :=
  fun primary shadow =>
    match c with
    | None => (zeroCompareResult, Some (errors_New "missing http comparator"))
    | Some f =>
        let '(result, err) := f (backendResult primary) (backendResult shadow) in
        (protocolResult result, err)
    end.

(** ** [milter_compare.go] *)

Definition MilterComparator_Compare : Comparator :=
  fun primary shadow =>
    let decisionDiff := bool_decide (p_Decision primary <> p_Decision shadow) in
    ({| pc_Mode := protocolMilter;
        pc_Diff := if decide (p_Raw primary = p_Raw shadow) then decisionDiff else true;
        pc_HeaderDiff := false; pc_HeaderPrimary := ∅; pc_HeaderShadow := ∅; pc_HeaderDiffs := [];
        pc_BodyDiff := false; pc_JSONDiffs := []; pc_HTMLSimilarity := f0;
        pc_DecisionDiff := decisionDiff; pc_ActionDiffs := [] |}, None).

(** ** Lemmas *)

Section runner_lemmas.
Context {P S : Type} `{TestSession P} `{TestSession S}.
Implicit Types (comparator : option Comparator) (result : RunResult).

Lemma runShadow_primary (s : S) event ctxDone result :
  rr_Primary (runShadow s event ctxDone result).1 = rr_Primary result /\
  rr_ShadowStarted (runShadow s event ctxDone result).1 = true.
Proof.
  unfold runShadow. destruct (shadowOutcome s event) as [o s'].
  destruct ctxDone as [e|], o as [r|e']; done.
Qed.

Lemma compareResponses_keeps comparator result :
  rr_Primary (compareResponses comparator result) = rr_Primary result /\
  rr_Shadow (compareResponses comparator result) = rr_Shadow result /\
  rr_ShadowStarted (compareResponses comparator result) = rr_ShadowStarted result /\
  rr_ShadowOK (compareResponses comparator result) = rr_ShadowOK result.
Proof. destruct comparator as [f|]; simpl; [|done]. by destruct (f _ _). Qed.

(** Running an event on the primary is independent of everything on the
    shadow side: whatever the shadow session does, whether or not its deadline
    wins, and whatever the comparator answers, the primary response and the
    primary session end up as without a shadow.  When the primary failed, or
    is missing, the shadow session is not touched and nothing is compared. *)
Theorem RunEvent_primary_isolated comparator (p : option P) (shadow : option S) event ctxDone :
  let '(result, p', shadow') := RunEvent comparator p shadow event ctxDone in
  (rr_Primary result, p') = (rr_Primary (RunPrimaryEvent p event).1, (RunPrimaryEvent p event).2) /\
  (p_Err (rr_Primary result) <> None \/ p = None ->
     shadow' = shadow /\ rr_ShadowStarted result = false /\ rr_Compare result = zeroCompareResult) /\
  (shadow = None -> rr_ShadowStarted result = false) /\
  (p_Err (rr_Primary result) = None -> p <> None -> shadow <> None -> rr_ShadowStarted result = true).
Proof.
  unfold RunEvent, RunPrimaryEvent.
  assert (rr_ShadowStarted (runPrimary p event).1 = false /\
    rr_Compare (runPrimary p event).1 = zeroCompareResult /\
    (p = None -> rr_CompareErr (runPrimary p event).1 <> None) /\
    (p_Err (rr_Primary (runPrimary p event).1) = None -> p <> None ->
     rr_CompareErr (runPrimary p event).1 = None)) as (H1 & H2 & H3 & H4).
  { unfold runPrimary. destruct p as [p|]; [|done]. destruct (Send p event) as [[e|] p1]; [done|].
    destruct (eventExpectsResponse event); simpl; [|done]. by destruct (Receive p1) as [[]]. }
  destruct (runPrimary p event) as [result p']. simpl in *.
  destruct (p_Err (rr_Primary result)) as [e|] eqn:Ee.
  { by rewrite Ee. }
  destruct (rr_CompareErr result) as [e|] eqn:Ec.
  { rewrite Ee. split_and!; try done. intros _ Hp _. by specialize (H4 eq_refl Hp). }
  destruct shadow as [s|]; [|by rewrite Ee].
  unfold RunShadowEvent.
  pose proof (runShadow_primary s event ctxDone
    {| rr_Primary := rr_Primary result; rr_Shadow := zeroResponse; rr_ShadowStarted := false;
       rr_ShadowOK := false; rr_ShadowErr := ""; rr_Compare := zeroCompareResult;
       rr_CompareErr := None |}) as [E1 E2].
  destruct (runShadow _ _ _ _) as [r1 s1]. simpl in E1, E2.
  destruct (compareResponses_keeps comparator r1) as (E3 & _ & E4 & _).
  rewrite E3, E4, E1, E2, Ee. split_and!; [done| |done..].
  intros [?|Hp]; [done|]. by destruct (H3 Hp).
Qed.

(** A shadow that misses its deadline is reported as started and not OK
    with the context's error, whatever it would have answered; one that
    answers first is OK exactly when its response has no error. *)
Theorem RunShadowEvent_deadline comparator (s : S) event ctxDone primary :
  let '(result, s') := RunShadowEvent comparator s event ctxDone primary in
  rr_Primary result = primary /\ rr_ShadowStarted result = true /\
  s' = (shadowOutcome s event).2 /\
  match ctxDone, (shadowOutcome s event).1 with
  | Some err, _ | None, inr err =>
      rr_ShadowOK result = false /\ rr_Shadow result = with_Err zeroResponse (Some err) /\
      rr_ShadowErr result = ErrString (Some err)
  | None, inl resp =>
      rr_Shadow result = resp /\ (rr_ShadowOK result = true <-> p_Err resp = None) /\
      rr_ShadowErr result = ErrString (p_Err resp)
  end.
Proof.
  unfold RunShadowEvent, runShadow. destruct (shadowOutcome s event) as [o s'].
  assert (forall r, rr_ShadowErr (compareResponses comparator r) = rr_ShadowErr r) as HE.
  { intros r. destruct comparator as [f|]; simpl; [|done]. by destruct (f _ _). }
  destruct ctxDone as [e|], o as [r|e']; simpl;
    match goal with |- context [compareResponses comparator ?r] =>
      destruct (compareResponses_keeps comparator r) as (-> & -> & -> & ->); rewrite (HE r) end;
    simpl; split_and!; try done; by destruct (p_Err r).
Qed.
End runner_lemmas.

(** No two names of a header map are the same header. *)
Definition distinct_headers (m : gmap string string) : Prop :=
  forall n1 n2, is_Some (m !! n1) -> is_Some (m !! n2) ->
    CanonicalHeaderKey n1 = CanonicalHeaderKey n2 -> n1 = n2.

(** [h'] is [h] with the headers of [m] set. *)
Definition overridden (m : gmap string string) (h h' : header) : Prop :=
  (forall name value, m !! name = Some value -> h' !! CanonicalHeaderKey name = Some [value]) /\
  (forall k, (forall name, is_Some (m !! name) -> CanonicalHeaderKey name <> k) -> h' !! k = h !! k).

Section http_lemmas.
Lemma applyRequestHeaders_lookup h items k :
  applyRequestHeaders h items !! k =
  match list_find (fun nv => CanonicalHeaderKey nv.1 = k) (reverse items) with
  | Some (_, nv) => Some [nv.2]
  | None => h !! k
  end.
Proof.
  revert h. induction items as [|nv items IH] using rev_ind; intros h; [done|].
  unfold applyRequestHeaders. rewrite foldl_app. simpl. fold (applyRequestHeaders h items).
  rewrite reverse_snoc. simpl. unfold HeaderSet. case_decide as E.
  - by rewrite E, lookup_insert_eq.
  - rewrite lookup_insert_ne by done. rewrite IH.
    by destruct (list_find _ (reverse items)) as [[]|].
Qed.

Lemma applyRequestHeaders_overridden h m items :
  items ≡ₚ map_to_list m -> distinct_headers m -> overridden m h (applyRequestHeaders h items).
Proof.
  intros Hp Hd. split.
  - intros name value Hm. rewrite applyRequestHeaders_lookup.
    destruct (list_find _ (reverse items)) as [[i [n v]]|] eqn:E.
    + apply list_find_Some in E as (Hi & Hc & _). simpl in *.
      apply list_elem_of_lookup_2 in Hi. rewrite elem_of_reverse, Hp, elem_of_map_to_list in Hi.
      assert (n = name) as -> by (apply Hd; eauto). by simplify_eq.
    + exfalso. apply list_find_None in E. rewrite Forall_forall in E.
      apply (E (name, value)); [|done]. by rewrite elem_of_reverse, Hp, elem_of_map_to_list.
  - intros k Hk. rewrite applyRequestHeaders_lookup.
    destruct (list_find _ (reverse items)) as [[i [n v]]|] eqn:E; [|done].
    apply list_find_Some in E as (Hi & Hc & _). simpl in *.
    apply list_elem_of_lookup_2 in Hi. rewrite elem_of_reverse, Hp, elem_of_map_to_list in Hi.
    exfalso. apply (Hk n); eauto.
Qed.
End http_lemmas.

Section http_props.
Context {R : Type} `{Requester R}.
Context (range : gmap string string -> list (string * string)).
Context (Hrange : forall m, range m ≡ₚ map_to_list m).

(** A session of the HTTP adapter makes exactly one backend request: the
    first [Send] performs it, [Receive] reports its outcome any number of
    times, a second [Send] is refused without a request, and a [Receive] before
    [Send] is an error.  The request carries the event's method, query, host,
    body and id, the path of the session's side, and the event's headers with
    the side's configured headers set over them and the rule's over both, less
    the hop-by-hop ones, whatever the order of Go's map ranges. *)
Theorem http_session_spec (a : HTTPAdapter) target s r event :
  NewSession a target = Ok (s, r) ->
  let primary := bool_decide (target = TargetPrimary) in
  let configured := if primary then ha_PrimaryRequestHeaders a else ha_ShadowRequestHeaders a in
  let rule := if primary then e_PrimaryRequestHeaders event else e_ShadowRequestHeaders event in
  let sidePath := if primary then e_PrimaryPath event else e_ShadowPath event in
  distinct_headers configured -> distinct_headers rule ->
  exists item s1,
    let '(result, r1) := Requester_Do r item in
    http_Send range (s, r) event = (None, (s1, r1)) /\
    http_Receive (s1, r1) = ((responseOf result, rs_Err result), (s1, r1)) /\
    (forall event', http_Send range (s1, r1) event' =
       (Some (errors_New "request already sent"), (s1, r1))) /\
    snd (fst (http_Receive (s, r))) = Some (errors_New "request not sent") /\
    rq_Kind item = target /\ rq_Method item = e_Method event /\ rq_Body item = e_Body event /\
    rq_RawQuery item = e_RawQuery event /\ rq_Host item = e_Host event /\
    rq_RemoteAddr item = e_RemoteAddr event /\ rq_RequestID item = e_RequestID event /\
    rq_Path item = (if decide (sidePath = "") then e_Path event else sidePath) /\
    exists h1 h2, overridden configured (e_Header event) h1 /\ overridden rule h1 h2 /\
      rq_Header item = RemoveHopByHop h2.
Proof.
  intros HN primary configured rule sidePath Hc Hr.
  exists (requestOf range s event).
  assert (hs_kind s = target /\ hs_result s = None /\ hs_configuredRequestHeaders s = configured /\
    (target = TargetPrimary \/ target = TargetShadow)) as (Hk & Hres & Hconf & Ht).
  { unfold NewSession in HN. unfold configured, primary.
    destruct (decide (target = TargetPrimary)) as [E|E]; [|destruct (decide (target = TargetShadow))];
      [| |done].
    - rewrite bool_decide_true by done. destruct (ha_PrimaryRequester a); [|done].
      injection HN as <- _. rewrite E. split_and!; try done. by left.
    - rewrite bool_decide_false by done. destruct (ha_ShadowRequester a); [|done].
      injection HN as <- _. subst. split_and!; try done. by right. }
  unfold http_Send, http_Receive. simpl. rewrite Hres.
  destruct (Requester_Do r (requestOf range s event)) as [result r1].
  eexists. split_and!; [done|done|done|done|done|done|done|done|done|done|done| |].
  - simpl. rewrite Hk. unfold sidePath, primary. destruct Ht as [-> | ->]; simpl;
      repeat case_decide; naive_solver.
  - simpl. rewrite Hk, Hconf, Clone_id.
    set (h1 := applyRequestHeaders (e_Header event) (range configured)).
    exists h1, (applyRequestHeaders h1 (range rule)). split_and!;
      [by apply applyRequestHeaders_overridden..|].
    unfold rule, primary. destruct Ht as [-> | ->]; done.
Qed.
End http_props.

(** A requester for closed examples: it counts its requests and echoes the
    path. *)
Definition exampleDo : Requester nat := fun n item =>
  ({| rs_Header := rq_Header item; rs_Body := rq_Path item; rs_Err := None; rs_Proto := "HTTP/1.1";
      rs_Duration := 0; rs_RequestID := rq_RequestID item; rs_Kind := rq_Kind item;
      rs_Selected := ""; rs_Status := 200 |}, S n).
Definition exampleAdapter : HTTPAdapter (R := nat) :=
  {| ha_PrimaryRequester := Some 0%nat; ha_ShadowRequester := None;
     ha_PrimaryRequestHeaders := {["x-a" := "1"]}; ha_ShadowRequestHeaders := ∅ |}.
Definition exampleEvent (kind : string) (meta : gmap string string) : Event :=
  {| e_Kind := kind; e_Method := "GET"; e_Path := "/p"; e_PrimaryPath := "/q"; e_ShadowPath := "";
     e_RawQuery := ""; e_Host := "h"; e_Header := {["X-A" := ["0"]]}; e_Body := "";
     e_RemoteAddr := ""; e_RequestID := 7; e_PrimaryRequestHeaders := ∅;
     e_ShadowRequestHeaders := ∅; e_Payload := ""; e_Meta := meta |}.

Lemma http_session_spec_witness :
  exists item s1, let '(result, r1) := exampleDo 0%nat item in
    http_Send (H := exampleDo) map_to_list
      ({| hs_kind := TargetPrimary; hs_result := None;
          hs_configuredRequestHeaders := {["x-a" := "1"]} |}, 0%nat)
      (exampleEvent protocolHTTP ∅) = (None, (s1, r1)) /\
    rq_Path item = "/q" /\ r1 = 1%nat.
Proof.
  destruct (http_session_spec (H := exampleDo) map_to_list (fun m => reflexivity _) exampleAdapter
    TargetPrimary _ 0%nat (exampleEvent protocolHTTP ∅) eq_refl) as (item & s1 & Hall).
  - intros n1 n2 [v1 H1] [v2 H2] _. simpl in H1, H2.
    apply lookup_singleton_Some in H1 as [<- _]. by apply lookup_singleton_Some in H2 as [<- _].
  - intros n1 n2 [v1 H1]. simpl in H1. by apply lookup_empty_Some in H1.
  - exists item, s1. destruct (exampleDo 0%nat item) as [result r1] eqn:E.
    destruct Hall as (H1 & _ & _ & _ & _ & _ & _ & _ & _ & _ & _ & H2 & _).
    unfold exampleDo in E. injection E as _ <-. split_and!; [exact H1|exact H2|reflexivity].
Defined.
End protocol.
