(* ===== verification/MilterCodec.v ===== *)
(** * [internal/protocol/milter_codec.go], [milter_adapter.go]: frames and
    milter sessions

    A connection is the bytes the peer will have sent, with the error that
    ends them, and the writes made on it.  Deadlines only show as that error.
    The loop of [Receive] runs on fuel; every frame has at least five bytes,
    so the length of the input is enough (the fuel lemma). *)
From S2P Require Export Protocol.

Module milter.
Import protocol backend.

Record instream := { in_bytes : list ascii; in_end : error }.
Record conn := { c_in : instream; c_out : list string; c_werr : option error }.

(** [io.ReadFull] into a buffer of [n] bytes. *)
Definition io_ReadFull (n : nat) (s : instream) : res (list ascii) * instream :=
  if decide (n <= length (in_bytes s))%nat
  then (Ok (take n (in_bytes s)), {| in_bytes := drop n (in_bytes s); in_end := in_end s |})
  else
    let e := if decide (in_bytes s = []) then in_end s
             else if decide (in_end s = io_EOF) then io_ErrUnexpectedEOF else in_end s in
    (Err e, {| in_bytes := []; in_end := in_end s |}).

(** [binary.BigEndian] *)
Definition BigEndian_Uint32 (b : list ascii) : Z :=
  foldl (fun acc c => Z.lor (Z.shiftl acc 8) (code c)) 0 b.
Definition BigEndian_PutUint32 (v : Z) : list ascii :=
  (fun k => chr (Z.shiftr v k mod 256)) <$> [24; 16; 8; 0].

Record MilterFrame := { Command : ascii; Payload : string; Raw : string }.

Definition encodeMilterFrame (command : ascii) (payload : string) : string :=
  let frameLen := 1 + len payload in
  of_chars (BigEndian_PutUint32 (u32 frameLen) ++ command :: chars payload)%list.

Definition readMilterFrame (s : instream) : res MilterFrame * instream :=
  match io_ReadFull 4 s with
  | (Err e, s) => (Err e, s)
  | (Ok lenBuf, s) =>
      let frameLen := BigEndian_Uint32 lenBuf in
      if frameLen <? 1 then (Err (errors_New "milter frame too short"), s)
      else
        match io_ReadFull (Z.to_nat frameLen) s with
        | (Err e, s) => (Err e, s)
        | (Ok payload, s) =>
            let c := default zero (payload !! 0%nat) in
            let p := of_chars (drop 1 payload) in
            (Ok {| Command := c; Payload := p; Raw := encodeMilterFrame c p |}, s)
        end
  end.
Definition ReadFrame := readMilterFrame.

(** ** Sessions *)

Definition milterDecision (command : ascii) : Decision :=
  if decide (command = "a"%char) then DecisionAccept
  else if decide (command = "r"%char) then DecisionReject
  else if decide (command = "t"%char) then DecisionTempfail
  else if decide (command = "d"%char) then DecisionDiscard
  else if decide (command = "c"%char) then DecisionContinue
  else DecisionUnknown.

Definition milterReplyCompletesRequest (request reply : ascii) : bool :=
  if decide (request = "O"%char) then bool_decide (reply = "O"%char)
  else bool_decide (reply ∈ ["a"; "c"; "d"; "f"; "r"; "s"; "t"; "y"; "4"]%char).

(** One record of [ObserveBackendRequest]: method, status and result. *)
Definition observation : Type := string * string * string.

Record milterSession := {
  ms_conn : conn;
  ms_addr : string;
  ms_target : Target;
  ms_command : string;
  ms_obs : option (list observation)
}.

Definition with_in (s : milterSession) (i : instream) : milterSession :=
  {| ms_conn := {| c_in := i; c_out := c_out (ms_conn s); c_werr := c_werr (ms_conn s) |};
     ms_addr := ms_addr s; ms_target := ms_target s; ms_command := ms_command s;
     ms_obs := ms_obs s |}.

Definition finishObservation (s : milterSession) (status result : string) : milterSession :=
  {| ms_conn := ms_conn s; ms_addr := ms_addr s; ms_target := ms_target s;
     ms_command := ms_command s;
     ms_obs := (fun l => l ++ [(ms_command s, status, result)])%list <$> ms_obs s |}.

(** [MilterAdapter.NewSession]; [dial] opens a connection to an address. *)
Record MilterAdapter := { ma_PrimaryAddr : string; ma_ShadowAddr : string; ma_Observability : bool }.
Definition NewSession (dial : string -> res conn) (a : MilterAdapter) (target : Target)
    : res milterSession :=
  addr ← (if decide (target = TargetPrimary) then Ok (ma_PrimaryAddr a)
          else if decide (target = TargetShadow) then Ok (ma_ShadowAddr a)
          else Err (errors_New "unknown target"));
  if decide (addr = "") then Err (errors_New "missing milter address")
  else
    c ← dial addr;
    Ok {| ms_conn := c; ms_addr := addr; ms_target := target; ms_command := "";
          ms_obs := if ma_Observability a then Some [] else None |}.

Definition milter_Send (s : milterSession) (event : Event) : option error * milterSession :=
  if decide (e_Payload event = "") then (Some (errors_New "missing milter payload"), s)
  else
    let command := meta event "command" in
    let command := if decide (command = "") then "unknown" else command in
    let c := ms_conn s in
    let s := {| ms_conn := {| c_in := c_in c; c_out := (c_out c ++ [e_Payload event])%list;
                              c_werr := c_werr c |};
                ms_addr := ms_addr s; ms_target := ms_target s; ms_command := command;
                ms_obs := ms_obs s |} in
    match c_werr c with
    | Some e => (Some e, finishObservation s StatusError ResultError)
    | None => (None, s)
    end.

Section receive.
Context (time_Since : Z).

Fixpoint receiveLoop (fuel : nat) (s : milterSession) (requestCommand : ascii) (raw : string)
    : option ((Response * option error) * milterSession) :=
  match fuel with
  | O => None
  | S fuel' =>
      match readMilterFrame (c_in (ms_conn s)) with
      | (Err e, i) =>
          Some (({| p_Proto := ""; p_Selected := ms_addr s; p_Status := 0; p_Header := ∅;
                    p_Body := ""; p_Duration := time_Since; p_Err := Some e; p_Decision := "";
                    p_Actions := []; p_Raw := raw; p_RawTrace := [] |}, Some e),
                finishObservation (with_in s i) StatusError ResultError)
      | (Ok frame, i) =>
          let raw := raw +:+ Raw frame in
          if negb (milterReplyCompletesRequest requestCommand (Command frame))
          then receiveLoop fuel' (with_in s i) requestCommand raw
          else
            let decision := milterDecision (Command frame) in
            Some (({| p_Proto := protocolMilter; p_Selected := ms_addr s; p_Status := 0;
                      p_Header := ∅; p_Body := ""; p_Duration := time_Since; p_Err := None;
                      p_Decision := decision; p_Actions := []; p_Raw := raw; p_RawTrace := [] |}, None),
                  finishObservation (with_in s i) decision ResultOK)
      end
  end.

Definition requestCommand (s : milterSession) : ascii :=
  match ms_command s with "" => zero | String c _ => c end.

(** [milterSession.Receive]; enough fuel for any input, see [receive_fuel]. *)
Definition milter_Receive (s : milterSession) : option ((Response * option error) * milterSession) :=
  receiveLoop (S (length (in_bytes (c_in (ms_conn s))))) s (requestCommand s) "".
End receive.

(** ** Specification *)

(** A frame whose size the length field can hold. *)
Definition frame_fits (f : ascii * string) : Prop := len (snd f) + 1 < 2 ^ 32.
(** The bytes of a sequence of frames. *)
Definition wire (fs : list (ascii * string)) : list ascii :=
  fs ≫= fun f => chars (encodeMilterFrame (fst f) (snd f)).

(** ** Lemmas *)

Section codec.
Lemma lor_shiftl_add a b : 0 <= b < 256 -> Z.lor (Z.shiftl a 8) b = a * 256 + b.
Proof.
  intros Hb.
  assert (Z.land (Z.shiftl a 8) b = 0) as HL.
  { apply Z.bits_inj'. intros n Hn. rewrite Z.land_spec, Z.bits_0.
    destruct (Z.ltb_spec n 8).
    - by rewrite Z.shiftl_spec_low.
    - rewrite (Z.bits_above_log2 b n), andb_false_r; try lia.
      destruct (Z.eq_dec b 0) as [->|]; [simpl; lia|].
      apply Z.lt_le_trans with 8; [apply Z.log2_lt_pow2; lia|done]. }
  pose proof (Z.add_lor_land (Z.shiftl a 8) b) as E. rewrite HL, Z.shiftl_mul_pow2 in E by lia.
  rewrite Z.shiftl_mul_pow2 by lia. lia.
Qed.

Lemma Uint32_bytes a b c d :
  BigEndian_Uint32 [a; b; c; d] = ((code a * 256 + code b) * 256 + code c) * 256 + code d.
Proof.
  unfold BigEndian_Uint32. simpl foldl.
  rewrite (lor_shiftl_add _ (code a)), (lor_shiftl_add _ (code b)), (lor_shiftl_add _ (code c)),
    (lor_shiftl_add _ (code d)) by apply code_range.
  lia.
Qed.

Lemma Uint32_PutUint32 v : 0 <= v < 2 ^ 32 -> BigEndian_Uint32 (BigEndian_PutUint32 v) = v.
Proof.
  intros Hv. unfold BigEndian_PutUint32. simpl fmap. rewrite Uint32_bytes.
  rewrite !code_chr by (apply Z.mod_pos_bound; lia).
  rewrite !Z.shiftr_div_pow2 by lia.
  change (2 ^ 24) with 16777216. change (2 ^ 16) with 65536. change (2 ^ 8) with 256.
  change (2 ^ 0) with 1. change (2 ^ 32) with 4294967296 in Hv. Z.to_euclidean_division_equations. lia.
Qed.

Lemma Uint32_range l : length l = 4%nat -> 0 <= BigEndian_Uint32 l < 2 ^ 32.
Proof.
  destruct l as [|a [|b [|c [|d [|]]]]]; try done. intros _. rewrite Uint32_bytes.
  pose proof (code_range a). pose proof (code_range b). pose proof (code_range c).
  pose proof (code_range d). lia.
Qed.

Lemma PutUint32_Uint32 l : length l = 4%nat -> BigEndian_PutUint32 (BigEndian_Uint32 l) = l.
Proof.
  destruct l as [|a [|b [|c [|d [|]]]]]; try done. intros _. rewrite Uint32_bytes.
  pose proof (code_range a). pose proof (code_range b). pose proof (code_range c).
  pose proof (code_range d).
  unfold BigEndian_PutUint32. simpl fmap. rewrite !Z.shiftr_div_pow2 by lia.
  change (2 ^ 24) with 16777216. change (2 ^ 16) with 65536. change (2 ^ 8) with 256.
  change (2 ^ 0) with 1.
  set (v := ((code a * 256 + code b) * 256 + code c) * 256 + code d).
  assert (v / 16777216 mod 256 = code a) as -> by (subst v; Z.to_euclidean_division_equations; lia).
  assert (v / 65536 mod 256 = code b) as -> by (subst v; Z.to_euclidean_division_equations; lia).
  assert (v / 256 mod 256 = code c) as -> by (subst v; Z.to_euclidean_division_equations; lia).
  assert (v / 1 mod 256 = code d) as -> by (subst v; Z.to_euclidean_division_equations; lia).
  by rewrite !chr_code.
Qed.

Lemma length_PutUint32 v : length (BigEndian_PutUint32 v) = 4%nat.
Proof. done. Qed.

Lemma io_ReadFull_app l k e :
  io_ReadFull (length l) {| in_bytes := l ++ k; in_end := e |} =
    (Ok l, {| in_bytes := k; in_end := e |}).
Proof.
  unfold io_ReadFull. simpl. rewrite decide_True by (rewrite length_app; lia).
  by rewrite take_app_length, drop_app_length.
Qed.

Lemma io_ReadFull_ok n s l s' :
  io_ReadFull n s = (Ok l, s') -> in_bytes s = (l ++ in_bytes s')%list /\ length l = n /\ in_end s' = in_end s.
Proof.
  unfold io_ReadFull. case_decide; [|done]. intros [= <- <-]. simpl.
  rewrite take_drop, length_take. split_and!; [done|lia|done].
Qed.

Lemma encode_chars c p :
  len p + 1 < 2 ^ 32 ->
  chars (encodeMilterFrame c p) = (BigEndian_PutUint32 (1 + len p) ++ c :: chars p)%list.
Proof.
  intros Hp. unfold encodeMilterFrame. rewrite chars_of_chars, u32_small; [done|].
  unfold len in *. lia.
Qed.

Lemma readMilterFrame_encode c p rest e :
  len p + 1 < 2 ^ 32 ->
  readMilterFrame {| in_bytes := chars (encodeMilterFrame c p) ++ rest; in_end := e |} =
    (Ok {| Command := c; Payload := p; Raw := encodeMilterFrame c p |},
     {| in_bytes := rest; in_end := e |}).
Proof.
  intros Hp. assert (0 <= len p) as H0 by (unfold len; lia).
  unfold readMilterFrame. rewrite encode_chars, <-app_assoc by done.
  change 4%nat with (length (BigEndian_PutUint32 (1 + len p))).
  rewrite io_ReadFull_app, Uint32_PutUint32 by lia.
  rewrite (proj2 (Z.ltb_ge _ _)) by lia.
  replace (Z.to_nat (1 + len p)) with (length (c :: chars p)).
  2: { simpl. rewrite length_chars. unfold len. lia. }
  rewrite io_ReadFull_app. simpl. by rewrite drop_0, of_chars_chars.
Qed.

Lemma readMilterFrame_ok s f s' :
  readMilterFrame s = (Ok f, s') ->
  in_bytes s = (chars (Raw f) ++ in_bytes s')%list /\ in_end s' = in_end s /\
  Raw f = encodeMilterFrame (Command f) (Payload f) /\ len (Payload f) + 1 < 2 ^ 32.
Proof.
  unfold readMilterFrame. destruct (io_ReadFull 4 s) as [[l4|] s1] eqn:E1; [|done].
  apply io_ReadFull_ok in E1 as (Hs & Hl4 & He1).
  destruct (BigEndian_Uint32 l4 <? 1) eqn:Ez; [done|]. apply Z.ltb_ge in Ez.
  destruct (io_ReadFull _ s1) as [[l|] s2] eqn:E2; [|done].
  apply io_ReadFull_ok in E2 as (Hs1 & Hl & He2). intros [= <- <-].
  pose proof (Uint32_range l4 Hl4) as Hr.
  destruct l as [|c p]; [simpl in Hl; lia|].
  change (drop 1 (c :: p)) with (drop 0 p). rewrite drop_0.
  change (default zero ((c :: p) !! 0%nat)) with c. cbn [Raw Payload Command]. simpl in Hl.
  assert (1 + len (of_chars p) = BigEndian_Uint32 l4) as Hlen.
  { unfold len. rewrite <-length_chars, chars_of_chars. lia. }
  split_and!; [|congruence|done|lia].
  rewrite encode_chars by lia. rewrite Hlen, PutUint32_Uint32, chars_of_chars by done.
  rewrite Hs, Hs1. by rewrite <-app_assoc.
Qed.

Lemma readMilterFrame_shorter s f s' :
  readMilterFrame s = (Ok f, s') -> (length (in_bytes s') < length (in_bytes s))%nat.
Proof.
  intros (E & _ & Hr & Hb)%readMilterFrame_ok. rewrite E, length_app, Hr, encode_chars by done.
  rewrite length_app, length_PutUint32. lia.
Qed.
End codec.

Section receive_lemmas.
Context (time_Since : Z).

Lemma receive_fuel fuel s req raw :
  (length (in_bytes (c_in (ms_conn s))) < fuel)%nat ->
  exists r, receiveLoop time_Since fuel s req raw = Some r.
Proof.
  revert s raw. induction fuel as [|fuel IH]; intros s raw Hf; [lia|]. simpl.
  destruct (readMilterFrame (c_in (ms_conn s))) as [[f|e] i] eqn:E; [|by eexists].
  destruct (milterReplyCompletesRequest req (Command f)); simpl; [by eexists|].
  apply IH. simpl. apply readMilterFrame_shorter in E. lia.
Qed.

Lemma wire_one c p : wire [(c, p)] = chars (encodeMilterFrame c p).
Proof. unfold wire. rewrite bind_cons. apply app_nil_r. Qed.

(** Frames that do not complete the request are collected. *)
Lemma receiveLoop_skip fuel s req raw fs rest :
  Forall frame_fits fs ->
  Forall (fun f => milterReplyCompletesRequest req (fst f) = false) fs ->
  in_bytes (c_in (ms_conn s)) = (wire fs ++ rest)%list ->
  receiveLoop time_Since (length fs + fuel) s req raw =
    receiveLoop time_Since fuel
      (with_in s {| in_bytes := rest; in_end := in_end (c_in (ms_conn s)) |}) req
      (raw +:+ of_chars (wire fs)).
Proof.
  revert s raw. induction fs as [|[c p] fs IH]; intros s raw Hfit Hreq Hin; simpl.
  { assert (with_in s {| in_bytes := rest; in_end := in_end (c_in (ms_conn s)) |} = s) as ->.
    { destruct s as [[[? ?] ? ?] ? ? ? ?]. simpl in *. by subst. }
    by rewrite app_empty_r. }
  apply Forall_cons_1 in Hfit as [Hf Hfit], Hreq as [Hr Hreq].
  unfold wire in Hin. rewrite bind_cons in Hin. fold (wire fs) in Hin. simpl in Hin.
  rewrite <-app_assoc in Hin.
  assert (c_in (ms_conn s) = {| in_bytes := chars (encodeMilterFrame c p) ++ wire fs ++ rest;
            in_end := in_end (c_in (ms_conn s)) |}) as ->.
  { destruct (c_in (ms_conn s)). simpl in *. by subst. }
  rewrite readMilterFrame_encode by done. simpl in *. rewrite Hr. simpl.
  rewrite IH; [|done|done|done]. simpl. f_equal.
  rewrite of_chars_app, of_chars_chars, app_assoc_s. done.
Qed.
End receive_lemmas.

(** C39. Frames round-trip: reading the encoding of a frame that fits the
    length field, whatever follows, gives the frame back with its raw bytes and
    leaves exactly what follows; and conversely whatever is read as a frame is
    the encoding of that frame, so relaying [Raw] relays the bytes received. *)
Theorem frame_roundtrip command payload rest e s f s' :
  (len payload + 1 < 2 ^ 32 ->
   readMilterFrame {| in_bytes := chars (encodeMilterFrame command payload) ++ rest; in_end := e |} =
     (Ok {| Command := command; Payload := payload; Raw := encodeMilterFrame command payload |},
      {| in_bytes := rest; in_end := e |})) /\
  (readMilterFrame s = (Ok f, s') ->
   in_bytes s = (chars (Raw f) ++ in_bytes s')%list /\ in_end s' = in_end s /\
   Raw f = encodeMilterFrame (Command f) (Payload f)).
Proof.
  split; [apply readMilterFrame_encode|].
  intros (? & ? & ? & _)%readMilterFrame_ok. done.
Qed.

Section receive_props.
Context (time_Since : Z).

(** [Receive] always returns.  When the peer sends frames that do not
    complete the request and then one that does, the response carries the raw
    bytes of all of them in order and the decision of the last, and the bytes
    after it stay on the connection for the next turn.  When the stream breaks
    first, the error is returned with the frames read so far.  Each turn is
    observed once. *)
Theorem milter_Receive_spec s fs rest :
  let c := ms_conn s in let req := requestCommand s in
  let after := with_in s {| in_bytes := rest; in_end := in_end (c_in c) |} in
  Forall frame_fits fs -> Forall (fun f => milterReplyCompletesRequest req (fst f) = false) fs ->
  (exists r, milter_Receive time_Since s = Some r) /\
  (forall cmd payload, frame_fits (cmd, payload) -> milterReplyCompletesRequest req cmd = true ->
     in_bytes (c_in c) = (wire fs ++ wire [(cmd, payload)] ++ rest)%list ->
     exists resp, milter_Receive time_Since s =
         Some ((resp, None), finishObservation after (milterDecision cmd) ResultOK) /\
       p_Raw resp = of_chars (wire (fs ++ [(cmd, payload)])) /\
       p_Decision resp = milterDecision cmd /\ p_Err resp = None) /\
  (forall err, in_bytes (c_in c) = (wire fs ++ rest)%list ->
     readMilterFrame {| in_bytes := rest; in_end := in_end (c_in c) |} =
       (Err err, {| in_bytes := []; in_end := in_end (c_in c) |}) ->
     exists resp, milter_Receive time_Since s =
         Some ((resp, Some err),
               finishObservation (with_in s {| in_bytes := []; in_end := in_end (c_in c) |})
                 StatusError ResultError) /\
       p_Raw resp = of_chars (wire fs) /\ p_Err resp = Some err).
Proof.
  intros c req after Hfit Hreq. unfold milter_Receive. fold req c.
  split; [apply receive_fuel, Nat.lt_succ_diag_r|].
  assert (forall l, in_bytes (c_in c) = (wire fs ++ l)%list ->
    exists k, S (length (in_bytes (c_in c))) = (length fs + S k)%nat) as Hfuel.
  { intros l ->. exists (length (wire fs ++ l) - length fs)%nat.
    assert (length fs <= length (wire fs))%nat; [|rewrite length_app; lia].
    clear Hreq. induction fs as [|[cm pl] fs IH]; [done|].
    apply Forall_cons_1 in Hfit as [Hf Hfit]. unfold wire. rewrite bind_cons. fold (wire fs).
    cbn [fst snd]. rewrite length_app, encode_chars, length_app, length_PutUint32 by done.
    specialize (IH Hfit). change (length ((cm, pl) :: fs)) with (S (length fs)). lia. }
  split.
  - intros cmd payload Hf Hc Hin. destruct (Hfuel _ Hin) as [k ->].
    rewrite (receiveLoop_skip _ _ _ _ _ fs (wire [(cmd, payload)] ++ rest)) by done.
    rewrite wire_one. cbn [receiveLoop].
    unfold with_in at 1. cbn [ms_conn c_in]. rewrite readMilterFrame_encode by done.
    cbn [Command]. rewrite Hc. cbn [negb]. eexists. split; [done|]. simpl. split_and!; [|done..].
    unfold wire. rewrite bind_app, of_chars_app. fold (wire fs) (wire [(cmd, payload)]).
    by rewrite wire_one, of_chars_chars.
  - intros err Hin Herr. destruct (Hfuel _ Hin) as [k ->].
    rewrite (receiveLoop_skip _ _ _ _ _ fs rest) by done. simpl. fold c. rewrite Herr.
    eexists. split; [done|]. done.
Qed.
End receive_props.

(** A session that has sent an end-of-message command and whose peer answers
    with one action and a disposition. *)
Definition exampleSession : milterSession :=
  {| ms_conn := {| c_in := {| in_bytes := wire [("h"%char, "X"); ("a"%char, "")]; in_end := io_EOF |};
                   c_out := []; c_werr := None |};
     ms_addr := "b:1"; ms_target := TargetPrimary; ms_command := "E"; ms_obs := None |}.

Lemma frame_roundtrip_witness :
  readMilterFrame {| in_bytes := chars (encodeMilterFrame "D" "x") ++ []; in_end := io_EOF |} =
    (Ok {| Command := "D"; Payload := "x"; Raw := encodeMilterFrame "D" "x" |},
     {| in_bytes := []; in_end := io_EOF |}).
Proof.
  apply (proj1 (frame_roundtrip "D" "x" [] io_EOF {| in_bytes := []; in_end := io_EOF |}
    {| Command := "D"; Payload := ""; Raw := "" |} {| in_bytes := []; in_end := io_EOF |})).
  reflexivity.
Defined.

Lemma milter_Receive_spec_witness :
  exists resp s', milter_Receive 0 exampleSession = Some ((resp, None), s') /\
    p_Decision resp = DecisionAccept.
Proof.
  destruct (milter_Receive_spec 0 exampleSession [("h"%char, "X")] []) as (_ & H & _).
  - repeat constructor.
  - repeat constructor.
  - destruct (H "a"%char "") as (resp & E & _ & Hd & _); [reflexivity..|].
    exists resp. eexists. split; [exact E|exact Hd].
Defined.
End milter.
