(* ===== verification/Milterproxy.v ===== *)
(** * [internal/milterproxy]: macros, the shadow worker and the connection loop *)
From S2P Require Export MilterCodec Logging Observability.

(** ** [macros.go] *)

Module macros.
Import milter logging.

Record MilterMacro := { mm_Name : string; mm_Macro : string }.

(** A missing or nil table reads as empty. *)
Abbreviation tables := (gmap ascii (gmap string string)).
Record macroState := {
  fields : list MilterMacro;
  pending : tables;
  active : tables;
  connection : Z;
  message : Z
}.

Definition newMacroState (fs : list MilterMacro) (id : Z) : macroState :=
  {| fields := fs; pending := ∅; active := ∅; connection := id; message := 0 |}.

Definition table (t : tables) (stage : ascii) : gmap string string := default ∅ (t !! stage).

Definition stages : list ascii := ["C"; "H"; "M"; "R"; "T"; "N"; "E"]%char.
Definition messageStages : list ascii := ["M"; "R"; "T"; "N"; "E"]%char.

Definition with_tables (s : macroState) (p a : tables) : macroState :=
  {| fields := fields s; pending := p; active := a; connection := connection s;
     message := message s |}.
Definition with_message (s : macroState) (n : Z) : macroState :=
  {| fields := fields s; pending := pending s; active := active s; connection := connection s;
     message := n |}.

Definition deleteAll (t : tables) (l : list ascii) : tables := foldl (fun t k => delete k t) t l.
Definition clearActiveMessage (s : macroState) : macroState :=
  with_tables s (pending s) (deleteAll (active s) messageStages).
Definition clearMessage (s : macroState) : macroState :=
  let s := clearActiveMessage s in
  with_tables s (deleteAll (pending s) messageStages) (active s).

Definition macroName (name : string) : string := TrimSuffix (TrimPrefix name "{") "}".
Definition selected (s : macroState) (name : string) : bool :=
  existsb (fun f => bool_decide (macroName (mm_Macro f) = name)) (fields s).

(** The loop of [define] over name and value pairs: [None] is an early return. *)
Fixpoint definePairs (s : macroState) (pairs : list string) (values : gmap string string)
    (total : Z) : option (gmap string string) :=
  match pairs with
  | raw :: value :: pairs' =>
      let name := macroName raw in
      if decide (name = "") then None
      else if negb (selected s name) || (4096 <? len value) || negb (utf8_ValidString value)
      then definePairs s pairs' values total
      else
        let total := total + len value in
        if 16384 <? total then None
        else definePairs s pairs' (<[name := value]> values) total
  | _ => Some values
  end.

Definition define (s : macroState) (payload : string) : macroState :=
  match payload with
  | "" => with_tables s ∅ ∅
  | String stage rest =>
      let s := with_tables s (delete stage (pending s)) (delete stage (active s)) in
      if negb (bool_decide (stage ∈ stages)) then s
      else if 65536 <? len payload then s
      else
        let pairs := Split rest zero in
        if negb (bool_decide (default "" (last pairs) = "")) ||
           negb (Nat.odd (length pairs))
        then s
        else match definePairs s pairs ∅ 0 with
             | None => s
             | Some values => with_tables s (<[stage := values]> (pending s)) (active s)
             end
  end.

(** One table laid over the values collected so far. *)
Definition snapshotValues (s : macroState) : gmap string string :=
  foldl (fun values stage => table (active s) stage ∪ values) ∅ stages.

Section snapshot.
Context `{Unicode}.

Fixpoint snapshotAttrs (values : gmap string string) (fs : list MilterMacro) (total : Z)
    : list Attr :=
  match fs with
  | [] => []
  | f :: fs' =>
      let value := default "" (values !! macroName (mm_Macro f)) in
      if bool_decide (value = "") || (16384 <? total + len value)
      then snapshotAttrs values fs' total
      else (FieldKey (mm_Name f), StringValue value) ::
           snapshotAttrs values fs' (total + len value)
  end.

Definition snapshot (s : macroState) : list Attr :=
  [("milter_connection_id", Uint64Value (connection s));
   ("milter_message_number", Uint64Value (message s));
   ("milter_macros", GroupValue (snapshotAttrs (snapshotValues s) (fields s) 0))].

(** [observe]: the attributes of the frame and the state after it. *)
Definition observe (s : macroState) (frame : MilterFrame) : list Attr * macroState :=
  let c := Command frame in
  if decide (c = "D"%char) then
    let s := define s (Payload frame) in (snapshot s, s)
  else
    let s :=
      if decide (c = "C"%char) then
        with_tables s {["C"%char := table (pending s) "C"]} ∅
      else if decide (c = "H"%char) then
        clearMessage (with_tables s (pending s) (delete "H"%char (active s)))
      else if decide (c = "M"%char) then
        let p := table (pending s) "M" in
        let s := clearMessage s in
        with_message (with_tables s (<["M"%char := p]> (pending s)) (active s)) (u64 (message s + 1))
      else s in
    let s :=
      if decide (c ∈ stages)
      then with_tables s (delete c (pending s)) (<[c := table (pending s) c]> (active s))
      else s in
    let attrs := snapshot s in
    let s :=
      if decide (c = "E"%char \/ c = "A"%char) then clearMessage s
      else if decide (c = "K"%char \/ c = "Q"%char) then with_tables s ∅ ∅
      else s in
    (attrs, s).
End snapshot.

(** ** Specification and lemmas *)

(** Every stored macro is configured, valid and bounded. *)
Definition value_ok (fs : list MilterMacro) (name value : string) : Prop :=
  (exists f, f ∈ fs /\ macroName (mm_Macro f) = name) /\ len value <= 4096 /\
  utf8_ValidString value = true.
Definition table_ok (fs : list MilterMacro) (t : gmap string string) : Prop :=
  map_Forall (value_ok fs) t.
Definition tables_ok (fs : list MilterMacro) (t : tables) : Prop :=
  map_Forall (fun stage tab => stage ∈ stages /\ table_ok fs tab) t.
Definition state_ok (s : macroState) : Prop :=
  tables_ok (fields s) (pending s) /\ tables_ok (fields s) (active s).

(** No macro of a message stage is known. *)
Definition no_message (t : tables) : Prop := forall stage, stage ∈ messageStages -> t !! stage = None.

Definition attrsLength (attrs : list Attr) : Z :=
  foldr (fun a n => (match a.2 with StringValue v => len v | _ => 0 end) + n) 0 attrs.

Section lemmas.
Implicit Types (s : macroState) (t : tables).

Lemma lookup_deleteAll t l k : deleteAll t l !! k = if decide (k ∈ l) then None else t !! k.
Proof.
  revert t. induction l as [|x l IH]; intros t.
  { by rewrite decide_False by (by intros ?%not_elem_of_nil). }
  change (deleteAll t (x :: l)) with (deleteAll (delete x t) l). rewrite IH. destruct (decide (k ∈ l)).
  - by rewrite decide_True by by right.
  - destruct (decide (k = x)) as [->|].
    + by rewrite decide_True, lookup_delete_eq by by left.
    + rewrite decide_False, lookup_delete_ne by (congruence || set_solver). done.
Qed.

Lemma tables_ok_sub fs t t' :
  (forall k v, t' !! k = Some v -> t !! k = Some v) -> tables_ok fs t -> tables_ok fs t'.
Proof. intros Hs Ht k v Hk. by apply Ht, Hs. Qed.

Lemma tables_ok_delete fs t k : tables_ok fs t -> tables_ok fs (delete k t).
Proof. apply tables_ok_sub. intros k' v. rewrite lookup_delete_Some. tauto. Qed.

Lemma tables_ok_deleteAll fs t l : tables_ok fs t -> tables_ok fs (deleteAll t l).
Proof. apply tables_ok_sub. intros k v. rewrite lookup_deleteAll. by case_decide. Qed.

Lemma tables_ok_insert fs t k v :
  k ∈ stages -> table_ok fs v -> tables_ok fs t -> tables_ok fs (<[k := v]> t).
Proof. intros Hk Hv Ht k' v' [[<- <-]|[_ Hl]]%lookup_insert_Some; [done|]. by apply Ht. Qed.

Lemma tables_ok_empty fs : tables_ok fs ∅.
Proof. apply map_Forall_empty. Qed.

Lemma table_ok_table fs t k : tables_ok fs t -> table_ok fs (table t k).
Proof.
  intros Ht. unfold table. destruct (t !! k) as [v|] eqn:E; simpl; [by eapply Ht|].
  apply map_Forall_empty.
Qed.

Lemma definePairs_ok s pairs values total r :
  table_ok (fields s) values -> definePairs s pairs values total = Some r -> table_ok (fields s) r.
Proof.
  revert values total. induction pairs as [pairs IH] using length_ind. intros values total Hv.
  destruct pairs as [|raw [|value pairs]]; simpl; [by intros [= <-]..|].
  case_decide as Hn; [done|].
  destruct (selected s (macroName raw)) eqn:Es, (Z.ltb_spec 4096 (len value)),
    (utf8_ValidString value) eqn:Eu; simpl; try (apply IH; [simpl; lia|done]).
  destruct (16384 <? total + len value); [done|]. apply IH; [simpl; lia|].
  apply map_Forall_insert_2; [|done]. split_and!; [|lia|done].
  unfold selected in Es. apply existsb_exists in Es as (f & Hf & Hd).
  apply bool_decide_eq_true in Hd. exists f. by rewrite list_elem_of_In.
Qed.

Lemma define_ok s payload : state_ok s -> state_ok (define s payload).
Proof.
  intros [Hp Ha]. destruct payload as [|stage rest]; simpl.
  { split; apply tables_ok_empty. }
  assert (state_ok (with_tables s (delete stage (pending s)) (delete stage (active s)))) as Hs
    by (split; by apply tables_ok_delete).
  case_bool_decide as Hst; simpl; [|done]. case_match; [done|]. case_match; [done|].
  destruct (definePairs _ _ _ _) as [values|] eqn:E; [|done].
  split; simpl; [|apply Hs]. apply tables_ok_insert; [done| |apply Hs].
  eapply definePairs_ok in E; [done|apply map_Forall_empty].
Qed.

Lemma clearMessage_spec s :
  fields (clearMessage s) = fields s /\ message (clearMessage s) = message s /\
  connection (clearMessage s) = connection s /\
  no_message (pending (clearMessage s)) /\ no_message (active (clearMessage s)) /\
  (state_ok s -> state_ok (clearMessage s)).
Proof.
  assert (pending (clearMessage s) = deleteAll (pending s) messageStages) as Ep by done.
  assert (active (clearMessage s) = deleteAll (active s) messageStages) as Ea by done.
  unfold no_message, state_ok. rewrite Ep, Ea. split_and!; [done..| | |].
  - intros st Hst. by rewrite lookup_deleteAll, decide_True.
  - intros st Hst. by rewrite lookup_deleteAll, decide_True.
  - change (fields (clearMessage s)) with (fields s).
    intros [Hp Ha]. split; by apply tables_ok_deleteAll.
Qed.

Context `{Unicode}.

Lemma snapshotAttrs_bound values fs total :
  total <= 16384 -> total + attrsLength (snapshotAttrs values fs total) <= 16384.
Proof.
  revert total. induction fs as [|f fs IH]; intros total Ht; simpl; [lia|].
  destruct (bool_decide _ || (16384 <? _)) eqn:E; [by apply IH|].
  apply orb_false_iff in E as [_ E%Z.ltb_ge]. specialize (IH _ E). simpl. lia.
Qed.

Lemma snapshotAttrs_in values fs total k v :
  (k, v) ∈ snapshotAttrs values fs total ->
  exists f value, f ∈ fs /\ k = FieldKey (mm_Name f) /\ v = StringValue value /\ value <> "" /\
    values !! macroName (mm_Macro f) = Some value.
Proof.
  revert total. induction fs as [|f fs IH]; intros total; simpl; [by intros ?%not_elem_of_nil|].
  destruct (bool_decide _ || (16384 <? _)) eqn:E.
  - intros (f' & w & ? & ?)%IH. exists f', w. split; [by right|done].
  - apply orb_false_iff in E as [Hne%bool_decide_eq_false _].
    intros [[= -> ->]|Hin]%elem_of_cons.
    + exists f, (default "" (values !! macroName (mm_Macro f))).
      destruct (values !! macroName (mm_Macro f)) as [w|]; [|done].
      split_and!; try done. by left.
    + apply IH in Hin as (f' & w & ? & ?). exists f', w. split; [by right|done].
Qed.

Lemma snapshotValues_in s name value :
  snapshotValues s !! name = Some value ->
  exists stage, stage ∈ stages /\ table (active s) stage !! name = Some value.
Proof.
  unfold snapshotValues. generalize stages as l. intros l.
  assert (forall values, foldl (fun values stage => table (active s) stage ∪ values) values l !! name
    = Some value -> values !! name = Some value \/
      exists stage, stage ∈ l /\ table (active s) stage !! name = Some value) as Hf.
  { induction l as [|st l IH]; intros values; simpl; [by left|].
    intros [Hu|(st' & ? & ?)]%IH; [|right; exists st'; split; [by right|done]].
    apply lookup_union_Some_raw in Hu as [Hu|[_ Hu]]; [right; exists st; split; [by left|done]|by left]. }
  intros [He|Hs]%Hf; [by apply lookup_empty_Some in He|done].
Qed.
End lemmas.

Section observe_props.
Context `{Unicode}.

Lemma snapshot_ok s k v :
  state_ok s -> (k, v) ∈ snapshotAttrs (snapshotValues s) (fields s) 0 ->
  exists f value, f ∈ fields s /\ k = FieldKey (mm_Name f) /\ v = StringValue value /\
    value <> "" /\ value_ok (fields s) (macroName (mm_Macro f)) value.
Proof.
  intros [_ Ha] (f & value & Hf & -> & -> & Hne & (stage & _ & Hl)%snapshotValues_in)%snapshotAttrs_in.
  exists f, value. split_and!; try done. by apply (table_ok_table _ _ stage Ha).
Qed.

(** The state before the frame's stage is activated. *)
Definition begin (s : macroState) (c : ascii) : macroState :=
  if decide (c = "C"%char) then with_tables s {["C"%char := table (pending s) "C"]} ∅
  else if decide (c = "H"%char) then
    clearMessage (with_tables s (pending s) (delete "H"%char (active s)))
  else if decide (c = "M"%char) then
    let p := table (pending s) "M" in
    let s := clearMessage s in
    with_message (with_tables s (<["M"%char := p]> (pending s)) (active s)) (u64 (message s + 1))
  else s.
Definition activate (s : macroState) (c : ascii) : macroState :=
  if decide (c ∈ stages)
  then with_tables s (delete c (pending s)) (<[c := table (pending s) c]> (active s))
  else s.

Lemma begin_ok s c : state_ok s -> state_ok (begin s c).
Proof.
  intros [Hp Ha]. unfold begin.
  destruct (decide (c = "C"%char)); [|destruct (decide (c = "H"%char));
    [|destruct (decide (c = "M"%char)); [|done]]].
  - split; simpl; [|apply tables_ok_empty]. apply tables_ok_insert; [by left| |apply tables_ok_empty].
    by apply table_ok_table.
  - apply clearMessage_spec. split; [done|by apply tables_ok_delete].
  - pose proof (clearMessage_spec s) as (_ & _ & _ & _ & _ & Hok). destruct (Hok (conj Hp Ha)) as [Hp' Ha'].
    split; [|done]. apply tables_ok_insert; [set_solver| |done]. by apply table_ok_table.
Qed.

Lemma activate_ok s c : state_ok s -> state_ok (activate s c).
Proof.
  intros [Hp Ha]. unfold activate. case_decide; [|done].
  split; [by apply tables_ok_delete|]. apply tables_ok_insert; [done|by apply table_ok_table|done].
Qed.

Lemma observe_eq s frame :
  Command frame <> "D"%char ->
  observe s frame =
    (let s1 := activate (begin s (Command frame)) (Command frame) in
     (snapshot s1,
      if decide (Command frame = "E"%char \/ Command frame = "A"%char) then clearMessage s1
      else if decide (Command frame = "K"%char \/ Command frame = "Q"%char) then with_tables s1 ∅ ∅
      else s1)).
Proof. intros Hd. unfold observe. by rewrite decide_False. Qed.

Lemma begin_fields s c :
  fields (begin s c) = fields s /\ connection (begin s c) = connection s /\
  message (begin s c) = if decide (c = "M"%char) then u64 (message s + 1) else message s.
Proof.
  unfold begin. destruct (decide (c = "C"%char)) as [->|]; [done|].
  destruct (decide (c = "H"%char)) as [->|]; [done|]. by destruct (decide (c = "M"%char)).
Qed.

Lemma activate_fields s c :
  fields (activate s c) = fields s /\ connection (activate s c) = connection s /\
  message (activate s c) = message s.
Proof. unfold activate. by case_decide. Qed.

(** Observing a frame keeps the stored macros well formed: only
    configured macros are stored, each valid UTF-8 of at most 4096 bytes.  What
    is logged for a frame are configured macros in their order whose values add
    up to at most 16 KiB.  A message's macros do not outlive it: after
    end-of-message or abort none of its stages is known, MAIL starts with its
    own macros only and counts a new message, and quit forgets everything. *)
Theorem observe_spec s frame :
  state_ok s ->
  let '(attrs, s') := observe s frame in
  let c := Command frame in
  state_ok s' /\ fields s' = fields s /\ connection s' = connection s /\
  message s' = (if decide (c = "M"%char) then u64 (message s + 1) else message s) /\
  (exists macros, attrs = [("milter_connection_id", Uint64Value (connection s'));
                           ("milter_message_number", Uint64Value (message s'));
                           ("milter_macros", GroupValue macros)] /\
     attrsLength macros <= 16384 /\
     forall k v, (k, v) ∈ macros ->
       exists f value, f ∈ fields s /\ k = FieldKey (mm_Name f) /\ v = StringValue value /\
         value <> "" /\ value_ok (fields s) (macroName (mm_Macro f)) value) /\
  (c = "E"%char \/ c = "A"%char -> no_message (pending s') /\ no_message (active s')) /\
  (c = "K"%char \/ c = "Q"%char -> pending s' = ∅ /\ active s' = ∅) /\
  (c = "M"%char -> forall stage, stage ∈ messageStages -> stage <> "M"%char ->
     pending s' !! stage = None /\ active s' !! stage = None).
Proof.
  intros Hok. destruct (decide (Command frame = "D"%char)) as [Hd|Hd].
  { unfold observe. rewrite decide_True by done. pose proof (define_ok s (Payload frame) Hok) as Hok'.
    assert (fields (define s (Payload frame)) = fields s /\
      connection (define s (Payload frame)) = connection s /\
      message (define s (Payload frame)) = message s) as (E1 & E2 & E3).
    { unfold define. repeat case_match; done. }
    rewrite Hd. split_and!; try done; try (intros [?|?]; done).
    eexists. split; [done|]. split; [by apply (snapshotAttrs_bound _ _ 0)|].
    intros k v Hin. rewrite <-E1. by apply snapshot_ok. }
  rewrite observe_eq by done. cbv zeta.
  set (s1 := activate (begin s (Command frame)) (Command frame)).
  assert (state_ok s1) as Hok1 by by apply activate_ok, begin_ok.
  pose proof (begin_fields s (Command frame)) as (B1 & B2 & B3).
  pose proof (activate_fields (begin s (Command frame)) (Command frame)) as (A1 & A2 & A3).
  fold s1 in A1, A2, A3. rewrite B1 in A1. rewrite B2 in A2. rewrite B3 in A3.
  pose proof (clearMessage_spec s1) as (C1 & C2 & C3 & C4 & C5 & C6).
  set (s' := if decide (Command frame = "E"%char \/ Command frame = "A"%char) then clearMessage s1
      else if decide (Command frame = "K"%char \/ Command frame = "Q"%char) then with_tables s1 ∅ ∅
      else s1).
  assert (state_ok s' /\ fields s' = fields s1 /\ connection s' = connection s1 /\
    message s' = message s1) as (D1 & D2 & D3 & D4).
  { clearbody s1. unfold s'.
    destruct (decide (Command frame = "E"%char \/ Command frame = "A"%char)); [by auto|].
    destruct (decide (Command frame = "K"%char \/ Command frame = "Q"%char)); [|done].
    by split_and!. }
  split_and!; [done|congruence|congruence|congruence|..].
  - exists (snapshotAttrs (snapshotValues s1) (fields s1) 0). split.
    { unfold snapshot. by rewrite D3, D4. }
    split; [by apply (snapshotAttrs_bound _ _ 0)|]. intros k v Hin. rewrite <-A1. by apply snapshot_ok.
  - intros Hc. unfold s'. by rewrite decide_True.
  - intros Hc. unfold s'. rewrite decide_False by (intros [?|?]; destruct Hc; congruence). by rewrite decide_True.
  - intros Hc stage Hst Hne. unfold s'. rewrite !decide_False by (rewrite Hc; by intros [?|?]).
    unfold s1, activate. rewrite decide_True by (rewrite Hc; set_solver). rewrite Hc.
    unfold begin. rewrite !decide_False by done. rewrite decide_True by done.
    pose proof (clearMessage_spec s) as (_ & _ & _ & N1 & N2 & _).
    cbn [pending active with_tables with_message].
    rewrite lookup_delete_ne, !lookup_insert_ne by done. split; [by apply N1|by apply N2].
Qed.
End observe_props.

Lemma observe_spec_witness :
  let H := asciiUnicode in
  let s := newMacroState [{| mm_Name := "q"; mm_Macro := "i" |}] 1 in
  state_ok s /\ state_ok (observe s {| Command := "D"; Payload := String "M" "i"; Raw := "" |}).2.
Proof.
  intros H s. assert (state_ok s) as Hs by (split; apply tables_ok_empty).
  split; [exact Hs|].
  pose proof (observe_spec s {| Command := "D"; Payload := String "M" "i"; Raw := "" |} Hs) as Ho.
  destruct (observe s {| Command := "D"; Payload := String "M" "i"; Raw := "" |}). apply Ho.
Defined.
End macros.
