(* ===== verification/ConfigLogFields.v ===== *)
(** * [internal/config]: the opt-in log fields ([log_fields.go], [protocol_log_fields.go])

    The YAML decoding of the aliases ([json_log_fields.go]) is the library's;
    what the program decides is which selections it accepts. *)
From S2P Require Export Protobuf Milterproxy.

Module logfields.
Import logging protobuf macros.

Record ProtobufLogRule := {
  plr_Method : string;
  plr_Request : list ProtobufField;
  plr_Response : list ProtobufField
}.

(** The JSON maps are their pairs in range order. *)
Record LogFieldsConfig := {
  GRPCMessages : list ProtobufLogRule;
  MilterMacros : list MilterMacro;
  RequestJSON : list (string * string);
  ResponseJSON : list (string * string);
  RequestHeaders : list string;
  ResponseHeaders : list string;
  RequestMetadata : list string;
  ResponseMetadata : list string
}.

Definition logRequestJSON : string := "request_json".
Definition logResponseJSON : string := "response_json".

Fixpoint findRule (rules : list ProtobufLogRule) (method : string) : ProtobufLogRule :=
  match rules with
  | [] => {| plr_Method := ""; plr_Request := []; plr_Response := [] |}
  | rule :: rules' => if decide (plr_Method rule = method) then rule else findRule rules' method
  end.
Definition ProtobufRule (cfg : LogFieldsConfig) (method : string) : ProtobufLogRule :=
  findRule (GRPCMessages cfg) method.

Definition logMetadataRune (r : Z) : bool :=
  ((97 <=? r) && (r <=? 122)) || ((48 <=? r) && (r <=? 57)) || (r =? 45) || (r =? 95) || (r =? 46).
Definition validLogMetadataKey (key : string) : bool :=
  if HasSuffix key "-bin" then false else forallb logMetadataRune (runes key).

Definition macroRune (r : Z) : bool :=
  ((97 <=? r) && (r <=? 122)) || ((65 <=? r) && (r <=? 90)) || ((48 <=? r) && (r <=? 57)) || (r =? 95).
Definition validMacroName (name : string) : bool := forallb macroRune (runes name).

(** An [error] that is nil when the first one is. *)
Definition orElse (e : option error) (rest : option error) : option error :=
  match e with Some e => Some e | None => rest end.

Section validate.
Context `{Unicode} (json_UnmarshalString : string -> option string).

(** The loop over one allowlist. *)
Fixpoint validateNames (name : string) (metadata : bool) (seen : list string) (fields : list string)
    : option error :=
  match fields with
  | [] => None
  | field :: fields' =>
      if negb (ValidHeaderFieldName field) || (metadata && negb (validLogMetadataKey field))
      then Some (errors_New ("log_fields." +:+ name +:+ ": invalid field " +:+ Quote field))
      else
        let key := FieldKey field in
        if decide (key ∈ seen)
        then Some (errors_New ("log_fields." +:+ name +:+ ": duplicate normalized key " +:+ Quote key))
        else validateNames name metadata (key :: seen) fields'
  end.

Fixpoint validateMilterMacros_loop (seen : list string) (fields : list MilterMacro) : option error :=
  match fields with
  | [] => None
  | f :: fields' =>
      let key := FieldKey (mm_Name f) in
      if negb (ValidFieldAlias (mm_Name f)) || bool_decide (key ∈ seen)
      then Some (errors_New ("invalid or duplicate Milter macro alias " +:+ Quote (mm_Name f)))
      else
        let name := TrimSuffix (TrimPrefix (mm_Macro f) "{") "}" in
        if (len name =? 0) || (64 <? len name) || negb (validMacroName name)
        then Some (errors_New ("invalid Milter macro " +:+ Quote (mm_Macro f)))
        else if negb (Bool.eqb (HasPrefix (mm_Macro f) "{") (HasSuffix (mm_Macro f) "}"))
        then Some (errors_New ("unbalanced Milter macro " +:+ Quote (mm_Macro f)))
        else validateMilterMacros_loop (key :: seen) fields'
  end.
Definition validateMilterMacros (fields : list MilterMacro) : option error :=
  validateMilterMacros_loop [] fields.

Definition exactMethod (method : string) : bool :=
  match Split method "/" with
  | [a; b; c] => bool_decide (a = "") && bool_decide (b <> "") && bool_decide (c <> "")
  | _ => false
  end.
Definition starOrSpace : string := of_chars ["*"%char; " "%char; chr 9; chr 10].

Fixpoint validateMessageRules (seen : list string) (rules : list ProtobufLogRule) : option error :=
  match rules with
  | [] => None
  | rule :: rules' =>
      let method := plr_Method rule in
      if negb (exactMethod method) || ContainsAny method starOrSpace || bool_decide (method ∈ seen)
      then Some (errors_New ("invalid or duplicate full gRPC method " +:+ Quote method))
      else
        let wrap e := errors_Wrap ("log_fields.grpc_messages " +:+ method +:+ ": " +:+ Error e) e in
        match ValidateProtobufFields (plr_Request rule) with
        | Some e => Some (wrap e)
        | None =>
            match ValidateProtobufFields (plr_Response rule) with
            | Some e => Some (wrap e)
            | None => validateMessageRules (method :: seen) rules'
            end
        end
  end.

Definition validateProtocolLogFields (cfg : LogFieldsConfig) : option error :=
  if (128 <? Z.of_nat (length (GRPCMessages cfg))) || (32 <? Z.of_nat (length (MilterMacros cfg)))
  then Some (errors_New "too many protocol log field selections")
  else orElse (validateMessageRules [] (GRPCMessages cfg)) (validateMilterMacros (MilterMacros cfg)).

(** The loop over one JSON map; the selector parser has enough fuel
    ([parse_fuel]), so its [None] does not arise. *)
Fixpoint validateJSONFields (name : string) (seen : list string) (fields : list (string * string))
    : option error :=
  match fields with
  | [] => None
  | (field, pointer) :: fields' =>
      let key := FieldKey field in
      if negb (ValidHeaderFieldName field) || bool_decide (key ∈ seen)
      then Some (errors_New ("log_fields." +:+ name +:+ ": invalid or duplicate normalized key "
                             +:+ Quote field))
      else
        match ValidateJSONSelector json_UnmarshalString pointer with
        | Some (Err e) =>
            Some (errors_Wrap ("log_fields." +:+ name +:+ "." +:+ field +:+ ": " +:+ Error e) e)
        | _ => validateJSONFields name (key :: seen) fields'
        end
  end.
Definition validateJSONLogFields (cfg : LogFieldsConfig) : option error :=
  orElse (validateJSONFields logRequestJSON [] (RequestJSON cfg))
         (validateJSONFields logResponseJSON [] (ResponseJSON cfg)).

Definition validateLogFields (cfg : LogFieldsConfig) : option error :=
  orElse (validateNames "request_headers" false [] (RequestHeaders cfg))
  (orElse (validateNames "response_headers" false [] (ResponseHeaders cfg))
  (orElse (validateNames "request_metadata" true [] (RequestMetadata cfg))
  (orElse (validateNames "response_metadata" true [] (ResponseMetadata cfg))
  (orElse (validateProtocolLogFields cfg) (validateJSONLogFields cfg))))).

(** ** Specification: the well-formed selections *)

Record names_ok (metadata : bool) (fields : list string) : Prop := {
  names_valid : Forall (fun f => ValidHeaderFieldName f = true /\
                                 (metadata = true -> validLogMetadataKey f = true)) fields;
  names_distinct : NoDup (FieldKey <$> fields)
}.

Definition macro_ok (f : MilterMacro) : Prop :=
  let name := TrimSuffix (TrimPrefix (mm_Macro f) "{") "}" in
  ValidFieldAlias (mm_Name f) = true /\ 0 < len name <= 64 /\ validMacroName name = true /\
  HasPrefix (mm_Macro f) "{" = HasSuffix (mm_Macro f) "}".

Definition message_ok (rule : ProtobufLogRule) : Prop :=
  exactMethod (plr_Method rule) = true /\ ContainsAny (plr_Method rule) starOrSpace = false /\
  ValidateProtobufFields (plr_Request rule) = None /\
  ValidateProtobufFields (plr_Response rule) = None.

Definition selector_ok (f : string * string) : Prop :=
  ValidHeaderFieldName f.1 = true /\ ValidateJSONSelector json_UnmarshalString f.2 = Some (Ok tt).

Record log_fields_ok (cfg : LogFieldsConfig) : Prop := {
  ok_request_headers : names_ok false (RequestHeaders cfg);
  ok_response_headers : names_ok false (ResponseHeaders cfg);
  ok_request_metadata : names_ok true (RequestMetadata cfg);
  ok_response_metadata : names_ok true (ResponseMetadata cfg);
  ok_messages : Forall message_ok (GRPCMessages cfg) /\ NoDup (plr_Method <$> GRPCMessages cfg) /\
                Z.of_nat (length (GRPCMessages cfg)) <= 128;
  ok_macros : Forall macro_ok (MilterMacros cfg) /\
              NoDup ((fun f => FieldKey (mm_Name f)) <$> MilterMacros cfg) /\
              Z.of_nat (length (MilterMacros cfg)) <= 32;
  ok_request_json : Forall selector_ok (RequestJSON cfg) /\
                    NoDup ((fun f => FieldKey f.1) <$> RequestJSON cfg);
  ok_response_json : Forall selector_ok (ResponseJSON cfg) /\
                     NoDup ((fun f => FieldKey f.1) <$> ResponseJSON cfg)
}.

(** ** Lemmas *)

Lemma orElse_None e rest : orElse e rest = None <-> e = None /\ rest = None.
Proof. destruct e; simpl; naive_solver. Qed.

(** A loop that keeps the keys it has seen accepts exactly the lists whose
    elements pass and whose keys are new and distinct. *)
Lemma seen_loop {A} (key : A -> string) (Q : A -> Prop) (loop : list string -> list A -> option error) :
  (forall seen, loop seen [] = None) ->
  (forall seen x l, loop seen (x :: l) = None <->
     Q x /\ key x ∉ seen /\ loop (key x :: seen) l = None) ->
  forall seen l, loop seen l = None <->
    Forall Q l /\ NoDup (key <$> l) /\ (forall x, x ∈ l -> key x ∉ seen).
Proof.
  intros Hnil Hcons seen l. revert seen. induction l as [|x l IH]; intros seen.
  { rewrite Hnil. split; [|done]. intros _. split_and!; [constructor|constructor|].
    by intros x ?%elem_of_nil. }
  rewrite Hcons, IH, Forall_cons, fmap_cons, NoDup_cons. split.
  - intros (Hx & Hs & Hl & Hd & Hn). split_and!; try done.
    + intros (y & Hy & Hin)%list_elem_of_fmap. apply (Hn y Hin). rewrite <-Hy. by left.
    + intros y [->|Hin]%elem_of_cons; [done|]. intros ?. apply (Hn y Hin). by right.
  - intros ((Hx & Hl) & (Hn & Hd) & Hs). split_and!; try done; [apply Hs; by left|].
    intros y Hin [Hy|Hy]%elem_of_cons.
    + apply Hn. rewrite <-Hy. by apply list_elem_of_fmap_2.
    + apply (Hs y); [by right|done].
Qed.

Lemma ValidateJSONSelector_some s :
  exists r, ValidateJSONSelector json_UnmarshalString s = Some r.
Proof.
  unfold ValidateJSONSelector, parseJSONSelector.
  destruct (HasPrefix s "/"); [by eexists|].
  destruct (negb (HasPrefix s "$") || (len s =? 1)); [by eexists|].
  destruct (parse_fuel json_UnmarshalString (String.length s) (drop 1 (chars s))) as [r E].
  { rewrite length_drop, length_chars. lia. }
  rewrite E. by eexists.
Qed.

Lemma validateNames_ok name metadata fields :
  validateNames name metadata [] fields = None <-> names_ok metadata fields.
Proof.
  rewrite (seen_loop FieldKey (fun f => ValidHeaderFieldName f = true /\
    (metadata = true -> validLogMetadataKey f = true)) (validateNames name metadata)); [|done|].
  { split; [intros (H1 & H2 & _)|intros [H1 H2]]; split_and?; try done. by intros x _ ?%elem_of_nil. }
  intros seen x l. cbn [validateNames].
  destruct (ValidHeaderFieldName x), metadata, (validLogMetadataKey x); cbn;
    destruct (decide (FieldKey x ∈ seen)); naive_solver.
Qed.

Lemma validateMilterMacros_ok fields :
  validateMilterMacros fields = None <->
  Forall macro_ok fields /\ NoDup ((fun f => FieldKey (mm_Name f)) <$> fields).
Proof.
  unfold validateMilterMacros.
  rewrite (seen_loop (fun f => FieldKey (mm_Name f)) macro_ok validateMilterMacros_loop); [|done|].
  { split; [by intros (H1 & H2 & _)|intros [H1 H2]]. split_and!; [done..|].
    by intros x _ ?%elem_of_nil. }
  intros seen x l. cbn [validateMilterMacros_loop]. unfold macro_ok.
  destruct (ValidFieldAlias (mm_Name x)); cbn [negb orb]; [|naive_solver].
  case_bool_decide; [naive_solver|].
  destruct (Z.eqb_spec (len (TrimSuffix (TrimPrefix (mm_Macro x) "{") "}")) 0); cbn [orb];
    [split; [done|lia]|].
  destruct (Z.ltb_spec 64 (len (TrimSuffix (TrimPrefix (mm_Macro x) "{") "}"))); cbn [orb];
    [split; [done|lia]|].
  destruct (validMacroName _); cbn [negb]; [|naive_solver].
  destruct (Bool.eqb_spec (HasPrefix (mm_Macro x) "{") (HasSuffix (mm_Macro x) "}")); cbn [negb];
    [|naive_solver].
  assert (0 <= len (TrimSuffix (TrimPrefix (mm_Macro x) "{") "}")) by (unfold len; lia).
  split; [|tauto]. intros E. split_and!; done || lia.
Qed.

Lemma validateMessageRules_ok rules :
  validateMessageRules [] rules = None <->
  Forall message_ok rules /\ NoDup (plr_Method <$> rules).
Proof.
  rewrite (seen_loop plr_Method message_ok validateMessageRules); [|done|].
  { split; [by intros (H1 & H2 & _)|intros [H1 H2]]. split_and!; [done..|].
    by intros x _ ?%elem_of_nil. }
  intros seen x l. cbn [validateMessageRules]. unfold message_ok.
  destruct (exactMethod (plr_Method x)); cbn [negb orb]; [|naive_solver].
  destruct (ContainsAny (plr_Method x) starOrSpace); cbn [orb]; [naive_solver|].
  case_bool_decide; [naive_solver|].
  destruct (ValidateProtobufFields (plr_Request x)); [naive_solver|].
  destruct (ValidateProtobufFields (plr_Response x)); naive_solver.
Qed.

Lemma validateJSONFields_ok name fields :
  validateJSONFields name [] fields = None <->
  Forall selector_ok fields /\ NoDup ((fun f => FieldKey f.1) <$> fields).
Proof.
  rewrite (seen_loop (fun f : string * string => FieldKey f.1) selector_ok (validateJSONFields name));
    [|done|].
  { split; [by intros (H1 & H2 & _)|intros [H1 H2]]. split_and!; [done..|].
    by intros x _ ?%elem_of_nil. }
  intros seen [f p] l. cbn [validateJSONFields]. unfold selector_ok. cbn [fst snd].
  destruct (ValidHeaderFieldName f); cbn [negb orb]; [|naive_solver].
  case_bool_decide; [naive_solver|].
  destruct (ValidateJSONSelector_some p) as [[[]|e] ->]; naive_solver.
Qed.

(** A log field configuration is accepted exactly when it is well-formed:
    every selected header or metadata name is valid and its log key unique in
    its list, every protobuf rule names one exact method once with bounded
    unambiguous selections, every milter macro has a unique alias and a
    balanced bounded name, and every JSON alias has a selector that parses. *)
Theorem validateLogFields_wf cfg : validateLogFields cfg = None <-> log_fields_ok cfg.
Proof.
  unfold validateLogFields, validateJSONLogFields, validateProtocolLogFields.
  rewrite !orElse_None, !validateNames_ok, !validateJSONFields_ok.
  assert (G : (if (128 <? Z.of_nat (length (GRPCMessages cfg))) || (32 <? Z.of_nat (length (MilterMacros cfg)))
    then Some (errors_New "too many protocol log field selections")
    else orElse (validateMessageRules [] (GRPCMessages cfg)) (validateMilterMacros (MilterMacros cfg))) = None
    <-> (Z.of_nat (length (GRPCMessages cfg)) <= 128 /\ Z.of_nat (length (MilterMacros cfg)) <= 32) /\
        validateMessageRules [] (GRPCMessages cfg) = None /\ validateMilterMacros (MilterMacros cfg) = None).
  { destruct (Z.ltb_spec 128 (Z.of_nat (length (GRPCMessages cfg)))); cbn [orb];
      [split; [done|lia]|].
    destruct (Z.ltb_spec 32 (Z.of_nat (length (MilterMacros cfg)))); [split; [done|lia]|].
    rewrite orElse_None. split; [|tauto]. intros ?. split; [lia|done]. }
  rewrite G, validateMessageRules_ok, validateMilterMacros_ok. split.
  - intros (? & ? & ? & ? & ? & ? & ?). destruct_and!. by split.
  - intros []. destruct_and!. by split_and!.
Qed.
End validate.
End logfields.
