(* ===== verification/JsonLogFields.v ===== *)
(** * [internal/config/json_log_fields.go]: the JSON aliases of the log fields

    The YAML decoder builds a graph of nodes: an alias node points to the node
    it stands for, so the graph may have cycles.  A pointer is the index of a
    node; the maps [Decode] makes of a node are parameters, given as their pairs
    in range order. *)
From S2P Require Export ConfigLogFields.

Module jsonlogfields.
Import logfields.

Definition yamlStringTag : string := "!!str".

Inductive Kind := DocumentNode | SequenceNode | MappingNode | ScalarNode | AliasNode.
#[export] Instance Kind_eq_dec : EqDecision Kind.
Proof. solve_decision. Defined.

Record Node := { n_Kind : Kind; n_Tag : string; n_Alias : option nat; n_Content : list (option nat) }.

(** How a validation ends; a panic is a nil dereference or an index out of range. *)
Inductive verdict := Accepted | Rejected (err : error) | Panicked | OutOfFuel.

Definition wrapVerdict (what : string) (v : verdict) : verdict :=
  match v with Rejected err => Rejected (errors_Wrap (what +:+ ": " +:+ Error err) err) | _ => v end.
(** [if err := ...; err != nil { return err }] *)
Definition andThen (v k : verdict) : verdict := match v with Accepted => k | _ => v end.

Section validate.
Context (nodes : list Node).

(** The node of a pointer, unless it is nil or being visited. *)
Definition fresh (p : option nat) (visiting : gset nat) : option (nat * Node) :=
  i ← p; if decide (i ∈ visiting) then None else n ← nodes !! i; Some (i, n).

Fixpoint validateYAMLString (fuel : nat) (p : option nat) (visiting : gset nat) : verdict :=
  match fresh p visiting with
  | None => Rejected (errors_New "cyclic scalar alias")
  | Some (i, node) =>
      if decide (n_Kind node = AliasNode) then
        match fuel with
        | O => OutOfFuel
        | S fuel' => validateYAMLString fuel' (n_Alias node) ({[i]} ∪ visiting)
        end
      else if decide (n_Kind node <> ScalarNode \/ n_Tag node <> yamlStringTag)
      then Rejected (errors_New "expected a string")
      else Accepted
  end.

(** The loops over the content of a sequence and of a mapping; [rec] and [str]
    validate a value as a mapping and as a string. *)
Fixpoint sequenceLoop (rec : option nat -> verdict) (content : list (option nat)) : verdict :=
  match content with [] => Accepted | child :: content' => andThen (rec child) (sequenceLoop rec content') end.

Fixpoint mappingLoop (rec str : option nat -> verdict) (content : list (option nat)) : verdict :=
  match content with
  | [] => Accepted
  | [_] => Panicked
  | key :: value :: content' =>
      match (i ← key; nodes !! i : option Node) with
      | None => Panicked
      | Some k =>
          andThen
            (if decide (n_Tag k = "!!merge") then rec value
             else andThen (wrapVerdict "JSON field alias" (str key)) (wrapVerdict "JSON selector" (str value)))
            (mappingLoop rec str content')
      end
  end.

Fixpoint validateJSONAliasYAML (fuel : nat) (p : option nat) (visiting : gset nat) : verdict :=
  match fresh p visiting with
  | None => Rejected (errors_New "cyclic JSON field aliases")
  | Some (i, node) =>
      match fuel with
      | O => OutOfFuel
      | S fuel' =>
          let visiting := {[i]} ∪ visiting in
          let rec q := validateJSONAliasYAML fuel' q visiting in
          let expected := Rejected (errors_New "expected an alias-to-selector mapping") in
          match n_Kind node with
          | AliasNode => rec (n_Alias node)
          | SequenceNode => sequenceLoop rec (n_Content node)
          | MappingNode => mappingLoop rec (fun q => validateYAMLString fuel' q visiting) (n_Content node)
          | ScalarNode => if decide (n_Tag node = "!!null") then Accepted else expected
          | DocumentNode => expected
          end
      end
  end.

(** As the program calls it: the path of a walk visits no node twice, so the
    number of nodes is fuel enough. *)
Definition validateAliases (p : option nat) : verdict := validateJSONAliasYAML (length nodes) p ∅.
End validate.

(** ** Decoding the groups *)

(** [strings.EqualFold] with a text of ASCII: the long s and the Kelvin sign are
    the only runes outside ASCII that fold into it. *)
Definition foldRune (r : Z) : Z :=
  if r =? 0x17F then 115 else if r =? 0x212A then 107
  else if (65 <=? r) && (r <=? 90) then r + 32 else r.
Definition EqualFold (s ascii : string) : bool := bool_decide (foldRune <$> runes s = foldRune <$> runes ascii).

Section decode.
Context `{Unicode} (nodes : list Node).
Context (decodeFields : nat -> res (list (string * nat))) (decodeMap : nat -> res (list (string * string))).

(** The loop over the fields of the group: the names seen so far. *)
Fixpoint decodeGroups (seen : list string) (fields : list (string * nat)) (cfg : LogFieldsConfig) : res LogFieldsConfig :=
  match fields with
  | [] => Ok cfg
  | (raw, value) :: fields' =>
      let name := ToLower raw in
      if decide (name <> logRequestJSON /\ name <> logResponseJSON) then decodeGroups seen fields' cfg
      else if decide (name ∈ seen) then Err (errors_New ("duplicate log_fields." +:+ name))
      else
        let at_ err := errors_Wrap ("log_fields." +:+ name +:+ ": " +:+ Error err) err in
        match validateAliases nodes (Some value) with
        | Accepted =>
            pairs ← res_wrap at_ (decodeMap value);
            decodeGroups (name :: seen) fields'
              {| GRPCMessages := GRPCMessages cfg; MilterMacros := MilterMacros cfg;
                 RequestJSON := if decide (name = logRequestJSON) then pairs else RequestJSON cfg;
                 ResponseJSON := if decide (name = logRequestJSON) then ResponseJSON cfg else pairs;
                 RequestHeaders := RequestHeaders cfg; ResponseHeaders := ResponseHeaders cfg;
                 RequestMetadata := RequestMetadata cfg; ResponseMetadata := ResponseMetadata cfg |}
        | Rejected err => Err (at_ err)
        | Panicked | OutOfFuel => Err (errors_New "panic")
        end
  end.
Definition decodeJSONLogGroups (node : nat) (cfg : LogFieldsConfig) : res LogFieldsConfig :=
  fields ← res_wrap (fun err => errors_Wrap ("decode log_fields: " +:+ Error err) err) (decodeFields node);
  decodeGroups [] fields cfg.

Fixpoint decodeRoot (seen : bool) (root : list (string * nat)) (cfg : LogFieldsConfig) : res LogFieldsConfig :=
  match root with
  | [] => Ok cfg
  | (name, node) :: root' =>
      if negb (EqualFold name "log_fields") then decodeRoot seen root' cfg
      else if seen then Err (errors_New "duplicate log_fields group")
      else cfg ← decodeJSONLogGroups node cfg; decodeRoot true root' cfg
  end.
(** [root]: what [yaml.Unmarshal] makes of the file. *)
Definition decodeJSONLogFields (root : res (list (string * nat))) (cfg : LogFieldsConfig) : res LogFieldsConfig :=
  root ← res_wrap (fun err => errors_Wrap ("decode JSON log fields: " +:+ Error err) err) root;
  decodeRoot false root cfg.
End decode.

(** ** Specification: the naive unfolding

    The same walk without the set of visited nodes, by the height of the tree it
    unfolds: it succeeds at some height exactly when the aliases unfold to a
    finite tree of the right shape. *)

Section spec.
Context (nodes : list Node).

Fixpoint yamlString (k : nat) (p : option nat) : Prop :=
  match k with
  | O => False
  | S k =>
      exists i n, p = Some i /\ nodes !! i = Some n /\
        if decide (n_Kind n = AliasNode) then yamlString k (n_Alias n)
        else n_Kind n = ScalarNode /\ n_Tag n = yamlStringTag
  end.
Definition isString (p : option nat) : Prop := exists k, yamlString k p.

Fixpoint pairs_ok (P Q : option nat -> Prop) (content : list (option nat)) : Prop :=
  match content with
  | [] => True
  | [_] => False
  | key :: value :: content' =>
      (exists i n, key = Some i /\ nodes !! i = Some n /\
        if decide (n_Tag n = "!!merge") then P value else Q key /\ Q value) /\ pairs_ok P Q content'
  end.

Fixpoint aliasMap (k : nat) (p : option nat) : Prop :=
  match k with
  | O => False
  | S k =>
      exists i n, p = Some i /\ nodes !! i = Some n /\
        match n_Kind n with
        | AliasNode => aliasMap k (n_Alias n)
        | SequenceNode => Forall (aliasMap k) (n_Content n)
        | MappingNode => pairs_ok (aliasMap k) isString (n_Content n)
        | ScalarNode => n_Tag n = "!!null"
        | DocumentNode => False
        end
  end.
(** A value that is an alias-to-selector mapping, or a list of such. *)
Definition isAliasMap (p : option nat) : Prop := exists k, aliasMap k p.

(** What the YAML decoder guarantees of its graph. *)
Fixpoint content_ok (content : list (option nat)) : Prop :=
  match content with
  | [] => True
  | [_] => False
  | key :: _ :: content' => (exists i n, key = Some i /\ nodes !! i = Some n) /\ content_ok content'
  end.
Definition graph_ok : Prop := Forall (fun n => n_Kind n = MappingNode -> content_ok (n_Content n)) nodes.

(** *** The walk *)

Lemma fresh_some p v i n : fresh nodes p v = Some (i, n) <-> p = Some i /\ i ∉ v /\ nodes !! i = Some n.
Proof.
  unfold fresh. destruct p as [j|]; cbn; [|naive_solver]. case_decide; [naive_solver|].
  destruct (nodes !! j) as [m|] eqn:E; cbn; naive_solver.
Qed.

Definition within (v : gset nat) : Prop := v ⊆ set_seq 0 (length nodes).
Lemma within_room v i n : within v -> i ∉ v -> nodes !! i = Some n ->
  (size v < length nodes)%nat /\ within ({[i]} ∪ v) /\ size ({[i]} ∪ v) = S (size v).
Proof.
  intros Hv Hi Hn. assert (i < length nodes)%nat by (by eapply lookup_lt_Some).
  assert (Hw : within ({[i]} ∪ v)).
  { apply union_subseteq. split; [|done]. apply singleton_subseteq_l, elem_of_set_seq. lia. }
  assert (Hs : size ({[i]} ∪ v) = S (size v)) by (rewrite size_union, size_singleton; [done|]; set_solver).
  split_and!; [|done|done]. apply subseteq_size in Hw. rewrite Hs in Hw.
  rewrite size_set_seq in Hw. lia.
Qed.

Lemma sequenceLoop_ok rec l (R : verdict -> Prop) :
  R Accepted -> (forall x, x ∈ l -> R (rec x)) -> R (sequenceLoop rec l).
Proof.
  intros Ha Hr. induction l as [|x l IH]; [done|]. cbn [sequenceLoop].
  pose proof (Hr x (list_elem_of_here _ _)) as Hx.
  destruct (rec x); cbn [andThen]; try done. apply IH. intros y Hy. apply Hr. by right.
Qed.
End spec.

Section walk.
Context (nodes : list Node) (Hgraph : graph_ok nodes).

(** A verdict that is not a failure of the walk itself, and is right to accept. *)
Definition good (A : Prop) (v : verdict) : Prop :=
  match v with Accepted => A | Rejected _ => True | _ => False end.
Lemma good_andThen A B C v w : (A -> B -> C) -> good A v -> good B w -> good C (andThen v w).
Proof. destruct v, w; cbn; tauto. Qed.
Lemma good_wrap A what v : good A (wrapVerdict what v) <-> good A v.
Proof. by destruct v. Qed.

Lemma sequenceLoop_good P rec l : (forall q, good (P q) (rec q)) -> good (Forall P l) (sequenceLoop rec l).
Proof.
  intros Hr. induction l as [|x l IH]; [constructor|]. cbn [sequenceLoop].
  apply (good_andThen (P x) (Forall P l)); [by constructor|done|done].
Qed.
Lemma mappingLoop_good P Q rec str l :
  content_ok nodes l -> (forall q, good (P q) (rec q)) -> (forall q, good (Q q) (str q)) ->
  good (pairs_ok nodes P Q l) (mappingLoop nodes rec str l).
Proof.
  intros Hc Hr Hs. revert Hc. induction l as [l IH] using length_ind. destruct l as [|key [|value l]]; [done..|].
  cbn [content_ok mappingLoop pairs_ok]. intros [(i & n & -> & Hn) Hc]. cbn. rewrite Hn.
  apply (good_andThen (if decide (n_Tag n = "!!merge") then P value else Q (Some i) /\ Q value) (pairs_ok nodes P Q l)).
  - intros ? ?. split; [by exists i, n|done].
  - case_decide; [apply Hr|]. apply (good_andThen (Q (Some i)) (Q value)); [done|by apply good_wrap..].
  - apply IH; [cbn; lia|done].
Qed.

Lemma string_good f p v : within nodes v -> (length nodes <= f + size v)%nat ->
  good (yamlString nodes (S f) p) (validateYAMLString nodes f p v).
Proof.
  revert p v. induction f as [|f IH]; intros p v Hv Hf; cbn [validateYAMLString];
    destruct (fresh nodes p v) as [[i n]|] eqn:E; try done; apply fresh_some in E as (-> & Hi & Hn);
    destruct (within_room nodes v i n Hv Hi Hn) as (Hr & Hv' & Hs); [lia|].
  destruct (decide (n_Kind n = AliasNode)) as [Ek|Ek].
  - specialize (IH (n_Alias n) ({[i]} ∪ v) Hv' ltac:(lia)). destruct (validateYAMLString _ _ _ _); try done.
    cbn [good] in *. exists i, n. split_and!; [done..|]. by rewrite decide_True.
  - case_decide as Et; [done|]. cbn [good]. exists i, n. split_and!; [done..|]. rewrite decide_False by done.
    split; [destruct (decide (n_Kind n = ScalarNode))|destruct (decide (n_Tag n = yamlStringTag))]; tauto.
Qed.

Lemma walk_good f p v : within nodes v -> (length nodes <= f + size v)%nat ->
  good (aliasMap nodes f p) (validateJSONAliasYAML nodes f p v).
Proof.
  revert p v. induction f as [|f IH]; intros p v Hv Hf; cbn [validateJSONAliasYAML];
    destruct (fresh nodes p v) as [[i n]|] eqn:E; try done; apply fresh_some in E as (-> & Hi & Hn);
    destruct (within_room nodes v i n Hv Hi Hn) as (Hr & Hv' & Hs); [lia|].
  assert (G : forall q, good (aliasMap nodes f q) (validateJSONAliasYAML nodes f q ({[i]} ∪ v))) by (intros q; apply IH; [done|lia]).
  assert (C : forall A w, (A -> aliasMap nodes (S f) (Some i)) -> good A w -> good (aliasMap nodes (S f) (Some i)) w)
    by (intros A []; cbn; tauto).
  destruct (n_Kind n) eqn:Ek.
  - done.
  - eapply C; [|by apply sequenceLoop_good]. intros ?. exists i, n. by rewrite Ek.
  - eapply C; [|apply (mappingLoop_good (aliasMap nodes f) (isString nodes))].
    + intros ?. exists i, n. by rewrite Ek.
    + unfold graph_ok in Hgraph. rewrite Forall_lookup in Hgraph. by apply (Hgraph i n Hn).
    + done.
    + intros q. pose proof (string_good f q ({[i]} ∪ v) Hv' ltac:(lia)) as Gs.
      destruct (validateYAMLString _ _ _ _); try done. by eexists.
  - case_decide; [|done]. exists i, n. by rewrite Ek.
  - eapply C; [|apply G]. intros ?. exists i, n. by rewrite Ek.
Qed.

(** *** No false alarm *)

Lemma yamlString_S k p : yamlString nodes k p -> yamlString nodes (S k) p.
Proof.
  revert p. induction k as [|k IH]; intros p; [done|]. intros (i & n & -> & Hn & G). exists i, n. split_and!; [done..|].
  case_decide; [by apply IH|done].
Qed.
Lemma pairs_ok_mono (P P' Q : option nat -> Prop) l :
  (forall q, P q -> P' q) -> pairs_ok nodes P Q l -> pairs_ok nodes P' Q l.
Proof.
  intros Hp. induction l as [l IH] using length_ind. destruct l as [|key [|value l]]; [done..|].
  cbn [pairs_ok]. intros [(i & n & -> & Hn & G) Hl]. split; [|apply IH; [cbn; lia|done]].
  exists i, n. split_and!; [done..|]. case_decide; [by apply Hp|done].
Qed.
Lemma aliasMap_S k p : aliasMap nodes k p -> aliasMap nodes (S k) p.
Proof.
  revert p. induction k as [|k IH]; intros p; [done|]. intros (i & n & -> & Hn & G). exists i, n. split_and!; [done..|].
  destruct (n_Kind n); [done| | |done|by apply IH].
  - eapply Forall_impl; [exact G|done].
  - by eapply pairs_ok_mono.
Qed.
Lemma map_not_string k m p : aliasMap nodes k p -> yamlString nodes m p -> False.
Proof.
  revert m p. induction k as [|k IH]; intros m p; [done|]. intros (i & n & -> & Hn & G).
  destruct m as [|m]; [done|]. intros (i' & n' & [= <-] & Hn' & G'). assert (n' = n) as -> by congruence.
  case_decide as Ek.
  - rewrite Ek in G. by eapply IH.
  - destruct G' as [Ek' Et]. rewrite Ek', Et in G. done.
Qed.

Lemma string_complete k f p v e :
  yamlString nodes k p -> (forall j, j ∈ v -> ~ yamlString nodes k (Some j)) ->
  validateYAMLString nodes f p v <> Rejected e.
Proof.
  revert f p v. induction k as [|k IH]; intros f p v; [done|]. intros (i & n & -> & Hn & G) Hv Hrej.
  assert (Hv' : forall j, j ∈ v -> ~ yamlString nodes k (Some j)) by (intros j Hj Hk; apply (Hv j Hj); by apply yamlString_S).
  assert (Hik : ~ yamlString nodes k (Some i)) by (intros Hk; by apply (IH f (Some i) v Hk Hv')).
  assert (Hi : i ∉ v).
  { intros Hi. apply (Hv i Hi). exists i, n. done. }
  assert (E : fresh nodes (Some i) v = Some (i, n)) by by apply fresh_some.
  destruct f as [|f]; cbn [validateYAMLString] in Hrej; rewrite E in Hrej.
  - destruct (decide (n_Kind n = AliasNode)); [done|]. destruct G as [G1 G2].
    rewrite decide_False in Hrej by tauto. done.
  - destruct (decide (n_Kind n = AliasNode)).
    + apply (IH f (n_Alias n) ({[i]} ∪ v) G); [|exact Hrej].
      intros j [->%elem_of_singleton|Hj]%elem_of_union; [done|by apply Hv'].
    + destruct G as [G1 G2]. rewrite decide_False in Hrej by tauto. done.
Qed.

Lemma sequenceLoop_rejected rec l e : sequenceLoop rec l = Rejected e -> exists q, q ∈ l /\ rec q = Rejected e.
Proof.
  induction l as [|x l IH]; [done|]. cbn [sequenceLoop]. destruct (rec x) eqn:Ex; cbn [andThen]; try done.
  - intros (q & Hq & ?)%IH. exists q. split; [by right|done].
  - intros [= <-]. exists x. split; [by left|done].
Qed.
Lemma mappingLoop_rejected (P Q : option nat -> Prop) rec str l e :
  pairs_ok nodes P Q l -> mappingLoop nodes rec str l = Rejected e ->
  exists q e', (P q /\ rec q = Rejected e') \/ (Q q /\ str q = Rejected e').
Proof.
  induction l as [l IH] using length_ind. destruct l as [|key [|value l]]; [done..|].
  cbn [pairs_ok mappingLoop]. intros [(i & n & -> & Hn & G) Hl]. cbn. rewrite Hn.
  assert (G' : mappingLoop nodes rec str l = Rejected e -> exists q e', (P q /\ rec q = Rejected e') \/ (Q q /\ str q = Rejected e'))
    by (apply IH; [cbn; lia|done]).
  destruct (decide (n_Tag n = "!!merge")).
  - destruct (rec value) eqn:Er; cbn [andThen]; try discriminate; [by apply G'|]. intros _. exists value, err. by left.
  - destruct G as [G1 G2]. destruct (str (Some i)) eqn:Es; cbn [wrapVerdict andThen]; try discriminate.
    + destruct (str value) eqn:Ev; cbn [wrapVerdict andThen]; try discriminate; [by apply G'|].
      intros _. exists value, err. by right.
    + intros _. exists (Some i), err. by right.
Qed.

Lemma walk_complete k f p v e :
  aliasMap nodes k p -> (forall j, j ∈ v -> ~ aliasMap nodes k (Some j) /\ isAliasMap nodes (Some j)) ->
  validateJSONAliasYAML nodes f p v <> Rejected e.
Proof.
  revert f p v e. induction k as [|k IH]; intros f p v e; [done|]. intros Hp Hv Hrej.
  destruct Hp as (i & n & -> & Hn & G).
  assert (Hself : aliasMap nodes (S k) (Some i)) by by exists i, n.
  assert (Hv' : forall j, j ∈ v -> ~ aliasMap nodes k (Some j) /\ isAliasMap nodes (Some j)).
  { intros j Hj. destruct (Hv j Hj) as [H1 H2]. split; [|done]. intros Hk. by apply H1, aliasMap_S. }
  assert (Hik : ~ aliasMap nodes k (Some i)) by (intros Hk; by apply (IH f (Some i) v e Hk Hv')).
  assert (Hi : i ∉ v) by (intros Hi; by destruct (Hv i Hi)).
  assert (E : fresh nodes (Some i) v = Some (i, n)) by by apply fresh_some.
  assert (Hw : forall j, j ∈ {[i]} ∪ v -> ~ aliasMap nodes k (Some j) /\ isAliasMap nodes (Some j)).
  { intros j [->%elem_of_singleton|Hj]%elem_of_union; [|by apply Hv']. split; [done|by exists (S k)]. }
  destruct f as [|f]; cbn [validateJSONAliasYAML] in Hrej; rewrite E in Hrej; [done|].
  destruct (n_Kind n) eqn:Ek; [done| | |by rewrite decide_True in Hrej|by apply (IH f (n_Alias n) _ e G Hw)].
  - apply sequenceLoop_rejected in Hrej as (q & Hq & Hrej). rewrite Forall_forall in G.
    by apply (IH f q _ e (G q Hq) Hw).
  - apply (mappingLoop_rejected _ _ _ _ _ _ G) in Hrej as (q & e' & [[Hq Hrej]|[[m Hq] Hrej]]).
    + by apply (IH f q _ e' Hq Hw).
    + apply (string_complete m f q ({[i]} ∪ v) e' Hq); [|exact Hrej].
      intros j Hj Hs. destruct (Hw j Hj) as [_ [k' Hk']]. by eapply map_not_string.
Qed.

(** C38. The validation of the JSON aliases terminates on every node graph, also
    a cyclic one, and its answer is that of the naive unfolding: a value is
    accepted exactly when following the aliases from it unfolds to a finite tree
    of mappings from strings to strings (through sequences, merges and nulls), so
    only aliases that never come back to themselves are accepted, and sharing a
    node is never mistaken for a cycle. *)
Theorem validateAliases_spec p :
  match validateAliases nodes p with
  | Accepted => isAliasMap nodes p
  | Rejected _ => ~ isAliasMap nodes p
  | Panicked | OutOfFuel => False
  end.
Proof.
  unfold validateAliases. assert (Hw : within nodes ∅) by (intros x Hx; by apply not_elem_of_empty in Hx).
  pose proof (walk_good (length nodes) p ∅ Hw ltac:(rewrite size_empty; lia)) as G.
  destruct (validateJSONAliasYAML nodes (length nodes) p ∅) as [|e| |] eqn:E; [by eexists| |done..].
  intros [k Hk]. apply (walk_complete k (length nodes) p ∅ e Hk); [|done]. intros j Hj. by apply not_elem_of_empty in Hj.
Qed.
End walk.

(** A mapping whose value is an alias of an anchored string, used twice, and a
    sequence that contains itself through an alias. *)
Definition exampleNodes : list Node := [
  {| n_Kind := MappingNode; n_Tag := "!!map"; n_Alias := None; n_Content := [Some 1; Some 2; Some 3; Some 2]%nat |};
  {| n_Kind := ScalarNode; n_Tag := "!!str"; n_Alias := None; n_Content := [] |};
  {| n_Kind := AliasNode; n_Tag := ""; n_Alias := Some 1%nat; n_Content := [] |};
  {| n_Kind := ScalarNode; n_Tag := "!!str"; n_Alias := None; n_Content := [] |};
  {| n_Kind := SequenceNode; n_Tag := "!!seq"; n_Alias := None; n_Content := [Some 5%nat] |};
  {| n_Kind := AliasNode; n_Tag := ""; n_Alias := Some 4%nat; n_Content := [] |}].

Lemma validateAliases_spec_witness :
  isAliasMap exampleNodes (Some 0%nat) /\ ~ isAliasMap exampleNodes (Some 4%nat).
Proof.
  assert (Hg : graph_ok exampleNodes).
  { unfold graph_ok. apply Forall_cons. split; [intros _; cbn; split_and!; [by eexists _, _|by eexists _, _|done]|].
    repeat (apply Forall_cons; split; [discriminate|]). by apply Forall_nil. }
  split; [exact (validateAliases_spec exampleNodes Hg (Some 0%nat))|exact (validateAliases_spec exampleNodes Hg (Some 4%nat))].
Defined.
End jsonlogfields.
