(* ===== verification/ConfigCallerAuth.v ===== *)
(** * [internal/config/grpc_caller_auth.go]: the caller authentication settings *)
From S2P Require Export ConfigTypes ConfigLogFields.

Module callerauthconfig.
Definition grpcCallerIntrospectionMode : string := "introspection".
Definition grpcHTTPScheme : string := "https".
Definition DefaultGRPCIntrospectionMaxConcurrent : Z := 64.
Definition MaxGRPCIntrospectionCacheEntries : Z := 1000000.

Definition EffectiveIntrospectionMaxConcurrent (a : GRPCCallerAuthConfig) : Z :=
  if ca_IntrospectionMaxConcurrent a <=? 0 then DefaultGRPCIntrospectionMaxConcurrent
  else ca_IntrospectionMaxConcurrent a.

(** [ResolveTLSMinVersion] of config.go. *)
Definition VersionTLS12 : Z := 0x0303.
Definition VersionTLS13 : Z := 0x0304.
Definition ResolveTLSMinVersion `{Unicode} (value : string) : res Z :=
  let v := ToLower (TrimSpace value) in
  if decide (v ∈ [""; "1.2"; "tls1.2"]) then Ok VersionTLS12
  else if decide (v ∈ ["1.3"; "tls1.3"]) then Ok VersionTLS13
  else Err (errors_New ("unsupported min_tls_version " +:+ Quote value +:+
                        " (allowed: 1.2, TLS1.2, 1.3, TLS1.3)")).

Definition scopeSpace : string := of_chars [" "%char; chr 9; chr 13; chr 10].
Definition badScope (scope : string) : bool :=
  bool_decide (scope = "") || ContainsAny scope scopeSpace.
Definition validateCallerScopes (scopes : list string) : option error :=
  if existsb badScope scopes
  then Some (errors_New "grpc_caller_auth scopes must be nonempty individual scope names")
  else None.

Fixpoint validateCallerMethods_loop (seen : list string) (methods : list GRPCCallerMethodScopes)
    : option error :=
  match methods with
  | [] => None
  | rule :: methods' =>
      let method := ms_Method rule in
      if decide (method ∈ seen)
      then Some (errors_New "grpc_caller_auth.method_scopes contains duplicate methods")
      else if negb (logfields.exactMethod method) || bool_decide (ms_Scopes rule = [])
      then Some (errors_New "grpc_caller_auth.method_scopes requires exact /service/method keys and nonempty scope lists")
      else logfields.orElse (validateCallerScopes (ms_Scopes rule))
             (validateCallerMethods_loop (method :: seen) methods')
  end.
Definition validateCallerMethods (methods : list GRPCCallerMethodScopes) : option error :=
  validateCallerMethods_loop [] methods.

Definition validateIntrospectionCache (a : GRPCCallerAuthConfig) : option error :=
  if ca_IntrospectionCacheTTL a <? 0
  then Some (errors_New "grpc_caller_auth.introspection_cache_ttl must not be negative")
  else if (ca_IntrospectionCacheMaxEntries a <? 0) ||
          (MaxGRPCIntrospectionCacheEntries <? ca_IntrospectionCacheMaxEntries a)
  then Some (errors_New "grpc_caller_auth.introspection_cache_max_entries must be between 0 and 1000000")
  else if ca_IntrospectionMaxConcurrent a <? 0
  then Some (errors_New "grpc_caller_auth.introspection_max_concurrent must not be negative")
  else if (0 <? ca_IntrospectionCacheTTL a) && (ca_IntrospectionCacheMaxEntries a =? 0)
  then Some (errors_New "grpc_caller_auth.introspection_cache_max_entries must be positive when introspection_cache_ttl is enabled")
  else None.

Section validate.
Context `{Unicode} `{URLs}.

Definition validIntrospectionURL (endpoint : string) : bool :=
  match url_Parse endpoint with
  | None => false
  | Some u => bool_decide (u_Scheme u = grpcHTTPScheme) && bool_decide (u_Host u <> "") &&
              negb (u_hasUser u) && bool_decide (u_Fragment u = "") && bool_decide (u_RawQuery u = "")
  end.

Definition validateGRPCIntrospection (a : GRPCCallerAuthConfig) : option error :=
  if negb (validIntrospectionURL (ca_IntrospectionEndpoint a))
  then Some (errors_New "grpc_caller_auth.introspection_endpoint must be an HTTPS URL without credentials, query or fragment")
  else if bool_decide (ca_Issuer a = "") || bool_decide (ca_Audience a = "") ||
          bool_decide (ca_ClientID a = "") || bool_decide (ca_ClientSecretEnv a = "")
  then Some (errors_New "grpc_caller_auth introspection requires issuer, audience, client_id and client_secret_env")
  else
    match ResolveTLSMinVersion (ca_MinTLSVersion a) with
    | Err e => Some e
    | Ok _ =>
        if ca_Timeout a <? 0
        then Some (errors_New "grpc_caller_auth.timeout must not be negative")
        else logfields.orElse (validateIntrospectionCache a)
               (logfields.orElse (validateCallerMethods (ca_MethodScopes a))
                  (validateCallerScopes (ca_RequiredScopes a)))
    end.

Definition ValidateGRPCCallerAuth (a : GRPCCallerAuthConfig) (grpcTLS : GRPCTLSConfig)
    (oidc : GRPCBackendOIDCAuthConfig) : option error :=
  if ca_AllowUnauthenticated a then
    if decide (ca_Mode a <> "")
    then Some (errors_New "grpc_caller_auth: allow_unauthenticated cannot be combined with mode")
    else None
  else if decide (ca_Mode a = "") then
    if oidc_Enabled oidc
    then Some (errors_New "grpc_caller_auth.mode is required when grpc_backend_oidc_auth is enabled")
    else None
  else if decide (ca_Mode a = "mtls") then
    if negb (tls_Enabled grpcTLS) || negb (tls_RequireClientCert grpcTLS) ||
       bool_decide (tls_ClientCA grpcTLS = "")
    then Some (errors_New "grpc_caller_auth mtls requires grpc_tls enabled, client_ca and require_client_cert")
    else None
  else if decide (ca_Mode a = grpcCallerIntrospectionMode) then validateGRPCIntrospection a
  else Some (errors_New "grpc_caller_auth.mode must be introspection or mtls").

(** ** Specification: the safe settings *)

Record introspection_ok (a : GRPCCallerAuthConfig) : Prop := {
  io_endpoint : exists u, url_Parse (ca_IntrospectionEndpoint a) = Some u /\ u_Scheme u = "https" /\
                  u_Host u <> "" /\ u_hasUser u = false /\ u_Fragment u = "" /\ u_RawQuery u = "";
  io_names : ca_Issuer a <> "" /\ ca_Audience a <> "" /\ ca_ClientID a <> "" /\ ca_ClientSecretEnv a <> "";
  io_tls : is_ok (ResolveTLSMinVersion (ca_MinTLSVersion a)) = true;
  io_timeout : 0 <= ca_Timeout a;
  io_cache : 0 <= ca_IntrospectionCacheTTL a /\
             0 <= ca_IntrospectionCacheMaxEntries a <= MaxGRPCIntrospectionCacheEntries /\
             (0 < ca_IntrospectionCacheTTL a -> 0 < ca_IntrospectionCacheMaxEntries a);
  io_concurrent : 0 <= ca_IntrospectionMaxConcurrent a;
  io_methods : NoDup (ms_Method <$> ca_MethodScopes a) /\
               Forall (fun r => logfields.exactMethod (ms_Method r) = true /\ ms_Scopes r <> [] /\
                                Forall (fun s => badScope s = false) (ms_Scopes r)) (ca_MethodScopes a);
  io_scopes : Forall (fun s => badScope s = false) (ca_RequiredScopes a)
}.

Lemma validateCallerScopes_ok scopes :
  validateCallerScopes scopes = None <-> Forall (fun s => badScope s = false) scopes.
Proof.
  unfold validateCallerScopes. destruct (existsb badScope scopes) eqn:E.
  - split; [done|]. intros Hf. apply existsb_exists in E as (s & Hs & Hb).
    rewrite Forall_forall in Hf. rewrite (Hf s) in Hb; [done|by apply list_elem_of_In].
  - split; [|done]. intros _. apply Forall_forall. intros s Hs. apply not_true_is_false. intros Hb.
    assert (existsb badScope scopes = true) as E' by (apply existsb_exists; exists s; by rewrite <-list_elem_of_In).
    by rewrite E in E'.
Qed.

Lemma validateCallerMethods_ok methods :
  validateCallerMethods methods = None <->
  Forall (fun r => logfields.exactMethod (ms_Method r) = true /\ ms_Scopes r <> [] /\
                   Forall (fun s => badScope s = false) (ms_Scopes r)) methods /\
  NoDup (ms_Method <$> methods).
Proof.
  unfold validateCallerMethods.
  rewrite (logfields.seen_loop ms_Method (fun r => logfields.exactMethod (ms_Method r) = true /\
    ms_Scopes r <> [] /\ Forall (fun s => badScope s = false) (ms_Scopes r)) validateCallerMethods_loop);
    [|done|].
  { split; [by intros (H1 & H2 & _)|intros [H1 H2]]. split_and!; [done..|].
    by intros x _ ?%elem_of_nil. }
  intros seen r l. cbn [validateCallerMethods_loop].
  destruct (decide (ms_Method r ∈ seen)); [naive_solver|].
  destruct (logfields.exactMethod (ms_Method r)); cbn [negb orb]; [|naive_solver].
  case_bool_decide; [naive_solver|].
  rewrite logfields.orElse_None, validateCallerScopes_ok. naive_solver.
Qed.

Lemma validateIntrospectionCache_ok a :
  validateIntrospectionCache a = None <->
  0 <= ca_IntrospectionMaxConcurrent a /\ 0 <= ca_IntrospectionCacheTTL a /\
  0 <= ca_IntrospectionCacheMaxEntries a <= MaxGRPCIntrospectionCacheEntries /\
  (0 < ca_IntrospectionCacheTTL a -> 0 < ca_IntrospectionCacheMaxEntries a).
Proof.
  unfold validateIntrospectionCache.
  destruct (Z.ltb_spec (ca_IntrospectionCacheTTL a) 0); [split; [done|lia]|].
  destruct (Z.ltb_spec (ca_IntrospectionCacheMaxEntries a) 0); [split; [done|lia]|].
  destruct (Z.ltb_spec MaxGRPCIntrospectionCacheEntries (ca_IntrospectionCacheMaxEntries a));
    [split; [done|lia]|]. cbn [orb].
  destruct (Z.ltb_spec (ca_IntrospectionMaxConcurrent a) 0); [split; [done|lia]|].
  destruct (Z.ltb_spec 0 (ca_IntrospectionCacheTTL a)), (Z.eqb_spec (ca_IntrospectionCacheMaxEntries a) 0);
    cbn [andb]; (split; [done || lia|]); intros; done || lia.
Qed.

Lemma validateGRPCIntrospection_ok a : validateGRPCIntrospection a = None <-> introspection_ok a.
Proof.
  unfold validateGRPCIntrospection, validIntrospectionURL.
  destruct (url_Parse (ca_IntrospectionEndpoint a)) as [u|] eqn:Eu; cbn [negb].
  2: { split; [done|]. intros [(u & E & _) _ _ _ _ _ _ _]. congruence. }
  rewrite <-!bool_decide_or. destruct (negb _) eqn:Eb.
  { split; [done|]. intros [(u' & E & H1 & H2 & H3 & H4 & H5) _ _ _ _ _ _ _].
    assert (u' = u) as -> by congruence. rewrite H3 in Eb.
    rewrite !bool_decide_true in Eb by done. done. }
  apply negb_false_iff in Eb. rewrite !andb_true_iff, !bool_decide_eq_true, negb_true_iff in Eb.
  case_bool_decide as Hn.
  { split; [done|]. intros [_ (? & ? & ? & ?) _ _ _ _ _ _]. tauto. }
  destruct (ResolveTLSMinVersion (ca_MinTLSVersion a)) as [v|e] eqn:Et.
  2: { split; [done|]. intros [_ _ E _ _ _ _ _]. by rewrite Et in E. }
  destruct (Z.ltb_spec (ca_Timeout a) 0).
  { split; [done|]. intros [_ _ _ E _ _ _ _]. lia. }
  rewrite !logfields.orElse_None, validateIntrospectionCache_ok, validateCallerMethods_ok, validateCallerScopes_ok.
  split.
  - intros ((? & ? & ? & ?) & (? & ?) & ?). split; try done; [|tauto|by rewrite Et].
    exists u. tauto.
  - intros [? ? ? ? (? & [? ?] & ?) ? [? ?] ?]. split_and!; done || lia.
Qed.

(** The modes of accepted settings. *)
Lemma ValidateGRPCCallerAuth_mode a grpcTLS oidc :
  ValidateGRPCCallerAuth a grpcTLS oidc = None ->
  ca_AllowUnauthenticated a = true \/ ca_Mode a = "" \/ ca_Mode a = "mtls" \/ ca_Mode a = "introspection".
Proof.
  unfold ValidateGRPCCallerAuth. destruct (ca_AllowUnauthenticated a); [by left|]. intros E. right.
  destruct (decide (ca_Mode a = "")); [by left|]. destruct (decide (ca_Mode a = "mtls")); [by right; left|].
  destruct (decide (ca_Mode a = grpcCallerIntrospectionMode)); [by right; right|done].
Qed.

(** The caller authentication settings that are accepted, at start-up and
    again for every RPC: either unauthenticated callers are explicitly allowed
    and no mode is set, or no mode is set and the proxy attaches no backend
    credentials of its own, or mTLS with verified client certificates, or
    introspection at a bare HTTPS endpoint with issuer, audience and client,
    with bounded cache and concurrency and unambiguous scope rules.  So backend
    credentials are never attached for callers nobody was told to check. *)
Theorem ValidateGRPCCallerAuth_wf a grpcTLS oidc :
  ValidateGRPCCallerAuth a grpcTLS oidc = None <->
  (ca_AllowUnauthenticated a = true /\ ca_Mode a = "") \/
  (ca_AllowUnauthenticated a = false /\
   ((ca_Mode a = "" /\ oidc_Enabled oidc = false) \/
    (ca_Mode a = "mtls" /\ tls_Enabled grpcTLS = true /\ tls_RequireClientCert grpcTLS = true /\
     tls_ClientCA grpcTLS <> "") \/
    (ca_Mode a = "introspection" /\ introspection_ok a))).
Proof.
  unfold ValidateGRPCCallerAuth. destruct (ca_AllowUnauthenticated a).
  { destruct (decide (ca_Mode a <> "")) as [E|E]; [naive_solver|]. apply dec_stable in E. naive_solver. }
  destruct (decide (ca_Mode a = "")) as [E|E1].
  { rewrite E. destruct (oidc_Enabled oidc); split; try done; [|naive_solver].
    intros [[? ?]|[_ [[_ ?]|[[? _]|[? _]]]]]; done. }
  destruct (decide (ca_Mode a = "mtls")) as [E|E2].
  { rewrite E. destruct (tls_Enabled grpcTLS), (tls_RequireClientCert grpcTLS); cbn [negb orb];
      try (split; [done|]; intros [[? ?]|[_ [[? _]|[(_ & ? & ? & _)|[? _]]]]]; done).
    case_bool_decide; split; try done.
    - intros [[? ?]|[_ [[? _]|[(_ & _ & _ & ?)|[? _]]]]]; done.
    - intros _. right. split; [done|]. right. left. done. }
  destruct (decide (ca_Mode a = grpcCallerIntrospectionMode)) as [E|E3].
  { rewrite validateGRPCIntrospection_ok. unfold grpcCallerIntrospectionMode in E. rewrite E. split.
    - intros ?. right. split; [done|]. right. right. done.
    - by intros [[? ?]|[_ [[? _]|[[? _]|[_ ?]]]]]. }
  split; [done|]. intros [[? ?]|[_ [[? _]|[[? _]|[? _]]]]]; done.
Qed.
End validate.
End callerauthconfig.
