(* ===== verification/ConfigGrpc.v ===== *)
(** * [internal/config/config.go], gRPC part: normalisation and validation

    The functions take a part of the configuration and return it normalised,
    or the first error.  Fields the source updates through pointers are
    returned in a new record.  [os.ReadFile] and [AppendCertsFromPEM] are
    parameters. *)
From S2P Require Export ConfigCallerAuth GoHttp GoStrconv.

Module grpcconfig.
Import callerauthconfig.

Definition protocolHTTP : string := "http".
Definition grpcCompareModeStatus : string := "status".
Definition grpcCompareModeStatusMetadata : string := "status_metadata".
Definition grpcCompareModeMessageCount : string := "message_count".
Definition grpcCompareModeMessageHash : string := "message_hash".
Definition grpcOIDCAuthMethodAuto : string := "auto".
Definition grpcOIDCAuthMethodClientSecretPost : string := "client_secret_post".
Definition grpcOIDCAuthMethodClientSecretBasic : string := "client_secret_basic".
Definition tlsMinVersionDefault : string := "1.2".
Definition grpcRuleShadowInherit : string := "inherit".
Definition grpcRuleShadowAuto : string := "auto".
Definition grpcRuleShadowNever : string := "never".
Definition grpcRuleShadowAlways : string := "always".
Definition grpcRuleCompareInherit : string := "inherit".
Definition grpcRuleCompareOn : string := "on".
Definition grpcRuleCompareOff : string := "off".
Definition selectionRoundRobin : string := "round_robin".
Definition selectionSourceIPHash : string := "source_ip_hash".
Definition millisecond : Z := 1000000.
Definition second : Z := 1000 * millisecond.

(** The gRPC fields of [Config]. *)
Record GRPCConfig := {
  g_ListenAddr : string;
  g_TLS : GRPCTLSConfig;
  g_PrimarySelectionMode : string;
  g_ShadowSelectionMode : string;
  g_PrimaryTargets : list GRPCTarget;
  g_ShadowTargets : list GRPCTarget;
  g_ShadowTimeout : Z;
  g_ShadowForceMetadata : string;
  g_ShadowQueueSize : Z;
  g_MaxReceiveMessageBytes : Z;
  g_MaxSendMessageBytes : Z;
  g_CompareMode : string;
  g_CompareMetadata : option (list string);
  g_Rules : option (list GRPCRule);
  g_CallerAuth : GRPCCallerAuthConfig;
  g_BackendOIDCAuth : GRPCBackendOIDCAuthConfig
}.

(** [fmt.Errorf] with [what: %w]. *)
Definition wrapped (what : string) (err : error) : error := errors_Wrap (what +:+ ": " +:+ Error err) err.

Class PEMFiles := { os_ReadFile : string -> res string; pem_HasCertificates : string -> bool }.

Section normalize.
Context `{Unicode} `{URLs} `{PEMFiles}.

(** The switches over a trimmed lower-case word: the value for none, the
    accepted words and the error. *)
Definition oneOf (raw empty : string) (allowed : list string) (err : error) : res string :=
  let mode := ToLower (TrimSpace raw) in
  if decide (mode = "") then Ok empty
  else if decide (mode ∈ allowed) then Ok mode
  else Err err.
Definition unsupportedValue (raw allowed : string) : error :=
  errors_New ("unsupported value " +:+ Quote raw +:+ " (allowed: " +:+ allowed +:+ ")").

Definition AuthClientTLSConfig (caFile serverName minimum : string) : res (Z * string * option string) :=
  version ← ResolveTLSMinVersion minimum;
  if decide (caFile = "") then Ok (version, serverName, None)
  else
    data ← res_wrap (wrapped "auth TLS ca_file") (os_ReadFile caFile);
    if pem_HasCertificates data then Ok (version, serverName, Some data)
    else Err (errors_New "auth TLS ca_file must contain PEM certificates").

(** ** Listener, TLS and selection modes *)

Definition normalizeGRPCTLS (cfg : GRPCTLSConfig) : res GRPCTLSConfig :=
  let version := TrimSpace (tls_MinTLSVersion cfg) in
  let cfg := {| tls_Enabled := tls_Enabled cfg; tls_Cert := TrimSpace (tls_Cert cfg);
                tls_Key := TrimSpace (tls_Key cfg); tls_ClientCA := TrimSpace (tls_ClientCA cfg);
                tls_RequireClientCert := tls_RequireClientCert cfg;
                tls_MinTLSVersion := if decide (version = "") then tlsMinVersionDefault else version |} in
  _ ← res_wrap (wrapped "grpc_tls") (ResolveTLSMinVersion (tls_MinTLSVersion cfg));
  if tls_RequireClientCert cfg && bool_decide (tls_ClientCA cfg = "")
  then Err (errors_New "grpc_tls requires client_ca when require_client_cert is true")
  else if tls_RequireClientCert cfg && negb (tls_Enabled cfg)
  then Err (errors_New "grpc_tls require_client_cert requires enabled TLS")
  else if negb (tls_Enabled cfg) then Ok cfg
  else if bool_decide (tls_Cert cfg = "") || bool_decide (tls_Key cfg = "")
  then Err (errors_New "grpc_tls requires cert and key when enabled")
  else Ok cfg.

Definition normalizeGRPCSelectionMode (raw field : string) : res string :=
  oneOf raw selectionRoundRobin [selectionRoundRobin; selectionSourceIPHash]
    (errors_New (field +:+ " must be one of round_robin or source_ip_hash")).

Definition normalizeGRPCListenerAndTLS (cfg : GRPCConfig) : res GRPCConfig :=
  let addr := TrimSpace (g_ListenAddr cfg) in
  if decide (addr = "") then Err (errors_New "grpc_listen_addr must not be empty when protocol is grpc")
  else
    tls ← normalizeGRPCTLS (g_TLS cfg);
    Ok {| g_ListenAddr := addr; g_TLS := tls; g_PrimarySelectionMode := g_PrimarySelectionMode cfg;
          g_ShadowSelectionMode := g_ShadowSelectionMode cfg; g_PrimaryTargets := g_PrimaryTargets cfg;
          g_ShadowTargets := g_ShadowTargets cfg; g_ShadowTimeout := g_ShadowTimeout cfg;
          g_ShadowForceMetadata := g_ShadowForceMetadata cfg; g_ShadowQueueSize := g_ShadowQueueSize cfg;
          g_MaxReceiveMessageBytes := g_MaxReceiveMessageBytes cfg;
          g_MaxSendMessageBytes := g_MaxSendMessageBytes cfg; g_CompareMode := g_CompareMode cfg;
          g_CompareMetadata := g_CompareMetadata cfg; g_Rules := g_Rules cfg;
          g_CallerAuth := g_CallerAuth cfg; g_BackendOIDCAuth := g_BackendOIDCAuth cfg |}.

Definition normalizeGRPCSelectionModes (cfg : GRPCConfig) : res GRPCConfig :=
  primary ← normalizeGRPCSelectionMode (g_PrimarySelectionMode cfg) "primary_grpc_selection_mode";
  shadow ← normalizeGRPCSelectionMode (g_ShadowSelectionMode cfg) "shadow_grpc_selection_mode";
  Ok {| g_ListenAddr := g_ListenAddr cfg; g_TLS := g_TLS cfg; g_PrimarySelectionMode := primary;
        g_ShadowSelectionMode := shadow; g_PrimaryTargets := g_PrimaryTargets cfg;
        g_ShadowTargets := g_ShadowTargets cfg; g_ShadowTimeout := g_ShadowTimeout cfg;
        g_ShadowForceMetadata := g_ShadowForceMetadata cfg; g_ShadowQueueSize := g_ShadowQueueSize cfg;
        g_MaxReceiveMessageBytes := g_MaxReceiveMessageBytes cfg;
        g_MaxSendMessageBytes := g_MaxSendMessageBytes cfg; g_CompareMode := g_CompareMode cfg;
        g_CompareMetadata := g_CompareMetadata cfg; g_Rules := g_Rules cfg;
        g_CallerAuth := g_CallerAuth cfg; g_BackendOIDCAuth := g_BackendOIDCAuth cfg |}.

Definition normalizeGRPCRuntimeConfig (cfg : GRPCConfig) : res GRPCConfig :=
  if g_MaxReceiveMessageBytes cfg <? 0
  then Err (errors_New "grpc_max_receive_message_bytes must not be negative")
  else if g_MaxSendMessageBytes cfg <? 0
  then Err (errors_New "grpc_max_send_message_bytes must not be negative")
  else
    Ok {| g_ListenAddr := g_ListenAddr cfg; g_TLS := g_TLS cfg;
          g_PrimarySelectionMode := g_PrimarySelectionMode cfg;
          g_ShadowSelectionMode := g_ShadowSelectionMode cfg; g_PrimaryTargets := g_PrimaryTargets cfg;
          g_ShadowTargets := g_ShadowTargets cfg;
          g_ShadowTimeout := if g_ShadowTimeout cfg <=? 0 then 500 * millisecond else g_ShadowTimeout cfg;
          g_ShadowForceMetadata := g_ShadowForceMetadata cfg;
          g_ShadowQueueSize := if g_ShadowQueueSize cfg <=? 0 then 128 else g_ShadowQueueSize cfg;
          g_MaxReceiveMessageBytes :=
            if g_MaxReceiveMessageBytes cfg =? 0 then 4 * 1024 * 1024 else g_MaxReceiveMessageBytes cfg;
          g_MaxSendMessageBytes :=
            if g_MaxSendMessageBytes cfg =? 0 then 4 * 1024 * 1024 else g_MaxSendMessageBytes cfg;
          g_CompareMode := g_CompareMode cfg; g_CompareMetadata := g_CompareMetadata cfg;
          g_Rules := g_Rules cfg; g_CallerAuth := g_CallerAuth cfg;
          g_BackendOIDCAuth := g_BackendOIDCAuth cfg |}.

(** ** Metadata keys *)

Definition metadataRune (r : Z) : bool :=
  ((97 <=? r) && (r <=? 122)) || ((48 <=? r) && (r <=? 57)) || (r =? 45) || (r =? 95) || (r =? 46).
Definition normalizeGRPCMetadataKey (raw : string) : res string :=
  let key := ToLower (TrimSpace raw) in
  if decide (key = "") then Err (errors_New "gRPC metadata key must not be empty")
  else if forallb metadataRune (runes key) then Ok key
  else Err (errors_New ("invalid gRPC metadata key " +:+ Quote raw)).

Definition duplicateKey (name : string) : error :=
  errors_New ("duplicate gRPC metadata key " +:+ Quote name).

(** [seen] holds the names so far, [normalizeGRPCMetadataKeys]'s loop. *)
Fixpoint normalizeKeys (seen : list string) (names : list string) : res (list string) :=
  match names with
  | [] => Ok []
  | raw :: names' =>
      name ← normalizeGRPCMetadataKey raw;
      if decide (name ∈ seen) then Err (duplicateKey name)
      else rest ← normalizeKeys (name :: seen) names'; Ok (name :: rest)
  end.
Definition normalizeGRPCMetadataKeys (names : option (list string)) : res (option (list string)) :=
  match names with
  | None => Ok None
  | Some names => normalized ← normalizeKeys [] names; Ok (Some normalized)
  end.

Definition validateGRPCOverlayMetadataKey (key : string) : option error :=
  if ContainsByte key ":"%char then Some (errors_New ("reserved gRPC metadata key " +:+ Quote key))
  else if bool_decide (key = "content-type") || bool_decide (key = "te")
  then Some (errors_New ("reserved gRPC metadata key " +:+ Quote key))
  else if HasPrefix key "grpc-" then Some (errors_New ("reserved gRPC metadata key " +:+ Quote key))
  else if HasSuffix key "-bin"
  then Some (errors_New ("binary gRPC metadata overlay " +:+ Quote key +:+ " is not supported"))
  else None.

(** The loop over the pairs of the map in range order. *)
Fixpoint normalizeOverlay (normalized : gmap string string) (values : list (string * string))
    : res (gmap string string) :=
  match values with
  | [] => Ok normalized
  | (raw, value) :: values' =>
      name ← normalizeGRPCMetadataKey raw;
      match validateGRPCOverlayMetadataKey name with
      | Some err => Err err
      | None =>
          match normalized !! name with
          | Some _ => Err (duplicateKey name)
          | None => normalizeOverlay (<[name := value]> normalized) values'
          end
      end
  end.
(** [range]: the order in which Go ranges over a map. *)
Definition normalizeGRPCOverlayMetadataMap (range : gmap string string -> list (string * string))
    (values : option (gmap string string)) : res (option (gmap string string)) :=
  match values with
  | None => Ok None
  | Some values => normalized ← normalizeOverlay ∅ (range values); Ok (Some normalized)
  end.

Definition normalizeGRPCCompareMode (raw : string) (allowEmpty : bool) : res string :=
  oneOf raw (if allowEmpty then "" else grpcCompareModeStatus)
    [grpcCompareModeStatus; grpcCompareModeStatusMetadata; grpcCompareModeMessageCount; grpcCompareModeMessageHash]
    (unsupportedValue raw "status, status_metadata, message_count, message_hash").

Definition normalizeGRPCMetadataConfig (cfg : GRPCConfig) : res GRPCConfig :=
  let force := TrimSpace (g_ShadowForceMetadata cfg) in
  force ← (if decide (force = "") then Ok force
           else res_wrap (wrapped "grpc_shadow_force_metadata") (normalizeGRPCMetadataKey force));
  mode ← res_wrap (wrapped "grpc_compare_mode") (normalizeGRPCCompareMode (g_CompareMode cfg) false);
  keys ← res_wrap (wrapped "grpc_compare_metadata") (normalizeGRPCMetadataKeys (g_CompareMetadata cfg));
  Ok {| g_ListenAddr := g_ListenAddr cfg; g_TLS := g_TLS cfg;
        g_PrimarySelectionMode := g_PrimarySelectionMode cfg;
        g_ShadowSelectionMode := g_ShadowSelectionMode cfg; g_PrimaryTargets := g_PrimaryTargets cfg;
        g_ShadowTargets := g_ShadowTargets cfg; g_ShadowTimeout := g_ShadowTimeout cfg;
        g_ShadowForceMetadata := force; g_ShadowQueueSize := g_ShadowQueueSize cfg;
        g_MaxReceiveMessageBytes := g_MaxReceiveMessageBytes cfg;
        g_MaxSendMessageBytes := g_MaxSendMessageBytes cfg; g_CompareMode := mode;
        g_CompareMetadata := keys; g_Rules := g_Rules cfg; g_CallerAuth := g_CallerAuth cfg;
        g_BackendOIDCAuth := g_BackendOIDCAuth cfg |}.

(** ** Targets and rules *)

Definition indexed (field : string) (i : Z) : string := field +:+ "[" +:+ Itoa i +:+ "]".

Definition normalizeGRPCTargetTLS (cfg : GRPCTargetTLS) (field : string) : res GRPCTargetTLS :=
  let cfg := {| gtls_Enabled := gtls_Enabled cfg; gtls_RootCA := TrimSpace (gtls_RootCA cfg);
                gtls_ServerName := TrimSpace (gtls_ServerName cfg);
                gtls_InsecureSkipVerify := gtls_InsecureSkipVerify cfg;
                gtls_ClientCert := TrimSpace (gtls_ClientCert cfg);
                gtls_ClientKey := TrimSpace (gtls_ClientKey cfg) |} in
  if decide (gtls_ClientCert cfg = "" /\ gtls_ClientKey cfg = "") then Ok cfg
  else if negb (gtls_Enabled cfg)
  then Err (errors_New (field +:+ " client_cert/client_key require enabled TLS"))
  else if decide (gtls_ClientCert cfg = "" \/ gtls_ClientKey cfg = "")
  then Err (errors_New (field +:+ " client_cert and client_key must be configured together"))
  else Ok cfg.

Definition normalizeGRPCTarget (field : string) (i : Z) (t : GRPCTarget) : res GRPCTarget :=
  let address := TrimSpace (gt_Address t) in
  if decide (address = "") then Err (errors_New (indexed field i +:+ ".address is required"))
  else
    tls ← normalizeGRPCTargetTLS (gt_TLS t) (indexed field i +:+ ".tls");
    Ok {| gt_Name := TrimSpace (gt_Name t); gt_Address := address;
          gt_Authority := TrimSpace (gt_Authority t); gt_TLS := tls |}.

(** A loop over a slice with the index. *)
Fixpoint res_imap {A B} (f : Z -> A -> res B) (i : Z) (l : list A) : res (list B) :=
  match l with
  | [] => Ok []
  | x :: l' => y ← f i x; ys ← res_imap f (i + 1) l'; Ok (y :: ys)
  end.
Definition normalizeGRPCTargets (targets : list GRPCTarget) (field : string) : res (list GRPCTarget) :=
  res_imap (normalizeGRPCTarget field) 0 targets.

Definition normalizeGRPCRuleMethods (methods : option (list string)) (index : Z) : res (option (list string)) :=
  match methods with
  | None => Ok None
  | Some methods =>
      normalized ← res_map (fun raw =>
        let method := TrimSpace raw in
        if decide (method = "" \/ ContainsByte method "/"%char = true)
        then Err (errors_New (indexed "grpc_rules" index +:+ ".methods contains invalid method " +:+ Quote raw))
        else Ok method) methods;
      Ok (Some normalized)
  end.

Definition normalizeGRPCRuleShadow (raw : string) : res string :=
  oneOf raw grpcRuleShadowInherit
    [grpcRuleShadowInherit; grpcRuleShadowAuto; grpcRuleShadowNever; grpcRuleShadowAlways]
    (unsupportedValue raw "inherit, auto, never, always").
Definition normalizeGRPCRuleCompare (raw : string) : res string :=
  oneOf raw grpcRuleCompareInherit [grpcRuleCompareInherit; grpcRuleCompareOn; grpcRuleCompareOff]
    (unsupportedValue raw "inherit, on, off").

Definition normalizeGRPCRule (range : gmap string string -> list (string * string)) (index : Z)
    (rule : GRPCRule) : res GRPCRule :=
  let at_ field := wrapped (indexed "grpc_rules" index +:+ field) in
  let service := TrimSpace (gr_Service rule) in
  if decide (service = "") then Err (errors_New (indexed "grpc_rules" index +:+ ".service is required"))
  else
    methods ← normalizeGRPCRuleMethods (gr_Methods rule) index;
    shadow ← res_wrap (at_ ".shadow") (normalizeGRPCRuleShadow (gr_Shadow rule));
    compare ← res_wrap (at_ ".compare") (normalizeGRPCRuleCompare (gr_Compare rule));
    mode ← res_wrap (at_ ".compare_mode") (normalizeGRPCCompareMode (gr_CompareMode rule) true);
    keys ← res_wrap (at_ ".compare_metadata") (normalizeGRPCMetadataKeys (gr_CompareMetadata rule));
    primary ← res_wrap (at_ ".primary_metadata") (normalizeGRPCOverlayMetadataMap range (gr_PrimaryMetadata rule));
    shadowMD ← res_wrap (at_ ".shadow_metadata") (normalizeGRPCOverlayMetadataMap range (gr_ShadowMetadata rule));
    Ok {| gr_Name := TrimSpace (gr_Name rule); gr_Service := service; gr_Methods := methods;
          gr_Shadow := shadow; gr_Compare := compare; gr_CompareMode := mode; gr_CompareMetadata := keys;
          gr_PrimaryMetadata := primary; gr_ShadowMetadata := shadowMD |}.

Definition normalizeGRPCRules (range : gmap string string -> list (string * string))
    (rules : option (list GRPCRule)) : res (option (list GRPCRule)) :=
  match rules with
  | None => Ok (Some [])
  | Some rules => normalized ← res_imap (normalizeGRPCRule range) 0 rules; Ok (Some normalized)
  end.

Definition normalizeGRPCTargetAndRuleConfig (range : gmap string string -> list (string * string))
    (cfg : GRPCConfig) : res GRPCConfig :=
  primary ← normalizeGRPCTargets (g_PrimaryTargets cfg) "primary_grpc_targets";
  if decide (primary = [])
  then Err (errors_New "at least one primary gRPC target must be configured via primary_grpc_targets")
  else
    shadow ← normalizeGRPCTargets (g_ShadowTargets cfg) "shadow_grpc_targets";
    rules ← normalizeGRPCRules range (g_Rules cfg);
    Ok {| g_ListenAddr := g_ListenAddr cfg; g_TLS := g_TLS cfg;
          g_PrimarySelectionMode := g_PrimarySelectionMode cfg;
          g_ShadowSelectionMode := g_ShadowSelectionMode cfg; g_PrimaryTargets := primary;
          g_ShadowTargets := shadow; g_ShadowTimeout := g_ShadowTimeout cfg;
          g_ShadowForceMetadata := g_ShadowForceMetadata cfg; g_ShadowQueueSize := g_ShadowQueueSize cfg;
          g_MaxReceiveMessageBytes := g_MaxReceiveMessageBytes cfg;
          g_MaxSendMessageBytes := g_MaxSendMessageBytes cfg; g_CompareMode := g_CompareMode cfg;
          g_CompareMetadata := g_CompareMetadata cfg; g_Rules := rules; g_CallerAuth := g_CallerAuth cfg;
          g_BackendOIDCAuth := g_BackendOIDCAuth cfg |}.

(** ** Bearer tokens for the primary *)

Definition normalizeStringList (values : option (list string)) : option (list string) :=
  match values with
  | None => None
  | Some l => Some (filter (fun value : string => value <> "") (TrimSpace <$> l))
  end.

Definition normalizeGRPCBackendOIDCAuthDefaults (t : GRPCBackendOIDCAuthConfig) : GRPCBackendOIDCAuthConfig :=
  let method := ToLower (TrimSpace (oidc_AuthMethod t)) in
  {| oidc_CAFile := oidc_CAFile t; oidc_ServerName := oidc_ServerName t;
     oidc_MinTLSVersion := oidc_MinTLSVersion t; oidc_Enabled := oidc_Enabled t;
     oidc_ConfigurationURI := TrimSpace (oidc_ConfigurationURI t);
     oidc_TokenEndpoint := TrimSpace (oidc_TokenEndpoint t); oidc_ClientID := TrimSpace (oidc_ClientID t);
     oidc_ClientSecret := TrimSpace (oidc_ClientSecret t);
     oidc_ClientSecretEnv := TrimSpace (oidc_ClientSecretEnv t);
     oidc_AuthMethod := if decide (method = "") then grpcOIDCAuthMethodAuto else method;
     oidc_Scopes := normalizeStringList (oidc_Scopes t);
     oidc_Timeout := if oidc_Timeout t <=? 0 then 5 * second else oidc_Timeout t;
     oidc_RefreshSkew := if oidc_RefreshSkew t <=? 0 then 30 * second else oidc_RefreshSkew t;
     oidc_InsecureTLS := oidc_InsecureTLS t |}.

Definition validateGRPCBackendOIDCAuthURL (field value : string) : option error :=
  if decide (value = "") then None
  else
    let bad := Some (errors_New ("grpc_backend_oidc_auth." +:+ field +:+ " must be an absolute URL: " +:+ Quote value)) in
    match url_Parse value with
    | None => bad
    | Some u =>
        if decide (u_Scheme u = "" \/ u_Host u = "") then bad
        else if decide (u_Scheme u <> grpcHTTPScheme /\ u_Scheme u <> protocolHTTP)
        then Some (errors_New ("grpc_backend_oidc_auth." +:+ field +:+ " has unsupported scheme " +:+ Quote (u_Scheme u)))
        else None
    end.

Definition validateGRPCBackendOIDCAuthEndpoints (t : GRPCBackendOIDCAuthConfig) : option error :=
  if decide (oidc_ConfigurationURI t = "" /\ oidc_TokenEndpoint t = "")
  then Some (errors_New "grpc_backend_oidc_auth.configuration_uri or token_endpoint is required when grpc_backend_oidc_auth.enabled is true")
  else logfields.orElse (validateGRPCBackendOIDCAuthURL "configuration_uri" (oidc_ConfigurationURI t))
         (validateGRPCBackendOIDCAuthURL "token_endpoint" (oidc_TokenEndpoint t)).

Definition validateGRPCBackendOIDCAuthSecrets (t : GRPCBackendOIDCAuthConfig) : option error :=
  if decide (oidc_ClientSecret t = "" /\ oidc_ClientSecretEnv t = "")
  then Some (errors_New "grpc_backend_oidc_auth.client_secret or client_secret_env is required when grpc_backend_oidc_auth.enabled is true")
  else if decide (oidc_ClientSecret t <> "" /\ oidc_ClientSecretEnv t <> "")
  then Some (errors_New "grpc_backend_oidc_auth must not set both client_secret and client_secret_env")
  else None.

Definition validateGRPCBackendOIDCAuthMethod (method : string) : option error :=
  if decide (method ∈ [grpcOIDCAuthMethodAuto; grpcOIDCAuthMethodClientSecretPost; grpcOIDCAuthMethodClientSecretBasic])
  then None
  else Some (errors_New ("grpc_backend_oidc_auth.auth_method has unsupported value " +:+ Quote method)).

Fixpoint metadataConflict (index : Z) (rules : list GRPCRule) : option error :=
  match rules with
  | [] => None
  | rule :: rules' =>
      match gr_PrimaryMetadata rule ≫= (.!! "authorization") with
      | Some _ => Some (errors_New (indexed "grpc_rules" index +:+
                          ".primary_metadata.authorization conflicts with grpc_backend_oidc_auth"))
      | None => metadataConflict (index + 1) rules'
      end
  end.
Definition validateGRPCBackendOIDCAuthMetadataConflict (rules : option (list GRPCRule)) : option error :=
  metadataConflict 0 (default [] rules).

Definition check (e : option error) : res unit := match e with Some err => Err err | None => Ok tt end.

Definition normalizeGRPCBackendOIDCAuthConfig (cfg : GRPCConfig) : res GRPCConfig :=
  let t := normalizeGRPCBackendOIDCAuthDefaults (g_BackendOIDCAuth cfg) in
  let cfg := {| g_ListenAddr := g_ListenAddr cfg; g_TLS := g_TLS cfg;
    g_PrimarySelectionMode := g_PrimarySelectionMode cfg; g_ShadowSelectionMode := g_ShadowSelectionMode cfg;
    g_PrimaryTargets := g_PrimaryTargets cfg; g_ShadowTargets := g_ShadowTargets cfg;
    g_ShadowTimeout := g_ShadowTimeout cfg; g_ShadowForceMetadata := g_ShadowForceMetadata cfg;
    g_ShadowQueueSize := g_ShadowQueueSize cfg; g_MaxReceiveMessageBytes := g_MaxReceiveMessageBytes cfg;
    g_MaxSendMessageBytes := g_MaxSendMessageBytes cfg; g_CompareMode := g_CompareMode cfg;
    g_CompareMetadata := g_CompareMetadata cfg; g_Rules := g_Rules cfg; g_CallerAuth := g_CallerAuth cfg;
    g_BackendOIDCAuth := t |} in
  if negb (oidc_Enabled t) then Ok cfg
  else
    _ ← AuthClientTLSConfig (oidc_CAFile t) (oidc_ServerName t) (oidc_MinTLSVersion t);
    if oidc_InsecureTLS t && (bool_decide (oidc_CAFile t <> "") || bool_decide (oidc_ServerName t <> ""))
    then Err (errors_New "grpc_backend_oidc_auth: insecure_tls cannot be combined with ca_file or server_name")
    else
      _ ← check (validateGRPCBackendOIDCAuthEndpoints t);
      if decide (oidc_ClientID t = "")
      then Err (errors_New "grpc_backend_oidc_auth.client_id is required when grpc_backend_oidc_auth.enabled is true")
      else
        _ ← check (validateGRPCBackendOIDCAuthSecrets t);
        _ ← check (validateGRPCBackendOIDCAuthMethod (oidc_AuthMethod t));
        _ ← check (validateGRPCBackendOIDCAuthMetadataConflict (g_Rules cfg));
        Ok cfg.

(** [normalizeGRPCConfig] once the protocol is gRPC. *)
Definition normalizeGRPC (range : gmap string string -> list (string * string)) (cfg : GRPCConfig)
    : res GRPCConfig :=
  cfg ← normalizeGRPCListenerAndTLS cfg;
  cfg ← normalizeGRPCSelectionModes cfg;
  cfg ← normalizeGRPCRuntimeConfig cfg;
  cfg ← normalizeGRPCMetadataConfig cfg;
  cfg ← normalizeGRPCTargetAndRuleConfig range cfg;
  cfg ← normalizeGRPCBackendOIDCAuthConfig cfg;
  _ ← check (ValidateGRPCCallerAuth (g_CallerAuth cfg) (g_TLS cfg) (g_BackendOIDCAuth cfg));
  if decide (ca_Mode (g_CallerAuth cfg) = grpcCallerIntrospectionMode) then
    let a := g_CallerAuth cfg in
    _ ← AuthClientTLSConfig (ca_CAFile a) (ca_ServerName a) (ca_MinTLSVersion a);
    Ok cfg
  else Ok cfg.
End normalize.

(** ** Well-formed parts *)

(** A function that normalises: what it returns has the property, and it keeps
    what has it. *)
Definition normalizes {A} (f : A -> res A) (P : A -> Prop) : Prop :=
  (forall x y, f x = Ok y -> P y) /\ (forall y, P y -> f y = Ok y).

(** A word the switches keep. *)
Definition word `{Unicode} (w : string) : Prop := w <> "" /\ TrimSpace w = w /\ ToLower w = w.
Definition trimmed (s : string) : Prop := TrimSpace s = s.

Section lemmas.
Context `{Unicode}.

Lemma decode_rune_ascii a l z n : decode_rune (a :: l) = (z, n) -> 0 <= z < 128 -> z = code a /\ n = 1%nat.
Proof.
  unfold decode_rune. pose proof (code_range a) as Ha. cbv zeta.
  destruct (Z.ltb_spec (code a) 0x80); [by intros [= <- <-]|].
  destruct l as [|b l2]; [intros [= <- <-]; lia|].
  pose proof (code_range b) as Hb.
  destruct ((0xC2 <=? code a) && (code a <=? 0xDF)) eqn:E1.
  { destruct (cont 0x80 0xBF b) eqn:E; intros [= <- <-]; unfold cont in *; lia. }
  destruct l2 as [|c l3]; [intros [= <- <-]; lia|]. pose proof (code_range c) as Hc.
  destruct ((0xE0 <=? code a) && (code a <=? 0xEF)) eqn:E2.
  { set (lo := if code a =? 0xE0 then _ else _). set (hi := if code a =? 0xED then _ else _).
    destruct (cont lo hi b && cont 0x80 0xBF c) eqn:E; intros [= <- <-]; [|lia].
    unfold cont, lo in *. destruct (Z.eqb_spec (code a) 0xE0); lia. }
  destruct l3 as [|d l4]; [intros [= <- <-]; lia|]. pose proof (code_range d) as Hd.
  set (lo := if code a =? 0xF0 then _ else _). set (hi := if code a =? 0xF4 then _ else _).
  destruct ((0xF0 <=? code a) && (code a <=? 0xF4) && cont lo hi b && cont 0x80 0xBF c && cont 0x80 0xBF d) eqn:E;
    intros [= <- <-]; [|lia].
  unfold cont, lo in *. destruct (Z.eqb_spec (code a) 0xF0); lia.
Qed.

Lemma runes_ascii_go n l : (length l <= n)%nat ->
  Forall (fun r => 0 <= r < 128) (fst <$> runes_go n l) -> (fst <$> runes_go n l) = code <$> l.
Proof.
  revert l. induction n as [|n IH]; intros [|a l] Hn; cbn [length] in Hn; try done; [lia|].
  cbn [runes_go]. destruct (decode_rune (a :: l)) as [z w] eqn:E. rewrite !fmap_cons. cbn [fst snd].
  intros [Hz Hr]%Forall_cons. destruct (decode_rune_ascii _ _ _ _ E Hz) as [-> ->].
  f_equal. change (drop (Nat.max 1 1) (a :: l)) with l in *. apply IH; [lia|done].
Qed.
Lemma runes_ascii s : Forall (fun r => 0 <= r < 128) (runes s) -> runes s = code <$> chars s.
Proof. apply runes_ascii_go. by rewrite length_chars. Qed.

Lemma runes_of_ascii_go n l : (length l <= n)%nat -> Forall (fun c => code c < 128) l ->
  (fst <$> runes_go n l) = code <$> l.
Proof.
  revert l. induction n as [|n IH]; intros [|a l] Hn; cbn [length] in Hn; try done; [lia|].
  intros [Ha Hl]%Forall_cons. cbn [runes_go].
  assert (decode_rune (a :: l) = (code a, 1%nat)) as ->.
  { unfold decode_rune. cbv zeta. destruct (Z.ltb_spec (code a) 0x80); [done|lia]. }
  rewrite !fmap_cons. cbn [fst snd].
  change (drop (Nat.max 1 1) (a :: l)) with l. f_equal. apply IH; [lia|done].
Qed.

(** A metadata key of the configuration. *)
Definition metadataKey (k : string) : Prop := k <> "" /\ Forall (fun c => metadataRune (code c) = true) (chars k).

Lemma metadataRune_plain c : metadataRune (code c) = true -> plain c /\ code c < 128 /\ lower1 c = c.
Proof. unfold metadataRune, plain, lower1. intros Hc. assert ((65 <=? code c) && (code c <=? 90) = false) as -> by lia. split_and!; [lia|lia|lia|done]. Qed.

Lemma metadataKey_word k : metadataKey k -> word k.
Proof.
  intros [Hne Hk]. assert (Hp : Forall (fun c => plain c /\ code c < 128 /\ lower1 c = c) (chars k))
    by (eapply Forall_impl; [exact Hk|apply metadataRune_plain]).
  split_and!; [done| |].
  - apply TrimSpace_plain. eapply Forall_impl; [exact Hp|]. by intros ? [? _].
  - unfold ToLower. rewrite (proj2 (is_ascii_spec k)).
    + apply chars_inj. unfold map_chars. rewrite chars_of_chars.
      rewrite <- (list_fmap_id (chars k)) at 2. apply list_fmap_ext. intros i c Hc.
      eapply Forall_lookup_1 in Hp; [|exact Hc]. by destruct Hp as (_ & _ & ->).
    + eapply Forall_impl; [exact Hp|]. by intros ? (_ & ? & _).
Qed.

Lemma normalizeGRPCMetadataKey_ok : normalizes normalizeGRPCMetadataKey metadataKey.
Proof.
  split.
  - intros raw k. unfold normalizeGRPCMetadataKey. case_decide as Hne; [done|].
    destruct (forallb metadataRune _) eqn:Hf; [|done]. intros [= <-]. split; [done|].
    set (k := ToLower (TrimSpace raw)) in *.
    assert (Ha : Forall (fun r => 0 <= r < 128) (runes k)).
    { apply Forall_forall. intros r Hr. rewrite forallb_forall in Hf.
      specialize (Hf r (proj1 (list_elem_of_In _ _) Hr)). unfold metadataRune in Hf. lia. }
    rewrite (runes_ascii k Ha) in Hf. rewrite forallb_forall in Hf. apply Forall_forall. intros c Hc.
    apply Hf, list_elem_of_In. by apply list_elem_of_fmap_2.
  - intros k Hk. destruct (metadataKey_word k Hk) as (Hne & Ht & Hl). unfold normalizeGRPCMetadataKey.
    rewrite Ht, Hl, decide_False by done. destruct Hk as [_ Hk].
    assert (E : runes k = code <$> chars k).
    { apply runes_of_ascii_go; [by rewrite length_chars|]. eapply Forall_impl; [exact Hk|].
      intros c Hc. by apply metadataRune_plain in Hc as (_ & ? & _). }
    rewrite E. destruct (forallb metadataRune (code <$> chars k)) eqn:Hf; [done|].
    assert (forallb metadataRune (code <$> chars k) = true); [|congruence].
    apply forallb_forall. intros r Hr. apply list_elem_of_In, list_elem_of_fmap in Hr as (c & -> & Hc).
    by eapply Forall_forall in Hk.
Qed.

Lemma oneOf_ok raw empty allowed err m :
  oneOf raw empty allowed err = Ok m -> m = empty \/ m ∈ allowed.
Proof. unfold oneOf. case_decide; [intros [= <-]; by left|]. case_decide; [|done]. intros [= <-]. by right. Qed.
Lemma oneOf_word m empty allowed err : word m -> m ∈ allowed -> oneOf m empty allowed err = Ok m.
Proof. intros (Hne & Ht & Hl) Hin. unfold oneOf. rewrite Ht, Hl, decide_False by done. by rewrite decide_True. Qed.
Lemma oneOf_empty allowed err : oneOf "" "" allowed err = Ok "".
Proof. done. Qed.
End lemmas.

Section wellformed.
Context `{Unicode} `{URLs} `{PEMFiles}.

Record tls_ok (t : GRPCTLSConfig) : Prop := {
  tls_trimmed : trimmed (tls_Cert t) /\ trimmed (tls_Key t) /\ trimmed (tls_ClientCA t);
  tls_version : trimmed (tls_MinTLSVersion t) /\ tls_MinTLSVersion t <> "" /\
    is_ok (ResolveTLSMinVersion (tls_MinTLSVersion t)) = true;
  tls_mutual : tls_RequireClientCert t = true -> tls_ClientCA t <> "" /\ tls_Enabled t = true;
  tls_pair : tls_Enabled t = true -> tls_Cert t <> "" /\ tls_Key t <> ""
}.

Definition selection_ok (mode : string) : Prop := mode ∈ [selectionRoundRobin; selectionSourceIPHash].
Definition compare_modes : list string :=
  [grpcCompareModeStatus; grpcCompareModeStatusMetadata; grpcCompareModeMessageCount; grpcCompareModeMessageHash].

Definition keys_ok (keys : option (list string)) : Prop :=
  match keys with None => True | Some l => Forall metadataKey l /\ NoDup l end.
Definition overlay_ok (overlay : option (gmap string string)) : Prop :=
  match overlay with
  | None => True
  | Some m => forall k v, m !! k = Some v -> metadataKey k /\ validateGRPCOverlayMetadataKey k = None
  end.

Record target_tls_ok (t : GRPCTargetTLS) : Prop := {
  gtls_trimmed : trimmed (gtls_RootCA t) /\ trimmed (gtls_ServerName t) /\
    trimmed (gtls_ClientCert t) /\ trimmed (gtls_ClientKey t);
  gtls_pair : (gtls_ClientCert t = "" /\ gtls_ClientKey t = "") \/
    (gtls_Enabled t = true /\ gtls_ClientCert t <> "" /\ gtls_ClientKey t <> "")
}.
Record target_ok (t : GRPCTarget) : Prop := {
  gt_trimmed : trimmed (gt_Name t) /\ trimmed (gt_Address t) /\ trimmed (gt_Authority t);
  gt_address : gt_Address t <> "";
  gt_tls : target_tls_ok (gt_TLS t)
}.

Definition method_ok (m : string) : Prop := trimmed m /\ m <> "" /\ ContainsByte m "/"%char = false.
Record rule_ok (r : GRPCRule) : Prop := {
  ok_service : trimmed (gr_Name r) /\ trimmed (gr_Service r) /\ gr_Service r <> "";
  ok_methods : match gr_Methods r with None => True | Some l => Forall method_ok l end;
  ok_shadow : gr_Shadow r ∈ [grpcRuleShadowInherit; grpcRuleShadowAuto; grpcRuleShadowNever; grpcRuleShadowAlways];
  ok_compare : gr_Compare r ∈ [grpcRuleCompareInherit; grpcRuleCompareOn; grpcRuleCompareOff];
  ok_mode : gr_CompareMode r = "" \/ gr_CompareMode r ∈ compare_modes;
  ok_keys : keys_ok (gr_CompareMetadata r);
  ok_overlays : overlay_ok (gr_PrimaryMetadata r) /\ overlay_ok (gr_ShadowMetadata r)
}.

Lemma ToLower_words l : Forall (fun w => is_ascii w = true /\ w <> "" /\ TrimSpace w = w /\ map_chars lower1 w = w) l ->
  Forall word l.
Proof. intros Hl. eapply Forall_impl; [exact Hl|]. intros w (Ha & Hn & Ht & Hm). split_and!; try done. unfold ToLower. by rewrite Ha. Qed.

Ltac words := apply ToLower_words; repeat constructor; done.
Lemma selection_words : Forall word [selectionRoundRobin; selectionSourceIPHash].
Proof. words. Qed.
Lemma compare_words : Forall word compare_modes.
Proof. words. Qed.
Lemma shadow_words : Forall word [grpcRuleShadowInherit; grpcRuleShadowAuto; grpcRuleShadowNever; grpcRuleShadowAlways].
Proof. words. Qed.
Lemma compare_decision_words : Forall word [grpcRuleCompareInherit; grpcRuleCompareOn; grpcRuleCompareOff].
Proof. words. Qed.

Lemma oneOf_normalizes empty allowed (err : string -> error) :
  Forall word allowed -> empty ∈ allowed -> normalizes (fun raw => oneOf raw empty allowed (err raw)) (.∈ allowed).
Proof.
  intros Hw He. split.
  - intros x y [->|?]%oneOf_ok; done.
  - intros y Hy. apply oneOf_word; [|done]. by eapply Forall_forall in Hw.
Qed.

Lemma normalizeGRPCTLS_ok : normalizes normalizeGRPCTLS tls_ok.
Proof.
  split.
  - intros x y. unfold normalizeGRPCTLS. cbn [tls_RequireClientCert tls_ClientCA tls_Enabled tls_Cert tls_Key tls_MinTLSVersion].
    set (v := if decide (TrimSpace (tls_MinTLSVersion x) = "") then tlsMinVersionDefault else _).
    assert (Hv : trimmed v /\ v <> "").
    { unfold v. case_decide; [done|]. split; [apply TrimSpace_idemp|done]. }
    destruct (ResolveTLSMinVersion v) eqn:Ev; [|done]. cbn [res_wrap mbind res_bind].
    destruct (tls_RequireClientCert x) eqn:Er, (decide (TrimSpace (tls_ClientCA x) = "")) as [Ec|Ec],
      (tls_Enabled x) eqn:Ee; rewrite ?(bool_decide_true _ Ec), ?(bool_decide_false _ Ec); cbn [andb negb]; try done.
    all: try (destruct (bool_decide_reflect (TrimSpace (tls_Cert x) = "")); [done|];
              destruct (bool_decide_reflect (TrimSpace (tls_Key x) = "")); [done|]; cbn [orb]).
    all: intros [= <-]; split; cbn;
      [split_and!; apply TrimSpace_idemp|rewrite Ev; split_and!; [apply Hv|apply Hv|done]|by intros ?|by intros ?].
  - intros y [(T1 & T2 & T3) (T4 & T5 & T6) T7 T8]. unfold normalizeGRPCTLS.
    rewrite T1, T2, T3, T4, decide_False by done. destruct (ResolveTLSMinVersion (tls_MinTLSVersion y)) eqn:Ev; [|done].
    destruct y as [en cert key ca req minv]; cbn in *. rewrite Ev. cbn.
    destruct req, en; cbn; try (destruct T7 as [? ?]; [done|]); try done;
      try (destruct T8 as [? ?]; [done|]); rewrite ?bool_decide_false by done; done.
Qed.

Lemma normalizeKeys_ok : forall names seen l, normalizeKeys seen names = Ok l ->
  Forall metadataKey l /\ NoDup l /\ (forall k, k ∈ l -> k ∉ seen).
Proof.
  induction names as [|raw names IH]; intros seen l; cbn [normalizeKeys].
  { intros [= <-]. split_and!; [constructor|constructor|]. by intros k ?%elem_of_nil. }
  destruct (normalizeGRPCMetadataKey raw) as [name|] eqn:En; [|done]. cbn [mbind res_bind].
  case_decide as Hs; [done|]. destruct (normalizeKeys (name :: seen) names) as [rest|] eqn:Er; [|done].
  intros [= <-]. destruct (IH _ _ Er) as (Hf & Hd & Hn). split_and!.
  - constructor; [by eapply normalizeGRPCMetadataKey_ok|done].
  - constructor; [|done]. intros Hin. apply (Hn name Hin). apply list_elem_of_here.
  - intros k [->|Hk]%elem_of_cons; [done|]. intros Hin. apply (Hn k Hk). by apply list_elem_of_further.
Qed.
Lemma normalizeKeys_id : forall l seen, Forall metadataKey l -> NoDup l -> (forall k, k ∈ l -> k ∉ seen) ->
  normalizeKeys seen l = Ok l.
Proof.
  induction l as [|k l IH]; intros seen Hf Hd Hn; [done|]. cbn [normalizeKeys].
  apply Forall_cons in Hf as [Hk Hf]. apply NoDup_cons in Hd as [Hkl Hd].
  rewrite (proj2 normalizeGRPCMetadataKey_ok k Hk). cbn [mbind res_bind].
  rewrite decide_False by (apply Hn, list_elem_of_here).
  rewrite IH; [done|done|done|]. intros j Hj [->|Hs]%elem_of_cons; [done|].
  by apply (Hn j); [apply list_elem_of_further|].
Qed.
Lemma normalizeGRPCMetadataKeys_ok : normalizes normalizeGRPCMetadataKeys keys_ok.
Proof.
  split.
  - intros [names|] y; unfold normalizeGRPCMetadataKeys; [|by intros [= <-]].
    destruct (normalizeKeys [] names) eqn:E; [|done]. intros [= <-]. by apply normalizeKeys_ok in E as (? & ? & _).
  - intros [l|]; [|done]. intros [Hf Hd]. unfold normalizeGRPCMetadataKeys. rewrite normalizeKeys_id; [done..|].
    by intros k _ ?%elem_of_nil.
Qed.
End wellformed.
End grpcconfig.
