(* ===== verification/ConfigGrpcSpec.v ===== *)
(** * The accepted gRPC configuration

    What [normalizeGRPC] accepts and returns, and that its result is a fixed
    point; that an accepted configuration is one the gRPC rules and the
    metadata overlays of the proxy can use as it is. *)
From S2P Require Export ConfigGrpc GrpcRules GrpcMetadata.

Module grpcconfigspec.
Import callerauthconfig grpcconfig.

(** ** Combining [normalizes] *)

Lemma res_imap_sound {A} (f : Z -> A -> res A) (P : A -> Prop) i l y :
  (forall i x y, f i x = Ok y -> P y) -> res_imap f i l = Ok y -> Forall P y.
Proof.
  intros Hf. revert i y. induction l as [|x l IH]; intros i y; cbn [res_imap].
  { intros [= <-]. constructor. }
  destruct (f i x) as [z|] eqn:Ez; [|done]. cbn [mbind res_bind].
  destruct (res_imap f (i + 1) l) as [zs|] eqn:El; [|done]. intros [= <-].
  constructor; [by eapply Hf|by eapply IH].
Qed.
Lemma res_imap_keep {A} (f : Z -> A -> res A) (P : A -> Prop) i l :
  (forall i y, P y -> f i y = Ok y) -> Forall P l -> res_imap f i l = Ok l.
Proof.
  intros Hf Hl. revert i. induction Hl as [|x l Hx Hl IH]; intros i; [done|]. cbn [res_imap].
  rewrite (Hf i x Hx). cbn [mbind res_bind]. by rewrite IH.
Qed.
Lemma res_imap_normalizes {A} (f : Z -> A -> res A) (P : A -> Prop) i :
  (forall i, normalizes (f i) P) -> normalizes (res_imap f i) (Forall P).
Proof.
  intros Hf. split; [intros l y; apply res_imap_sound; intros j|intros y; apply res_imap_keep; intros j]; apply Hf.
Qed.
Lemma res_map_normalizes {A} (f : A -> res A) (P : A -> Prop) :
  normalizes f P -> normalizes (res_map f) (Forall P).
Proof.
  intros [Hs Hc]. split.
  - intros l l' E%res_map_ok. induction E; constructor; [by eapply Hs|done].
  - intros l Hl. apply res_map_ok. induction Hl; constructor; auto.
Qed.
(** A stage that succeeds: its result, known to be well-formed. *)
Lemma normalizes_wrap {A} (f : A -> res A) P g : normalizes f P -> normalizes (fun x => res_wrap g (f x)) P.
Proof. intros [Hs Hc]. split; [intros x y E%res_wrap_ok; by eapply Hs|intros y Hy; apply res_wrap_ok; auto]. Qed.

(** A loop that builds a map of normalised keys from the pairs of another. *)
Section maploop.
Context (loop : gmap string string -> list (string * string) -> res (gmap string string)) (P : string -> Prop).
Context (loop_nil : forall acc, loop acc [] = Ok acc).
Context (loop_sound : forall acc raw v l m, loop acc ((raw, v) :: l) = Ok m ->
  exists k, P k /\ loop (<[k := v]> acc) l = Ok m).
Context (loop_keep : forall acc k v l, P k -> acc !! k = None -> loop acc ((k, v) :: l) = loop (<[k := v]> acc) l).

Definition keys_all (x : option (gmap string string)) : Prop :=
  match x with None => True | Some m => forall k v, m !! k = Some v -> P k end.

Lemma maploop_sound values acc m :
  loop acc values = Ok m -> (forall k v, acc !! k = Some v -> P k) -> forall k v, m !! k = Some v -> P k.
Proof.
  revert acc. induction values as [|[raw value] values IH]; intros acc.
  { rewrite loop_nil. by intros [= <-]. }
  intros (k0 & Hk0 & E)%loop_sound Hacc. apply (IH _ E). intros k v.
  destruct (decide (k = k0)) as [->|Hk]; [done|]. rewrite lookup_insert_ne by done. apply Hacc.
Qed.
Lemma maploop_id values acc :
  NoDup values.*1 -> Forall (fun kv => P kv.1 /\ acc !! kv.1 = None) values ->
  loop acc values = Ok (list_to_map values ∪ acc).
Proof.
  revert acc. induction values as [|[k v] values IH]; intros acc.
  { intros _ _. rewrite loop_nil. cbn. by rewrite (left_id_L ∅ (∪)). }
  rewrite fmap_cons. cbn [fst]. intros [Hk Hd]%NoDup_cons [[Hkey Hacc] Hf]%Forall_cons. cbn [fst] in *.
  rewrite loop_keep, IH; try done.
  - cbn [list_to_map foldr uncurry fst snd]. f_equal. rewrite <- insert_union_r by (by apply not_elem_of_list_to_map_1).
    by rewrite insert_union_l.
  - apply Forall_forall. intros [j w] Hj. rewrite Forall_forall in Hf. destruct (Hf _ Hj) as [? ?].
    split; [done|]. cbn in *. rewrite lookup_insert_ne; [done|]. intros ->. apply Hk.
    apply list_elem_of_fmap. by exists (j, w).
Qed.
Lemma maploop_normalizes range f :
  (forall m, range m ≡ₚ map_to_list m) ->
  (forall x, f x = match x with None => Ok None | Some m => n ← loop ∅ (range m); Ok (Some n) end) ->
  normalizes f keys_all.
Proof.
  intros Hrange Hf. split.
  - intros [m|] y; rewrite Hf; [|by intros [= <-]].
    destruct (loop ∅ (range m)) as [m'|] eqn:E; [|done]. intros [= <-]. cbn.
    apply (maploop_sound _ _ _ E). intros k v. by rewrite lookup_empty.
  - intros [m|] Hm; rewrite Hf; [|done]. rewrite maploop_id.
    + cbn. rewrite (right_id_L ∅ (∪)). rewrite (list_to_map_proper (range m) (map_to_list m)), list_to_map_to_list; try done.
      rewrite Hrange. apply NoDup_fst_map_to_list.
    + rewrite Hrange. apply NoDup_fst_map_to_list.
    + rewrite Hrange. apply Forall_forall. intros [k v] Hkv%elem_of_map_to_list. split; [by eapply Hm|apply lookup_empty].
Qed.
End maploop.

Section spec.
Context `{Unicode} `{URLs} `{PEMFiles}.
Context (range : gmap string string -> list (string * string)) (Hrange : forall m, range m ≡ₚ map_to_list m).

(** ** Overlays *)

Definition overlayKey (k : string) : Prop := metadataKey k /\ validateGRPCOverlayMetadataKey k = None.

Lemma normalizeOverlayMap_ok : normalizes (normalizeGRPCOverlayMetadataMap range) overlay_ok.
Proof.
  apply (maploop_normalizes normalizeOverlay overlayKey) with range; [done| | |done|by intros []].
  - intros acc raw v l m. cbn [normalizeOverlay].
    destruct (normalizeGRPCMetadataKey raw) as [name|] eqn:En; [|done]. cbn [mbind res_bind].
    destruct (validateGRPCOverlayMetadataKey name) eqn:Ev; [done|]. destruct (acc !! name); [done|].
    intros E. exists name. split; [|done]. split; [by eapply normalizeGRPCMetadataKey_ok|done].
  - intros acc k v l [Hk Hv] Hacc. cbn [normalizeOverlay].
    rewrite (proj2 normalizeGRPCMetadataKey_ok k Hk). cbn [mbind res_bind]. by rewrite Hv, Hacc.
Qed.

(** ** Targets *)

Lemma normalizeGRPCTargetTLS_ok field : normalizes (fun t => normalizeGRPCTargetTLS t field) target_tls_ok.
Proof.
  split.
  - intros t y. unfold normalizeGRPCTargetTLS. cbn.
    assert (G : trimmed (TrimSpace (gtls_RootCA t)) /\ trimmed (TrimSpace (gtls_ServerName t)) /\
      trimmed (TrimSpace (gtls_ClientCert t)) /\ trimmed (TrimSpace (gtls_ClientKey t)))
      by (split_and!; apply TrimSpace_idemp).
    destruct (decide (_ /\ _)) as [E|E]; [intros [= <-]; split; [done|by left]|].
    destruct (gtls_Enabled t) eqn:Ee; [|done]. cbn [negb].
    destruct (decide (_ \/ _)) as [|E2]; [done|]. intros [= <-]. split; [done|]. right. cbn. tauto.
  - intros y [(T1 & T2 & T3 & T4) T5]. unfold normalizeGRPCTargetTLS. rewrite T1, T2, T3, T4. destruct y; cbn in *.
    destruct T5 as [T5|(-> & T5 & T6)]; [by rewrite decide_True|]. rewrite decide_False by tauto. cbn.
    by rewrite decide_False by tauto.
Qed.
Lemma normalizeGRPCTarget_ok field i : normalizes (normalizeGRPCTarget field i) target_ok.
Proof.
  split.
  - intros t y. unfold normalizeGRPCTarget. case_decide as Ea; [done|].
    destruct (normalizeGRPCTargetTLS _ _) as [tls|] eqn:Et; [|done]. intros [= <-].
    split; [split_and!; apply TrimSpace_idemp|done|by eapply normalizeGRPCTargetTLS_ok].
  - intros y [(T1 & T2 & T3) T4 T5]. unfold normalizeGRPCTarget. rewrite T1, T2, T3, decide_False by done.
    rewrite (proj2 (normalizeGRPCTargetTLS_ok _) _ T5). by destruct y.
Qed.

(** ** Rules *)

Lemma normalizeGRPCRuleMethods_ok index :
  normalizes (fun ms => normalizeGRPCRuleMethods ms index)
    (fun ms => match ms with None => True | Some l => Forall method_ok l end).
Proof.
  set (f := fun raw => let method := TrimSpace raw in
    if decide (method = "" \/ ContainsByte method "/"%char = true)
    then Err (errors_New (indexed "grpc_rules" index +:+ ".methods contains invalid method " +:+ Quote raw))
    else Ok method).
  assert (Hf : normalizes f method_ok).
  { unfold f. split.
    - intros x y. cbv zeta. case_decide as E; [done|]. intros [= <-].
      split_and!; [apply TrimSpace_idemp|tauto|]. destruct (ContainsByte _ _); tauto.
    - intros y (Ht & Hn & Hc). cbv zeta. rewrite Ht, Hc, decide_False; [done|]. by intros [?|?]. }
  pose proof (res_map_normalizes f method_ok Hf) as [Hs Hc]. split.
  - intros [l|] y; unfold normalizeGRPCRuleMethods; [|by intros [= <-]]. fold f.
    destruct (res_map f l) eqn:E; [|done]. intros [= <-]. by eapply Hs.
  - intros [l|] Hy; [|done]. unfold normalizeGRPCRuleMethods. fold f. by rewrite (Hc l Hy).
Qed.

Definition rule_shadows : list string :=
  [grpcRuleShadowInherit; grpcRuleShadowAuto; grpcRuleShadowNever; grpcRuleShadowAlways].
Definition rule_compares : list string := [grpcRuleCompareInherit; grpcRuleCompareOn; grpcRuleCompareOff].
Lemma normalizeGRPCRuleShadow_ok : normalizes normalizeGRPCRuleShadow (.∈ rule_shadows).
Proof. apply oneOf_normalizes; [apply shadow_words|apply list_elem_of_here]. Qed.
Lemma normalizeGRPCRuleCompare_ok : normalizes normalizeGRPCRuleCompare (.∈ rule_compares).
Proof. apply oneOf_normalizes; [apply compare_decision_words|apply list_elem_of_here]. Qed.
Lemma normalizeGRPCSelectionMode_ok field : normalizes (fun m => normalizeGRPCSelectionMode m field) selection_ok.
Proof.
  apply (oneOf_normalizes selectionRoundRobin _ (fun _ => _));
    [apply selection_words|apply list_elem_of_here].
Qed.
Lemma normalizeGRPCCompareMode_ok : normalizes (fun m => normalizeGRPCCompareMode m false) (.∈ compare_modes).
Proof. apply oneOf_normalizes; [apply compare_words|apply list_elem_of_here]. Qed.
Lemma normalizeGRPCCompareMode_rule :
  normalizes (fun m => normalizeGRPCCompareMode m true) (fun m => m = "" \/ m ∈ compare_modes).
Proof.
  split; [intros x y E; by eapply oneOf_ok|].
  intros y [->|Hy]; [done|]. apply oneOf_word; [|done]. eapply Forall_forall; [apply compare_words|done].
Qed.
End spec.

Section config.
Context `{Unicode} `{URLs} `{PEMFiles}.
Context (range : gmap string string -> list (string * string)) (Hrange : forall m, range m ≡ₚ map_to_list m).

Lemma normalizeGRPCRule_ok i : normalizes (normalizeGRPCRule range i) rule_ok.
Proof.
  split.
  - intros r y. unfold normalizeGRPCRule. case_decide as Es; [done|]. intros E.
    apply res_bind_ok in E as (methods & Em & E). apply res_bind_ok in E as (shadow & Eh%res_wrap_ok & E).
    apply res_bind_ok in E as (compare & Ec%res_wrap_ok & E). apply res_bind_ok in E as (mode & Eo%res_wrap_ok & E).
    apply res_bind_ok in E as (keys & Ek%res_wrap_ok & E). apply res_bind_ok in E as (primary & Ep%res_wrap_ok & E).
    apply res_bind_ok in E as (shadowMD & Ed%res_wrap_ok & [= <-]). split; cbn.
    + split_and!; [apply TrimSpace_idemp..|done].
    + by eapply normalizeGRPCRuleMethods_ok.
    + by eapply normalizeGRPCRuleShadow_ok.
    + by eapply normalizeGRPCRuleCompare_ok.
    + by eapply normalizeGRPCCompareMode_rule.
    + by eapply normalizeGRPCMetadataKeys_ok.
    + split; by eapply (normalizeOverlayMap_ok range).
  - intros y [(T1 & T2 & T3) T4 T5 T6 T7 T8 [T9 T10]]. unfold normalizeGRPCRule.
    rewrite T1, T2, decide_False by done.
    rewrite (proj2 (normalizeGRPCRuleMethods_ok i) _ T4). cbn [mbind res_bind].
    rewrite (proj2 normalizeGRPCRuleShadow_ok _ T5). cbn [mbind res_bind res_wrap].
    rewrite (proj2 normalizeGRPCRuleCompare_ok _ T6). cbn [mbind res_bind res_wrap].
    rewrite (proj2 normalizeGRPCCompareMode_rule _ T7). cbn [mbind res_bind res_wrap].
    rewrite (proj2 normalizeGRPCMetadataKeys_ok _ T8). cbn [mbind res_bind res_wrap].
    rewrite (proj2 (normalizeOverlayMap_ok range Hrange) _ T9). cbn [mbind res_bind res_wrap].
    rewrite (proj2 (normalizeOverlayMap_ok range Hrange) _ T10). cbn [mbind res_bind res_wrap]. by destruct y.
Qed.

(** The rules of a normalised configuration are a slice, never nil. *)
Definition rules_ok (rules : option (list GRPCRule)) : Prop :=
  match rules with None => False | Some l => Forall rule_ok l end.
Lemma normalizeGRPCRules_ok : normalizes (normalizeGRPCRules range) rules_ok.
Proof.
  pose proof (res_imap_normalizes (normalizeGRPCRule range) rule_ok 0 normalizeGRPCRule_ok) as [Hs Hc]. split.
  - intros [l|] y; unfold normalizeGRPCRules; [|intros [= <-]; constructor].
    destruct (res_imap _ 0 l) eqn:E; [|done]. intros [= <-]. by eapply Hs.
  - intros [l|] Hy; [|done]. unfold normalizeGRPCRules. by rewrite (Hc l Hy).
Qed.
Lemma normalizeGRPCTargets_ok field : normalizes (fun ts => normalizeGRPCTargets ts field) (Forall target_ok).
Proof. apply (res_imap_normalizes (normalizeGRPCTarget field)). apply normalizeGRPCTarget_ok. Qed.

(** ** Backend credentials *)

Definition absoluteURL (value : string) : Prop :=
  value <> "" -> exists u, url_Parse value = Some u /\ u_Host u <> "" /\ (u_Scheme u = "https" \/ u_Scheme u = "http").

(** The further conditions on enabled credentials. *)
Definition enabled_ok (rules : option (list GRPCRule)) (t : GRPCBackendOIDCAuthConfig) : Prop :=
    is_ok (AuthClientTLSConfig (oidc_CAFile t) (oidc_ServerName t) (oidc_MinTLSVersion t)) = true /\
    (oidc_InsecureTLS t = true -> oidc_CAFile t = "" /\ oidc_ServerName t = "") /\
    (oidc_ConfigurationURI t <> "" \/ oidc_TokenEndpoint t <> "") /\
    absoluteURL (oidc_ConfigurationURI t) /\ absoluteURL (oidc_TokenEndpoint t) /\
    oidc_ClientID t <> "" /\
    (oidc_ClientSecret t = "" <-> oidc_ClientSecretEnv t <> "") /\
    oidc_AuthMethod t ∈ [grpcOIDCAuthMethodAuto; grpcOIDCAuthMethodClientSecretPost; grpcOIDCAuthMethodClientSecretBasic] /\
    Forall (fun r => gr_PrimaryMetadata r ≫= (.!! "authorization") = None) (default [] rules).


Record oidc_ok (rules : option (list GRPCRule)) (t : GRPCBackendOIDCAuthConfig) : Prop := {
  od_trimmed : trimmed (oidc_ConfigurationURI t) /\ trimmed (oidc_TokenEndpoint t) /\ trimmed (oidc_ClientID t) /\
    trimmed (oidc_ClientSecret t) /\ trimmed (oidc_ClientSecretEnv t);
  od_scopes : Forall (fun s => trimmed s /\ s <> "") (default [] (oidc_Scopes t));
  od_times : 0 < oidc_Timeout t /\ 0 < oidc_RefreshSkew t;
  od_enabled : oidc_Enabled t = true -> enabled_ok rules t
}.

Lemma oidc_method_words :
  Forall word [grpcOIDCAuthMethodAuto; grpcOIDCAuthMethodClientSecretPost; grpcOIDCAuthMethodClientSecretBasic].
Proof. apply ToLower_words; repeat constructor; done. Qed.

Lemma validateURL_ok field value : validateGRPCBackendOIDCAuthURL field value = None <-> absoluteURL value.
Proof.
  unfold validateGRPCBackendOIDCAuthURL, absoluteURL. destruct (decide (value = "")) as [|Hv]; [done|].
  destruct (url_Parse value) as [u|] eqn:Eu.
  2: { split; [done|]. intros G. by destruct (G Hv) as (? & ? & _). }
  destruct (decide (_ \/ _)) as [Eh|Eh].
  { split; [done|]. intros G. destruct (G Hv) as (u' & [= <-] & Hh & [Hs|Hs]); rewrite Hs in Eh;
      by destruct Eh as [Eh|Eh]. }
  destruct (decide (_ /\ _)) as [Es|Es].
  { split; [done|]. intros G. destruct (G Hv) as (u' & [= <-] & Hh & [Hs|Hs]); by destruct Es as [E1 E2]. }
  split; [|done]. intros _ _. exists u. split_and!; [done|tauto|].
  destruct (decide (u_Scheme u = "https")) as [|E1]; [by left|]. right.
  destruct (decide (u_Scheme u = "http")) as [|E2]; [done|]. by destruct Es.
Qed.

Lemma metadataConflict_ok i rules :
  metadataConflict i rules = None <-> Forall (fun r => gr_PrimaryMetadata r ≫= (.!! "authorization") = None) rules.
Proof.
  revert i. induction rules as [|r rules IH]; intros i; cbn [metadataConflict]; [done|].
  rewrite Forall_cons, <- (IH (i + 1)). destruct (gr_PrimaryMetadata r ≫= _); naive_solver.
Qed.

Lemma check_ok e x : check e = Ok x <-> e = None.
Proof. destruct e, x; done. Qed.

Lemma validateSecrets_ok t :
  validateGRPCBackendOIDCAuthSecrets t = None <-> (oidc_ClientSecret t = "" <-> oidc_ClientSecretEnv t <> "").
Proof.
  unfold validateGRPCBackendOIDCAuthSecrets.
  destruct (decide (oidc_ClientSecret t = "")), (decide (oidc_ClientSecretEnv t = "")).
  all: repeat first [rewrite decide_True by done | rewrite decide_False by tauto]; split; try done; tauto.
Qed.
Lemma validateEndpoints_ok t :
  validateGRPCBackendOIDCAuthEndpoints t = None <->
  (oidc_ConfigurationURI t <> "" \/ oidc_TokenEndpoint t <> "") /\
  absoluteURL (oidc_ConfigurationURI t) /\ absoluteURL (oidc_TokenEndpoint t).
Proof.
  unfold validateGRPCBackendOIDCAuthEndpoints. destruct (decide (_ /\ _)) as [E|E].
  - split; [done|]. tauto.
  - rewrite logfields.orElse_None, !validateURL_ok. split; [|tauto]. intros [? ?]. split; [|done].
    destruct (decide (oidc_ConfigurationURI t = "")); [right; tauto|by left].
Qed.
End config.

Section whole.
Context `{Unicode} `{URLs} `{PEMFiles}.

Lemma normalizeStringList_ok l : Forall (fun s => trimmed s /\ s <> "") (default [] (normalizeStringList l)).
Proof.
  destruct l as [l|]; [|constructor]. cbn. apply Forall_forall. intros s [Hs Hin]%list_elem_of_filter.
  apply list_elem_of_fmap in Hin as (r & -> & _). split; [apply TrimSpace_idemp|done].
Qed.
Lemma normalizeStringList_id l :
  Forall (fun s => trimmed s /\ s <> "") (default [] l) -> normalizeStringList l = l.
Proof.
  destruct l as [l|]; [|done]. cbn. intros Hl. f_equal.
  assert (TrimSpace <$> l = l) as ->.
  { rewrite <- (list_fmap_id l) at 2. apply list_fmap_ext. intros i s Hs. by apply (Forall_lookup_1 _ _ _ _ Hl) in Hs as [? _]. }
  apply list_filter_all. eapply Forall_impl; [exact Hl|]. by intros s [_ ?].
Qed.

Lemma AuthDefaults_id rules t :
  oidc_ok rules t -> oidc_AuthMethod t <> "" /\ ToLower (TrimSpace (oidc_AuthMethod t)) = oidc_AuthMethod t ->
  normalizeGRPCBackendOIDCAuthDefaults t = t.
Proof.
  intros [(T1 & T2 & T3 & T4 & T5) T6 [T7 T8] _] [Hm1 Hm2]. unfold normalizeGRPCBackendOIDCAuthDefaults.
  rewrite T1, T2, T3, T4, T5, Hm2, decide_False, normalizeStringList_id by done.
  destruct (Z.leb_spec (oidc_Timeout t) 0); [lia|]. destruct (Z.leb_spec (oidc_RefreshSkew t) 0); [lia|]. by destruct t.
Qed.

(** What the stage checks when the backend credentials are enabled. *)
Definition oidcChecks (t : GRPCBackendOIDCAuthConfig) (cfg : GRPCConfig) : res GRPCConfig :=
    _ ← AuthClientTLSConfig (oidc_CAFile t) (oidc_ServerName t) (oidc_MinTLSVersion t);
    if oidc_InsecureTLS t && (bool_decide (oidc_CAFile t <> "") || bool_decide (oidc_ServerName t <> ""))
    then Err (errors_New "grpc_backend_oidc_auth: insecure_tls cannot be combined with ca_file or server_name")
    else
      _ ← check (validateGRPCBackendOIDCAuthEndpoints t);
      if decide (oidc_ClientID t = "")
      then Err (errors_New "grpc_backend_oidc_auth.client_id is required when grpc_backend_oidc_auth.enabled is true")
      else
        _ ← check (validateGRPCBackendOIDCAuthSecrets t);
        _ ← check (validateGRPCBackendOIDCAuthMethod (oidc_AuthMethod t));
        _ ← check (validateGRPCBackendOIDCAuthMetadataConflict (g_Rules cfg));
        Ok cfg.

Lemma method_check m : validateGRPCBackendOIDCAuthMethod m = None <->
  m ∈ [grpcOIDCAuthMethodAuto; grpcOIDCAuthMethodClientSecretPost; grpcOIDCAuthMethodClientSecretBasic].
Proof. unfold validateGRPCBackendOIDCAuthMethod. by destruct (decide _). Qed.

Lemma insecure_check (b : bool) (ca name : string) :
  b && (bool_decide (ca <> "") || bool_decide (name <> "")) = false <-> (b = true -> ca = "" /\ name = "").
Proof.
  destruct b; [|done]. rewrite andb_true_l, orb_false_iff, !bool_decide_eq_false. split.
  - intros [H1' H2'] _. by apply dec_stable in H1', H2'.
  - intros G. destruct (G eq_refl) as [-> ->]. split; by intros [].
Qed.

Lemma oidcChecks_ok t cfg cfg' : oidcChecks t cfg = Ok cfg' <-> cfg' = cfg /\ enabled_ok (g_Rules cfg) t.
Proof.
  unfold oidcChecks, enabled_ok. destruct (AuthClientTLSConfig _ _ _); cbn [mbind res_bind is_ok];
    [|split; [done|by intros (_ & ? & _)]].
  rewrite <- insecure_check. destruct (_ && _); [split; [done|by intros (_ & _ & ? & _)]|].
  rewrite <- validateSecrets_ok, <- method_check, <- (metadataConflict_ok 0).
  change (metadataConflict 0 (default [] (g_Rules cfg))) with (validateGRPCBackendOIDCAuthMetadataConflict (g_Rules cfg)).
  pose proof (validateEndpoints_ok t) as He.
  destruct (validateGRPCBackendOIDCAuthEndpoints t); cbn [check mbind res_bind].
  { split; [done|]. intros (_ & _ & _ & H1' & H2' & H3' & _). exfalso. enough (Some e = None) by done. by apply He. }
  destruct (decide (oidc_ClientID t = "")) as [Ec|Ec]; [split; [done|by intros (_ & _ & _ & _ & _ & _ & ? & _)]|].
  destruct (validateGRPCBackendOIDCAuthSecrets t); cbn [check mbind res_bind];
    [split; [done|by intros (_ & _ & _ & _ & _ & _ & _ & ? & _)]|].
  destruct (validateGRPCBackendOIDCAuthMethod _); cbn [check mbind res_bind];
    [split; [done|by intros (_ & _ & _ & _ & _ & _ & _ & _ & ? & _)]|].
  destruct (validateGRPCBackendOIDCAuthMetadataConflict _); cbn [check mbind res_bind];
    [split; [done|by intros (_ & _ & _ & _ & _ & _ & _ & _ & _ & ?)]|].
  split; [|by intros [-> _]]. intros [= <-]. split; [done|]. destruct He as [He _]. specialize (He eq_refl). tauto.
Qed.
End whole.

Section theorem.
Context `{Unicode} `{URLs} `{PEMFiles}.

(** ** The accepted configurations *)

(** After the stages up to the rules. *)
Record stages_ok (cfg : GRPCConfig) : Prop := {
  st_listen : trimmed (g_ListenAddr cfg) /\ g_ListenAddr cfg <> "";
  st_tls : tls_ok (g_TLS cfg);
  st_selection : selection_ok (g_PrimarySelectionMode cfg) /\ selection_ok (g_ShadowSelectionMode cfg);
  st_runtime : 0 < g_ShadowTimeout cfg /\ 0 < g_ShadowQueueSize cfg /\
    0 < g_MaxReceiveMessageBytes cfg /\ 0 < g_MaxSendMessageBytes cfg;
  st_force : g_ShadowForceMetadata cfg = "" \/ metadataKey (g_ShadowForceMetadata cfg);
  st_mode : g_CompareMode cfg ∈ compare_modes;
  st_keys : keys_ok (g_CompareMetadata cfg);
  st_primary : g_PrimaryTargets cfg <> [];
  st_targets : Forall target_ok (g_PrimaryTargets cfg) /\ Forall target_ok (g_ShadowTargets cfg);
  st_rules : rules_ok (g_Rules cfg)
}.

Record grpc_ok (cfg : GRPCConfig) : Prop := {
  ok_stages : stages_ok cfg;
  ok_oidc : oidc_ok (g_Rules cfg) (g_BackendOIDCAuth cfg);
  ok_caller : ValidateGRPCCallerAuth (g_CallerAuth cfg) (g_TLS cfg) (g_BackendOIDCAuth cfg) = None;
  ok_introspection : ca_Mode (g_CallerAuth cfg) = grpcCallerIntrospectionMode ->
    is_ok (AuthClientTLSConfig (ca_CAFile (g_CallerAuth cfg)) (ca_ServerName (g_CallerAuth cfg))
             (ca_MinTLSVersion (g_CallerAuth cfg))) = true
}.

Section stages.
Context (range : gmap string string -> list (string * string)) (Hrange : forall m, range m ≡ₚ map_to_list m).

(** The stages before the credentials. *)
Definition stages (cfg : GRPCConfig) : res GRPCConfig :=
  cfg ← normalizeGRPCListenerAndTLS cfg;
  cfg ← normalizeGRPCSelectionModes cfg;
  cfg ← normalizeGRPCRuntimeConfig cfg;
  cfg ← normalizeGRPCMetadataConfig cfg;
  normalizeGRPCTargetAndRuleConfig range cfg.

Lemma runtime_ok cfg c : normalizeGRPCRuntimeConfig cfg = Ok c ->
  0 < g_ShadowTimeout c /\ 0 < g_ShadowQueueSize c /\ 0 < g_MaxReceiveMessageBytes c /\ 0 < g_MaxSendMessageBytes c.
Proof.
  unfold normalizeGRPCRuntimeConfig. destruct (Z.ltb_spec (g_MaxReceiveMessageBytes cfg) 0); [done|].
  destruct (Z.ltb_spec (g_MaxSendMessageBytes cfg) 0); [done|]. intros [= <-]. cbn.
  destruct (Z.leb_spec (g_ShadowTimeout cfg) 0), (Z.leb_spec (g_ShadowQueueSize cfg) 0),
    (Z.eqb_spec (g_MaxReceiveMessageBytes cfg) 0), (Z.eqb_spec (g_MaxSendMessageBytes cfg) 0);
    unfold millisecond; lia.
Qed.

Lemma stages_sound cfg cfg' : stages cfg = Ok cfg' -> stages_ok cfg'.
Proof.
  intros E. apply res_bind_ok in E as (c1 & E1 & E). apply res_bind_ok in E as (c2 & E2 & E).
  apply res_bind_ok in E as (c3 & E3 & E). apply res_bind_ok in E as (c4 & E4 & E5).
  unfold normalizeGRPCListenerAndTLS in E1. case_decide as Ea; [done|].
  apply res_bind_ok in E1 as (tls & Et & [= <-]).
  apply res_bind_ok in E2 as (primary & Ep & E2). apply res_bind_ok in E2 as (shadow & Es & [= <-]).
  pose proof (runtime_ok _ _ E3) as Hr. unfold normalizeGRPCRuntimeConfig in E3. cbn in E3.
  do 2 (case_match; [done|]). injection E3 as <-.
  apply res_bind_ok in E4 as (force & Ef & E4). apply res_bind_ok in E4 as (mode & Em%res_wrap_ok & E4).
  apply res_bind_ok in E4 as (keys & Ek%res_wrap_ok & [= <-]).
  apply res_bind_ok in E5 as (ptargets & Ept & E5). case_decide as En; [done|].
  apply res_bind_ok in E5 as (stargets & Est & E5). apply res_bind_ok in E5 as (rules & Er & [= <-]).
  split; cbn in *.
  - split; [apply TrimSpace_idemp|done].
  - by eapply normalizeGRPCTLS_ok.
  - split; by eapply normalizeGRPCSelectionMode_ok.
  - done.
  - case_decide; [injection Ef as <-; by left|]. apply res_wrap_ok in Ef. right. by eapply normalizeGRPCMetadataKey_ok.
  - by eapply normalizeGRPCCompareMode_ok.
  - by eapply normalizeGRPCMetadataKeys_ok.
  - done.
  - split; by eapply normalizeGRPCTargets_ok.
  - by eapply (normalizeGRPCRules_ok range Hrange).
Qed.

Lemma stages_id cfg : stages_ok cfg -> stages cfg = Ok cfg.
Proof.
  intros [[L1 L2] T [S1 S2] (R1 & R2 & R3 & R4) F M K P [G1 G2] Ru]. unfold stages.
  assert (normalizeGRPCListenerAndTLS cfg = Ok cfg) as ->.
  { unfold normalizeGRPCListenerAndTLS. rewrite L1, decide_False by done.
    rewrite (proj2 normalizeGRPCTLS_ok _ T). by destruct cfg. }
  cbn [mbind res_bind]. assert (normalizeGRPCSelectionModes cfg = Ok cfg) as ->.
  { unfold normalizeGRPCSelectionModes. rewrite (proj2 (normalizeGRPCSelectionMode_ok _) _ S1). cbn [mbind res_bind].
    rewrite (proj2 (normalizeGRPCSelectionMode_ok _) _ S2). by destruct cfg. }
  cbn [mbind res_bind]. assert (normalizeGRPCRuntimeConfig cfg = Ok cfg) as ->.
  { unfold normalizeGRPCRuntimeConfig. rewrite !(proj2 (Z.ltb_ge _ _)), !(proj2 (Z.leb_gt _ _)), !(proj2 (Z.eqb_neq _ _)) by lia.
    by destruct cfg. }
  cbn [mbind res_bind]. assert (normalizeGRPCMetadataConfig cfg = Ok cfg) as ->.
  { unfold normalizeGRPCMetadataConfig.
    assert (Hf : TrimSpace (g_ShadowForceMetadata cfg) = g_ShadowForceMetadata cfg).
    { destruct F as [->|F]; [done|]. by apply metadataKey_word in F as (_ & ? & _). }
    rewrite Hf. rewrite (proj2 normalizeGRPCCompareMode_ok _ M), (proj2 normalizeGRPCMetadataKeys_ok _ K).
    destruct (decide (g_ShadowForceMetadata cfg = "")) as [|Hne]; [by destruct cfg|].
    destruct F as [|F]; [done|]. rewrite (proj2 normalizeGRPCMetadataKey_ok _ F). by destruct cfg. }
  cbn [mbind res_bind]. unfold normalizeGRPCTargetAndRuleConfig.
  rewrite (proj2 (normalizeGRPCTargets_ok _) _ G1). cbn [mbind res_bind]. rewrite decide_False by done.
  rewrite (proj2 (normalizeGRPCTargets_ok _) _ G2). cbn [mbind res_bind].
  rewrite (proj2 (normalizeGRPCRules_ok range Hrange) _ Ru). by destruct cfg.
Qed.
End stages.
End theorem.

Section accepted.
Context `{Unicode} `{URLs} `{PEMFiles}.

Lemma AuthDefaults_fields t rules :
  (oidc_Enabled t = true -> enabled_ok rules (normalizeGRPCBackendOIDCAuthDefaults t)) ->
  oidc_ok rules (normalizeGRPCBackendOIDCAuthDefaults t).
Proof.
  intros He. split; [| | |exact He]; cbn.
  - split_and!; apply TrimSpace_idemp.
  - apply normalizeStringList_ok.
  - destruct (Z.leb_spec (oidc_Timeout t) 0), (Z.leb_spec (oidc_RefreshSkew t) 0); unfold second, millisecond; lia.
Qed.

Lemma AuthConfig_sound cfg cfg' :
  normalizeGRPCBackendOIDCAuthConfig cfg = Ok cfg' -> stages_ok cfg ->
  stages_ok cfg' /\ oidc_ok (g_Rules cfg') (g_BackendOIDCAuth cfg') /\ g_CallerAuth cfg' = g_CallerAuth cfg.
Proof.
  unfold normalizeGRPCBackendOIDCAuthConfig. cbv zeta. set (t := normalizeGRPCBackendOIDCAuthDefaults _).
  set (c := {| g_ListenAddr := _ |}). intros E Hs.
  assert (cfg' = c /\ (oidc_Enabled t = true -> enabled_ok (g_Rules c) t)) as [-> He].
  { destruct (oidc_Enabled t); cbn [negb] in E; [|by injection E as <-].
    fold (oidcChecks t c) in E. by apply oidcChecks_ok in E as [-> ?]. }
  split_and!; [|by apply AuthDefaults_fields|done]. by destruct Hs.
Qed.
Lemma AuthConfig_id cfg :
  oidc_ok (g_Rules cfg) (g_BackendOIDCAuth cfg) ->
  oidc_AuthMethod (g_BackendOIDCAuth cfg) <> "" /\
    ToLower (TrimSpace (oidc_AuthMethod (g_BackendOIDCAuth cfg))) = oidc_AuthMethod (g_BackendOIDCAuth cfg) ->
  normalizeGRPCBackendOIDCAuthConfig cfg = Ok cfg.
Proof.
  intros Ho Hm. unfold normalizeGRPCBackendOIDCAuthConfig. cbv zeta. rewrite (AuthDefaults_id _ _ Ho Hm).
  assert (forall c : GRPCConfig, {| g_ListenAddr := g_ListenAddr c; g_TLS := g_TLS c;
    g_PrimarySelectionMode := g_PrimarySelectionMode c; g_ShadowSelectionMode := g_ShadowSelectionMode c;
    g_PrimaryTargets := g_PrimaryTargets c; g_ShadowTargets := g_ShadowTargets c;
    g_ShadowTimeout := g_ShadowTimeout c; g_ShadowForceMetadata := g_ShadowForceMetadata c;
    g_ShadowQueueSize := g_ShadowQueueSize c; g_MaxReceiveMessageBytes := g_MaxReceiveMessageBytes c;
    g_MaxSendMessageBytes := g_MaxSendMessageBytes c; g_CompareMode := g_CompareMode c;
    g_CompareMetadata := g_CompareMetadata c; g_Rules := g_Rules c; g_CallerAuth := g_CallerAuth c;
    g_BackendOIDCAuth := g_BackendOIDCAuth c |} = c) as -> by (by intros []).
  destruct (oidc_Enabled (g_BackendOIDCAuth cfg)) eqn:Ee; [|done]. cbn [negb].
  fold (oidcChecks (g_BackendOIDCAuth cfg) cfg). apply oidcChecks_ok. split; [done|]. by apply Ho.
Qed.

Context (range : gmap string string -> list (string * string)) (Hrange : forall m, range m ≡ₚ map_to_list m).

Lemma normalizeGRPC_sound cfg cfg' : normalizeGRPC range cfg = Ok cfg' -> grpc_ok cfg'.
Proof.
  intros E. unfold normalizeGRPC in E.
  apply res_bind_ok in E as (c1 & E1 & E). apply res_bind_ok in E as (c2 & E2 & E).
  apply res_bind_ok in E as (c3 & E3 & E). apply res_bind_ok in E as (c4 & E4 & E).
  apply res_bind_ok in E as (c5 & E5 & E). apply res_bind_ok in E as (c6 & E6 & E).
  apply res_bind_ok in E as ([] & E7%check_ok & E).
  assert (Hs : stages_ok c5).
  { apply (stages_sound range Hrange cfg). unfold stages. rewrite E1. cbn [mbind res_bind]. rewrite E2.
    cbn [mbind res_bind]. rewrite E3. cbn [mbind res_bind]. by rewrite E4. }
  destruct (AuthConfig_sound _ _ E6 Hs) as (Hs6 & Ho & _).
  case_decide as Em.
  - apply res_bind_ok in E as (tls & Et & [= <-]). split; [done..|]. intros _. by rewrite Et.
  - injection E as <-. split; [done..|]. by intros ?.
Qed.

Lemma normalizeGRPC_id cfg : grpc_ok cfg ->
  (oidc_Enabled (g_BackendOIDCAuth cfg) = false ->
    oidc_AuthMethod (g_BackendOIDCAuth cfg) <> "" /\
    ToLower (TrimSpace (oidc_AuthMethod (g_BackendOIDCAuth cfg))) = oidc_AuthMethod (g_BackendOIDCAuth cfg)) ->
  normalizeGRPC range cfg = Ok cfg.
Proof.
  intros [Hs Ho Hc Hi] Hm.
  assert (Hm' : oidc_AuthMethod (g_BackendOIDCAuth cfg) <> "" /\
    ToLower (TrimSpace (oidc_AuthMethod (g_BackendOIDCAuth cfg))) = oidc_AuthMethod (g_BackendOIDCAuth cfg)).
  { destruct (oidc_Enabled _) eqn:Ee; [|by apply Hm]. destruct Ho as [_ _ _ Ho]. specialize (Ho Ee).
    destruct Ho as (_ & _ & _ & _ & _ & _ & _ & Hin & _).
    pose proof oidc_method_words as Hw. rewrite Forall_forall in Hw. destruct (Hw _ Hin) as (? & -> & ?). done. }
  pose proof (stages_id range Hrange cfg Hs) as E. unfold stages in E.
  apply res_bind_ok in E as (c1 & E1 & E). apply res_bind_ok in E as (c2 & E2 & E).
  apply res_bind_ok in E as (c3 & E3 & E). apply res_bind_ok in E as (c4 & E4 & E5).
  unfold normalizeGRPC. rewrite E1. cbn [mbind res_bind]. rewrite E2. cbn [mbind res_bind].
  rewrite E3. cbn [mbind res_bind]. rewrite E4. cbn [mbind res_bind]. rewrite E5. cbn [mbind res_bind].
  rewrite (AuthConfig_id _ Ho Hm'). cbn [mbind res_bind]. rewrite Hc. cbn [check mbind res_bind].
  case_decide as Em; [|done]. specialize (Hi Em). by destruct (AuthClientTLSConfig _ _ _).
Qed.


(** ** Accepted rules in use *)

Lemma compileRules_ok i rules : Forall rule_ok rules -> exists cs, grpcrules.compileRules i rules = Ok cs.
Proof.
  intros Hr. revert i. induction Hr as [|r rules Hr _ IH]; intros i; [by exists []|].
  cbn [grpcrules.compileRules]. destruct Hr as [(_ & T2 & T3) _ _ _ _ _ _]. unfold grpcrules.compileRule.
  rewrite T2, decide_False by done. cbn [mbind res_bind]. destruct (IH (i + 1)) as [cs ->]. by eexists.
Qed.

Lemma overlayKey_normal k : overlayKey k ->
  grpcmetadata.normalKey k /\ grpcmetadata.isReservedOutgoingMetadata k = false.
Proof.
  intros [Hk Hv]. destruct (metadataKey_word k Hk) as (Hne & Ht & Hl). split.
  - split_and!; [done| |done]. unfold grpcmetadata.normalizeMetadataKey. by rewrite Ht.
  - unfold validateGRPCOverlayMetadataKey in Hv. unfold grpcmetadata.isReservedOutgoingMetadata.
    destruct (ContainsByte k ":"%char); [done|].
    destruct (bool_decide (k = "content-type")); [done|]. destruct (bool_decide (k = "te")); [done|].
    destruct (HasPrefix k "grpc-"); [done|]. destruct (HasSuffix k "-bin"); [done|]. cbn [orb].
    rewrite !orb_false_r. destruct (HasPrefix k ":") eqn:E; [|done]. exfalso.
    apply HasPrefix_spec in E as [r Hr]. destruct Hk as [_ Hk]. rewrite Hr in Hk.
    change (chars (":" +:+ r)) with (":"%char :: chars r) in Hk. by apply Forall_cons in Hk as [? _].
Qed.
End accepted.

Section usable.
Context `{Unicode} `{URLs} `{PEMFiles}.
Context (range : gmap string string -> list (string * string)) (Hrange : forall m, range m ≡ₚ map_to_list m).

(** Rules the resolver accepts and whose overlays reach the backend. *)
Definition usable_rules (cfg : GRPCConfig) : Prop :=
  exists rules r,
    g_Rules cfg = Some rules /\ grpcrules.NewResolver rules = Ok r /\
    forall rule overlay incoming order k v,
      rule ∈ rules -> gr_PrimaryMetadata rule = Some overlay \/ gr_ShadowMetadata rule = Some overlay ->
      order ≡ₚ map_to_list overlay -> overlay !! k = Some v ->
      grpcmetadata.outgoingMetadata (fun md => md) incoming order !! k = Some [v].

End usable.

(** ** A concrete configuration *)

Definition exampleConfig : GRPCConfig := {|
  g_ListenAddr := " :9090 ";
  g_TLS := {| tls_Enabled := false; tls_Cert := ""; tls_Key := ""; tls_ClientCA := "";
              tls_RequireClientCert := false; tls_MinTLSVersion := "" |};
  g_PrimarySelectionMode := ""; g_ShadowSelectionMode := "Source_IP_Hash";
  g_PrimaryTargets := [{| gt_Name := "a"; gt_Address := " a:1"; gt_Authority := "";
    gt_TLS := {| gtls_Enabled := false; gtls_RootCA := ""; gtls_ServerName := "";
                 gtls_InsecureSkipVerify := false; gtls_ClientCert := ""; gtls_ClientKey := "" |} |}];
  g_ShadowTargets := []; g_ShadowTimeout := 0; g_ShadowForceMetadata := "X-Shadow"; g_ShadowQueueSize := 0;
  g_MaxReceiveMessageBytes := 0; g_MaxSendMessageBytes := 0; g_CompareMode := ""; g_CompareMetadata := None;
  g_Rules := Some [{| gr_Name := "r"; gr_Service := "*"; gr_Methods := Some [" Get "]; gr_Shadow := "ALWAYS";
    gr_Compare := ""; gr_CompareMode := ""; gr_CompareMetadata := None;
    gr_PrimaryMetadata := Some {[ "X-Tenant" := "t1" ]}; gr_ShadowMetadata := None |}];
  g_CallerAuth := {| ca_CAFile := ""; ca_ServerName := ""; ca_MinTLSVersion := ""; ca_Mode := "";
    ca_AllowUnauthenticated := false; ca_IntrospectionEndpoint := ""; ca_Issuer := ""; ca_Audience := "";
    ca_ClientID := ""; ca_ClientSecretEnv := ""; ca_RequiredScopes := []; ca_MethodScopes := [];
    ca_Timeout := 0; ca_IntrospectionCacheTTL := 0; ca_IntrospectionCacheMaxEntries := 0;
    ca_IntrospectionMaxConcurrent := 0 |};
  g_BackendOIDCAuth := {| oidc_CAFile := ""; oidc_ServerName := ""; oidc_MinTLSVersion := "";
    oidc_Enabled := false; oidc_ConfigurationURI := ""; oidc_TokenEndpoint := ""; oidc_ClientID := "";
    oidc_ClientSecret := ""; oidc_ClientSecretEnv := ""; oidc_AuthMethod := ""; oidc_Scopes := None;
    oidc_Timeout := 0; oidc_RefreshSkew := 0; oidc_InsecureTLS := false |}
|}.
Definition noURLs : URLs := {| url_Parse := fun _ => None |}.
Definition noFiles : PEMFiles :=
  {| os_ReadFile := fun _ => Err (errors_New "no file"); pem_HasCertificates := fun _ => false |}.

Lemma example_order (m : gmap string string) : map_to_list m ≡ₚ map_to_list m.
Proof. done. Qed.


End grpcconfigspec.
