(* ===== verification/CallerAuth.v ===== *)
(** * [internal/grpcproxy/caller_auth.go], [caller_auth_cache.go], [caller_auth_errors.go]

    Times are nanoseconds.  The HTTP client, the JSON decoder, the environment
    and the TLS peer are parameters; spans and metrics are left out, the lookup
    label is part of a result.  The introspection flights are in GrpcFlights. *)
From S2P Require Export GoSha256 ConfigCallerAuth GrpcMetadata Logging.

Module callerauth.
Import logging grpcmetadata callerauthconfig.

Definition second : Z := 1000000000.
Definition callerIntrospectionMode : string := "introspection".
Definition defaultCallerIntrospectionTimeout : Z := 2 * second.
Definition maxIntrospectionResponseBytes : Z := 65536.
Definition maxBearerTokenBytes : Z := 8192.
Definition maxIntrospectionErrorBytes : Z := 4096.
Definition bearerAuthHeader : string := "authorization".
Definition formContentType : string := "application/x-www-form-urlencoded".
Definition tokenTypeBearer : string := "bearer".

Definition callerLookupHit : string := "hit".
Definition callerLookupMiss : string := "miss".
Definition callerLookupShared : string := "shared".
Definition callerLookupError : string := "error".
Definition callerLookupCanceled : string := "canceled".

(** ** [caller_auth_errors.go] *)

Definition callerCauseMissingBearer : string := "missing_bearer".
Definition callerCauseMalformedBearer : string := "malformed_bearer".
Definition callerCauseMTLS : string := "mtls".
Definition callerCauseInactive : string := "inactive".
Definition callerCauseClaims : string := "claims".
Definition callerCauseScope : string := "scope".
Definition callerCauseMethod : string := "method".
Definition callerCauseTransport : string := "transport".
Definition callerCauseTimeout : string := "timeout".
Definition callerCauseHTTPStatus : string := "http_status".
Definition callerCauseResponse : string := "response".
Definition callerCauseOverload : string := "overload".
Definition callerCauseConfig : string := "config".
Definition callerCauseCanceled : string := "canceled".
Definition callerCauseDeadline : string := "deadline".
Definition callerAuthRejected : string := "caller_auth_rejected".
Definition callerAuthUnavailable : string := "caller_auth_unavailable".
Definition callerAuthCanceled : string := "caller_auth_canceled".
Definition callerMessageUnauthenticated : string := "caller authentication failed".
Definition callerMessageUnavailable : string := "caller authentication unavailable".
Definition callerMessageCanceled : string := "caller authentication canceled".
Definition callerMessageDeadline : string := "caller authentication deadline exceeded".
Definition callerMessageMethod : string := "caller method not permitted".
Definition callerMessageScope : string := "caller scope not permitted".

Record callerAuthError := {
  ae_code : Z;
  ae_cause : string;
  ae_message : string;
  ae_detail : string;
  ae_httpStatus : Z;
  ae_err : option error
}.

(** [Error()], and the status of [GRPCStatus()] as the caller sees it. *)
Definition ae_Error (e : callerAuthError) : string := ae_message e +:+ ": " +:+ ae_cause e.
Definition GRPCStatus (e : callerAuthError) : Z * string := (ae_code e, ae_message e).

Definition outcome (e : callerAuthError) : string :=
  if decide (ae_code e ∈ [codes_Unavailable; codes_Internal]) then callerAuthUnavailable
  else if decide (ae_code e ∈ [codes_Canceled; codes_DeadlineExceeded]) then callerAuthCanceled
  else callerAuthRejected.

Definition logLevel (e : callerAuthError) : Z :=
  if decide (ae_cause e = callerCauseConfig) then LevelError
  else if decide (ae_code e = codes_Canceled \/ ae_code e = codes_DeadlineExceeded) then LevelInfo
  else LevelWarn.

Definition callerRejected (cause : string) : callerAuthError :=
  {| ae_code := codes_Unauthenticated; ae_cause := cause; ae_message := callerMessageUnauthenticated;
     ae_detail := ""; ae_httpStatus := 0; ae_err := None |}.
Definition callerDenied (cause message : string) : callerAuthError :=
  {| ae_code := codes_PermissionDenied; ae_cause := cause; ae_message := message;
     ae_detail := ""; ae_httpStatus := 0; ae_err := None |}.
Definition callerUnavailable (cause detail : string) (err : option error) : callerAuthError :=
  {| ae_code := codes_Unavailable; ae_cause := cause; ae_message := callerMessageUnavailable;
     ae_detail := detail; ae_httpStatus := 0; ae_err := err |}.
Definition callerMisconfigured (detail : string) (err : option error) : callerAuthError :=
  callerUnavailable callerCauseConfig detail err.
Definition callerOverloaded : callerAuthError :=
  callerUnavailable callerCauseOverload "concurrent introspection limit reached" None.

Definition callerHTTPStatusError (statusCode : Z) (oauthError : string) : callerAuthError :=
  let '(cause, detail) :=
    if decide (statusCode = 400 /\ (oauthError = "invalid_client" \/ oauthError = "unauthorized_client"))
    then (callerCauseConfig, "introspection endpoint rejected the proxy client (" +:+ oauthError +:+ ")")
    else if decide (statusCode = 401 \/ statusCode = 403)
    then (callerCauseConfig, "introspection endpoint rejected the proxy client credentials")
    else (callerCauseHTTPStatus, "introspection endpoint returned an unexpected status") in
  let e := callerUnavailable cause detail None in
  {| ae_code := ae_code e; ae_cause := ae_cause e; ae_message := ae_message e;
     ae_detail := ae_detail e; ae_httpStatus := statusCode; ae_err := ae_err e |}.

Definition technical (e : callerAuthError) : bool :=
  (ae_code e =? codes_Unavailable) || (ae_code e =? codes_Internal).

Definition callerLogInterval : Z := 10 * second.

Definition logKey (e : callerAuthError) : string :=
  if decide (ae_cause e = callerCauseConfig)
  then ae_cause e +:+ of_chars [chr 0] +:+ ae_detail e
  else ae_cause e.

(** The two maps are created together on first use; nil maps read as empty. *)
Record callerLogLimiter := { l_last : gmap string Z; l_suppressed : gmap string Z }.
Definition newCallerLogLimiter : callerLogLimiter := {| l_last := ∅; l_suppressed := ∅ |}.

Definition allow (l : callerLogLimiter) (cause : string) (now : Z) : (bool * Z) * callerLogLimiter :=
  let suppressed := default 0 (l_suppressed l !! cause) in
  if match l_last l !! cause with Some last => now - last <? callerLogInterval | None => false end
  then ((false, 0), {| l_last := l_last l; l_suppressed := <[cause := suppressed + 1]> (l_suppressed l) |})
  else ((true, suppressed),
        {| l_last := <[cause := now]> (l_last l); l_suppressed := <[cause := 0]> (l_suppressed l) |}).

(** [ctx.Err()] of the caller: [None] while it waits. *)
Definition callerContextError (ctxErr : option error) : option callerAuthError :=
  match ctxErr with
  | None => None
  | Some err =>
      if errors_Is err context_DeadlineExceeded then
        Some {| ae_code := codes_DeadlineExceeded; ae_cause := callerCauseDeadline;
                ae_message := callerMessageDeadline; ae_detail := ""; ae_httpStatus := 0;
                ae_err := Some err |}
      else
        Some {| ae_code := codes_Canceled; ae_cause := callerCauseCanceled;
                ae_message := callerMessageCanceled; ae_detail := ""; ae_httpStatus := 0;
                ae_err := Some err |}
  end.

(** [netTimeout err]: [err] is a [net.Error] whose [Timeout()] is true. *)
Definition introspectionTransportError (netTimeout : error -> bool) (ctxErr : option error) (err : error)
    : callerAuthError :=
  if match ctxErr with Some e => errors_Is e context_Canceled | None => false end
  then callerUnavailable callerCauseCanceled "introspection abandoned by all callers" (Some err)
  else if errors_Is err context_DeadlineExceeded || bool_decide (is_Some ctxErr) || netTimeout err
  then callerUnavailable callerCauseTimeout "introspection request timed out" (Some err)
  else callerUnavailable callerCauseTransport (Error err) (Some err).

(** An error value is a caller error or any other one. *)
Definition asCallerAuthError (err : callerAuthError + error) : callerAuthError :=
  match err with
  | inl e => e
  | inr e => callerUnavailable callerCauseConfig "unclassified caller authentication error" (Some e)
  end.
Definition cloneCallerAuthError (err : option (callerAuthError + error)) : option (callerAuthError + error) :=
  match err with
  | Some (inl e) =>
      Some (inl {| ae_code := ae_code e; ae_cause := ae_cause e; ae_message := ae_message e;
                   ae_detail := ae_detail e; ae_httpStatus := ae_httpStatus e; ae_err := ae_err e |})
  | err => err
  end.

(** ** Tokens *)

Definition digestCallerToken (token : string) : string := sha256_Sum256 token.

Definition bearerRune (c : Z) : bool :=
  ((97 <=? c) && (c <=? 122)) || ((65 <=? c) && (c <=? 90)) || ((48 <=? c) && (c <=? 57)) ||
  existsb (Z.eqb c) [45; 46; 95; 126; 43; 47; 61].
Definition validBearerValue (token : string) : bool :=
  if bool_decide (token = "") || (maxBearerTokenBytes <? len token) then false
  else forallb bearerRune (runes token).

(** [strings.EqualFold(s, "bearer")]: no rune outside ASCII folds to b, e, a or r. *)
Definition EqualFoldBearer (s : string) : bool := bool_decide (map_chars lower1 s = tokenTypeBearer).

Section auth.
Context `{Unicode} `{URLs}.

(** The incoming metadata; no metadata reads as none. *)
Definition callerBearerToken (md : MD) : callerAuthError + string :=
  match md_Get md bearerAuthHeader with
  | [] => inl (callerRejected callerCauseMissingBearer)
  | [value] =>
      match Split value " " with
      | [scheme; token] =>
          if EqualFoldBearer scheme && validBearerValue token then inr token
          else inl (callerRejected callerCauseMalformedBearer)
      | _ => inl (callerRejected callerCauseMalformedBearer)
      end
  | _ => inl (callerRejected callerCauseMalformedBearer)
  end.

(** The peer: [None] without TLS information, else the lengths of its
    verified chains. *)
Definition authenticateMTLS (peer : option (list nat)) : option callerAuthError :=
  match peer with
  | Some (S _ :: _) => None
  | _ => Some (callerRejected callerCauseMTLS)
  end.

(** ** Claims *)

Record introspectionClaims := {
  Active : bool;
  Issuer : string;
  Audience : string;     (* the raw JSON text *)
  Scope : string;
  Expires : Z;
  NotBefore : Z
}.
Definition zeroClaims : introspectionClaims :=
  {| Active := false; Issuer := ""; Audience := ""; Scope := ""; Expires := 0; NotBefore := 0 |}.

(** [json.Unmarshal] of the audience as a string, or as strings. *)
Context (json_String : string -> option string) (json_Strings : string -> option (list string)).

Definition hasAudience (c : introspectionClaims) (expected : string) : bool :=
  match json_String (Audience c) with
  | Some single => bool_decide (single = expected)
  | None =>
      match json_Strings (Audience c) with
      | Some multiple => bool_decide (expected ∈ multiple)
      | None => false
      end
  end.

Definition validateClaims (c : introspectionClaims) (a : GRPCCallerAuthConfig) (now : Z)
    : option callerAuthError :=
  if negb (Active c) then Some (callerRejected callerCauseInactive)
  else if negb (bool_decide (Issuer c = ca_Issuer a)) || (Expires c <=? now) ||
          (now <? NotBefore c) || negb (hasAudience c (ca_Audience a))
  then Some (callerRejected callerCauseClaims)
  else None.

Definition authorize (c : introspectionClaims) (a : GRPCCallerAuthConfig) (method : string) (now : Z)
    : option callerAuthError :=
  match validateClaims c a now with
  | Some e => Some e
  | None =>
      let scopes := Fields (Scope c) in
      let check required :=
        if forallb (fun scope => bool_decide (scope ∈ scopes)) required then None
        else Some (callerDenied callerCauseScope callerMessageScope) in
      match ca_MethodScopes a with
      | [] => check (ca_RequiredScopes a)
      | rules =>
          match List.find (fun rule => bool_decide (ms_Method rule = method)) rules with
          | None => Some (callerDenied callerCauseMethod callerMessageMethod)
          | Some rule => check (ca_RequiredScopes a ++ ms_Scopes rule)%list
          end
      end
  end.

(** ** The positive cache *)

Record cachedIntrospection := { ci_claims : introspectionClaims; ci_expires : Z }.
Record introspectionCache := {
  ic_ttl : Z;
  ic_maxEntries : Z;
  ic_entries : gmap string cachedIntrospection
}.

(** [time.Unix(sec, 0)]: the seconds since year 1 are an [int64]. *)
Definition unixToInternal : Z := 62135596800.
Definition time_Unix (sec : Z) : Z := (i64 (sec + unixToInternal) - unixToInternal) * second.

(** [None] is the nil cache, which is disabled. *)
Definition newIntrospectionCache (ttl maxEntries : Z) : option introspectionCache :=
  if (ttl <=? 0) || (maxEntries <=? 0) then None
  else Some {| ic_ttl := ttl; ic_maxEntries := maxEntries; ic_entries := ∅ |}.

Definition with_entries (c : introspectionCache) (es : gmap string cachedIntrospection) :=
  {| ic_ttl := ic_ttl c; ic_maxEntries := ic_maxEntries c; ic_entries := es |}.

Definition cache_get (c : option introspectionCache) (key : string) (now : Z)
    : option introspectionClaims * option introspectionCache :=
  match c with
  | None => (None, None)
  | Some c =>
      match ic_entries c !! key with
      | None => (None, Some c)
      | Some entry =>
          if now <? ci_expires entry then (Some (ci_claims entry), Some c)
          else (None, Some (with_entries c (delete key (ic_entries c))))
      end
  end.

Definition introspectionEvictionSample : nat := 8.

(** The loop of [evictLocked] over the entries in range order; [left] more may
    be sampled.  The victim is the sampled entry that expires first. *)
Fixpoint evictLoop (now : Z) (left : nat) (range : list (string * cachedIntrospection))
    (es : gmap string cachedIntrospection) (victim : option (string * Z))
    : gmap string cachedIntrospection * option (string * Z) :=
  match left, range with
  | S left', (key, entry) :: range' =>
      if now <? ci_expires entry then
        let victim := match victim with
                      | Some (_, e) => if ci_expires entry <? e then Some (key, ci_expires entry) else victim
                      | None => Some (key, ci_expires entry)
                      end in
        evictLoop now left' range' es victim
      else evictLoop now left' range' (delete key es) victim
  | _, _ => (es, victim)
  end.

Definition evictLocked (c : introspectionCache) (now : Z) (range : list (string * cachedIntrospection))
    : introspectionCache :=
  let '(es, victim) := evictLoop now introspectionEvictionSample range (ic_entries c) None in
  match victim with
  | Some (key, _) =>
      if ic_maxEntries c <=? Z.of_nat (size es) then with_entries c (delete key es)
      else with_entries c es
  | None => with_entries c es
  end.

(** [range]: the entries in the order an eviction would range over them. *)
Definition cache_put (c : option introspectionCache) (key : string) (claims : introspectionClaims)
    (now : Z) (range : list (string * cachedIntrospection)) : option introspectionCache :=
  match c with
  | None => None
  | Some c =>
      let expires := now + ic_ttl c in
      let tokenExpiry := time_Unix (Expires claims) in
      let expires := if tokenExpiry <? expires then tokenExpiry else expires in
      if now <? expires then
        let c := if bool_decide (ic_entries c !! key = None) &&
                    (ic_maxEntries c <=? Z.of_nat (size (ic_entries c)))
                 then evictLocked c now range else c in
        Some (with_entries c (<[key := {| ci_claims := claims; ci_expires := expires |}]> (ic_entries c)))
      else Some c
  end.

(** ** Introspection *)

Record introspectionRequest := {
  ir_URL : string;
  ir_Form : list (string * string);
  ir_ContentType : string;
  ir_Accept : string;
  ir_User : string;
  ir_Password : string;
  ir_Timeout : Z
}.
(** A response body: the bytes it gives and the error after them, if any. *)
Record introspectionResponse := {
  is_StatusCode : Z;
  is_Body : string;
  is_BodyErr : option error
}.

(** [io.LimitReader]: the error after the limit is not seen. *)
Definition limitReader (n : Z) (r : introspectionResponse) : string * option error :=
  if n <=? len (is_Body r) then (of_chars (take (Z.to_nat n) (chars (is_Body r))), None)
  else (is_Body r, is_BodyErr r).

(** The environment, [url.QueryEscape], [http.NewRequest]'s verdict on the URL,
    the HTTP client, the context's error and the JSON decoder. *)
Class Introspector := {
  os_Getenv : string -> string;
  url_QueryEscape : string -> string;
  http_NewRequest_ok : string -> bool;
  client_Do : introspectionRequest -> res introspectionResponse;
  flight_ctxErr : option error;
  net_Timeout : error -> bool;
  json_OAuthError : string * option error -> option string;
  json_Claims : string -> res introspectionClaims
}.

Definition introspectionOAuthError `{Introspector} (r : introspectionResponse) : string :=
  if negb (is_StatusCode r =? 400) then ""
  else default "" (json_OAuthError (limitReader maxIntrospectionErrorBytes r)).

Definition decodeIntrospection `{Introspector} (r : introspectionResponse)
    : callerAuthError + introspectionClaims :=
  match limitReader (maxIntrospectionResponseBytes + 1) r with
  | (_, Some err) => inl (introspectionTransportError net_Timeout flight_ctxErr err)
  | (payload, None) =>
      if maxIntrospectionResponseBytes <? len payload
      then inl (callerUnavailable callerCauseResponse "introspection response exceeds size limit" None)
      else
        match json_Claims payload with
        | Err err => inl (callerUnavailable callerCauseResponse
                            "introspection response is not valid JSON" (Some err))
        | Ok claims => inr claims
        end
  end.

Definition newIntrospectionRequest `{Introspector} (a : GRPCCallerAuthConfig) (secret token : string)
    : introspectionRequest :=
  {| ir_URL := ca_IntrospectionEndpoint a;
     ir_Form := [("token", token); ("token_type_hint", "access_token")];
     ir_ContentType := formContentType;
     ir_Accept := "application/json";
     ir_User := url_QueryEscape (ca_ClientID a);
     ir_Password := url_QueryEscape secret;
     ir_Timeout := if ca_Timeout a <=? 0 then defaultCallerIntrospectionTimeout else ca_Timeout a |}.

Definition fetchIntrospection `{Introspector} (a : GRPCCallerAuthConfig) (token : string)
    : callerAuthError + introspectionClaims :=
  let secret := os_Getenv (ca_ClientSecretEnv a) in
  if decide (TrimSpace secret = "") then
    inl (callerMisconfigured ("introspection client secret environment variable "
           +:+ ca_ClientSecretEnv a +:+ " is empty") None)
  else if negb (http_NewRequest_ok (ca_IntrospectionEndpoint a))
  then inl (callerMisconfigured "invalid introspection request" None)
  else
    match client_Do (newIntrospectionRequest a secret token) with
    | Err err => inl (introspectionTransportError net_Timeout flight_ctxErr err)
    | Ok response =>
        if negb (is_StatusCode response =? 200)
        then inl (callerHTTPStatusError (is_StatusCode response) (introspectionOAuthError response))
        else decodeIntrospection response
    end.

(** [introspectionResult], without the span. *)
Record introspectionResult := {
  fr_claims : introspectionClaims;
  fr_err : option callerAuthError;
  fr_cached : bool
}.

(** [runIntrospectionFlight]: [now1] when the cache is read, [now2] when the
    answer is validated and stored. *)
Definition runIntrospectionFlight `{Introspector} (a : GRPCCallerAuthConfig)
    (cache : option introspectionCache) (token : string) (now1 now2 : Z)
    (range : list (string * cachedIntrospection)) : introspectionResult * option introspectionCache :=
  let key := digestCallerToken token in
  match cache_get cache key now1 with
  | (Some claims, cache) => ({| fr_claims := claims; fr_err := None; fr_cached := true |}, cache)
  | (None, cache) =>
      match fetchIntrospection a token with
      | inl err => ({| fr_claims := zeroClaims; fr_err := Some err; fr_cached := false |}, cache)
      | inr claims =>
          let cache := match validateClaims claims a (now2 / second) with
                       | None => cache_put cache key claims now2 range
                       | Some _ => cache
                       end in
          ({| fr_claims := claims; fr_err := None; fr_cached := false |}, cache)
      end
  end.

(** What [introspectCaller] meets after a miss: the caller has already ended;
    the flights refuse; or it waits for a flight, joined or started ([shared]),
    that ends, or gives up first. *)
Inductive joined :=
  | CallerEnded (err : error)
  | JoinRefused (err : callerAuthError)
  | FlightDone (shared : bool) (result : introspectionResult)
  | CallerGaveUp (err : error).

Definition contextRefusal (err : error) : callerAuthError :=
  default (callerRejected "") (callerContextError (Some err)).

(** The answer and the lookup label; [clientErr] is [runtime.clientErr]. *)
Definition introspectCaller (clientErr : option error) (cache : option introspectionCache)
    (token : string) (now : Z) (j : joined)
    : (callerAuthError + introspectionClaims) * option string * option introspectionCache :=
  match clientErr with
  | Some err => (inl (callerMisconfigured ("introspection HTTP client unavailable: " +:+ Error err)
                                          (Some err)), None, cache)
  | None =>
      match cache_get cache (digestCallerToken token) now with
      | (Some claims, cache) => (inr claims, Some callerLookupHit, cache)
      | (None, cache) =>
          match j with
          | CallerEnded err => (inl (contextRefusal err), Some callerLookupCanceled, cache)
          | JoinRefused err => (inl err, Some callerLookupError, cache)
          | FlightDone shared result =>
              let lookup := match fr_err result with
                            | Some _ => callerLookupError
                            | None => if fr_cached result then callerLookupHit
                                      else if shared then callerLookupShared else callerLookupMiss
                            end in
              (match fr_err result with Some err => inl err | None => inr (fr_claims result) end,
               Some lookup, cache)
          | CallerGaveUp err => (inl (contextRefusal err), Some callerLookupCanceled, cache)
          end
      end
  end.

(** [authenticateCaller]: [introspect] is [h.introspectCaller(ctx, _)]. *)
Definition authenticateCaller (a : GRPCCallerAuthConfig) (grpcTLS : GRPCTLSConfig)
    (oidc : GRPCBackendOIDCAuthConfig) (md : MD) (peer : option (list nat)) (method : string)
    (introspect : string -> callerAuthError + introspectionClaims) (nowUnix : Z)
    : option callerAuthError :=
  match ValidateGRPCCallerAuth a grpcTLS oidc with
  | Some err => Some (callerMisconfigured ("invalid grpc_caller_auth configuration: " +:+ Error err)
                                          (Some err))
  | None =>
      if ca_AllowUnauthenticated a || bool_decide (ca_Mode a = "") then None
      else if decide (ca_Mode a = "mtls") then authenticateMTLS peer
      else
        match callerBearerToken md with
        | inl err => Some err
        | inr token =>
            match introspect token with
            | inl err => Some err
            | inr claims => authorize claims a method nowUnix
            end
        end
  end.

(** ** Specification: authorised claims *)

(** The claims permit the method now. *)
Record permitted (c : introspectionClaims) (a : GRPCCallerAuthConfig) (method : string) (now : Z) : Prop := {
  pm_active : Active c = true;
  pm_issuer : Issuer c = ca_Issuer a;
  pm_expires : now < Expires c;
  pm_notBefore : NotBefore c <= now;
  pm_audience : hasAudience c (ca_Audience a) = true;
  pm_required : Forall (fun s => s ∈ Fields (Scope c)) (ca_RequiredScopes a);
  pm_method : ca_MethodScopes a <> [] ->
    exists rule, List.find (fun r => bool_decide (ms_Method r = method)) (ca_MethodScopes a) = Some rule /\
      Forall (fun s => s ∈ Fields (Scope c)) (ms_Scopes rule)
}.

(** ** Lemmas *)

Lemma validateClaims_ok c a now :
  validateClaims c a now = None <->
  Active c = true /\ Issuer c = ca_Issuer a /\ now < Expires c /\ NotBefore c <= now /\
  hasAudience c (ca_Audience a) = true.
Proof.
  unfold validateClaims. destruct (Active c); cbn [negb]; [|naive_solver].
  case_bool_decide; cbn [negb orb]; [|naive_solver].
  destruct (Z.leb_spec (Expires c) now); cbn [orb]; [split; [done|lia]|].
  destruct (Z.ltb_spec now (NotBefore c)); cbn [orb]; [split; [done|lia]|].
  destruct (hasAudience c (ca_Audience a)); cbn; naive_solver.
Qed.

Lemma forallb_Forall {A} (Q : A -> Prop) `{forall x, base.Decision (Q x)} l :
  forallb (fun x => bool_decide (Q x)) l = true <-> Forall Q l.
Proof.
  rewrite forallb_forall, Forall_forall. split; intros G x Hx.
  - apply list_elem_of_In, G in Hx. by apply bool_decide_eq_true in Hx.
  - apply bool_decide_eq_true, G. by apply list_elem_of_In.
Qed.

Lemma authorize_ok c a method now : authorize c a method now = None <-> permitted c a method now.
Proof.
  unfold authorize. pose proof (validateClaims_ok c a now) as Hv.
  destruct (validateClaims c a now) as [e|].
  { split; [done|]. intros [? ? ? ? ? _ _]. by rewrite (proj2 Hv). }
  destruct Hv as [Hv _]. specialize (Hv eq_refl) as (? & ? & ? & ? & ?).
  assert (G : forall required, (if forallb (fun scope => bool_decide (scope ∈ Fields (Scope c))) required
      then None else Some (callerDenied callerCauseScope callerMessageScope)) = None <->
    Forall (fun s => s ∈ Fields (Scope c)) required).
  { intros required. destruct (forallb _ required) eqn:E.
    - split; [|done]. intros _. by apply (forallb_Forall (fun s => s ∈ Fields (Scope c))) in E.
    - split; [done|]. intros Hf. apply (forallb_Forall (fun s => s ∈ Fields (Scope c))) in Hf. congruence. }
  destruct (ca_MethodScopes a) as [|r rules] eqn:Em; [|rewrite <-Em].
  - rewrite G. split; [|by intros []]. intros. split; done.
  - destruct (List.find _ (ca_MethodScopes a)) as [rule|] eqn:Ef.
    + rewrite G, Forall_app. split.
      * intros [? ?]. split; try done. intros _. eauto.
      * intros [_ _ _ _ _ ? Hr]. split; [done|]. destruct Hr as (r' & E & ?); [by rewrite Em|].
        rewrite Ef in E. by injection E as ->.
    + split; [done|]. intros [_ _ _ _ _ _ Hr]. destruct Hr as (r' & E & _); [by rewrite Em|].
      by rewrite Ef in E.
Qed.

Lemma callerBearerToken_ok md token :
  callerBearerToken md = inr token <->
  exists value scheme, md_Get md bearerAuthHeader = [value] /\ Split value " " = [scheme; token] /\
    map_chars lower1 scheme = tokenTypeBearer /\ validBearerValue token = true.
Proof.
  unfold callerBearerToken. destruct (md_Get md bearerAuthHeader) as [|value [|]]; [naive_solver| |naive_solver].
  assert (Hno : (forall scheme, Split value " " <> [scheme; token]) ->
    inl (callerRejected callerCauseMalformedBearer) = inr token <->
    exists v scheme, [value] = [v] /\ Split v " " = [scheme; token] /\
      map_chars lower1 scheme = tokenTypeBearer /\ validBearerValue token = true).
  { intros Hs. split; [done|]. intros (v & scheme & E & Hsp & _). injection E as <-.
    by destruct (Hs scheme). }
  destruct (Split value " ") as [|scheme [|t [|u l]]] eqn:Es; try (apply Hno; by intros ?).
  clear Hno. unfold EqualFoldBearer. case_bool_decide as E1; cbn [andb].
  - destruct (validBearerValue t) eqn:Ev.
    + split; [intros [= ->]; by exists value, scheme|].
      intros (v & s' & E & Hsp & _). injection E as <-. rewrite Es in Hsp. by injection Hsp as _ ->.
    + split; [done|]. intros (v & s' & E & Hsp & _ & Hv). injection E as <-.
      rewrite Es in Hsp. injection Hsp as _ ->. by rewrite Hv in Ev.
  - split; [done|]. intros (v & s' & E & Hsp & Hl & _). injection E as <-.
    rewrite Es in Hsp. by injection Hsp as ->.
Qed.

Lemma authenticateMTLS_ok peer :
  authenticateMTLS peer = None <-> exists n chains, peer = Some (S n :: chains).
Proof. destruct peer as [[|[|n] chains]|]; cbn; split; naive_solver. Qed.

(** *** The cache *)

Definition sameEntries (range : list (string * cachedIntrospection))
    (es : gmap string cachedIntrospection) : Prop := range ≡ₚ map_to_list es.

Lemma evictLoop_spec now left range es victim :
  NoDup range.*1 -> (forall kv, kv ∈ range -> is_Some (es !! kv.1)) ->
  (forall k e, victim = Some (k, e) -> is_Some (es !! k) /\ k ∉ range.*1) ->
  let '(es', victim') := evictLoop now left range es victim in
  es' ⊆ es /\
  (forall k e, victim' = Some (k, e) -> is_Some (es' !! k)) /\
  (victim <> None -> victim' <> None) /\
  (left <> 0%nat -> range <> [] -> victim' <> None \/ (size es' < size es)%nat).
Proof.
  revert left es victim. induction range as [|[key entry] range IH]; intros left es victim Hd Hin Hv.
  { destruct left; cbn; split_and!; try done; intros k e E; by apply Hv in E as [? _]. }
  destruct left as [|left]; cbn [evictLoop].
  { split_and!; try done. intros k e E. by apply Hv in E as [? _]. }
  rewrite fmap_cons in Hd. apply NoDup_cons in Hd as [Hkr Hd]. cbn [fst] in *.
  destruct (Hin (key, entry) (list_elem_of_here _ _)) as [x Hx]. cbn [fst] in Hx.
  assert (Hin' : forall kv, kv ∈ range -> is_Some (es !! kv.1)) by (intros kv Hkv; apply Hin; by right).
  destruct (now <? ci_expires entry).
  - set (v := match victim with Some (_, e) => _ | None => _ end).
    assert (Hvne : v <> None) by (subst v; destruct victim as [[? ?]|]; [by destruct (_ <? _)|done]).
    assert (Hv' : forall k e, v = Some (k, e) -> is_Some (es !! k) /\ k ∉ range.*1).
    { intros k e E. subst v. destruct victim as [[k0 e0]|].
      - destruct (ci_expires entry <? e0); [injection E as <- <-; split; [by eexists|done]|].
        destruct (Hv k e E) as [? Hn]. split; [done|]. rewrite fmap_cons in Hn. cbn in Hn.
        intros ?. apply Hn. by right.
      - injection E as <- <-. split; [by eexists|done]. }
    specialize (IH left es v Hd Hin' Hv'). destruct (evictLoop now left range es v) as [es' v'].
    destruct IH as (I1 & I2 & I3 & I4). split_and!; auto.
  - assert (Hin2 : forall kv, kv ∈ range -> is_Some (delete key es !! kv.1)).
    { intros kv Hkv. rewrite lookup_delete_ne; [by apply Hin'|]. intros ->. apply Hkr.
      by apply list_elem_of_fmap_2. }
    assert (Hv2 : forall k e, victim = Some (k, e) -> is_Some (delete key es !! k) /\ k ∉ range.*1).
    { intros k e E. destruct (Hv k e E) as [? Hn]. rewrite fmap_cons in Hn. cbn in Hn.
      rewrite lookup_delete_ne by (intros ->; apply Hn; by left). split; [done|].
      intros ?. apply Hn. by right. }
    specialize (IH left (delete key es) victim Hd Hin2 Hv2).
    destruct (evictLoop now left range (delete key es) victim) as [es' v'].
    destruct IH as (I1 & I2 & I3 & I4). split_and!; auto.
    + etrans; [done|]. apply delete_subseteq.
    + intros _ _. right. apply map_subseteq_size in I1.
      rewrite map_size_delete_Some in I1 by (by eexists).
      assert (size es <> 0%nat) by (intros E; apply map_size_empty_inv in E; by rewrite E, lookup_empty in Hx).
      lia.
Qed.

Lemma evictLocked_spec c now range :
  sameEntries range (ic_entries c) -> 0 < ic_maxEntries c ->
  Z.of_nat (size (ic_entries c)) = ic_maxEntries c ->
  let c' := evictLocked c now range in
  ic_entries c' ⊆ ic_entries c /\ ic_ttl c' = ic_ttl c /\ ic_maxEntries c' = ic_maxEntries c /\
  Z.of_nat (size (ic_entries c')) < ic_maxEntries c.
Proof.
  intros Hr Hpos Hsize. unfold evictLocked.
  assert (Hd : NoDup range.*1) by (rewrite Hr; apply NoDup_fst_map_to_list).
  assert (Hin : forall kv, kv ∈ range -> is_Some (ic_entries c !! kv.1)).
  { intros [k e] Hkv. rewrite Hr in Hkv. apply elem_of_map_to_list in Hkv. by eexists. }
  assert (Hne : range <> []).
  { intros ->. apply Permutation_nil_l in Hr. symmetry in Hr. apply map_to_list_empty_iff in Hr.
    rewrite Hr, map_size_empty in Hsize. lia. }
  pose proof (evictLoop_spec now introspectionEvictionSample range (ic_entries c) None Hd Hin) as E.
  destruct (evictLoop _ _ _ _ _) as [es victim]. destruct E as (E1 & E2 & _ & E4); [done|].
  pose proof (map_subseteq_size _ _ E1) as Hle.
  destruct victim as [[k e]|].
  - destruct (Z.leb_spec (ic_maxEntries c) (Z.of_nat (size es))) as [Hfull|Hfull]; cbn; split_and!; try done.
    + etrans; [apply delete_subseteq|done].
    + rewrite map_size_delete_Some by (by eapply E2). lia.
  - destruct (E4 ltac:(done) Hne) as [?|Hlt]; [done|]. cbn. split_and!; try done. lia.
Qed.

(** What a put leaves under a key. *)
Lemma cache_put_lookup c key claims now range k e :
  0 < ic_maxEntries c -> sameEntries range (ic_entries c) ->
  Z.of_nat (size (ic_entries c)) <= ic_maxEntries c ->
  (ic_entries <$> cache_put (Some c) key claims now range) ≫= (.!! k) = Some e ->
  ic_entries c !! k = Some e \/ (k = key /\ claims = ci_claims e).
Proof.
  intros Hpos Hr Hs. cbn [cache_put].
  set (expires := if time_Unix (Expires claims) <? now + ic_ttl c then _ else _).
  destruct (now <? expires); [|by left]. cbn.
  set (c1 := if _ && _ then _ else c).
  assert (Hc1 : ic_entries c1 ⊆ ic_entries c).
  { subst c1. destruct (bool_decide _); cbn [andb]; [|done].
    destruct (Z.leb_spec (ic_maxEntries c) (Z.of_nat (size (ic_entries c)))); [|done].
    apply evictLocked_spec; [done|lia|lia]. }
  destruct (decide (key = k)) as [<-|Hne].
  - rewrite lookup_insert_eq. intros [= <-]. by right.
  - rewrite lookup_insert_ne by done. intros He. left. by eapply lookup_weaken.
Qed.

(** The states of a cache, with the puts that led to it. *)
Inductive cached (ttl maxEntries : Z)
  : option introspectionCache -> list (string * introspectionClaims * Z) -> Prop :=
  | cached_new : cached ttl maxEntries (newIntrospectionCache ttl maxEntries) []
  | cached_get c puts key now :
      cached ttl maxEntries c puts -> cached ttl maxEntries (cache_get c key now).2 puts
  | cached_put c puts key claims now range :
      cached ttl maxEntries c puts ->
      (forall c', c = Some c' -> sameEntries range (ic_entries c')) ->
      cached ttl maxEntries (cache_put c key claims now range) ((key, claims, now) :: puts).

Record cache_ok (ttl maxEntries : Z) (c : introspectionCache)
    (puts : list (string * introspectionClaims * Z)) : Prop := {
  co_ttl : ic_ttl c = ttl;
  co_max : ic_maxEntries c = maxEntries;
  co_pos : 0 < maxEntries;
  co_size : Z.of_nat (size (ic_entries c)) <= maxEntries;
  co_entries : forall k e, ic_entries c !! k = Some e -> exists at_, (k, ci_claims e, at_) ∈ puts /\
    ci_expires e <= at_ + ttl /\ ci_expires e <= time_Unix (Expires (ci_claims e))
}.

Lemma cache_put_ok ttl maxEntries c puts key claims now range :
  cache_ok ttl maxEntries c puts -> sameEntries range (ic_entries c) ->
  forall c', cache_put (Some c) key claims now range = Some c' ->
  cache_ok ttl maxEntries c' ((key, claims, now) :: puts).
Proof.
  intros [H1 H2 H3 H4 H5] Hr c'. cbn [cache_put].
  set (expires := if time_Unix (Expires claims) <? now + ic_ttl c then _ else _).
  assert (He : expires <= now + ttl /\ expires <= time_Unix (Expires claims)).
  { subst expires. rewrite H1. destruct (Z.ltb_spec (time_Unix (Expires claims)) (now + ttl)); lia. }
  destruct (now <? expires).
  2: { intros [= <-]. split; try done. intros k e Hk. destruct (H5 k e Hk) as (t & Ht & ?).
       exists t. split; [by right|done]. }
  set (c1 := if _ && _ then _ else c).
  assert (Hc1 : ic_entries c1 ⊆ ic_entries c /\ ic_ttl c1 = ttl /\ ic_maxEntries c1 = maxEntries /\
    (ic_entries c !! key = None -> Z.of_nat (size (ic_entries c1)) < maxEntries) /\
    (is_Some (ic_entries c !! key) -> c1 = c)).
  { subst c1. case_bool_decide as Hk; cbn [andb].
    - destruct (Z.leb_spec (ic_maxEntries c) (Z.of_nat (size (ic_entries c)))) as [Hf|Hf].
      + destruct (evictLocked_spec c now range Hr) as (G1 & G2 & G3 & G4); [lia|lia|].
        split_and!; [done|congruence|congruence|intros _; lia|]. intros [? E]. by rewrite Hk in E.
      + split_and!; [done..|intros _; lia|done].
    - split_and!; try done. }
  destruct Hc1 as (S1 & S2 & S3 & S4 & S5). intros [= <-]. split; cbn; try done.
  - destruct (ic_entries c !! key) as [e|] eqn:Hk.
    + rewrite S5 by (by eexists). rewrite map_size_insert_Some by (by eexists). lia.
    + assert (ic_entries c1 !! key = None) as Hk1.
      { destruct (ic_entries c1 !! key) eqn:E; [|done].
        eapply lookup_weaken in E; [|done]. by rewrite Hk in E. }
      rewrite map_size_insert_None by done. specialize (S4 eq_refl). lia.
  - intros k e Hk. destruct (decide (key = k)) as [<-|Hne].
    + rewrite lookup_insert_eq in Hk. injection Hk as <-. exists now. split; [by left|done].
    + rewrite lookup_insert_ne in Hk by done. eapply lookup_weaken in Hk; [|done].
      destruct (H5 k e Hk) as (t & Ht & ?). exists t. split; [by right|done].
Qed.

Lemma cached_ok ttl maxEntries c puts :
  cached ttl maxEntries c puts ->
  match c with Some c => cache_ok ttl maxEntries c puts | None => ttl <= 0 \/ maxEntries <= 0 end.
Proof.
  induction 1 as [|c puts key now _ IH|c puts key claims now range _ IH Hr].
  - unfold newIntrospectionCache. destruct (Z.leb_spec ttl 0); [by left|].
    destruct (Z.leb_spec maxEntries 0); [by right|]. cbn. split; cbn; try done; try lia.
    rewrite map_size_empty. lia.
  - destruct c as [c|]; [|done]. cbn [cache_get].
    destruct (ic_entries c !! key) as [e|] eqn:Hk; [|done].
    destruct (now <? ci_expires e); [done|]. destruct IH as [H1 H2 H3 H4 H5]. cbn. split; cbn; try done.
    + rewrite map_size_delete_Some by (by eexists). lia.
    + intros k e' Hk'. apply lookup_delete_Some in Hk' as [_ Hk']. by apply H5.
  - destruct c as [c|]; [|done]. specialize (Hr c eq_refl).
    destruct (cache_put (Some c) key claims now range) as [c'|] eqn:E; [by eapply cache_put_ok|].
    cbn [cache_put] in E. by destruct (now <? _).
Qed.

(** ** Theorems *)

(** The positive cache, whatever the order in which evictions sample it:
    it never holds more entries than its limit; what it returns for a token
    was stored for that token, no longer ago than the time to live, and has
    not reached its expiry; and a disabled cache returns nothing. *)
Theorem introspection_cache_spec ttl maxEntries c puts :
  cached ttl maxEntries c puts ->
  match c with
  | None => ttl <= 0 \/ maxEntries <= 0
  | Some c => 0 < maxEntries /\ Z.of_nat (size (ic_entries c)) <= maxEntries
  end /\
  forall key now claims c', cache_get c key now = (Some claims, c') ->
    exists at_, (key, claims, at_) ∈ puts /\ now < at_ + ttl /\ now < time_Unix (Expires claims).
Proof.
  intros Hc%cached_ok. destruct c as [c|]; [|by split]. destruct Hc as [H1 H2 H3 H4 H5].
  split; [done|]. intros key now claims c'. cbn [cache_get].
  destruct (ic_entries c !! key) as [e|] eqn:Hk; [|done].
  destruct (Z.ltb_spec now (ci_expires e)); [|done]. intros [= <- _].
  destruct (H5 key e Hk) as (t & Ht & ? & ?). exists t. split_and!; [done|lia..].
Qed.

(** C16. A caller is let through exactly when the settings are valid and they
    ask for no authentication, or mTLS and the peer has a verified certificate
    chain, or introspection and the request carries exactly one well-formed
    Bearer token whose claims are active, of the issuer and audience, within
    their validity at this moment, and hold every scope the method requires;
    with method rules, an unlisted method is denied. *)
Theorem authenticateCaller_spec a grpcTLS oidc md peer method introspect now :
  authenticateCaller a grpcTLS oidc md peer method introspect now = None <->
  ValidateGRPCCallerAuth a grpcTLS oidc = None /\
  (ca_AllowUnauthenticated a = true \/ ca_Mode a = "" \/
   (ca_Mode a = "mtls" /\ exists n chains, peer = Some (S n :: chains)) \/
   (ca_Mode a = "introspection" /\ exists value scheme token claims,
      md_Get md bearerAuthHeader = [value] /\ Split value " " = [scheme; token] /\
      map_chars lower1 scheme = tokenTypeBearer /\ validBearerValue token = true /\
      introspect token = inr claims /\ permitted claims a method now)).
Proof.
  unfold authenticateCaller. pose proof (ValidateGRPCCallerAuth_mode a grpcTLS oidc) as Hm.
  destruct (ValidateGRPCCallerAuth a grpcTLS oidc); [naive_solver|]. specialize (Hm eq_refl).
  destruct (ca_AllowUnauthenticated a); cbn [orb]; [naive_solver|].
  case_bool_decide as E1; [naive_solver|].
  destruct (decide (ca_Mode a = "mtls")) as [E2|E2].
  { rewrite authenticateMTLS_ok. split.
    - intros Hp. split; [done|]. right; right; left. by split.
    - intros [_ [?|[?|[[_ Hp]|[E _]]]]]; [done..|]. by rewrite E2 in E. }
  destruct Hm as [?|[?|[?|Hi]]]; [done..|].
  destruct (callerBearerToken md) as [e|token] eqn:Et.
  { split; [done|]. intros [_ [?|[?|[[? _]|(_ & v & s & t & c & ? & ? & ? & ? & _)]]]]; try done.
    assert (callerBearerToken md = inr t) as E by (apply callerBearerToken_ok; by exists v, s). by rewrite Et in E. }
  pose proof (proj1 (callerBearerToken_ok md token) Et) as (v & s & H1 & H2 & H3 & H4).
  assert (Huniq : forall t v' s', md_Get md bearerAuthHeader = [v'] -> Split v' " " = [s'; t] -> t = token).
  { intros t v' s' E E'. rewrite H1 in E. injection E as <-. rewrite H2 in E'. by injection E'. }
  destruct (introspect token) as [e|claims] eqn:Ei.
  { split; [done|]. intros [_ [?|[?|[[? _]|(_ & v' & s' & t & c & ? & ? & _ & _ & Hc & _)]]]]; try done.
    rewrite (Huniq t v' s') in Hc by done. by rewrite Ei in Hc. }
  rewrite authorize_ok. split.
  - intros Hp. split; [done|]. right; right; right. split; [done|]. by exists v, s, token, claims.
  - intros [_ [?|[?|[[? _]|(_ & v' & s' & t & c & ? & ? & _ & _ & Hc & ?)]]]]; try done.
    rewrite (Huniq t v' s') in Hc by done. rewrite Ei in Hc. by injection Hc as ->.
Qed.

(** *** Classes of rejections *)

Definition callerFault (e : callerAuthError) : Prop :=
  (ae_code e = codes_Unauthenticated /\ ae_message e = callerMessageUnauthenticated /\
   ae_cause e ∈ [callerCauseMissingBearer; callerCauseMalformedBearer; callerCauseMTLS;
                 callerCauseInactive; callerCauseClaims]) \/
  (ae_code e = codes_PermissionDenied /\
   ((ae_cause e = callerCauseMethod /\ ae_message e = callerMessageMethod) \/
    (ae_cause e = callerCauseScope /\ ae_message e = callerMessageScope))).
Definition technicalFault (e : callerAuthError) : Prop :=
  ae_code e = codes_Unavailable /\ ae_message e = callerMessageUnavailable /\
  ae_cause e ∈ [callerCauseTransport; callerCauseTimeout; callerCauseHTTPStatus; callerCauseResponse;
                callerCauseOverload; callerCauseConfig; callerCauseCanceled].
Definition callerGone (e : callerAuthError) : Prop :=
  (ae_code e = codes_DeadlineExceeded /\ ae_cause e = callerCauseDeadline /\
   ae_message e = callerMessageDeadline) \/
  (ae_code e = codes_Canceled /\ ae_cause e = callerCauseCanceled /\ ae_message e = callerMessageCanceled).

Ltac in_list := repeat first [by left | right].

Lemma transport_technical nt c e : technicalFault (introspectionTransportError nt c e).
Proof.
  unfold introspectionTransportError.
  destruct (match c with Some e => errors_Is e context_Canceled | None => false end);
    [|destruct (_ || _ || _)]; split_and!; try done; in_list.
Qed.

Lemma httpStatus_technical code oauth : technicalFault (callerHTTPStatusError code oauth).
Proof.
  unfold callerHTTPStatusError. destruct (decide _); [|destruct (decide _)]; split_and!; try done; in_list.
Qed.

Lemma fetchIntrospection_technical `{Introspector} a token e :
  fetchIntrospection a token = inl e -> technicalFault e.
Proof.
  unfold fetchIntrospection. destruct (decide _); [intros [= <-]; split_and!; try done; in_list|].
  destruct (negb (http_NewRequest_ok _)); [intros [= <-]; split_and!; try done; in_list|].
  destruct (client_Do _) as [r|err]; [|intros [= <-]; apply transport_technical].
  destruct (negb _); [intros [= <-]; apply httpStatus_technical|].
  unfold decodeIntrospection. destruct (limitReader _ r) as [payload [err|]];
    [intros [= <-]; apply transport_technical|].
  destruct (_ <? _); [intros [= <-]; split_and!; try done; in_list|].
  destruct (json_Claims payload); [done|]. intros [= <-]. split_and!; try done; in_list.
Qed.

Lemma contextRefusal_gone err : callerGone (contextRefusal err).
Proof.
  unfold contextRefusal, callerContextError. destruct (errors_Is err context_DeadlineExceeded); cbn;
    [by left|by right].
Qed.

Lemma validateClaims_fault c a now e : validateClaims c a now = Some e -> callerFault e.
Proof.
  unfold validateClaims. destruct (negb (Active c)); [intros [= <-]; left; split_and!; try done; in_list|].
  destruct (_ || _); [|done]. intros [= <-]. left. split_and!; try done; in_list.
Qed.

Lemma authorize_fault c a method now e : authorize c a method now = Some e -> callerFault e.
Proof.
  unfold authorize. destruct (validateClaims c a now) eqn:E; [intros [= <-]; by eapply validateClaims_fault|].
  destruct (ca_MethodScopes a) as [|r rs].
  - destruct (forallb _ _); [done|]. intros [= <-]. right. split; [done|]. by right.
  - destruct (List.find _ _); [|intros [= <-]; right; split; [done|]; by left].
    destruct (forallb _ _); [done|]. intros [= <-]. right. split; [done|]. by right.
Qed.

Lemma callerBearerToken_fault md e : callerBearerToken md = inl e -> callerFault e.
Proof.
  unfold callerBearerToken.
  destruct (md_Get md bearerAuthHeader) as [|v [|v' l]]; [intros [= <-]; left; split_and!; try done; in_list| |
    intros [= <-]; left; split_and!; try done; in_list].
  destruct (Split v " ") as [|a [|b [|c l]]]; try (intros [= <-]; left; split_and!; try done; in_list).
  destruct (_ && _); [done|]. intros [= <-]; left; split_and!; try done; in_list.
Qed.

(** What a caller can meet: its own end, the refusal of the flights, or a
    flight that ran [fetchIntrospection]. *)
Definition joined_ok `{Introspector} (a : GRPCCallerAuthConfig) (j : joined) : Prop :=
  match j with
  | JoinRefused e => e = callerOverloaded
  | FlightDone _ r => forall e, fr_err r = Some e -> exists token, fetchIntrospection a token = inl e
  | _ => True
  end.

Lemma introspectCaller_fault `{Introspector} a clientErr cache token now j e :
  joined_ok a j -> (introspectCaller clientErr cache token now j).1.1 = inl e ->
  technicalFault e \/ callerGone e.
Proof.
  intros Hj. unfold introspectCaller.
  destruct clientErr as [err|]; [intros [= <-]; left; split_and!; try done; in_list|].
  destruct (cache_get cache (digestCallerToken token) now) as [[claims|] c']; [done|].
  destruct j as [err|err|shared r|err]; cbn in *.
  - intros [= <-]. right. apply contextRefusal_gone.
  - intros [= <-]. subst err. left. split_and!; try done; in_list.
  - destruct (fr_err r) as [err|] eqn:Er; [|done]. intros [= <-].
    destruct (Hj err eq_refl) as [t Ht]. left. by eapply fetchIntrospection_technical.
  - intros [= <-]. right. apply contextRefusal_gone.
Qed.

(** Rejections are classified.  A caller is told Unauthenticated or
    PermissionDenied only for its own fault, Unavailable for every fault of the
    proxy or the issuer, and Canceled or DeadlineExceeded when it gave up
    itself; the cause is one of the documented ones, the message one of six
    fixed texts, so neither carries a token or a secret; and the ingress
    outcome follows the class. *)
Theorem caller_rejections_classified `{Introspector} a grpcTLS oidc md peer method clientErr cache now
    (j : string -> joined) nowUnix e :
  (forall token, joined_ok a (j token)) ->
  authenticateCaller a grpcTLS oidc md peer method
    (fun token => (introspectCaller clientErr cache token now (j token)).1.1) nowUnix = Some e ->
  (callerFault e /\ outcome e = callerAuthRejected /\ technical e = false) \/
  (technicalFault e /\ outcome e = callerAuthUnavailable /\ technical e = true) \/
  (callerGone e /\ outcome e = callerAuthCanceled /\ technical e = false).
Proof.
  intros Hj Ha.
  assert (callerFault e \/ technicalFault e \/ callerGone e) as [Hf|[Hf|Hf]].
  { unfold authenticateCaller in Ha.
    destruct (ValidateGRPCCallerAuth a grpcTLS oidc);
      [injection Ha as <-; right; left; split_and!; try done; in_list|].
    destruct (_ || _); [done|]. destruct (decide _).
    { left. destruct peer as [[|[|n] l]|]; cbn in Ha; try done;
        injection Ha as <-; left; split_and!; try done; in_list. }
    destruct (callerBearerToken md) as [e'|token] eqn:Et;
      [injection Ha as <-; left; by eapply callerBearerToken_fault|].
    destruct ((introspectCaller clientErr cache token now (j token)).1.1) as [e'|claims] eqn:Ei.
    - injection Ha as <-. right. by eapply introspectCaller_fault.
    - left. by eapply authorize_fault. }
  - left. split; [done|]. unfold outcome, technical. by destruct Hf as [(-> & _)|(-> & _)].
  - right; left. split; [done|]. unfold outcome, technical. by destruct Hf as (-> & _).
  - right; right. split; [done|]. unfold outcome, technical. by destruct Hf as [(-> & _)|(-> & _)].
Qed.

(** C23. Only valid claims are cached: after a flight every cached entry was
    there before or holds the claims of this token, valid when they were
    stored; failures and inactive tokens leave nothing. *)
Theorem introspection_caches_valid `{Introspector} a ttl maxEntries cache puts token now1 now2 range k e :
  cached ttl maxEntries cache puts ->
  (forall c, (cache_get cache (digestCallerToken token) now1).2 = Some c -> sameEntries range (ic_entries c)) ->
  let '(result, cache') := runIntrospectionFlight a cache token now1 now2 range in
  (ic_entries <$> cache') ≫= (.!! k) = Some e ->
  (ic_entries <$> cache) ≫= (.!! k) = Some e \/
  (k = digestCallerToken token /\ fetchIntrospection a token = inr (ci_claims e) /\
   fr_err result = None /\ validateClaims (ci_claims e) a (now2 / second) = None).
Proof.
  intros Hc Hr. unfold runIntrospectionFlight.
  assert (Hget : forall c', (cache_get cache (digestCallerToken token) now1).2 = c' ->
    (ic_entries <$> c') ≫= (.!! k) = Some e -> (ic_entries <$> cache) ≫= (.!! k) = Some e).
  { intros c' <-. destruct cache as [c|]; [|done]. cbn [cache_get].
    destruct (ic_entries c !! digestCallerToken token) as [en|]; cbn [snd]; [|tauto].
    destruct (now1 <? ci_expires en); cbn; [tauto|]. by intros [_ ?]%lookup_delete_Some. }
  pose proof (cached_get ttl maxEntries cache puts (digestCallerToken token) now1 Hc) as Hc1.
  destruct (cache_get cache (digestCallerToken token) now1) as [[claims|] c1] eqn:Eg; cbn [snd] in *.
  { intros He. left. by eapply Hget. }
  destruct (fetchIntrospection a token) as [err|claims] eqn:Ef.
  { intros He. left. by eapply Hget. }
  destruct (validateClaims claims a (now2 / second)) eqn:Ev.
  { intros He. left. by eapply Hget. }
  intros He. destruct c1 as [c1|]; [|done].
  apply cached_ok in Hc1 as [C1 C2 C3 C4 _].
  destruct (cache_put_lookup c1 (digestCallerToken token) claims now2 range k e) as [He'|[-> ->]];
    [lia|by apply Hr|lia|done| |].
  - left. by apply (Hget (Some c1)).
  - right. by split_and!.
Qed.

(** ** The log limiter against its history *)

(** The history of calls, the last first, with what was answered. *)
Definition lastAllowed (h : list (string * Z * bool)) (cause : string) : option Z :=
  match List.find (fun c => bool_decide (c.1.1 = cause) && c.2) h with
  | Some (_, t, _) => Some t
  | None => None
  end.
Fixpoint deniedSince (h : list (string * Z * bool)) (cause : string) : Z :=
  match h with
  | [] => 0
  | (k, _, allowed) :: h' =>
      if decide (k = cause) then if allowed then 0 else 1 + deniedSince h' cause
      else deniedSince h' cause
  end.

Inductive limited : callerLogLimiter -> list (string * Z * bool) -> Prop :=
  | limited_new : limited newCallerLogLimiter []
  | limited_allow l h cause now :
      limited l h ->
      limited (allow l cause now).2 ((cause, now, (allow l cause now).1.1) :: h).

Lemma limited_state l h cause :
  limited l h -> l_last l !! cause = lastAllowed h cause /\
                 default 0 (l_suppressed l !! cause) = deniedSince h cause.
Proof.
  induction 1 as [|l h k now _ [IH1 IH2]]; [done|].
  unfold lastAllowed in *. cbn [List.find deniedSince fst snd]. unfold allow.
  destruct (match l_last l !! k with Some last => _ | None => false end); cbn.
  - case_bool_decide as E; cbn [andb].
    + subst k. rewrite decide_True by done. rewrite lookup_insert_eq. cbn. split; [done|].
      rewrite <-IH2. lia.
    + rewrite decide_False by done. by rewrite lookup_insert_ne.
  - case_bool_decide as E; cbn [andb].
    + subst k. rewrite decide_True by done. by rewrite !lookup_insert_eq.
    + rewrite decide_False by done. by rewrite !lookup_insert_ne.
Qed.

(** Technical rejections are logged at most once per key and interval: a
    record is emitted exactly when none was emitted for its key within the
    last ten seconds, and it reports exactly the rejections suppressed for
    that key since. *)
Theorem log_limiter_spec l h cause now :
  limited l h ->
  (allow l cause now).1 =
  match lastAllowed h cause with
  | Some t => if now - t <? 10 * second then (false, 0) else (true, deniedSince h cause)
  | None => (true, deniedSince h cause)
  end.
Proof.
  intros Hl. destruct (limited_state l h cause Hl) as [E1 E2]. unfold allow, callerLogInterval.
  rewrite E1, E2. destruct (lastAllowed h cause) as [t|]; [|done]. by destruct (now - t <? 10 * second).
Qed.
End auth.

(** ** Witnesses *)

Definition exampleURLs : URLs :=
  {| url_Parse := fun _ => Some {| u_Scheme := "https"; u_Host := "i"; u_hasUser := false;
                                   u_Fragment := ""; u_RawQuery := "" |} |}.
Definition exampleClaims : introspectionClaims :=
  {| Active := true; Issuer := "iss"; Audience := "aud"; Scope := "a b"; Expires := 100; NotBefore := 0 |}.
Definition exampleIntrospector : Introspector :=
  {| os_Getenv := fun _ => "secret"; url_QueryEscape := fun s => s; http_NewRequest_ok := fun _ => true;
     client_Do := fun _ => Ok {| is_StatusCode := 200; is_Body := "x"; is_BodyErr := None |};
     flight_ctxErr := None; net_Timeout := fun _ => false; json_OAuthError := fun _ => None;
     json_Claims := fun _ => Ok exampleClaims |}.
Definition exampleCallerAuth (mode : string) : GRPCCallerAuthConfig :=
  {| ca_CAFile := ""; ca_ServerName := ""; ca_MinTLSVersion := "1.2"; ca_Mode := mode;
     ca_AllowUnauthenticated := false; ca_IntrospectionEndpoint := "https://i/"; ca_Issuer := "iss";
     ca_Audience := "aud"; ca_ClientID := "id"; ca_ClientSecretEnv := "ENV"; ca_RequiredScopes := ["a"];
     ca_MethodScopes := []; ca_Timeout := 0; ca_IntrospectionCacheTTL := 10 * second;
     ca_IntrospectionCacheMaxEntries := 1; ca_IntrospectionMaxConcurrent := 0 |}.
Definition exampleGRPCTLS : GRPCTLSConfig :=
  {| tls_Enabled := true; tls_Cert := "c"; tls_Key := "k"; tls_ClientCA := "ca";
     tls_RequireClientCert := true; tls_MinTLSVersion := "1.2" |}.
Definition exampleOIDC : GRPCBackendOIDCAuthConfig :=
  {| oidc_CAFile := ""; oidc_ServerName := ""; oidc_MinTLSVersion := ""; oidc_Enabled := true;
     oidc_ConfigurationURI := ""; oidc_TokenEndpoint := "https://t/"; oidc_ClientID := "id";
     oidc_ClientSecret := "s"; oidc_ClientSecretEnv := ""; oidc_AuthMethod := "auto";
     oidc_Scopes := None; oidc_Timeout := 0; oidc_RefreshSkew := 30 * second; oidc_InsecureTLS := false |}.

(** The raw text read as it is. *)
Definition exampleJSON (s : string) : option string := Some s.
Definition noStrings (s : string) : option (list string) := None.

(** A token put at second 1 is found at second 2, and a second one evicts it. *)
Definition exampleCache : option introspectionCache :=
  cache_put (newIntrospectionCache (10 * second) 1) "k" exampleClaims second [].

Lemma exampleCache_cached : cached (10 * second) 1 exampleCache [("k", exampleClaims, second)].
Proof.
  apply cached_put; [apply cached_new|]. intros c' [= <-].
  unfold sameEntries. cbn. by rewrite map_to_list_empty.
Qed.

Lemma introspection_cache_spec_witness :
  fst (cache_get exampleCache "k" (2 * second)) = Some exampleClaims /\
  exists at_, ("k", exampleClaims, at_) ∈ [("k", exampleClaims, second)] /\
    2 * second < at_ + 10 * second /\ 2 * second < time_Unix 100.
Proof.
  split; [vm_compute; reflexivity|].
  destruct (introspection_cache_spec (10 * second) 1 exampleCache [("k", exampleClaims, second)]
    exampleCache_cached) as [_ G].
  apply (G "k" (2 * second) exampleClaims exampleCache). vm_compute. reflexivity.
Defined.

Lemma caller_rejections_classified_witness :
  let U := asciiUnicode in let L := exampleURLs in let I := exampleIntrospector in
  exists e, authenticateCaller exampleJSON noStrings (exampleCallerAuth "mtls") exampleGRPCTLS exampleOIDC
    ∅ None "/s/m" (fun token => (introspectCaller None None token 0 (CallerEnded context_Canceled)).1.1) 0
    = Some e /\ callerFault e.
Proof.
  intros U L I. eexists. split; [vm_compute; reflexivity|].
  destruct (caller_rejections_classified exampleJSON noStrings (exampleCallerAuth "mtls") exampleGRPCTLS
    exampleOIDC ∅ None "/s/m" None None 0 (fun _ => CallerEnded context_Canceled) 0
    (callerRejected callerCauseMTLS)) as [[G _]|[[[G _] _]|[[[G _]|[G _]] _]]];
    [done|vm_compute; reflexivity|exact G|discriminate G|discriminate G|discriminate G].
Defined.

Lemma introspection_caches_valid_witness :
  let U := asciiUnicode in let L := exampleURLs in let I := exampleIntrospector in
  let a := exampleCallerAuth "introspection" in
  let cache' := (runIntrospectionFlight exampleJSON noStrings a (newIntrospectionCache (10 * second) 1)
                   "t" second second []).2 in
  let e := {| ci_claims := exampleClaims; ci_expires := 11 * second |} in
  (ic_entries <$> cache') ≫= (.!! (digestCallerToken "t")) = Some e /\
  validateClaims exampleJSON noStrings exampleClaims a 1 = None.
Proof.
  intros U L I a cache' e.
  assert (E : (ic_entries <$> cache') ≫= (.!! (digestCallerToken "t")) = Some e) by (vm_compute; reflexivity).
  split; [exact E|].
  pose proof (introspection_caches_valid exampleJSON noStrings a (10 * second) 1
    (newIntrospectionCache (10 * second) 1) [] "t" second second [] (digestCallerToken "t") e
    (cached_new _ _)) as G.
  rewrite (surjective_pairing (runIntrospectionFlight _ _ _ _ _ _ _ _)) in G. cbv iota beta in G.
  destruct G as [G|(_ & _ & _ & G)].
  - intros c' Hc'.
    assert (Ec : (cache_get (newIntrospectionCache (10 * second) 1) (digestCallerToken "t") second).2
      = newIntrospectionCache (10 * second) 1) by (vm_compute; reflexivity).
    rewrite Ec in Hc'. injection Hc' as <-. unfold sameEntries.
    change (ic_entries _) with (∅ : gmap string cachedIntrospection). by rewrite map_to_list_empty.
  - exact E.
  - exfalso.
    assert (En : (ic_entries <$> newIntrospectionCache (10 * second) 1) ≫= (.!! (digestCallerToken "t")) = None)
      by (vm_compute; reflexivity).
    rewrite En in G. discriminate G.
  - exact G.
Defined.

Lemma log_limiter_spec_witness :
  let U := asciiUnicode in
  let l := (allow newCallerLogLimiter "timeout" 0).2 in
  (allow l "timeout" second).1 = (false, 0).
Proof.
  intros U l. exact (log_limiter_spec l [("timeout", 0, true)] "timeout" second
    (limited_allow newCallerLogLimiter [] "timeout" 0 limited_new)).
Defined.
End callerauth.
