(* ===== verification/GrpcFlights.v ===== *)
(** * [internal/grpcproxy/caller_auth_cache.go], second part: shared introspection flights

    [introspectionFlights] collapses concurrent introspections of one token
    into one request and bounds the requests in progress.  Flights live on a
    heap and are named by their index.  Every operation under the mutex is one
    step; the goroutine of a flight ([run]) ends with a deferred function of
    four steps.  Callers hold a flight from a successful [join] to their
    [leave]. *)
From S2P Require Export CallerAuth.

Module flights.
Import callerauth.

Record introspectionFlight := {
  fl_key : string;
  fl_waiters : Z;
  fl_canceled : bool;
  fl_done : bool;
  fl_result : option introspectionResult
}.

(** [pending] and the heap; [used] is the number of elements in the [slots]
    channel, whose capacity is [slots] ([None]: a nil channel). *)
Record introspectionFlights := {
  g_pending : gmap string nat;
  g_used : Z;
  g_heap : list introspectionFlight
}.
Definition newFlights : introspectionFlights := {| g_pending := ∅; g_used := 0; g_heap := [] |}.

Definition with_heap (g : introspectionFlights) (h : list introspectionFlight) :=
  {| g_pending := g_pending g; g_used := g_used g; g_heap := h |}.
Definition add_waiters (n : Z) (f : introspectionFlight) : introspectionFlight :=
  {| fl_key := fl_key f; fl_waiters := fl_waiters f + n; fl_canceled := fl_canceled f;
     fl_done := fl_done f; fl_result := fl_result f |}.
Definition set_canceled (f : introspectionFlight) : introspectionFlight :=
  {| fl_key := fl_key f; fl_waiters := fl_waiters f; fl_canceled := true;
     fl_done := fl_done f; fl_result := fl_result f |}.
Definition set_done (f : introspectionFlight) : introspectionFlight :=
  {| fl_key := fl_key f; fl_waiters := fl_waiters f; fl_canceled := fl_canceled f;
     fl_done := true; fl_result := fl_result f |}.
Definition set_fetched (r : introspectionResult) (f : introspectionFlight) : introspectionFlight :=
  {| fl_key := fl_key f; fl_waiters := fl_waiters f; fl_canceled := fl_canceled f;
     fl_done := fl_done f; fl_result := Some r |}.

Definition forgetLocked (g : introspectionFlights) (key : string) (id : nat) : introspectionFlights :=
  if decide (g_pending g !! key = Some id)
  then {| g_pending := delete key (g_pending g); g_used := g_used g; g_heap := g_heap g |}
  else g.

Definition cancel (g : introspectionFlights) (id : nat) : introspectionFlights :=
  with_heap g (alter set_canceled id (g_heap g)).

(** A joined flight, whether it is shared; or the refusal. *)
Definition join (slots : option Z) (g : introspectionFlights) (key : string)
    : (callerAuthError + nat * bool) * introspectionFlights :=
  match g_pending g !! key with
  | Some id => (inr (id, true), with_heap g (alter (add_waiters 1) id (g_heap g)))
  | None =>
      if match slots with Some capacity => capacity <=? g_used g | None => false end
      then (inl callerOverloaded, g)
      else
        let id := length (g_heap g) in
        (inr (id, false),
         {| g_pending := <[key := id]> (g_pending g);
            g_used := if slots then g_used g + 1 else g_used g;
            g_heap := g_heap g ++ [{| fl_key := key; fl_waiters := 1; fl_canceled := false;
                                      fl_done := false; fl_result := None |}] |})
  end.

Definition leave (g : introspectionFlights) (id : nat) : introspectionFlights :=
  let g := with_heap g (alter (add_waiters (-1)) id (g_heap g)) in
  match g_heap g !! id with
  | None => g
  | Some f =>
      if 0 <? fl_waiters f then g
      else if fl_done f then g
      else cancel (forgetLocked g (fl_key f) id) id
  end.

(** [running]. *)
Definition running (g : introspectionFlights) : nat := size (g_pending g).

(** Where the goroutine of a flight stands: in [fetch], then at one of the
    calls of its deferred function. *)
Inductive run := Fetching | Forgetting | Canceling | Releasing | Closing | Ended.
#[export] Instance run_eq_dec : EqDecision run.
Proof. solve_decision. Defined.

Record world := {
  fw_flights : introspectionFlights;
  fw_runs : list run;
  fw_holders : list nat
}.
Definition initial : world := {| fw_flights := newFlights; fw_runs := []; fw_holders := [] |}.

(** The next step of the deferred function of flight [id]; [<-slots] waits
    while the channel is empty. *)
Definition deferred (slots : option Z) (w : world) (id : nat) : option world :=
  let g := fw_flights w in
  let go g p := Some {| fw_flights := g; fw_runs := <[id := p]> (fw_runs w); fw_holders := fw_holders w |} in
  match g_heap g !! id, fw_runs w !! id with
  | Some f, Some Forgetting => go (forgetLocked g (fl_key f) id) Canceling
  | Some f, Some Canceling => go (cancel g id) Releasing
  | Some f, Some Releasing =>
      match slots with
      | None => go g Closing
      | Some _ => if 0 <? g_used g
                  then go {| g_pending := g_pending g; g_used := g_used g - 1; g_heap := g_heap g |} Closing
                  else None
      end
  | Some f, Some Closing => go (with_heap g (alter set_done id (g_heap g))) Ended
  | _, _ => None
  end.

Inductive step (slots : option Z) : world -> world -> Prop :=
  | step_start w key id g :
      join slots (fw_flights w) key = (inr (id, false), g) ->
      step slots w {| fw_flights := g; fw_runs := fw_runs w ++ [Fetching]; fw_holders := id :: fw_holders w |}
  | step_share w key id g :
      join slots (fw_flights w) key = (inr (id, true), g) ->
      step slots w {| fw_flights := g; fw_runs := fw_runs w; fw_holders := id :: fw_holders w |}
  | step_fetched w id r :
      fw_runs w !! id = Some Fetching ->
      step slots w {| fw_flights := with_heap (fw_flights w) (alter (set_fetched r) id (g_heap (fw_flights w)));
                      fw_runs := <[id := Forgetting]> (fw_runs w); fw_holders := fw_holders w |}
  | step_deferred w id w' : deferred slots w id = Some w' -> step slots w w'
  | step_leave w id holders :
      fw_holders w ≡ₚ id :: holders ->
      step slots w {| fw_flights := leave (fw_flights w) id; fw_runs := fw_runs w; fw_holders := holders |}.

Definition reachable (slots : option Z) : world -> Prop := rtc (step slots) initial.

(** ** The invariant *)

Definition holding (w : world) (id : nat) : Z := Z.of_nat (length (filter (eq id) (fw_holders w))).
Definition holdsSlot (p : run) : bool :=
  match p with Fetching | Forgetting | Canceling | Releasing => true | _ => false end.
Definition slotsHeld (w : world) : Z := Z.of_nat (length (filter holdsSlot (fw_runs w))).

(** A flight, where its goroutine stands and whether it is pending. *)
Record flight_ok (pending : gmap string nat) (waiting : Z) (id : nat) (f : introspectionFlight) (p : run)
    : Prop := {
  ok_waiters : fl_waiters f = waiting;
  ok_done : fl_done f = true <-> p = Ended;
  ok_result : fl_result f = None <-> p = Fetching;
  ok_pending : pending !! fl_key f = Some id <->
    (p = Fetching \/ p = Forgetting) /\ fl_canceled f = false;
  ok_canceled : fl_canceled f = true ->
    fl_waiters f = 0 \/ p = Releasing \/ p = Closing \/ p = Ended;
  ok_past : p = Releasing \/ p = Closing \/ p = Ended -> fl_canceled f = true;
  ok_abandoned : fl_waiters f = 0 -> fl_done f = false -> fl_canceled f = true
}.

Record inv (slots : option Z) (w : world) : Prop := {
  inv_length : length (fw_runs w) = length (g_heap (fw_flights w));
  inv_used : if slots then g_used (fw_flights w) = slotsHeld w else g_used (fw_flights w) = 0;
  inv_bound : forall capacity, slots = Some capacity -> 0 <= capacity -> slotsHeld w <= capacity;
  inv_named : forall key id, g_pending (fw_flights w) !! key = Some id ->
    exists f, g_heap (fw_flights w) !! id = Some f /\ fl_key f = key;
  inv_holders : forall id, id ∈ fw_holders w -> (id < length (g_heap (fw_flights w)))%nat;
  inv_flight : forall id f p, g_heap (fw_flights w) !! id = Some f -> fw_runs w !! id = Some p ->
    flight_ok (g_pending (fw_flights w)) (holding w id) id f p
}.

Lemma count_cons (p : run) (l : list run) :
  Z.of_nat (length (filter holdsSlot (p :: l))) = Z.b2z (holdsSlot p) + Z.of_nat (length (filter holdsSlot l)).
Proof. rewrite filter_cons. by destruct p; cbn [holdsSlot Is_true]; case_decide; cbn [length Z.b2z]; try lia. Qed.
Lemma count_app (l1 l2 : list run) :
  Z.of_nat (length (filter holdsSlot (l1 ++ l2)))
  = Z.of_nat (length (filter holdsSlot l1)) + Z.of_nat (length (filter holdsSlot l2)).
Proof. rewrite filter_app, length_app. lia. Qed.
Lemma count_insert (l : list run) (id : nat) (p q : run) :
  l !! id = Some p ->
  Z.of_nat (length (filter holdsSlot (<[id := q]> l))) + Z.b2z (holdsSlot p)
  = Z.of_nat (length (filter holdsSlot l)) + Z.b2z (holdsSlot q).
Proof.
  intros Hl. rewrite insert_take_drop by (by eapply lookup_lt_Some).
  rewrite <- (take_drop_middle l id p Hl) at 3. rewrite !count_app, !count_cons. lia.
Qed.

(** A step that changes flight [id] alone. *)
Lemma inv_update slots w pending' used' F id p' holders' f p :
  inv slots w -> g_heap (fw_flights w) !! id = Some f -> fw_runs w !! id = Some p ->
  fl_key (F f) = fl_key f ->
  (pending' = g_pending (fw_flights w) \/
   pending' = delete (fl_key f) (g_pending (fw_flights w)) /\
   g_pending (fw_flights w) !! fl_key f = Some id) ->
  (forall id', id' <> id -> length (filter (eq id') holders') = length (filter (eq id') (fw_holders w))) ->
  (forall id', id' ∈ holders' -> id' = id \/ id' ∈ fw_holders w) ->
  (holdsSlot p' -> holdsSlot p) ->
  used' = g_used (fw_flights w) - (if slots then Z.b2z (holdsSlot p) - Z.b2z (holdsSlot p') else 0) ->
  flight_ok pending' (Z.of_nat (length (filter (eq id) holders'))) id (F f) p' ->
  inv slots {| fw_flights := {| g_pending := pending'; g_used := used'; g_heap := alter F id (g_heap (fw_flights w)) |};
               fw_runs := <[id := p']> (fw_runs w); fw_holders := holders' |}.
Proof.
  intros I Hf Hp Hk Hpend Hcount Hin Hslot Hused Hok.
  pose proof (count_insert _ _ _ p' Hp) as Hc.
  split; cbn [fw_flights fw_runs fw_holders g_pending g_used g_heap].
  - rewrite length_insert, length_alter. apply I.
  - pose proof (inv_used _ _ I) as Hu. unfold slotsHeld in *. cbn [fw_runs]. destruct slots; lia.
  - intros capacity Hs H0. pose proof (inv_bound _ _ I capacity Hs H0) as Hb. unfold slotsHeld in *.
    cbn [fw_runs]. destruct p, p'; cbn in *; try lia; by destruct Hslot.
  - intros key id' Hkey.
    assert (Hkey' : g_pending (fw_flights w) !! key = Some id').
    { destruct Hpend as [->|[-> _]]; [done|]. by apply lookup_delete_Some in Hkey as [_ ?]. }
    destruct (inv_named _ _ I _ _ Hkey') as (f' & Hf' & <-). destruct (decide (id' = id)) as [->|Hne].
    + rewrite list_lookup_alter_eq, Hf. cbn. exists (F f). split; [done|]. congruence.
    + rewrite list_lookup_alter_ne by done. by exists f'.
  - intros id' Hid'. rewrite length_alter. destruct (Hin _ Hid') as [->|?]; [by eapply lookup_lt_Some|].
    by apply I.
  - intros id' f' q Hf' Hq. destruct (decide (id' = id)) as [->|Hne].
    + rewrite list_lookup_alter_eq, Hf in Hf'. injection Hf' as <-.
      rewrite list_lookup_insert_eq in Hq by (by eapply lookup_lt_Some). by injection Hq as <-.
    + rewrite list_lookup_alter_ne in Hf' by done. rewrite list_lookup_insert_ne in Hq by done.
      destruct (inv_flight _ _ I _ _ _ Hf' Hq) as [K1 K2 K3 K4 K5 K6 K7].
      split; try done; [unfold holding in *; cbn [fw_holders]; by rewrite Hcount|].
      rewrite <- K4. destruct Hpend as [->|[-> Hid]]; [done|]. rewrite lookup_delete_Some.
      split; [tauto|]. intros Hid'. split; [|done]. congruence.
Qed.

Lemma inv_run slots w id f : inv slots w -> g_heap (fw_flights w) !! id = Some f ->
  exists p, fw_runs w !! id = Some p /\ flight_ok (g_pending (fw_flights w)) (holding w id) id f p.
Proof.
  intros I Hf. destruct (lookup_lt_is_Some_2 (fw_runs w) id) as [p Hp].
  { rewrite (inv_length _ _ I). by eapply lookup_lt_Some. }
  exists p. split; [done|]. by apply I.
Qed.
Lemma inv_heap slots w id p : inv slots w -> fw_runs w !! id = Some p ->
  exists f, g_heap (fw_flights w) !! id = Some f /\ flight_ok (g_pending (fw_flights w)) (holding w id) id f p.
Proof.
  intros I Hp. destruct (lookup_lt_is_Some_2 (g_heap (fw_flights w)) id) as [f Hf].
  { rewrite <- (inv_length _ _ I). by eapply lookup_lt_Some. }
  exists f. split; [done|]. by apply I.
Qed.

Lemma alter_id {A} (l : list A) (i : nat) : alter (fun x => x) i l = l.
Proof.
  apply list_eq. intros j. destruct (decide (j = i)) as [->|].
  - rewrite list_lookup_alter_eq. by destruct (l !! i).
  - by rewrite list_lookup_alter_ne.
Qed.

Lemma alter_alter {A} (f g : A -> A) (l : list A) (i : nat) : alter f i (alter g i l) = alter (f ∘ g) i l.
Proof.
  apply list_eq. intros j. destruct (decide (j = i)) as [->|].
  - rewrite !list_lookup_alter_eq. by destruct (l !! i).
  - by rewrite !list_lookup_alter_ne.
Qed.

Lemma forget_spec g key id :
  exists pending, forgetLocked g key id = {| g_pending := pending; g_used := g_used g; g_heap := g_heap g |} /\
    (pending = g_pending g \/ pending = delete key (g_pending g) /\ g_pending g !! key = Some id) /\
    pending !! key <> Some id.
Proof.
  unfold forgetLocked. case_decide as E.
  - eexists. split_and!; [done|by right|]. by rewrite lookup_delete_eq.
  - exists (g_pending g). split_and!; [by destruct g|by left|done].
Qed.

Lemma flights_eta g id :
  g = {| g_pending := g_pending g; g_used := g_used g; g_heap := alter (fun f => f) id (g_heap g) |}.
Proof. rewrite alter_id. by destruct g. Qed.

Ltac update_flight F q :=
  eapply (inv_update _ _ _ _ F _ q);
  [eassumption|eassumption|eassumption|reflexivity|auto|auto|auto|cbn; auto
  |first [cbn; lia|match goal with |- context[if ?slots then _ else _] => destruct slots; cbn; lia end]|].
Ltac solve_flight :=
  split; cbn [compose set_canceled set_done set_fetched add_waiters
              fl_key fl_waiters fl_canceled fl_done fl_result]; try done; try lia; naive_solver lia.

Lemma deferred_inv slots w id w' : inv slots w -> deferred slots w id = Some w' -> inv slots w'.
Proof.
  intros I Hd. unfold deferred in Hd.
  destruct (g_heap (fw_flights w) !! id) as [f|] eqn:Hf; [|done].
  destruct (inv_run _ _ _ _ I Hf) as (p & Hp & [K1 K2 K3 K4 K5 K6 K7]). rewrite Hp in Hd.
  destruct p; try done.
  - destruct (forget_spec (fw_flights w) (fl_key f) id) as (pending & E & Hpend & Hno). rewrite E in Hd.
    injection Hd as <-. rewrite <- (alter_id (g_heap _) id).
    update_flight (fun f : introspectionFlight => f) Canceling. solve_flight.
  - injection Hd as <-. update_flight set_canceled Releasing. solve_flight.
  - destruct slots as [capacity|].
    + destruct (0 <? _); [|done]. injection Hd as <-. rewrite <- (alter_id (g_heap _) id).
      update_flight (fun f : introspectionFlight => f) Closing. solve_flight.
    + injection Hd as <-. rewrite (flights_eta (fw_flights w) id) at 1.
      update_flight (fun f : introspectionFlight => f) Closing. solve_flight.
  - injection Hd as <-. update_flight set_done Ended. solve_flight.
Qed.

Lemma filter_perm_ne (id id' : nat) l hs :
  id' <> id -> l ≡ₚ id :: hs -> length (filter (eq id') hs) = length (filter (eq id') l).
Proof. intros Hne ->. rewrite filter_cons_False by done. done. Qed.

Lemma leave_inv slots w id holders :
  inv slots w -> fw_holders w ≡ₚ id :: holders ->
  inv slots {| fw_flights := leave (fw_flights w) id; fw_runs := fw_runs w; fw_holders := holders |}.
Proof.
  intros I Hh. assert (Hid : id ∈ fw_holders w) by (rewrite Hh; apply list_elem_of_here).
  destruct (lookup_lt_is_Some_2 _ _ (inv_holders _ _ I _ Hid)) as [f Hf].
  destruct (inv_run _ _ _ _ I Hf) as (p & Hp & [K1 K2 K3 K4 K5 K6 K7]).
  assert (Hw : fl_waiters f = 1 + Z.of_nat (length (filter (eq id) holders))).
  { rewrite K1. unfold holding. rewrite Hh, filter_cons_True by done. cbn [length]. lia. }
  unfold leave. cbn [with_heap g_heap]. rewrite list_lookup_alter_eq, Hf. cbn [fmap option_fmap option_map].
  cbn [add_waiters fl_waiters fl_done fl_key].
  rewrite <- (list_insert_id (fw_runs w) id p Hp).
  assert (Hcount : forall id', id' <> id ->
    length (filter (eq id') holders) = length (filter (eq id') (fw_holders w))).
  { intros. by eapply filter_perm_ne. }
  assert (Hsub : forall id', id' ∈ holders -> id' = id \/ id' ∈ fw_holders w).
  { intros id' ?. right. rewrite Hh. by apply list_elem_of_further. }
  destruct (0 <? fl_waiters f + -1) eqn:Hpos; [|destruct (fl_done f) eqn:Hdone].
  - update_flight (add_waiters (-1)) p. solve_flight.
  - update_flight (add_waiters (-1)) p. solve_flight.
  - destruct (forget_spec (with_heap (fw_flights w) (alter (add_waiters (-1)) id (g_heap (fw_flights w))))
      (fl_key f) id) as (pending & -> & Hpend & Hno).
    unfold cancel, with_heap. cbn [g_heap g_used g_pending] in *. rewrite alter_alter.
    update_flight (set_canceled ∘ add_waiters (-1)) p.
    split; cbn [compose set_canceled add_waiters fl_key fl_waiters fl_canceled fl_done fl_result];
      [lia|by rewrite Hdone|done|split; [done|by intros [_ ?]]|intros _; left; lia|done|done].
Qed.

Lemma fetched_inv slots w id r :
  inv slots w -> fw_runs w !! id = Some Fetching ->
  inv slots {| fw_flights := with_heap (fw_flights w) (alter (set_fetched r) id (g_heap (fw_flights w)));
               fw_runs := <[id := Forgetting]> (fw_runs w); fw_holders := fw_holders w |}.
Proof.
  intros I Hp. destruct (inv_heap _ _ _ _ I Hp) as (f & Hf & [K1 K2 K3 K4 K5 K6 K7]).
  update_flight (set_fetched r) Forgetting. solve_flight.
Qed.

Lemma share_inv slots w key id g :
  inv slots w -> join slots (fw_flights w) key = (inr (id, true), g) ->
  inv slots {| fw_flights := g; fw_runs := fw_runs w; fw_holders := id :: fw_holders w |}.
Proof.
  intros I Hj. unfold join in Hj.
  destruct (g_pending (fw_flights w) !! key) as [id'|] eqn:Hk.
  2:{ destruct slots as [c|]; [destruct (c <=? _)|]; done. }
  injection Hj as -> <-. destruct (inv_named _ _ I _ _ Hk) as (f & Hf & <-).
  destruct (inv_run _ _ _ _ I Hf) as (p & Hp & [K1 K2 K3 K4 K5 K6 K7]).
  rewrite <- (list_insert_id (fw_runs w) id p Hp). unfold with_heap.
  eapply (inv_update _ _ _ _ (add_waiters 1) id p); [eassumption..|done|by left| | |done| |].
  - intros id' Hne. by rewrite filter_cons_False.
  - intros id' Hin. apply elem_of_cons in Hin. tauto.
  - destruct slots; lia.
  - rewrite filter_cons_True by done. cbn [length].
    apply K4 in Hk as [Hr Hc]. unfold holding in K1.
    split; cbn [add_waiters fl_key fl_waiters fl_canceled fl_done fl_result]; try done; try lia;
      rewrite ?Hc; naive_solver.
Qed.

Lemma flights_start_inv slots w key id g :
  inv slots w -> join slots (fw_flights w) key = (inr (id, false), g) ->
  inv slots {| fw_flights := g; fw_runs := fw_runs w ++ [Fetching]; fw_holders := id :: fw_holders w |}.
Proof.
  intros I Hj. unfold join in Hj.
  destruct (g_pending (fw_flights w) !! key) as [id'|] eqn:Hk; [done|].
  assert (Hfull : forall c, slots = Some c -> g_used (fw_flights w) < c).
  { intros c ->. destruct (c <=? _) eqn:E; [done|lia]. }
  assert (Hnot : holding w (length (g_heap (fw_flights w))) = 0).
  { unfold holding. destruct (filter _ _) as [|i l] eqn:E; [done|].
    assert (Hi : i ∈ i :: l) by apply list_elem_of_here.
    rewrite <- E in Hi. apply list_elem_of_filter in Hi as [<- Hi].
    pose proof (inv_holders _ _ I _ Hi). lia. }
  assert (Hg : g = {| g_pending := <[key := length (g_heap (fw_flights w))]> (g_pending (fw_flights w));
    g_used := if slots then g_used (fw_flights w) + 1 else g_used (fw_flights w);
    g_heap := g_heap (fw_flights w) ++ [{| fl_key := key; fl_waiters := 1; fl_canceled := false;
      fl_done := false; fl_result := None |}] |} /\ id = length (g_heap (fw_flights w))).
  { destruct slots as [c|]; [destruct (c <=? _)|]; by simplify_eq. }
  destruct Hg as [-> ->]. set (n := length (g_heap (fw_flights w))) in *.
  assert (Hs : slotsHeld {| fw_flights := newFlights; fw_runs := fw_runs w ++ [Fetching]; fw_holders := [] |}
    = slotsHeld w + 1) by (unfold slotsHeld; cbn [fw_runs]; rewrite count_app; done).
  split; cbn [fw_flights fw_runs fw_holders g_pending g_used g_heap].
  - rewrite !length_app. cbn. rewrite (inv_length _ _ I). done.
  - pose proof (inv_used _ _ I). unfold slotsHeld in *. cbn [fw_runs] in *. destruct slots; lia.
  - intros c -> Hc. pose proof (inv_used _ _ I). pose proof (Hfull _ eq_refl). unfold slotsHeld in *. cbn [fw_runs] in *. lia.
  - intros k i. destruct (decide (k = key)) as [->|Hne].
    + rewrite lookup_insert_eq. intros [= <-]. eexists. split; [by apply list_lookup_middle|done].
    + rewrite lookup_insert_ne by done. intros (f & Hf & <-)%(inv_named _ _ I).
      exists f. split; [|done]. by apply lookup_app_l_Some.
  - intros i Hi. rewrite length_app. cbn. apply elem_of_cons in Hi as [->|Hi]; [lia|].
    pose proof (inv_holders _ _ I _ Hi). lia.
  - intros i f p Hf Hp. apply lookup_snoc_Some in Hf as [[Hlt Hf]|[-> <-]].
    + rewrite lookup_app_l in Hp by (rewrite (inv_length _ _ I); done).
      destruct (inv_flight _ _ I _ _ _ Hf Hp) as [K1 K2 K3 K4 K5 K6 K7].
      split; try done; [unfold holding in *; cbn [fw_holders]; by rewrite filter_cons_False by lia|].
      rewrite <- K4. destruct (decide (fl_key f = key)) as [E|Hne].
      * rewrite E, lookup_insert_eq, Hk. split; [intros [= <-]; lia|done].
      * by rewrite lookup_insert_ne.
    + assert (p = Fetching) as ->.
      { unfold n in Hp. rewrite <- (inv_length _ _ I), list_lookup_middle in Hp by done. by injection Hp. }
      split; cbn [fl_key fl_waiters fl_canceled fl_done fl_result]; try done.
      * unfold holding in *. cbn [fw_holders]. rewrite filter_cons_True by done. cbn [length]. fold n. lia.
      * rewrite lookup_insert_eq. naive_solver.
      * naive_solver.
Qed.

Lemma reachable_flights slots w : reachable slots w -> inv slots w.
Proof.
  intros Hr. revert w Hr. apply rtc_ind_r.
  - split; cbn; try done; [by destruct slots|].
    intros id Hin. by apply elem_of_nil in Hin.
  - intros w w' _ Hs I. destruct Hs.
    + by eapply flights_start_inv.
    + by eapply share_inv.
    + by apply fetched_inv.
    + by eapply deferred_inv.
    + by apply leave_inv.
Qed.

(** ** The theorems *)

Lemma held_waiters w id : id ∈ fw_holders w -> 0 < holding w id.
Proof.
  intros Hin. unfold holding.
  assert (Hf : id ∈ filter (eq id) (fw_holders w)) by by apply list_elem_of_filter.
  destruct (filter _ _); [by apply elem_of_nil in Hf|]. cbn [length]. lia.
Qed.

(** C18. Shared introspection: at any time at most one request per token is in
    progress that anyone still wants, at most [capacity] in all, the slots
    taken are exactly those of unfinished flights; a caller that gives up never
    cancels a request another caller waits for, and a request nobody waits for
    is canceled; a caller joins a flight for its own token and is refused only
    when every slot is taken. *)
Theorem flights_shared slots w :
  reachable slots w ->
  (forall i j f f', g_heap (fw_flights w) !! i = Some f -> g_heap (fw_flights w) !! j = Some f' ->
     fw_runs w !! i = Some Fetching -> fw_runs w !! j = Some Fetching ->
     fl_canceled f = false -> fl_canceled f' = false -> fl_key f = fl_key f' -> i = j) /\
  (forall capacity, slots = Some capacity -> 0 <= capacity ->
     g_used (fw_flights w) = slotsHeld w /\ slotsHeld w <= capacity) /\
  (forall id f, g_heap (fw_flights w) !! id = Some f ->
     (fw_runs w !! id = Some Fetching -> id ∈ fw_holders w -> fl_canceled f = false) /\
     (id ∉ fw_holders w -> fl_done f = false -> fl_canceled f = true)) /\
  (forall key, match join slots (fw_flights w) key with
     | (inr (id, _), g) => exists f, g_heap g !! id = Some f /\ fl_key f = key /\ fl_canceled f = false
     | (inl err, g) => err = callerOverloaded /\ g = fw_flights w /\
         exists capacity, slots = Some capacity /\ capacity <= slotsHeld w
     end).
Proof.
  intros I%reachable_flights. split_and!.
  - intros i j f f' Hi Hj Pi Pj Ci Cj E.
    pose proof (proj2 (ok_pending _ _ _ _ _ (inv_flight _ _ I _ _ _ Hi Pi)) (conj (or_introl eq_refl) Ci)).
    pose proof (proj2 (ok_pending _ _ _ _ _ (inv_flight _ _ I _ _ _ Hj Pj)) (conj (or_introl eq_refl) Cj)).
    congruence.
  - intros capacity -> H0. split; [exact (inv_used _ _ I)|by apply (inv_bound _ _ I)].
  - intros id f Hf. destruct (inv_run _ _ _ _ I Hf) as (p & Hp & [K1 K2 K3 K4 K5 K6 K7]). split.
    + rewrite Hp. intros [= ->] Hin%held_waiters.
      destruct (fl_canceled f); [|done]. destruct K5 as [?|[?|[?|?]]]; [done|lia|done..].
    + intros Hout Hd. apply K7; [|done]. rewrite K1. unfold holding.
      destruct (filter _ _) as [|i l] eqn:E; [done|]. exfalso.
      assert (Hi : i ∈ i :: l) by apply list_elem_of_here.
      rewrite <- E in Hi. by apply list_elem_of_filter in Hi as [<- Hi].
  - intros key. unfold join. destruct (g_pending (fw_flights w) !! key) as [id|] eqn:Hk.
    + destruct (inv_named _ _ I _ _ Hk) as (f & Hf & <-).
      destruct (inv_run _ _ _ _ I Hf) as (p & Hp & [_ _ _ K4 _ _ _]).
      apply K4 in Hk as [_ Hc]. cbn [with_heap g_heap]. rewrite list_lookup_alter_eq, Hf.
      by exists (add_waiters 1 f).
    + destruct slots as [capacity|]; [destruct (Z.leb_spec capacity (g_used (fw_flights w)))|].
      * pose proof (inv_used _ _ I) as Hu. cbn in Hu. split_and!; [done|done|]. exists capacity. by rewrite <- Hu.
      * cbn [g_heap]. eexists. split; [by apply list_lookup_middle|done].
      * cbn [g_heap]. eexists. split; [by apply list_lookup_middle|done].
Qed.

Definition deferredSteps (slots : option Z) (n : nat) (w : world) (id : nat) : option world :=
  Nat.iter n (fun w => w ≫= fun w => deferred slots w id) (Some w).
Definition remaining (p : run) : nat :=
  match p with Fetching | Ended => 0 | Forgetting => 4 | Canceling => 3 | Releasing => 2 | Closing => 1 end.

Lemma deferred_enabled slots w id p :
  inv slots w -> fw_runs w !! id = Some p -> p <> Fetching -> p <> Ended ->
  exists w' q, deferred slots w id = Some w' /\ fw_runs w' !! id = Some q /\
    q <> Fetching /\ remaining p = S (remaining q) /\ (remaining q = 0%nat -> q = Ended).
Proof.
  intros I Hp H1 H2. destruct (inv_heap _ _ _ _ I Hp) as (f & Hf & _).
  assert (Hins : forall q, <[id := q]> (fw_runs w) !! id = Some q).
  { intros. rewrite list_lookup_insert_eq; [done|]. by eapply lookup_lt_Some. }
  unfold deferred. rewrite Hf, Hp. destruct p; try done.
  - do 2 eexists. split_and!; [done|apply Hins|done|done|done].
  - do 2 eexists. split_and!; [done|apply Hins|done|done|done].
  - destruct slots as [c|].
    + pose proof (inv_used _ _ I) as Hu. pose proof (count_insert _ _ _ Ended Hp) as Hc. cbn in Hc.
      unfold slotsHeld in Hu. destruct (Z.ltb_spec 0 (g_used (fw_flights w))); [|lia].
      do 2 eexists. split_and!; [done|apply Hins|done|done|done].
    + do 2 eexists. split_and!; [done|apply Hins|done|done|done].
  - do 2 eexists. split_and!; [done|apply Hins|done|done|done].
Qed.

Lemma deferred_result slots w w' id f r :
  deferred slots w id = Some w' -> g_heap (fw_flights w) !! id = Some f -> fl_result f = Some r ->
  exists f', g_heap (fw_flights w') !! id = Some f' /\ fl_result f' = Some r.
Proof.
  unfold deferred. intros Hd Hf Hr. rewrite Hf in Hd.
  destruct (fw_runs w !! id) as [[]|]; try done.
  - injection Hd as <-. destruct (forget_spec (fw_flights w) (fl_key f) id) as (? & -> & _). by exists f.
  - injection Hd as <-. cbn [fw_flights cancel with_heap g_heap]. rewrite list_lookup_alter_eq, Hf. by eexists.
  - destruct slots; [destruct (0 <? _)|]; simplify_eq; by exists f.
  - injection Hd as <-. cbn [fw_flights with_heap g_heap]. rewrite list_lookup_alter_eq, Hf. by eexists.
Qed.

(** C19. Once the request of a flight has returned, its goroutine always ends,
    within four steps of its own and without waiting for anything, and every
    waiting caller finds the flight done with exactly that result. *)
Theorem flight_completes slots w id p :
  reachable slots w -> fw_runs w !! id = Some p -> p <> Fetching ->
  exists f r w' f', g_heap (fw_flights w) !! id = Some f /\ fl_result f = Some r /\
    deferredSteps slots (remaining p) w id = Some w' /\ reachable slots w' /\
    g_heap (fw_flights w') !! id = Some f' /\ fl_done f' = true /\ fl_result f' = Some r.
Proof.
  intros Hr Hp Hf. destruct (inv_heap _ _ _ _ (reachable_flights _ _ Hr) Hp) as (f & Hh & [_ K2 K3 _ _ _ _]).
  destruct (fl_result f) as [r|] eqn:Er; [|by destruct Hf; apply K3].
  exists f, r. clear K3. remember (remaining p) as n eqn:En. revert w p f Hr Hp Hf Hh K2 Er En.
  induction n as [|n IH]; intros w p f Hr Hp Hf Hh K2 Er En.
  - assert (p = Ended) as -> by by destruct p. exists w, f. split_and!; try done. by apply K2.
  - destruct (deferred_enabled slots w id p (reachable_flights _ _ Hr) Hp Hf) as (w1 & q & Hd & Hq & Hqf & Hrem & _).
    { by intros ->. }
    destruct (deferred_result _ _ _ _ _ _ Hd Hh Er) as (f1 & Hh1 & Er1).
    assert (Hr1 : reachable slots w1) by (eapply rtc_r; [exact Hr|by eapply step_deferred]).
    destruct (inv_flight _ _ (reachable_flights _ _ Hr1) _ _ _ Hh1 Hq) as [_ J2 _ _ _ _ _].
    destruct (IH w1 q f1 Hr1 Hq Hqf Hh1 J2 Er1 ltac:(lia)) as (w' & f' & _ & _ & Hs & Hr' & Hrest).
    exists w', f'. split_and!; [done|done| |done|apply Hrest..].
    unfold deferredSteps in *. rewrite Nat.iter_succ_r. cbn [mbind option_bind]. by rewrite Hd.
Qed.

(** ** Witnesses *)

Definition exampleResult : introspectionResult :=
  {| fr_claims := zeroClaims; fr_err := None; fr_cached := false |}.
(** One request at a time: the caller of ["t"] starts a flight, a second one
    shares it, and the request returns. *)
Definition exampleShared : world :=
  {| fw_flights := {| g_pending := {[ "t" := 0%nat ]}; g_used := 1;
       g_heap := [{| fl_key := "t"; fl_waiters := 2; fl_canceled := false; fl_done := false;
                     fl_result := Some exampleResult |}] |};
     fw_runs := [Forgetting]; fw_holders := [0%nat; 0%nat] |}.
Lemma exampleShared_reachable : reachable (Some 1) exampleShared.
Proof.
  eapply rtc_l; [apply (step_start _ _ "t"); vm_compute; reflexivity|].
  eapply rtc_l; [apply (step_share _ _ "t" 0); vm_compute; reflexivity|].
  eapply rtc_l; [apply (step_fetched _ _ 0 exampleResult); reflexivity|].
  apply rtc_refl.
Qed.

Lemma flights_shared_witness :
  (join (Some 1) (fw_flights exampleShared) "u").1 = inl callerOverloaded /\
  g_used (fw_flights exampleShared) = slotsHeld exampleShared.
Proof.
  split; [vm_compute; reflexivity|].
  destruct (flights_shared (Some 1) exampleShared exampleShared_reachable) as (_ & H & _).
  destruct (H 1 eq_refl ltac:(lia)) as [G _]. exact G.
Defined.

Lemma flight_completes_witness :
  exists w', deferredSteps (Some 1) 4 exampleShared 0 = Some w' /\ reachable (Some 1) w'.
Proof.
  destruct (flight_completes (Some 1) exampleShared 0 Forgetting exampleShared_reachable eq_refl
    ltac:(discriminate)) as (_ & _ & w' & _ & _ & _ & G & R & _).
  exists w'. split; [exact G|exact R].
Defined.
End flights.
