(* ===== verification/Bearer.v ===== *)
(** * [internal/grpcproxy/bearer.go]: the client-credentials token source

    One token source per process: a cached token with its expiry and the
    discovered token endpoint.  The mutex makes a call of [Authorization] one
    step, so the state is passed through.  The clock, the environment, the HTTP
    client, [http.NewRequest] and the JSON decoder are a [TokenWorld]; the
    closing of response bodies and the log lines are left out. *)
From S2P Require Export ConfigTypes CallerAuth.

Module bearer.
Import callerauth.

Definition oidcAuthMethodAuto : string := "auto".
Definition oidcAuthMethodClientSecretBasic : string := "client_secret_basic".
Definition oidcGrantTypeClientCredentials : string := "client_credentials".
Definition oidcGrantTypeClientCredentialsKey : string := "grant_type".

(** [fmt.Errorf] with [what: %w]. *)
Definition wrapped (what : string) (err : error) : error := errors_Wrap (what +:+ ": " +:+ Error err) err.

(** Times are nanoseconds since the Unix epoch; the zero [time.Time] is year 1. *)
Definition zeroTime : Z := - unixToInternal * second.
Definition IsZero (t : Z) : bool := t =? zeroTime.

(** The mutable fields of [clientCredentialsTokenSource]. *)
Record tokenState := { tk_token : string; tk_expiresAt : Z; tk_tokenURL : string }.
Definition newTokenState : tokenState := {| tk_token := ""; tk_expiresAt := zeroTime; tk_tokenURL := "" |}.

Record tokenEndpointResponse := { te_AccessToken : string; te_TokenType : string; te_ExpiresIn : Z }.

(** [url.Values] as its keys with their single value: [Set] replaces. *)
Definition form_Set (form : list (string * string)) (k v : string) : list (string * string) :=
  filter (fun kv => kv.1 <> k) form ++ [(k, v)].

(** A request to the issuer: basic credentials are present or not. *)
Record tokenRequest := {
  tr_Method : string;
  tr_URL : string;
  tr_Form : list (string * string);
  tr_ContentType : string;
  tr_Accept : string;
  tr_Basic : option (string * string);
  tr_Timeout : Z
}.
Record tokenResponse := { ts_StatusCode : Z; ts_Body : string * option error }.

Class TokenWorld (W : Type) := {
  tw_now : W -> Z * W;
  tw_Getenv : W -> string -> string * W;
  tw_Do : W -> tokenRequest -> res tokenResponse * W;
  tw_NewRequest : string -> option error;
  tw_Discovery : string * option error -> res string;
  tw_Token : string * option error -> res tokenEndpointResponse
}.

Section source.
  Context `{TokenWorld W} (cfg : GRPCBackendOIDCAuthConfig).

Definition cachedTokenValid (s : tokenState) (w : W) : bool * W :=
  if bool_decide (tk_token s = "") || IsZero (tk_expiresAt s) then (false, w)
  else let '(now, w) := tw_now w in (now + oidc_RefreshSkew cfg <? tk_expiresAt s, w).

Definition effectiveAuthMethod : string :=
  if decide ((oidc_AuthMethod cfg = "" \/ oidc_AuthMethod cfg = oidcAuthMethodAuto) /\
             (oidc_ClientSecret cfg <> "" \/ oidc_ClientSecretEnv cfg <> ""))
  then oidcAuthMethodClientSecretBasic else oidc_AuthMethod cfg.

(** The form and the secret. *)
Definition tokenRequestForm (w : W) : res (list (string * string) * string) * W :=
  let '(secret, w) :=
    if decide (oidc_ClientSecretEnv cfg = "") then (oidc_ClientSecret cfg, w)
    else tw_Getenv w (oidc_ClientSecretEnv cfg) in
  (if decide (TrimSpace secret = "") then Err (errors_New "grpc bearer token client secret is empty")
   else
     let form := form_Set [] oidcGrantTypeClientCredentialsKey oidcGrantTypeClientCredentials in
     let scopes := default [] (oidc_Scopes cfg) in
     let form := if decide (scopes = []) then form else form_Set form "scope" (Join scopes " ") in
     if decide (effectiveAuthMethod = oidcAuthMethodClientSecretBasic) then Ok (form, secret)
     else Ok (form_Set (form_Set form "client_id" (oidc_ClientID cfg)) "client_secret" secret, secret), w).

Definition tokenTimeout : Z := if oidc_Timeout cfg <=? 0 then 5 * second else oidc_Timeout cfg.

Definition newTokenRequest (tokenURL : string) (form : list (string * string)) (secret : string)
    : res tokenRequest :=
  match tw_NewRequest tokenURL with
  | Some err => Err (wrapped "create token request" err)
  | None =>
      Ok {| tr_Method := "POST"; tr_URL := tokenURL; tr_Form := form; tr_ContentType := formContentType;
            tr_Accept := "application/json";
            tr_Basic := if decide (effectiveAuthMethod = oidcAuthMethodClientSecretBasic)
                        then Some (oidc_ClientID cfg, secret) else None;
            tr_Timeout := tokenTimeout |}
  end.

Definition decodeTokenResponse (response : tokenResponse) : res tokenEndpointResponse :=
  if (ts_StatusCode response <? 200) || (300 <=? ts_StatusCode response)
  then Err (errors_New ("token endpoint returned HTTP " +:+ Itoa (ts_StatusCode response)))
  else match tw_Token (ts_Body response) with
       | Err err => Err (wrapped "decode token response" err)
       | Ok decoded => Ok decoded
       end.

Definition discoveryRequest : tokenRequest :=
  {| tr_Method := "GET"; tr_URL := oidc_ConfigurationURI cfg; tr_Form := []; tr_ContentType := "";
     tr_Accept := "application/json"; tr_Basic := None; tr_Timeout := tokenTimeout |}.

Definition discoverTokenURL (s : tokenState) (w : W) : res string * tokenState * W :=
  if decide (oidc_TokenEndpoint cfg <> "") then (Ok (oidc_TokenEndpoint cfg), s, w)
  else if decide (tk_tokenURL s <> "") then (Ok (tk_tokenURL s), s, w)
  else
    match tw_NewRequest (oidc_ConfigurationURI cfg) with
    | Some err => (Err (wrapped "create discovery request" err), s, w)
    | None =>
        let '(r, w) := tw_Do w discoveryRequest in
        match r with
        | Err err => (Err (wrapped "request OIDC discovery document" err), s, w)
        | Ok response =>
            if negb (ts_StatusCode response =? 200)
            then (Err (errors_New ("OIDC discovery returned HTTP " +:+ Itoa (ts_StatusCode response))), s, w)
            else
              match tw_Discovery (ts_Body response) with
              | Err err => (Err (wrapped "decode OIDC discovery response" err), s, w)
              | Ok endpoint =>
                  let tokenURL := TrimSpace endpoint in
                  if decide (tokenURL = "")
                  then (Err (errors_New "OIDC discovery response did not include token_endpoint"), s, w)
                  else (Ok tokenURL, {| tk_token := tk_token s; tk_expiresAt := tk_expiresAt s;
                                        tk_tokenURL := tokenURL |}, w)
              end
        end
    end.

(** [time.Duration(expiresIn) * time.Second] is an [int64] product. *)
Definition tokenExpiresAt (expiresIn : Z) (w : W) : Z * W :=
  let expiresIn := if expiresIn <=? 0 then 60 else expiresIn in
  let '(now, w) := tw_now w in (now + i64 (expiresIn * second), w).

Definition unsupportedTokenType `{Unicode} (tokenType : string) : error :=
  errors_New ("token response used unsupported token_type " +:+ Quote tokenType).

(** [fetchToken] from the decoded answer on. *)
Definition acceptToken `{Unicode} (decoded : tokenEndpointResponse) (w : W) : res (string * Z) * W :=
  let token := TrimSpace (te_AccessToken decoded) in
  if decide (token = "") then (Err (errors_New "token response did not include access_token"), w)
  else
    let tokenType := ToLower (TrimSpace (te_TokenType decoded)) in
    if decide (tokenType <> "" /\ tokenType <> tokenTypeBearer)
    then (Err (unsupportedTokenType (te_TokenType decoded)), w)
    else let '(expiresAt, w) := tokenExpiresAt (te_ExpiresIn decoded) w in (Ok (token, expiresAt), w).

Definition fetchToken `{Unicode} (s : tokenState) (w : W) : res (string * Z) * tokenState * W :=
  let '(r, s, w) := discoverTokenURL s w in
  match r with
  | Err err => (Err err, s, w)
  | Ok tokenURL =>
      let '(r, w) := tokenRequestForm w in
      match r with
      | Err err => (Err err, s, w)
      | Ok (form, secret) =>
          match newTokenRequest tokenURL form secret with
          | Err err => (Err err, s, w)
          | Ok request =>
              let '(r, w) := tw_Do w request in
              match r with
              | Err err => (Err (wrapped "request token endpoint" err), s, w)
              | Ok response =>
                  match decodeTokenResponse response with
                  | Err err => (Err err, s, w)
                  | Ok decoded => let '(r, w) := acceptToken decoded w in (r, s, w)
                  end
              end
          end
      end
  end.

Definition accessToken `{Unicode} (s : tokenState) (w : W) : res string * tokenState * W :=
  let '(valid, w) := cachedTokenValid s w in
  if valid then (Ok (tk_token s), s, w)
  else
    let '(r, s, w) := fetchToken s w in
    match r with
    | Err err => (Err err, s, w)
    | Ok (token, expiresAt) =>
        (Ok token, {| tk_token := token; tk_expiresAt := expiresAt; tk_tokenURL := tk_tokenURL s |}, w)
    end.

(** [initError] is the error of building the TLS configuration. *)
Definition Authorization `{Unicode} (initError : option error) (s : tokenState) (w : W)
    : res string * tokenState * W :=
  match initError with
  | Some err => (Err err, s, w)
  | None =>
      let '(r, s, w) := accessToken s w in
      (match r with Err err => Err err | Ok token => Ok ("Bearer " +:+ token) end, s, w)
  end.
End source.

(** ** Specification *)
Section spec.
  Context `{Unicode} `{TokenWorld W} (cfg : GRPCBackendOIDCAuthConfig).

(** The endpoint tokens are asked from. *)
Definition endpoint (s : tokenState) : string :=
  if decide (oidc_TokenEndpoint cfg <> "") then oidc_TokenEndpoint cfg else tk_tokenURL s.

(** The client secret: configured, or the value of the environment variable at
    some moment. *)
Definition clientSecret (secret : string) : Prop :=
  TrimSpace secret <> "" /\
  (if decide (oidc_ClientSecretEnv cfg = "") then secret = oidc_ClientSecret cfg
   else exists w, secret = (tw_Getenv w (oidc_ClientSecretEnv cfg)).1).

(** The secret travels either as basic credentials or in the form. *)
Record asks (request : tokenRequest) (url secret : string) : Prop := {
  asks_url : tr_Method request = "POST" /\ tr_URL request = url;
  asks_grant : ("grant_type", "client_credentials") ∈ tr_Form request;
  asks_secret : clientSecret secret;
  asks_basic : effectiveAuthMethod cfg = oidcAuthMethodClientSecretBasic ->
    tr_Basic request = Some (oidc_ClientID cfg, secret) /\
    Forall (fun kv => kv.1 <> "client_secret") (tr_Form request);
  asks_post : effectiveAuthMethod cfg <> oidcAuthMethodClientSecretBasic ->
    tr_Basic request = None /\ ("client_secret", secret) ∈ tr_Form request /\
    ("client_id", oidc_ClientID cfg) ∈ tr_Form request
}.

(** What the token endpoint must answer for a token to be used. *)
Record grants (response : tokenResponse) (token : string) (lifetime : Z) : Prop := {
  grants_status : 200 <= ts_StatusCode response < 300;
  grants_token : exists decoded, tw_Token (ts_Body response) = Ok decoded /\
    token = TrimSpace (te_AccessToken decoded) /\ token <> "" /\
    (ToLower (TrimSpace (te_TokenType decoded)) = "" \/
     ToLower (TrimSpace (te_TokenType decoded)) = tokenTypeBearer) /\
    lifetime = i64 ((if te_ExpiresIn decoded <=? 0 then 60 else te_ExpiresIn decoded) * second)
}.

(** A token asked for and granted: received at [now], the state [s'] after it. *)
Definition refreshed (s' : tokenState) (w' : W) : Prop :=
  exists w1 w2 request response secret now,
    tw_Do w1 request = (Ok response, w2) /\ tw_now w2 = (now, w') /\
    asks request (endpoint s') secret /\
    grants response (tk_token s') (tk_expiresAt s' - now).

Lemma form_Set_here form k v : (k, v) ∈ form_Set form k v.
Proof. apply elem_of_app. right. apply list_elem_of_here. Qed.
Lemma form_Set_other form k v kv : kv ∈ form -> kv.1 <> k -> kv ∈ form_Set form k v.
Proof. intros. apply elem_of_app. left. by apply list_elem_of_filter. Qed.
Lemma form_Set_Forall (P : string * string -> Prop) form k v :
  Forall P form -> P (k, v) -> Forall P (form_Set form k v).
Proof.
  intros Hf Hk. apply Forall_app. split; [|by constructor].
  apply Forall_forall. intros kv [_ Hin]%list_elem_of_filter. by eapply Forall_forall in Hf.
Qed.

Lemma tokenRequestForm_ok w form secret w' request url :
  tokenRequestForm cfg w = (Ok (form, secret), w') ->
  newTokenRequest cfg url form secret = Ok request -> asks request url secret.
Proof.
  unfold tokenRequestForm, newTokenRequest. intros Hf Hr.
  destruct (tw_NewRequest url); [done|]. injection Hr as <-.
  assert (Hs : exists w0, (if decide (oidc_ClientSecretEnv cfg = "") then (oidc_ClientSecret cfg, w)
      else tw_Getenv w (oidc_ClientSecretEnv cfg)) = (secret, w0) /\ TrimSpace secret <> "").
  { destruct (if decide (oidc_ClientSecretEnv cfg = "") then _ else _) as [s0 w0].
    destruct (decide (TrimSpace s0 = "")); [done|]. exists w0.
    by destruct (decide (effectiveAuthMethod cfg = _)); simplify_eq. }
  destruct Hs as (w0 & Hs & Hne). rewrite Hs in Hf. cbv zeta in Hf.
  rewrite decide_False in Hf by done.
  assert (Hc : clientSecret secret).
  { split; [done|]. destruct (decide (oidc_ClientSecretEnv cfg = "")); [congruence|].
    exists w. by rewrite Hs. }
  set (form0 := if decide (default [] (oidc_Scopes cfg) = []) then _ else _) in Hf.
  assert (Hg : ("grant_type", "client_credentials") ∈ form0).
  { unfold form0. destruct (decide (default [] (oidc_Scopes cfg) = [])); [apply form_Set_here|].
    by apply form_Set_other; [apply form_Set_here|]. }
  assert (Hb : Forall (fun kv => kv.1 <> "client_secret") form0).
  { unfold form0. destruct (decide (default [] (oidc_Scopes cfg) = [])); [by apply form_Set_Forall|].
    apply form_Set_Forall; [by apply form_Set_Forall|done]. }
  clearbody form0.
  destruct (decide (effectiveAuthMethod cfg = oidcAuthMethodClientSecretBasic)) as [E|E];
    injection Hf as <- <-; split; cbn [tr_Method tr_URL tr_Form tr_Basic]; try done.
  - by apply form_Set_other; [apply form_Set_other|].
  - intros _. split_and!; [done|apply form_Set_here|].
    by apply form_Set_other; [apply form_Set_here|].
Qed.

Lemma discoverTokenURL_ok s w r s' w' :
  discoverTokenURL cfg s w = (r, s', w') ->
  tk_token s' = tk_token s /\ tk_expiresAt s' = tk_expiresAt s /\
  forall url, r = Ok url -> url = endpoint s'.
Proof.
  unfold discoverTokenURL, endpoint. intros Hd.
  destruct (decide (oidc_TokenEndpoint cfg <> "")); [injection Hd as <- <- <-; split_and!; congruence|].
  destruct (decide (tk_tokenURL s <> "")); [injection Hd as <- <- <-; split_and!; congruence|].
  destruct (tw_NewRequest _); [by simplify_eq|].
  destruct (tw_Do w _) as [[response|err] w1]; [|by simplify_eq].
  destruct (negb _); [by simplify_eq|].
  destruct (tw_Discovery _) as [found|err]; [|by simplify_eq]. cbv zeta in Hd.
  destruct (decide (TrimSpace found = "")); [by simplify_eq|].
  injection Hd as <- <- <-. split_and!; [done|done|by intros url [= <-]].
Qed.

Lemma acceptToken_ok decoded w token expiresAt w' :
  acceptToken decoded w = (Ok (token, expiresAt), w') ->
  exists now, tw_now w = (now, w') /\ token = TrimSpace (te_AccessToken decoded) /\ token <> "" /\
    (ToLower (TrimSpace (te_TokenType decoded)) = "" \/
     ToLower (TrimSpace (te_TokenType decoded)) = tokenTypeBearer) /\
    expiresAt - now = i64 ((if te_ExpiresIn decoded <=? 0 then 60 else te_ExpiresIn decoded) * second).
Proof.
  unfold acceptToken, tokenExpiresAt. cbv zeta.
  destruct (decide (TrimSpace (te_AccessToken decoded) = "")); [done|].
  destruct (decide (_ /\ _)) as [|Ht]; [done|]. destruct (tw_now w) as [now w1].
  intros [= <- <- <-]. exists now. split_and!; [done|done|done| |lia].
  destruct (decide (ToLower (TrimSpace (te_TokenType decoded)) = "")); [by left|].
  destruct (decide (ToLower (TrimSpace (te_TokenType decoded)) = tokenTypeBearer)); [by right|].
  by destruct Ht.
Qed.

Lemma fetchToken_ok s w r s' w' :
  fetchToken cfg s w = (r, s', w') ->
  tk_token s' = tk_token s /\ tk_expiresAt s' = tk_expiresAt s /\
  forall token expiresAt, r = Ok (token, expiresAt) ->
    refreshed {| tk_token := token; tk_expiresAt := expiresAt; tk_tokenURL := tk_tokenURL s' |} w'.
Proof.
  unfold fetchToken. destruct (discoverTokenURL cfg s w) as [[r1 s1] w1] eqn:Hd.
  apply discoverTokenURL_ok in Hd as (Ht & He & Hu).
  destruct r1 as [url|err]; [|intros [= <- <- <-]; by split_and!]. specialize (Hu _ eq_refl) as ->.
  destruct (tokenRequestForm cfg w1) as [[[form secret]|err] w2] eqn:Hf; [|intros [= <- <- <-]; by split_and!].
  destruct (newTokenRequest cfg (endpoint s1) form secret) as [request|err] eqn:Hr;
    [|intros [= <- <- <-]; by split_and!].
  destruct (tw_Do w2 request) as [[response|err] w3] eqn:Hdo; [|intros [= <- <- <-]; by split_and!].
  unfold decodeTokenResponse.
  destruct ((ts_StatusCode response <? 200) || (300 <=? ts_StatusCode response)) eqn:Hst;
    [intros [= <- <- <-]; by split_and!|].
  destruct (tw_Token (ts_Body response)) as [decoded|err] eqn:Hdec; [|intros [= <- <- <-]; by split_and!].
  destruct (acceptToken decoded w3) as [r4 w4] eqn:Ha.
  intros [= <- <- <-]. split_and!; [done|done|]. intros token expiresAt ->.
  apply acceptToken_ok in Ha as (now & Hn & Ha).
  exists w2, w3, request, response, secret, now. split_and!; [done|done| |].
  - by eapply tokenRequestForm_ok.
  - split; [lia|]. by exists decoded.
Qed.


(** C37. The expiry of a token: a missing or non-positive lifetime counts as a
    minute; up to 9223372036 seconds the expiry is exact; the next second
    overflows the [int64] nanoseconds and the token counts as expired at once. *)
Theorem tokenExpiresAt_spec expiresIn w :
  let now := (tw_now w).1 in
  let '(expiresAt, w') := tokenExpiresAt expiresIn w in
  w' = (tw_now w).2 /\
  (expiresIn <= 0 -> expiresAt = now + 60 * second) /\
  (0 < expiresIn <= 9223372036 -> expiresAt = now + expiresIn * second) /\
  (expiresIn = 9223372037 -> expiresAt < now).
Proof.
  unfold tokenExpiresAt. cbv zeta. destruct (tw_now w) as [now w1]. cbn [fst snd].
  split_and!; [done|intros Hle|intros Hr|intros ->].
  - rewrite (proj2 (Z.leb_le _ _) Hle). done.
  - destruct (Z.leb_spec expiresIn 0); [lia|]. rewrite i64_small; [done|]. unfold second. lia.
  - assert (E : i64 (9223372037 * second) < 0) by (vm_compute; reflexivity). replace (9223372037 <=? 0) with false by done. lia.
Qed.
End spec.
End bearer.
