(* ===== verification/GrpcStream.v ===== *)
(** * [internal/grpcproxy/stream.go]: forwarding one RPC between client and primary

    The two ends of an RPC answer with scripts: the messages [RecvMsg] returns
    before its error, and the answer of every send.  A forwarding goroutine
    gives the list of its calls on the streams, in order, and its result; the
    two goroutines share nothing but the streams, and [waitForPrimaryForwarding]
    takes the order in which they report. *)
From S2P Require Export GoSha256 GrpcMetadata Logging.

Module grpcstream.
Import logging grpcmetadata.

Record grpcStreamResult := {
  ProtobufFields : list Attr;
  Started : bool;
  Complete : bool;
  Selected : string;
  MessageCount : Z;
  MessageHash : string;
  r_Header : MD;
  r_Trailer : MD;
  StatusCode : Z;
  StatusMessage : string;
  Duration : Z;
  r_Err : string;
  SkipReason : string
}.

Definition zeroStreamResult : grpcStreamResult :=
  {| ProtobufFields := []; Started := false; Complete := false; Selected := ""; MessageCount := 0;
     MessageHash := ""; r_Header := ∅; r_Trailer := ∅; StatusCode := codes_OK; StatusMessage := "";
     Duration := 0; r_Err := ""; SkipReason := "" |}.

(** ** Statuses of errors *)

Definition statusMessage (err : option error) : string :=
  match err with
  | None => ""
  | Some e => match status_FromError e with Some (_, m) => m | None => Error e end
  end.

Definition isFinalStatusError (err : option error) : bool :=
  match err with
  | None => false
  | Some e => bool_decide (is_Some (status_FromError e))
  end.

Definition primaryStreamError (operation : string) (err : option error) : option error :=
  match err with
  | None => None
  | Some e =>
      if decide (is_Some (status_FromError e)) then Some e
      else Some (status_Error codes_Unavailable (operation +:+ ": " +:+ Error e))
  end.

Definition proxyStreamError (operation : string) (err : option error) : option error :=
  match err with
  | None => None
  | Some e =>
      if decide (is_Some (status_FromError e)) then Some e
      else Some (status_Error codes_Internal (operation +:+ ": " +:+ Error e))
  end.

Definition setError (r : grpcStreamResult) (err : option error) : grpcStreamResult :=
  match err with
  | None => r
  | Some e =>
      {| ProtobufFields := ProtobufFields r; Started := Started r; Complete := Complete r;
         Selected := Selected r; MessageCount := MessageCount r; MessageHash := MessageHash r;
         r_Header := r_Header r; r_Trailer := r_Trailer r; StatusCode := status_Code e;
         StatusMessage := statusMessage err; Duration := Duration r; r_Err := Error e;
         SkipReason := SkipReason r |}
  end.

(** ** The hash of a message sequence *)

Definition emptyMessageHash : string := hex_EncodeToString (sha256_Sum256 "").

(** A [*messageHashRecorder] is the bytes its hash was given; [None] is a nil
    recorder or a nil hash. *)
Definition newMessageHashRecorder : option string := Some "".
Definition hash_Add (r : option string) (msg : rawMessage) : option string :=
  match r with
  | None => None
  | Some written => Some ((written +:+ PutUint64 (len msg)) +:+ msg)
  end.
Definition hash_Sum (r : option string) : string :=
  match r with
  | None => emptyMessageHash
  | Some written => hex_EncodeToString (sha256_Sum256 written)
  end.

(** ** The ends of an RPC *)

(** A metadata map is the list of its pairs in range order. *)
Abbreviation mdRange := (list (string * list string)).

(** A [grpc.ClientStream]: what an upstream answers. *)
Record clientScript := {
  cs_header : res mdRange;
  cs_messages : list rawMessage;
  cs_end : error;                   (* what RecvMsg returns after the messages *)
  cs_trailer : mdRange;
  cs_send : nat -> option error;    (* the answer of the n-th SendMsg *)
  cs_closeSend : option error
}.

(** A [grpc.ServerStream]: what the client of the proxy does. *)
Record serverScript := {
  ss_messages : list rawMessage;
  ss_end : error;
  ss_sendHeader : option error;
  ss_send : nat -> option error
}.

(** The calls of the goroutine that reads from the client. *)
Inductive requestOp :=
  | OpSendPrimary (m : rawMessage)
  | OpCloseSend
  | OpOfferShadow (m : rawMessage)
  | OpCloseShadow.

(** The calls of the goroutine that writes to the client. *)
Inductive responseOp :=
  | OpSendHeader (md : MD)
  | OpSendClient (m : rawMessage)
  | OpSetTrailer (md : MD).

(** ** [forwardClientToPrimary] *)

(** The loop, from the [k]-th message on. *)
Fixpoint forwardRequests (server_end : error) (primary : clientScript) (hasShadow : bool)
    (msgs : list rawMessage) (k : nat) : list requestOp * option error :=
  match msgs with
  | [] =>
      if errors_Is server_end io_EOF then ([OpCloseSend], cs_closeSend primary)
      else ([], Some server_end)
  | msg :: msgs' =>
      let sent := OpSendPrimary (cloneRawMessage msg) in
      match cs_send primary k with
      | Some e => ([sent], if errors_Is e io_EOF then None else Some e)
      | None =>
          let '(ops, err) := forwardRequests server_end primary hasShadow msgs' (S k) in
          (sent :: (if hasShadow then OpOfferShadow msg :: ops else ops), err)
      end
  end.

Definition forwardClientToPrimary (server : serverScript) (primary : clientScript) (hasShadow : bool)
    : list requestOp * option error :=
  let '(ops, err) := forwardRequests (ss_end server) primary hasShadow (ss_messages server) 0 in
  (if hasShadow then (ops ++ [OpCloseShadow])%list else ops, err).

(** ** [forwardPrimaryToClient] *)

Section responses.
Context `{Unicode}.

Definition receivePrimaryHeader (server : serverScript) (primary : clientScript)
    : list responseOp * MD * option error :=
  match cs_header primary with
  | Err e =>
      ([OpSetTrailer (cloneMetadata (cs_trailer primary))], ∅,
       primaryStreamError "receive primary headers" (Some e))
  | Ok [] => ([], ∅, None)
  | Ok header =>
      let cloned := cloneMetadata header in
      ([OpSendHeader cloned], cloned,
       match ss_sendHeader server with
       | Some e => proxyStreamError "send primary headers to client" (Some e)
       | None => None
       end)
  end.

(** The local [result] of [forwardPrimaryToClient] and its later fields. *)
Definition startedResult (header trailer : MD) (count : Z) (hasher : option string)
    : grpcStreamResult :=
  {| ProtobufFields := []; Started := true; Complete := false; Selected := "";
     MessageCount := count; MessageHash := hash_Sum hasher; r_Header := header;
     r_Trailer := trailer; StatusCode := codes_OK; StatusMessage := ""; Duration := 0;
     r_Err := ""; SkipReason := "" |}.

Definition with_complete (r : grpcStreamResult) (complete : bool) : grpcStreamResult :=
  {| ProtobufFields := ProtobufFields r; Started := Started r; Complete := complete;
     Selected := Selected r; MessageCount := MessageCount r; MessageHash := MessageHash r;
     r_Header := r_Header r; r_Trailer := r_Trailer r; StatusCode := StatusCode r;
     StatusMessage := StatusMessage r; Duration := Duration r; r_Err := r_Err r;
     SkipReason := SkipReason r |}.

(** The loop, from the [k]-th response on. *)
Fixpoint forwardResponses (server : serverScript) (primary : clientScript) (header : MD)
    (msgs : list rawMessage) (k : nat) (hasher : option string) (count : Z)
    : list responseOp * grpcStreamResult * option error :=
  match msgs with
  | [] =>
      let trailer := cloneMetadata (cs_trailer primary) in
      let result := startedResult header trailer count hasher in
      if errors_Is (cs_end primary) io_EOF
      then ([OpSetTrailer trailer], with_complete result true, None)
      else
        let primaryErr := primaryStreamError "receive primary response" (Some (cs_end primary)) in
        ([OpSetTrailer trailer],
         with_complete (setError result primaryErr) (isFinalStatusError (Some (cs_end primary))),
         primaryErr)
  | msg :: msgs' =>
      let sent := OpSendClient (cloneRawMessage msg) in
      match ss_send server k with
      | Some e =>
          ([sent], setError (startedResult header ∅ count hasher) (Some e),
           proxyStreamError "send response to client" (Some e))
      | None =>
          let '(ops, result, err) :=
            forwardResponses server primary header msgs' (S k) (hash_Add hasher msg) (count + 1) in
          (sent :: ops, result, err)
      end
  end.

Definition forwardPrimaryToClient (server : serverScript) (primary : clientScript)
    : list responseOp * grpcStreamResult * option error :=
  let hasher := newMessageHashRecorder in
  match receivePrimaryHeader server primary with
  | (ops, _, Some err) =>
      let trailer := cloneMetadata (cs_trailer primary) in
      (ops, with_complete (setError (startedResult ∅ trailer 0 hasher) (Some err))
              (isFinalStatusError (Some err)), Some err)
  | (ops, header, None) =>
      let '(ops', result, err) :=
        forwardResponses server primary header (cs_messages primary) 0 hasher 0 in
      ((ops ++ ops')%list, result, err)
  end.

End responses.

(** ** [waitForPrimaryForwarding] *)

(** What a goroutine puts on its channel. *)
Inductive report :=
  | SendDone (err : option error)
  | RecvDone (result : grpcStreamResult) (err : option error).

(** The loop; the reports come in the order the select takes them, and [None]
    is a select that waits for ever. *)
Fixpoint waitForPrimaryForwarding (sendOpen recvOpen : bool) (reports : list report)
    : option (grpcStreamResult * option error) :=
  if sendOpen || recvOpen then
    match reports with
    | [] => None
    | SendDone err :: reports' =>
        if negb sendOpen then waitForPrimaryForwarding sendOpen recvOpen reports'
        else
          match err with
          | Some e =>
              Some ({| ProtobufFields := []; Started := false; Complete := false; Selected := "";
                       MessageCount := 0; MessageHash := ""; r_Header := ∅; r_Trailer := ∅;
                       StatusCode := status_Code e; StatusMessage := statusMessage err;
                       Duration := 0; r_Err := Error e; SkipReason := "" |},
                    proxyStreamError "forward request to primary" err)
          | None => waitForPrimaryForwarding false recvOpen reports'
          end
    | RecvDone result err :: _ => Some (result, err)
    end
  else
    Some ({| ProtobufFields := []; Started := false; Complete := true; Selected := "";
             MessageCount := 0; MessageHash := emptyMessageHash; r_Header := ∅; r_Trailer := ∅;
             StatusCode := codes_OK; StatusMessage := ""; Duration := 0; r_Err := "";
             SkipReason := "" |}, None).

Definition with_duration (r : grpcStreamResult) (d : Z) : grpcStreamResult :=
  {| ProtobufFields := ProtobufFields r; Started := Started r; Complete := Complete r;
     Selected := Selected r; MessageCount := MessageCount r; MessageHash := MessageHash r;
     r_Header := r_Header r; r_Trailer := r_Trailer r; StatusCode := StatusCode r;
     StatusMessage := StatusMessage r; Duration := d; r_Err := r_Err r; SkipReason := SkipReason r |}.

(** What [forwardPrimaryStream] shows: the calls of both goroutines, the
    result and the error.  [requestsFirst]: the select takes the report of the
    request goroutine first; a client that keeps its side open until the
    primary has ended reports second. *)
Definition forwardPrimaryStream `{Unicode} (server : serverScript) (primary : clientScript)
    (hasShadow : bool) (requestsFirst : bool) (elapsed : Z)
    : list requestOp * list responseOp * option (grpcStreamResult * option error) :=
  let '(requests, sendErr) := forwardClientToPrimary server primary hasShadow in
  let '(responses, result, recvErr) := forwardPrimaryToClient server primary in
  let reports := if requestsFirst then [SendDone sendErr; RecvDone result recvErr]
                 else [RecvDone result recvErr; SendDone sendErr] in
  (requests, responses,
   (fun re : grpcStreamResult * option error => (with_duration re.1 elapsed, re.2))
     <$> waitForPrimaryForwarding true true reports).
(** ** Specification *)

(** The bytes hashed for a message sequence: each message after its length. *)
Fixpoint framed (msgs : list rawMessage) : string :=
  match msgs with [] => "" | m :: msgs' => (PutUint64 (len m) +:+ m) +:+ framed msgs' end.
Definition messagesHash (msgs : list rawMessage) : string :=
  hash_Sum (foldl hash_Add newMessageHashRecorder msgs).

(** What relaying [msgs] does: every message to the primary and then, after
    its send, to the shadow. *)
Definition relayed (hasShadow : bool) (msgs : list rawMessage) : list requestOp :=
  msgs ≫= fun m => OpSendPrimary m :: (if hasShadow then [OpOfferShadow m] else []).
Definition shadowClosed (hasShadow : bool) : list requestOp :=
  if hasShadow then [OpCloseShadow] else [].

(** ** Lemmas *)

Lemma foldl_hash_Add msgs w : foldl hash_Add (Some w) msgs = Some (w +:+ framed msgs).
Proof.
  revert w. induction msgs as [|m msgs IH]; intros w; cbn [foldl framed]; [by rewrite app_empty_r|].
  cbn [hash_Add]. rewrite IH. by rewrite <-!app_assoc_s.
Qed.

Lemma messagesHash_framed msgs :
  messagesHash msgs = hex_EncodeToString (sha256_Sum256 (framed msgs)).
Proof. unfold messagesHash, newMessageHashRecorder. by rewrite foldl_hash_Add. Qed.

Lemma string_app_inj (a b s t : string) :
  String.length a = String.length b -> a +:+ s = b +:+ t -> a = b /\ s = t.
Proof.
  intros Hl E. apply (f_equal chars) in E. rewrite !chars_app in E.
  apply app_inj_1 in E as [E1 E2]; [|by rewrite !length_chars].
  split; by apply chars_inj.
Qed.

(** The framing keeps message boundaries: it is injective. *)
Lemma framed_inj ms ns :
  Forall (fun m => len m < 2 ^ 64) ms -> Forall (fun m => len m < 2 ^ 64) ns ->
  framed ms = framed ns -> ms = ns.
Proof.
  intros Hm. revert ns. induction Hm as [|m ms Hm Hms IH]; intros [|n ns] Hn E; cbn [framed] in E.
  - done.
  - apply (f_equal String.length) in E. rewrite <-!length_chars, !chars_app, !length_app in E.
    rewrite !length_chars, length_PutUint64 in E. simpl in E. lia.
  - apply (f_equal String.length) in E. rewrite <-!length_chars, !chars_app, !length_app in E.
    rewrite !length_chars, length_PutUint64 in E. simpl in E. lia.
  - apply Forall_cons in Hn as [Hn Hns]. rewrite !app_assoc_s in E.
    apply string_app_inj in E as [E1 E2]; [|by rewrite !length_PutUint64].
    apply PutUint64_inj in E1; [|unfold len in *; lia..].
    apply string_app_inj in E2 as [-> E3]; [|unfold len in *; lia].
    by rewrite (IH ns).
Qed.

Lemma forwardRequests_spec e primary hasShadow msgs k :
  exists n, (n <= length msgs)%nat /\ (forall j, (j < n)%nat -> cs_send primary (k + j) = None) /\
    ((n = length msgs /\
      forwardRequests e primary hasShadow msgs k =
      ((relayed hasShadow msgs ++ if errors_Is e io_EOF then [OpCloseSend] else [])%list,
       if errors_Is e io_EOF then cs_closeSend primary else Some e)) \/
     exists m err, msgs !! n = Some m /\ cs_send primary (k + n) = Some err /\
      forwardRequests e primary hasShadow msgs k =
      ((relayed hasShadow (take n msgs) ++ [OpSendPrimary m])%list,
       if errors_Is err io_EOF then None else Some err)).
Proof.
  revert k. induction msgs as [|m msgs IH]; intros k; cbn [forwardRequests].
  { exists 0%nat. split_and!; [lia|lia|]. left. split; [done|]. by destruct (errors_Is e io_EOF). }
  rewrite cloneRawMessage_id. destruct (cs_send primary k) as [err|] eqn:Ek.
  { exists 0%nat. split_and!; [lia|lia|]. right. exists m, err. by rewrite Nat.add_0_r. }
  destruct (IH (S k)) as (n & Hn & Hsent & Hcase). exists (S n).
  split_and!; [simpl; lia| |].
  { intros [|j] Hj; [by rewrite Nat.add_0_r|].
    replace (k + S j)%nat with (S k + j)%nat by lia. apply Hsent. lia. }
  destruct Hcase as [[-> E]|(m' & err & Hm & Herr & E)]; rewrite E.
  - left. split; [done|]. by destruct hasShadow.
  - right. exists m', err. replace (k + S n)%nat with (S k + n)%nat by lia.
    split_and!; [done..|]. by destruct hasShadow.
Qed.

Section relay_lemmas.
Context `{Unicode}.

Lemma forwardResponses_relay server primary header msgs k hasher count :
  (forall j, (j < length msgs)%nat -> ss_send server (k + j) = None) ->
  forwardResponses server primary header msgs k hasher count =
  (let '(ops, result, err) :=
     forwardResponses server primary header [] 0 (foldl hash_Add hasher msgs)
       (count + Z.of_nat (length msgs)) in
   (((OpSendClient <$> msgs) ++ ops)%list, result, err)).
Proof.
  revert k hasher count. induction msgs as [|m msgs IH]; intros k hasher count Hs.
  { simpl length. rewrite Z.add_0_r. cbn [foldl fmap list_fmap app].
    cbn [forwardResponses]. by destruct (errors_Is (cs_end primary) io_EOF). }
  cbn [forwardResponses]. rewrite cloneRawMessage_id.
  rewrite <-(Nat.add_0_r k), Hs by (simpl; lia). rewrite Nat.add_0_r.
  rewrite IH by (intros j Hj; replace (S k + j)%nat with (k + S j)%nat by lia; apply Hs; simpl; lia).
  cbn [forwardResponses foldl]. replace (count + 1 + Z.of_nat (length msgs)) with
    (count + Z.of_nat (length (m :: msgs))) by (simpl; lia).
  by destruct (errors_Is (cs_end primary) io_EOF).
Qed.
Lemma proxyStreamError_some operation e :
  exists err, proxyStreamError operation (Some e) = Some err.
Proof. unfold proxyStreamError. destruct (decide _); eauto. Qed.

(** No error: the header and every message were taken, and the stream ended. *)
Lemma forwardResponses_ok server primary header msgs k hasher count ops result :
  forwardResponses server primary header msgs k hasher count = (ops, result, None) ->
  errors_Is (cs_end primary) io_EOF = true /\ Complete result = true /\ StatusCode result = codes_OK /\
  (forall j, (j < length msgs)%nat -> ss_send server (k + j) = None).
Proof.
  revert k hasher count ops. induction msgs as [|m msgs IH]; intros k hasher count ops;
    cbn [forwardResponses].
  - destruct (errors_Is (cs_end primary) io_EOF); intros E.
    + injection E as <- <-. split_and!; [done..|]. simpl. lia.
    + unfold primaryStreamError in E. by destruct (decide _).
  - destruct (ss_send server k) as [e|] eqn:Es; intros E.
    + destruct (proxyStreamError_some "send response to client" e) as [? E']. by rewrite E' in E.
    + destruct (forwardResponses _ _ _ msgs _ _ _) as [[ops' r'] e'] eqn:El.
      injection E as <- <- ->. apply IH in El as (H1 & H2 & H3 & H4). split_and!; try done.
      intros [|j] Hj; [by rewrite Nat.add_0_r|].
      replace (k + S j)%nat with (S k + j)%nat by lia. apply H4. simpl in Hj. lia.
Qed.

Lemma relayed_ok server primary ops result :
  forwardPrimaryToClient server primary = (ops, result, None) ->
  errors_Is (cs_end primary) io_EOF = true /\ Complete result = true /\ StatusCode result = codes_OK /\
  (forall j, (j < length (cs_messages primary))%nat -> ss_send server j = None).
Proof.
  unfold forwardPrimaryToClient. destruct (receivePrimaryHeader server primary) as [[o h] [e|]]; [done|].
  destruct (forwardResponses _ _ _ _ _ _ _) as [[ops' r'] e'] eqn:El. intros [= <- <- ->].
  by apply forwardResponses_ok in El.
Qed.
End relay_lemmas.
(** ** Theorems *)

(** Client to primary: the messages are sent to the primary in order, as
    received, up to the first refused send; each message is offered to the
    shadow only after the primary accepted it, and a message the primary
    refused never is; the primary's side is closed exactly when the client
    closed its own; the shadow is closed last, on every path; and the error is
    the client's, the refusing send's (a primary that already ended is none)
    or that of the half-close. *)
Theorem forwardClientToPrimary_spec server primary hasShadow :
  let msgs := ss_messages server in
  exists n, (n <= length msgs)%nat /\ (forall j, (j < n)%nat -> cs_send primary j = None) /\
    ((n = length msgs /\
      forwardClientToPrimary server primary hasShadow =
      ((relayed hasShadow msgs ++ (if errors_Is (ss_end server) io_EOF then [OpCloseSend] else []) ++
          shadowClosed hasShadow)%list,
       if errors_Is (ss_end server) io_EOF then cs_closeSend primary else Some (ss_end server))) \/
     exists m err, msgs !! n = Some m /\ cs_send primary n = Some err /\
      forwardClientToPrimary server primary hasShadow =
      ((relayed hasShadow (take n msgs) ++ [OpSendPrimary m] ++ shadowClosed hasShadow)%list,
       if errors_Is err io_EOF then None else Some err)).
Proof.
  intros msgs. unfold forwardClientToPrimary.
  destruct (forwardRequests_spec (ss_end server) primary hasShadow msgs 0) as (n & Hn & Hs & Hc).
  exists n. split_and!; [done..|]. unfold shadowClosed.
  destruct Hc as [[E1 E2]|(m & err & Hm & Herr & E2)]; fold msgs; rewrite E2; [left|right].
  - split; [done|]. by destruct hasShadow; rewrite ?app_nil_r, ?app_assoc.
  - exists m, err. split_and!; [done..|]. by destruct hasShadow; rewrite ?app_nil_r, <-?app_assoc.
Qed.

Section response_theorems.
Context `{Unicode}.

(** C22. Primary to client: with a client that takes its responses, exactly the
    primary's header, then its messages in order and unchanged, then its
    trailer reach the client; count and hash are those of the messages; the
    end of the stream is status OK, a status of the primary is passed on as it
    is, and any other failure becomes Unavailable and is not final. *)
Theorem forwardPrimaryToClient_relays server primary header :
  cs_header primary = Ok header ->
  (header <> [] -> ss_sendHeader server = None) ->
  (forall j, (j < length (cs_messages primary))%nat -> ss_send server j = None) ->
  let '(ops, result, err) := forwardPrimaryToClient server primary in
  let trailer := cloneMetadata (cs_trailer primary) in
  ops = ((if decide (header = []) then [] else [OpSendHeader (cloneMetadata header)]) ++
         (OpSendClient <$> cs_messages primary) ++ [OpSetTrailer trailer])%list /\
  Started result = true /\ SkipReason result = "" /\
  MessageCount result = Z.of_nat (length (cs_messages primary)) /\
  MessageHash result = messagesHash (cs_messages primary) /\
  r_Header result = cloneMetadata header /\ r_Trailer result = trailer /\
  (if errors_Is (cs_end primary) io_EOF
   then err = None /\ StatusCode result = codes_OK /\ r_Err result = "" /\ Complete result = true
   else match status_FromError (cs_end primary) with
        | Some (c, m) => err = Some (cs_end primary) /\ StatusCode result = c /\
                         StatusMessage result = m /\ Complete result = true
        | None => err = Some (status_Error codes_Unavailable
                          ("receive primary response: " +:+ Error (cs_end primary))) /\
                  StatusCode result = codes_Unavailable /\ Complete result = false
        end).
Proof.
  intros Hh Hsh Hs. unfold forwardPrimaryToClient, receivePrimaryHeader. rewrite Hh.
  pose proof (forwardResponses_relay server primary (cloneMetadata header) (cs_messages primary) 0
    newMessageHashRecorder 0 Hs) as E. cbn [forwardResponses] in E.
  assert (Hgoal : forall ops0 : list responseOp, ops0 =
    (if decide (header = []) then [] else [OpSendHeader (cloneMetadata header)]) ->
    (match header with
     | [] => ([] : list responseOp, (∅ : MD), None : option error)
     | _ => ([OpSendHeader (cloneMetadata header)], cloneMetadata header,
        match ss_sendHeader server with
        | Some e => proxyStreamError "send primary headers to client" (Some e) | None => None end)
     end) = (ops0, cloneMetadata header, None)).
  { intros ops0 ->. destruct header; [done|]. by rewrite Hsh. }
  rewrite (Hgoal _ eq_refl), E, Z.add_0_l. clear E Hgoal.
  destruct (errors_Is (cs_end primary) io_EOF) eqn:EOF; [by split_and!|].
  unfold primaryStreamError, isFinalStatusError, setError, status_Code, statusMessage.
  destruct (status_FromError (cs_end primary)) as [[c m]|] eqn:Es.
  - rewrite (decide_True (P := is_Some (Some (c, m)))) by (by eexists). cbn. rewrite Es. by split_and!.
  - rewrite (decide_False (P := is_Some None)) by (by intros [? ?]). by split_and!.
Qed.

(** The result and error of an RPC are those of the primary's responses,
    unless sending the client's requests failed first; then the RPC fails with
    that failure.  In particular an RPC is reported complete with status OK
    only when the primary ended its stream that way and the client took
    everything. *)
Theorem forwardPrimaryStream_result server primary hasShadow requestsFirst elapsed :
  let '(_, sendErr) := forwardClientToPrimary server primary hasShadow in
  let '(_, result, recvErr) := forwardPrimaryToClient server primary in
  let outcome := (forwardPrimaryStream server primary hasShadow requestsFirst elapsed).2 in
  match (if requestsFirst then sendErr else None) with
  | None => outcome = Some (with_duration result elapsed, recvErr)
  | Some e => exists r err, outcome = Some (r, Some err) /\ StatusCode r = status_Code e /\
      r_Err r = Error e /\ Complete r = false /\ proxyStreamError "forward request to primary" (Some e) = Some err
  end /\
  forall r, outcome = Some (r, None) ->
    errors_Is (cs_end primary) io_EOF = true /\ Complete r = true /\ StatusCode r = codes_OK /\
    (forall j, (j < length (cs_messages primary))%nat -> ss_send server j = None).
Proof.
  unfold forwardPrimaryStream.
  destruct (forwardClientToPrimary server primary hasShadow) as [requests sendErr].
  destruct (forwardPrimaryToClient server primary) as [[responses result] recvErr] eqn:Er.
  assert (Hrecv : recvErr = None -> errors_Is (cs_end primary) io_EOF = true /\
    Complete result = true /\ StatusCode result = codes_OK /\
    (forall j, (j < length (cs_messages primary))%nat -> ss_send server j = None)).
  { intros ->. exact (relayed_ok _ _ _ _ Er). }
  destruct requestsFirst.
  - destruct sendErr as [e|]; cbn -[proxyStreamError].
    + destruct (proxyStreamError_some "forward request to primary" e) as [err E].
      split; [|intros r Hr; rewrite E in Hr; done].
      eexists _, err. rewrite E. by split_and!.
    + split; [done|]. intros r [= <- ->]. by apply Hrecv.
  - cbn. split; [done|]. intros r [= <- ->]. by apply Hrecv.
Qed.
End response_theorems.

(** Message hashes compare the sequences: two sequences with equal hashes
    are the same messages in the same order, or exhibit two different byte
    strings with the same SHA-256 value; the framing itself hides nothing. *)
Theorem messageHash_faithful ms ns :
  Forall (fun m => len m < 2 ^ 64) ms -> Forall (fun m => len m < 2 ^ 64) ns ->
  messagesHash ms = messagesHash ns ->
  ms = ns \/ (framed ms <> framed ns /\ sha256_Sum256 (framed ms) = sha256_Sum256 (framed ns)).
Proof.
  intros Hm Hn E. rewrite !messagesHash_framed in E. apply hex_EncodeToString_inj in E.
  destruct (decide (framed ms = framed ns)) as [F|F]; [left; by apply framed_inj|by right].
Qed.

(** ** Witnesses *)

Definition exampleServer (msgs : list rawMessage) : serverScript :=
  {| ss_messages := msgs; ss_end := io_EOF; ss_sendHeader := None; ss_send := fun _ => None |}.
Definition exampleUpstream (msgs : list rawMessage) (end_ : error) : clientScript :=
  {| cs_header := Ok [("a", ["b"])]; cs_messages := msgs; cs_end := end_; cs_trailer := [];
     cs_send := fun _ => None; cs_closeSend := None |}.

Lemma forwardPrimaryToClient_relays_witness :
  let U := asciiUnicode in
  (forwardPrimaryToClient (exampleServer ["q"]) (exampleUpstream ["m"; "n"] io_EOF)).1.1 =
  [OpSendHeader {["a" := ["b"]]}; OpSendClient "m"; OpSendClient "n"; OpSetTrailer ∅].
Proof.
  intros U.
  pose proof (forwardPrimaryToClient_relays (exampleServer ["q"]) (exampleUpstream ["m"; "n"] io_EOF)
    [("a", ["b"])] eq_refl (fun _ => eq_refl) (fun _ _ => eq_refl)) as T.
  destruct (forwardPrimaryToClient _ _) as [[ops r] e]. destruct T as [-> _].
  vm_compute. reflexivity.
Defined.

Lemma messageHash_faithful_witness :
  messagesHash ["a"; "b"] = messagesHash ["a"; "b"] /\
  (["a"; "b"] = ["a"; "b"] \/
   (framed ["a"; "b"] <> framed ["a"; "b"] /\
    sha256_Sum256 (framed ["a"; "b"]) = sha256_Sum256 (framed ["a"; "b"]))).
Proof.
  split; [done|]. apply (messageHash_faithful ["a"; "b"] ["a"; "b"]);
    [repeat constructor; vm_compute; done..|done].
Defined.
End grpcstream.
