(* ===== verification/GrpcCompare.v ===== *)
(** * [internal/grpcproxy/compare.go]: comparing the primary and shadow results *)
From S2P Require Export GrpcStream GrpcRules ConfigLogFields.

Module grpccompare.
Import logging grpcmetadata grpcstream grpcrules.

Definition grpcCompareModeStatus : string := "status".
Definition grpcCompareModeStatusMetadata : string := "status_metadata".
Definition grpcCompareModeMessageCount : string := "message_count".
Definition grpcCompareModeMessageHash : string := "message_hash".
Definition grpcMetadataStatus : string := "grpc-status".
Definition grpcMetadataMessage : string := "grpc-message".
Definition grpcMetadataHeader : string := "header".
Definition grpcMetadataTrailer : string := "trailer".
Definition grpcCompareOutcomeSame : string := "same".
Definition grpcCompareOutcomeDiff : string := "diff".
Definition grpcCompareOutcomeSkipped : string := "skipped".
Definition grpcCompareOutcomeError : string := "error".
Definition grpcCompareSkipReasonNoShadow : string := "no_shadow".

(** The configuration the gRPC handler reads ([config.Config]). *)
Record grpcConfig := {
  GRPCCompareMode : string;
  GRPCCompareMetadata : option (list string);
  GRPCShadowForceMetadata : string;
  ShadowSamplePercent : Z;
  GRPCShadowTimeout : Z;
  GRPCShadowQueueSize : Z;
  LogOnlyOnDiff : bool;
  LogFields : logfields.LogFieldsConfig
}.

Record grpcCompareResult := {
  Enabled : bool;
  Outcome : string;
  cr_Mode : string;
  MetadataKeys : option (list string);
  Diff : bool;
  Diffs : list string;
  cr_Err : string;
  cr_SkipReason : string
}.

(** [grpcShadowPolicyDecision] of handler.go. *)
Record grpcShadowPolicyDecision := { doShadow : bool; forced : bool; skipReason : string }.

(** [fmt.Sprintf("%q", values)] *)
Definition quoteList `{Unicode} (values : list string) : string :=
  "[" +:+ Join (Quote <$> values) " " +:+ "]".

Section compare.
Context `{Unicode}.

Definition normalizeGRPCCompareMode (mode : string) : string :=
  let normalized := ToLower (TrimSpace mode) in
  if decide (normalized = "") then grpcCompareModeStatus else normalized.

(** The loop: [seen] and the keys collected so far. *)
Definition addCompareKey (sn : gset string * list string) (key : string) : gset string * list string :=
  let '(seen, normalized) := sn in
  let key := normalizeMetadataKey key in
  if decide (key = "") then sn
  else if decide (key ∈ seen) then sn
  else ({[key]} ∪ seen, (normalized ++ [key])%list).

Definition normalizeCompareMetadataKeys (keys : option (list string)) : option (list string) :=
  match keys with
  | None => None
  | Some [] => Some []
  | Some keys => Some (sort_Strings (foldl addCompareKey (∅, []) keys).2)
  end.

Definition streamMessageHash (result : grpcStreamResult) : string :=
  if decide (MessageHash result <> "") then MessageHash result else emptyMessageHash.

(** The loop of [equalStringSlices]. *)
Fixpoint equalStringSlices (left right : list string) : bool :=
  match left, right with
  | [], [] => true
  | l :: left', r :: right' => bool_decide (l = r) && equalStringSlices left' right'
  | _, _ => false
  end.

Definition compareMetadataValues (result : grpcStreamResult) (location key : string) : list string :=
  let normalized := normalizeMetadataKey key in
  if decide (location = grpcMetadataTrailer /\ normalized = grpcMetadataStatus)
  then [Itoa (StatusCode result)]
  else if decide (location = grpcMetadataTrailer /\ normalized = grpcMetadataMessage) then
    if decide (StatusMessage result = "") then [] else [StatusMessage result]
  else
    let md := if decide (location = grpcMetadataTrailer) then r_Trailer result else r_Header result in
    copy_slice (md_Get md normalized).

(** ** The differences: each function gives what it appends to [Diffs]. *)

Definition addStatusDiff (primary shadow : grpcStreamResult) : list string :=
  if StatusCode primary =? StatusCode shadow then []
  else ["status primary=" +:+ Code_String (StatusCode primary) +:+ " shadow=" +:+
        Code_String (StatusCode shadow)].

Definition metadataDiff (primary shadow : grpcStreamResult) (key location : string) : list string :=
  let primaryValues := compareMetadataValues primary location key in
  let shadowValues := compareMetadataValues shadow location key in
  if equalStringSlices primaryValues shadowValues then []
  else [location +:+ "_metadata:" +:+ key +:+ " primary=" +:+ quoteList primaryValues +:+
        " shadow=" +:+ quoteList shadowValues].
Definition addMetadataDiffs (keys : list string) (primary shadow : grpcStreamResult) : list string :=
  keys ≫= fun key => [grpcMetadataHeader; grpcMetadataTrailer] ≫= metadataDiff primary shadow key.

Definition addMessageCountDiff (primary shadow : grpcStreamResult) : list string :=
  if MessageCount primary =? MessageCount shadow then []
  else ["message_count primary=" +:+ Itoa (MessageCount primary) +:+ " shadow=" +:+
        Itoa (MessageCount shadow)].

Definition addMessageHashDiff (primary shadow : grpcStreamResult) : list string :=
  let primaryHash := streamMessageHash primary in
  let shadowHash := streamMessageHash shadow in
  if decide (primaryHash = shadowHash) then []
  else ["message_hash primary=" +:+ primaryHash +:+ " shadow=" +:+ shadowHash].

(** ** Results *)

Definition skippedGRPCCompareResult (mode : string) (keys : option (list string)) (reason : string)
    : grpcCompareResult :=
  {| Enabled := false; Outcome := grpcCompareOutcomeSkipped; cr_Mode := normalizeGRPCCompareMode mode;
     MetadataKeys := normalizeCompareMetadataKeys keys; Diff := false; Diffs := []; cr_Err := "";
     cr_SkipReason := if decide (reason = "") then grpcCompareSkipReasonNoShadow else reason |}.

Definition errorGRPCCompareResult (mode : string) (keys : option (list string)) (err : string)
    : grpcCompareResult :=
  {| Enabled := true; Outcome := grpcCompareOutcomeError; cr_Mode := normalizeGRPCCompareMode mode;
     MetadataKeys := normalizeCompareMetadataKeys keys; Diff := false; Diffs := []; cr_Err := err;
     cr_SkipReason := "" |}.

Definition incompleteShadowCompareError (shadow : grpcStreamResult) : string :=
  if decide (SkipReason shadow <> "") then "shadow incomplete: " +:+ SkipReason shadow
  else if negb (Started shadow) then "shadow incomplete: not_started"
  else if negb (Complete shadow) then "shadow incomplete: no_final_status"
  else "".

(** The switch over the mode: [None] is its default case. *)
Definition modeDiffs (mode : string) (keys : option (list string)) (primary shadow : grpcStreamResult)
    : option (list string) :=
  if decide (mode = grpcCompareModeStatus) then Some (addStatusDiff primary shadow)
  else if decide (mode = grpcCompareModeStatusMetadata) then
    Some (addStatusDiff primary shadow ++ addMetadataDiffs (default [] keys) primary shadow)%list
  else if decide (mode = grpcCompareModeMessageCount) then
    Some (addStatusDiff primary shadow ++ addMessageCountDiff primary shadow)%list
  else if decide (mode = grpcCompareModeMessageHash) then
    Some (addStatusDiff primary shadow ++ addMessageHashDiff primary shadow)%list
  else None.

Definition compareGRPCResults (mode : string) (metadataKeys : option (list string))
    (primary shadow : grpcStreamResult) : grpcCompareResult :=
  let mode := normalizeGRPCCompareMode mode in
  let keys := normalizeCompareMetadataKeys metadataKeys in
  match modeDiffs mode keys primary shadow with
  | None => errorGRPCCompareResult mode metadataKeys
              ("unsupported gRPC compare mode " +:+ Quote mode)
  | Some diffs =>
      let diff := bool_decide (diffs <> []) in
      {| Enabled := true;
         Outcome := if diff then grpcCompareOutcomeDiff else grpcCompareOutcomeSame;
         cr_Mode := mode; MetadataKeys := keys; Diff := diff; Diffs := diffs; cr_Err := "";
         cr_SkipReason := "" |}
  end.

(** [h.cfg]; [None] is a nil handler. *)
Definition resolveCompareConfig (cfg : option grpcConfig) (d : Decision)
    : string * option (list string) :=
  let mode := match cfg with Some c => GRPCCompareMode c | None => "" end in
  let mode := if decide (d_CompareDecision d = CompareDecisionOn /\ CompareMode d <> "")
              then CompareMode d else mode in
  let keys := if CompareMetadataSet d then CompareMetadata d
              else match cfg with Some c => GRPCCompareMetadata c | None => None end in
  (normalizeGRPCCompareMode mode, normalizeCompareMetadataKeys keys).

Definition compareRPCResult (cfg : option grpcConfig) (d : Decision)
    (shadowDecision : grpcShadowPolicyDecision) (primary shadow : grpcStreamResult)
    : grpcCompareResult :=
  let '(mode, keys) := resolveCompareConfig cfg d in
  if decide (d_CompareDecision d = CompareDecisionOff) then
    skippedGRPCCompareResult mode keys
      (if decide (CompareSkipReason d = "") then SkipReasonGRPCRule else CompareSkipReason d)
  else if negb (doShadow shadowDecision) then
    skippedGRPCCompareResult mode keys
      (if decide (SkipReason shadow = "") then grpcCompareSkipReasonNoShadow else SkipReason shadow)
  else
    let err := incompleteShadowCompareError shadow in
    if decide (err <> "") then errorGRPCCompareResult mode keys err
    else compareGRPCResults mode keys primary shadow.

(** ** Specification: when two results really differ *)

Definition metadataDiffer (primary shadow : grpcStreamResult) (key : string) : Prop :=
  exists location, location ∈ [grpcMetadataHeader; grpcMetadataTrailer] /\
    compareMetadataValues primary location key <> compareMetadataValues shadow location key.

Definition resultsDiffer (mode : string) (keys : list string) (primary shadow : grpcStreamResult) : Prop :=
  StatusCode primary <> StatusCode shadow \/
  (mode = grpcCompareModeStatusMetadata /\ exists key, key ∈ keys /\ metadataDiffer primary shadow key) \/
  (mode = grpcCompareModeMessageCount /\ MessageCount primary <> MessageCount shadow) \/
  (mode = grpcCompareModeMessageHash /\ streamMessageHash primary <> streamMessageHash shadow).

Definition supportedMode (mode : string) : Prop :=
  mode = grpcCompareModeStatus \/ mode = grpcCompareModeStatusMetadata \/
  mode = grpcCompareModeMessageCount \/ mode = grpcCompareModeMessageHash.

(** ** Lemmas *)

Lemma equalStringSlices_spec l r : equalStringSlices l r = bool_decide (l = r).
Proof.
  revert r. induction l as [|x l IH]; intros [|y r]; cbn [equalStringSlices]; [done..|].
  rewrite IH, <-bool_decide_and. apply bool_decide_ext. naive_solver.
Qed.

Lemma app_ne_nil {A} (l k : list A) : (l ++ k)%list <> [] <-> l <> [] \/ k <> [].
Proof. destruct l, k; simpl; naive_solver. Qed.

Lemma bind_ne_nil {A B} (f : A -> list B) l : l ≫= f <> [] <-> exists x, x ∈ l /\ f x <> [].
Proof.
  induction l as [|x l IH]; cbn.
  { split; [done|]. by intros (y & ?%elem_of_nil & _). }
  rewrite app_ne_nil. change (mjoin (f <$> l)) with (l ≫= f).
  split.
  - intros [Hx|(y & Hy & Hf)%IH]; [exists x|exists y]; split; auto using list_elem_of_here, list_elem_of_further.
  - intros (y & [->|Hy]%elem_of_cons & Hf); [by left|]. right. apply IH. eauto.
Qed.

Lemma addStatusDiff_ne p s : addStatusDiff p s <> [] <-> StatusCode p <> StatusCode s.
Proof. unfold addStatusDiff. by destruct (Z.eqb_spec (StatusCode p) (StatusCode s)). Qed.

Lemma addMetadataDiffs_ne keys p s :
  addMetadataDiffs keys p s <> [] <-> exists key, key ∈ keys /\ metadataDiffer p s key.
Proof.
  unfold addMetadataDiffs, metadataDiffer. rewrite bind_ne_nil.
  apply exist_proper. intros key. rewrite bind_ne_nil. apply and_iff_compat_l.
  apply exist_proper. intros loc. apply and_iff_compat_l.
  unfold metadataDiff. rewrite equalStringSlices_spec. case_bool_decide; naive_solver.
Qed.

Lemma addMessageCountDiff_ne p s : addMessageCountDiff p s <> [] <-> MessageCount p <> MessageCount s.
Proof. unfold addMessageCountDiff. by destruct (Z.eqb_spec (MessageCount p) (MessageCount s)). Qed.

Lemma addMessageHashDiff_ne p s :
  addMessageHashDiff p s <> [] <-> streamMessageHash p <> streamMessageHash s.
Proof. unfold addMessageHashDiff. by destruct (decide _). Qed.

Lemma modeDiffs_spec mode keys p s :
  match modeDiffs mode keys p s with
  | None => ~ supportedMode mode
  | Some diffs => supportedMode mode /\ (diffs <> [] <-> resultsDiffer mode (default [] keys) p s)
  end.
Proof.
  unfold modeDiffs, supportedMode, resultsDiffer.
  destruct (decide (mode = grpcCompareModeStatus)) as [->|H1].
  { split; [by left|]. rewrite addStatusDiff_ne. split; [by left|].
    by intros [?|[[? _]|[[? _]|[? _]]]]. }
  destruct (decide (mode = grpcCompareModeStatusMetadata)) as [->|H2].
  { split; [tauto|]. rewrite app_ne_nil, addStatusDiff_ne, addMetadataDiffs_ne.
    split; [intros [?|?]; tauto|]. by intros [?|[[_ ?]|[[? _]|[? _]]]]; auto. }
  destruct (decide (mode = grpcCompareModeMessageCount)) as [->|H3].
  { split; [tauto|]. rewrite app_ne_nil, addStatusDiff_ne, addMessageCountDiff_ne.
    split; [intros [?|?]; tauto|]. by intros [?|[[? _]|[[_ ?]|[? _]]]]; auto. }
  destruct (decide (mode = grpcCompareModeMessageHash)) as [->|H4]; [|tauto].
  split; [tauto|]. rewrite app_ne_nil, addStatusDiff_ne, addMessageHashDiff_ne.
  split; [intros [?|?]; tauto|]. by intros [?|[[? _]|[[? _]|[_ ?]]]]; auto.
Qed.

Lemma incomplete_spec shadow :
  incompleteShadowCompareError shadow = "" <->
  SkipReason shadow = "" /\ Started shadow = true /\ Complete shadow = true.
Proof.
  unfold incompleteShadowCompareError. destruct (decide (SkipReason shadow <> "")); [naive_solver|].
  destruct (Started shadow), (Complete shadow); cbn; split; try done; try naive_solver.
  intros _. split_and!; [|done..]. by apply dec_stable.
Qed.

(** The keys kept by the loop: each normalised non-empty key once. *)
Lemma addCompareKey_spec keys seen acc :
  let '(seen', acc') := foldl addCompareKey (seen, acc) keys in
  (forall k, k ∈ seen <-> k ∈ acc) -> NoDup acc ->
  NoDup acc' /\ forall k, k ∈ acc' <-> k ∈ acc \/ (k <> "" /\ k ∈ normalizeMetadataKey <$> keys).
Proof.
  revert seen acc. induction keys as [|key keys IH]; intros seen acc; cbn [foldl].
  { intros _ Hd. split; [done|]. intros k. cbn. rewrite elem_of_nil. tauto. }
  cbn [addCompareKey]. set (j := normalizeMetadataKey key).
  destruct (decide (j = "")) as [Hj|Hj]; [|destruct (decide (j ∈ seen)) as [Hin|Hin]].
  - specialize (IH seen acc). destruct (foldl _ _ _) as [seen' acc']. intros Hs Hd.
    destruct (IH Hs Hd) as [H1 H2]. split; [done|]. intros k. rewrite H2, fmap_cons, elem_of_cons.
    fold j. split; [intuition|]. intros [?|[Hk [->|?]]]; [by left|done|by right].
  - specialize (IH seen acc). destruct (foldl _ _ _) as [seen' acc']. intros Hs Hd.
    destruct (IH Hs Hd) as [H1 H2]. split; [done|]. intros k. rewrite H2, fmap_cons, elem_of_cons.
    fold j. split; [intuition|]. intros [?|[Hk [->|?]]]; [by left|left; by apply Hs|by right].
  - specialize (IH ({[j]} ∪ seen) (acc ++ [j])%list). destruct (foldl _ _ _) as [seen' acc'].
    intros Hs Hd. destruct IH as [H1 H2].
    + intros k. rewrite elem_of_union, elem_of_singleton, elem_of_app, list_elem_of_singleton, Hs. tauto.
    + apply NoDup_app. split_and!; [done| |apply NoDup_singleton].
      intros k Hk ->%list_elem_of_singleton. by apply Hin, Hs.
    + split; [done|]. intros k.
      rewrite H2, elem_of_app, list_elem_of_singleton, fmap_cons, elem_of_cons. fold j.
      split; [intros [[?| ->]|[? ?]]; auto|]. intros [?|[? [->|?]]]; auto.
Qed.

(** The compared keys: sorted, each normalised non-empty key exactly once;
    "none configured" and "an empty list" stay apart. *)
Lemma normalizeCompareMetadataKeys_spec keys :
  (normalizeCompareMetadataKeys keys = None <-> keys = None) /\
  forall l, normalizeCompareMetadataKeys keys = Some l ->
    NoDup l /\ StronglySorted String.le l /\
    forall k, k ∈ l <-> k <> "" /\ k ∈ normalizeMetadataKey <$> default [] keys.
Proof.
  destruct keys as [[|key keys]|]; cbn [normalizeCompareMetadataKeys].
  - split; [done|]. intros l [= <-]. split_and!; [constructor|constructor|].
    intros k. cbn. rewrite elem_of_nil. tauto.
  - split; [done|]. unfold default, from_option. generalize (key :: keys) as ks.
    clear key keys. intros ks l [= <-].
    pose proof (addCompareKey_spec ks ∅ []) as A.
    destruct (foldl addCompareKey (∅, []) ks) as [seen acc]. cbn [snd].
    destruct A as [A1 A2]; [by intros; rewrite elem_of_nil, elem_of_empty|constructor|].
    split_and!; [rewrite sort_Strings_perm; exact A1|apply sort_Strings_sorted|].
    intros k. rewrite sort_Strings_perm, A2, elem_of_nil. cbn. tauto.
  - by split.
Qed.

(** The comparison of an RPC.  It is skipped, with a reason, when the rule
    turns it off or no shadow was called; it is an error, never a verdict, when
    the shadow is incomplete (skipped, not started, or without a final status)
    or the mode is unknown; otherwise it reports a difference exactly when the
    final statuses differ or the results differ in what the mode compares. *)
Theorem compareRPCResult_spec cfg d sd primary shadow :
  let '(mode, keys) := resolveCompareConfig cfg d in
  let r := compareRPCResult cfg d sd primary shadow in
  let judged := normalizeGRPCCompareMode mode in
  let skipped := d_CompareDecision d = CompareDecisionOff \/ doShadow sd = false in
  let complete := SkipReason shadow = "" /\ Started shadow = true /\ Complete shadow = true in
  (Outcome r = grpcCompareOutcomeSkipped <-> skipped) /\
  (skipped -> Enabled r = false /\ cr_SkipReason r <> "" /\ Diff r = false /\ cr_Err r = "") /\
  (Outcome r = grpcCompareOutcomeError <-> ~ skipped /\ ~ (complete /\ supportedMode judged)) /\
  (Outcome r = grpcCompareOutcomeError <-> cr_Err r <> "") /\
  (Outcome r = grpcCompareOutcomeDiff <-> ~ skipped /\ complete /\ supportedMode judged /\
     resultsDiffer judged (default [] (normalizeCompareMetadataKeys keys)) primary shadow) /\
  (Outcome r = grpcCompareOutcomeSame <-> ~ skipped /\ complete /\ supportedMode judged /\
     ~ resultsDiffer judged (default [] (normalizeCompareMetadataKeys keys)) primary shadow) /\
  (Diff r = true <-> Outcome r = grpcCompareOutcomeDiff) /\ (Diffs r <> [] <-> Diff r = true).
Proof.
  unfold compareRPCResult. destruct (resolveCompareConfig cfg d) as [mode keys].
  destruct (decide (d_CompareDecision d = CompareDecisionOff)) as [Hoff|Hon].
  { cbv zeta. split_and!; cbn; try (by destruct (decide _)); try naive_solver. }
  destruct (doShadow sd) eqn:Hsd; cbn [negb].
  2: { cbv zeta. split_and!; cbn; try (by destruct (decide _)); try naive_solver. }
  cbv zeta. pose proof (incomplete_spec shadow) as Hi.
  destruct (decide (incompleteShadowCompareError shadow <> "")) as [He|He].
  { split_and!; cbn; try naive_solver. }
  apply dec_stable in He. apply Hi in He as Hc. unfold compareGRPCResults.
  pose proof (modeDiffs_spec (normalizeGRPCCompareMode mode) (normalizeCompareMetadataKeys keys) primary shadow) as Hm.
  destruct (modeDiffs _ _ _ _) as [diffs|]; [|split_and!; cbn; naive_solver].
  destruct Hm as [Hs Hd]. cbn. case_bool_decide as Hne; split_and!; cbn; try naive_solver.
Qed.
End compare.

(** A configuration for closed examples. *)
Definition exampleLogFields : logfields.LogFieldsConfig :=
  {| logfields.GRPCMessages := []; logfields.MilterMacros := []; logfields.RequestJSON := [];
     logfields.ResponseJSON := []; logfields.RequestHeaders := []; logfields.ResponseHeaders := [];
     logfields.RequestMetadata := []; logfields.ResponseMetadata := [] |}.
Definition exampleGRPCConfig (mode : string) (queue : Z) : grpcConfig :=
  {| GRPCCompareMode := mode; GRPCCompareMetadata := None; GRPCShadowForceMetadata := "";
     ShadowSamplePercent := 100; GRPCShadowTimeout := 0; GRPCShadowQueueSize := queue;
     LogOnlyOnDiff := false; LogFields := exampleLogFields |}.
End grpccompare.
