(* ===== verification/GrpcShadow.v ===== *)
(** * [internal/grpcproxy/shadow.go]: the shadow stream of one RPC

    The request goroutine offers messages, [run] and its two goroutines forward
    them and read the responses, and the handler waits.  They share a bounded
    queue, a result behind a mutex and two signals (the cancelled context and
    the channel [done]); every interleaving of them is a path of [step].
    Spans are left out. *)
From S2P Require Export GrpcCompare.

Module grpcshadow.
Import logging protobuf grpcmetadata grpcstream grpccompare.

Definition defaultShadowQueueSize : Z := 128.
Definition shadowSkipReasonRateLimited : string := "rate_limited".
Definition shadowSkipReasonNoTargets : string := "no_shadow_targets".
Definition shadowSkipReasonQueueFull : string := "queue_full".
Definition shadowSkipReasonTimeout : string := "timeout".
Definition shadowSkipReasonNotStarted : string := "shadow_not_started".
Definition shadowSkipReasonTargetUnavailable : string := "target_unavailable".

Definition millisecond : Z := 1000000.
Definition shadowTimeout (timeout : Z) : Z := if 0 <? timeout then timeout else 500 * millisecond.
Definition shadowQueueSize (size : Z) : Z := if 0 <? size then size else defaultShadowQueueSize.

(** ** State

    [sf_queue = None] is the nil channel of a forwarder that never started,
    [sf_cancel = None] its missing cancel function; otherwise [sf_cancel]
    tells whether the shadow context has been cancelled. *)
Record shadowForwarder := {
  sf_capture : option ProtobufCapture;
  sf_queue : option (list rawMessage);
  sf_cap : nat;
  sf_queueClosed : bool;
  sf_result : grpcStreamResult;
  sf_startedAt : bool;
  sf_cancel : option bool;
  sf_done : bool
}.

Definition set_queue (s : shadowForwarder) (q : option (list rawMessage)) (closed : bool) :=
  {| sf_capture := sf_capture s; sf_queue := q; sf_cap := sf_cap s; sf_queueClosed := closed;
     sf_result := sf_result s; sf_startedAt := sf_startedAt s; sf_cancel := sf_cancel s;
     sf_done := sf_done s |}.
Definition set_result (s : shadowForwarder) (r : grpcStreamResult) :=
  {| sf_capture := sf_capture s; sf_queue := sf_queue s; sf_cap := sf_cap s;
     sf_queueClosed := sf_queueClosed s; sf_result := r; sf_startedAt := sf_startedAt s;
     sf_cancel := sf_cancel s; sf_done := sf_done s |}.
Definition set_capture (s : shadowForwarder) (c : option ProtobufCapture) :=
  {| sf_capture := c; sf_queue := sf_queue s; sf_cap := sf_cap s;
     sf_queueClosed := sf_queueClosed s; sf_result := sf_result s; sf_startedAt := sf_startedAt s;
     sf_cancel := sf_cancel s; sf_done := sf_done s |}.
Definition set_signals (s : shadowForwarder) (cancel : option bool) (done : bool) :=
  {| sf_capture := sf_capture s; sf_queue := sf_queue s; sf_cap := sf_cap s;
     sf_queueClosed := sf_queueClosed s; sf_result := sf_result s; sf_startedAt := sf_startedAt s;
     sf_cancel := cancel; sf_done := done |}.

(** Updates of the fields of a result. *)
Definition set_reason (r : grpcStreamResult) (reason err : string) : grpcStreamResult :=
  {| ProtobufFields := ProtobufFields r; Started := Started r; Complete := Complete r;
     Selected := Selected r; MessageCount := MessageCount r; MessageHash := MessageHash r;
     r_Header := r_Header r; r_Trailer := r_Trailer r; StatusCode := StatusCode r;
     StatusMessage := StatusMessage r; Duration := Duration r; r_Err := err; SkipReason := reason |}.
Definition set_started (r : grpcStreamResult) : grpcStreamResult :=
  {| ProtobufFields := ProtobufFields r; Started := true; Complete := Complete r;
     Selected := Selected r; MessageCount := MessageCount r; MessageHash := MessageHash r;
     r_Header := r_Header r; r_Trailer := r_Trailer r; StatusCode := StatusCode r;
     StatusMessage := StatusMessage r; Duration := Duration r; r_Err := r_Err r;
     SkipReason := SkipReason r |}.

Definition newCompletedShadowForwarder (result : grpcStreamResult) : shadowForwarder :=
  {| sf_capture := None; sf_queue := None; sf_cap := 0; sf_queueClosed := false;
     sf_result := result; sf_startedAt := false; sf_cancel := None; sf_done := true |}.

(** Without the goroutine: [run] is the steps below. *)
Definition newShadowForwarder (targetName : string) (cfg : grpcConfig) (fullMethod : string)
    : shadowForwarder :=
  {| sf_capture := NewProtobufCapture "shadow_response_protobuf"
       (logfields.plr_Response (logfields.ProtobufRule (LogFields cfg) fullMethod));
     sf_queue := Some [];
     sf_cap := Z.to_nat (shadowQueueSize (GRPCShadowQueueSize cfg));
     sf_queueClosed := false;
     sf_result := {| ProtobufFields := []; Started := false; Complete := false;
       Selected := targetName; MessageCount := 0; MessageHash := ""; r_Header := ∅; r_Trailer := ∅;
       StatusCode := codes_OK; StatusMessage := ""; Duration := 0; r_Err := ""; SkipReason := "" |};
     sf_startedAt := true; sf_cancel := Some false; sf_done := false |}.

(** ** Operations *)

Definition markResultLocked (s : shadowForwarder) (reason err : string) : shadowForwarder :=
  let r := sf_result s in
  set_result s (set_reason r
    (if decide (reason <> "" /\ SkipReason r = "") then reason else SkipReason r)
    (if decide (err <> "" /\ r_Err r = "") then err else r_Err r)).
Definition markResult := markResultLocked.

Definition closeQueueLocked (s : shadowForwarder) : shadowForwarder :=
  match sf_queue s with
  | None => s
  | Some q => if sf_queueClosed s then s else set_queue s (Some q) true
  end.
Definition Close (s : shadowForwarder) : shadowForwarder := closeQueueLocked s.

Definition Offer (s : shadowForwarder) (msg : rawMessage) : shadowForwarder :=
  match sf_queue s with
  | None => s
  | Some q =>
      if sf_queueClosed s then s
      else if decide (length q < sf_cap s)%nat
      then set_queue s (Some (q ++ [cloneRawMessage msg])%list) false
      else closeQueueLocked
             (markResultLocked s shadowSkipReasonQueueFull shadowSkipReasonQueueFull)
  end.

Definition cancelShadow (s : shadowForwarder) : shadowForwarder :=
  match sf_cancel s with None => s | Some _ => set_signals s (Some true) (sf_done s) end.

Definition failStart (s : shadowForwarder) (err : error) : shadowForwarder :=
  let reason := if status_Code err =? codes_Unavailable then shadowSkipReasonTargetUnavailable
                else shadowSkipReasonNotStarted in
  Close (markResult s reason (Error err)).

Definition markStarted (s : shadowForwarder) : shadowForwarder :=
  set_result s (set_started (sf_result s)).

Definition mergeReceiveResult (s : shadowForwarder) (received : grpcStreamResult) : shadowForwarder :=
  let r := sf_result s in
  set_result s
    {| ProtobufFields := ProtobufFields r; Started := Started r; Complete := Complete received;
       Selected := Selected r; MessageCount := MessageCount received;
       MessageHash := MessageHash received; r_Header := r_Header received;
       r_Trailer := r_Trailer received; StatusCode := StatusCode received;
       StatusMessage := StatusMessage received; Duration := Duration r;
       r_Err := if decide (r_Err received <> "" /\ r_Err r = "") then r_Err received else r_Err r;
       SkipReason := if decide (SkipReason received <> "" /\ SkipReason r = "")
                     then SkipReason received else SkipReason r |}.

(** Whether forwarding ends with the report, and the state. *)
Definition handleShadowSendError (s : shadowForwarder) (err : option error) : bool * shadowForwarder :=
  match err with
  | None => (false, s)
  | Some e => (true, cancelShadow (markResult s "" (Error e)))
  end.
Definition handleShadowReceiveError (s : shadowForwarder) (result : grpcStreamResult)
    : bool * shadowForwarder :=
  if decide (r_Err result = "") then (false, s)
  else (true, cancelShadow (mergeReceiveResult s result)).

Definition markDurationSince (s : shadowForwarder) (elapsed : Z) : shadowForwarder :=
  set_result s (with_duration (sf_result s) elapsed).
Definition markDuration (s : shadowForwarder) (elapsed : Z) : shadowForwarder :=
  if sf_startedAt s then markDurationSince s elapsed else s.

Definition complete (s : shadowForwarder) : shadowForwarder :=
  set_signals (cancelShadow s) (sf_cancel (cancelShadow s)) true.

Section shadow.
Context `{Unicode}.

(** [capture.Observe]; it does not panic on the selections that the
    configuration accepts ([observe_total]). *)
Definition observe (c : option ProtobufCapture) (m : rawMessage) : option ProtobufCapture :=
  default c (Observe c m).

(** [cloneMetadata] of a result's maps in range order. *)
Definition snapshot (s : shadowForwarder) : grpcStreamResult :=
  let r := sf_result s in
  {| ProtobufFields := Attributes (sf_capture s); Started := Started r; Complete := Complete r;
     Selected := Selected r; MessageCount := MessageCount r; MessageHash := MessageHash r;
     r_Header := cloneMetadata (map_to_list (r_Header r));
     r_Trailer := cloneMetadata (map_to_list (r_Trailer r)); StatusCode := StatusCode r;
     StatusMessage := StatusMessage r; Duration := Duration r; r_Err := r_Err r;
     SkipReason := SkipReason r |}.

(** The branch of the select of [Wait] that is taken: [done] is closed, or
    the timer fired first, [elapsed] after the start. *)
Inductive waited := WaitDone | WaitTimeout (elapsed : Z).

Definition Wait (s : shadowForwarder) (w : waited) : grpcStreamResult * shadowForwarder :=
  match w with
  | WaitDone => (snapshot s, s)
  | WaitTimeout elapsed =>
      let s := markResult s shadowSkipReasonTimeout (Error context_DeadlineExceeded) in
      let s := markDuration s elapsed in
      let s := cancelShadow s in
      (snapshot s, s)
  end.

(** ** [receiveShadowResponses] *)

Definition set_skip (r : grpcStreamResult) (reason : string) : grpcStreamResult :=
  set_reason r reason (r_Err r).

(** The end of the stream with an error that is not [io.EOF]. *)
Definition endedResult (r : grpcStreamResult) (err : error) : grpcStreamResult :=
  let r := setError r (Some err) in
  if errors_Is err context_DeadlineExceeded || (StatusCode r =? codes_DeadlineExceeded)
  then set_skip r shadowSkipReasonTimeout
  else with_complete r (isFinalStatusError (Some err)).

Fixpoint receiveResponses (shadow : clientScript) (header : MD) (msgs : list rawMessage)
    (hasher : option string) (count : Z) : grpcStreamResult :=
  match msgs with
  | [] =>
      let result := startedResult header (cloneMetadata (cs_trailer shadow)) count hasher in
      if errors_Is (cs_end shadow) io_EOF then with_complete result true
      else endedResult result (cs_end shadow)
  | msg :: msgs' => receiveResponses shadow header msgs' (hash_Add hasher msg) (count + 1)
  end.

Definition receiveShadowResponses (shadow : clientScript) : grpcStreamResult :=
  match cs_header shadow with
  | Err err =>
      endedResult (startedResult ∅ (cloneMetadata (cs_trailer shadow)) 0 newMessageHashRecorder) err
  | Ok header =>
      receiveResponses shadow (cloneMetadata header) (cs_messages shadow) newMessageHashRecorder 0
  end.

(** ** [run] and its goroutines *)

(** [sendRequests]: [k] messages given to [SendMsg] so far, or its report. *)
Inductive sender := SendIdle | Sending (k : nat) | SentAll (err : option error).
(** The receiver: [k] messages read so far, or its report. *)
Inductive receiver := RecvIdle | Receiving (k : nat) | Received (result : grpcStreamResult).
(** [run]: before [NewStream]; in [waitForShadowForwarding] with its three
    locals; before the deferred calls; returned. *)
Inductive runner :=
  | RunStart
  | RunWait (sendOpen recvOpen : bool) (recvResult : grpcStreamResult)
  | RunDefer
  | RunReturned.

(** [w_offered], [w_accepted] and [w_sent] record the messages offered, put in
    the queue, and given to the shadow stream; [w_requestsEnded]: the request
    goroutine has closed the forwarder and makes no further offer;
    [w_deadline]: the shadow context has reached its deadline. *)
Record world := {
  w_fwd : shadowForwarder;
  w_shadow : clientScript;
  w_send : sender;
  w_recv : receiver;
  w_run : runner;
  w_requestsEnded : bool;
  w_deadline : bool;
  w_offered : list rawMessage;
  w_accepted : list rawMessage;
  w_sent : list rawMessage
}.

Definition contextDone (w : world) : bool :=
  w_deadline w || bool_decide (sf_cancel (w_fwd w) = Some true).

(** The error of a context that is done. *)
Definition contextErr (w : world) : error :=
  if w_deadline w then context_DeadlineExceeded else context_Canceled.

Definition with_fwd (w : world) (s : shadowForwarder) : world :=
  {| w_fwd := s; w_shadow := w_shadow w; w_send := w_send w; w_recv := w_recv w; w_run := w_run w;
     w_requestsEnded := w_requestsEnded w; w_deadline := w_deadline w; w_offered := w_offered w;
     w_accepted := w_accepted w; w_sent := w_sent w |}.
Definition with_run (w : world) (s : shadowForwarder) (r : runner) : world :=
  {| w_fwd := s; w_shadow := w_shadow w; w_send := w_send w; w_recv := w_recv w; w_run := r;
     w_requestsEnded := w_requestsEnded w; w_deadline := w_deadline w; w_offered := w_offered w;
     w_accepted := w_accepted w; w_sent := w_sent w |}.

(** [Offer] and [Close] of the request goroutine, and the handler's [Wait]. *)
Definition offerTo (w : world) (m : rawMessage) : world :=
  let s := Offer (w_fwd w) m in
  {| w_fwd := s; w_shadow := w_shadow w; w_send := w_send w; w_recv := w_recv w; w_run := w_run w;
     w_requestsEnded := w_requestsEnded w; w_deadline := w_deadline w;
     w_offered := (w_offered w ++ [m])%list;
     w_accepted := if decide (sf_queue s = sf_queue (w_fwd w)) then w_accepted w
                   else (w_accepted w ++ [m])%list;
     w_sent := w_sent w |}.
Definition endRequests (w : world) : world :=
  {| w_fwd := Close (w_fwd w); w_shadow := w_shadow w; w_send := w_send w; w_recv := w_recv w;
     w_run := w_run w; w_requestsEnded := true; w_deadline := w_deadline w;
     w_offered := w_offered w; w_accepted := w_accepted w; w_sent := w_sent w |}.
Definition passDeadline (w : world) : world :=
  {| w_fwd := w_fwd w; w_shadow := w_shadow w; w_send := w_send w; w_recv := w_recv w;
     w_run := w_run w; w_requestsEnded := w_requestsEnded w; w_deadline := true;
     w_offered := w_offered w; w_accepted := w_accepted w; w_sent := w_sent w |}.

(** One turn of the loop of [sendRequests]. *)
Definition sendStep (w : world) : option world :=
  match w_send w, sf_queue (w_fwd w) with
  | Sending k, Some (m :: q) =>
      Some {| w_fwd := set_queue (w_fwd w) (Some q) (sf_queueClosed (w_fwd w));
              w_shadow := w_shadow w;
              w_send := match cs_send (w_shadow w) k with
                        | None => Sending (S k)
                        | Some e => SentAll (if errors_Is e io_EOF then None else Some e)
                        end;
              w_recv := w_recv w; w_run := w_run w; w_requestsEnded := w_requestsEnded w;
              w_deadline := w_deadline w; w_offered := w_offered w; w_accepted := w_accepted w;
              w_sent := (w_sent w ++ [cloneRawMessage m])%list |}
  | Sending k, Some [] =>
      if sf_queueClosed (w_fwd w) then
        Some {| w_fwd := w_fwd w; w_shadow := w_shadow w;
                w_send := SentAll (cs_closeSend (w_shadow w)); w_recv := w_recv w;
                w_run := w_run w; w_requestsEnded := w_requestsEnded w;
                w_deadline := w_deadline w; w_offered := w_offered w;
                w_accepted := w_accepted w; w_sent := w_sent w |}
      else None
  | _, _ => None
  end.

Definition with_recv (w : world) (s : shadowForwarder) (r : receiver) : world :=
  {| w_fwd := s; w_shadow := w_shadow w; w_send := w_send w; w_recv := r; w_run := w_run w;
     w_requestsEnded := w_requestsEnded w; w_deadline := w_deadline w; w_offered := w_offered w;
     w_accepted := w_accepted w; w_sent := w_sent w |}.

(** One message of [receiveShadowResponses] on the capturing stream, or its end. *)
Definition recvStep (w : world) : option world :=
  match w_recv w with
  | Receiving k =>
      match (if is_ok (cs_header (w_shadow w)) then cs_messages (w_shadow w) !! k else None) with
      | Some m => Some (with_recv w (set_capture (w_fwd w) (observe (sf_capture (w_fwd w)) m))
                          (Receiving (S k)))
      | None => Some (with_recv w (w_fwd w) (Received (receiveShadowResponses (w_shadow w))))
      end
  | _ => None
  end.

(** [run]: the start; a turn of [waitForShadowForwarding], where [taken] is
    the branch its select takes; the deferred calls. *)
Inductive branch := TakeSend | TakeRecv | TakeContext.

Definition startStep (w : world) (newStream : option error) : option world :=
  match w_run w with
  | RunStart =>
      match newStream with
      | Some err => Some (with_run w (failStart (w_fwd w) err) RunDefer)
      | None =>
          Some {| w_fwd := markStarted (w_fwd w); w_shadow := w_shadow w; w_send := Sending 0;
                  w_recv := Receiving 0; w_run := RunWait true true zeroStreamResult;
                  w_requestsEnded := w_requestsEnded w; w_deadline := w_deadline w;
                  w_offered := w_offered w; w_accepted := w_accepted w; w_sent := w_sent w |}
      end
  | _ => None
  end.

Definition waitStep (w : world) (taken : branch) : option world :=
  match w_run w with
  | RunWait sendOpen recvOpen recvResult =>
      if negb (sendOpen || recvOpen)
      then Some (with_run w (mergeReceiveResult (w_fwd w) recvResult) RunDefer)
      else
        match taken, w_send w, w_recv w with
        | TakeSend, SentAll err, _ =>
            if sendOpen then
              let '(ended, s) := handleShadowSendError (w_fwd w) err in
              Some (with_run w s (if ended then RunDefer else RunWait false recvOpen recvResult))
            else None
        | TakeRecv, _, Received result =>
            if recvOpen then
              let '(ended, s) := handleShadowReceiveError (w_fwd w) result in
              Some (with_run w s (if ended then RunDefer else RunWait sendOpen false result))
            else None
        | TakeContext, _, _ =>
            if contextDone w then
              Some (with_run w (cancelShadow (markResult (w_fwd w) shadowSkipReasonTimeout
                                                (Error (contextErr w)))) RunDefer)
            else None
        | _, _, _ => None
        end
  | _ => None
  end.

Definition deferStep (w : world) (elapsed : Z) : option world :=
  match w_run w with
  | RunDefer => Some (with_run w (complete (markDurationSince (w_fwd w) elapsed)) RunReturned)
  | _ => None
  end.

(** The steps of [run] and its goroutines. *)
Inductive internal : world -> world -> Prop :=
  | internal_send w w' : sendStep w = Some w' -> internal w w'
  | internal_recv w w' : recvStep w = Some w' -> internal w w'
  | internal_start w newStream w' : startStep w newStream = Some w' -> internal w w'
  | internal_wait w taken w' : waitStep w taken = Some w' -> internal w w'
  | internal_defer w elapsed w' : deferStep w elapsed = Some w' -> internal w w'.

Inductive step : world -> world -> Prop :=
  | step_offer w m : w_requestsEnded w = false -> step w (offerTo w m)
  | step_end w : step w (endRequests w)
  | step_deadline w : step w (passDeadline w)
  | step_wait w waited :
      (waited = WaitDone -> sf_done (w_fwd w) = true) ->
      step w (with_fwd w (Wait (w_fwd w) waited).2)
  | step_internal w w' : internal w w' -> step w w'.

Definition initial (s : shadowForwarder) (shadow : clientScript) : world :=
  {| w_fwd := s; w_shadow := shadow; w_send := SendIdle; w_recv := RecvIdle; w_run := RunStart;
     w_requestsEnded := false; w_deadline := false; w_offered := []; w_accepted := [];
     w_sent := [] |}.

#[export] Instance runner_returned_dec r : Decision (r = RunReturned).
Proof. destruct r; by (left + right). Defined.

(** ** Invariant *)

Definition reason (w : world) : string := SkipReason (sf_result (w_fwd w)).
Definition closed (w : world) : bool := sf_queueClosed (w_fwd w).

(** What the result says of the shadow's answer is its answer. *)
Definition sameAnswer (r answer : grpcStreamResult) : Prop :=
  StatusCode r = StatusCode answer /\ StatusMessage r = StatusMessage answer /\
  MessageCount r = MessageCount answer /\ MessageHash r = MessageHash answer /\
  r_Header r = r_Header answer /\ r_Trailer r = r_Trailer answer /\ Complete answer = true.

Record inv (w : world) : Prop := {
  inv_fifo : exists q, sf_queue (w_fwd w) = Some q /\ w_accepted w = (w_sent w ++ q)%list /\
               (length q <= sf_cap (w_fwd w))%nat;
  inv_prefix : w_accepted w `prefix_of` w_offered w;
  inv_lost : w_accepted w = w_offered w \/ (reason w <> "" /\ closed w = true);
  inv_closed : closed w = true -> w_requestsEnded w = true \/ reason w <> "";
  inv_ended : w_requestsEnded w = true -> closed w = true;
  inv_done : sf_done (w_fwd w) = true <-> w_run w = RunReturned;
  inv_cancel : is_Some (sf_cancel (w_fwd w));
  inv_returned : w_run w = RunReturned -> sf_cancel (w_fwd w) = Some true;
  inv_recv : forall r, w_recv w = Received r -> r = receiveShadowResponses (w_shadow w);
  inv_wait : match w_run w with
             | RunStart => w_send w = SendIdle /\ w_recv w = RecvIdle /\
                           Complete (sf_result (w_fwd w)) = false
             | RunWait sendOpen recvOpen r =>
                 w_send w <> SendIdle /\ w_recv w <> RecvIdle /\
                 (sendOpen = false -> exists e, w_send w = SentAll e) /\
                 (recvOpen = false -> exists r', w_recv w = Received r') /\
                 Complete (sf_result (w_fwd w)) = false /\
                 (recvOpen = false -> r = receiveShadowResponses (w_shadow w))
             | _ => Complete (sf_result (w_fwd w)) = true ->
                    sameAnswer (sf_result (w_fwd w)) (receiveShadowResponses (w_shadow w))
             end
}.

(** ** Lemmas: what each operation keeps *)

Lemma markResult_reason s reason err :
  let r := sf_result (markResultLocked s reason err) in
  SkipReason r = (if decide (SkipReason (sf_result s) = "") then reason else SkipReason (sf_result s)) /\
  r_Err r = (if decide (r_Err (sf_result s) = "") then err else r_Err (sf_result s)).
Proof.
  assert (G : forall x y : string, (if decide (x <> "" /\ y = "") then x else y) = (if decide (y = "") then x else y)).
  { intros x y. destruct (decide (x <> "" /\ y = "")) as [[Hx ->]|N]; [done|].
    destruct (decide (y = "")) as [->|]; [|done]. symmetry. apply dec_stable. tauto. }
  cbn. by rewrite !G.
Qed.

Lemma closeQueueLocked_fields s q :
  sf_queue s = Some q ->
  sf_queue (closeQueueLocked s) = Some q /\ sf_queueClosed (closeQueueLocked s) = true /\
  sf_result (closeQueueLocked s) = sf_result s /\ sf_cap (closeQueueLocked s) = sf_cap s /\
  sf_cancel (closeQueueLocked s) = sf_cancel s /\ sf_done (closeQueueLocked s) = sf_done s.
Proof.
  intros Hq. unfold closeQueueLocked. rewrite Hq. by destruct (sf_queueClosed s) eqn:E.
Qed.

Lemma cancelShadow_fields s b :
  sf_cancel s = Some b ->
  sf_queue (cancelShadow s) = sf_queue s /\ sf_queueClosed (cancelShadow s) = sf_queueClosed s /\
  sf_result (cancelShadow s) = sf_result s /\ sf_cap (cancelShadow s) = sf_cap s /\
  sf_cancel (cancelShadow s) = Some true /\ sf_done (cancelShadow s) = sf_done s.
Proof. intros Hc. unfold cancelShadow. by rewrite Hc. Qed.

(** A full queue: the offer is dropped, the queue closed and the loss recorded. *)
Lemma Offer_cases s q m :
  sf_queue s = Some q ->
  (sf_queueClosed s = true /\ Offer s m = s) \/
  (sf_queueClosed s = false /\ (length q < sf_cap s)%nat /\
   Offer s m = set_queue s (Some (q ++ [m])%list) false) \/
  (sf_queueClosed s = false /\ (sf_cap s <= length q)%nat /\
   sf_queue (Offer s m) = Some q /\ sf_queueClosed (Offer s m) = true /\
   SkipReason (sf_result (Offer s m)) <> "" /\ sf_cap (Offer s m) = sf_cap s /\
   sf_cancel (Offer s m) = sf_cancel s /\ sf_done (Offer s m) = sf_done s /\
   Complete (sf_result (Offer s m)) = Complete (sf_result s) /\
   (forall a, sameAnswer (sf_result s) a -> sameAnswer (sf_result (Offer s m)) a)).
Proof.
  intros Hq. unfold Offer. rewrite Hq. rewrite cloneRawMessage_id.
  destruct (sf_queueClosed s) eqn:Ec; [by left|right].
  destruct (decide (length q < sf_cap s)%nat); [by left|right].
  destruct (closeQueueLocked_fields (markResultLocked s shadowSkipReasonQueueFull shadowSkipReasonQueueFull) q Hq)
    as (H1 & H2 & H3 & H4 & H5 & H6).
  rewrite H1, H2, H3, H4, H5, H6. split_and!; try done; [lia|].
  rewrite (proj1 (markResult_reason s shadowSkipReasonQueueFull shadowSkipReasonQueueFull)).
  by destruct (decide _).
Qed.

Lemma observe_total c m :
  Forall (fun f => f_Path f <> []) (default [] (pb_fields <$> c)) -> is_Some (Observe c m).
Proof.
  intros Hp. unfold Observe. destruct c as [c|]; [|by eexists]. cbn in Hp.
  destruct (pb_seen c); [by eexists|]. destruct (_ <? _); [by eexists|].
  unfold validWireMessage. destruct (validWire_fuel (length (chars m)) (chars m)) as [r ->]; [lia|].
  cbn. destruct (negb r); [by eexists|].
  assert (forall total, is_Some (captureFields (chars m) (pb_fields c) total)) as G.
  { induction Hp as [|f fs Hf _ IH]; intros total; [by eexists|]. cbn [captureFields].
    destruct (protobufValue_total (chars m) (f_Path f) (f_Type f) Hf) as [v ->]. cbn.
    destruct v as [v|]; [|done]. destruct (_ <? _); [done|].
    destruct (IH (total + len (valueString v))) as [l ->]. by eexists. }
  destruct (G 0) as [l ->]. by eexists.
Qed.

Lemma inv_initial cfg targetName fullMethod shadow :
  inv (initial (newShadowForwarder targetName cfg fullMethod) shadow).
Proof.
  split; cbn; try done; try (by left).
  exists []. split_and!; [done..|]. simpl. lia.
Qed.

Lemma offer_inv w m : w_requestsEnded w = false -> inv w -> inv (offerTo w m).
Proof.
  intros He [[q (Hq & Ha & Hl)] I2 I3 I4 I5 I6 I7 I8 I9 I10].
  unfold closed, reason in *.
  assert (Happ : q <> (q ++ [m])%list).
  { intros E. apply (f_equal length) in E. rewrite length_app in E. simpl in E. lia. }
  destruct (Offer_cases (w_fwd w) q m Hq) as [[Ec E]|[(Ec & Hlt & E)|(Ec & Hge & F1 & F2 & F3 & F4 & F5 & F6 & F7 & F8)]].
  - split; unfold closed, reason; cbn; rewrite ?E, ?decide_True by done; try done;
      try solve [eauto | by apply prefix_app_r | by rewrite He].
    right. split; [|done]. by destruct (I4 Ec) as [E'|]; [rewrite E' in He|].
  - split; unfold closed, reason; cbn; rewrite ?E; cbn; rewrite ?Hq;
      rewrite ?(decide_False (P := Some (q ++ [m])%list = Some q)) by congruence; try done.
    + exists (q ++ [m])%list. rewrite Ha, app_assoc. split_and!; [done..|].
      rewrite length_app. simpl. lia.
    + destruct I3 as [->|[_ E']]; [done|by rewrite E' in Ec].
    + destruct I3 as [->|[_ E']]; [by left|by rewrite E' in Ec].
    + by rewrite He.
  - split; unfold closed, reason; cbn; rewrite ?F1, ?F2, ?F4, ?F5, ?F6, ?F7, ?Hq, ?decide_True by done; try done.
    + exists q. by split_and!.
    + by apply prefix_app_r.
    + right. by split.
    + by right.
    + destruct (w_run w); intuition.
Qed.

(** A change of the forwarder that keeps its queue and its answer, and never
    clears its reason. *)
Lemma keep_inv w s r :
  inv w -> sf_queue s = sf_queue (w_fwd w) -> sf_queueClosed s = closed w ->
  sf_cap s = sf_cap (w_fwd w) -> (reason w <> "" -> SkipReason (sf_result s) <> "") ->
  is_Some (sf_cancel s) ->
  (sf_done s = true <-> r = RunReturned) -> (r = RunReturned -> sf_cancel s = Some true) ->
  match r with
  | RunStart => w_send w = SendIdle /\ w_recv w = RecvIdle /\ Complete (sf_result s) = false
  | RunWait sendOpen recvOpen r' =>
      w_send w <> SendIdle /\ w_recv w <> RecvIdle /\
      (sendOpen = false -> exists e, w_send w = SentAll e) /\
      (recvOpen = false -> exists r'', w_recv w = Received r'') /\
      Complete (sf_result s) = false /\
      (recvOpen = false -> r' = receiveShadowResponses (w_shadow w))
  | _ => Complete (sf_result s) = true -> sameAnswer (sf_result s) (receiveShadowResponses (w_shadow w))
  end ->
  inv (with_run w s r).
Proof.
  intros [I1 I2 I3 I4 I5 I6 I7 I8 I9 I10] Hq Hc Hcap Hr Hcan Hd Hrc Hw.
  unfold closed, reason in *.
  split; unfold closed, reason; cbn; rewrite ?Hq, ?Hc, ?Hcap; try done.
  - destruct I3 as [?|[? ?]]; [by left|right; auto].
  - intros ?. destruct I4; auto.
Qed.

Lemma with_fwd_run w s : with_fwd w s = with_run w s (w_run w).
Proof. done. Qed.

Lemma sameAnswer_reason r a rs err : sameAnswer r a -> sameAnswer (set_reason r rs err) a.
Proof. done. Qed.

(** Waiting: the deadline of [Wait] marks the result and cancels. *)
Lemma wait_inv w waited : inv w -> inv (with_fwd w (Wait (w_fwd w) waited).2).
Proof.
  intros Hi. rewrite with_fwd_run. destruct waited as [|elapsed]; cbn [Wait snd].
  { pose proof Hi as []. apply keep_inv; try done. }
  pose proof Hi as [_ _ _ _ _ I6 [b Hb] I8 _ I10].
  unfold markDuration, markResult. set (s1 := markResultLocked _ _ _).
  assert (E1 : SkipReason (sf_result s1) <> "").
  { subst s1. rewrite (proj1 (markResult_reason _ _ _)). by destruct (decide _). }
  destruct (cancelShadow_fields (if sf_startedAt s1 then markDurationSince s1 elapsed else s1) b)
    as (H1 & H2 & H3 & H4 & H5 & H6); [by destruct (sf_startedAt s1)|].
  apply keep_inv; rewrite ?H1, ?H2, ?H3, ?H4, ?H5, ?H6; try done; try (by destruct (sf_startedAt s1));
    try (by eexists).
Qed.

Lemma Close_fields w :
  inv w ->
  sf_queue (Close (w_fwd w)) = sf_queue (w_fwd w) /\ sf_queueClosed (Close (w_fwd w)) = true /\
  sf_result (Close (w_fwd w)) = sf_result (w_fwd w) /\ sf_cap (Close (w_fwd w)) = sf_cap (w_fwd w) /\
  sf_cancel (Close (w_fwd w)) = sf_cancel (w_fwd w) /\ sf_done (Close (w_fwd w)) = sf_done (w_fwd w).
Proof.
  intros [[q (Hq & _)] _ _ _ _ _ _ _ _ _]. rewrite Hq. by apply closeQueueLocked_fields.
Qed.

Lemma end_inv w : inv w -> inv (endRequests w).
Proof.
  intros Hi. destruct (Close_fields w Hi) as (H1 & H2 & H3 & H4 & H5 & H6).
  destruct Hi as [I1 I2 I3 I4 I5 I6 I7 I8 I9 I10]. unfold closed, reason in *.
  split; unfold closed, reason; cbn; rewrite ?H1, ?H2, ?H3, ?H4, ?H5, ?H6; try done; [|by left].
  destruct I3 as [?|[? ?]]; [by left|by right].
Qed.

Lemma send_inv w w' : sendStep w = Some w' -> inv w -> inv w'.
Proof.
  intros Hs [[q (Hq & Ha & Hl)] I2 I3 I4 I5 I6 I7 I8 I9 I10]. unfold closed, reason in *.
  unfold sendStep in Hs. rewrite Hq in Hs.
  destruct (w_send w) as [|k|] eqn:Ew; [done| |done].
  destruct q as [|m q].
  - destruct (sf_queueClosed (w_fwd w)) eqn:Ec; [|done]. injection Hs as <-.
    split; unfold closed, reason; cbn; rewrite ?Hq, ?Ec; try done; [by exists []|].
    destruct (w_run w); try done; [by destruct I10|].
    destruct I10 as (? & ? & ? & ? & ? & ?). split_and!; try done; eauto.
  - injection Hs as <-. rewrite cloneRawMessage_id.
    split; unfold closed, reason; cbn; try done.
    + exists q. split_and!; [done|by rewrite Ha, <-app_assoc|]. simpl in Hl. lia.
    + destruct (w_run w) as [|so ro r| |]; try done; [by destruct I10|].
      destruct I10 as (? & ? & Hso & ? & ? & ?). split_and!; try done; [by destruct (cs_send _ _)|].
      intros Ho. destruct (Hso Ho). done.
Qed.

Lemma recv_inv w w' : recvStep w = Some w' -> inv w -> inv w'.
Proof.
  intros Hs [I1 I2 I3 I4 I5 I6 I7 I8 I9 I10]. unfold closed, reason in *.
  unfold recvStep in Hs. destruct (w_recv w) as [|k|] eqn:Ew; [done| |done].
  assert (Hn : forall r', w_recv w <> Received r') by (intros r'; by rewrite Ew).
  destruct (if is_ok _ then _ else _) as [m|]; injection Hs as <-;
    split; unfold closed, reason; cbn; try done.
  - destruct (w_run w) as [|so ro r| |]; try done; [by destruct I10 as (_ & ? & _)|].
    destruct I10 as (? & ? & ? & Hro & ? & ?). split_and!; try done.
    intros Ho. by destruct (Hro Ho).
  - by intros r [= <-].
  - destruct (w_run w) as [|so ro r| |]; try done; [by destruct I10 as (_ & ? & _)|].
    destruct I10 as (? & ? & ? & Hro & ? & ?). split_and!; try done. eauto.
Qed.

Lemma start_inv w ns w' : startStep w ns = Some w' -> inv w -> inv w'.
Proof.
  intros Hs Hi. unfold startStep in Hs. destruct (w_run w) eqn:Er; try done.
  destruct ns as [err|]; injection Hs as <-.
  2: { destruct Hi as [I1 I2 I3 I4 I5 I6 I7 I8 I9 I10]. rewrite Er in *. unfold closed, reason in *.
       destruct I10 as (_ & _ & ?). split; unfold closed, reason; cbn; try done.
       rewrite I6. done. }
  unfold failStart. set (s := markResult (w_fwd w) _ (Error err)).
  assert (Hr : SkipReason (sf_result s) <> "").
  { unfold s, markResult. rewrite (proj1 (markResult_reason _ _ _)).
    destruct (decide _); [by destruct (status_Code err =? codes_Unavailable)|done]. }
  destruct Hi as [[q (Hq & Ha & Hl)] I2 I3 I4 I5 I6 I7 I8 I9 I10]. rewrite Er in *.
  destruct (closeQueueLocked_fields s q Hq) as (H1 & H2 & H3 & H4 & H5 & H6).
  unfold Close. destruct I10 as (_ & _ & Hc).
  split; unfold closed, reason; cbn; rewrite ?H1, ?H2, ?H3, ?H4, ?H5, ?H6; try done.
  - eauto.
  - by right.
  - by right.
  - cbn. rewrite I6. done.
  - cbn. by rewrite Hc.
Qed.

Lemma ended_run w s :
  inv w -> (exists so ro r, w_run w = RunWait so ro r) ->
  sf_queue s = sf_queue (w_fwd w) -> sf_queueClosed s = closed w -> sf_cap s = sf_cap (w_fwd w) ->
  (reason w <> "" -> SkipReason (sf_result s) <> "") -> is_Some (sf_cancel s) ->
  sf_done s = sf_done (w_fwd w) ->
  (Complete (sf_result s) = true -> sameAnswer (sf_result s) (receiveShadowResponses (w_shadow w))) ->
  inv (with_run w s RunDefer).
Proof.
  intros Hi (so & ro & r & Er) H1 H2 H3 H4 H5 H6 H7. apply keep_inv; try done.
  rewrite H6. destruct Hi as [_ _ _ _ _ I6 _ _ _ _]. rewrite I6, Er. done.
Qed.

Lemma merge_answer s r :
  Complete r = true -> sameAnswer (sf_result (mergeReceiveResult s r)) r.
Proof. intros. by split_and!. Qed.

(** The context branch of the select. *)
Lemma context_inv w :
  inv w -> (exists so ro r, w_run w = RunWait so ro r) ->
  inv (with_run w (cancelShadow (markResult (w_fwd w) shadowSkipReasonTimeout (Error (contextErr w)))) RunDefer).
Proof.
  intros Hi Hrun. pose proof Hi as [_ _ _ _ _ _ [b Hb] _ _ I10].
  unfold markResult. set (s := markResultLocked _ _ _).
  destruct (cancelShadow_fields s b Hb) as (H1 & H2 & H3 & H4 & H5 & H6).
  apply ended_run; rewrite ?H1, ?H2, ?H3, ?H4, ?H5, ?H6; try done.
  - intros _. subst s. rewrite (proj1 (markResult_reason _ _ _)). by destruct (decide _).
  - destruct Hrun as (so & ro & r & Er). rewrite Er in I10. cbn.
    destruct I10 as (_ & _ & _ & _ & -> & _). done.
Qed.

(** The report of the sender. *)
Lemma report_send_inv w err ro r :
  inv w -> w_run w = RunWait true ro r -> w_send w = SentAll err ->
  let '(ended, s) := handleShadowSendError (w_fwd w) err in
  inv (with_run w s (if ended then RunDefer else RunWait false ro r)).
Proof.
  intros Hi Er Ew. pose proof Hi as [_ _ _ _ _ I6 [b Hb] _ _ I10]. rewrite Er in I10, I6.
  destruct I10 as (Hsi & Hri & Hso & Hro & Hcomp & Hrr).
  destruct err as [e|]; cbn [handleShadowSendError].
  - unfold markResult. set (s := markResultLocked _ _ _).
    destruct (cancelShadow_fields s b Hb) as (H1 & H2 & H3 & H4 & H5 & H6).
    apply ended_run; rewrite ?H1, ?H2, ?H3, ?H4, ?H5, ?H6; try done; [by eauto|].
    cbn. by rewrite Hcomp.
  - apply keep_inv; try done; [by rewrite I6|]. split_and!; try done; eauto.
Qed.

(** The report of the receiver. *)
Lemma report_recv_inv w so result r :
  inv w -> w_run w = RunWait so true r -> w_recv w = Received result ->
  let '(ended, s) := handleShadowReceiveError (w_fwd w) result in
  inv (with_run w s (if ended then RunDefer else RunWait so false result)).
Proof.
  intros Hi Er Ew. pose proof Hi as [_ _ _ _ _ I6 [b Hb] _ I9 I10]. rewrite Er in I10, I6.
  destruct I10 as (Hsi & Hri & Hso & Hro & Hcomp & Hrr). pose proof (I9 _ Ew) as Hres.
  unfold handleShadowReceiveError. destruct (decide (r_Err result = "")).
  - apply keep_inv; try done; [by rewrite I6|]. split_and!; try done; eauto.
  - set (s := mergeReceiveResult _ _).
    destruct (cancelShadow_fields s b Hb) as (H1 & H2 & H3 & H4 & H5 & H6).
    apply ended_run; rewrite ?H1, ?H2, ?H3, ?H4, ?H5, ?H6; try done; [by eauto|..].
    + unfold reason. intros Hr. cbn. by destruct (decide _) as [[? ?]|].
    + intros Hc. rewrite <-Hres. by apply merge_answer.
Qed.

Lemma wait_step_inv w taken w' : waitStep w taken = Some w' -> inv w -> inv w'.
Proof.
  intros Hs Hi. unfold waitStep in Hs. destruct (w_run w) as [|so ro r| |] eqn:Er; try done.
  destruct (negb (so || ro)) eqn:Eb.
  { injection Hs as <-. pose proof Hi as [_ _ _ _ _ _ [b Hb] _ _ I10]. rewrite Er in I10.
    destruct so, ro; try done. destruct I10 as (_ & _ & _ & _ & _ & Hrr).
    apply ended_run; try done; [by eauto|..].
    - unfold reason. intros Hr. cbn. by destruct (decide _) as [[? ?]|].
    - rewrite (Hrr eq_refl). intros Hc. by apply merge_answer. }
  destruct taken.
  - destruct (w_send w) as [| |err] eqn:Ew; try done. destruct so; [|done].
    pose proof (report_send_inv w err ro r Hi Er Ew) as G.
    destruct (handleShadowSendError _ _). by injection Hs as <-.
  - destruct (w_recv w) as [| |result] eqn:Ev; try (by destruct (w_send w)).
    assert (Hs' : (if ro then
        (let '(ended, s) := handleShadowReceiveError (w_fwd w) result in
         Some (with_run w s (if ended then RunDefer else RunWait so false result))) else None) = Some w')
      by (by destruct (w_send w)).
    destruct ro; [|done]. pose proof (report_recv_inv w so result r Hi Er Ev) as G.
    destruct (handleShadowReceiveError _ _). by injection Hs' as <-.
  - assert (Hs' : (if contextDone w then
              Some (with_run w (cancelShadow (markResult (w_fwd w) shadowSkipReasonTimeout
                                                (Error (contextErr w)))) RunDefer)
            else None) = Some w') by (by destruct (w_send w), (w_recv w)).
    destruct (contextDone w); [|done]. injection Hs' as <-. apply context_inv; eauto.
Qed.

Lemma defer_inv w elapsed w' : deferStep w elapsed = Some w' -> inv w -> inv w'.
Proof.
  intros Hs Hi. unfold deferStep in Hs. destruct (w_run w) eqn:Er; try done. injection Hs as <-.
  pose proof Hi as [_ _ _ _ _ _ [b Hb] _ _ I10]. rewrite Er in I10. unfold complete.
  set (s := markDurationSince _ _).
  destruct (cancelShadow_fields s b Hb) as (H1 & H2 & H3 & H4 & H5 & H6).
  apply keep_inv; cbn [sf_queue sf_queueClosed sf_cap sf_result sf_cancel sf_done set_signals];
    rewrite ?H1, ?H2, ?H3, ?H4, ?H5, ?H6; try done; by eexists.
Qed.

Lemma shadow_inv_step w w' : inv w -> step w w' -> inv w'.
Proof.
  intros Hi Hs. destruct Hs as [w m He|w|w|w waited _|w w' Hint].
  - by apply offer_inv.
  - by apply end_inv.
  - destruct Hi. by split.
  - by apply wait_inv.
  - destruct Hint; eauto using send_inv, recv_inv, start_inv, wait_step_inv, defer_inv.
Qed.

Lemma inv_reachable s shadow w :
  inv (initial s shadow) -> rtc step (initial s shadow) w -> inv w.
Proof. intros H0 Hr. revert H0. induction Hr; eauto using shadow_inv_step. Qed.

(** ** Progress *)

Definition senderWeight (s : sender) : nat := match s with SentAll _ => 0 | _ => 1 end.
Definition receiverWeight (shadow : clientScript) (r : receiver) : nat :=
  match r with
  | RecvIdle => 1 + length (cs_messages shadow)
  | Receiving k => 1 + (length (cs_messages shadow) - k)
  | Received _ => 0
  end.
Definition runnerWeight (r : runner) : nat :=
  match r with
  | RunStart => 5
  | RunWait so ro _ => 2 + Nat.b2n so + Nat.b2n ro
  | RunDefer => 1
  | RunReturned => 0
  end.
(** What is left to do without further requests. *)
Definition work (w : world) : nat :=
  length (default [] (sf_queue (w_fwd w))) + senderWeight (w_send w) +
  receiverWeight (w_shadow w) (w_recv w) + runnerWeight (w_run w).

Lemma sendStep_work w w' : sendStep w = Some w' -> (work w' < work w)%nat.
Proof.
  unfold sendStep. destruct (w_send w) as [|k|] eqn:Ew; [done| |by destruct (sf_queue (w_fwd w))].
  destruct (sf_queue (w_fwd w)) as [[|m q]|] eqn:Eq; [|intros [= <-]|done].
  - destruct (sf_queueClosed (w_fwd w)); [|done]. intros [= <-].
    unfold work. cbn. rewrite Ew, Eq. cbn. lia.
  - unfold work. cbn. rewrite Ew, Eq. cbn.
    destruct (cs_send (w_shadow w) k) as [e|]; cbn; lia.
Qed.

Lemma recvStep_work w w' : recvStep w = Some w' -> (work w' < work w)%nat.
Proof.
  unfold recvStep. destruct (w_recv w) as [|k|] eqn:Ew; [done| |done].
  destruct (is_ok (cs_header (w_shadow w))).
  2: { intros [= <-]. unfold work. cbn. rewrite Ew. cbn. lia. }
  destruct (cs_messages (w_shadow w) !! k) as [m|] eqn:Em; intros [= <-];
    unfold work; cbn; rewrite Ew; cbn; [|lia].
  apply lookup_lt_Some in Em. lia.
Qed.

Lemma closeQueue_queue s : sf_queue (closeQueueLocked s) = sf_queue s.
Proof. unfold closeQueueLocked. destruct (sf_queue s) eqn:E, (sf_queueClosed s); cbn; congruence. Qed.
Lemma cancel_queue s : sf_queue (cancelShadow s) = sf_queue s.
Proof. unfold cancelShadow. by destruct (sf_cancel s). Qed.

Lemma startStep_work w ns w' :
  startStep w ns = Some w' -> w_send w = SendIdle -> w_recv w = RecvIdle -> (work w' < work w)%nat.
Proof.
  unfold startStep. intros Hs Ew Ev. destruct (w_run w) eqn:Er; try done.
  destruct ns as [err|]; injection Hs as <-; unfold work; cbn; rewrite Ew, Ev, Er; cbn; [|lia].
  unfold failStart, Close. rewrite closeQueue_queue. cbn. lia.
Qed.

Lemma waitStep_work w taken w' : waitStep w taken = Some w' -> (work w' < work w)%nat.
Proof.
  unfold waitStep. destruct (w_run w) as [|so ro r| |] eqn:Er; try done.
  assert (G : forall s r', sf_queue s = sf_queue (w_fwd w) ->
    (runnerWeight r' < runnerWeight (w_run w))%nat -> (work (with_run w s r') < work w)%nat).
  { intros s r' Hq Hr. unfold work. cbn. rewrite Hq. lia. }
  rewrite Er in G. cbn [runnerWeight] in G.
  destruct (negb (so || ro)); [intros [= <-]; apply G; cbn; lia || done|].
  assert (Hctx : (if contextDone w then Some (with_run w (cancelShadow (markResult (w_fwd w)
      shadowSkipReasonTimeout (Error (contextErr w)))) RunDefer) else None) = Some w' -> (work w' < work w)%nat).
  { destruct (contextDone w); [|done]. intros [= <-]. apply G; [by rewrite cancel_queue|cbn; lia]. }
  assert (Hrecv : forall result, (if ro then
      (let '(ended, s) := handleShadowReceiveError (w_fwd w) result in
       Some (with_run w s (if ended then RunDefer else RunWait so false result))) else None) = Some w' ->
      (work w' < work w)%nat).
  { intros result. destruct ro; [|done]. unfold handleShadowReceiveError.
    destruct (decide _); intros [= <-]; apply G; rewrite ?cancel_queue; cbn; lia || done. }
  destruct taken; destruct (w_send w) as [| |err]; destruct (w_recv w) as [| |result]; try done; eauto;
    (destruct so; [|done]); destruct err as [e|]; cbn [handleShadowSendError]; intros [= <-];
    apply G; rewrite ?cancel_queue; cbn; lia || done.
Qed.

Lemma internal_work w w' : inv w -> internal w w' -> (work w' < work w)%nat.
Proof.
  intros Hi Hs. destruct Hs as [w w' Hs|w w' Hs|w ns w' Hs|w t w' Hs|w e w' Hs].
  - by apply sendStep_work.
  - by apply recvStep_work.
  - destruct Hi as [_ _ _ _ _ _ _ _ _ I10]. unfold startStep in Hs.
    destruct (w_run w) eqn:Er; try done. destruct I10 as (? & ? & _).
    apply (startStep_work w ns); [unfold startStep; by rewrite Er|done..].
  - by eapply waitStep_work.
  - unfold deferStep in Hs. destruct (w_run w) eqn:Er; try done. injection Hs as <-.
    unfold work, complete. cbn. rewrite Er. rewrite cancel_queue. cbn. lia.
Qed.

(** Nothing waits for ever once the requests have ended or the context is done. *)
Lemma internal_progress w :
  inv w -> w_run w <> RunReturned -> closed w = true \/ contextDone w = true -> exists w', internal w w'.
Proof.
  intros Hi Hr Hend. pose proof Hi as [[q (Hq & _)] _ _ _ _ _ _ _ _ I10].
  destruct (w_run w) as [|so ro r| |] eqn:Er; [..|done].
  - eexists. eapply (internal_start _ (Some io_EOF)). unfold startStep. by rewrite Er.
  - destruct I10 as (Hsi & Hri & _).
    assert (W : forall t, waitStep w t <> None -> exists w', internal w w').
    { intros t Ht. destruct (waitStep w t) as [w'|] eqn:E; [|done]. exists w'. by econstructor 4. }
    destruct (contextDone w) eqn:Ec.
    { apply (W TakeContext). unfold waitStep. rewrite Er, Ec. by destruct (negb (so || ro)), (w_send w), (w_recv w). }
    destruct Hend as [Hcl|]; [|done]. unfold closed in Hcl.
    destruct ro.
    + destruct (w_recv w) as [|k|result] eqn:Ev; [done| |].
      * destruct (recvStep w) as [w'|] eqn:E; [exists w'; by econstructor 2|].
        unfold recvStep in E. rewrite Ev in E. by destruct (if is_ok _ then _ else _).
      * apply (W TakeRecv). unfold waitStep. rewrite Er, Ev, orb_true_r. cbn [negb].
        destruct (handleShadowReceiveError _ _). by destruct (w_send w).
    + destruct so; [|apply (W TakeSend); unfold waitStep; by rewrite Er].
      destruct (w_send w) as [|k|err] eqn:Ew; [done| |].
      * destruct (sendStep w) as [w'|] eqn:E; [exists w'; by econstructor 1|].
        unfold sendStep in E. rewrite Ew, Hq in E. destruct q; [by rewrite Hcl in E|done].
      * apply (W TakeSend). unfold waitStep. rewrite Er, Ew. cbn [orb negb].
        by destruct (handleShadowSendError _ _).
  - eexists. eapply (internal_defer _ 0). unfold deferStep. by rewrite Er.
Qed.

(** A step of [run] that changes the forwarder by its operations only. *)
Definition grows (s s' : shadowForwarder) : Prop :=
  (sf_queueClosed s = true -> sf_queueClosed s' = true) /\
  (sf_cancel s = Some true -> sf_cancel s' = Some true) /\
  (SkipReason (sf_result s) <> "" -> SkipReason (sf_result s') = SkipReason (sf_result s)) /\
  (r_Err (sf_result s) <> "" -> r_Err (sf_result s') = r_Err (sf_result s)).

Lemma grows_refl s : grows s s.
Proof. done. Qed.
Lemma grows_trans s1 s2 s3 : grows s1 s2 -> grows s2 s3 -> grows s1 s3.
Proof.
  intros (A1 & A2 & A3 & A4) (B1 & B2 & B3 & B4). split_and!; auto.
  - intros E. rewrite B3, A3; [done..|]. by rewrite A3.
  - intros E. rewrite B4, A4; [done..|]. by rewrite A4.
Qed.

Lemma grows_mark s reason err : grows s (markResultLocked s reason err).
Proof.
  destruct (markResult_reason s reason err) as [E1 E2].
  split_and!; [done..| |]; intros Hne; [rewrite E1|rewrite E2]; by rewrite decide_False.
Qed.
Lemma grows_close s : grows s (closeQueueLocked s).
Proof.
  unfold closeQueueLocked. destruct (sf_queue s); [|apply grows_refl].
  destruct (sf_queueClosed s); [apply grows_refl|done].
Qed.
Lemma grows_cancel s : grows s (cancelShadow s).
Proof. unfold cancelShadow. by destruct (sf_cancel s). Qed.
Lemma grows_merge s r : grows s (mergeReceiveResult s r).
Proof.
  split_and!; [done..| |]; cbn; intros Hne; destruct (decide _) as [[_ E]|]; done.
Qed.
Lemma grows_signals s b : grows s (set_signals s (sf_cancel s) b).
Proof. unfold grows. cbn. tauto. Qed.
Lemma grows_duration s d : grows s (markDurationSince s d).
Proof. done. Qed.

Lemma grows_offer s m : grows s (Offer s m).
Proof.
  unfold Offer. destruct (sf_queue s); [|apply grows_refl].
  destruct (sf_queueClosed s) eqn:E; [apply grows_refl|]. destruct (decide _).
  - split_and!; cbn; congruence || done.
  - eapply grows_trans; [apply grows_mark|apply grows_close].
Qed.
Lemma grows_wait s w : grows s (Wait s w).2.
Proof.
  destruct w as [|elapsed]; [apply grows_refl|]. cbn [Wait snd]. unfold markDuration, markResult.
  eapply grows_trans; [apply grows_mark|]. eapply grows_trans; [|apply grows_cancel].
  destruct (sf_startedAt _); [apply grows_duration|apply grows_refl].
Qed.

Lemma grows_internal w w' : internal w w' -> grows (w_fwd w) (w_fwd w') /\ w_deadline w' = w_deadline w.
Proof.
  intros Hs. destruct Hs as [w w' Hs|w w' Hs|w ns w' Hs|w t w' Hs|w e w' Hs].
  - unfold sendStep in Hs. destruct (w_send w), (sf_queue (w_fwd w)) as [[|m q]|]; try done.
    + destruct (sf_queueClosed (w_fwd w)); [|done]. by injection Hs as <-.
    + by injection Hs as <-.
  - unfold recvStep in Hs. destruct (w_recv w); try done.
    by destruct (if is_ok _ then _ else _); injection Hs as <-.
  - unfold startStep in Hs. destruct (w_run w); try done.
    destruct ns as [err|]; injection Hs as <-; (split; [|done]); cbn; [|done].
    eapply grows_trans; [apply grows_mark|apply grows_close].
  - unfold waitStep in Hs. destruct (w_run w) as [|so ro r| |]; try done.
    destruct (negb (so || ro)); [injection Hs as <-; split; [apply grows_merge|done]|].
    assert (G : forall s r', Some (with_run w s r') = Some w' -> grows (w_fwd w) s ->
      grows (w_fwd w) (w_fwd w') /\ w_deadline w' = w_deadline w) by (by intros s r' [= <-]).
    assert (Hctx : (if contextDone w then Some (with_run w (cancelShadow (markResult (w_fwd w)
      shadowSkipReasonTimeout (Error (contextErr w)))) RunDefer) else None) = Some w' ->
      grows (w_fwd w) (w_fwd w') /\ w_deadline w' = w_deadline w).
    { destruct (contextDone w); [|done]. intros E. eapply G; [done|].
      eapply grows_trans; [apply grows_mark|apply grows_cancel]. }
    assert (Hrecv : forall result, (if ro then
      (let '(ended, s) := handleShadowReceiveError (w_fwd w) result in
       Some (with_run w s (if ended then RunDefer else RunWait so false result))) else None) = Some w' ->
      grows (w_fwd w) (w_fwd w') /\ w_deadline w' = w_deadline w).
    { intros result. destruct ro; [|done]. unfold handleShadowReceiveError. destruct (decide _);
        intros E; (eapply G; [done|]); [apply grows_refl|].
      eapply grows_trans; [apply grows_merge|apply grows_cancel]. }
    destruct t; destruct (w_send w) as [| |err]; destruct (w_recv w) as [| |result]; try done; eauto;
      (destruct so; [|done]); destruct err as [e|]; cbn [handleShadowSendError] in Hs;
      (eapply G; [done|]); try apply grows_refl;
      (eapply grows_trans; [apply grows_mark|apply grows_cancel]).
  - unfold deferStep in Hs. destruct (w_run w); try done. injection Hs as <-. split; [|done].
    cbn [w_fwd with_run]. unfold complete.
    apply (grows_trans _ _ _ (grows_duration (w_fwd w) e)).
    apply (grows_trans _ _ _ (grows_cancel (markDurationSince (w_fwd w) e))). apply grows_signals.
Qed.

Lemma grows_step w w' : step w w' -> grows (w_fwd w) (w_fwd w').
Proof.
  intros Hs. destruct Hs as [w m He|w|w|w waited _|w w' Hint]; cbn [w_fwd offerTo endRequests passDeadline with_fwd].
  - apply grows_offer.
  - apply grows_close.
  - apply grows_refl.
  - apply grows_wait.
  - by apply grows_internal.
Qed.

Lemma internal_ended w w' :
  internal w w' -> closed w = true \/ contextDone w = true -> closed w' = true \/ contextDone w' = true.
Proof.
  intros [(G1 & G2 & _) Hd]%grows_internal [Hc|Hc]; [left; by apply G1|right].
  unfold contextDone in *. rewrite Hd. destruct (w_deadline w); [done|]. cbn in *.
  apply bool_decide_eq_true in Hc. by apply bool_decide_eq_true, G2.
Qed.

Lemma internal_run w w' :
  rtc internal w w' -> inv w -> closed w = true \/ contextDone w = true ->
  inv w' /\ (closed w' = true \/ contextDone w' = true).
Proof.
  intros Hr. induction Hr as [|w w1 w2 Hs _ IH]; intros Hi He; [done|].
  apply IH; [by eapply shadow_inv_step, step_internal|by eapply internal_ended].
Qed.

Lemma step_shadow w w' : step w w' -> w_shadow w' = w_shadow w.
Proof.
  intros Hs. destruct Hs as [w m He|w|w|w waited _|w w' Hint]; [done..|].
  destruct Hint as [w w' Hs|w w' Hs|w ns w' Hs|w t w' Hs|w e w' Hs].
  - unfold sendStep in Hs. destruct (w_send w), (sf_queue (w_fwd w)) as [[|m q]|]; try done.
    + destruct (sf_queueClosed (w_fwd w)); [|done]. by injection Hs as <-.
    + by injection Hs as <-.
  - unfold recvStep in Hs. destruct (w_recv w); try done.
    by destruct (if is_ok _ then _ else _); injection Hs as <-.
  - unfold startStep in Hs. destruct (w_run w); try done. by destruct ns; injection Hs as <-.
  - unfold waitStep in Hs. destruct (w_run w) as [|so ro r| |]; try done.
    destruct (negb (so || ro)); [by injection Hs as <-|].
    destruct t, (w_send w), (w_recv w), so, ro; try done;
      try (destruct (handleShadowSendError _ _)); try (destruct (handleShadowReceiveError _ _));
      try (destruct (contextDone w)); try done; by injection Hs as <-.
  - unfold deferStep in Hs. destruct (w_run w); try done. by injection Hs as <-.
Qed.

Lemma w_shadow_reachable s shadow w : rtc step (initial s shadow) w -> w_shadow w = shadow.
Proof.
  revert w. apply rtc_ind_r; [done|]. intros w w' _ Hs IH. rewrite <-IH. by apply step_shadow.
Qed.

(** ** Specification: a lossy FIFO queue

    Messages offered are kept in order up to a bound; from the first loss, or
    from the end of the offers, on nothing more is taken. *)
Record lossyQueue := { lq_pending : list rawMessage; lq_delivered : list rawMessage; lq_open : bool }.
Inductive label := Offered (m : rawMessage) | Delivered (m : rawMessage) | Ended | Silent.

Inductive lossy_step (cap : nat) : lossyQueue -> label -> lossyQueue -> Prop :=
  | lossy_accept p d m : (length p < cap)%nat ->
      lossy_step cap {| lq_pending := p; lq_delivered := d; lq_open := true |} (Offered m)
                     {| lq_pending := p ++ [m]; lq_delivered := d; lq_open := true |}
  | lossy_overflow p d m : (cap <= length p)%nat ->
      lossy_step cap {| lq_pending := p; lq_delivered := d; lq_open := true |} (Offered m)
                     {| lq_pending := p; lq_delivered := d; lq_open := false |}
  | lossy_ignored p d m :
      lossy_step cap {| lq_pending := p; lq_delivered := d; lq_open := false |} (Offered m)
                     {| lq_pending := p; lq_delivered := d; lq_open := false |}
  | lossy_deliver p d m o :
      lossy_step cap {| lq_pending := m :: p; lq_delivered := d; lq_open := o |} (Delivered m)
                     {| lq_pending := p; lq_delivered := d ++ [m]; lq_open := o |}
  | lossy_end p d o :
      lossy_step cap {| lq_pending := p; lq_delivered := d; lq_open := o |} Ended
                     {| lq_pending := p; lq_delivered := d; lq_open := false |}
  | lossy_silent s : lossy_step cap s Silent s.

Inductive lossy_run (cap : nat) : lossyQueue -> list label -> lossyQueue -> Prop :=
  | lossy_nil s : lossy_run cap s [] s
  | lossy_snoc s1 s2 s3 ls l :
      lossy_run cap s1 ls s2 -> lossy_step cap s2 l s3 -> lossy_run cap s1 (ls ++ [l]) s3.

Definition offersOf (ls : list label) : list rawMessage :=
  ls ≫= fun l => match l with Offered m => [m] | _ => [] end.
Definition deliveriesOf (ls : list label) : list rawMessage :=
  ls ≫= fun l => match l with Delivered m => [m] | _ => [] end.

Definition abstract (w : world) : lossyQueue :=
  {| lq_pending := default [] (sf_queue (w_fwd w)); lq_delivered := w_sent w;
     lq_open := negb (closed w) |}.

(** One step of the program is one step of the specification that shows the
    same offers and deliveries. *)
Definition simulated (w w' : world) : Prop :=
  exists l, lossy_step (sf_cap (w_fwd w)) (abstract w) l (abstract w') /\
    w_offered w' = (w_offered w ++ offersOf [l])%list /\
    w_sent w' = (w_sent w ++ deliveriesOf [l])%list /\ sf_cap (w_fwd w') = sf_cap (w_fwd w).

Lemma simulated_silent w w' :
  sf_queue (w_fwd w') = sf_queue (w_fwd w) -> closed w' = closed w ->
  sf_cap (w_fwd w') = sf_cap (w_fwd w) -> w_offered w' = w_offered w -> w_sent w' = w_sent w ->
  simulated w w'.
Proof.
  intros H1 H2 H3 H4 H5. exists Silent. unfold abstract. rewrite H1, H2, H3, H4, H5.
  cbn. rewrite !app_nil_r. split_and!; [constructor|done..].
Qed.

Lemma simulated_ended w w' q :
  sf_queue (w_fwd w) = Some q ->
  sf_queue (w_fwd w') = sf_queue (w_fwd w) -> closed w' = true ->
  sf_cap (w_fwd w') = sf_cap (w_fwd w) -> w_offered w' = w_offered w -> w_sent w' = w_sent w ->
  simulated w w'.
Proof.
  intros Hq H1 H2 H3 H4 H5. exists Ended. unfold abstract. rewrite H1, H2, H3, H4, H5.
  cbn. rewrite !app_nil_r. split_and!; [constructor|done..].
Qed.

Definition sameQueue (s s' : shadowForwarder) : Prop :=
  sf_queue s' = sf_queue s /\ sf_queueClosed s' = sf_queueClosed s /\ sf_cap s' = sf_cap s.

Lemma sameQueue_cancel s0 s : sameQueue s0 s -> sameQueue s0 (cancelShadow s).
Proof. unfold cancelShadow. by destruct (sf_cancel s). Qed.

Lemma sameQueue_wait s w : sameQueue s (Wait s w).2.
Proof.
  destruct w as [|elapsed]; [done|]. cbn [Wait snd]. apply sameQueue_cancel.
  unfold markDuration. by destruct (sf_startedAt _).
Qed.

Lemma sameQueue_waitStep w t w' :
  waitStep w t = Some w' ->
  sameQueue (w_fwd w) (w_fwd w') /\ w_offered w' = w_offered w /\ w_sent w' = w_sent w.
Proof.
  unfold waitStep. destruct (w_run w) as [|so ro r| |]; try done.
  set (P := sameQueue (w_fwd w) (w_fwd w') /\ w_offered w' = w_offered w /\ w_sent w' = w_sent w).
  assert (G : forall s r', Some (with_run w s r') = Some w' -> sameQueue (w_fwd w) s -> P)
    by (by intros s r' [= <-]).
  destruct (negb (so || ro)); [intros E; by eapply G|].
  assert (Hctx : (if contextDone w then Some (with_run w (cancelShadow (markResult (w_fwd w)
    shadowSkipReasonTimeout (Error (contextErr w)))) RunDefer) else None) = Some w' -> P).
  { destruct (contextDone w); [|done]. intros E. eapply G; [done|]. by apply sameQueue_cancel. }
  assert (Hrecv : forall result, (if ro then
    (let '(ended, s) := handleShadowReceiveError (w_fwd w) result in
     Some (with_run w s (if ended then RunDefer else RunWait so false result))) else None) = Some w' -> P).
  { intros result. destruct ro; [|done]. unfold handleShadowReceiveError. destruct (decide _);
      intros E; (eapply G; [done|]); [done|by apply sameQueue_cancel]. }
  destruct t; destruct (w_send w) as [| |err]; destruct (w_recv w) as [| |result]; try done; eauto;
    (destruct so; [|done]); destruct err as [e|]; cbn [handleShadowSendError]; intros E;
    (eapply G; [done|]); first [done|by apply sameQueue_cancel].
Qed.

Lemma simulated_offer w m : inv w -> w_requestsEnded w = false -> simulated w (offerTo w m).
Proof.
  intros [[q (Hq & Ha & Hl)] _ _ _ _ _ _ _ _ _] He. exists (Offered m).
  unfold abstract, closed. cbn [offersOf deliveriesOf offerTo w_fwd w_sent w_offered].
  rewrite app_nil_r.
  destruct (Offer_cases (w_fwd w) q m Hq) as [[Ec E]|[(Ec & Hlt & E)|(Ec & Hge & F1 & F2 & _ & F4 & _)]].
  - rewrite E, Ec. split_and!; [constructor|done..].
  - rewrite E, Ec, Hq. cbn. split_and!; [by constructor|done..].
  - rewrite F1, F2, F4, Ec, Hq. cbn. split_and!; [by constructor|done..].
Qed.

Lemma simulated_internal w w' : inv w -> internal w w' -> simulated w w'.
Proof.
  intros Hi Hs. pose proof Hi as [[q (Hq & _)] _ _ _ _ _ _ _ _ _].
  destruct Hs as [w w' Hs|w w' Hs|w ns w' Hs|w t w' Hs|w e w' Hs].
  - unfold sendStep in Hs. rewrite Hq in Hs. destruct (w_send w) as [|k|]; [done| |done].
    destruct q as [|m q].
    + destruct (sf_queueClosed (w_fwd w)); [|done]. injection Hs as <-. by apply simulated_silent.
    + rewrite cloneRawMessage_id in Hs. injection Hs as <-. exists (Delivered m).
      unfold abstract, closed. cbn. rewrite Hq, app_nil_r. cbn. split_and!; [constructor|done..].
  - unfold recvStep in Hs. destruct (w_recv w); try done.
    by destruct (if is_ok _ then _ else _); injection Hs as <-; apply simulated_silent.
  - unfold startStep in Hs. destruct (w_run w); try done.
    destruct ns as [err|]; injection Hs as <-; [|by apply simulated_silent].
    unfold failStart. set (s := markResult (w_fwd w) _ _).
    destruct (closeQueueLocked_fields s q Hq) as (H1 & H2 & _ & H4 & _).
    apply (simulated_ended _ _ q Hq); unfold Close; cbn; by rewrite ?H1, ?Hq.
  - apply sameQueue_waitStep in Hs as ((H1 & H2 & H3) & H4 & H5). by apply simulated_silent.
  - unfold deferStep in Hs. destruct (w_run w); try done. injection Hs as <-.
    assert (sameQueue (w_fwd w) (complete (markDurationSince (w_fwd w) e))) as (H1 & H2 & H3).
    { unfold complete. apply (sameQueue_cancel (w_fwd w) (markDurationSince (w_fwd w) e)). done. }
    by apply simulated_silent.
Qed.

Lemma simulated_step w w' : inv w -> step w w' -> simulated w w'.
Proof.
  intros Hi Hs. destruct Hs as [w m He|w|w|w waited _|w w' Hint].
  - by apply simulated_offer.
  - destruct (Close_fields w Hi) as (H1 & H2 & _ & H4 & _).
    destruct Hi as [[q (Hq & _)] _ _ _ _ _ _ _ _ _]. by apply (simulated_ended _ _ q).
  - by apply simulated_silent.
  - destruct (sameQueue_wait (w_fwd w) waited) as (H1 & H2 & H3). by apply simulated_silent.
  - by apply simulated_internal.
Qed.

Lemma offersOf_app l k : offersOf (l ++ k) = (offersOf l ++ offersOf k)%list.
Proof. apply bind_app. Qed.
Lemma deliveriesOf_app l k : deliveriesOf (l ++ k) = (deliveriesOf l ++ deliveriesOf k)%list.
Proof. apply bind_app. Qed.

(** ** Theorems *)

(** C20. The shadow stream refines a lossy FIFO queue: every interleaving of
    the request goroutine, the forwarding goroutines, deadlines and waits shows
    the offers and deliveries of a run of the specification with the effective
    queue size as its bound (the configured size, or 128). *)
Theorem shadow_refines_lossy cfg targetName fullMethod shadow w :
  rtc step (initial (newShadowForwarder targetName cfg fullMethod) shadow) w ->
  exists ls, offersOf ls = w_offered w /\ deliveriesOf ls = w_sent w /\
    lossy_run (Z.to_nat (shadowQueueSize (GRPCShadowQueueSize cfg)))
      {| lq_pending := []; lq_delivered := []; lq_open := true |} ls (abstract w).
Proof.
  intros Hr. set (cap := Z.to_nat _).
  cut (inv w /\ sf_cap (w_fwd w) = cap /\ exists ls, offersOf ls = w_offered w /\
    deliveriesOf ls = w_sent w /\
    lossy_run cap {| lq_pending := []; lq_delivered := []; lq_open := true |} ls (abstract w)).
  { by intros (_ & _ & ?). }
  revert w Hr. apply rtc_ind_r.
  { split; [apply inv_initial|]. split; [done|]. exists []. split_and!; [done..|constructor]. }
  intros w w' _ Hs (Hi & Hc & ls & H1 & H2 & H3).
  split; [by eapply shadow_inv_step|].
  destruct (simulated_step w w' Hi Hs) as (l & Hl & Ho & Hd & Hc').
  split; [congruence|]. exists (ls ++ [l])%list. rewrite offersOf_app, deliveriesOf_app, H1, H2.
  split_and!; [done..|]. econstructor; [done|]. by rewrite <-Hc.
Qed.

(** In every reachable state: the shadow was given a prefix of the
    messages offered to it, in order; sent and queued messages together are
    all that was accepted; the queue holds at most the configured number; a
    message is lost only with a recorded reason, which keeps the comparison
    from a verdict; and a result that is complete and without reason carries
    exactly the shadow's final answer. *)
Theorem shadow_stream_inv cfg targetName fullMethod shadow w :
  rtc step (initial (newShadowForwarder targetName cfg fullMethod) shadow) w ->
  let r := sf_result (w_fwd w) in
  let queue := default [] (sf_queue (w_fwd w)) in
  w_sent w `prefix_of` w_offered w /\
  (w_sent w ++ queue)%list `prefix_of` w_offered w /\
  (length queue <= sf_cap (w_fwd w))%nat /\
  (SkipReason r = "" -> (w_sent w ++ queue)%list = w_offered w) /\
  (Complete r = true -> sameAnswer r (receiveShadowResponses shadow)) /\
  (sf_done (w_fwd w) = true <-> w_run w = RunReturned).
Proof.
  intros Hr. pose proof (inv_reachable _ _ _ (inv_initial cfg targetName fullMethod shadow) Hr)
    as [[q (Hq & Ha & Hl)] I2 I3 I4 I5 I6 I7 I8 I9 I10].
  assert (Hshadow : w_shadow w = shadow) by (by eapply (w_shadow_reachable _ _ _ Hr)).
  cbv zeta. rewrite Hq. change (default [] (Some q)) with q. rewrite <-Ha. split_and!; try done.
  - transitivity (w_accepted w); [|done]. rewrite Ha. by apply prefix_app_r.
  - intros Hn. destruct I3 as [?|[E _]]; [done|]. by destruct (E Hn).
  - intros Hc. rewrite <-Hshadow. destruct (w_run w); [| |by apply I10..].
    + destruct I10 as (_ & _ & E). by rewrite E in Hc.
    + destruct I10 as (_ & _ & _ & _ & E & _). by rewrite E in Hc.
Qed.

(** C21. The shadow always ends.  Once the client's requests have ended or the
    shadow's context is done, the forwarding goroutines cannot run for ever:
    every sequence of their steps is bounded by the work left, none of them
    ever waits for nothing, and every maximal sequence ends with [done]
    closed and the stream cancelled, whatever the shadow answers. *)
Theorem shadow_terminates cfg targetName fullMethod shadow w :
  rtc step (initial (newShadowForwarder targetName cfg fullMethod) shadow) w ->
  closed w = true \/ contextDone w = true ->
  (forall n w', nsteps internal n w w' -> (n <= work w)%nat) /\
  (forall w', rtc internal w w' -> (forall w'', ~ internal w' w'') ->
     sf_done (w_fwd w') = true /\ sf_cancel (w_fwd w') = Some true) /\
  exists w', rtc internal w w' /\ sf_done (w_fwd w') = true.
Proof.
  intros Hr Hend.
  pose proof (inv_reachable _ _ _ (inv_initial cfg targetName fullMethod shadow) Hr) as Hi.
  clear Hr. split_and!.
  - intros n w' Hn. revert Hi. clear Hend. induction Hn as [w|n w w1 w2 Hs _ IH]; intros Hi; [lia|].
    pose proof (internal_work _ _ Hi Hs). specialize (IH (shadow_inv_step _ _ Hi (step_internal _ _ Hs))). lia.
  - intros w' Hrun Hmax. destruct (internal_run _ _ Hrun Hi Hend) as [Hi' Hend'].
    destruct (decide (w_run w' = RunReturned)) as [E|E].
    + pose proof Hi' as [_ _ _ _ _ I6 _ I8 _ _]. split; [by apply I6|by apply I8].
    + destruct (internal_progress w' Hi' E Hend') as [w'' Hs]. by destruct (Hmax w'').
  - remember (work w) as n eqn:En. revert w En Hi Hend.
    induction n as [n IH] using lt_wf_ind; intros w -> Hi Hend.
    destruct (decide (w_run w = RunReturned)) as [E|E].
    { exists w. split; [done|]. by apply Hi. }
    destruct (internal_progress w Hi E Hend) as [w1 Hs].
    destruct (IH (work w1) (internal_work _ _ Hi Hs) w1 eq_refl) as (w' & Hrun & Hd).
    + by eapply shadow_inv_step, step_internal.
    + by eapply internal_ended.
    + exists w'. split; [by eapply rtc_l|done].
Qed.

(** The first reason and the first error win: no later event, and no
    waiting, replaces a reason or an error the shadow's result already has; a
    wait that times out leaves a reason and cancels the stream, and then the
    result it returns is not compared. *)
Theorem shadow_reason_first w w' elapsed :
  step w w' ->
  let r := sf_result (w_fwd w) in
  (SkipReason r <> "" -> SkipReason (sf_result (w_fwd w')) = SkipReason r) /\
  (r_Err r <> "" -> r_Err (sf_result (w_fwd w')) = r_Err r) /\
  let '(seen, s) := Wait (w_fwd w) (WaitTimeout elapsed) in
  SkipReason seen = (if decide (SkipReason r = "") then shadowSkipReasonTimeout else SkipReason r) /\
  (sf_cancel (w_fwd w) <> None -> sf_cancel s = Some true) /\
  incompleteShadowCompareError seen <> "".
Proof.
  intros Hs. destruct (grows_step _ _ Hs) as (_ & _ & G3 & G4). split_and!; [done..|].
  cbn [Wait]. unfold markResult. set (s1 := markResultLocked _ _ _).
  assert (E1 : SkipReason (sf_result s1) =
    (if decide (SkipReason (sf_result (w_fwd w)) = "") then shadowSkipReasonTimeout
     else SkipReason (sf_result (w_fwd w)))) by apply markResult_reason.
  assert (E2 : sf_result (cancelShadow (markDuration s1 elapsed)) =
    sf_result (markDuration s1 elapsed)) by (unfold cancelShadow; by destruct (sf_cancel _)).
  assert (E3 : SkipReason (sf_result (markDuration s1 elapsed)) = SkipReason (sf_result s1))
    by (unfold markDuration; by destruct (sf_startedAt s1)).
  assert (E4 : SkipReason (snapshot (cancelShadow (markDuration s1 elapsed))) = SkipReason (sf_result s1))
    by (by rewrite <-E3, <-E2).
  split_and!; [by rewrite E4| |].
  - intros Hc. assert (Hc' : sf_cancel (markDuration s1 elapsed) = sf_cancel (w_fwd w))
      by (unfold markDuration; by destruct (sf_startedAt s1)).
    unfold cancelShadow. rewrite Hc'. by destruct (sf_cancel (w_fwd w)).
  - intros (E & _)%incomplete_spec. rewrite E4, E1 in E. by destruct (decide _).
Qed.
End shadow.

(** ** Witnesses: one message offered to a queue of one *)

Definition exampleForwarder : shadowForwarder :=
  newShadowForwarder "s1" (exampleGRPCConfig "status" 1) "/svc/M".
Definition exampleWorld : world := initial exampleForwarder (exampleUpstream ["r"] io_EOF).

Lemma shadow_refines_lossy_witness :
  let U := asciiUnicode in
  exists ls, offersOf ls = ["a"; "b"] /\ deliveriesOf ls = [] /\
    lossy_run 1 {| lq_pending := []; lq_delivered := []; lq_open := true |} ls
      {| lq_pending := ["a"]; lq_delivered := []; lq_open := false |}.
Proof.
  intros U.
  apply (shadow_refines_lossy (exampleGRPCConfig "status" 1) "s1" "/svc/M" (exampleUpstream ["r"] io_EOF)
    (offerTo (offerTo exampleWorld "a") "b")).
  eapply rtc_l; [by apply step_offer|]. eapply rtc_l; [by apply step_offer|]. apply rtc_refl.
Defined.

Lemma shadow_stream_inv_witness :
  let U := asciiUnicode in
  let r := sf_result (w_fwd (offerTo (offerTo exampleWorld "a") "b")) in
  SkipReason r = shadowSkipReasonQueueFull /\ [] `prefix_of` ["a"; "b"].
Proof.
  intros U r. split; [reflexivity|].
  destruct (shadow_stream_inv (exampleGRPCConfig "status" 1) "s1" "/svc/M" (exampleUpstream ["r"] io_EOF)
    (offerTo (offerTo exampleWorld "a") "b")) as (H & _); [|exact H].
  eapply rtc_l; [by apply step_offer|]. eapply rtc_l; [by apply step_offer|]. apply rtc_refl.
Defined.

Lemma shadow_terminates_witness :
  let U := asciiUnicode in
  closed (endRequests (offerTo exampleWorld "a")) = true /\
  exists w', rtc internal (endRequests (offerTo exampleWorld "a")) w' /\ sf_done (w_fwd w') = true.
Proof.
  intros U. split; [reflexivity|].
  destruct (shadow_terminates (exampleGRPCConfig "status" 1) "s1" "/svc/M" (exampleUpstream ["r"] io_EOF)
    (endRequests (offerTo exampleWorld "a"))) as (_ & _ & H).
  - eapply rtc_l; [by apply step_offer|]. eapply rtc_l; [by apply step_end|]. apply rtc_refl.
  - left. reflexivity.
  - exact H.
Defined.

Lemma shadow_reason_first_witness :
  let U := asciiUnicode in
  let w := offerTo (offerTo exampleWorld "a") "b" in
  SkipReason (sf_result (w_fwd (offerTo w "c"))) = SkipReason (sf_result (w_fwd w)).
Proof.
  intros U w.
  destruct (shadow_reason_first w (offerTo w "c") 0) as (H & _); [by apply step_offer|].
  apply H. discriminate.
Defined.
End grpcshadow.
