(* ===== verification/GrpcReport.v ===== *)
(** * [internal/grpcproxy/observability.go], [logging.go]: what is reported of an RPC

    Labels, metric results, the ends of spans and the log record of one RPC,
    together with [finishSpan] of shadow.go.  The exporters and [log/slog] are
    outputs: a report is the list of what is handed to them. *)
From S2P Require Export Observability Targets GrpcShadow.

Module grpcreport.
Import grpcrules targets logging protobuf logfields grpcmetadata grpcstream grpccompare grpcshadow.

Definition callerAuthCauseAttribute : string := "doppelgaenger.caller_auth.cause".

(** [grpcRPCContext], without the start time. *)
Record grpcRPCContext := {
  rx_requestFields : Attr;
  rx_requestProtobuf : option ProtobufCapture;
  rx_responseProtobuf : option ProtobufCapture;
  rx_reqID : Z;
  rx_traceID : string;
  rx_remote : string;
  rx_fullMethod : string;
  rx_outcome : string;
  rx_spanErr : option string;
  rx_primaryStatus : Z;
  rx_callerAuthCause : string;
  rx_shadowEnabled : bool;
  rx_shadowStarted : bool
}.

(** What the metrics and spans are given; a span ends with attributes, the
    description of its error status, if set, and its error. *)
Inductive observation :=
  | ObserveIngressRequest (method outcome shadow started : string)
  | ObserveBackendRequest (target method status result : string) (duration : Z)
  | ObserveComparison (result : string)
  | EndSpan (name : string) (attrs : list Attr) (status : option string) (err : option string).

(** ** Labels *)

Definition grpcIngressOutcome (err : option error) : string :=
  match err with
  | None => OutcomeOK
  | Some e =>
      if status_Code e =? codes_DeadlineExceeded then OutcomeTimeout
      else if isFinalStatusError err then OutcomePrimaryError
      else OutcomeError
  end.

Definition grpcStatusLabel (code : Z) : string := Code_String code.

(** [failed]: the error argument is not nil. *)
Definition grpcBackendMetricResult (result : grpcStreamResult) (failed : bool) : string :=
  if decide (SkipReason result = shadowSkipReasonQueueFull) then ResultQueueFull
  else if decide (SkipReason result = shadowSkipReasonTimeout) then ResultTimeout
  else if failed || negb (bool_decide (r_Err result = "")) then
    if negb (StatusCode result =? codes_OK) && Complete result then ResultStatusCode else ResultError
  else if negb (StatusCode result =? codes_OK) then ResultStatusCode
  else ResultOK.

Definition grpcComparisonMetricResult (result : grpcCompareResult) : string :=
  if decide (Outcome result = grpcCompareOutcomeSame) then ResultSame
  else if decide (Outcome result = grpcCompareOutcomeDiff) then ResultDiff
  else if decide (Outcome result = grpcCompareOutcomeError) then ResultError
  else if decide (Outcome result = grpcCompareOutcomeSkipped) then ResultSkipped
  else ResultError.

(** The description given to [span.SetStatus], when it is called. *)
Definition spanStatus (spanErr : option string) (code : Z) : option string :=
  match spanErr with
  | Some e => Some e
  | None => if code =? codes_OK then None else Some (Code_String code)
  end.

(** ** The context of an RPC *)

Section report.
Context `{Unicode}.

(** [incoming.Get] of the incoming metadata; [remote] is the peer's address,
    empty without one. *)
Definition newRPCContext (cfg : grpcConfig) (incoming : MD) (remote : string) (reqID : Z)
    (fullMethod : string) : grpcRPCContext :=
  let rule := ProtobufRule (LogFields cfg) fullMethod in
  {| rx_requestFields := SelectedFields "request_metadata" (RequestMetadata (LogFields cfg)) (md_Get incoming);
     rx_requestProtobuf := NewProtobufCapture "request_protobuf" (plr_Request rule);
     rx_responseProtobuf := NewProtobufCapture "primary_response_protobuf" (plr_Response rule);
     rx_reqID := reqID; rx_traceID := ""; rx_remote := remote; rx_fullMethod := fullMethod;
     rx_outcome := OutcomeOK; rx_spanErr := None; rx_primaryStatus := codes_OK;
     rx_callerAuthCause := ""; rx_shadowEnabled := false; rx_shadowStarted := false |}.

Definition with_trace (r : grpcRPCContext) (traceID : string) : grpcRPCContext :=
  {| rx_requestFields := rx_requestFields r; rx_requestProtobuf := rx_requestProtobuf r;
     rx_responseProtobuf := rx_responseProtobuf r; rx_reqID := rx_reqID r; rx_traceID := traceID;
     rx_remote := rx_remote r; rx_fullMethod := rx_fullMethod r; rx_outcome := rx_outcome r;
     rx_spanErr := rx_spanErr r; rx_primaryStatus := rx_primaryStatus r;
     rx_callerAuthCause := rx_callerAuthCause r; rx_shadowEnabled := rx_shadowEnabled r;
     rx_shadowStarted := rx_shadowStarted r |}.
Definition with_captures (r : grpcRPCContext) (request response : option ProtobufCapture) : grpcRPCContext :=
  {| rx_requestFields := rx_requestFields r; rx_requestProtobuf := request;
     rx_responseProtobuf := response; rx_reqID := rx_reqID r; rx_traceID := rx_traceID r;
     rx_remote := rx_remote r; rx_fullMethod := rx_fullMethod r; rx_outcome := rx_outcome r;
     rx_spanErr := rx_spanErr r; rx_primaryStatus := rx_primaryStatus r;
     rx_callerAuthCause := rx_callerAuthCause r; rx_shadowEnabled := rx_shadowEnabled r;
     rx_shadowStarted := rx_shadowStarted r |}.
(** The assignments of an ending: outcome, error and primary status. *)
Definition with_outcome (r : grpcRPCContext) (outcome : string) (spanErr : option string) (code : Z)
    : grpcRPCContext :=
  {| rx_requestFields := rx_requestFields r; rx_requestProtobuf := rx_requestProtobuf r;
     rx_responseProtobuf := rx_responseProtobuf r; rx_reqID := rx_reqID r; rx_traceID := rx_traceID r;
     rx_remote := rx_remote r; rx_fullMethod := rx_fullMethod r; rx_outcome := outcome;
     rx_spanErr := spanErr; rx_primaryStatus := code;
     rx_callerAuthCause := rx_callerAuthCause r; rx_shadowEnabled := rx_shadowEnabled r;
     rx_shadowStarted := rx_shadowStarted r |}.
Definition with_cause (r : grpcRPCContext) (cause : string) : grpcRPCContext :=
  {| rx_requestFields := rx_requestFields r; rx_requestProtobuf := rx_requestProtobuf r;
     rx_responseProtobuf := rx_responseProtobuf r; rx_reqID := rx_reqID r; rx_traceID := rx_traceID r;
     rx_remote := rx_remote r; rx_fullMethod := rx_fullMethod r; rx_outcome := rx_outcome r;
     rx_spanErr := rx_spanErr r; rx_primaryStatus := rx_primaryStatus r;
     rx_callerAuthCause := cause; rx_shadowEnabled := rx_shadowEnabled r;
     rx_shadowStarted := rx_shadowStarted r |}.
Definition with_shadow (r : grpcRPCContext) (enabled started : bool) : grpcRPCContext :=
  {| rx_requestFields := rx_requestFields r; rx_requestProtobuf := rx_requestProtobuf r;
     rx_responseProtobuf := rx_responseProtobuf r; rx_reqID := rx_reqID r; rx_traceID := rx_traceID r;
     rx_remote := rx_remote r; rx_fullMethod := rx_fullMethod r; rx_outcome := rx_outcome r;
     rx_spanErr := rx_spanErr r; rx_primaryStatus := rx_primaryStatus r;
     rx_callerAuthCause := rx_callerAuthCause r; rx_shadowEnabled := enabled;
     rx_shadowStarted := started |}.

(** ** Observations; [hasObs]: the handler has an [*Observability] *)

(** The function [startGRPCObservation] returns. *)
Definition finishGRPCObservation (hasObs : bool) (r : grpcRPCContext) : list observation :=
  if negb hasObs then []
  else
    [ObserveIngressRequest (rx_fullMethod r) (rx_outcome r) (BoolLabel (rx_shadowEnabled r))
       (BoolLabel (rx_shadowStarted r));
     EndSpan ("gRPC " +:+ rx_fullMethod r)
       ([("rpc.grpc.status_code", StringValue (Code_String (rx_primaryStatus r)));
         (LabelOutcome, StringValue (rx_outcome r));
         (LabelShadow, StringValue (BoolLabel (rx_shadowEnabled r)));
         (LabelShadowStarted, StringValue (BoolLabel (rx_shadowStarted r)))]
        ++ (if decide (rx_callerAuthCause r = "") then []
            else [(callerAuthCauseAttribute, StringValue (rx_callerAuthCause r))]))%list
       (spanStatus (rx_spanErr r) (rx_primaryStatus r)) (rx_spanErr r)].

Definition backendSpanAttrs (result : grpcStreamResult) (failed : bool) : list Attr :=
  [("rpc.grpc.status_code", StringValue (grpcStatusLabel (StatusCode result)));
   (LabelStatus, StringValue (grpcStatusLabel (StatusCode result)));
   (LabelResult, StringValue (grpcBackendMetricResult result failed))].

Definition errorFromStreamResult (result : grpcStreamResult) : option string :=
  if decide (r_Err result = "") then None else Some (r_Err result).

Definition finishBackendObservation (hasObs : bool) (targetLabel fullMethod : string)
    (result : grpcStreamResult) (err : option error) : list observation :=
  if negb hasObs then []
  else
    let failed := bool_decide (is_Some err) in
    let spanErr := match err with Some e => Some (Error e) | None => errorFromStreamResult result end in
    [ObserveBackendRequest targetLabel fullMethod (grpcStatusLabel (StatusCode result))
       (grpcBackendMetricResult result failed) (Duration result);
     EndSpan ("gRPC " +:+ targetLabel +:+ " " +:+ fullMethod) (backendSpanAttrs result failed)
       (spanStatus spanErr (StatusCode result)) spanErr].

Definition finishShadowObservation (hasObs : bool) (fullMethod : string) (result : grpcStreamResult)
    : list observation :=
  if negb hasObs || negb (Started result) then []
  else [ObserveBackendRequest "shadow" fullMethod (grpcStatusLabel (StatusCode result))
          (grpcBackendMetricResult result false) (Duration result)].

Definition finishComparisonObservation (hasObs : bool) (result : grpcCompareResult) : list observation :=
  if negb hasObs then [] else [ObserveComparison (grpcComparisonMetricResult result)].

(** [finishSpan] of a forwarder that started a span: [hasSpan]. *)
Definition finishSpan (hasSpan : bool) (fullMethod : string) (result : grpcStreamResult) : list observation :=
  if negb hasSpan then []
  else [EndSpan ("gRPC shadow " +:+ fullMethod) (backendSpanAttrs result false)
          (spanStatus (errorFromStreamResult result) (StatusCode result)) (errorFromStreamResult result)].

(** ** [wrappedServerStream]: the messages its captures see *)

Definition observeAll (c : option ProtobufCapture) (msgs : list rawMessage) : option ProtobufCapture :=
  foldl observe c msgs.
(** Every message received is then sent to the primary. *)
Definition received (ops : list requestOp) : list rawMessage :=
  omap (fun op => match op with OpSendPrimary m => Some m | _ => None end) ops.
(** [SendMsg] observes before it sends. *)
Definition answered (ops : list responseOp) : list rawMessage :=
  omap (fun op => match op with OpSendClient m => Some m | _ => None end) ops.
Definition captureStreams (r : grpcRPCContext) (requests : list requestOp) (responses : list responseOp)
    : grpcRPCContext :=
  with_captures r (observeAll (rx_requestProtobuf r) (received requests))
                  (observeAll (rx_responseProtobuf r) (answered responses)).

(** ** The log record *)

Definition durationMillis (duration : Z) : Z := if duration <=? 0 then 0 else duration `quot` millisecond.

Definition shouldSuppressRPCLog (cfg : grpcConfig) (primary shadow : grpcStreamResult)
    (compare : grpcCompareResult) : bool :=
  if negb (LogOnlyOnDiff cfg) then false
  else negb (Diff compare) && bool_decide (cr_Err compare = "") &&
       bool_decide (r_Err primary = "") && bool_decide (r_Err shadow = "").

Definition grpcBaseLogAttributes (r : grpcRPCContext) (fullMethod : string) (d : Decision) : list Attr :=
  [("event", StringValue "grpc_proxy"); ("req_id", Uint64Value (rx_reqID r));
   ("trace_id", StringValue (rx_traceID r)); ("remote", StringValue (rx_remote r));
   ("protocol", StringValue ProtocolName); ("full_method", StringValue fullMethod);
   ("service", StringValue (Service d)); ("method", StringValue (Method d));
   ("grpc_rule", StringValue (RuleName d))].

Definition ShadowMode_string (m : ShadowMode) : string :=
  match m with
  | ShadowModeInherit => "inherit"
  | ShadowModeAuto => "auto"
  | ShadowModeNever => "never"
  | ShadowModeAlways => "always"
  end.

Definition grpcShadowDecisionLogAttributes (sd : grpcShadowPolicyDecision) (shadow : grpcStreamResult)
    (d : Decision) : list Attr :=
  [("shadow_enabled", BoolValue (doShadow sd)); ("shadow_forced", BoolValue (forced sd));
   ("shadow_started", BoolValue (Started shadow));
   ("shadow_mode", StringValue (ShadowMode_string (d_ShadowMode d)));
   ("shadow_skip_reason", StringValue (SkipReason shadow))].

Definition grpcPrimaryLogAttributes (target : option Target) (primary : grpcStreamResult) : list Attr :=
  [("primary_selected", StringValue (match target with Some t => t_Name t | None => "" end));
   ("primary_status", StringValue (Code_String (StatusCode primary)));
   ("primary_status_message", StringValue (StatusMessage primary));
   ("primary_messages", Int64Value (MessageCount primary));
   ("primary_message_count", Int64Value (MessageCount primary));
   ("primary_message_hash", StringValue (streamMessageHash primary));
   ("primary_dur_ms", Int64Value (durationMillis (Duration primary)))].

Definition grpcShadowResultLogAttributes (shadow : grpcStreamResult) : list Attr :=
  let shadowStatus :=
    if negb (Started shadow) && (StatusCode shadow =? codes_OK) && negb (bool_decide (r_Err shadow = ""))
    then codes_Unavailable else StatusCode shadow in
  [("shadow_selected", StringValue (Selected shadow));
   ("shadow_status", StringValue (Code_String shadowStatus));
   ("shadow_status_message", StringValue (StatusMessage shadow));
   ("shadow_messages", Int64Value (MessageCount shadow));
   ("shadow_message_count", Int64Value (MessageCount shadow));
   ("shadow_message_hash", StringValue (streamMessageHash shadow));
   ("shadow_dur_ms", Int64Value (durationMillis (Duration shadow)));
   ("shadow_err", StringValue (r_Err shadow))].

Definition grpcCompareLogAttributes (compare : grpcCompareResult) : list Attr :=
  [("compare_mode", StringValue (cr_Mode compare)); ("compare_enabled", BoolValue (Enabled compare));
   ("compare_outcome", StringValue (Outcome compare));
   ("compare_skip_reason", StringValue (cr_SkipReason compare)); ("diff", BoolValue (Diff compare));
   ("diffs", StringsValue (Diffs compare)); ("compare_err", StringValue (cr_Err compare))].

(** A record: level, message, attributes. *)
Record logRecord := { lr_level : Z; lr_msg : string; lr_attrs : list Attr }.

(** [enabled level] is [logger.Enabled]; [None] without a logger. *)
Definition logRPCResult (cfg : grpcConfig) (enabled : option (Z -> bool)) (r : grpcRPCContext)
    (fullMethod : string) (d : Decision) (target : option Target) (sd : grpcShadowPolicyDecision)
    (primary shadow : grpcStreamResult) (compare : grpcCompareResult) : list logRecord :=
  match enabled with
  | None => []
  | Some enabled =>
      if shouldSuppressRPCLog cfg primary shadow compare then []
      else
        let level := ResultLevel (Diff compare)
          (negb (bool_decide (r_Err shadow = "")) || negb (bool_decide (cr_Err compare = "")))
          (negb (bool_decide (r_Err primary = ""))) in
        if negb (enabled level) then []
        else
          let shadowFields := match ProtobufFields shadow with
            | [] => Attributes (NewProtobufCapture "shadow_response_protobuf"
                      (plr_Response (ProtobufRule (LogFields cfg) fullMethod)))
            | fields => fields
            end in
          let selected group md := SelectedFields group (ResponseMetadata (LogFields cfg)) (md_Get md) in
          [{| lr_level := level; lr_msg := "grpc_proxy";
              lr_attrs := (grpcBaseLogAttributes r fullMethod d
                ++ Attributes (rx_requestProtobuf r) ++ Attributes (rx_responseProtobuf r) ++ shadowFields
                ++ [rx_requestFields r;
                    selected "primary_response_metadata" (r_Header primary);
                    selected "shadow_response_metadata" (r_Header shadow);
                    selected "primary_trailer_metadata" (r_Trailer primary);
                    selected "shadow_trailer_metadata" (r_Trailer shadow)]
                ++ grpcShadowDecisionLogAttributes sd shadow d
                ++ grpcPrimaryLogAttributes target primary
                ++ grpcShadowResultLogAttributes shadow
                ++ grpcCompareLogAttributes compare)%list |}]
  end.
End report.
End grpcreport.
