(* ===== verification/ShadowWorker.v ===== *)
(** * [internal/milterproxy/shadow_worker.go]: the shadow queue of one milter
    connection

    The worker goroutine and the connection reader share the bounded queue.
    They are the steps of a transition relation: a submission, one turn of the
    worker's loop, a close, and the end of the loop.  Every interleaving of the
    two goroutines is a path of it.  [onComplete] is recorded in the history. *)
From S2P Require Export Milterproxy.

Module worker.
Import protocol.

Definition milterShadowQueueCapacity : nat := 64.

Record milterShadowWork := { wk_event : Event; wk_primary : Response }.

Section worker.
Context {S : Type} `{TestSession S}.
Context (comparator : option Comparator).

(** [w_session]: the open session; [w_unavailable]: the local flag of [run];
    [w_done]: the channel [done] is closed. *)
Record milterShadowWorker := {
  w_queue : list milterShadowWork;
  w_closed : bool;
  w_session : option S;
  w_unavailable : bool;
  w_done : bool
}.

Definition newMilterShadowWorker : milterShadowWorker :=
  {| w_queue := []; w_closed := false; w_session := None; w_unavailable := false; w_done := false |}.

Definition Submit (w : milterShadowWorker) (work : milterShadowWork) : bool * milterShadowWorker :=
  if w_closed w then (false, w)
  else if decide (length (w_queue w) < milterShadowQueueCapacity)%nat then
    (true, {| w_queue := w_queue w ++ [work]; w_closed := w_closed w; w_session := w_session w;
              w_unavailable := w_unavailable w; w_done := w_done w |})
  else
    (false, {| w_queue := w_queue w; w_closed := true; w_session := w_session w;
               w_unavailable := w_unavailable w; w_done := w_done w |}).

(** The first half of [Close]; the second waits for [w_done]. *)
Definition Close (w : milterShadowWorker) : milterShadowWorker :=
  {| w_queue := w_queue w; w_closed := true; w_session := w_session w;
     w_unavailable := w_unavailable w; w_done := w_done w |}.

Definition primaryOnly (primary : Response) : RunResult :=
  {| rr_Primary := primary; rr_Shadow := zeroResponse; rr_ShadowStarted := false;
     rr_ShadowOK := false; rr_ShadowErr := ""; rr_Compare := zeroCompareResult;
     rr_CompareErr := None |}.

(** One turn of the loop of [run] on [work]: [opened] is what [NewSession]
    answers when it is called, [ctxDone] the shadow deadline.  The result,
    whether the event was sent, the session and the flag afterwards. *)
Definition processWork (opened : res S) (ctxDone : option error) (session : option S)
    (unavailable : bool) (work : milterShadowWork) : RunResult * bool * option S * bool :=
  if unavailable then (primaryOnly (wk_primary work), false, session, true)
  else
    let run s :=
      let '(result, s) := RunShadowEvent comparator s (wk_event work) ctxDone (wk_primary work) in
      if decide (rr_ShadowErr result = "") then (result, true, Some s, false)
      else (result, true, None, true) in
    match session with
    | Some s => run s
    | None =>
        match opened with
        | Err _ => (primaryOnly (wk_primary work), false, None, true)
        | Ok s => run s
        end
    end.

(** What has been accepted, completed and sent so far. *)
Record history := {
  accepted : list milterShadowWork;
  completed : list (milterShadowWork * RunResult);
  sent : list Event
}.
Definition emptyHistory : history := {| accepted := []; completed := []; sent := [] |}.

Definition runStep (opened : res S) (ctxDone : option error) (wh : milterShadowWorker * history)
    : option (milterShadowWorker * history) :=
  let '(w, h) := wh in
  match w_queue w with
  | [] => None
  | work :: queue =>
      let '(result, wasSent, session, unavailable) :=
        processWork opened ctxDone (w_session w) (w_unavailable w) work in
      Some ({| w_queue := queue; w_closed := w_closed w; w_session := session;
               w_unavailable := unavailable; w_done := w_done w |},
            {| accepted := accepted h; completed := completed h ++ [(work, result)];
               sent := if wasSent then sent h ++ [wk_event work] else sent h |})
  end.

(** [n] turns of the worker, each with its own answers. *)
Fixpoint drain (n : nat) (openings : nat -> res S) (deadlines : nat -> option error)
    (wh : milterShadowWorker * history) : milterShadowWorker * history :=
  match n with
  | O => wh
  | Datatypes.S n' =>
      match runStep (openings 0%nat) (deadlines 0%nat) wh with
      | None => wh
      | Some wh' => drain n' (fun k => openings (Datatypes.S k)) (fun k => deadlines (Datatypes.S k)) wh'
      end
  end.

Inductive step : milterShadowWorker * history -> milterShadowWorker * history -> Prop :=
  | step_submit w h work b w' :
      Submit w work = (b, w') ->
      step (w, h)
        (w', if b then {| accepted := accepted h ++ [work]; completed := completed h; sent := sent h |}
             else h)
  | step_run wh opened ctxDone wh' : runStep opened ctxDone wh = Some wh' -> step wh wh'
  | step_close w h : step (w, h) (Close w, h)
  | step_done w h :
      w_queue w = [] -> w_closed w = true ->
      step (w, h) ({| w_queue := []; w_closed := true; w_session := None;
                      w_unavailable := w_unavailable w; w_done := true |}, h).

(** ** Specification and lemmas *)

Definition events (l : list (milterShadowWork * RunResult)) : list Event := wk_event <$> l.*1.

Record inv (wh : milterShadowWorker * history) : Prop := {
  inv_fifo : accepted wh.2 = (completed wh.2).*1 ++ w_queue wh.1;
  inv_bound : (length (w_queue wh.1) <= milterShadowQueueCapacity)%nat;
  inv_prefix : sent wh.2 `prefix_of` events (completed wh.2);
  inv_all : w_unavailable wh.1 = false -> sent wh.2 = events (completed wh.2);
  inv_unavailable : w_unavailable wh.1 = true -> w_session wh.1 = None;
  inv_primary : Forall (fun wr => rr_Primary wr.2 = wk_primary wr.1) (completed wh.2);
  inv_done : w_done wh.1 = true -> w_closed wh.1 = true /\ w_queue wh.1 = []
}.

Lemma processWork_primary opened ctxDone session unavailable work result wasSent session' unavailable' :
  processWork opened ctxDone session unavailable work = (result, wasSent, session', unavailable') ->
  rr_Primary result = wk_primary work /\
  (unavailable = true -> wasSent = false /\ unavailable' = true /\ session' = session) /\
  (wasSent = false -> unavailable' = true) /\
  (unavailable' = true -> unavailable = false -> session' = None).
Proof.
  unfold processWork. destruct unavailable; [by intros [= <- <- <- <-]|].
  assert (forall s, rr_Primary (RunShadowEvent comparator s (wk_event work) ctxDone (wk_primary work)).1
    = wk_primary work) as HP.
  { intros s. unfold RunShadowEvent.
    match goal with |- context [runShadow s ?e ?c ?r] =>
      pose proof (runShadow_primary s e c r) as [E _]; destruct (runShadow s e c r) as [r1 s1] end.
    simpl in *. by rewrite (proj1 (compareResponses_keeps comparator r1)). }
  assert (forall s, (let '(result, s) := RunShadowEvent comparator s (wk_event work) ctxDone (wk_primary work) in
      if decide (rr_ShadowErr result = "") then (result, true, Some s, false)
      else (result, true, None, true)) = (result, wasSent, session', unavailable') ->
    rr_Primary result = wk_primary work /\ wasSent = true /\ (unavailable' = true -> session' = None)) as Hrun.
  { intros s. specialize (HP s). destruct (RunShadowEvent _ _ _ _ _) as [r s1]. simpl in HP.
    by case_decide; intros [= <- <- <- <-]. }
  destruct session as [s|]; [|destruct opened as [s|e]; [|by intros [= <- <- <- <-]]];
    intros (H1 & -> & H2)%Hrun; split_and!; try done; auto.
Qed.

Lemma inv_step wh wh' : inv wh -> step wh wh' -> inv wh'.
Proof.
  intros Hi Hstep. pose proof Hi as [I1 I2 I3 I4 I5 I6 I7].
  destruct Hstep as [w h work b w' HS|[w h] opened ctxDone wh' HR|w h|w h Hq Hc]; simpl in *.
  - unfold Submit in HS. destruct (w_closed w) eqn:Ec; [by injection HS as <- <-|].
    case_decide; injection HS as <- <-.
    2: { split; simpl; try done. intros Hd. destruct (I7 Hd). congruence. }
    split; simpl; try done.
    + by rewrite I1, app_assoc.
    + rewrite length_app. simpl. lia.
    + intros Hd. destruct (I7 Hd) as [Hc _]. congruence.
  - destruct (w_queue w) as [|work queue] eqn:Eq; [done|].
    destruct (processWork _ _ _ _ _) as [[[result wasSent] session'] unavailable'] eqn:Ep.
    injection HR as <-. apply processWork_primary in Ep as (P1 & P2 & P3 & P4).
    assert (forall l, events (l ++ [(work, result)]) = events l ++ [wk_event work]) as Hev.
    { intros l. unfold events. by rewrite !fmap_app. }
    destruct (w_unavailable w) eqn:Eu.
    + destruct (P2 eq_refl) as (-> & -> & ->).
      split; simpl; rewrite ?fmap_app, ?Hev; try done.
      * by rewrite I1, <-app_assoc.
      * simpl in I2. lia.
      * by apply prefix_app_r.
      * apply Forall_app. split; [done|]. by constructor.
      * intros Hd. by destruct (I7 Hd).
    + rewrite (I4 eq_refl) in *. split; simpl; rewrite ?fmap_app, ?Hev; try done.
      * by rewrite I1, <-app_assoc.
      * simpl in I2. lia.
      * destruct wasSent; [done|by apply prefix_app_r].
      * intros Hu. destruct wasSent; [done|]. rewrite P3 in Hu by done. done.
      * intros Hu. by apply P4.
      * apply Forall_app. split; [done|]. by constructor.
      * intros Hd. by destruct (I7 Hd).
  - split; simpl; try done. intros Hd. split; [done|]. by apply I7.
  - split; simpl; try done; [by rewrite I1, Hq|]. lia.
Qed.

Lemma reachable_init : inv (newMilterShadowWorker, emptyHistory).
Proof. split; simpl; try done. lia. Qed.

(** C27. In every state the goroutines can reach: what was accepted is what
    was completed followed by what is queued, in order, so accepted frames
    complete exactly once and first in first out; the queue holds at most 64;
    the shadow session received a prefix of the completed frames, all of them
    while it is available, so it never sees a frame after a missing one; once
    unavailable it has no session; every completion carries its own primary
    response; and the worker ends only closed with an empty queue. *)
Theorem reachable_inv wh :
  rtc step (newMilterShadowWorker, emptyHistory) wh -> inv wh.
Proof.
  intros Hr. pose proof reachable_init as H0. revert H0. induction Hr as [wh|wh1 wh2 wh3 Hs _ IH]; [done|]. intros H1.
  by eapply IH, inv_step.
Qed.

Lemma runStep_total opened ctxDone w h work queue :
  w_queue w = work :: queue ->
  exists w' h', runStep opened ctxDone (w, h) = Some (w', h') /\ w_queue w' = queue /\
    w_closed w' = w_closed w /\ accepted h' = accepted h.
Proof.
  intros E. unfold runStep. rewrite E.
  destruct (processWork _ _ _ _ _) as [[[r b] s] u]. eexists _, _. by split_and!.
Qed.

Lemma drain_spec n openings deadlines wh :
  length (w_queue wh.1) = n -> inv wh -> w_closed wh.1 = true ->
  let wh' := drain n openings deadlines wh in
  rtc step wh wh' /\ inv wh' /\ w_closed wh'.1 = true /\ w_queue wh'.1 = [] /\
  accepted wh'.2 = accepted wh.2.
Proof.
  revert openings deadlines wh. induction n as [|n IH]; intros openings deadlines [w h] Hn Hi Hc.
  { simpl in *. split_and!; [constructor|done|done|by apply nil_length_inv|done]. }
  destruct (w_queue w) as [|work queue] eqn:E; simpl in Hn; rewrite E in Hn; [done|].
  destruct (runStep_total (openings 0%nat) (deadlines 0%nat) w h work queue E)
    as (w' & h' & HR & Hq & Hc' & Ha).
  cbn [drain]. rewrite HR.
  assert (step (w, h) (w', h')) as Hs by by econstructor.
  destruct (IH (fun k => openings (Datatypes.S k)) (fun k => deadlines (Datatypes.S k)) (w', h'))
    as (H1 & H2 & H3 & H4 & H5).
  - simpl. rewrite Hq. by injection Hn.
  - by eapply inv_step.
  - simpl. by rewrite Hc'.
  - split_and!; try done; [by eapply rtc_l|]. simpl in *. by rewrite H5.
Qed.

(** [Close] terminates: from any reachable state, once closed, the worker
    can take its turns whatever the shadow answers, one per queued frame, and
    then it ends, with every accepted frame completed; after the close, and
    after a submission that found the queue full, no frame is accepted. *)
Theorem close_drains wh (openings : nat -> res S) (deadlines : nat -> option error) work :
  rtc step (newMilterShadowWorker, emptyHistory) wh ->
  let closed := (Close wh.1, wh.2) in
  let drained := drain (length (w_queue wh.1)) openings deadlines closed in
  rtc step closed drained /\ w_queue drained.1 = [] /\
  (completed drained.2).*1 = accepted wh.2 /\
  (exists ended, step drained ended /\ w_done ended.1 = true) /\
  (Submit (Close wh.1) work).1 = false /\
  ((Submit wh.1 work).1 = false -> forall later, (Submit (Submit wh.1 work).2 later).1 = false).
Proof.
  intros Hr closed drained.
  assert (inv wh) as Hi.
  { revert Hr. apply rtc_ind_r; [exact reachable_init|intros; by eapply inv_step]. }
  assert (inv closed) as Hc by (eapply inv_step; [done|]; destruct wh; constructor).
  destruct (drain_spec (length (w_queue wh.1)) openings deadlines closed) as (H1 & H2 & H3 & H4 & H5);
    [done..|]. fold drained in H1, H2, H3, H4, H5.
  split_and!; try done.
  - destruct H2 as [Hf _ _ _ _ _ _]. rewrite H4, app_nil_r in Hf. by rewrite <-Hf, H5.
  - destruct drained as [w h]. eexists. split; [by apply step_done|done].
  - unfold Submit. destruct (w_closed wh.1) eqn:E; [intros _ later; simpl; by rewrite E|].
    by case_decide.
Qed.
End worker.

(** A session for closed examples that accepts every event. *)
Definition exampleSession : TestSession unit :=
  {| Send := fun s _ => (None, s); Receive := fun s => ((zeroResponse, None), s) |}.
Definition exampleWork : milterShadowWork :=
  {| wk_event := exampleEvent protocolMilter {["command" := "E"]}; wk_primary := zeroResponse |}.

Lemma reachable_inv_witness :
  let H := exampleSession in
  let w := (Submit (S := unit) newMilterShadowWorker exampleWork).2 in
  inv (w, {| accepted := [exampleWork]; completed := []; sent := [] |}).
Proof.
  intros H w. apply (reachable_inv (S := unit) None).
  eapply rtc_l; [|apply rtc_refl].
  apply (step_submit None newMilterShadowWorker emptyHistory exampleWork true). reflexivity.
Defined.

Lemma close_drains_witness :
  let H := exampleSession in
  let w := (Submit (S := unit) newMilterShadowWorker exampleWork).2 in
  let h := {| accepted := [exampleWork]; completed := []; sent := [] |} in
  (completed (drain None 1 (fun _ => Ok tt) (fun _ => None) (Close w, h)).2).*1 = [exampleWork].
Proof.
  intros H w h.
  destruct (close_drains (S := unit) None (w, h) (fun _ => Ok tt) (fun _ => None) exampleWork)
    as (_ & _ & E & _).
  - eapply rtc_l; [|apply rtc_refl].
    apply (step_submit None newMilterShadowWorker emptyHistory exampleWork true). reflexivity.
  - exact E.
Defined.
End worker.
