(* ===== verification/MilterHandler.v ===== *)
(** * [internal/milterproxy/handler.go]: serving one milter connection

    The shadow worker runs beside the loop: [ShadowQueue] is what the loop
    needs of it, and [evolve] whatever the worker's goroutine does between two
    frames.  Request ids come from a counter all connections share: [reqID] is
    what its [Add] returns at each frame. *)
From S2P Require Export ShadowWorker.

Module milterhandler.
Import protocol milter logging macros worker.

Definition shadowNotStarted : string := "shadow_not_started".
Definition milterMetaCommand : string := "command".

(** ** Sampling *)

(** [lockedRand.Intn]: the value and the next seed. *)
Definition lockedRand_Intn (seed n : Z) : Z * Z :=
  let seed := u64 (seed * 2862933555777941757 + 3037000493) in
  (i64 (Z.shiftr seed 33 mod u64 n), seed).

Record milterConfig := { mc_ShadowSamplePercent : Z; mc_MilterMacros : list MilterMacro }.

(** [allow]: what the limiter answers when asked; [None] without limiter. *)
Definition shadowEnabled (cfg : milterConfig) (seed : Z) (allow : option bool) : bool * Z :=
  let forcedShadow := false in
  let '(sampledShadow, seed) :=
    if 100 <=? mc_ShadowSamplePercent cfg then (true, seed)
    else if 0 <? mc_ShadowSamplePercent cfg then
      let '(r, seed) := lockedRand_Intn seed 100 in (r <? mc_ShadowSamplePercent cfg, seed)
    else (false, seed) in
  let doShadow := forcedShadow || sampledShadow in
  let doShadow :=
    if doShadow && negb forcedShadow && match allow with Some a => negb a | None => false end
    then false else doShadow in
  (if negb doShadow then false else true, seed).

(** ** The connection *)

(** [string(b)] of a byte: its rune in UTF-8. *)
Definition string_of_byte (c : ascii) : string :=
  if code c <? 128 then String c ""
  else of_chars [chr (0xC0 + code c / 64); chr (0x80 + code c mod 64)].

(** [strings.Contains] *)
Fixpoint Contains (s sub : string) : bool :=
  HasPrefix s sub || match s with "" => false | String _ s' => Contains s' sub end.

(** What the loop asks of the worker. *)
Class ShadowQueue (W : Type) := submit : W -> milterShadowWork -> bool * W.

(** Log records; a frame record keeps what [logFrameResult] computes. *)
Inductive logRecord :=
  | LogReadFailed (err : error)
  | LogPrimaryFailed (reqID : Z) (err : error)
  | LogPrimaryEmpty (reqID : Z)
  | LogWriteFailed (reqID : Z) (err : error)
  | LogQueueFull (reqID : Z)
  | LogFrame (level reqID : Z) (command : string) (shadowEnabled : bool) (shadowSelected : string)
      (result : RunResult) (compareErr : string) (fields : list Attr).
(** Metrics: an ingress request and a comparison. *)
Inductive metric :=
  | ObserveIngress (command outcome shadow shadowStarted : string)
  | ObserveComparison (result : string).

Section handler.
Context `{Unicode}.
Context {P W : Type} `{TestSession P} `{ShadowQueue W}.
(** Observability on or off, the enabled log levels, request ids. *)
Context (observability : bool) (logger_Enabled : Z -> bool) (reqID : nat -> Z).

Record connState := {
  st_client : conn;
  st_primary : P;
  st_macros : option macroState;
  st_worker : option W;
  st_logs : list logRecord;
  st_metrics : list metric
}.

Definition with_client (s : connState) (c : conn) : connState :=
  {| st_client := c; st_primary := st_primary s; st_macros := st_macros s;
     st_worker := st_worker s; st_logs := st_logs s; st_metrics := st_metrics s |}.
Definition with_worker (s : connState) (w : option W) : connState :=
  {| st_client := st_client s; st_primary := st_primary s; st_macros := st_macros s;
     st_worker := w; st_logs := st_logs s; st_metrics := st_metrics s |}.
Definition log (r : logRecord) (s : connState) : connState :=
  {| st_client := st_client s; st_primary := st_primary s; st_macros := st_macros s;
     st_worker := st_worker s; st_logs := st_logs s ++ [r]; st_metrics := st_metrics s |}.
Definition measure (m : metric) (s : connState) : connState :=
  if observability then
    {| st_client := st_client s; st_primary := st_primary s; st_macros := st_macros s;
       st_worker := st_worker s; st_logs := st_logs s; st_metrics := st_metrics s ++ [m] |}
  else s.

Definition finishFrame (command : string) (shadowEnabled : bool) (outcome : string)
    (result : RunResult) (s : connState) : connState :=
  measure (ObserveIngress command outcome (BoolLabel shadowEnabled)
             (BoolLabel (rr_ShadowStarted result))) s.

Definition milterComparisonMetricResult (shadowEnabled : bool) (result : RunResult) : string :=
  if negb shadowEnabled || negb (rr_ShadowStarted result) then ResultSkipped
  else if negb (bool_decide (rr_ShadowErr result = "")) ||
          match rr_CompareErr result with Some _ => true | None => false end then ResultError
  else if pc_Diff (rr_Compare result) || pc_DecisionDiff (rr_Compare result) then ResultDiff
  else ResultSame.

Definition logFrameResult (id : Z) (command : string) (shadowEnabled : bool) (result : RunResult)
    (fields : list Attr) (s : connState) : connState :=
  let shadowSelected := if shadowEnabled && negb (rr_ShadowStarted result) then shadowNotStarted
                        else p_Selected (rr_Shadow result) in
  let s := measure (ObserveComparison (milterComparisonMetricResult shadowEnabled result)) s in
  let isErr (e : option error) := match e with Some _ => true | None => false end in
  let level := ResultLevel (pc_Diff (rr_Compare result))
                 (negb (bool_decide (rr_ShadowErr result = "")) || isErr (rr_CompareErr result))
                 (isErr (p_Err (rr_Primary result))) in
  if negb (logger_Enabled level) then s
  else log (LogFrame level id command shadowEnabled shadowSelected result
              (ErrString (rr_CompareErr result)) fields) s.

(** Returns whether the frame was relayed. *)
Definition writePrimaryFrame (id : Z) (command : string) (shadowEnabled : bool)
    (result : RunResult) (s : connState) : bool * connState :=
  match p_Err (rr_Primary result) with
  | Some err =>
      (false, log (LogPrimaryFailed id err)
                (finishFrame command shadowEnabled OutcomePrimaryError result s))
  | None =>
      if decide (p_Raw (rr_Primary result) = "") then
        (false, log (LogPrimaryEmpty id)
                  (finishFrame command shadowEnabled OutcomePrimaryError result s))
      else
        let c := st_client s in
        let s := with_client s {| c_in := c_in c;
                                  c_out := c_out c ++ [p_Raw (rr_Primary result)];
                                  c_werr := c_werr c |} in
        match c_werr c with
        | Some err =>
            (false, log (LogWriteFailed id err)
                      (finishFrame command shadowEnabled OutcomeError result s))
        | None => (true, s)
        end
  end.

Definition frameEvent (id : Z) (frame : MilterFrame) : Event :=
  {| e_Kind := protocolMilter; e_Method := ""; e_Path := ""; e_PrimaryPath := "";
     e_ShadowPath := ""; e_RawQuery := ""; e_Host := ""; e_Header := ∅; e_Body := "";
     e_RemoteAddr := ""; e_RequestID := id; e_PrimaryRequestHeaders := ∅;
     e_ShadowRequestHeaders := ∅; e_Payload := Raw frame;
     e_Meta := {[milterMetaCommand := string_of_byte (Command frame)]} |}.

Definition handleFrame (k : nat) (shadowEnabled : bool) (frame : MilterFrame) (s : connState)
    : bool * connState :=
  let '(fields, ms) :=
    match st_macros s with
    | None => ([], None)
    | Some ms => let '(attrs, ms) := observe ms frame in (attrs, Some ms)
    end in
  let id := reqID k in
  let command := string_of_byte (Command frame) in
  let event := frameEvent id frame in
  let '(result, primary) := RunPrimaryEvent (Some (st_primary s)) event in
  let s := {| st_client := st_client s; st_primary := default (st_primary s) primary;
              st_macros := ms; st_worker := st_worker s; st_logs := st_logs s;
              st_metrics := st_metrics s |} in
  let '(relayed, s) :=
    if MilterCommandExpectsResponse (Command frame) then
      writePrimaryFrame id command shadowEnabled result s
    else
      match p_Err (rr_Primary result) with
      | Some err =>
          (false, log (LogPrimaryFailed id err)
                    (finishFrame command shadowEnabled OutcomePrimaryError result s))
      | None => (true, s)
      end in
  if negb relayed then (false, s)
  else
    let s := finishFrame command shadowEnabled OutcomeOK result s in
    match st_worker s with
    | None => (true, logFrameResult id command shadowEnabled result fields s)
    | Some w =>
        let '(ok, w) := submit w {| wk_event := event; wk_primary := rr_Primary result |} in
        let s := with_worker s (Some w) in
        if negb ok then
          (true, logFrameResult id command shadowEnabled result fields (log (LogQueueFull id) s))
        else (true, s)
    end.

(** [shouldStopMilterLoop] of an error: always, with a log unless closed. *)
Definition stopLog (err : error) (s : connState) : connState :=
  if errors_Is err net_ErrClosed || Contains (Error err) "closed" then s
  else log (LogReadFailed err) s.

(** The loop of [HandleConn]; [None]: out of fuel. *)
Fixpoint serve (fuel k : nat) (evolve : nat -> W -> W) (shadowEnabled : bool) (s : connState)
    : option connState :=
  match fuel with
  | O => None
  | S fuel' =>
      let c := st_client s in
      let '(r, i) := ReadFrame (c_in c) in
      let s := with_client s {| c_in := i; c_out := c_out c; c_werr := c_werr c |} in
      match r with
      | Err err => Some (stopLog err s)
      | Ok frame =>
          match handleFrame k shadowEnabled frame s with
          | (false, s) => Some s
          | (true, s) =>
              serve fuel' (S k) evolve shadowEnabled (with_worker s (evolve k <$> st_worker s))
          end
      end
  end.

(** [HandleConn] once the primary session is open. *)
Definition HandleConn (cfg : milterConfig) (client : conn) (connectionID : Z) (primary : P)
    (worker : W) (evolve : nat -> W -> W) (shadow : bool) : option connState :=
  let s := {| st_client := client; st_primary := primary;
              st_macros := match mc_MilterMacros cfg with
                           | [] => None
                           | fs => Some (newMacroState fs connectionID)
                           end;
              st_worker := if shadow then Some worker else None;
              st_logs := []; st_metrics := [] |} in
  serve (S (length (in_bytes (c_in client)))) 0 evolve shadow s.
End handler.
Arguments connState : clear implicits.

(** ** Specification and lemmas *)

(** What client and primary see of a connection. *)
Definition visible {P W} (s : connState P W) : conn * P := (st_client s, st_primary s).

Section lemmas.
Context `{Unicode} {P : Type} `{TestSession P}.
Context (obs : bool) (enabled : Z -> bool) (reqID : nat -> Z).

Lemma visible_measure {W} m (s : connState P W) : visible (measure obs m s) = visible s.
Proof. unfold measure. by destruct obs. Qed.
Lemma visible_log {W} r (s : connState P W) : visible (log r s) = visible s.
Proof. done. Qed.
Lemma visible_logFrameResult {W} id command sh result fields (s : connState P W) :
  visible (logFrameResult obs enabled id command sh result fields s) = visible s.
Proof.
  unfold logFrameResult. destruct (negb (enabled _)); [apply visible_measure|].
  rewrite visible_log. apply visible_measure.
Qed.
Lemma worker_measure {W} m (s : connState P W) : st_worker (measure obs m s) = st_worker s.
Proof. unfold measure. by destruct obs. Qed.
Lemma worker_logFrameResult {W} id command sh result fields (s : connState P W) :
  st_worker (logFrameResult obs enabled id command sh result fields s) = st_worker s.
Proof.
  unfold logFrameResult. destruct (negb (enabled _)); [apply worker_measure|]. simpl.
  apply worker_measure.
Qed.

(** The outcome of a frame for client and primary, without any shadow. *)
Definition relay (k : nat) (frame : MilterFrame) (v : conn * P) : bool * (conn * P) :=
  let '(c, p) := v in
  let '(result, p') := RunPrimaryEvent (Some p) (frameEvent (reqID k) frame) in
  let p := default p p' in
  match p_Err (rr_Primary result) with
  | Some _ => (false, (c, p))
  | None =>
      if MilterCommandExpectsResponse (Command frame) then
        if decide (p_Raw (rr_Primary result) = "") then (false, (c, p))
        else
          (match c_werr c with Some _ => false | None => true end,
           ({| c_in := c_in c; c_out := c_out c ++ [p_Raw (rr_Primary result)];
               c_werr := c_werr c |}, p))
      else (true, (c, p))
  end.

Lemma handleFrame_relay {W} `{ShadowQueue W} k sh frame (s : connState P W) :
  let '(ok, s') := handleFrame obs enabled reqID k sh frame s in
  relay k frame (visible s) = (ok, visible s').
Proof.
  unfold handleFrame, relay. change (visible s) with (st_client s, st_primary s). cbv beta iota.
  destruct (match st_macros s with Some ms => _ | None => _ end) as [fields ms].
  destruct (RunPrimaryEvent (Some (st_primary s)) (frameEvent (reqID k) frame)) as [result p'].
  set (s1 := {| st_client := st_client s |}).
  assert (forall ok s2, (if MilterCommandExpectsResponse (Command frame) then
      writePrimaryFrame obs (reqID k) (string_of_byte (Command frame)) sh result s1
    else
      match p_Err (rr_Primary result) with
      | Some err =>
          (false, log (LogPrimaryFailed (reqID k) err)
                    (finishFrame obs (string_of_byte (Command frame)) sh OutcomePrimaryError result s1))
      | None => (true, s1)
      end) = (ok, s2) ->
    match p_Err (rr_Primary result) with
    | Some _ => (false, visible s1)
    | None =>
        if MilterCommandExpectsResponse (Command frame) then
          if decide (p_Raw (rr_Primary result) = "") then (false, visible s1)
          else
            (match c_werr (st_client s) with Some _ => false | None => true end,
             ({| c_in := c_in (st_client s);
                 c_out := c_out (st_client s) ++ [p_Raw (rr_Primary result)];
                 c_werr := c_werr (st_client s) |}, default (st_primary s) p'))
        else (true, visible s1)
    end = (ok, visible s2)) as Hrelay.
  { intros ok s2. unfold writePrimaryFrame, finishFrame.
    destruct (MilterCommandExpectsResponse (Command frame)), (p_Err (rr_Primary result)) as [err|];
      try (intros [= <- <-]; by rewrite ?visible_log, ?visible_measure).
    destruct (decide (p_Raw (rr_Primary result) = "")).
    { intros [= <- <-]. by rewrite visible_log, visible_measure. }
    change (st_client s1) with (st_client s). destruct (c_werr (st_client s));
      intros [= <- <-]; [by rewrite visible_log, visible_measure|done]. }
  destruct (if MilterCommandExpectsResponse _ then _ else _) as [ok s2].
  specialize (Hrelay ok s2 eq_refl).
  change (visible s1) with (st_client s, default (st_primary s) p') in Hrelay. rewrite Hrelay.
  destruct ok; cbn [negb]; [|done].
  destruct (st_worker (finishFrame obs _ sh OutcomeOK result s2)) as [w|].
  - destruct (submit w _) as [[] w']; cbn [negb]; f_equal.
    + symmetry. apply visible_measure.
    + rewrite visible_logFrameResult, visible_log. symmetry. apply visible_measure.
  - f_equal. rewrite visible_logFrameResult. symmetry. apply visible_measure.
Qed.

(** The loop without any shadow. *)
Fixpoint relayLoop (fuel k : nat) (v : conn * P) : option (conn * P) :=
  match fuel with
  | O => None
  | S fuel' =>
      let '(r, i) := ReadFrame (c_in v.1) in
      let v := ({| c_in := i; c_out := c_out v.1; c_werr := c_werr v.1 |}, v.2) in
      match r with
      | Err _ => Some v
      | Ok frame =>
          match relay k frame v with
          | (false, v) => Some v
          | (true, v) => relayLoop fuel' (S k) v
          end
      end
  end.

Lemma relay_in k frame v : c_in (relay k frame v).2.1 = c_in v.1.
Proof.
  destruct v as [c p]. unfold relay.
  destruct (RunPrimaryEvent (Some p) (frameEvent (reqID k) frame)) as [result p'].
  destruct (p_Err (rr_Primary result)); [done|].
  destruct (MilterCommandExpectsResponse _); [|done]. by destruct (decide _).
Qed.

Lemma relayLoop_fuel fuel k v :
  (length (in_bytes (c_in v.1)) < fuel)%nat -> exists v', relayLoop fuel k v = Some v'.
Proof.
  revert k v. induction fuel as [|fuel IH]; intros k v Hf; [lia|]. cbn [relayLoop].
  destruct (ReadFrame (c_in v.1)) as [[frame|e] i] eqn:E; [|by eexists].
  apply readMilterFrame_shorter in E.
  set (v1 := ({| c_in := i; c_out := c_out v.1; c_werr := c_werr v.1 |}, v.2)).
  pose proof (relay_in k frame v1) as Hin.
  destruct (relay k frame v1) as [[] v2]; [|by eexists]. apply IH. simpl in Hin. rewrite Hin. lia.
Qed.

Lemma serve_relay {W} `{ShadowQueue W} fuel k evolve sh (s : connState P W) :
  visible <$> serve obs enabled reqID fuel k evolve sh s = relayLoop fuel k (visible s).
Proof.
  revert k s. induction fuel as [|fuel IH]; intros k s; [done|]. cbn [serve relayLoop].
  change (visible s).1 with (st_client s). change (visible s).2 with (st_primary s).
  destruct (ReadFrame (c_in (st_client s))) as [[frame|e] i].
  - set (s1 := with_client s _).
    pose proof (handleFrame_relay k sh frame s1) as Hr.
    destruct (handleFrame obs enabled reqID k sh frame s1) as [ok s2].
    change (visible s1) with
      ({| c_in := i; c_out := c_out (st_client s); c_werr := c_werr (st_client s) |}, st_primary s) in Hr.
    rewrite Hr. destruct ok; [|done]. by rewrite IH.
  - unfold stopLog. by destruct (_ || _).
Qed.


Lemma handleFrame_worker {W} `{ShadowQueue W} k sh frame (s : connState P W) :
  let event := frameEvent (reqID k) frame in
  let '(ok, s') := handleFrame obs enabled reqID k sh frame s in
  st_worker s' =
    if ok then (fun w => (submit w {| wk_event := event;
        wk_primary := rr_Primary (RunPrimaryEvent (Some (st_primary s)) event).1 |}).2) <$> st_worker s
    else st_worker s.
Proof.
  intros event. unfold handleFrame.
  destruct (match st_macros s with Some ms => _ | None => _ end) as [fields ms]. fold event.
  destruct (RunPrimaryEvent (Some (st_primary s)) event) as [result p']. cbn [fst].
  set (s1 := {| st_client := st_client s |}).
  assert (forall ok s2, (if MilterCommandExpectsResponse (Command frame) then
      writePrimaryFrame obs (reqID k) (string_of_byte (Command frame)) sh result s1
    else
      match p_Err (rr_Primary result) with
      | Some err =>
          (false, log (LogPrimaryFailed (reqID k) err)
                    (finishFrame obs (string_of_byte (Command frame)) sh OutcomePrimaryError result s1))
      | None => (true, s1)
      end) = (ok, s2) -> st_worker s2 = st_worker s) as H2.
  { intros ok s2. unfold writePrimaryFrame, finishFrame.
    destruct (MilterCommandExpectsResponse _), (p_Err _); [| |by intros [= _ <-]; simpl; rewrite worker_measure|by intros [= _ <-]].
    - intros [= _ <-]. simpl. by rewrite worker_measure.
    - destruct (decide _); [intros [= _ <-]; simpl; by rewrite worker_measure|].
      destruct (c_werr _); intros [= _ <-]; simpl; by rewrite ?worker_measure. }
  destruct (if MilterCommandExpectsResponse _ then _ else _) as [ok s2].
  specialize (H2 ok s2 eq_refl). destruct ok; cbn [negb]; [|done].
  assert (st_worker (finishFrame obs (string_of_byte (Command frame)) sh OutcomeOK result s2) = st_worker s)
    as -> by (unfold finishFrame; by rewrite worker_measure).
  destruct (st_worker s) as [w|] eqn:Ew; simpl.
  - destruct (submit w _) as [[] w']; simpl; [done|]. by rewrite worker_logFrameResult.
  - rewrite worker_logFrameResult. unfold finishFrame. by rewrite worker_measure, H2.
Qed.

(** A frame the primary has handled is relayed as it came and mirrored
    once: the primary is given the raw frame; on a reply turn the client gets
    exactly the primary's raw answer; the worker is given the same event with
    the primary's answer.  When the primary fails, or answers nothing on a
    reply turn, the client gets nothing, the worker is not asked, and the
    connection ends; also when the client cannot be written to. *)
Theorem handleFrame_spec {W} `{ShadowQueue W} k sh frame (s : connState P W) :
  let event := frameEvent (reqID k) frame in
  let '(result, p') := RunPrimaryEvent (Some (st_primary s)) event in
  let replies := MilterCommandExpectsResponse (Command frame) in
  let '(ok, s') := handleFrame obs enabled reqID k sh frame s in
  e_Payload event = Raw frame /\
  (ok = true <-> p_Err (rr_Primary result) = None /\
     (replies = true -> p_Raw (rr_Primary result) <> "" /\ c_werr (st_client s) = None)) /\
  c_out (st_client s') = c_out (st_client s) ++
    (if decide (p_Err (rr_Primary result) = None /\ replies = true /\ p_Raw (rr_Primary result) <> "")
     then [p_Raw (rr_Primary result)] else []) /\
  st_worker s' =
    (if ok then (fun w => (submit w {| wk_event := event; wk_primary := rr_Primary result |}).2) <$> st_worker s
     else st_worker s).
Proof.
  intros event. pose proof (handleFrame_relay k sh frame s) as Hr. unfold relay in Hr.
  change (visible s) with (st_client s, st_primary s) in Hr. cbv beta iota in Hr.
  fold event in Hr.
  pose proof (handleFrame_worker k sh frame s) as Hw. cbv zeta in Hw. fold event in Hw.
  destruct (RunPrimaryEvent (Some (st_primary s)) event) as [result p']. cbn [fst] in Hw.
  destruct (handleFrame obs enabled reqID k sh frame s) as [ok s'].
  split; [done|].
  match goal with |- ?A /\ ?B /\ _ => assert (A /\ B) as [HA HB]; [|by split_and!] end. clear Hw.
  unfold visible in Hr.
  destruct (p_Err (rr_Primary result)) as [e|].
  { injection Hr as <- <- _. rewrite decide_False by naive_solver. rewrite app_nil_r. naive_solver. }
  destruct (MilterCommandExpectsResponse (Command frame)).
  - destruct (decide (p_Raw (rr_Primary result) = "")) as [Er|Er].
    + injection Hr as <- <- _. rewrite decide_False by naive_solver. rewrite app_nil_r. naive_solver.
    + injection Hr as <- <- _. rewrite decide_True by done. simpl.
      destruct (c_werr (st_client s)); naive_solver.
  - injection Hr as <- <- _. rewrite decide_False by naive_solver. rewrite app_nil_r. naive_solver.
Qed.
End lemmas.
End milterhandler.
