(* ===== verification/HttpForward.v ===== *)
(** * [internal/proxy/handler.go], first part: what a request is sent with

    Forwarding headers, request ids, and the decisions whether to shadow and
    compare.  The state requests share (the id counter, the random source, the
    rate limiter) is any implementation of [Shared]: its operations may change
    it in any way, so other requests may run between two of them. *)
From S2P Require Export PathRules Selectors Headers.

Module forwarding.
Import pathrules.

Definition protocolHTTP : string := "http".
Definition shadowNotStarted : string := "shadow_not_started".
Definition shadowSkipReasonRateLimited : string := "rate_limited".
Definition shadowSkipReasonNoTargets : string := "no_shadow_targets".
Definition compareSkipReasonNoShadow : string := "no_shadow".
Definition headerSessionID : string := "X-Session-ID".
Definition headerLocation : string := "Location".
Definition headerSetCookie : string := "Set-Cookie".

(** What a body yields: its bytes, then its end or an error. *)
Record body := { b_bytes : string; b_err : option error }.

(** [*http.Request], with the path parameter of the route. *)
Record httpRequest := {
  r_Method : string;
  r_Path : string;
  r_RawQuery : string;
  r_Host : string;
  r_RemoteAddr : string;
  r_TLS : bool;
  r_Header : header;
  r_Body : option body
}.

(** The part of [config.Config] the handler reads. *)
Record httpConfig := {
  hc_ShadowForceHeader : string;
  hc_ShadowBaseURLs : list string;
  hc_ShadowSamplePercent : Z;
  hc_MaxBackendBodyBytes : Z;
  hc_CompareMode : string;
  hc_ForwardResponseHeaders : list string;
  hc_LogSessionOnlyOnDiff : bool;
  hc_LogOnlyOnDiff : bool;
  hc_RequestHeaders : list string;
  hc_ResponseHeaders : list string;
  hc_RequestJSON : gmap string string;
  hc_ResponseJSON : gmap string string
}.

(** [atomic.Uint64], [*rand.Rand] under its mutex, [ratelimit.Limiter]. *)
Class Shared (G : Type) := {
  requestID_Add : G -> Z * G;
  rng_Int63 : G -> Z * G;
  rng_Intn : G -> Z -> Z * G;
  limiter_Allow : G -> bool * G
}.

Record shadowDecision := { sd_doShadow : bool; sd_forced : bool; sd_skipReason : string }.
Record comparisonDecision := {
  cd_enabled : bool;
  cd_mode : string;
  cd_headers : option (list string);
  cd_skipReason : string
}.

(** ** Addresses and forwarding headers *)

Definition requestScheme (r : httpRequest) : string :=
  if r_TLS r then "https" else
  let scheme := TrimSpace (Get (r_Header r) "X-Forwarded-Proto") in
  let first := TrimSpace (default "" (head (Split scheme ","%char))) in
  if decide (scheme = "" \/ first = "") then protocolHTTP else first.

Definition clientIP (r : httpRequest) : string :=
  let xff := TrimSpace (Get (r_Header r) "X-Forwarded-For") in
  if decide (xff = "") then
    match SplitHostPort (TrimSpace (r_RemoteAddr r)) with
    | Ok (host, _) => if decide (host = "") then r_RemoteAddr r else host
    | Err _ => r_RemoteAddr r
    end
  else TrimSpace (default "" (head (Split xff ","%char))).

Definition peerIP (r : httpRequest) : string :=
  match SplitHostPort (TrimSpace (r_RemoteAddr r)) with
  | Ok (host, _) => if decide (host = "") then TrimSpace (r_RemoteAddr r) else host
  | Err _ => TrimSpace (r_RemoteAddr r)
  end.

(** [header] is the clone of the request's header that is sent on. *)
Definition prepareForwardedHeaders (r : httpRequest) (h : header) : header :=
  let h := RemoveHopByHop h in
  let h := if decide (Get h "X-Forwarded-Proto" = "")
           then HeaderSet h "X-Forwarded-Proto" (requestScheme r) else h in
  let h := if decide (Get h "X-Forwarded-Host" = "" /\ r_Host r <> "")
           then HeaderSet h "X-Forwarded-Host" (r_Host r) else h in
  let h := let peer := peerIP r in
           if decide (peer = "") then h else
           let existing := TrimSpace (Get h "X-Forwarded-For") in
           if decide (existing = "") then HeaderSet h "X-Forwarded-For" peer
           else HeaderSet h "X-Forwarded-For" (existing +:+ ", " +:+ peer) in
  if decide (Get h "X-Real-IP" = "") then
    let client := clientIP r in
    if decide (client = "") then h else HeaderSet h "X-Real-IP" client
  else h.

Section decisions.
Context {G : Type} `{Shared G}.

(** The id, whether it was generated, and the header afterwards;
    [now_UnixNano] is the clock. *)
Definition ensureRequestID (now_UnixNano : Z) (g : G) (h : header) : (string * bool) * header * G :=
  let rid := TrimSpace (Get h "X-Request-Id") in
  let rid := if decide (rid = "") then TrimSpace (Get h "X-Request-ID") else rid in
  if decide (rid = "") then
    let '(n, g) := rng_Int63 g in
    let rid := Itoa now_UnixNano +:+ "-" +:+ Itoa n in
    ((rid, true), HeaderSet h "X-Request-ID" rid, g)
  else ((rid, false), h, g).

(** ** Policy *)

Context `{Regexp} `{Unicode}.
Context (cfg : httpConfig).

Definition resolvePathRule (resolver : Resolver) (r : httpRequest) : Decision :=
  match resolver with
  | None => plainDecision ShadowModeInherit CompareDecisionInherit ""
  | Some _ => Resolve resolver (r_Method r) (r_Path r)
  end.

Definition sampleShadow (g : G) : bool * G :=
  if 100 <=? hc_ShadowSamplePercent cfg then (true, g)
  else if hc_ShadowSamplePercent cfg <=? 0 then (false, g)
  else let '(n, g) := rng_Intn g 100 in (n <? hc_ShadowSamplePercent cfg, g).

Definition forcedBy (r : httpRequest) : bool :=
  negb (bool_decide (hc_ShadowForceHeader cfg = "")) &&
  negb (bool_decide (Get (r_Header r) (hc_ShadowForceHeader cfg) = "")).

(** [hasLimiter]: the handler has a rate limiter. *)
Definition shouldShadow (hasLimiter : bool) (r : httpRequest) (pathDecision : Decision) (g : G)
    : shadowDecision * G :=
  let forcedShadow := forcedBy r in
  match hc_ShadowBaseURLs cfg with
  | [] => ({| sd_doShadow := false; sd_forced := forcedShadow;
              sd_skipReason := shadowSkipReasonNoTargets |}, g)
  | _ =>
      if decide (d_ShadowMode pathDecision = ShadowModeNever) then
        let reason := ShadowSkipReason pathDecision in
        ({| sd_doShadow := false; sd_forced := forcedShadow;
            sd_skipReason := if decide (reason = "") then SkipReasonPathRule else reason |}, g)
      else
        let '(doShadow, g) :=
          if decide (d_ShadowMode pathDecision = ShadowModeAlways) then (true, g)
          else if forcedShadow then (true, g) else sampleShadow g in
        let plain g := ({| sd_doShadow := doShadow; sd_forced := forcedShadow;
                           sd_skipReason := "" |}, g) in
        if doShadow && negb forcedShadow && hasLimiter then
          let '(allowed, g) := limiter_Allow g in
          if allowed then plain g
          else ({| sd_doShadow := false; sd_forced := forcedShadow;
                   sd_skipReason := shadowSkipReasonRateLimited |}, g)
        else plain g
  end.

Definition resolvedCompareMode (pathDecision : Decision) : string :=
  if decide (TrimSpace (CompareMode pathDecision) = "") then hc_CompareMode cfg
  else CompareMode pathDecision.

Definition resolvedCompareHeaders (pathDecision : Decision) : option (list string) :=
  if CompareHeadersSet pathDecision
  then Some (copy_slice (default [] (CompareHeaders pathDecision))) else None.

Definition resolveComparison (pathDecision : Decision) (shadow : shadowDecision)
    : comparisonDecision :=
  let decision enabled reason :=
    {| cd_enabled := enabled; cd_mode := resolvedCompareMode pathDecision;
       cd_headers := resolvedCompareHeaders pathDecision; cd_skipReason := reason |} in
  let reason := CompareSkipReason pathDecision in
  if decide (d_CompareDecision pathDecision = CompareDecisionOff) then
    decision false (if decide (reason = "") then SkipReasonPathRule else reason)
  else if negb (sd_doShadow shadow) then
    decision false (if decide (reason = "") then compareSkipReasonNoShadow else reason)
  else decision true "".
End decisions.

(** ** Specification *)

(** The keys the program sets on a request it sends on. *)
Definition forwardingKeys : list string :=
  ["X-Forwarded-Proto"; "X-Forwarded-Host"; "X-Forwarded-For"; "X-Real-Ip"].

(** The value a sampled request draws, and whether it is in the sample. *)
Definition sampled {G} `{Shared G} (cfg : httpConfig) (g : G) : Prop :=
  100 <= hc_ShadowSamplePercent cfg \/
  (0 < hc_ShadowSamplePercent cfg /\ fst (rng_Intn g 100) < hc_ShadowSamplePercent cfg).

(** ** Lemmas *)

Section headers_lemmas.
Implicit Types (h : header).

Lemma Get_lookup h h' key :
  h !! CanonicalHeaderKey key = h' !! CanonicalHeaderKey key -> Get h key = Get h' key.
Proof. intros E. unfold Get, Values. by rewrite E. Qed.

(** Setting one header changes no other key. *)
Lemma lookup_HeaderSet_ne h key v k : CanonicalHeaderKey key <> k -> HeaderSet h key v !! k = h !! k.
Proof. intros. unfold HeaderSet. by rewrite lookup_insert_ne. Qed.

Lemma lookup_HeaderSet_eq h key v : HeaderSet h key v !! CanonicalHeaderKey key = Some [v].
Proof. unfold HeaderSet. by rewrite lookup_insert_eq. Qed.

(** A header set only when a condition holds. *)
Lemma Get_set_when (P : Prop) `{base.Decision P} h key v :
  Get (if decide P then HeaderSet h key v else h) key = if decide P then v else Get h key.
Proof. case_decide; [apply Get_HeaderSet_eq | done]. Qed.

Lemma Get_set_when_both (P : Prop) `{base.Decision P} h key v :
  (~ P -> Get h key = "" -> v = "") -> (P -> Get h key = "") ->
  Get (if decide P then HeaderSet h key v else h) key =
    if decide (Get h key = "") then v else Get h key.
Proof.
  intros H1 H2. destruct (decide P) as [HP|HP]; destruct (decide (Get h key = "")) as [E|E].
  - apply Get_HeaderSet_eq.
  - by destruct E; apply H2.
  - by rewrite E, H1.
  - done.
Qed.

Lemma lookup_set_when (P : Prop) `{base.Decision P} h key v k :
  CanonicalHeaderKey key <> k -> (if decide P then HeaderSet h key v else h) !! k = h !! k.
Proof. intros. case_decide; [by apply lookup_HeaderSet_ne | done]. Qed.

Lemma peerIP_remote host r :
  remoteOf host (r_RemoteAddr r) -> host <> "" -> peerIP r = host.
Proof.
  unfold peerIP.
  intros [[E Hc]|[(port & E & ? & [? ?] & ? & [? ?])|(port & E & [? ?] & ? & [? ?])]] Hh; rewrite E.
  - apply SplitHostPort_bare in Hc. by destruct (SplitHostPort host) as [[]|].
  - rewrite SplitHostPort_plain by done. by rewrite decide_False.
  - rewrite SplitHostPort_bracket by done. by rewrite decide_False.
Qed.

Lemma clientIP_remote host r :
  TrimSpace (Get (r_Header r) "X-Forwarded-For") = "" ->
  remoteOf host (r_RemoteAddr r) -> host <> "" -> TrimSpace (r_RemoteAddr r) <> host ->
  clientIP r = host.
Proof.
  intros Hx [[E Hc]|[(port & E & ? & [? ?] & ? & [? ?])|(port & E & [? ?] & ? & [? ?])]] Hh Hne;
    unfold clientIP; rewrite Hx, decide_True by done; [done| |]; rewrite E.
  - rewrite SplitHostPort_plain by done. by rewrite decide_False.
  - rewrite SplitHostPort_bracket by done. by rewrite decide_False.
Qed.
End headers_lemmas.

Lemma forwardingKeys_canonical key k :
  bool_decide (CanonicalHeaderKey key ∈ forwardingKeys) = true -> k ∉ forwardingKeys ->
  CanonicalHeaderKey key <> k.
Proof. by intros ?%bool_decide_eq_true ? <-. Qed.

(** The first header differs from the second at most in one key. *)
Definition touches (key : string) (h' h : header) : Prop :=
  forall k, CanonicalHeaderKey key <> k -> h' !! k = h !! k.

Lemma touches_Get key h' h other :
  touches key h' h -> CanonicalHeaderKey key <> CanonicalHeaderKey other ->
  Get h' other = Get h other /\ Values h' other = Values h other.
Proof. intros Ht Hk. unfold Get, Values. by rewrite (Ht _ Hk). Qed.

Lemma touches_set key h v : touches key (HeaderSet h key v) h.
Proof. intros k. apply lookup_HeaderSet_ne. Qed.

Lemma touches_refl key h : touches key h h.
Proof. done. Qed.

Lemma touches_if (P : Prop) `{base.Decision P} key h1 h2 h :
  touches key h1 h -> touches key h2 h -> touches key (if decide P then h1 else h2) h.
Proof. by case_decide. Qed.
#[local] Hint Resolve touches_set touches_refl touches_if : doppel.

Section forwarded.
Context (r : httpRequest) (h : header).

Let h1 := RemoveHopByHop h.
Let h2 := if decide (Get h1 "X-Forwarded-Proto" = "")
          then HeaderSet h1 "X-Forwarded-Proto" (requestScheme r) else h1.
Let h3 := if decide (Get h2 "X-Forwarded-Host" = "" /\ r_Host r <> "")
          then HeaderSet h2 "X-Forwarded-Host" (r_Host r) else h2.
Let existing := TrimSpace (Get h3 "X-Forwarded-For").
Let h4 := if decide (peerIP r = "") then h3
          else if decide (existing = "") then HeaderSet h3 "X-Forwarded-For" (peerIP r)
          else HeaderSet h3 "X-Forwarded-For" (existing +:+ ", " +:+ peerIP r).
Let h5 := if decide (Get h4 "X-Real-IP" = "")
          then if decide (clientIP r = "") then h4 else HeaderSet h4 "X-Real-IP" (clientIP r)
          else h4.

(** Each stage changes its own header only. *)
Lemma stages_touch :
  touches "X-Forwarded-Proto" h2 h1 /\ touches "X-Forwarded-Host" h3 h2 /\
  touches "X-Forwarded-For" h4 h3 /\ touches "X-Real-IP" h5 h4.
Proof. unfold h5, h4, h3, h2. split_and!; auto with doppel. Qed.

Lemma stages_Get key :
  (CanonicalHeaderKey key <> "X-Forwarded-Proto" -> Get h2 key = Get h1 key /\ Values h2 key = Values h1 key) /\
  (CanonicalHeaderKey key <> "X-Forwarded-Host" -> Get h3 key = Get h2 key /\ Values h3 key = Values h2 key) /\
  (CanonicalHeaderKey key <> "X-Forwarded-For" -> Get h4 key = Get h3 key /\ Values h4 key = Values h3 key) /\
  (CanonicalHeaderKey key <> "X-Real-Ip" -> Get h5 key = Get h4 key /\ Values h5 key = Values h4 key).
Proof.
  destruct stages_touch as (T2 & T3 & T4 & T5).
  split_and!; intros Hk; (eapply touches_Get; [eassumption|]); intros E; apply Hk; by rewrite <-E.
Qed.

Lemma stages_other k : k ∉ forwardingKeys -> h5 !! k = h1 !! k.
Proof.
  destruct stages_touch as (T2 & T3 & T4 & T5). intros Hk.
  rewrite T5, T4, T3, T2; [done|..]; by apply forwardingKeys_canonical.
Qed.

(** What a request is sent on with.  The hop-by-hop headers are gone; the
    scheme and host headers keep what the client sent and are filled in
    otherwise; [X-Forwarded-For] is one value that ends in the address of the
    TCP peer whatever the client sent, so a backend can trust its last
    element; [X-Real-Ip] is kept or set to the client address; no other header
    changes. *)
Theorem prepareForwardedHeaders_spec :
  let h1 := RemoveHopByHop h in
  let h' := prepareForwardedHeaders r h in
  let kept key value := if decide (Get h1 key = "") then value else Get h1 key in
  Get h' "X-Forwarded-Proto" = kept "X-Forwarded-Proto" (requestScheme r) /\
  Get h' "X-Forwarded-Host" = kept "X-Forwarded-Host" (r_Host r) /\
  Get h' "X-Real-IP" = kept "X-Real-IP" (clientIP r) /\
  (peerIP r <> "" -> exists before, Values h' "X-Forwarded-For" = [before +:+ peerIP r] /\
     before = let existing := TrimSpace (Get h1 "X-Forwarded-For") in
              if decide (existing = "") then "" else existing +:+ ", ") /\
  (peerIP r = "" -> Values h' "X-Forwarded-For" = Values h1 "X-Forwarded-For") /\
  (forall k, k ∉ forwardingKeys -> h' !! k = h1 !! k) /\
  (forall k, k ∈ CanonicalHeaderKey <$> hopByHopKeys -> h' !! k = None).
Proof.
  cbv zeta. fold h1. change (prepareForwardedHeaders r h) with h5.
  destruct (stages_Get "X-Forwarded-Proto") as (_ & P3 & P4 & P5).
  destruct (stages_Get "X-Forwarded-Host") as (H2 & _ & H4 & H5).
  destruct (stages_Get "X-Forwarded-For") as (F2 & F3 & _ & F5).
  destruct (stages_Get "X-Real-IP") as (R2 & R3 & R4 & _).
  assert (Get h4 "X-Real-IP" = Get h1 "X-Real-IP") as G4
    by (rewrite (proj1 (R4 ltac:(done))), (proj1 (R3 ltac:(done))); by apply R2).
  assert (Get h3 "X-Forwarded-For" = Get h1 "X-Forwarded-For") as G3
    by (rewrite (proj1 (F3 ltac:(done))); by apply F2).
  split_and!.
  - rewrite (proj1 (P5 ltac:(done))), (proj1 (P4 ltac:(done))), (proj1 (P3 ltac:(done))).
    apply Get_set_when.
  - rewrite (proj1 (H5 ltac:(done))), (proj1 (H4 ltac:(done))), <-(proj1 (H2 ltac:(done))).
    unfold h3. apply Get_set_when_both; [|by intros [? _]].
    intros Hn Hg. destruct (decide (r_Host r = "")); [done|]. by destruct Hn.
  - unfold h5. rewrite G4. destruct (decide (Get h1 "X-Real-IP" = "")) as [E1|E1]; [|by rewrite G4].
    destruct (decide (clientIP r = "")) as [E2|E2]; [by rewrite G4, E1, E2 | apply Get_HeaderSet_eq].
  - intros Hp. eexists. split; [|reflexivity]. rewrite (proj2 (F5 ltac:(done))).
    unfold h4. rewrite decide_False by done. unfold existing. rewrite G3.
    destruct (decide (TrimSpace (Get h1 "X-Forwarded-For") = ""));
      rewrite Values_Set_eq; [done|]. by rewrite app_assoc_s.
  - intros Hp. rewrite (proj2 (F5 ltac:(done))). unfold h4. rewrite decide_True by done.
    rewrite (proj2 (F3 ltac:(done))). by apply F2.
  - exact stages_other.
  - intros k Hk. rewrite stages_other.
    + unfold h1. rewrite lookup_RemoveHopByHop, decide_True; [done|].
      rewrite fmap_app. apply elem_of_app. by right.
    + assert (Forall (fun k => k ∉ forwardingKeys) (CanonicalHeaderKey <$> hopByHopKeys)) as HF
        by (by apply (bool_decide_unpack _); vm_compute).
      rewrite Forall_forall in HF. by apply HF.
Qed.
End forwarded.

(** The addresses of a request.  The peer is the host of the TCP remote
    address, in every textual form and whatever the headers say; the client
    address is the first element of [X-Forwarded-For] when the client sent
    one, and otherwise the peer. *)
Theorem addresses_spec r host :
  remoteOf host (r_RemoteAddr r) -> host <> "" -> TrimSpace (r_RemoteAddr r) = r_RemoteAddr r ->
  peerIP r = host /\
  let xff := TrimSpace (Get (r_Header r) "X-Forwarded-For") in
  (xff = "" -> clientIP r = host) /\
  (forall first rest, xff = Join (first :: rest) "," -> xff <> "" -> ","%char ∉ chars first ->
     clientIP r = TrimSpace first).
Proof.
  intros Hr Hh Ht. split; [by apply peerIP_remote|]. cbv zeta. split.
  - intros Hx. destruct (decide (TrimSpace (r_RemoteAddr r) = host)) as [E|E];
      [|by apply clientIP_remote].
    unfold clientIP. rewrite Hx, decide_True by done. destruct (SplitHostPort _) as [[h p]|] eqn:Es;
      [|congruence].
    pose proof (peerIP_remote _ _ Hr Hh) as Hp. unfold peerIP in Hp. rewrite Es in Hp.
    case_decide; congruence.
  - intros first rest Ex Hne Hc. unfold clientIP. rewrite decide_False by done. rewrite Ex.
    destruct rest as [|s rest]; [change (Join [first] ",") with first; by rewrite Split_none|].
    change (Join (first :: s :: rest) ",") with (first +:+ String "," (Join (s :: rest) ",")).
    by rewrite Split_cons.
Qed.

Section decision_props.
Context {G : Type} `{Shared G} `{Regexp} `{Unicode}.
Implicit Types (cfg : httpConfig) (g : G) (d : Decision).

(** The request id that goes to the backends, the logs and the client: a
    client's non-blank [X-Request-ID] is used, trimmed, and the header is left
    as it came; otherwise an id is drawn once and set.  The header sent on
    always carries the id up to surrounding space. *)
Theorem ensureRequestID_spec now g h :
  let '((rid, generated), h', g') := ensureRequestID now g h in
  TrimSpace (Get h' "X-Request-ID") = TrimSpace rid /\
  (generated = false <-> TrimSpace (Get h "X-Request-ID") <> "") /\
  (generated = false -> rid = TrimSpace (Get h "X-Request-ID") /\ h' = h /\ g' = g) /\
  (generated = true -> g' = snd (rng_Int63 g) /\
     rid = Itoa now +:+ "-" +:+ Itoa (fst (rng_Int63 g)) /\
     Values h' "X-Request-ID" = [rid] /\
     forall k, k <> "X-Request-Id" -> h' !! k = h !! k).
Proof.
  unfold ensureRequestID. change (Get h "X-Request-Id") with (Get h "X-Request-ID").
  set (rid := TrimSpace (Get h "X-Request-ID")).
  replace (if decide (rid = "") then rid else rid) with rid by (by case_decide).
  destruct (decide (rid = "")) as [E|E].
  - destruct (rng_Int63 g) as [n g']. cbv beta iota zeta. simpl fst. simpl snd.
    split_and!; [by rewrite Get_HeaderSet_eq|done|done|]. intros _.
    split_and!; [done|done|by rewrite Values_Set_eq|].
    intros k Hk. apply lookup_HeaderSet_ne. intros Ek. apply Hk. by rewrite <-Ek.
  - split_and!; [unfold rid; by rewrite TrimSpace_idemp|done|done|done].
Qed.

Lemma sampleShadow_spec cfg g :
  (fst (sampleShadow cfg g) = true <-> sampled cfg g) /\
  snd (sampleShadow cfg g) =
    if decide (0 < hc_ShadowSamplePercent cfg < 100) then snd (rng_Intn g 100) else g.
Proof.
  unfold sampleShadow, sampled. destruct (Z.leb_spec 100 (hc_ShadowSamplePercent cfg)); simpl.
  { rewrite decide_False by lia. split; [|done]. split; [by left|done]. }
  destruct (Z.leb_spec (hc_ShadowSamplePercent cfg) 0); simpl.
  { rewrite decide_False by lia. split; [|done]. split; [done|lia]. }
  rewrite decide_True by lia. destruct (rng_Intn g 100) as [n g']. simpl. split; [|done].
  rewrite Z.ltb_lt. lia.
Qed.

Lemma forcedBy_spec cfg r :
  forcedBy cfg r = true <->
  hc_ShadowForceHeader cfg <> "" /\ Get (r_Header r) (hc_ShadowForceHeader cfg) <> "".
Proof. unfold forcedBy. rewrite andb_true_iff, !negb_true_iff, !bool_decide_eq_false. done. Qed.

(** C31. When a request is shadowed.  Never without shadow targets and never
    when its path rule says so, also when the client forces it.  Otherwise a
    forced request always is, without drawing a random number or a token of
    the rate limiter; the others are when the rule says always or the sample
    takes them, and the limiter, if there is one, lets them pass.  A skip
    reason is reported only for requests that are not shadowed, and always
    when targets, rule or limiter decided. *)
Theorem shouldShadow_spec cfg hasLimiter r d g :
  let forced := hc_ShadowForceHeader cfg <> "" /\ Get (r_Header r) (hc_ShadowForceHeader cfg) <> "" in
  let never := hc_ShadowBaseURLs cfg = [] \/ d_ShadowMode d = ShadowModeNever in
  let always := d_ShadowMode d = ShadowModeAlways in
  let chosen := always \/ sampled cfg g in
  let g1 := if decide (always \/ ~ 0 < hc_ShadowSamplePercent cfg < 100) then g
            else snd (rng_Intn g 100) in
  let passes := hasLimiter = false \/ fst (limiter_Allow g1) = true in
  let '(s, g') := shouldShadow cfg hasLimiter r d g in
  (sd_forced s = true <-> forced) /\
  (sd_doShadow s = true <-> ~ never /\ (forced \/ (chosen /\ passes))) /\
  (forced \/ never -> g' = g) /\
  (sd_doShadow s = true -> sd_skipReason s = "") /\
  (never \/ (~ forced /\ chosen /\ ~ passes) -> sd_skipReason s <> "").
Proof.
  intros forced never always chosen g1 passes. pose proof (forcedBy_spec cfg r) as Hf.
  fold forced in Hf. clearbody forced. unfold shouldShadow.
  destruct (hc_ShadowBaseURLs cfg) as [|u us] eqn:Eu.
  { assert never by (by left). simpl. naive_solver. }
  destruct (decide (d_ShadowMode d = ShadowModeNever)) as [En|En].
  { assert never by (by right). simpl. split_and!; [done|naive_solver|done|done|].
    intros _. destruct (decide (ShadowSkipReason d = "")) as [E|E]; [done|exact E]. }
  assert (~ never) as Hnever by (intros [|]; congruence).
  destruct (forcedBy cfg r).
  { assert forced by tauto. destruct (decide (d_ShadowMode d = ShadowModeAlways)); simpl; naive_solver. }
  assert (~ forced) as Hforced by (intros Hx; by apply Hf in Hx).
  destruct (sampleShadow_spec cfg g) as [Hs Hg].
  assert (exists chosenb, (chosenb = true <-> chosen) /\
    (if decide (d_ShadowMode d = ShadowModeAlways) then (true, g) else sampleShadow cfg g) =
      (chosenb, g1)) as (b & Hb & ->).
  { destruct (decide (d_ShadowMode d = ShadowModeAlways)) as [Ea|Ea].
    - exists true. unfold g1. rewrite decide_True by (by left). split; [|done]. split; [by left|done].
    - exists (fst (sampleShadow cfg g)). split; [rewrite Hs; unfold chosen, always; tauto|].
      destruct (sampleShadow cfg g) as [b g']. simpl in *. f_equal. rewrite Hg. unfold g1, always.
      repeat case_decide; tauto. }
  unfold passes. assert (b = false -> ~ chosen) by (intros ->; intros Hc; by apply Hb in Hc).
  destruct b; simpl.
  - assert chosen by tauto. destruct hasLimiter; simpl; [|naive_solver].
    destruct (limiter_Allow g1) as [[] g2]; simpl; split_and!; intros; try done; naive_solver.
  - split_and!; intros; try done; naive_solver.
Qed.

Lemma resolveLoop_unmatched (rules : list compiledRule) method path :
  Forall (fun rule => matchesMethod rule method = false \/
                      MatchString (pattern rule) path = false) rules ->
  resolveLoop rules method path =
    plainDecision ShadowModeNever CompareDecisionOff SkipReasonPathUnmatched.
Proof.
  induction 1 as [|rule rules [E|E] _ IH]; [done| |]; simpl; rewrite E; [exact IH|].
  by rewrite orb_true_r.
Qed.

(** When the two responses are compared.  Comparison needs a shadow and a
    rule that does not turn it off, and gives a reason exactly when it is off.
    The mode is the rule's unless blank, the headers the rule's when it sets
    them (an empty list compares none).  Without rules everything is left to
    the global policy; a request no rule admits is neither shadowed nor
    compared. *)
Theorem resolveComparison_spec cfg hasLimiter resolver r g :
  let d := resolvePathRule resolver r in
  let s := fst (shouldShadow cfg hasLimiter r d g) in
  let c := resolveComparison cfg d s in
  (cd_enabled c = true <-> sd_doShadow s = true /\ d_CompareDecision d <> CompareDecisionOff) /\
  (cd_enabled c = true <-> cd_skipReason c = "") /\
  cd_mode c = (if decide (TrimSpace (CompareMode d) = "") then hc_CompareMode cfg else CompareMode d) /\
  (CompareHeadersSet d = false -> cd_headers c = None) /\
  (CompareHeadersSet d = true -> cd_headers c = Some (default [] (CompareHeaders d))) /\
  (default [] resolver = [] -> d_ShadowMode d = ShadowModeInherit /\
     d_CompareDecision d = CompareDecisionInherit) /\
  (forall rules, resolver = Some rules -> rules <> [] ->
     Forall (fun rule => matchesMethod rule (ToUpper (TrimSpace (r_Method r))) = false \/
                         MatchString (pattern rule) (r_Path r) = false) rules ->
     hc_ShadowBaseURLs cfg <> [] ->
     sd_doShadow s = false /\ sd_skipReason s = SkipReasonPathUnmatched /\
     cd_enabled c = false /\ cd_skipReason c = SkipReasonPathUnmatched).
Proof.
  cbv zeta. set (d := resolvePathRule resolver r).
  split_and!; [..|intros rules -> Hne HF Hu].
  - unfold resolveComparison. case_decide as Ec; [simpl; naive_solver|].
    destruct (sd_doShadow _); simpl; naive_solver.
  - unfold resolveComparison. case_decide as Ec; [|destruct (sd_doShadow _); [done|]]; simpl;
      (destruct (decide (CompareSkipReason d = "")) as [E|E]; [done|]; by split).
  - unfold resolveComparison. case_decide; [done|]. by destruct (sd_doShadow _).
  - intros Hh. unfold resolveComparison, resolvedCompareHeaders.
    case_decide; [|destruct (sd_doShadow _)]; simpl; by rewrite Hh.
  - intros Hh. unfold resolveComparison, resolvedCompareHeaders.
    case_decide; [|destruct (sd_doShadow _)]; simpl; by rewrite Hh, copy_slice_id.
  - unfold d, resolvePathRule, Resolve. by destruct resolver as [[|]|].
  - assert (d = plainDecision ShadowModeNever CompareDecisionOff SkipReasonPathUnmatched) as ->.
    { unfold d, resolvePathRule, Resolve. destruct rules as [|rule rules]; [done|].
      by apply resolveLoop_unmatched. }
    unfold shouldShadow. by destruct (hc_ShadowBaseURLs cfg).
Qed.
End decision_props.

(** A shared state for closed examples: a counter that is also the random
    source; the limiter refuses odd counts. *)
Definition exampleShared : Shared Z :=
  {| requestID_Add g := (g + 1, g + 1); rng_Int63 g := (g, g + 1); rng_Intn g n := (g mod n, g + 1);
     limiter_Allow g := (Z.even g, g + 1) |}.
Definition exampleHTTPRequest (h : header) (b : option body) : httpRequest :=
  {| r_Method := "GET"; r_Path := "/a"; r_RawQuery := ""; r_Host := "example.org";
     r_RemoteAddr := "[2001:db8::1]:4711"; r_TLS := true; r_Header := h; r_Body := b |}.

Lemma addresses_spec_witness :
  let r := exampleHTTPRequest {["X-Forwarded-For" := ["10.0.0.9 , 10.0.0.1"]]} None in
  peerIP r = "2001:db8::1" /\ clientIP r = "10.0.0.9".
Proof.
  intros r. destruct (addresses_spec r "2001:db8::1") as (Hp & _ & Hc).
  - right. right. exists "4711". unfold no_bracket. split_and!;
      first [reflexivity | apply (bool_decide_unpack _); vm_compute; reflexivity].
  - discriminate.
  - reflexivity.
  - split; [exact Hp|]. rewrite (Hc "10.0.0.9 " [" 10.0.0.1"]); [reflexivity|reflexivity|discriminate|].
    apply (bool_decide_unpack _). vm_compute. reflexivity.
Defined.
End forwarding.
