(* ===== verification/GrpcHandler.v ===== *)
(** * [internal/grpcproxy/handler.go]: one RPC through the gRPC proxy

    [Handle] puts the parts together: caller authentication, rule resolution,
    target selection, the bearer token of the primary, the shadow policy, both
    upstream streams, comparison and reports.  What RPCs share is passed
    through ([handlerState]).  The client, the upstreams and the clock are an
    [rpc]: in particular [rq_shadow] tells how far the shadow goroutines have
    come when [Wait] returns ([GrpcShadow] has the states they can reach). *)
From S2P Require Export HttpForward GrpcRules GrpcReport Bearer GrpcFlights.

Module grpchandler.
Import grpcrules targets logging protobuf logfields callerauth bearer grpcmetadata grpcstream grpccompare
  grpcshadow grpcreport.

Section handler.
Context {G W : Type} `{forwarding.Shared G, TokenWorld W, NetIP, Unicode, URLs}.

(** [Handler], the fields that do not change. *)
Record handler := {
  h_cfg : grpcConfig;
  h_auth : GRPCCallerAuthConfig;
  h_tls : GRPCTLSConfig;
  h_oidc : GRPCBackendOIDCAuthConfig;
  h_resolver : Resolver;
  h_hasLimiter : bool;
  h_enabled : option (Z -> bool);
  h_hasObs : bool;
  h_bearerInit : option error;
  h_jsonString : string -> option string;
  h_jsonStrings : string -> option (list string)
}.

(** What concurrent RPCs share. *)
Record handlerState := {
  hs_shared : G;
  hs_pools : option TargetPools;
  hs_token : tokenState;
  hs_world : W;
  hs_logs : callerLogLimiter
}.
Definition set_shared (s : handlerState) (g : G) : handlerState :=
  {| hs_shared := g; hs_pools := hs_pools s; hs_token := hs_token s; hs_world := hs_world s; hs_logs := hs_logs s |}.
Definition set_pools (s : handlerState) (p : option TargetPools) : handlerState :=
  {| hs_shared := hs_shared s; hs_pools := p; hs_token := hs_token s; hs_world := hs_world s; hs_logs := hs_logs s |}.
Definition set_token (s : handlerState) (t : tokenState) (w : W) : handlerState :=
  {| hs_shared := hs_shared s; hs_pools := hs_pools s; hs_token := t; hs_world := w; hs_logs := hs_logs s |}.
Definition set_logs (s : handlerState) (l : callerLogLimiter) : handlerState :=
  {| hs_shared := hs_shared s; hs_pools := hs_pools s; hs_token := hs_token s; hs_world := hs_world s; hs_logs := l |}.

(** One RPC and its surroundings: the method of the stream, the incoming
    metadata, the peer's address and verified chains, the client's script, the
    orders in which Go ranges over maps and takes select branches, the
    upstreams, the introspection and the shadow's progress. *)
Record rpc := {
  rq_method : option string;
  rq_incoming : option mdRange;
  rq_peerAddr : option string;
  rq_chains : option (list nat);
  rq_traceID : string;
  rq_server : serverScript;
  rq_range : gmap string string -> list (string * string);
  rq_requestsFirst : bool;
  rq_elapsed : Z;
  rq_injectPrimary : MD -> MD;
  rq_injectShadow : MD -> MD;
  rq_newStream : Target -> MD -> res clientScript;
  rq_introspect : string -> callerAuthError + introspectionClaims;
  rq_nowUnix : Z;
  rq_now : Z;
  rq_shadow : shadowForwarder -> list requestOp -> shadowForwarder * waited
}.
Definition incomingMD (rq : rpc) : MD := list_to_map (default [] (rq_incoming rq)).

(** Everything an RPC does to the outside. *)
Record rpcOutput := {
  o_error : option (callerAuthError + error);
  o_primary : option (Target * MD);
  o_shadow : option (Target * MD);
  o_requests : list requestOp;
  o_responses : list responseOp;
  o_observed : list observation;
  o_logs : list logRecord
}.

(** ** Decisions *)

Definition resolve (h : handler) (fullMethod : string) : res Decision :=
  match h_resolver h with
  | None => Err (status_Error codes_Internal "gRPC resolver not configured")
  | Some _ => Resolve (h_resolver h) fullMethod
  end.

(** The decision, or the error of the RPC and its context. *)
Definition resolveDecision (h : handler) (fullMethod : string) (rx : grpcRPCContext)
    : res Decision * grpcRPCContext :=
  match resolve h fullMethod with
  | Ok d => (Ok d, rx)
  | Err err =>
      (Err (match status_FromError err with
            | Some _ => err
            | None => status_Error codes_Unimplemented ("unsupported gRPC method: " +:+ Error err)
            end),
       with_outcome rx OutcomeBadRequest (Some (Error err)) codes_Unimplemented)
  end.

Definition requestInfo (rq : rpc) (fullMethod : string) (d : Decision) : RequestInfo :=
  {| ri_FullMethod := fullMethod; ri_Service := Service d; ri_Method := Method d;
     ri_PeerAddr := default "" (rq_peerAddr rq);
     ri_PeerIP := rq_peerAddr rq ≫= parsePeerIP |}.

Definition pickPrimaryTarget (rq : rpc) (fullMethod : string) (d : Decision) (s : handlerState)
    : option Target * handlerState :=
  match hs_pools s with
  | None => (None, s)
  | Some pools =>
      match Primary pools with
      | None => (None, s)
      | Some pool =>
          let '(t, pool) := Pick (Some pool) (requestInfo rq fullMethod d) in
          (t, set_pools s (Some {| Primary := pool; Shadow := Shadow pools |}))
      end
  end.

Definition pickShadowTarget (rq : rpc) (fullMethod : string) (d : Decision) (sd : grpcShadowPolicyDecision)
    (s : handlerState) : option Target * handlerState :=
  match doShadow sd, hs_pools s with
  | true, Some pools =>
      match Shadow pools with
      | None => (None, s)
      | Some pool =>
          let '(t, pool) := Pick (Some pool) (requestInfo rq fullMethod d) in
          (t, set_pools s (Some {| Primary := Primary pools; Shadow := pool |}))
      end
  | _, _ => (None, s)
  end.

Definition forcedShadow (h : handler) (rq : rpc) : bool :=
  if decide (GRPCShadowForceMetadata (h_cfg h) = "") then false
  else
    match rq_incoming rq with
    | None => false
    | Some _ =>
        existsb (fun value => negb (bool_decide (value = "")))
                (md_Get (incomingMD rq) (GRPCShadowForceMetadata (h_cfg h)))
    end.

Definition sampleShadow (h : handler) (s : handlerState) : bool * handlerState :=
  let percent := ShadowSamplePercent (h_cfg h) in
  if 100 <=? percent then (true, s)
  else if percent <=? 0 then (false, s)
  else let '(n, g) := forwarding.rng_Intn (hs_shared s) 100 in (n <? percent, set_shared s g).

Definition noShadowTargets (s : handlerState) : bool :=
  match hs_pools s with
  | Some pools => match Shadow pools with Some pool => bool_decide (tp_targets pool = []) | None => true end
  | None => true
  end.

Definition shouldShadow (h : handler) (rq : rpc) (d : Decision) (s : handlerState)
    : grpcShadowPolicyDecision * handlerState :=
  let forcedShadow := forcedShadow h rq in
  let skip reason := {| doShadow := false; forced := forcedShadow; skipReason := reason |} in
  if noShadowTargets s then (skip shadowSkipReasonNoTargets, s)
  else if decide (d_ShadowMode d = ShadowModeNever) then
    (skip (if decide (ShadowSkipReason d = "") then SkipReasonGRPCRule else ShadowSkipReason d), s)
  else
    let '(doShadow, s) :=
      if decide (d_ShadowMode d = ShadowModeAlways) then (true, s)
      else if forcedShadow then (true, s) else sampleShadow h s in
    let plain := {| doShadow := doShadow; forced := forcedShadow; skipReason := "" |} in
    if doShadow && negb forcedShadow && h_hasLimiter h then
      let '(allowed, g) := forwarding.limiter_Allow (hs_shared s) in
      (if allowed then plain else skip shadowSkipReasonRateLimited, set_shared s g)
    else (plain, s).

(** ** The primary's metadata *)

(** The overlay as a map; the nil map reads as empty. *)
Definition primaryMetadata (h : handler) (d : Decision) (s : handlerState)
    : res (gmap string string) * handlerState :=
  let overlay := default ∅ (cloneStringMap (PrimaryMetadata d)) in
  if negb (oidc_Enabled (h_oidc h)) then (Ok overlay, s)
  else
    let '(r, token, w) := Authorization (h_oidc h) (h_bearerInit h) (hs_token s) (hs_world s) in
    (match r with
     | Err err => Err err
     | Ok authorization => Ok (<[bearerAuthHeader := authorization]> overlay)
     end, set_token s token w).

Definition outgoing (rq : rpc) (inject : MD -> MD) (overlay : gmap string string) : MD :=
  outgoingMetadata inject (default [] (rq_incoming rq)) (rq_range rq overlay).

(** ** The shadow *)

Definition skippedShadowResult (reason err : string) : grpcStreamResult :=
  set_reason zeroStreamResult reason err.

(** The forwarder; [Some target] when its goroutine runs. *)
Definition startShadow (h : handler) (fullMethod : string) (sd : grpcShadowPolicyDecision)
    (target : option Target) : shadowForwarder * option Target :=
  if negb (doShadow sd) then (newCompletedShadowForwarder (skippedShadowResult (skipReason sd) ""), None)
  else
    match target with
    | Some t =>
        match t_Conn t with
        | Some _ => (newShadowForwarder (t_Name t) (h_cfg h) fullMethod, Some t)
        | None => (newCompletedShadowForwarder (skippedShadowResult shadowSkipReasonTargetUnavailable
                                                  shadowSkipReasonTargetUnavailable), None)
        end
    | None => (newCompletedShadowForwarder (skippedShadowResult shadowSkipReasonTargetUnavailable
                                              shadowSkipReasonTargetUnavailable), None)
    end.

Definition hasConn (target : option Target) : bool :=
  match target with Some t => bool_decide (is_Some (t_Conn t)) | None => false end.

Definition prepareShadow (h : handler) (rq : rpc) (fullMethod : string) (d : Decision) (rx : grpcRPCContext)
    (s : handlerState)
    : grpcShadowPolicyDecision * (shadowForwarder * option Target) * grpcRPCContext * handlerState :=
  let '(sd, s) := shouldShadow h rq d s in
  let '(target, s) := pickShadowTarget rq fullMethod d sd s in
  (sd, startShadow h fullMethod sd target, with_shadow rx (doShadow sd) (hasConn target), s).

(** The result [shadow.Wait] returns: a forwarder that is already complete
    does not wait. *)
Definition waitShadow (rq : rpc) (shadow : shadowForwarder) (ops : list requestOp) : grpcStreamResult :=
  if sf_done shadow then (Wait shadow WaitDone).1
  else let '(s, w) := rq_shadow rq shadow ops in (Wait s w).1.

(** ** Endings *)

Definition rejectCaller (h : handler) (rq : rpc) (rx : grpcRPCContext) (authErr : callerAuthError)
    (s : handlerState) : grpcRPCContext * list logRecord * handlerState :=
  let rx := with_cause (with_outcome rx (outcome authErr) (Some (ae_Error authErr)) (ae_code authErr))
                       (ae_cause authErr) in
  match h_enabled h with
  | None => (rx, [], s)
  | Some enabled =>
      let attrs := [("reason", StringValue (Code_String (ae_code authErr)));
                    ("cause", StringValue (ae_cause authErr))] in
      let details :=
        ((if ae_httpStatus authErr =? 0 then [] else [("http_status", Int64Value (ae_httpStatus authErr))])
         ++ (if decide (ae_detail authErr = "") then [] else [("detail", StringValue (ae_detail authErr))]))%list in
      let log suppressed :=
        if enabled (logLevel authErr)
        then [{| lr_level := logLevel authErr; lr_msg := "grpc caller rejected";
                 lr_attrs := (attrs ++ suppressed ++ details)%list |}] else [] in
      if technical authErr then
        let '(allowed, suppressed, logs) := allow (hs_logs s) (logKey authErr) (rq_now rq) in
        (rx, if negb allowed then []
             else log (if 0 <? suppressed then [("suppressed", Int64Value suppressed)] else []),
         set_logs s logs)
      else (rx, log [], s)
  end.

Definition primaryMetadataError (h : handler) (rx : grpcRPCContext) (err : error)
    : error * grpcRPCContext * list logRecord :=
  (status_Error codes_Unavailable "primary bearer token unavailable",
   with_outcome rx OutcomeError (Some (Error err)) codes_Unavailable,
   match h_enabled h with
   | Some enabled =>
       if enabled LevelWarn
       then [{| lr_level := LevelWarn; lr_msg := "primary bearer token unavailable";
                lr_attrs := [("error", StringValue (Error err))] |}] else []
   | None => []
   end).

Definition missingPrimaryTargetError (rx : grpcRPCContext) : error * grpcRPCContext :=
  let err := status_Error codes_Unavailable "no primary gRPC target available" in
  (err, with_outcome rx OutcomeError (Some (Error err)) codes_Unavailable).

(** [finishRPCResult]; [shadowSpan]: the forwarder started a span. *)
Definition finishRPCResult (h : handler) (fullMethod : string) (rx : grpcRPCContext) (d : Decision)
    (target : Target) (sd : grpcShadowPolicyDecision) (shadowSpan : bool)
    (shadowResult primaryResult : grpcStreamResult) (primaryErr : option error)
    : grpcRPCContext * list observation * list logRecord :=
  let compareResult := compareRPCResult (Some (h_cfg h)) d sd primaryResult shadowResult in
  let observed := (finishSpan shadowSpan fullMethod shadowResult
    ++ finishBackendObservation (h_hasObs h) "primary" fullMethod primaryResult primaryErr
    ++ finishShadowObservation (h_hasObs h) fullMethod shadowResult
    ++ finishComparisonObservation (h_hasObs h) compareResult)%list in
  let rx := with_shadow (with_outcome rx (grpcIngressOutcome primaryErr) (Error <$> primaryErr)
                           (StatusCode primaryResult)) (rx_shadowEnabled rx) (Started shadowResult) in
  (rx, observed,
   logRPCResult (h_cfg h) (h_enabled h) rx fullMethod d (Some target) sd primaryResult shadowResult compareResult).
End handler.

(** ** [Handle]

    [proceed] is [Handle] once the target and the primary's metadata are
    known, [serve] is [Handle] once the caller is admitted. *)

Section handle.
Context {G W : Type} `{forwarding.Shared G, TokenWorld W, NetIP, Unicode, URLs}.
Implicit Types (h : handler) (rq : rpc) (s : handlerState (G := G) (W := W)).

(** An RPC that ends before anything is sent upstream. *)
Definition ended h (err : callerAuthError + error) (rx : grpcRPCContext) (logs : list logRecord) : rpcOutput :=
  {| o_error := Some err; o_primary := None; o_shadow := None; o_requests := []; o_responses := [];
     o_observed := finishGRPCObservation (h_hasObs h) rx; o_logs := logs |}.

(** The result of a primary stream that could not be created. *)
Definition createFailed (err : option error) : grpcStreamResult :=
  setError {| ProtobufFields := []; Started := false; Complete := false; Selected := ""; MessageCount := 0;
              MessageHash := emptyMessageHash; r_Header := ∅; r_Trailer := ∅; StatusCode := codes_OK;
              StatusMessage := ""; Duration := 0; r_Err := ""; SkipReason := "" |} err.

(** The upstream calls of both sides: what is relayed, the result of the
    primary and its error.  The shadow forwarder is never nil. *)
Definition callPrimary rq (target : Target) (md : MD)
    : list requestOp * list responseOp * grpcStreamResult * option error :=
  match rq_newStream rq target md with
  | Err err =>
      let primaryErr := primaryStreamError "create primary stream" (Some err) in
      ([OpCloseShadow], [], createFailed primaryErr, primaryErr)
  | Ok primary =>
      let '(requests, responses, result) :=
        forwardPrimaryStream (rq_server rq) primary true (rq_requestsFirst rq) (rq_elapsed rq) in
      let '(primaryResult, primaryErr) := default (zeroStreamResult, None) result in
      (requests, responses, primaryResult, primaryErr)
  end.

Definition proceed h rq (fullMethod : string) (rx : grpcRPCContext) (d : Decision) (target : Target)
    (overlay : gmap string string) s : rpcOutput * handlerState :=
  let '(sd, (shadow, shadowTarget), rx, s) := prepareShadow h rq fullMethod d rx s in
  let md := outgoing rq (rq_injectPrimary rq) overlay in
  let '(requests, responses, primaryResult, primaryErr) := callPrimary rq target md in
  let rx := captureStreams rx requests responses in
  let shadowResult := waitShadow rq shadow requests in
  let '(rx, observed, logs) :=
    finishRPCResult h fullMethod rx d target sd (h_hasObs h && bool_decide (is_Some shadowTarget))
                    shadowResult primaryResult primaryErr in
  ({| o_error := inr <$> primaryErr;
      o_primary := Some (target, md);
      o_shadow := (fun t => (t, outgoing rq (rq_injectShadow rq) (default ∅ (ShadowMetadata d)))) <$> shadowTarget;
      o_requests := requests; o_responses := responses;
      o_observed := (observed ++ finishGRPCObservation (h_hasObs h) rx)%list; o_logs := logs |}, s).

Definition serve h rq (fullMethod : string) (rx : grpcRPCContext) s : rpcOutput * handlerState :=
  match resolveDecision h fullMethod rx with
  | (Err err, rx) => (ended h (inr err) rx [], s)
  | (Ok d, rx) =>
      let '(target, s) := pickPrimaryTarget rq fullMethod d s in
      match target with
      | None => let '(err, rx) := missingPrimaryTargetError rx in (ended h (inr err) rx [], s)
      | Some target =>
          let '(overlay, s) := primaryMetadata h d s in
          match overlay with
          | Err err =>
              let '(err, rx, logs) := primaryMetadataError h rx err in (ended h (inr err) rx logs, s)
          | Ok overlay => proceed h rq fullMethod rx d target overlay s
          end
      end
  end.

Definition authenticate h rq (fullMethod : string) : option callerAuthError :=
  authenticateCaller (h_jsonString h) (h_jsonStrings h) (h_auth h) (h_tls h) (h_oidc h) (incomingMD rq)
    (rq_chains rq) fullMethod (rq_introspect rq) (rq_nowUnix rq).

Definition prepareRPCContext h rq (fullMethod : string) s : grpcRPCContext * handlerState :=
  let '(reqID, g) := forwarding.requestID_Add (hs_shared s) in
  (with_trace (newRPCContext (h_cfg h) (incomingMD rq) (default "" (rq_peerAddr rq)) reqID fullMethod)
              (if h_hasObs h then rq_traceID rq else ""), set_shared s g).

Definition Handle h rq s : rpcOutput * handlerState :=
  match rq_method rq with
  | None =>
      ({| o_error := Some (inr (status_Error codes_Internal "gRPC full method is unavailable"));
          o_primary := None; o_shadow := None; o_requests := []; o_responses := [];
          o_observed := []; o_logs := [] |}, s)
  | Some fullMethod =>
      let '(rx, s) := prepareRPCContext h rq fullMethod s in
      match authenticate h rq fullMethod with
      | Some authErr =>
          let '(rx, logs, s) := rejectCaller h rq rx authErr s in (ended h (inl authErr) rx logs, s)
      | None => serve h rq fullMethod rx s
      end
  end.
End handle.

(** ** Specification *)

Section spec.
Context {G W : Type} `{forwarding.Shared G, TokenWorld W, NetIP, Unicode, URLs}.
Implicit Types (h : handler) (rq : rpc) (s : handlerState (G := G) (W := W)).

(** The same RPC with shadow goroutines, trace headers and upstream answers to
    the shadow of any other kind. *)
Definition with_shadow_side rq (shadow : shadowForwarder -> list requestOp -> shadowForwarder * waited)
    (inject : MD -> MD) : rpc :=
  {| rq_method := rq_method rq; rq_incoming := rq_incoming rq; rq_peerAddr := rq_peerAddr rq;
     rq_chains := rq_chains rq; rq_traceID := rq_traceID rq; rq_server := rq_server rq;
     rq_range := rq_range rq; rq_requestsFirst := rq_requestsFirst rq; rq_elapsed := rq_elapsed rq;
     rq_injectPrimary := rq_injectPrimary rq; rq_injectShadow := inject; rq_newStream := rq_newStream rq;
     rq_introspect := rq_introspect rq; rq_nowUnix := rq_nowUnix rq; rq_now := rq_now rq; rq_shadow := shadow |}.
(** The state with another shadow pool, or none. *)
Definition with_shadow_pool s (pool : option TargetPool) : handlerState :=
  set_pools s ((fun p => {| Primary := Primary p; Shadow := pool |}) <$> hs_pools s).

Definition untouched (out : rpcOutput) : Prop :=
  o_primary out = None /\ o_shadow out = None /\ o_requests out = [] /\ o_responses out = [].

Definition comparisons (l : list observation) : list string :=
  omap (fun o => match o with ObserveComparison r => Some r | _ => None end) l.
Definition ingress (l : list observation) : list (string * string) :=
  omap (fun o => match o with ObserveIngressRequest m r _ _ => Some (m, r) | _ => None end) l.

Lemma rejectCaller_spec h rq rx authErr s :
  let '(rx', _, s') := rejectCaller h rq rx authErr s in
  rx_outcome rx' = outcome authErr /\ rx_fullMethod rx' = rx_fullMethod rx /\
  hs_pools s' = hs_pools s /\ hs_token s' = hs_token s /\ hs_world s' = hs_world s.
Proof.
  unfold rejectCaller. destruct (h_enabled h); [|done].
  destruct (technical authErr); [|done]. by destruct (allow _ _ _) as [[allowed suppressed] logs].
Qed.

Lemma ingress_finish h rx :
  ingress (finishGRPCObservation (h_hasObs h) rx) = if h_hasObs h then [(rx_fullMethod rx, rx_outcome rx)] else [].
Proof. unfold finishGRPCObservation. by destruct (h_hasObs h). Qed.

Lemma prepareShadow_rx h rq m d rx s :
  rx_fullMethod (prepareShadow h rq m d rx s).1.2 = rx_fullMethod rx.
Proof.
  unfold prepareShadow. destruct (shouldShadow h rq d s) as [sd s1].
  by destruct (pickShadowTarget rq m d sd s1).
Qed.

Lemma proceed_error h rq m rx d target overlay s :
  exists err, o_error (proceed h rq m rx d target overlay s).1 = inr <$> err.
Proof.
  unfold proceed. destruct (prepareShadow h rq m d rx s) as [[[sd [shadow st]] rx1] s1].
  destruct (callPrimary rq target _) as [[[requests responses] result] err].
  destruct (finishRPCResult _ _ _ _ _ _ _ _ _ _) as [[rx2 observed] logs]. by exists err.
Qed.

Lemma serve_error h rq m rx s authErr : o_error (serve h rq m rx s).1 <> Some (inl authErr).
Proof.
  unfold serve. destruct (resolveDecision h m rx) as [[d|err] rx1]; [|done].
  destruct (pickPrimaryTarget rq m d s) as [[target|] s1]; [|done].
  destruct (primaryMetadata h d s1) as [[overlay|err] s2]; [|done].
  destruct (proceed_error h rq m rx1 d target overlay s2) as [[e|] ->]; done.
Qed.

(** C13. Nothing happens for a caller that is not admitted: no upstream is
    called, no bearer token is asked for, no target is picked, and the RPC
    fails with the authentication error, counted under its outcome.  An
    admitted caller never gets an authentication error. *)
Theorem Handle_authenticates h rq s :
  let '(out, s') := Handle h rq s in
  match rq_method rq with
  | None => untouched out /\ s' = s /\
      o_error out = Some (inr (status_Error codes_Internal "gRPC full method is unavailable"))
  | Some m =>
      match authenticate h rq m with
      | Some authErr =>
          untouched out /\ o_error out = Some (inl authErr) /\
          hs_pools s' = hs_pools s /\ hs_token s' = hs_token s /\ hs_world s' = hs_world s /\
          (h_hasObs h = true -> ingress (o_observed out) = [(m, outcome authErr)])
      | None => forall authErr, o_error out <> Some (inl authErr)
      end
  end.
Proof.
  unfold Handle. destruct (rq_method rq) as [m|]; [|done].
  unfold prepareRPCContext. destruct (forwarding.requestID_Add (hs_shared s)) as [reqID g].
  set (rx := with_trace _ _). destruct (authenticate h rq m) as [authErr|].
  - pose proof (rejectCaller_spec h rq rx authErr (set_shared s g)) as Hr.
    destruct (rejectCaller _ _ _ _ _) as [[rx' logs] s'].
    destruct Hr as (Ho & Hm & Hp & Ht & Hw). split_and!; try done.
    intros Hobs. cbn [ended o_observed]. by rewrite ingress_finish, Hobs, Ho, Hm.
  - destruct (serve h rq m rx (set_shared s g)) as [out s'] eqn:E. intros authErr.
    pose proof (serve_error h rq m rx (set_shared s g) authErr) as He. by rewrite E in He.
Qed.
End spec.

Section isolation.
Context {G W : Type} `{forwarding.Shared G, TokenWorld W, NetIP, Unicode, URLs}.
Implicit Types (h : handler) (rq : rpc) (s : handlerState (G := G) (W := W)).

(** What the client and the primary see of an RPC. *)
Definition clientView (out : rpcOutput) :=
  (o_error out, o_primary out, o_requests out, o_responses out).
(** What later RPCs share, but for the shadow's part. *)
Definition primaryState s := (Primary <$> hs_pools s, hs_token s, hs_world s).

Lemma sampleShadow_state h s : primaryState (sampleShadow h s).2 = primaryState s.
Proof.
  unfold sampleShadow. destruct (100 <=? _); [done|]. destruct (_ <=? 0); [done|].
  by destruct (forwarding.rng_Intn _ _).
Qed.

Lemma shouldShadow_state h rq d s : primaryState (shouldShadow h rq d s).2 = primaryState s.
Proof.
  unfold shouldShadow. destruct (noShadowTargets s); [done|].
  destruct (decide (d_ShadowMode d = ShadowModeNever)); [done|].
  assert (E : primaryState (if decide (d_ShadowMode d = ShadowModeAlways) then (true, s)
    else if forcedShadow h rq then (true, s) else sampleShadow h s).2 = primaryState s).
  { case_decide; [done|]. destruct (forcedShadow h rq); [done|]. apply sampleShadow_state. }
  destruct (if decide (d_ShadowMode d = ShadowModeAlways) then _ else _) as [doShadow s1]. cbn [snd] in E.
  destruct (doShadow && _ && _); [|done]. by destruct (forwarding.limiter_Allow _).
Qed.

Lemma prepareShadow_state h rq m d rx s : primaryState (prepareShadow h rq m d rx s).2 = primaryState s.
Proof.
  unfold prepareShadow. pose proof (shouldShadow_state h rq d s) as E.
  destruct (shouldShadow h rq d s) as [sd s1]. cbn [snd] in E. rewrite <- E. unfold pickShadowTarget.
  destruct (doShadow sd); [|done]. destruct (hs_pools s1) as [pools|] eqn:Ep; [|done].
  destruct (Shadow pools) as [pool|]; [|done].
  destruct (Pick (Some pool) (requestInfo rq m d)) as [t pool']. unfold primaryState. cbn. by rewrite Ep.
Qed.

Lemma proceed_view h rq m rx d target overlay s :
  clientView (proceed h rq m rx d target overlay s).1 =
    (let '(requests, responses, _, err) := callPrimary rq target (outgoing rq (rq_injectPrimary rq) overlay) in
     (inr <$> err, Some (target, outgoing rq (rq_injectPrimary rq) overlay), requests, responses)) /\
  primaryState (proceed h rq m rx d target overlay s).2 = primaryState s.
Proof.
  unfold proceed. pose proof (prepareShadow_state h rq m d rx s) as E.
  destruct (prepareShadow h rq m d rx s) as [[[sd [shadow st]] rx1] s1]. cbn [snd] in E.
  destruct (callPrimary rq target _) as [[[requests responses] result] err].
  by destruct (finishRPCResult _ _ _ _ _ _ _ _ _ _) as [[rx2 observed] logs].
Qed.

Lemma pickPrimary_other rq m d s pool :
  let '(t, s1) := pickPrimaryTarget rq m d s in
  pickPrimaryTarget rq m d (with_shadow_pool s pool) = (t, with_shadow_pool s1 pool).
Proof.
  unfold pickPrimaryTarget, with_shadow_pool. destruct s as [g [[[p|] sp]|] t w l]; try done.
  cbn [hs_pools set_pools fmap option_fmap option_map Primary Shadow].
  by destruct (Pick (Some p) (requestInfo rq m d)).
Qed.

Lemma primaryMetadata_other h d s pool :
  let '(r, s1) := primaryMetadata h d s in
  primaryMetadata h d (with_shadow_pool s pool) = (r, with_shadow_pool s1 pool).
Proof.
  unfold primaryMetadata. destruct (oidc_Enabled (h_oidc h)); [|done]. cbn [negb].
  cbn [with_shadow_pool set_pools hs_token hs_world].
  by destruct (Authorization _ _ (hs_token s) (hs_world s)) as [[r token] w].
Qed.

Lemma pool_state s pool : primaryState (with_shadow_pool s pool) = primaryState s.
Proof. unfold primaryState, with_shadow_pool. by destruct s as [? [?|] ? ? ?]. Qed.

Lemma serve_isolated h rq m rx s shadow inject pool :
  clientView (serve h (with_shadow_side rq shadow inject) m rx (with_shadow_pool s pool)).1
    = clientView (serve h rq m rx s).1 /\
  primaryState (serve h (with_shadow_side rq shadow inject) m rx (with_shadow_pool s pool)).2
    = primaryState (serve h rq m rx s).2.
Proof.
  unfold serve. destruct (resolveDecision h m rx) as [[d|err] rx1]; [|split; [done|apply pool_state]].
  change (pickPrimaryTarget (with_shadow_side rq shadow inject)) with (pickPrimaryTarget (G := G) (W := W) rq).
  pose proof (pickPrimary_other rq m d s pool) as Ep. destruct (pickPrimaryTarget rq m d s) as [[target|] s1];
    rewrite Ep; [|split; [done|apply pool_state]].
  pose proof (primaryMetadata_other h d s1 pool) as Em. destruct (primaryMetadata h d s1) as [[overlay|err] s2];
    rewrite Em; [|split; [done|apply pool_state]].
  destruct (proceed_view h rq m rx1 d target overlay s2) as [-> ->].
  destruct (proceed_view h (with_shadow_side rq shadow inject) m rx1 d target overlay (with_shadow_pool s2 pool))
    as [-> ->].
  split; [done|apply pool_state].
Qed.

End isolation.

Section served.
Context {G W : Type} `{forwarding.Shared G, TokenWorld W, NetIP, Unicode, URLs}.
Implicit Types (h : handler) (rq : rpc) (s : handlerState (G := G) (W := W)).

Lemma pickPrimary_shared rq m d s g :
  pickPrimaryTarget rq m d (set_shared s g) =
    ((pickPrimaryTarget rq m d s).1, set_shared (pickPrimaryTarget rq m d s).2 g).
Proof.
  unfold pickPrimaryTarget. destruct s as [g0 [[[p|] sp]|] t w l]; try done.
  cbn [hs_pools set_shared Primary]. by destruct (Pick (Some p) (requestInfo rq m d)).
Qed.

Lemma overlay_id (o : option (gmap string string)) : cloneStringMap o = o.
Proof. destruct o; [|done]. unfold cloneStringMap. by rewrite copy_map_id. Qed.

Lemma primaryMetadata_spec h d s :
  let '(r, s') := primaryMetadata h d s in
  hs_shared s' = hs_shared s /\ hs_pools s' = hs_pools s /\
  if oidc_Enabled (h_oidc h) then
    exists a, Authorization (h_oidc h) (h_bearerInit h) (hs_token s) (hs_world s) = (a, hs_token s', hs_world s') /\
      r = (value ← a; Ok (<[bearerAuthHeader := value]> (default ∅ (PrimaryMetadata d))))
  else r = Ok (default ∅ (PrimaryMetadata d)) /\ s' = s.
Proof.
  unfold primaryMetadata. rewrite overlay_id. destruct (oidc_Enabled (h_oidc h)); [|done]. cbn [negb].
  destruct (Authorization _ _ _ _) as [[a token] w]. split_and!; [done|done|].
  exists a. split; [done|]. by destruct a.
Qed.

(** The part of the state that picking a primary target keeps. *)
Lemma pickPrimary_token rq m d s :
  hs_token (pickPrimaryTarget rq m d s).2 = hs_token s /\ hs_world (pickPrimaryTarget rq m d s).2 = hs_world s.
Proof.
  unfold pickPrimaryTarget. destruct s as [g0 [[[p|] sp]|] t w l]; try done.
  cbn [hs_pools Primary]. by destruct (Pick (Some p) (requestInfo rq m d)).
Qed.

Lemma startShadow_target h m sd target shadow t :
  startShadow h m sd target = (shadow, t) ->
  (t = target /\ is_Some t) \/
  (t = None /\ sf_done shadow = true /\
   (doShadow sd = true -> SkipReason (Wait shadow WaitDone).1 <> "")).
Proof.
  unfold startShadow. destruct (doShadow sd); cbn [negb].
  - destruct target as [t0|]; [destruct (t_Conn t0)|]; intros [= <- <-]; [left; by split|..]; right; by split_and!.
  - intros [= <- <-]. right. by split_and!.
Qed.

Lemma ingress_app l l' : ingress (l ++ l') = (ingress l ++ ingress l')%list.
Proof. apply omap_app. Qed.
Lemma comparisons_app l l' : comparisons (l ++ l') = (comparisons l ++ comparisons l')%list.
Proof. apply omap_app. Qed.

(** The observations of a finished RPC. *)
Lemma finishRPCResult_observed h m rx d target sd span shadowResult primaryResult err :
  let '(rx', observed, _) := finishRPCResult h m rx d target sd span shadowResult primaryResult err in
  rx_fullMethod rx' = rx_fullMethod rx /\ rx_outcome rx' = grpcIngressOutcome err /\
  ingress observed = [] /\
  comparisons observed = if h_hasObs h then
    [grpcComparisonMetricResult (compareRPCResult (Some (h_cfg h)) d sd primaryResult shadowResult)] else [].
Proof.
  unfold finishRPCResult. cbv zeta. rewrite !ingress_app, !comparisons_app.
  unfold finishSpan, finishBackendObservation, finishShadowObservation, finishComparisonObservation.
  split_and!; [done|done| |]; destruct span, (h_hasObs h); cbn [negb orb]; try done;
    by destruct (Started shadowResult).
Qed.

Lemma comparisons_finish h rx : comparisons (finishGRPCObservation (h_hasObs h) rx) = [].
Proof. unfold finishGRPCObservation. by destruct (h_hasObs h). Qed.

(** A result is only called same or different after a complete shadow answer. *)
Lemma compared_result cfg d sd primary shadow r :
  r = grpcComparisonMetricResult (compareRPCResult cfg d sd primary shadow) ->
  r = ResultSame \/ r = ResultDiff ->
  d_CompareDecision d <> CompareDecisionOff /\ doShadow sd = true /\
  SkipReason shadow = "" /\ Started shadow = true /\ Complete shadow = true.
Proof.
  intros -> Hr. revert Hr. unfold compareRPCResult. destruct (resolveCompareConfig cfg d) as [mode keys].
  destruct (decide (d_CompareDecision d = CompareDecisionOff)); [by intros [?|?]|].
  destruct (doShadow sd); cbn [negb]; [|by intros [?|?]].
  pose proof (incomplete_spec shadow) as Hi.
  destruct (decide (incompleteShadowCompareError shadow <> "")) as [He|He]; [by intros [?|?]|].
  intros _. split_and!; try done; apply Hi; by apply dec_stable.
Qed.

Lemma proceed_observed h rq m rx d target overlay s :
  let '(out, _) := proceed h rq m rx d target overlay s in
  exists r, comparisons (o_observed out) = (if h_hasObs h then [r] else []) /\
    (r = ResultSame \/ r = ResultDiff -> is_Some (o_shadow out) /\ d_CompareDecision d <> CompareDecisionOff) /\
    ingress (o_observed out) =
      (let '(_, _, _, err) := callPrimary rq target (outgoing rq (rq_injectPrimary rq) overlay) in
       if h_hasObs h then [(rx_fullMethod rx, grpcIngressOutcome err)] else []) /\
    (forall t md, o_shadow out = Some (t, md) -> md = outgoing rq (rq_injectShadow rq) (default ∅ (ShadowMetadata d))).
Proof.
  unfold proceed. pose proof (prepareShadow_rx h rq m d rx s) as Erx. unfold prepareShadow in *.
  destruct (shouldShadow h rq d s) as [sd s1]. destruct (pickShadowTarget rq m d sd s1) as [st s2].
  cbn [fst snd] in Erx. destruct (startShadow h m sd st) as [shadow t] eqn:Est.
  apply startShadow_target in Est.
  destruct (callPrimary rq target _) as [[[requests responses] result] err].
  set (shadowResult := waitShadow rq shadow requests).
  pose proof (finishRPCResult_observed h m (captureStreams (with_shadow rx (doShadow sd) (hasConn st)) requests responses)
    d target sd (h_hasObs h && bool_decide (is_Some t)) shadowResult result err) as Hf.
  destruct (finishRPCResult _ _ _ _ _ _ _ _ _ _) as [[rx2 observed] logs].
  destruct Hf as (Hm & Ho & Hi & Hc). cbn [o_observed o_shadow].
  rewrite comparisons_app, ingress_app, comparisons_finish, Hi, Hc, ingress_finish, Hm, Ho.
  eexists. split_and!; [by destruct (h_hasObs h)| |done|].
  - intros Hr. apply (compared_result (Some (h_cfg h)) d sd result shadowResult _ eq_refl) in Hr as (Hon & Hdo & Hskip & _).
    split; [|done]. destruct Est as [[_ [t0 ->]]|(-> & Hd & Hs)]; [done|].
    exfalso. apply Hs; [done|]. unfold shadowResult, waitShadow in Hskip. by rewrite Hd in Hskip.
  - intros t0 md. destruct t; [|done]. cbn. by intros [= <- <-].
Qed.

(** Every RPC that reaches the primary has exactly one comparison result,
    and it is same or different only if a shadow was called and the method is
    compared; an RPC that does not reach the primary has none. *)
Theorem Handle_compares_once h rq s :
  let out := (Handle h rq s).1 in
  match o_primary out with
  | None => comparisons (o_observed out) = []
  | Some _ => exists r m d, rq_method rq = Some m /\ resolve h m = Ok d /\
      comparisons (o_observed out) = (if h_hasObs h then [r] else []) /\
      (r = ResultSame \/ r = ResultDiff -> is_Some (o_shadow out) /\ d_CompareDecision d <> CompareDecisionOff)
  end.
Proof.
  cbv zeta. unfold Handle. destruct (rq_method rq) as [m|]; [|done].
  destruct (prepareRPCContext h rq m s) as [rx s1]. destruct (authenticate h rq m) as [authErr|].
  { destruct (rejectCaller _ _ _ _ _) as [[rx' logs] s']. apply comparisons_finish. }
  unfold serve, resolveDecision. destruct (resolve h m) as [d|err] eqn:Hd; [|apply comparisons_finish].
  destruct (pickPrimaryTarget rq m d s1) as [[target|] s2]; [|apply comparisons_finish].
  destruct (primaryMetadata h d s2) as [[overlay|err] s3]; [|apply comparisons_finish].
  pose proof (proceed_observed h rq m rx d target overlay s3) as Ho.
  pose proof (proceed_view h rq m rx d target overlay s3) as [Hv _].
  destruct (proceed h rq m rx d target overlay s3) as [out s4]. destruct Ho as (r & Hc & Hr & _).
  cbn [fst] in *. destruct (callPrimary _ _ _) as [[[requests responses] result] err].
  injection Hv as _ -> _ _. by exists r, m, d.
Qed.
End served.

Section outcomes.
Context {G W : Type} `{forwarding.Shared G, TokenWorld W, NetIP, Unicode, URLs}.
Implicit Types (h : handler) (rq : rpc) (s : handlerState (G := G) (W := W)).

(** An RPC refused after authentication. *)
Definition refused h (out : rpcOutput) (m : string) (err : error) (outcome : string) : Prop :=
  untouched out /\ o_error out = Some (inr err) /\
  ingress (o_observed out) = if h_hasObs h then [(m, outcome)] else [].

Lemma ended_refused h err rx logs m outcome :
  rx_fullMethod rx = m -> rx_outcome rx = outcome -> refused h (ended h (inr err) rx logs) m err outcome.
Proof. intros <- <-. split_and!; try done. apply ingress_finish. Qed.

(** What the client gets and the primary is sent once both are connected. *)
Definition relays (out : rpcOutput) rq (target : Target) (md : MD) (err : option error) : Prop :=
  o_primary out = Some (target, md) /\ o_error out = inr <$> err /\
  match rq_newStream rq target md with
  | Err e => o_requests out = [OpCloseShadow] /\ o_responses out = [] /\
      err = primaryStreamError "create primary stream" (Some e)
  | Ok primary =>
      o_requests out = (forwardClientToPrimary (rq_server rq) primary true).1 /\
      o_responses out = (forwardPrimaryToClient (rq_server rq) primary).1.1 /\
      exists result,
        (forwardPrimaryStream (rq_server rq) primary true (rq_requestsFirst rq) (rq_elapsed rq)).2
        = Some (result, err)
  end.

Lemma callPrimary_relays rq target md :
  let '(requests, responses, _, err) := callPrimary rq target md in
  match rq_newStream rq target md with
  | Err e => requests = [OpCloseShadow] /\ responses = [] /\
      err = primaryStreamError "create primary stream" (Some e)
  | Ok primary =>
      requests = (forwardClientToPrimary (rq_server rq) primary true).1 /\
      responses = (forwardPrimaryToClient (rq_server rq) primary).1.1 /\
      exists result,
        (forwardPrimaryStream (rq_server rq) primary true (rq_requestsFirst rq) (rq_elapsed rq)).2
        = Some (result, err)
  end.
Proof.
  unfold callPrimary. destruct (rq_newStream rq target md) as [primary|e]; [|done].
  unfold forwardPrimaryStream.
  destruct (forwardClientToPrimary (rq_server rq) primary true) as [requests sendErr].
  destruct (forwardPrimaryToClient (rq_server rq) primary) as [[responses result] recvErr].
  cbn [fst snd]. destruct (rq_requestsFirst rq), sendErr; cbn; split_and!; try done; by eexists.
Qed.

(** C14. An admitted RPC: an unknown or malformed method, a missing target and
    an unavailable bearer token each end it with their own status and ingress
    outcome before anything is sent; otherwise the picked primary is called
    with the client's metadata under the rule's overlay, the client's messages
    and the primary's answer are relayed, and the RPC ends with the primary's
    error and the outcome of that error. *)
Theorem Handle_served h rq s m :
  rq_method rq = Some m -> authenticate h rq m = None ->
  let '(out, s') := Handle h rq s in
  match resolve h m with
  | Err err =>
      refused h out m (match status_FromError err with
        | Some _ => err
        | None => status_Error codes_Unimplemented ("unsupported gRPC method: " +:+ Error err)
        end) OutcomeBadRequest
  | Ok d =>
      match (pickPrimaryTarget rq m d s).1, (primaryMetadata h d s).1 with
      | None, _ => refused h out m (status_Error codes_Unavailable "no primary gRPC target available") OutcomeError
      | Some _, Err _ =>
          refused h out m (status_Error codes_Unavailable "primary bearer token unavailable") OutcomeError
      | Some target, Ok overlay => exists err,
          relays out rq target (outgoing rq (rq_injectPrimary rq) overlay) err /\
          ingress (o_observed out) = if h_hasObs h then [(m, grpcIngressOutcome err)] else []
      end
  end.
Proof.
  intros Hm Ha. unfold Handle. rewrite Hm. unfold prepareRPCContext.
  destruct (forwarding.requestID_Add (hs_shared s)) as [reqID g]. rewrite Ha. set (rx := with_trace _ _).
  assert (Erx : rx_fullMethod rx = m) by done. clearbody rx.
  unfold serve, resolveDecision. destruct (resolve h m) as [d|err]; [|by apply ended_refused].
  rewrite pickPrimary_shared. pose proof (pickPrimary_token rq m d s) as [Et Ew].
  destruct (pickPrimaryTarget rq m d s) as [[target|] s1]; [|by apply ended_refused].
  cbn [fst snd] in *.
  assert (Em : (primaryMetadata h d (set_shared s1 g)).1 = (primaryMetadata h d s).1).
  { unfold primaryMetadata. cbn [set_shared hs_token hs_world]. rewrite Et, Ew.
    destruct (negb _); [done|]. by destruct (Authorization _ _ _ _) as [[? ?] ?]. }
  destruct (primaryMetadata h d (set_shared s1 g)) as [r s2]. cbn [fst] in Em. rewrite <- Em.
  destruct r as [overlay|err]; [|by apply ended_refused].
  pose proof (proceed_observed h rq m rx d target overlay s2) as Ho.
  pose proof (proceed_view h rq m rx d target overlay s2) as [Hv _].
  pose proof (callPrimary_relays rq target (outgoing rq (rq_injectPrimary rq) overlay)) as Hc.
  destruct (proceed h rq m rx d target overlay s2) as [out s3]. destruct Ho as (_ & _ & _ & Hi & _).
  cbn [fst] in Hv. destruct (callPrimary _ _ _) as [[[requests responses] result] err].
  injection Hv as E1 E2 E3 E4. exists err. rewrite Erx in Hi. split; [|done].
  split_and!; [done|done|]. rewrite E3, E4. exact Hc.
Qed.

(** C15. Credentials of the proxy go to the primary only: the bearer token is in
    the overlay of the primary's metadata, the shadow's metadata is the
    client's under the rule's shadow overlay whatever token there is, and
    without a configured issuer no token is touched. *)
Theorem Handle_bearer h rq s :
  let '(out, s') := Handle h rq s in
  match o_primary out with
  | None => True
  | Some (_, md) => exists m d, rq_method rq = Some m /\ resolve h m = Ok d /\
      (if oidc_Enabled (h_oidc h) then exists value,
         Authorization (h_oidc h) (h_bearerInit h) (hs_token s) (hs_world s) = (Ok value, hs_token s', hs_world s') /\
         md = outgoing rq (rq_injectPrimary rq) (<[bearerAuthHeader := value]> (default ∅ (PrimaryMetadata d)))
       else md = outgoing rq (rq_injectPrimary rq) (default ∅ (PrimaryMetadata d)) /\
         hs_token s' = hs_token s /\ hs_world s' = hs_world s) /\
      (forall t md', o_shadow out = Some (t, md') ->
         md' = outgoing rq (rq_injectShadow rq) (default ∅ (ShadowMetadata d)))
  end.
Proof.
  unfold Handle. destruct (rq_method rq) as [m|]; [|done]. unfold prepareRPCContext.
  destruct (forwarding.requestID_Add (hs_shared s)) as [reqID g]. set (rx := with_trace _ _). clearbody rx.
  destruct (authenticate h rq m) as [authErr|]. { by destruct (rejectCaller _ _ _ _ _) as [[rx' logs] s']. }
  unfold serve, resolveDecision. destruct (resolve h m) as [d|err] eqn:Hd; [|done].
  rewrite pickPrimary_shared. pose proof (pickPrimary_token rq m d s) as [Et Ew].
  destruct (pickPrimaryTarget rq m d s) as [[target|] s1]; [|done]. cbn [fst snd] in *.
  pose proof (primaryMetadata_spec h d (set_shared s1 g)) as Hp.
  destruct (primaryMetadata h d (set_shared s1 g)) as [[overlay|err] s2]; [|done].
  destruct Hp as (_ & _ & Hp). cbn [set_shared hs_token hs_world] in Hp. rewrite Et, Ew in Hp.
  pose proof (proceed_observed h rq m rx d target overlay s2) as Ho.
  pose proof (proceed_view h rq m rx d target overlay s2) as [Hv Hs].
  destruct (proceed h rq m rx d target overlay s2) as [out s3]. destruct Ho as (_ & _ & _ & _ & Hsh).
  cbn [fst snd] in *. injection Hs as _ Et3 Ew3.
  destruct (callPrimary _ _ _) as [[[requests responses] result] err]. injection Hv as _ -> _ _.
  exists m, d. split_and!; [done|done| |done]. destruct (oidc_Enabled (h_oidc h)).
  - destruct Hp as (a & Ha & E). destruct a as [value|]; [|done]. injection E as ->. exists value.
    by rewrite Et3, Ew3.
  - destruct Hp as [[= ->] ->]. by rewrite Et3, Ew3.
Qed.
End outcomes.

(** ** Witness: an RPC with mTLS, a bearer token and a shadow that times out *)

Definition exampleTokens : TokenWorld Z :=
  {| tw_now := fun w => (w * second, w); tw_Getenv := fun w _ => ("", w);
     tw_Do := fun w _ => (Ok {| ts_StatusCode := 200; ts_Body := ("", None) |}, w + 1);
     tw_NewRequest := fun _ => None; tw_Discovery := fun _ => Err io_EOF;
     tw_Token := fun _ => Ok {| te_AccessToken := "tok"; te_TokenType := "Bearer"; te_ExpiresIn := 3600 |} |}.
Definition exampleTargetNamed (name : string) (conn : nat) : Target :=
  {| t_Name := name; t_Address := name; t_Authority := ""; t_Conn := Some conn |}.
Definition exampleState : handlerState :=
  {| hs_shared := 0;
     hs_pools := Some {| Primary := Some {| tp_targets := [Some (exampleTargetNamed "p" 0)]; tp_mode := ""; tp_next := 0 |};
                         Shadow := Some {| tp_targets := [Some (exampleTargetNamed "s" 1)]; tp_mode := ""; tp_next := 0 |} |};
     hs_token := newTokenState; hs_world := 1; hs_logs := newCallerLogLimiter |}.
Definition exampleProxy : handler :=
  {| h_cfg := exampleGRPCConfig "status" 1; h_auth := exampleCallerAuth "mtls"; h_tls := exampleGRPCTLS;
     h_oidc := exampleOIDC; h_resolver := Some []; h_hasLimiter := false; h_enabled := Some (fun _ => true);
     h_hasObs := true; h_bearerInit := None; h_jsonString := exampleJSON; h_jsonStrings := noStrings |}.
Definition exampleRPC (chains : option (list nat)) : rpc :=
  {| rq_method := Some "/s/m"; rq_incoming := Some [("k", ["v"])]; rq_peerAddr := Some "10.0.0.1:5";
     rq_chains := chains; rq_traceID := ""; rq_server := exampleServer ["q"]; rq_range := map_to_list;
     rq_requestsFirst := false; rq_elapsed := 5 * millisecond; rq_injectPrimary := fun md => md;
     rq_injectShadow := fun md => md; rq_newStream := fun _ _ => Ok (exampleUpstream ["r"] io_EOF);
     rq_introspect := fun _ => inr exampleClaims; rq_nowUnix := 0; rq_now := 0;
     rq_shadow := fun s _ => (s, WaitTimeout second) |}.

Lemma Handle_served_witness :
  let U := asciiUnicode in let L := exampleURLs in let N := textIP in
  let T := exampleTokens in let S := forwarding.exampleShared in
  authenticate exampleProxy (exampleRPC (Some [1%nat])) "/s/m" = None /\
  exists err, relays (Handle exampleProxy (exampleRPC (Some [1%nat])) exampleState).1 (exampleRPC (Some [1%nat]))
    (exampleTargetNamed "p" 0) {["k" := ["v"]; "authorization" := ["Bearer tok"]]} err.
Proof.
  intros U L N T S. assert (A : authenticate exampleProxy (exampleRPC (Some [1%nat])) "/s/m" = None)
    by (vm_compute; reflexivity).
  split; [exact A|].
  pose proof (Handle_served exampleProxy (exampleRPC (Some [1%nat])) exampleState "/s/m" eq_refl A) as G.
  destruct (Handle exampleProxy (exampleRPC (Some [1%nat])) exampleState) as [out s'].
  assert (R : resolve exampleProxy "/s/m" = Ok (plainDecision "s" "m" ShadowModeInherit CompareDecisionInherit ""))
    by (vm_compute; reflexivity).
  rewrite R in G.
  assert (P : (pickPrimaryTarget (exampleRPC (Some [1%nat])) "/s/m"
    (plainDecision "s" "m" ShadowModeInherit CompareDecisionInherit "") exampleState).1
    = Some (exampleTargetNamed "p" 0)) by (vm_compute; reflexivity).
  assert (M : (primaryMetadata exampleProxy (plainDecision "s" "m" ShadowModeInherit CompareDecisionInherit "")
    exampleState).1 = Ok {["authorization" := "Bearer tok"]}) by (vm_compute; reflexivity).
  rewrite P, M in G. destruct G as (err & G & _). exists err.
  assert (O : outgoing (exampleRPC (Some [1%nat])) (fun md => md) {["authorization" := "Bearer tok"]}
    = {["k" := ["v"]; "authorization" := ["Bearer tok"]]}) by (vm_compute; reflexivity).
  cbn [rq_injectPrimary exampleRPC] in G. rewrite O in G. exact G.
Defined.
End grpchandler.
