(* ===== verification/HttpHandler.v ===== *)
(** * [internal/proxy/handler.go], second part: handling one HTTP request

    [Handle] runs a request up to the response and hands the shadow part to a
    job, as the code hands it to a goroutine; [runShadowAndLog] is that
    goroutine.  Sessions are any [TestSession]; what the adapter answers when
    it is asked for a session is an argument. *)
From S2P Require Export PathMapper Logging Protocol HttpForward.

Module httphandler.
Import mapping pathrules logging comparejson backend compare protocol forwarding.

(** ** Responses *)

(** [gin.ResponseWriter]: its header, status, body, and whether the header
    has been written. *)
Record writer := { w_Header : header; w_Status : Z; w_Body : string; w_Written : bool }.

Definition newWriter (h : header) : writer :=
  {| w_Header := h; w_Status := 200; w_Body := ""; w_Written := false |}.
Definition with_Header (w : writer) (h : header) : writer :=
  {| w_Header := h; w_Status := w_Status w; w_Body := w_Body w; w_Written := w_Written w |}.

(** [c.Status(code)] *)
Definition c_Status (code : Z) (w : writer) : writer :=
  if (0 <? code) && negb (w_Status w =? code) && negb (w_Written w)
  then {| w_Header := w_Header w; w_Status := code; w_Body := w_Body w; w_Written := w_Written w |}
  else w.
(** [c.AbortWithStatus(code)] *)
Definition AbortWithStatus (code : Z) (w : writer) : writer :=
  let w := c_Status code w in
  {| w_Header := w_Header w; w_Status := w_Status w; w_Body := w_Body w; w_Written := true |}.
(** [c.Writer.Write(data)] *)
Definition Write (data : string) (w : writer) : writer :=
  {| w_Header := w_Header w; w_Status := w_Status w; w_Body := w_Body w +:+ data;
     w_Written := true |}.

(** Observability when it is on: the configured trace header and the trace id
    of the request's span. *)
Record tracing := { t_TraceIDHeader : string; t_traceID : string }.

Definition SetTraceIDHeader (o : option tracing) (h : header) : header :=
  match o with
  | None => h
  | Some o =>
      if decide (t_TraceIDHeader o = "") then h
      else if negb (bool_decide (Get h (t_TraceIDHeader o) = "")) then h
      else if decide (t_traceID o = "") then h
      else HeaderSet h (t_TraceIDHeader o) (t_traceID o)
  end.

(** ** Records *)

Record httpRequestContext := {
  c_requestFields : Attr;
  c_requestJSONFields : option Attr;
  c_reqID : Z;
  c_method : string;
  c_path : string;
  c_rawQuery : string;
  c_host : string;
  c_remoteAddr : string
}.

(** [httpLogPayload]: what [payload] fills in, and what the shadow part sets. *)
Record payloadBase := {
  pl_request : httpRequestContext;
  pl_traceID : string;
  pl_corrID : string;
  pl_corrGenerated : bool;
  pl_doShadow : bool;
  pl_forcedShadow : bool;
  pl_pathRule : string;
  pl_shadowMode : string;
  pl_shadowSkipReason : string;
  pl_compareMode : string;
  pl_compareHeaders : option (list string);
  pl_primaryRes : Response
}.
Record httpLogPayload := {
  pl_base : payloadBase;
  pl_shadowStarted : bool;
  pl_compareEnabled : bool;
  pl_compareSkipReason : string;
  pl_shadowRes : Response;
  pl_shadowErr : string;
  pl_compareResult : CompareResult;
  pl_compareErr : option error
}.

Inductive logRecord :=
  | LogPathMappingFailed (request : httpRequestContext) (traceID err : string)
  | LogPrimarySessionFailed (request : httpRequestContext) (traceID corrID err : string)
  | LogPrimaryRequestFailed (request : httpRequestContext) (traceID corrID err : string) (dur_ms : Z)
  | LogAuthProxy (level : Z) (attrs : list (option Attr)) (payload : httpLogPayload)
      (primary_headers shadow_headers : gmap string string) (diffs : list Headers.HeaderDiff)
      (diff : bool) (shadow_selected shadow_err : string) (shadow_ok : bool)
      (primary_dur_ms shadow_dur_ms : Z) (result : CompareResult) (compare_err : string).

Inductive metric :=
  | ObserveIngress (method outcome shadow shadowStarted : string)
  | ObserveComparison (result : string).

(** The goroutine of [startShadow]. *)
Record shadowJob (S : Type) := { j_event : Event; j_session : S; j_payload : httpLogPayload }.
Arguments j_event {S}.
Arguments j_session {S}.
Arguments j_payload {S}.

(** [time.Duration.Milliseconds] *)
Definition Milliseconds (d : Z) : Z := Z.quot d 1000000.

Definition isErr (e : option error) : bool := match e with Some _ => true | None => false end.

(** [Handler]: [hasLimiter] is [shadowLimiter != nil]; the shared state of the
    handler is the [Shared] of the forwarding part. *)
Record Handler `{Regexp} := {
  h_cfg : httpConfig;
  h_comparator : option Comparator;
  h_hasLimiter : bool;
  h_pathMapper : PathMapper;
  h_pathRuleResolver : Resolver;
  h_httpComparators : option Registry;
  h_observability : option tracing;
  h_logger_Enabled : Z -> bool
}.

(** What [Handle] leaves: the response, the labels and the error of the
    request's observation, the primary session, logs and metrics, and the
    shadow goroutine if one was started. *)
Record handled (P S G : Type) := {
  o_writer : writer;
  o_outcome : string;
  o_spanErr : option error;
  o_primary : option P;
  o_logs : list logRecord;
  o_metrics : list metric;
  o_job : option (shadowJob S);
  o_shared : G
}.
Arguments o_writer {P S G}.
Arguments o_outcome {P S G}.
Arguments o_spanErr {P S G}.
Arguments o_primary {P S G}.
Arguments o_logs {P S G}.
Arguments o_metrics {P S G}.
Arguments o_job {P S G}.
Arguments o_shared {P S G}.

(** ** Reading the request *)

(** [io.ReadAll] of a body, through [io.LimitReader] when a limit is given; a
    read error comes after the bytes it follows. *)
Definition io_ReadAll (limit : option Z) (b : body) : res string :=
  let rest := match b_err b with None => Ok (b_bytes b) | Some e => Err e end in
  match limit with
  | None => rest
  | Some n =>
      if n <=? 0 then Ok ""
      else if n <=? len (b_bytes b) then Ok (of_chars (take (Z.to_nat n) (chars (b_bytes b))))
      else rest
  end.

(** The body, or the status and the error of the refusal. *)
Definition readRequestBody (cfg : httpConfig) (r : httpRequest) : string + (Z * error) :=
  match r_Body r with
  | None => inl ""
  | Some b =>
      let max := hc_MaxBackendBodyBytes cfg in
      match io_ReadAll (if 0 <? max then Some (i64 (max + 1)) else None) b with
      | Err e => inr (400, e)
      | Ok body =>
          if (0 <? max) && (max <? len body) then
            inr (413, errors_New ("request body exceeds max_backend_body_bytes " +:+ Itoa max))
          else inl body
      end
  end.

Section request.
Context `{Unicode}.
Context (json_UnmarshalString : string -> option string).
Context (json_DecodeOne : string -> option document).

Definition newHTTPRequestContext (cfg : httpConfig) (r : httpRequest) (id : Z) : httpRequestContext :=
  {| c_requestFields := SelectedFields "request_headers" (hc_RequestHeaders cfg) (Values (r_Header r));
     c_requestJSONFields := None; c_reqID := id; c_method := r_Method r; c_path := r_Path r;
     c_rawQuery := r_RawQuery r; c_host := r_Host r; c_remoteAddr := clientIP r |}.

(** [request.requestJSONFields = logging.SelectedJSONFields(...)] *)
Definition with_requestJSON (cfg : httpConfig) (request : httpRequestContext) (body : string)
    : httpRequestContext :=
  {| c_requestFields := c_requestFields request;
     c_requestJSONFields := SelectedJSONFields json_UnmarshalString json_DecodeOne "request_json"
                              (hc_RequestJSON cfg) body;
     c_reqID := c_reqID request; c_method := c_method request; c_path := c_path request;
     c_rawQuery := c_rawQuery request; c_host := c_host request;
     c_remoteAddr := c_remoteAddr request |}.

(** [httpRequestContext.event] *)
Definition event (r : httpRequestContext) (hdr : header) (body primaryPath shadowPath : string)
    (primaryRequestHeaders shadowRequestHeaders : option (gmap string string)) : Event :=
  {| e_Kind := protocolHTTP; e_Method := c_method r; e_Path := c_path r;
     e_PrimaryPath := primaryPath; e_ShadowPath := shadowPath; e_RawQuery := c_rawQuery r;
     e_Host := c_host r; e_Header := hdr; e_Body := body; e_RemoteAddr := c_remoteAddr r;
     e_RequestID := c_reqID r;
     e_PrimaryRequestHeaders := default ∅ (cloneStringMap primaryRequestHeaders);
     e_ShadowRequestHeaders := default ∅ (cloneStringMap shadowRequestHeaders);
     e_Payload := ""; e_Meta := ∅ |}.

(** [httpRequestContext.payload] *)
Definition payload (r : httpRequestContext) (traceID corrID : string) (corrGenerated : bool)
    (shadow : shadowDecision) (pathDecision : pathrules.Decision) (comparison : comparisonDecision)
    (primaryRes : Response) : httpLogPayload :=
  {| pl_base :=
       {| pl_request := r; pl_traceID := traceID; pl_corrID := corrID;
          pl_corrGenerated := corrGenerated; pl_doShadow := sd_doShadow shadow;
          pl_forcedShadow := sd_forced shadow; pl_pathRule := RuleName pathDecision;
          pl_shadowMode := ShadowMode_string (d_ShadowMode pathDecision);
          pl_shadowSkipReason := sd_skipReason shadow; pl_compareMode := cd_mode comparison;
          pl_compareHeaders := cd_headers comparison; pl_primaryRes := primaryRes |};
     pl_shadowStarted := false; pl_compareEnabled := cd_enabled comparison;
     pl_compareSkipReason := cd_skipReason comparison; pl_shadowRes := zeroResponse;
     pl_shadowErr := ""; pl_compareResult := zeroCompareResult; pl_compareErr := None |}.
End request.

(** ** The primary side *)

Section primary.
Context {P : Type} `{TestSession P}.

(** [callPrimary]: the response, or the status, the error and the log record
    of the failure; and the session as it ends up. *)
Definition callPrimary (openPrimary : res P) (ev : Event) (request : httpRequestContext)
    (traceID corrID : string) : (Response + (Z * error * logRecord)) * option P :=
  match openPrimary with
  | Err err => (inr (503, err, LogPrimarySessionFailed request traceID corrID (Error err)), None)
  | Ok p =>
      let failed err dur :=
        inr (502, err, LogPrimaryRequestFailed request traceID corrID (Error err) dur) in
      match Send p ev with
      | (Some err, p) => (failed err 0, Some p)
      | (None, p) =>
          let '((primaryRes, err), p) := Receive p in
          let primaryRes := keepErr primaryRes err in
          match p_Err primaryRes with
          | Some err => (failed err (Milliseconds (p_Duration primaryRes)), Some p)
          | None => (inl primaryRes, Some p)
          end
      end
  end.
End primary.

(** [range src]: the pairs of a map in the order Go ranges over it. *)
Definition writeRedirectResponseHeaders (range : header -> list (string * list string))
    (w : header) (response : Response) : header :=
  if (p_Status response <? 300) || (308 <? p_Status response) then w
  else WriteSelected w (range (p_Header response)) [headerLocation; headerSetCookie].

Definition writePrimaryResponse (range : header -> list (string * list string)) (cfg : httpConfig)
    (corrID : string) (primaryRes : Response) (w : writer) : writer :=
  let h := WriteSelected (w_Header w) (range (p_Header primaryRes)) (hc_ForwardResponseHeaders cfg) in
  let h := writeRedirectResponseHeaders range h primaryRes in
  let h := HeaderSet h "X-Request-ID" corrID in
  let w := c_Status (p_Status primaryRes) (with_Header w h) in
  if decide (p_Body primaryRes = "") then w else Write (p_Body primaryRes) w.

(** ** Result logs *)

Definition httpBackendResult (response : Response) : Result := backendResult response.

Definition shouldHideSessionHeaders (cfg : httpConfig) (p : httpLogPayload) (hasDiff : bool) : bool :=
  hc_LogSessionOnlyOnDiff cfg && negb hasDiff && negb (pl_forcedShadow (pl_base p)).

Definition shouldSuppressHTTPLog (cfg : httpConfig) (p : httpLogPayload) (hasDiff : bool)
    (shadowErr : string) : bool :=
  if negb (hc_LogOnlyOnDiff cfg) then false
  else negb hasDiff && bool_decide (shadowErr = "") && negb (isErr (pl_compareErr p)).

Definition filterSessionDiffs (diffs : list Headers.HeaderDiff) : list Headers.HeaderDiff :=
  filter (fun diff => Headers.hd_Key diff <> headerSessionID) diffs.

(** The two header maps, the diffs and the difference flag of a log record. *)
Definition filteredHeaderLogFields (cfg : httpConfig) (p : httpLogPayload) (result : CompareResult)
    : gmap string string * gmap string string * list Headers.HeaderDiff * bool :=
  let pKV := pc_HeaderPrimary result in
  let sKV := pc_HeaderShadow result in
  let diffs := pc_HeaderDiffs result in
  let hasDiff := pc_Diff result || isErr (pl_compareErr p) in
  if negb (shouldHideSessionHeaders cfg p hasDiff) then (pKV, sKV, diffs, hasDiff)
  else (delete headerSessionID pKV, delete headerSessionID sKV, filterSessionDiffs diffs, hasDiff).

(** [shadow_selected], [shadow_err] and [shadow_ok]. *)
Definition shadowLogFields (p : httpLogPayload) : string * string * bool :=
  if pl_doShadow (pl_base p) && negb (pl_shadowStarted p)
  then (shadowNotStarted, shadowNotStarted, false)
  else (p_Selected (pl_shadowRes p), pl_shadowErr p,
        pl_shadowStarted p && negb (isErr (p_Err (pl_shadowRes p)))).

Definition comparisonMetricResult (p : httpLogPayload) (hasDiff : bool) : string :=
  let doShadow := pl_doShadow (pl_base p) in
  if bool_decide (pl_compareSkipReason p = SkipReasonPathRule) ||
     bool_decide (pl_compareSkipReason p = SkipReasonPathUnmatched) then ResultSkipped
  else if doShadow && negb (bool_decide (pl_shadowErr p = "")) then ResultError
  else if negb (pl_compareEnabled p) || negb doShadow || negb (pl_shadowStarted p) then ResultSkipped
  else if isErr (pl_compareErr p) then ResultError
  else if hasDiff then ResultDiff
  else ResultSame.

Definition normalizedCompareResult (cfg : httpConfig) (p : httpLogPayload) : CompareResult :=
  let r := pl_compareResult p in
  let mode := pc_Mode r in
  let mode := if decide (mode = "") then pl_compareMode (pl_base p) else mode in
  let mode := if decide (mode = "") then hc_CompareMode cfg else mode in
  {| pc_Mode := mode; pc_Diff := pc_Diff r; pc_HeaderDiff := pc_HeaderDiff r;
     pc_HeaderPrimary := pc_HeaderPrimary r; pc_HeaderShadow := pc_HeaderShadow r;
     pc_HeaderDiffs := pc_HeaderDiffs r; pc_BodyDiff := pc_BodyDiff r;
     pc_JSONDiffs := pc_JSONDiffs r; pc_HTMLSimilarity := pc_HTMLSimilarity r;
     pc_DecisionDiff := pc_DecisionDiff r; pc_ActionDiffs := pc_ActionDiffs r |}.

Section handle.
Context `{Regexp} `{Unicode} `{JSONLib}.
Context (html_Parse : string -> res Node).
Context (json_UnmarshalString : string -> option string).
Context (json_DecodeOne : string -> option document).
Context (range : header -> list (string * list string)).

(** The attributes [httpResultLogger] adds. *)
Definition httpResultLogger (cfg : httpConfig) (p : httpLogPayload) : list (option Attr) :=
  let json group response := SelectedJSONFields json_UnmarshalString json_DecodeOne group
                               (hc_ResponseJSON cfg) (p_Body response) in
  let headers group response := Some (SelectedFields group (hc_ResponseHeaders cfg)
                                        (Values (p_Header response))) in
  let primary := pl_primaryRes (pl_base p) in
  [Some (c_requestFields (pl_request (pl_base p))); c_requestJSONFields (pl_request (pl_base p));
   json "primary_response_json" primary; json "shadow_response_json" (pl_shadowRes p);
   headers "primary_response_headers" primary;
   headers "shadow_response_headers" (pl_shadowRes p)].

Definition logHTTPResult (h : Handler) (p : httpLogPayload) : list logRecord * list metric :=
  let cfg := h_cfg h in
  let result := normalizedCompareResult cfg p in
  let '(pKV, sKV, diffs, hasDiff) := filteredHeaderLogFields cfg p result in
  let '(shadowSelected, shadowErr, shadowOK) := shadowLogFields p in
  let metrics := match h_observability h with
                 | None => []
                 | Some _ => [ObserveComparison (comparisonMetricResult p hasDiff)]
                 end in
  if shouldSuppressHTTPLog cfg p hasDiff shadowErr then ([], metrics)
  else
    let level := ResultLevel hasDiff
      (negb (bool_decide (pl_shadowErr p = "")) || isErr (p_Err (pl_shadowRes p)) ||
       isErr (pl_compareErr p)) (isErr (p_Err (pl_primaryRes (pl_base p)))) in
    if negb (h_logger_Enabled h level) then ([], metrics)
    else ([LogAuthProxy level (httpResultLogger cfg p) p pKV sKV diffs hasDiff
             shadowSelected shadowErr shadowOK
             (Milliseconds (p_Duration (pl_primaryRes (pl_base p))))
             (Milliseconds (p_Duration (pl_shadowRes p))) result (ErrString (pl_compareErr p))],
          metrics).

(** ** The shadow side *)

Definition compareHTTPResponses (h : Handler) (p : httpLogPayload) (shadowRes : Response)
    : CompareResult * option error :=
  let primaryRes := pl_primaryRes (pl_base p) in
  match h_httpComparators h with
  | Some registry =>
      let '(result, err) := Compare html_Parse (Some registry) (pl_compareMode (pl_base p))
        (pl_compareHeaders (pl_base p)) (httpBackendResult primaryRes)
        (httpBackendResult shadowRes) in
      (protocolResult result, err)
  | None =>
      match h_comparator h with
      | None => (zeroCompareResult, Some (errors_New "missing protocol comparator"))
      | Some f => f primaryRes shadowRes
      end
  end.

Definition orNoShadow (reason : string) : string :=
  if decide (reason = "") then compareSkipReasonNoShadow else reason.

Section shadow.
Context {S : Type} `{TestSession S}.

(** What the goroutine logs, and its session at the end. *)
Definition shadowPayload (h : Handler) (j : shadowJob S) : httpLogPayload * S :=
  let p := j_payload j in
  match Send (j_session j) (j_event j) with
  | (Some err, s) =>
      ({| pl_base := pl_base p; pl_shadowStarted := pl_shadowStarted p;
          pl_compareEnabled := false;
          pl_compareSkipReason := orNoShadow (pl_compareSkipReason p);
          pl_shadowRes := with_Err (pl_shadowRes p) (Some err);
          pl_shadowErr := ErrString (Some err); pl_compareResult := pl_compareResult p;
          pl_compareErr := pl_compareErr p |}, s)
  | (None, s) =>
      let '((shadowRes, err), s) := Receive s in
      let shadowRes := keepErr shadowRes err in
      let '(compareResult, compareErr) :=
        if negb (pl_compareEnabled p) then (pl_compareResult p, pl_compareErr p)
        else compareHTTPResponses h p shadowRes in
      ({| pl_base := pl_base p; pl_shadowStarted := pl_shadowStarted p;
          pl_compareEnabled := pl_compareEnabled p;
          pl_compareSkipReason := pl_compareSkipReason p; pl_shadowRes := shadowRes;
          pl_shadowErr := ErrString (p_Err shadowRes); pl_compareResult := compareResult;
          pl_compareErr := compareErr |}, s)
  end.

Definition runShadowAndLog (h : Handler) (j : shadowJob S) : list logRecord * list metric :=
  logHTTPResult h (fst (shadowPayload h j)).

(** [startShadow]: what it logs, or the goroutine it starts. *)
Definition startShadow (h : Handler) (openShadow : res S) (ev : Event) (p : httpLogPayload)
    : list logRecord * list metric * option (shadowJob S) :=
  match openShadow with
  | Err _ =>
      let p := {| pl_base := pl_base p; pl_shadowStarted := pl_shadowStarted p;
                  pl_compareEnabled := false;
                  pl_compareSkipReason := orNoShadow (pl_compareSkipReason p);
                  pl_shadowRes := pl_shadowRes p; pl_shadowErr := shadowNotStarted;
                  pl_compareResult := pl_compareResult p; pl_compareErr := pl_compareErr p |} in
      (logHTTPResult h p, None)
  | Ok s =>
      let p := {| pl_base := pl_base p; pl_shadowStarted := true;
                  pl_compareEnabled := pl_compareEnabled p;
                  pl_compareSkipReason := pl_compareSkipReason p;
                  pl_shadowRes := pl_shadowRes p; pl_shadowErr := pl_shadowErr p;
                  pl_compareResult := pl_compareResult p; pl_compareErr := pl_compareErr p |} in
      ([], [], Some {| j_event := ev; j_session := s; j_payload := p |})
  end.
End shadow.

(** ** One request *)

Context {P S G : Type} `{TestSession P} `{Shared G}.

(** [now_UnixNano] is the clock, [g] the shared state when the request
    arrives, [openPrimary] and [openShadow] what the adapter answers. *)
Definition mapRequestPaths (h : Handler) (request : httpRequestContext) (traceID : string)
    : (string * string) + (Z * error * logRecord) :=
  match Map_ (h_pathMapper h) (c_path request) with
  | Ok paths => inl paths
  | Err err => inr (500, err, LogPathMappingFailed request traceID (Error err))
  end.

Definition Handle (h : Handler) (openPrimary : res P) (openShadow : res S) (now_UnixNano : Z)
    (r : httpRequest) (g : G) : handled P S G :=
  let cfg := h_cfg h in
  let '(id, g) := requestID_Add g in
  let request := newHTTPRequestContext cfg r id in
  let pathDecision := resolvePathRule (h_pathRuleResolver h) r in
  let w := newWriter (SetTraceIDHeader (h_observability h) ∅) in
  let traceID := match h_observability h with None => "" | Some o => t_traceID o end in
  let finish outcome spanErr shadowEnabled shadowStarted w p logs metrics job g :=
    {| o_writer := w; o_outcome := outcome; o_spanErr := spanErr; o_primary := p; o_logs := logs;
       o_metrics := (metrics ++
         match h_observability h with
         | None => []
         | Some _ => [ObserveIngress (r_Method r) outcome (BoolLabel shadowEnabled)
                        (BoolLabel shadowStarted)]
         end)%list;
       o_job := job; o_shared := g |} in
  match readRequestBody cfg r with
  | inr (status, err) =>
      finish OutcomeBadRequest (Some err) false false (AbortWithStatus status w) None [] [] None g
  | inl body =>
      let request := with_requestJSON json_UnmarshalString json_DecodeOne cfg request body in
      let hdr := Clone (r_Header r) in
      match mapRequestPaths h request traceID with
      | inr (status, err, record) =>
          finish OutcomeError (Some err) false false (AbortWithStatus status w) None [record] [] None g
      | inl (primaryPath, shadowPath) =>
          let '((corrID, corrGenerated), hdr, g) := ensureRequestID now_UnixNano g hdr in
          let hdr := prepareForwardedHeaders r hdr in
          let '(shadow, g) := shouldShadow cfg (h_hasLimiter h) r pathDecision g in
          let comparison := resolveComparison cfg pathDecision shadow in
          let ev := event request hdr body primaryPath shadowPath
                      (PrimaryRequestHeaders pathDecision) (ShadowRequestHeaders pathDecision) in
          match callPrimary openPrimary ev request traceID corrID with
          | (inr (status, err, record), p) =>
              finish OutcomePrimaryError (Some err) (sd_doShadow shadow) false
                (AbortWithStatus status w) p [record] [] None g
          | (inl primaryRes, p) =>
              let w := writePrimaryResponse range cfg corrID primaryRes w in
              let pl := payload request traceID corrID corrGenerated shadow pathDecision
                          comparison primaryRes in
              if negb (sd_doShadow shadow) then
                let '(logs, metrics) := logHTTPResult h pl in
                finish OutcomeOK None false false w p logs metrics None g
              else
                let '(logs, metrics, job) := startShadow h openShadow ev pl in
                finish OutcomeOK None true (match job with Some _ => true | None => false end)
                  w p logs metrics job g
          end
      end
  end.
End handle.

(** ** Specification *)

(** The body the handler accepts under the limit. *)
Definition acceptedBody (cfg : httpConfig) (r : httpRequest) (body : string) : Prop :=
  match r_Body r with
  | None => body = ""
  | Some b => b_err b = None /\ body = b_bytes b /\
              (0 < hc_MaxBackendBodyBytes cfg -> len body <= hc_MaxBackendBodyBytes cfg)
  end.

(** What the client and the primary backend see of a request. *)
Definition view {P S G} (o : handled P S G) : writer * string * option error * option P :=
  (o_writer o, o_outcome o, o_spanErr o, o_primary o).

(** The response headers a client may get: the configured ones, and for a
    redirect its target and cookies. *)
Definition forwardedHeaders (cfg : httpConfig) (status : Z) : list string :=
  CanonicalHeaderKey <$>
    hc_ForwardResponseHeaders cfg ++
    (if (300 <=? status) && (status <=? 308) then [headerLocation; headerSetCookie] else []).

(** The event of a request, as both backends get it. *)
Record eventOf `{Regexp} `{Unicode} (h : Handler) (r : httpRequest) (id : Z) (hdr : header)
    (body : string) (ev : Event) : Prop := {
  ev_kind : e_Kind ev = protocolHTTP;
  ev_request : e_Method ev = r_Method r /\ e_Path ev = r_Path r /\ e_RawQuery ev = r_RawQuery r /\
    e_Host ev = r_Host r /\ e_Body ev = body /\ e_RequestID ev = id;
  ev_paths : Map_ (h_pathMapper h) (r_Path r) = Ok (e_PrimaryPath ev, e_ShadowPath ev);
  ev_header : e_Header ev = prepareForwardedHeaders r hdr;
  ev_remote : e_RemoteAddr ev = clientIP r;
  ev_rule : let d := resolvePathRule (h_pathRuleResolver h) r in
    e_PrimaryRequestHeaders ev = default ∅ (PrimaryRequestHeaders d) /\
    e_ShadowRequestHeaders ev = default ∅ (ShadowRequestHeaders d)
}.

(** The comparison results among the metrics. *)
Definition comparisons (metrics : list metric) : list string :=
  omap (fun m => match m with ObserveComparison result => Some result | _ => None end) metrics.

(** Whether the payload's responses differ, or could not be compared. *)
Definition payloadDiff (p : httpLogPayload) : bool :=
  pc_Diff (pl_compareResult p) || isErr (pl_compareErr p).

(** ** Lemmas *)

Lemma AbortWithStatus_new status h :
  0 < status ->
  AbortWithStatus status (newWriter h) =
    {| w_Header := h; w_Status := status; w_Body := ""; w_Written := true |}.
Proof.
  intros Hs. unfold AbortWithStatus, c_Status, newWriter. cbn [w_Status w_Written w_Header w_Body].
  rewrite (proj2 (Z.ltb_lt _ _) Hs). destruct (Z.eqb_spec 200 status) as [<-|]; done.
Qed.

Section responses.
Context (range : header -> list (string * list string)).
Context (Hrange : forall src, range src ≡ₚ map_to_list src).

Lemma lookup_redirect w res k :
  canonical_header (p_Header res) ->
  writeRedirectResponseHeaders range w res !! k =
    if decide (k ∈ CanonicalHeaderKey <$>
                 (if (300 <=? p_Status res) && (p_Status res <=? 308)
                  then [headerLocation; headerSetCookie] else [])) then
      match p_Header res !! k with
      | Some [] => None
      | Some vs => Some vs
      | None => w !! k
      end
    else w !! k.
Proof.
  intros Hc. unfold writeRedirectResponseHeaders.
  assert ((300 <=? p_Status res) && (p_Status res <=? 308) =
          negb ((p_Status res <? 300) || (308 <? p_Status res))) as -> by lia.
  destruct ((p_Status res <? 300) || (308 <? p_Status res)); simpl negb; cbv iota.
  - rewrite decide_False; [done|]. by intros ?%elem_of_nil.
  - by apply lookup_WriteSelected.
Qed.

(** The response the client gets for a primary response. *)
Lemma writePrimaryResponse_spec cfg corrID res w :
  canonical_header (p_Header res) -> w_Written w = false -> w_Body w = "" -> w_Status w = 200 ->
  let w' := writePrimaryResponse range cfg corrID res w in
  w_Status w' = (if 0 <? p_Status res then p_Status res else 200) /\
  w_Body w' = p_Body res /\
  forall k, w_Header w' !! k =
    if decide (k = "X-Request-Id") then Some [corrID]
    else if decide (k ∈ forwardedHeaders cfg (p_Status res)) then
      match p_Header res !! k with
      | Some [] => None
      | Some vs => Some vs
      | None => w_Header w !! k
      end
    else w_Header w !! k.
Proof.
  intros Hc Hw Hb Hs. cbv zeta. unfold writePrimaryResponse.
  set (h := HeaderSet _ "X-Request-ID" corrID).
  assert (forall k, h !! k =
    if decide (k = "X-Request-Id") then Some [corrID]
    else if decide (k ∈ forwardedHeaders cfg (p_Status res)) then
      match p_Header res !! k with
      | Some [] => None
      | Some vs => Some vs
      | None => w_Header w !! k
      end
    else w_Header w !! k) as Hh.
  { intros k. unfold h. destruct (decide (k = "X-Request-Id")) as [->|Hk].
    { apply (lookup_HeaderSet_eq _ "X-Request-ID"). }
    rewrite lookup_HeaderSet_ne by (intros E; apply Hk; by rewrite <-E).
    rewrite lookup_redirect by done. rewrite (lookup_WriteSelected _ (p_Header res)) by done.
    unfold forwardedHeaders. rewrite fmap_app.
    set (extra := CanonicalHeaderKey <$> (if (300 <=? p_Status res) && (p_Status res <=? 308)
                                          then [headerLocation; headerSetCookie] else [])).
    set (F := CanonicalHeaderKey <$> hc_ForwardResponseHeaders cfg).
    destruct (decide (k ∈ extra)) as [H1|H1], (decide (k ∈ F)) as [H2|H2].
    - rewrite decide_True by (apply elem_of_app; by left). by destruct (p_Header res !! k) as [[]|].
    - rewrite decide_True by (apply elem_of_app; by right). done.
    - by rewrite decide_True by (apply elem_of_app; by left).
    - rewrite decide_False; [done|]. by intros [?|?]%elem_of_app. }
  clearbody h. unfold c_Status. simpl w_Status. simpl w_Written. rewrite Hw, Hs.
  destruct (Z.ltb_spec 0 (p_Status res)) as [Hp|Hp];
    [destruct (Z.eqb_spec 200 (p_Status res)) as [He|He]|]; cbn [negb andb];
    (destruct (decide (p_Body res = "")) as [E|E]; [rewrite E|];
      simpl w_Status; simpl w_Body; simpl w_Header; rewrite Hb;
      (split_and!; [first [done | lia] | done | exact Hh])).
Qed.
End responses.

Section isolation.
Context `{Regexp} `{Unicode}.
Context (range : header -> list (string * list string)).
Context {P G : Type} `{TestSession P}.

Lemma readRequestBody_max cfg1 cfg2 r :
  hc_MaxBackendBodyBytes cfg1 = hc_MaxBackendBodyBytes cfg2 ->
  readRequestBody cfg1 r = readRequestBody cfg2 r.
Proof. intros E. unfold readRequestBody. by rewrite E. Qed.

Lemma ensureRequestID_shared (sh1 sh2 : Shared G) now g h :
  (forall g, rng_Int63 (Shared := sh1) g = rng_Int63 (Shared := sh2) g) ->
  ensureRequestID (H := sh1) now g h = ensureRequestID (H := sh2) now g h.
Proof. intros E. unfold ensureRequestID. by rewrite E. Qed.

(** The parts of [callPrimary] that are not logs do not depend on the logged
    request. *)
Lemma callPrimary_request (openPrimary : res P) ev request1 request2 t1 t2 corrID :
  let drop (x : (Response + (Z * error * logRecord)) * option P) :=
    (match fst x with inl res => inl res | inr (status, err, _) => inr (status, err) end, snd x) in
  drop (callPrimary openPrimary ev request1 t1 corrID) =
  drop (callPrimary openPrimary ev request2 t2 corrID).
Proof.
  unfold callPrimary. destruct openPrimary as [p|e]; [|done].
  destruct (Send p ev) as [[e|] p1]; [done|]. destruct (Receive p1) as [[res err] p2].
  by destruct (p_Err (keepErr res err)).
Qed.

(** C24. A shadow never changes what a client sees.  Two handlers that map
    paths, choose rules, trace and bound bodies alike, and forward the same
    headers, answer a request with the same status, headers and body, call the
    primary backend in the same way and report the same outcome, whatever
    their shadow targets, sampling, force header, rate limit, random draws and
    tokens, shadow backend, comparators, JSON library and logging are, and
    whether or not a shadow can be started. *)
Theorem Handle_isolated {S1 S2} (sh1 sh2 : Shared G) unq1 unq2 dec1 dec2 h1 h2 openPrimary (open1 : res S1) (open2 : res S2) now r g :
  (forall g, requestID_Add (Shared := sh1) g = requestID_Add (Shared := sh2) g) ->
  (forall g, rng_Int63 (Shared := sh1) g = rng_Int63 (Shared := sh2) g) ->
  h_pathMapper h1 = h_pathMapper h2 -> h_pathRuleResolver h1 = h_pathRuleResolver h2 ->
  h_observability h1 = h_observability h2 ->
  hc_MaxBackendBodyBytes (h_cfg h1) = hc_MaxBackendBodyBytes (h_cfg h2) ->
  hc_ForwardResponseHeaders (h_cfg h1) = hc_ForwardResponseHeaders (h_cfg h2) ->
  view (Handle (H3 := sh1) unq1 dec1 range h1 openPrimary open1 now r g) =
  view (Handle (H3 := sh2) unq2 dec2 range h2 openPrimary open2 now r g).
Proof.
  intros Hid Hrnd Hmap Hres Hobs Hmax Hfwd. unfold Handle, writePrimaryResponse, mapRequestPaths.
  rewrite Hmap, Hres, Hobs, Hfwd, Hid, (readRequestBody_max _ _ r Hmax).
  destruct (requestID_Add g) as [id g1].
  destruct (readRequestBody (h_cfg h2) r) as [body|[status err]]; [|done].
  set (request1 := with_requestJSON unq1 _ _ _ _). set (request2 := with_requestJSON unq2 _ _ _ _).
  change (c_path request1) with (c_path request2).
  destruct (Map_ _ _) as [[primaryPath shadowPath]|err]; [|done].
  rewrite (ensureRequestID_shared sh1 sh2) by done.
  destruct (ensureRequestID _ _ _) as [[[corrID generated] hdr] g2].
  destruct (shouldShadow (H := sh1) _ _ _ _ _) as [s1 g3].
  destruct (shouldShadow (H := sh2) _ _ _ _ _) as [s2 g4].
  set (d := resolvePathRule _ _). set (traceID := match _ with Some _ => _ | None => _ end).
  set (ev := event request2 _ _ _ _ _ _). change (event request1 _ _ _ _ _ _) with ev.
  pose proof (callPrimary_request openPrimary ev request1 request2 traceID traceID corrID) as Hc.
  destruct (callPrimary openPrimary ev request1 traceID corrID) as [[res1|[[st1 e1] l1]] p1],
    (callPrimary openPrimary ev request2 traceID corrID) as [[res2|[[st2 e2] l2]] p2];
    simplify_eq/=; [|done].
  unfold startShadow. destruct (negb (sd_doShadow s1)), (negb (sd_doShadow s2)), open1, open2;
    repeat (case_match; try done); simplify_eq/=; done.
Qed.
End isolation.

Section bodies.
Context (cfg : httpConfig) (r : httpRequest).
Context (Hmax : hc_MaxBackendBodyBytes cfg < 2 ^ 63 - 1).

(** The three outcomes of reading a request body. *)
Lemma readRequestBody_spec :
  (forall body, acceptedBody cfg r body -> readRequestBody cfg r = inl body) /\
  (forall b e, r_Body r = Some b -> b_err b = Some e ->
     (0 < hc_MaxBackendBodyBytes cfg -> len (b_bytes b) <= hc_MaxBackendBodyBytes cfg) ->
     readRequestBody cfg r = inr (400, e)) /\
  (forall b, r_Body r = Some b -> 0 < hc_MaxBackendBodyBytes cfg < len (b_bytes b) ->
     exists e, readRequestBody cfg r = inr (413, e)).
Proof.
  unfold acceptedBody, readRequestBody. set (max := hc_MaxBackendBodyBytes cfg) in *.
  destruct (r_Body r) as [b|]; [|split_and!; naive_solver].
  assert (forall n, 0 < max -> n <= max -> i64 (max + 1) = max + 1 /\ (i64 (max + 1) <=? 0) = false /\
    (i64 (max + 1) <=? n) = false) as Hi.
  { intros n H0 Hn. rewrite i64_small by lia. split_and!; [done|lia|lia]. }
  unfold io_ReadAll. split_and!.
  - intros body (He & -> & Hl). rewrite He. destruct (Z.ltb_spec 0 max) as [H0|H0]; [|done].
    destruct (Hi (len (b_bytes b))) as (_ & -> & ->); [done|auto|]. simpl.
    destruct (Z.ltb_spec max (len (b_bytes b))); [|done]. specialize (Hl H0). lia.
  - intros ? e [= <-] He Hl. rewrite He. destruct (Z.ltb_spec 0 max) as [H0|H0]; [|done].
    by destruct (Hi (len (b_bytes b))) as (_ & -> & ->); [done|auto|].
  - intros ? [= <-] [H0 Hl]. rewrite (proj2 (Z.ltb_lt _ _) H0), i64_small by lia.
    rewrite (proj2 (Z.leb_gt _ _)), (proj2 (Z.leb_le _ _)) by lia. simpl andb.
    assert (len (of_chars (take (Z.to_nat (max + 1)) (chars (b_bytes b)))) = max + 1) as ->.
    { unfold len in *. rewrite <-length_chars, chars_of_chars, length_take, length_chars. lia. }
    rewrite (proj2 (Z.ltb_lt _ _)) by lia. by eexists.
Qed.

Lemma readRequestBody_accepted body : readRequestBody cfg r = inl body -> acceptedBody cfg r body.
Proof.
  destruct readRequestBody_spec as (_ & H400 & H413). intros E. unfold acceptedBody.
  destruct (r_Body r) as [b|] eqn:Eb.
  - destruct (decide (0 < hc_MaxBackendBodyBytes cfg < len (b_bytes b))) as [Hl|Hl].
    { destruct (H413 b eq_refl Hl) as [e E']. congruence. }
    destruct (b_err b) as [e|] eqn:Ee.
    { rewrite (H400 b e) in E; [done|done|done|lia]. }
    assert (acceptedBody cfg r (b_bytes b)) as Ha.
    { unfold acceptedBody. rewrite Eb. split_and!; [done|done|lia]. }
    apply (proj1 readRequestBody_spec) in Ha.
    assert (body = b_bytes b) as -> by congruence. split_and!; [done|done|lia].
  - unfold readRequestBody in E. rewrite Eb in E. by injection E.
Qed.
End bodies.

Section one_request.
Context `{Regexp} `{Unicode}.
Context (unq : string -> option string) (dec : string -> option document).
Context (range : header -> list (string * list string)).
Context {P G : Type} `{TestSession P} `{Shared G}.
Implicit Types (h : Handler) (r : httpRequest).

(** Every logged result is measured once, when metrics are on. *)
Lemma logHTTPResult_metrics h p :
  snd (logHTTPResult unq dec h p) =
    match h_observability h with
    | None => []
    | Some _ => [ObserveComparison (comparisonMetricResult p (payloadDiff p))]
    end.
Proof.
  unfold logHTTPResult, filteredHeaderLogFields. destruct (shadowLogFields p) as [[a b] c].
  unfold payloadDiff. destruct (negb (shouldHideSessionHeaders _ _ _)), (shouldSuppressHTTPLog _ _ _ _);
    try done; by destruct (negb (h_logger_Enabled h _)).
Qed.

(** The result of a request with an accepted body, by the primary's answer. *)
Definition called {S} h now r g (openShadow : res S) (o : handled P S G) (ev : Event)
    (answer : (Response + (Z * error * logRecord)) * option P) : Prop :=
  let '((corrID, generated), hdr, g2) := ensureRequestID now (snd (requestID_Add g)) (r_Header r) in
  let d := resolvePathRule (h_pathRuleResolver h) r in
  let s := fst (shouldShadow (h_cfg h) (h_hasLimiter h) r d g2) in
  let c := resolveComparison (h_cfg h) d s in
  let w := newWriter (SetTraceIDHeader (h_observability h) ∅) in
  match answer with
  | (inr (status, err, record), p) =>
      view o = (AbortWithStatus status w, OutcomePrimaryError, Some err, p) /\
      o_logs o = [record] /\ o_job o = None /\ comparisons (o_metrics o) = []
  | (inl res, p) =>
      view o = (writePrimaryResponse range (h_cfg h) corrID res w, OutcomeOK, None, p) /\
      match o_job o with
      | Some j =>
          let pl := j_payload j in
          sd_doShadow s = true /\ openShadow = Ok (j_session j) /\ j_event j = ev /\
          o_logs o = [] /\ comparisons (o_metrics o) = [] /\
          pl_primaryRes (pl_base pl) = res /\ pl_doShadow (pl_base pl) = true /\
          pl_shadowStarted pl = true /\ pl_compareEnabled pl = cd_enabled c /\
          pl_compareSkipReason pl = cd_skipReason c /\ pl_compareMode (pl_base pl) = cd_mode c /\
          pl_compareHeaders (pl_base pl) = cd_headers c /\
          pl_compareErr pl = None /\ pl_compareResult pl = zeroCompareResult
      | None =>
          (sd_doShadow s = false \/ exists e, openShadow = Err e) /\
          exists pl, pl_primaryRes (pl_base pl) = res /\ pl_shadowStarted pl = false /\
            pl_compareErr pl = None /\ pl_compareResult pl = zeroCompareResult /\
            (sd_doShadow s = true -> pl_doShadow (pl_base pl) = true /\ pl_shadowErr pl = shadowNotStarted) /\
            o_logs o = fst (logHTTPResult unq dec h pl) /\
            comparisons (o_metrics o) = comparisons (snd (logHTTPResult unq dec h pl))
      end
  end.

Lemma comparisons_ingress l h method outcome a b :
  comparisons (l ++ match h_observability h with
                    | None => []
                    | Some _ => [ObserveIngress method outcome a b]
                    end) = comparisons l.
Proof.
  unfold comparisons. rewrite omap_app. destruct (h_observability h); by rewrite app_nil_r.
Qed.

(** A refused body ends the request. *)
Lemma Handle_refused {S} h openPrimary (openShadow : res S) now r g status e :
  readRequestBody (h_cfg h) r = inr (status, e) ->
  let o := Handle unq dec range h openPrimary openShadow now r g in
  view o = (AbortWithStatus status (newWriter (SetTraceIDHeader (h_observability h) ∅)),
            OutcomeBadRequest, Some e, None) /\
  o_logs o = [] /\ o_job o = None /\ comparisons (o_metrics o) = [].
Proof.
  intros E. cbv zeta. unfold Handle. destruct (requestID_Add g) as [id g1]. rewrite E.
  split_and!; try done. simpl. apply (comparisons_ingress []).
Qed.

Lemma Handle_call h now r g body :
  hc_MaxBackendBodyBytes (h_cfg h) < 2 ^ 63 - 1 -> acceptedBody (h_cfg h) r body ->
  let hdr := snd (fst (ensureRequestID now (snd (requestID_Add g)) (r_Header r))) in
  exists ev request traceID corrID,
    eventOf h r (fst (requestID_Add g)) hdr body ev /\
    forall S openPrimary (openShadow : res S),
      called h now r g openShadow (Handle unq dec range h openPrimary openShadow now r g) ev
        (callPrimary openPrimary ev request traceID corrID).
Proof.
  intros Hmax Hbody. cbv zeta. unfold Handle, called, mapRequestPaths.
  rewrite (proj1 (readRequestBody_spec _ _ Hmax) _ Hbody).
  destruct (requestID_Add g) as [id g1]. simpl fst. simpl snd. rewrite Clone_id.
  destruct (ensureRequestID now g1 (r_Header r)) as [[[corrID generated] hdr] g2] eqn:Er.
  assert (exists pp sp, Map_ (h_pathMapper h) (r_Path r) = Ok (pp, sp)) as (pp & sp & Em).
  { destruct (h_pathMapper h) as [|rules]; simpl; [by do 2 eexists|].
    destruct (regexMap rules (r_Path r)) as [a b]. by do 2 eexists. }
  set (request := with_requestJSON unq dec (h_cfg h) (newHTTPRequestContext (h_cfg h) r id) body).
  set (d := resolvePathRule (h_pathRuleResolver h) r).
  set (traceID := match h_observability h with Some o => t_traceID o | None => "" end).
  exists (event request (prepareForwardedHeaders r hdr) body pp sp (PrimaryRequestHeaders d)
            (ShadowRequestHeaders d)), request, traceID, corrID.
  split.
  { split; try done. simpl. by rewrite !cloneStringMap_id. }
  intros S openPrimary openShadow. change (c_path request) with (r_Path r). rewrite Em.
  destruct (shouldShadow (h_cfg h) (h_hasLimiter h) r d g2) as [s g3]. simpl fst.
  set (ev := event request _ _ _ _ _ _).
  destruct (callPrimary openPrimary ev request traceID corrID) as [[res|[[status err] record]] p].
  2: { split_and!; try done. simpl. apply (comparisons_ingress []). }
  set (pl := payload _ _ _ _ _ _ _ _).
  destruct (sd_doShadow s) eqn:Es; cbn [negb].
  - unfold startShadow. destruct openShadow as [sh|e].
    + split; [done|]. simpl o_job. cbv beta iota zeta. simpl j_payload.
      split_and!; try done. apply (comparisons_ingress []).
    + match goal with |- context [logHTTPResult unq dec h ?q] => set (failed := q) end.
      destruct (logHTTPResult unq dec h failed) as [logs metrics] eqn:El.
      split; [done|]. simpl o_job. cbv beta iota zeta. split; [right; by exists e|].
      exists failed. rewrite El. split_and!; try done. apply comparisons_ingress.
  - destruct (logHTTPResult unq dec h pl) as [logs metrics] eqn:El.
    split; [done|]. simpl o_job. cbv beta iota zeta. split; [by left|].
    exists pl. rewrite El. split_and!; try done. apply comparisons_ingress.
Qed.

Context (Hrange : forall src, range src ≡ₚ map_to_list src).


(** C29. Every way a request fails.  An unreadable body is refused with 400, one
    over the limit with 413, both without calling the primary; a primary
    session that cannot be opened gives 503 and a primary that fails to take
    the request or to answer gives 502.  A failed request has an empty body
    and no headers but the trace id, its error is the span's, nothing is
    compared and no shadow is started. *)
Theorem Handle_failures {S} h now r g (openPrimary : res P) (openShadow : res S) :
  hc_MaxBackendBodyBytes (h_cfg h) < 2 ^ 63 - 1 ->
  let max := hc_MaxBackendBodyBytes (h_cfg h) in
  let o := Handle unq dec range h openPrimary openShadow now r g in
  let failed status outcome err :=
    w_Status (o_writer o) = status /\ w_Body (o_writer o) = "" /\
    w_Header (o_writer o) = SetTraceIDHeader (h_observability h) ∅ /\
    o_outcome o = outcome /\ o_spanErr o = Some err /\
    o_job o = None /\ comparisons (o_metrics o) = [] in
  (forall b e, r_Body r = Some b -> b_err b = Some e -> (0 < max -> len (b_bytes b) <= max) ->
     failed 400 OutcomeBadRequest e /\ o_primary o = None) /\
  (forall b, r_Body r = Some b -> 0 < max < len (b_bytes b) ->
     exists e, failed 413 OutcomeBadRequest e /\ o_primary o = None) /\
  (forall body e, acceptedBody (h_cfg h) r body -> openPrimary = Err e ->
     failed 503 OutcomePrimaryError e /\ o_primary o = None) /\
  (forall body p, acceptedBody (h_cfg h) r body -> openPrimary = Ok p ->
     exists ev, e_Body ev = body /\
       match Send p ev with
       | (Some e, p1) => failed 502 OutcomePrimaryError e /\ o_primary o = Some p1
       | (None, p1) =>
           let '((res, err), p2) := Receive p1 in
           match p_Err (keepErr res err) with
           | Some e => failed 502 OutcomePrimaryError e /\ o_primary o = Some p2
           | None => o_outcome o = OutcomeOK
           end
       end).
Proof.
  intros Hmax. cbv zeta. destruct (readRequestBody_spec (h_cfg h) r Hmax) as (_ & H400 & H413).
  assert (forall status outcome err record p o w,
    w = newWriter (SetTraceIDHeader (h_observability h) ∅) -> 
    view o = (AbortWithStatus status w, outcome, Some err, p) /\
    o_logs o = record /\ o_job o = None /\ comparisons (o_metrics o) = [] ->
    0 < status ->
    (w_Status (o_writer (S := S) o) = status /\ w_Body (o_writer o) = "" /\
     w_Header (o_writer o) = SetTraceIDHeader (h_observability h) ∅ /\
     o_outcome o = outcome /\ o_spanErr o = Some err /\
     o_job o = None /\ comparisons (o_metrics o) = []) /\ o_primary (P := P) (G := G) o = p) as Hfail.
  { intros status outcome err record p o w -> ([= Hw -> -> ->] & _ & -> & ->) Hs.
    rewrite Hw, AbortWithStatus_new by done. split_and!; done. }
  split_and!.
  - intros b e Eb Ee Hl. eapply Hfail; [reflexivity|by apply Handle_refused, (H400 b)|lia].
  - intros b Eb Hl. destruct (H413 b Eb Hl) as [e E]. exists e.
    eapply Hfail; [reflexivity|by apply Handle_refused|lia].
  - intros body e Hbody ->. destruct (Handle_call h now r g body Hmax Hbody)
      as (ev & rq & tid & cid & Hev & Hcall).
    specialize (Hcall S (Err e) openShadow). unfold called in Hcall.
    destruct (ensureRequestID _ _ _) as [[[corrID gen] hdr] g2]. simpl in Hcall.
    eapply Hfail; [reflexivity|exact Hcall|lia].
  - intros body p Hbody ->. destruct (Handle_call h now r g body Hmax Hbody)
      as (ev & rq & tid & cid & Hev & Hcall).
    exists ev. split; [apply Hev|]. specialize (Hcall S (Ok p) openShadow). unfold called in Hcall.
    destruct (ensureRequestID _ _ _) as [[[corrID gen] hdr] g2]. unfold callPrimary in Hcall.
    destruct (Send p ev) as [[e|] p1]; [eapply Hfail; [reflexivity|exact Hcall|lia]|].
    destruct (Receive p1) as [[res err] p2].
    destruct (p_Err (keepErr res err)) as [e|]; [eapply Hfail; [reflexivity|exact Hcall|lia]|].
    by destruct Hcall as [[= _ -> _ _] _].
Qed.
End one_request.

Section shadow_props.
Context `{Regexp} `{Unicode} `{JSONLib}.
Context (html_Parse : string -> res Node).
Context (unq : string -> option string) (dec : string -> option document).
Context (range : header -> list (string * list string)).
Context {P S G : Type} `{TestSession P} `{TestSession S} `{Shared G}.
Implicit Types (h : Handler) (r : httpRequest).

(** A comparison that reports same or diff has been made. *)
Lemma comparisonMetricResult_compared p result :
  comparisonMetricResult p (payloadDiff p) = result -> result = ResultSame \/ result = ResultDiff ->
  pl_compareEnabled p = true /\ pl_shadowStarted p = true /\ pl_doShadow (pl_base p) = true /\
  pl_shadowErr p = "" /\ pl_compareErr p = None /\
  result = if pc_Diff (pl_compareResult p) then ResultDiff else ResultSame.
Proof.
  unfold comparisonMetricResult. intros <-.
  destruct (_ || _); [by intros [|]|].
  destruct (pl_doShadow (pl_base p)); simpl; [|destruct (pl_compareEnabled p); by intros [|]].
  destruct (bool_decide_reflect (pl_shadowErr p = "")) as [E|E]; simpl; [|by intros [|]].
  destruct (pl_compareEnabled p); simpl; [|by intros [|]].
  destruct (pl_shadowStarted p); simpl; [|by intros [|]].
  unfold payloadDiff. destruct (pl_compareErr p); simpl; [by intros [|]|].
  rewrite orb_false_r. by intros _.
Qed.

(** The goroutine reports same or diff only after it has compared. *)
Lemma job_compared h (j : shadowJob S) result :
  let p := fst (shadowPayload html_Parse h j) in
  comparisonMetricResult p (payloadDiff p) = result -> result = ResultSame \/ result = ResultDiff ->
  exists s1 res err s2 compared,
    Send (j_session j) (j_event j) = (None, s1) /\ Receive s1 = ((res, err), s2) /\
    ErrString (p_Err (keepErr res err)) = "" /\
    compareHTTPResponses html_Parse h (j_payload j) (keepErr res err) = (compared, None) /\
    result = if pc_Diff compared then ResultDiff else ResultSame.
Proof.
  intros p Hr Hc. destruct (comparisonMetricResult_compared _ _ Hr Hc) as (He & _ & _ & Hs & Hn & Hd).
  revert He Hs Hn Hd. unfold p, shadowPayload.
  destruct (Send (j_session j) (j_event j)) as [[e|] s1]; [done|].
  destruct (Receive s1) as [[res' err] s2] eqn:ER.
  destruct (pl_compareEnabled (j_payload j)); simpl; [|by intros].
  destruct (compareHTTPResponses html_Parse h (j_payload j) (keepErr res' err)) as [cr ce] eqn:EC.
  simpl. intros _ Hs -> Hd. by exists s1, res', err, s2, cr.
Qed.

(** C30. Every answered request is counted once.  With metrics on, a request the
    primary answered gives exactly one comparison result, either at once or
    from the shadow goroutine it started, and a failed one none.  A result of
    same or diff is only ever reported when the shadow backend answered
    without an error and its response was really compared with the response
    the client got, and it says whether that comparison found a difference. *)
Theorem one_comparison h openPrimary (openShadow : res S) now r g :
  hc_MaxBackendBodyBytes (h_cfg h) < 2 ^ 63 - 1 ->
  let o := Handle (P := P) unq dec range h openPrimary openShadow now r g in
  let later := match o_job o with
               | Some j => snd (runShadowAndLog html_Parse unq dec h j)
               | None => []
               end in
  let results := comparisons (o_metrics o ++ later) in
  (length results = if bool_decide (h_observability h <> None) &&
                       bool_decide (o_outcome o = OutcomeOK) then 1%nat else 0%nat) /\
  (forall result, result ∈ results -> result = ResultSame \/ result = ResultDiff ->
     exists j s1 res err s2 compared,
       o_job o = Some j /\ openShadow = Ok (j_session j) /\
       Send (j_session j) (j_event j) = (None, s1) /\ Receive s1 = ((res, err), s2) /\
       ErrString (p_Err (keepErr res err)) = "" /\
       compareHTTPResponses html_Parse h (j_payload j) (keepErr res err) = (compared, None) /\
       result = (if pc_Diff compared then ResultDiff else ResultSame) /\
       exists corrID w, o_writer o = writePrimaryResponse range (h_cfg h) corrID
                                       (pl_primaryRes (pl_base (j_payload j))) w).
Proof.
  intros Hmax. cbv zeta.
  assert (forall l k, comparisons (l ++ k) = comparisons l ++ comparisons k)%list as Happ
    by (intros; apply omap_app).
  destruct (readRequestBody (h_cfg h) r) as [body|[status e]] eqn:Eb.
  2: { destruct (Handle_refused unq dec range h openPrimary openShadow now r g _ _ Eb)
         as ([= _ -> _ _] & _ & -> & Hm).
       rewrite Happ, Hm. split; [by rewrite andb_false_r|]. by intros ? ?%elem_of_nil. }
  apply readRequestBody_accepted in Eb; [|done].
  destruct (Handle_call (P := P) unq dec range h now r g body Hmax Eb) as (ev & rq & tid & cid & _ & Hcall).
  specialize (Hcall S openPrimary openShadow). unfold called in Hcall.
  set (o := Handle _ _ _ _ _ _ _ _ _) in *. clearbody o.
  destruct (ensureRequestID _ _ _) as [[[corrID gen] hdr] g2].
  destruct (callPrimary openPrimary ev rq tid cid) as [[res|[[status e] record]] p].
  2: { destruct Hcall as ([= _ -> _ _] & _ & -> & Hm).
       rewrite Happ, Hm. split; [by rewrite andb_false_r|]. by intros ? ?%elem_of_nil. }
  destruct Hcall as [[= Hw -> _ _] Hjob]. rewrite Happ.
  assert (forall q, comparisons (snd (logHTTPResult unq dec h q)) =
    if bool_decide (h_observability h <> None) then [comparisonMetricResult q (payloadDiff q)] else [])
    as Hq by (intros q; rewrite logHTTPResult_metrics; by destruct (h_observability h)).
  destruct (o_job o) as [j|].
  - destruct Hjob as (_ & Hopen & Hev & _ & -> & Hres & _ & Hst & _ & _ & _ & _ & Herr & Hz).
    unfold runShadowAndLog. rewrite Hq. simpl app. rewrite andb_true_r.
    split; [by destruct (bool_decide _)|]. intros result Hr Hc.
    destruct (bool_decide _); [|by apply elem_of_nil in Hr].
    apply list_elem_of_singleton in Hr.
    destruct (job_compared h j result (eq_sym Hr) Hc) as (s1 & res' & err & s2 & cr & Hall).
    exists j, s1, res', err, s2, cr. split_and!; try apply Hall; try done.
    exists corrID. eexists. by rewrite Hw, Hres.
  - destruct Hjob as (_ & pl & _ & Hst & _ & _ & _ & _ & ->). rewrite Hq. cbn [comparisons omap list_omap].
    rewrite andb_true_r, app_nil_r. split; [by destruct (bool_decide _)|]. intros result Hr Hc.
    destruct (bool_decide _); [|by apply elem_of_nil in Hr].
    apply list_elem_of_singleton in Hr.
    destruct (comparisonMetricResult_compared _ _ (eq_sym Hr) Hc) as (_ & Hst' & _). congruence.
Qed.

Lemma suppress_spec h p shadowErr :
  shouldSuppressHTTPLog (h_cfg h) p (payloadDiff p) shadowErr = true <->
  hc_LogOnlyOnDiff (h_cfg h) = true /\ payloadDiff p = false /\ shadowErr = "".
Proof.
  unfold shouldSuppressHTTPLog, payloadDiff. destruct (hc_LogOnlyOnDiff (h_cfg h)); simpl; [|naive_solver].
  destruct (pc_Diff (pl_compareResult p)), (pl_compareErr p), (bool_decide_reflect (shadowErr = ""));
    simpl; intuition congruence.
Qed.

(** A result that matters is never lost.  When the responses differ, could
    not be compared, or the shadow failed or was not started, the result is
    logged at the level of its severity unless that level is off, also with
    log_only_on_diff; without it every result is.  With it a clean result is
    suppressed, and only its metric is kept. *)
Theorem result_logged h p :
  let '(logs, _) := logHTTPResult unq dec h p in
  let failed := negb (bool_decide (pl_shadowErr p = "")) || isErr (p_Err (pl_shadowRes p)) ||
                isErr (pl_compareErr p) in
  let level := if isErr (p_Err (pl_primaryRes (pl_base p))) then LevelError
               else if failed then LevelWarn
               else if payloadDiff p then LevelNotice else LevelInfo in
  let matters := payloadDiff p = true \/ pl_shadowErr p <> "" \/
                 (pl_doShadow (pl_base p) = true /\ pl_shadowStarted p = false) in
  (h_logger_Enabled h level = true -> matters \/ hc_LogOnlyOnDiff (h_cfg h) = false ->
     exists attrs pKV sKV diffs selected shadowErr ok d1 d2 result text,
       logs = [LogAuthProxy level attrs p pKV sKV diffs (payloadDiff p) selected shadowErr ok
                 d1 d2 result text]) /\
  (h_logger_Enabled h level = false -> logs = []) /\
  (~ matters -> hc_LogOnlyOnDiff (h_cfg h) = true -> logs = []).
Proof.
  unfold logHTTPResult, ResultLevel.
  assert (forall result, pc_Diff result = pc_Diff (pl_compareResult p) ->
    exists pKV sKV diffs, filteredHeaderLogFields (h_cfg h) p result = (pKV, sKV, diffs, payloadDiff p))
    as Hf.
  { intros result E. unfold filteredHeaderLogFields, payloadDiff. rewrite E.
    destruct (negb _); by do 3 eexists. }
  destruct (Hf (normalizedCompareResult (h_cfg h) p) eq_refl) as (pKV & sKV & diffs & ->).
  set (matters := payloadDiff p = true \/ _ \/ _).
  assert (exists selected shadowErr ok, shadowLogFields p = (selected, shadowErr, ok) /\
    (shouldSuppressHTTPLog (h_cfg h) p (payloadDiff p) shadowErr = true <->
     hc_LogOnlyOnDiff (h_cfg h) = true /\ ~ matters)) as (selected & shadowErr & ok & -> & Hs).
  { destruct (shadowLogFields p) as [[selected shadowErr] ok] eqn:Ef.
    exists selected, shadowErr, ok. split; [done|]. rewrite suppress_spec.
    assert (shadowErr = "" <-> ~ (pl_shadowErr p <> "" \/
              (pl_doShadow (pl_base p) = true /\ pl_shadowStarted p = false))) as ->.
    { assert (shadowNotStarted <> "") by done. unfold shadowLogFields in Ef.
      destruct (pl_doShadow (pl_base p)), (pl_shadowStarted p); simpl in Ef;
        injection Ef as <- <- <-; destruct (decide (pl_shadowErr p = "")); intuition congruence. }
    unfold matters. destruct (payloadDiff p); intuition congruence. }
  clearbody matters. destruct (shouldSuppressHTTPLog _ _ _ _) eqn:Ess.
  - destruct (proj1 Hs eq_refl) as [Hl Hm]. split_and!; [|done|done].
    intros _ [?|?]; [done|congruence].
  - destruct (h_logger_Enabled h _) eqn:El; cbn [negb].
    + split_and!; [|congruence|].
      * intros _ _. by do 11 eexists.
      * intros Hm Hl. discriminate (proj2 Hs (conj Hl Hm)).
    + split_and!; [congruence|done|done].
Qed.

(** What the registry reports is under canonical keys. *)
Lemma Compare_canonical registry mode hs (primary shadow : Result) k :
  ~ canonical k ->
  let c := fst (Compare html_Parse (Some registry) mode hs primary shadow) in
  HeaderPrimary c !! k = None /\ HeaderShadow c !! k = None /\
  Forall (fun d => Headers.hd_Key d <> k) (HeaderDiffs c).
Proof.
  intros Hk. unfold Compare. destruct (comparators registry !! _) as [c|].
  2: { split_and!; try apply lookup_empty. constructor. }
  destruct c; unfold CompareWithHeaders, headerCompare, jsonCompare, htmlCompare;
    [|destruct (compareBodies _ _ _) as [[? ?] ?]|destruct (compareHTMLSimilarity _ _ _)];
    by apply CompareDetailed_canonical.
Qed.

(** log_session_only_on_diff hides nothing.  Whatever the setting, the
    headers and differences of a result that the comparators of the registry
    produced are logged as they are: the filter looks for "X-Session-ID", the
    comparators report under the canonical "X-Session-Id". *)
Theorem session_headers_logged h registry p shadowRes result err :
  h_httpComparators h = Some registry ->
  compareHTTPResponses html_Parse h p shadowRes = (result, err) ->
  forall q, filteredHeaderLogFields (h_cfg h) q result =
    (pc_HeaderPrimary result, pc_HeaderShadow result, pc_HeaderDiffs result,
     pc_Diff result || isErr (pl_compareErr q)).
Proof.
  intros Hreg Hcmp q. unfold compareHTTPResponses in Hcmp. rewrite Hreg in Hcmp.
  destruct (Compare _ _ _ _ _ _) as [c e] eqn:Ec. injection Hcmp as <- _.
  unfold filteredHeaderLogFields. destruct (negb _); [done|].
  assert (~ canonical headerSessionID) as Hn by done.
  destruct (Compare_canonical registry (pl_compareMode (pl_base p)) (pl_compareHeaders (pl_base p))
    (httpBackendResult (pl_primaryRes (pl_base p))) (httpBackendResult shadowRes) _ Hn) as (H1' & H2' & H3').
  rewrite Ec in H1', H2', H3'. cbn [fst] in *. unfold protocolResult.
  cbn [pc_HeaderPrimary pc_HeaderShadow pc_HeaderDiffs pc_Diff].
  rewrite !delete_id by done. unfold filterSessionDiffs. by rewrite list_filter_all.
Qed.
End shadow_props.

(** ** Examples *)

(** A session that takes every event and answers it with one response. *)
Definition answering (res : Response) : TestSession unit :=
  {| Send := fun s _ => (None, s); Receive := fun s => ((res, p_Err res), s) |}.
Definition exampleResponse : Response :=
  {| p_Proto := "HTTP/2.0"; p_Selected := "b1"; p_Status := 302;
     p_Header := {["Location" := ["/login"]]}; p_Body := "moved"; p_Duration := 0; p_Err := None;
     p_Decision := DecisionUnknown; p_Actions := []; p_Raw := ""; p_RawTrace := [] |}.
Definition exampleHTTPConfig (percent : Z) : httpConfig :=
  {| hc_ShadowForceHeader := "X-Shadow"; hc_ShadowBaseURLs := ["http://s"];
     hc_ShadowSamplePercent := percent; hc_MaxBackendBodyBytes := 4; hc_CompareMode := "header";
     hc_ForwardResponseHeaders := ["Content-Type"]; hc_LogSessionOnlyOnDiff := true;
     hc_LogOnlyOnDiff := false; hc_RequestHeaders := []; hc_ResponseHeaders := [];
     hc_RequestJSON := ∅; hc_ResponseJSON := ∅ |}.
Definition exampleHandler `{Regexp} (percent : Z) (comparators : option Registry) : Handler :=
  {| h_cfg := exampleHTTPConfig percent; h_comparator := None; h_hasLimiter := false;
     h_pathMapper := DirectMapper; h_pathRuleResolver := None; h_httpComparators := comparators;
     h_observability := Some {| t_TraceIDHeader := "X-Trace-Id"; t_traceID := "t1" |};
     h_logger_Enabled := fun _ => true |}.
Definition exampleBody (bytes : string) : option body := Some {| b_bytes := bytes; b_err := None |}.

Lemma Handle_isolated_witness :
  let H := literalRegexp in let U := asciiUnicode in
  let A := answering exampleResponse in let G := exampleShared in
  let run percent open := Handle (P := unit) (S := unit) (fun _ => None) (fun _ => None) map_to_list
    (exampleHandler percent None) (Ok tt) open 0 (exampleHTTPRequest ∅ (exampleBody "abc")) 0 in
  view (run 100 (Ok tt)) = view (run 0 (Err io_EOF)) /\
  w_Status (o_writer (run 100 (Ok tt))) = 302 /\ w_Body (o_writer (run 0 (Err io_EOF))) = "moved".
Proof.
  intros H U A G run. split; [|split; vm_compute; reflexivity].
  apply (Handle_isolated map_to_list exampleShared exampleShared); reflexivity.
Defined.


Lemma Handle_failures_witness :
  let H := literalRegexp in let U := asciiUnicode in
  let A := answering exampleResponse in let G := exampleShared in
  let o := Handle (P := unit) (S := unit) (fun _ => None) (fun _ => None) map_to_list
    (exampleHandler 0 None) (Ok tt) (Err io_EOF) 0 (exampleHTTPRequest ∅ (exampleBody "abcde")) 0 in
  w_Status (o_writer o) = 413 /\ o_primary o = None.
Proof.
  intros H U A G o.
  destruct (Handle_failures (fun _ => None) (fun _ => None) map_to_list (exampleHandler 0 None) 0
    (exampleHTTPRequest ∅ (exampleBody "abcde")) 0 (Ok tt : res unit) (Err io_EOF : res unit))
    as (_ & H413 & _); [reflexivity|].
  destruct (H413 {| b_bytes := "abcde"; b_err := None |}) as (e & (Hst & _) & Hp);
    [reflexivity|split; reflexivity|].
  split; [exact Hst|exact Hp].
Defined.

Lemma one_comparison_witness :
  let H := literalRegexp in let U := asciiUnicode in let J := exampleJSONLib in
  let A := answering exampleResponse in let G := exampleShared in
  let r := exampleHTTPRequest ∅ (exampleBody "abc") in
  let o := Handle (P := unit) (S := unit) (fun _ => None) (fun _ => None) map_to_list
    (exampleHandler 0 None) (Ok tt) (Err io_EOF) 0 r 0 in
  o_job o = None /\ length (comparisons (o_metrics o)) = 1%nat.
Proof.
  intros H U J A G r o. split; [vm_compute; reflexivity|].
  destruct (one_comparison exampleParse (fun _ => None) (fun _ => None) map_to_list
    (exampleHandler 0 None) (Ok tt : res unit) (Err io_EOF : res unit) 0 r 0) as [Hl _]; [reflexivity|].
  rewrite app_nil_r in Hl. exact Hl.
Defined.

Lemma session_headers_logged_witness :
  let H := literalRegexp in let U := asciiUnicode in let J := exampleJSONLib in
  let cfg := {| cc_CompareMode := "header"; cc_CompareHeaders := ["X-Session-ID"];
                cc_HTMLSimilarityThreshold := f1; cc_JSONStrict := false |} in
  let same := with_Err {| p_Proto := ""; p_Selected := ""; p_Status := 200;
    p_Header := {["X-Session-Id" := ["secret"]]}; p_Body := ""; p_Duration := 0; p_Err := None;
    p_Decision := ""; p_Actions := []; p_Raw := ""; p_RawTrace := [] |} None in
  exists registry p result, NewRegistry cfg = Ok registry /\
    compareHTTPResponses exampleParse (exampleHandler 0 (Some registry)) p same = (result, None) /\
    pc_Diff result = false /\
    (filteredHeaderLogFields (exampleHTTPConfig 0) p result).1.1.1 !! "X-Session-Id" = Some "secret".
Proof.
  intros H U J cfg same. destruct (NewRegistry cfg) as [registry|] eqn:E; [|discriminate].
  set (p := payload (newHTTPRequestContext (exampleHTTPConfig 0) (exampleHTTPRequest ∅ None) 0) "" ""
    false {| sd_doShadow := true; sd_forced := false; sd_skipReason := "" |}
    (plainDecision ShadowModeInherit CompareDecisionInherit "")
    {| cd_enabled := true; cd_mode := "header"; cd_headers := None; cd_skipReason := "" |} same).
  exists registry, p.
  destruct (compareHTTPResponses exampleParse (exampleHandler 0 (Some registry)) p same)
    as [result err] eqn:Ec.
  exists result. split; [reflexivity|].
  assert (err = None /\ pc_Diff result = false /\
    pc_HeaderPrimary result !! "X-Session-Id" = Some "secret") as (-> & Hd & Hk).
  { injection E as <-. vm_compute in Ec. injection Ec as <- <-. vm_compute. split_and!; reflexivity. }
  split; [reflexivity|]. split; [exact Hd|].
  change (exampleHTTPConfig 0) with (h_cfg (exampleHandler 0 (Some registry))) at 1.
  rewrite (session_headers_logged exampleParse (exampleHandler 0 (Some registry)) registry p same
    result None eq_refl Ec p). exact Hk.
Defined.
End httphandler.
