(* ===== verification/Config.v ===== *)
(** * [internal/config/config.go]: the whole configuration

    [Config] with its defaults, [validate] and the stages that are not about
    gRPC (those are in ConfigGrpc.v).  The struct of the source is flat; here
    its fields are grouped by the stage that reads them, and a stage returns
    its group anew.  The file is read in Load.v; [decode] is what [mapstructure]
    makes of the values of [SetDefault] by the tags of the fields. *)
From Stdlib Require Import SpecFloat.
From S2P Require Export ConfigGrpc GoRegexp PathMapper PathRules Logging Compare.

Module config.
Import callerauthconfig grpcconfig.

Definition protocolMilter : string := "milter".
Definition protocolGRPC : string := "grpc".
Definition compareModeHeader : string := "header".
Definition compareModeJSON : string := "json".
Definition compareModeHTML : string := "html".
Definition grpcMetadataStatus : string := "grpc-status".
Definition grpcMetadataMessage : string := "grpc-message".
Definition pathRuleShadowInherit : string := "inherit".
Definition pathRuleShadowAuto : string := "auto".
Definition pathRuleShadowNever : string := "never".
Definition pathRuleShadowAlways : string := "always".
Definition pathRuleCompareInherit : string := "inherit".
Definition pathRuleCompareOn : string := "on".
Definition pathRuleCompareOff : string := "off".
Definition upstreamHTTPProtocolAuto : string := "auto".
Definition upstreamHTTPProtocolHTTP1 : string := "http1".
Definition upstreamHTTPProtocolHTTP2 : string := "http2".
Definition headerAuthStatus : string := "Auth-Status".
Definition headerAuthServer : string := "Auth-Server".
Definition headerAuthPort : string := "Auth-Port".
Definition headerAuthUser : string := "Auth-User".
Definition headerAuthError : string := "Auth-Error".
Definition headerSessionID : string := "X-Session-ID".
Definition headerLocation : string := "Location".
Definition headerSetCookie : string := "Set-Cookie".
Definition headerContentType : string := "Content-Type".
Definition headerCacheControl : string := "Cache-Control".
Definition headerPragma : string := "Pragma".
Definition headerExpires : string := "Expires".
Definition headerWWWAuthenticate : string := "WWW-Authenticate".
Definition headerContentEncoding : string := "Content-Encoding".
Definition headerVary : string := "Vary".

(** ** The configuration *)

Record ShadowConfig := { s_RPS : spec_float; s_SamplePercent : Z; s_Burst : Z }.

Record TransportConfig := {
  t_DialTimeout : Z;
  t_TLSHandshakeTimeout : Z;
  t_ResponseHeaderTimeout : Z;
  t_MaxIdleConns : Z;
  t_MaxIdleConnsPerHost : Z;
  t_MaxConnsPerHost : Z;
  t_Protocol : string
}.

Record CompareConfig := { m_Mode : string; m_HTMLSimilarityThreshold : spec_float }.

Record RuntimeConfig := { r_RunAsUser : string; r_RunAsGroup : string; r_ChrootDir : string }.

Record PrometheusTLS := { p_Enabled : bool; p_Cert : string; p_Key : string; p_MinVersion : string }.

Record ObservabilityConfig := {
  o_PrometheusEnabled : bool;
  o_PrometheusAddress : string;
  o_PrometheusPort : Z;
  o_PrometheusPath : string;
  o_PrometheusRuntimeMetrics : bool;
  o_PrometheusHTTPAuthBasic : string;
  o_PrometheusTLS : PrometheusTLS;
  o_OTelEnabled : bool;
  o_OTelTracesEnabled : bool;
  o_OTelMetricsEnabled : bool;
  o_OTelServiceName : string;
  o_OTelServiceVersion : string;
  o_OTLPEndpoint : string;
  o_OTLPHeaders : option (gmap string string);
  o_OTLPInsecure : bool;
  o_OTelSampleRatio : option spec_float;
  o_TraceIDHeader : string
}.

(** The fields [validate] does not look at. *)
Record PlainConfig := {
  f_ListenAddr : string;
  f_MilterListenAddr : string;
  f_PrimaryMilterAddr : string;
  f_ShadowMilterAddr : string;
  f_MilterTimeout : Z;
  f_TLSCertFile : string;
  f_TLSKeyFile : string;
  f_ShadowForceHeader : string;
  f_PrimaryRequestHeaders : option (gmap string string);
  f_ShadowRequestHeaders : option (gmap string string);
  f_RootCAPath : string;
  f_PrimaryRootCA : string;
  f_ShadowRootCA : string;
  f_MaxBackendBodyBytes : Z;
  f_ShadowTimeout : Z;
  f_ForwardResponseHeaders : list string;
  f_CompareHeaders : list string;
  f_JSONStrict : bool;
  f_LogSessionOnlyOnDiff : bool;
  f_LogOnlyOnDiff : bool;
  f_LogJSON : bool;
  f_InsecureUpstream : bool;
  f_PathMapping : mapping.Config
}.

Record Config := {
  c_Protocol : string;
  c_PrimaryBaseURLs : list parsedURL;
  c_PrimarySelectionMode : string;
  c_ShadowBaseURLs : list parsedURL;
  c_ShadowSelectionMode : string;
  c_Shadow : ShadowConfig;
  c_Transport : TransportConfig;
  c_GRPC : GRPCConfig;
  c_Compare : CompareConfig;
  c_Runtime : RuntimeConfig;
  c_PathRules : option (list PathRule);
  c_LogLevel : string;
  c_LogFields : logfields.LogFieldsConfig;
  c_Observability : ObservabilityConfig;
  c_Plain : PlainConfig
}.

Definition UseJSONLogger (c : Config) : bool := f_LogJSON (c_Plain c).

Section stages.
Context `{Regexp} `{Unicode} `{URLs} `{PEMFiles}.

(** ** Protocol, backends, shadowing *)

Definition normalizeProtocol (raw : string) : res string :=
  oneOf raw protocolHTTP [protocolHTTP; protocolMilter; protocolGRPC]
    (errors_New ("invalid protocol: " +:+ raw)).

Definition validateBackendLists (protocol : string) (primary : list parsedURL) : option error :=
  if decide (protocol <> protocolHTTP) then None
  else if decide (primary = []) then
    Some (errors_New "at least one primary backend must be configured via primary_base_urls")
  else None.

Definition normalizeSelectionMode (mode : string) : string :=
  let normalized := ToLower (TrimSpace mode) in
  if decide (normalized ∈ [""; selectionRoundRobin; selectionSourceIPHash]) then
    if decide (normalized = "") then selectionRoundRobin else normalized
  else selectionRoundRobin.

Definition normalizeShadowConfig (s : ShadowConfig) : ShadowConfig :=
  let percent := if s_SamplePercent s <? 0 then 0 else s_SamplePercent s in
  let percent := if 100 <? percent then 100 else percent in
  {| s_RPS := s_RPS s; s_SamplePercent := percent;
     s_Burst := if (s_Burst s <? 1) && SFltb compare.f0 (s_RPS s) then 1 else s_Burst s |}.

Definition positiveOr (value fallback : Z) : Z := if value <=? 0 then fallback else value.
Definition normalizeHTTPTransportConfig (t : TransportConfig) : res TransportConfig :=
  protocol ← oneOf (t_Protocol t) upstreamHTTPProtocolAuto
    [upstreamHTTPProtocolAuto; upstreamHTTPProtocolHTTP1; upstreamHTTPProtocolHTTP2]
    (errors_New ("invalid upstream_http_protocol: " +:+ t_Protocol t));
  Ok {| t_DialTimeout := positiveOr (t_DialTimeout t) (2 * second);
        t_TLSHandshakeTimeout := positiveOr (t_TLSHandshakeTimeout t) (5 * second);
        t_ResponseHeaderTimeout := positiveOr (t_ResponseHeaderTimeout t) (5 * second);
        t_MaxIdleConns := positiveOr (t_MaxIdleConns t) 1024;
        t_MaxIdleConnsPerHost := positiveOr (t_MaxIdleConnsPerHost t) 256;
        t_MaxConnsPerHost := if t_MaxConnsPerHost t <? 0 then 0 else t_MaxConnsPerHost t;
        t_Protocol := protocol |}.

Definition normalizeCompareConfig (c : CompareConfig) : CompareConfig :=
  let mode := ToLower (TrimSpace (m_Mode c)) in
  let threshold := m_HTMLSimilarityThreshold c in
  let threshold := if SFltb threshold compare.f0 then compare.f0 else threshold in
  let threshold := if SFltb compare.f1 threshold then compare.f1 else threshold in
  {| m_Mode := if decide (mode ∈ [compareModeJSON; compareModeHTML]) then mode else compareModeHeader;
     m_HTMLSimilarityThreshold := threshold |}.

Definition normalizeRuntimeConfig (r : RuntimeConfig) : RuntimeConfig :=
  {| r_RunAsUser := TrimSpace (r_RunAsUser r); r_RunAsGroup := TrimSpace (r_RunAsGroup r);
     r_ChrootDir := TrimSpace (r_ChrootDir r) |}.

(** ** Path rules *)

Definition normalizePathRuleMethod (raw : string) : res string :=
  let method := ToUpper (TrimSpace raw) in
  if bool_decide (method = "") || negb (ValidHeaderFieldName method)
  then Err (errors_New ("invalid HTTP method " +:+ Quote raw))
  else Ok method.
Definition normalizePathRuleMethods (methods : option (list string)) : res (option (list string)) :=
  match methods with
  | None => Ok None
  | Some methods => normalized ← res_map normalizePathRuleMethod methods; Ok (Some normalized)
  end.

Definition normalizePathRuleShadow (raw : string) : res string :=
  oneOf raw pathRuleShadowInherit
    [pathRuleShadowInherit; pathRuleShadowAuto; pathRuleShadowNever; pathRuleShadowAlways]
    (unsupportedValue raw "inherit, auto, never, always").
Definition normalizePathRuleCompare (raw : string) : res string :=
  oneOf raw pathRuleCompareInherit [pathRuleCompareInherit; pathRuleCompareOn; pathRuleCompareOff]
    (unsupportedValue raw "inherit, on, off").
Definition normalizePathRuleCompareMode (raw : string) : res string :=
  oneOf raw "" [compareModeHeader; compareModeJSON; compareModeHTML]
    (unsupportedValue raw "header, json, html").

Definition normalizeHTTPHeaderName (raw : string) : res string :=
  let canonical := CanonicalHeaderKey (TrimSpace raw) in
  if bool_decide (canonical = "") || negb (ValidHeaderFieldName canonical)
  then Err (errors_New ("invalid HTTP header name " +:+ Quote raw))
  else Ok canonical.
Definition normalizeHTTPHeaderNames (names : option (list string)) : res (option (list string)) :=
  match names with
  | None => Ok None
  | Some names => normalized ← res_map normalizeHTTPHeaderName names; Ok (Some normalized)
  end.

Fixpoint normalizeHeaders (normalized : gmap string string) (values : list (string * string))
    : res (gmap string string) :=
  match values with
  | [] => Ok normalized
  | (raw, value) :: values' =>
      canonical ← normalizeHTTPHeaderName raw;
      match normalized !! canonical with
      | Some _ => Err (errors_New ("duplicate HTTP header name " +:+ Quote canonical))
      | None => normalizeHeaders (<[canonical := value]> normalized) values'
      end
  end.
Definition normalizeHTTPHeaderMap (range : gmap string string -> list (string * string))
    (values : option (gmap string string)) : res (option (gmap string string)) :=
  match values with
  | None => Ok None
  | Some values => normalized ← normalizeHeaders ∅ (range values); Ok (Some normalized)
  end.

Definition at_ (index : Z) (field : string) : error -> error := wrapped (indexed "path_rules" index +:+ field).

Definition normalizePathRuleModes (rule : PathRule) (index : Z) : res PathRule :=
  methods ← res_wrap (at_ index ".methods") (normalizePathRuleMethods (pr_Methods rule));
  shadow ← res_wrap (at_ index ".shadow") (normalizePathRuleShadow (pr_Shadow rule));
  compare ← res_wrap (at_ index ".compare") (normalizePathRuleCompare (pr_Compare rule));
  mode ← res_wrap (at_ index ".compare_mode") (normalizePathRuleCompareMode (pr_CompareMode rule));
  Ok {| pr_Name := pr_Name rule; pr_Methods := methods; pr_Match := pr_Match rule; pr_Shadow := shadow;
        pr_Compare := compare; pr_CompareMode := mode; pr_CompareHeaders := pr_CompareHeaders rule;
        pr_PrimaryRequestHeaders := pr_PrimaryRequestHeaders rule;
        pr_ShadowRequestHeaders := pr_ShadowRequestHeaders rule |}.

Definition normalizePathRuleHeaders (range : gmap string string -> list (string * string))
    (rule : PathRule) (index : Z) : res PathRule :=
  headers ← res_wrap (at_ index ".compare_headers") (normalizeHTTPHeaderNames (pr_CompareHeaders rule));
  primary ← res_wrap (at_ index ".primary_request_headers")
    (normalizeHTTPHeaderMap range (pr_PrimaryRequestHeaders rule));
  shadow ← res_wrap (at_ index ".shadow_request_headers")
    (normalizeHTTPHeaderMap range (pr_ShadowRequestHeaders rule));
  Ok {| pr_Name := pr_Name rule; pr_Methods := pr_Methods rule; pr_Match := pr_Match rule;
        pr_Shadow := pr_Shadow rule; pr_Compare := pr_Compare rule; pr_CompareMode := pr_CompareMode rule;
        pr_CompareHeaders := headers; pr_PrimaryRequestHeaders := primary; pr_ShadowRequestHeaders := shadow |}.

Definition validatePathRule (range : gmap string string -> list (string * string)) (index : Z)
    (rule : PathRule) : res PathRule :=
  let rule := {| pr_Name := TrimSpace (pr_Name rule); pr_Methods := pr_Methods rule;
                 pr_Match := TrimSpace (pr_Match rule); pr_Shadow := pr_Shadow rule;
                 pr_Compare := pr_Compare rule; pr_CompareMode := pr_CompareMode rule;
                 pr_CompareHeaders := pr_CompareHeaders rule;
                 pr_PrimaryRequestHeaders := pr_PrimaryRequestHeaders rule;
                 pr_ShadowRequestHeaders := pr_ShadowRequestHeaders rule |} in
  if decide (pr_Match rule = "") then Err (errors_New (indexed "path_rules" index +:+ ".match is required"))
  else
    _ ← res_wrap (at_ index ".match is invalid") (regexp_Compile (pr_Match rule));
    rule ← normalizePathRuleModes rule index;
    normalizePathRuleHeaders range rule index.

Definition validatePathRules (range : gmap string string -> list (string * string))
    (rules : option (list PathRule)) : res (option (list PathRule)) :=
  match rules with
  | None => Ok (Some [])
  | Some rules => validated ← res_imap (validatePathRule range) 0 rules; Ok (Some validated)
  end.

(** ** Observability *)

Definition SplitBasicAuthCredentials (credentials : string) : res (string * string) :=
  let invalid := Err (errors_New "must use non-empty user:password credentials") in
  match Cut credentials ":"%char with
  | None => invalid
  | Some (username, password) =>
      if decide (username = "" \/ password = "") then invalid else Ok (username, password)
  end.

Definition normalizeObservabilityConfig (o : ObservabilityConfig) : ObservabilityConfig := {|
  o_PrometheusEnabled := o_PrometheusEnabled o;
  o_PrometheusAddress := TrimSpace (o_PrometheusAddress o);
  o_PrometheusPort := o_PrometheusPort o;
  o_PrometheusPath := TrimSpace (o_PrometheusPath o);
  o_PrometheusRuntimeMetrics := o_PrometheusRuntimeMetrics o;
  o_PrometheusHTTPAuthBasic := TrimSpace (o_PrometheusHTTPAuthBasic o);
  o_PrometheusTLS := {| p_Enabled := p_Enabled (o_PrometheusTLS o);
    p_Cert := TrimSpace (p_Cert (o_PrometheusTLS o)); p_Key := TrimSpace (p_Key (o_PrometheusTLS o));
    p_MinVersion := TrimSpace (p_MinVersion (o_PrometheusTLS o)) |};
  o_OTelEnabled := o_OTelEnabled o;
  o_OTelTracesEnabled := o_OTelTracesEnabled o;
  o_OTelMetricsEnabled := o_OTelMetricsEnabled o;
  o_OTelServiceName := TrimSpace (o_OTelServiceName o);
  o_OTelServiceVersion := TrimSpace (o_OTelServiceVersion o);
  o_OTLPEndpoint := TrimSpace (o_OTLPEndpoint o);
  o_OTLPHeaders := o_OTLPHeaders o;
  o_OTLPInsecure := o_OTLPInsecure o;
  o_OTelSampleRatio := o_OTelSampleRatio o;
  o_TraceIDHeader := TrimSpace (o_TraceIDHeader o) |}.

Definition validatePrometheusTLS (t : PrometheusTLS) : option error :=
  if negb (p_Enabled t) then None
  else if decide (p_Cert t = "" \/ p_Key t = "")
  then Some (errors_New "observability prometheus_tls requires cert and key when enabled")
  else match ResolveTLSMinVersion (p_MinVersion t) with
       | Err err => Some (wrapped "observability prometheus_tls" err)
       | Ok _ => None
       end.

Definition validatePrometheusConfig (o : ObservabilityConfig) : option error :=
  if negb (o_PrometheusEnabled o) then None
  else if decide (o_PrometheusAddress o = "")
  then Some (errors_New "observability prometheus_address must not be empty when prometheus_enabled is true")
  else if (o_PrometheusPort o <? 1) || (65535 <? o_PrometheusPort o)
  then Some (errors_New "observability prometheus_port must be between 1 and 65535")
  else if negb (HasPrefix (o_PrometheusPath o) "/")
  then Some (errors_New "observability prometheus_path must start with '/'")
  else logfields.orElse
    (if decide (o_PrometheusHTTPAuthBasic o = "") then None
     else match SplitBasicAuthCredentials (o_PrometheusHTTPAuthBasic o) with
          | Err err => Some (errors_Wrap ("observability prometheus_http_auth_basic " +:+ Error err) err)
          | Ok _ => None
          end)
    (validatePrometheusTLS (o_PrometheusTLS o)).

Definition defaultedOTelSampleRatio (o : ObservabilityConfig) : spec_float := default compare.f1 (o_OTelSampleRatio o).

Definition validateOTelConfig (o : ObservabilityConfig) : option error :=
  let ratio := defaultedOTelSampleRatio o in
  if SFltb ratio compare.f0 || SFltb compare.f1 ratio
  then Some (errors_New "observability otel_sample_ratio must be between 0.0 and 1.0")
  else if negb (o_OTelEnabled o) then None
  else if negb (o_OTelTracesEnabled o) && negb (o_OTelMetricsEnabled o)
  then Some (errors_New "observability otel_enabled requires otel_traces_enabled or otel_metrics_enabled")
  else if decide (o_OTLPEndpoint o = "")
  then Some (errors_New "observability otel_exporter_otlp_endpoint is required when otel_enabled is true")
  else None.

(** The header name as stored. *)
Definition validateTraceIDHeader (name : string) : res string :=
  if decide (name = "") then Ok name
  else
    let canonical := CanonicalHeaderKey name in
    if bool_decide (canonical = "") || negb (ValidHeaderFieldName canonical)
    then Err (errors_New "observability trace_id_header must be a valid HTTP header name")
    else Ok canonical.

Definition validateObservabilityConfig (o : ObservabilityConfig) : res ObservabilityConfig :=
  let o := normalizeObservabilityConfig o in
  _ ← check (validatePrometheusConfig o);
  _ ← check (validateOTelConfig o);
  header ← validateTraceIDHeader (o_TraceIDHeader o);
  Ok {| o_PrometheusEnabled := o_PrometheusEnabled o; o_PrometheusAddress := o_PrometheusAddress o;
        o_PrometheusPort := o_PrometheusPort o; o_PrometheusPath := o_PrometheusPath o;
        o_PrometheusRuntimeMetrics := o_PrometheusRuntimeMetrics o;
        o_PrometheusHTTPAuthBasic := o_PrometheusHTTPAuthBasic o; o_PrometheusTLS := o_PrometheusTLS o;
        o_OTelEnabled := o_OTelEnabled o; o_OTelTracesEnabled := o_OTelTracesEnabled o;
        o_OTelMetricsEnabled := o_OTelMetricsEnabled o; o_OTelServiceName := o_OTelServiceName o;
        o_OTelServiceVersion := o_OTelServiceVersion o; o_OTLPEndpoint := o_OTLPEndpoint o;
        o_OTLPHeaders := match o_OTLPHeaders o with None => Some ∅ | Some h => Some h end;
        o_OTLPInsecure := o_OTLPInsecure o; o_OTelSampleRatio := o_OTelSampleRatio o;
        o_TraceIDHeader := header |}.

(** ** [validate] *)

Definition normalizeGRPCConfig (range : gmap string string -> list (string * string)) (protocol : string)
    (cfg : GRPCConfig) : res GRPCConfig :=
  if decide (protocol <> protocolGRPC) then Ok cfg else normalizeGRPC range cfg.

Definition normalizeLogLevel (raw : string) : res string :=
  _ ← logging.ParseLevel raw;
  let level := ToLower (TrimSpace raw) in
  Ok (if decide (level = "") then "info" else level).

(** [json_UnmarshalString]: the JSON decoding of a quoted selector name. *)
Definition validate (json_UnmarshalString : string -> option string)
    (range : gmap string string -> list (string * string)) (cfg : Config) : res Config :=
  _ ← check (logfields.validateLogFields json_UnmarshalString (c_LogFields cfg));
  level ← normalizeLogLevel (c_LogLevel cfg);
  protocol ← normalizeProtocol (c_Protocol cfg);
  _ ← check (validateBackendLists protocol (c_PrimaryBaseURLs cfg));
  grpc ← normalizeGRPCConfig range protocol (c_GRPC cfg);
  transport ← normalizeHTTPTransportConfig (c_Transport cfg);
  rules ← validatePathRules range (c_PathRules cfg);
  observability ← validateObservabilityConfig (c_Observability cfg);
  Ok {| c_Protocol := protocol; c_PrimaryBaseURLs := c_PrimaryBaseURLs cfg;
        c_PrimarySelectionMode := normalizeSelectionMode (c_PrimarySelectionMode cfg);
        c_ShadowBaseURLs := c_ShadowBaseURLs cfg;
        c_ShadowSelectionMode := normalizeSelectionMode (c_ShadowSelectionMode cfg);
        c_Shadow := normalizeShadowConfig (c_Shadow cfg); c_Transport := transport; c_GRPC := grpc;
        c_Compare := normalizeCompareConfig (c_Compare cfg); c_Runtime := normalizeRuntimeConfig (c_Runtime cfg);
        c_PathRules := rules; c_LogLevel := level; c_LogFields := c_LogFields cfg;
        c_Observability := observability; c_Plain := c_Plain cfg |}.
End stages.

(** ** Defaults

    [SetDefault] is called once per key; the calls in order. *)

Inductive defaultValue :=
  | DString (s : string)
  | DBool (b : bool)
  | DInt (n : Z)          (* also [time.Duration], in nanoseconds *)
  | DFloat (x : spec_float)
  | DStrings (l : list string)
  | DStringMap            (* an empty map *)
  | DEmptyList            (* an empty slice of structs *)
  | DMapping (mode : string).

Definition setProtocolDefaults : list (string * defaultValue) := [("protocol", DString protocolHTTP)].

Definition setHTTPDefaults : list (string * defaultValue) := [
  ("listen_addr", DString ":8080");
  ("tls_cert_file", DString "");
  ("tls_key_file", DString "");
  ("primary_base_urls", DStrings ["https://127.0.0.1:9001"]);
  ("primary_selection_mode", DString selectionRoundRobin);
  ("shadow_base_urls", DStrings ["https://127.0.0.1:9002"]);
  ("shadow_selection_mode", DString selectionRoundRobin);
  ("shadow_timeout", DInt (150 * millisecond));
  ("shadow_sample_percent", DInt 5);
  ("shadow_force_header", DString "X-Shadow");
  ("primary_request_headers", DStringMap);
  ("shadow_request_headers", DStringMap);
  ("shadow_rps", DFloat (compare.float64_of_int 200));
  ("shadow_burst", DInt 400);
  ("max_backend_body_bytes", DInt (32 * 1024));
  ("upstream_http_dial_timeout", DInt (2 * second));
  ("upstream_http_tls_handshake_timeout", DInt (5 * second));
  ("upstream_http_response_header_timeout", DInt (5 * second));
  ("upstream_http_max_idle_conns", DInt 1024);
  ("upstream_http_max_idle_conns_per_host", DInt 256);
  ("upstream_http_max_conns_per_host", DInt 0);
  ("upstream_http_protocol", DString upstreamHTTPProtocolAuto);
  ("path_rules", DEmptyList)].

Definition setMilterDefaults : list (string * defaultValue) := [
  ("milter_listen_addr", DString ":9999");
  ("primary_milter_addr", DString "127.0.0.1:9997");
  ("shadow_milter_addr", DString "127.0.0.1:9998");
  ("milter_timeout", DInt (2 * second))].

Definition setGRPCDefaults : list (string * defaultValue) := [
  ("grpc_listen_addr", DString ":9444");
  ("grpc_tls.enabled", DBool false);
  ("grpc_tls.cert", DString "");
  ("grpc_tls.key", DString "");
  ("grpc_tls.client_ca", DString "");
  ("grpc_tls.require_client_cert", DBool false);
  ("grpc_tls.min_tls_version", DString tlsMinVersionDefault);
  ("primary_grpc_selection_mode", DString selectionRoundRobin);
  ("shadow_grpc_selection_mode", DString selectionRoundRobin);
  ("primary_grpc_targets", DEmptyList);
  ("shadow_grpc_targets", DEmptyList);
  ("grpc_shadow_timeout", DInt (500 * millisecond));
  ("grpc_shadow_force_metadata", DString "");
  ("grpc_shadow_queue_size", DInt 128);
  ("grpc_max_receive_message_bytes", DInt (4 * 1024 * 1024));
  ("grpc_max_send_message_bytes", DInt (4 * 1024 * 1024));
  ("grpc_compare_mode", DString grpcCompareModeStatus);
  ("grpc_compare_metadata", DStrings [grpcMetadataStatus; grpcMetadataMessage]);
  ("grpc_rules", DEmptyList);
  ("grpc_caller_auth.mode", DString "");
  ("grpc_caller_auth.allow_unauthenticated", DBool false);
  ("grpc_caller_auth.timeout", DInt (2 * second));
  ("grpc_caller_auth.introspection_cache_ttl", DInt (30 * second));
  ("grpc_caller_auth.introspection_cache_max_entries", DInt 10000);
  ("grpc_caller_auth.introspection_max_concurrent", DInt DefaultGRPCIntrospectionMaxConcurrent);
  ("grpc_backend_oidc_auth.enabled", DBool false);
  ("grpc_backend_oidc_auth.auth_method", DString grpcOIDCAuthMethodAuto);
  ("grpc_backend_oidc_auth.timeout", DInt (5 * second));
  ("grpc_backend_oidc_auth.refresh_skew", DInt (30 * second));
  ("grpc_backend_oidc_auth.insecure_tls", DBool false)].

Definition setCompareDefaults : list (string * defaultValue) := [
  ("compare_mode", DString compareModeHeader);
  ("compare_json_strict", DBool false);
  ("compare_html_threshold", DFloat (compare.float64_div (compare.float64_of_int 99) (compare.float64_of_int 100)));
  ("log_session_only_on_diff", DBool true);
  ("log_only_on_diff", DBool false)].

Definition setRuntimeDefaults : list (string * defaultValue) := [
  ("log_json", DBool true);
  ("log_level", DString "info");
  ("root_ca", DString "");
  ("primary_root_ca", DString "");
  ("shadow_root_ca", DString "");
  ("insecure_upstream", DBool false);
  ("run_as_user", DString "");
  ("run_as_group", DString "");
  ("chroot", DString "")].

Definition setHeaderDefaults : list (string * defaultValue) := [
  ("forward_response_headers", DStrings [
     headerAuthStatus; headerAuthServer; headerAuthPort; headerAuthUser; "Auth-Pass"; headerAuthError;
     "Auth-Wait"; "Auth-Protocol"; headerSessionID; headerLocation; headerSetCookie; headerContentType;
     headerCacheControl; headerPragma; headerExpires; headerWWWAuthenticate; headerContentEncoding; headerVary]);
  ("compare_headers", DStrings [
     headerAuthStatus; headerAuthServer; headerAuthPort; headerAuthUser; headerAuthError; headerSessionID])].

Definition setPathMappingDefaults : list (string * defaultValue) := [("path_mapping", DMapping "direct")].

Definition setObservabilityDefaults : list (string * defaultValue) := [
  ("observability.prometheus_enabled", DBool false);
  ("observability.prometheus_address", DString "127.0.0.1");
  ("observability.prometheus_port", DInt 9464);
  ("observability.prometheus_path", DString "/metrics");
  ("observability.prometheus_runtime_metrics", DBool false);
  ("observability.prometheus_http_auth_basic", DString "");
  ("observability.prometheus_tls.enabled", DBool false);
  ("observability.prometheus_tls.cert", DString "");
  ("observability.prometheus_tls.key", DString "");
  ("observability.prometheus_tls.min_tls_version", DString "1.2");
  ("observability.otel_enabled", DBool false);
  ("observability.otel_traces_enabled", DBool false);
  ("observability.otel_metrics_enabled", DBool false);
  ("observability.otel_service_name", DString "doppelgaenger");
  ("observability.otel_service_version", DString "");
  ("observability.otel_exporter_otlp_endpoint", DString "");
  ("observability.otel_exporter_otlp_headers", DStringMap);
  ("observability.otel_exporter_otlp_insecure", DBool false);
  ("observability.otel_sample_ratio", DFloat compare.f1);
  ("observability.trace_id_header", DString "X-Trace-ID")].

Definition setDefaults : list (string * defaultValue) :=
  setProtocolDefaults ++ setHTTPDefaults ++ setMilterDefaults ++ setGRPCDefaults ++ setCompareDefaults ++
  setRuntimeDefaults ++ setHeaderDefaults ++ setPathMappingDefaults ++ setObservabilityDefaults.

(** *** Decoding by the tags of the fields: a key without a value leaves the
    zero value. *)

Section decode.
Context `{Unicode} `{URLs}.

(** [net/url]'s own error text is not modelled. *)
Definition parseURL (s : string) : res parsedURL :=
  match url_Parse (TrimSpace s) with
  | None => Err (errors_New "invalid URL")
  | Some u =>
      if decide (u_Scheme u = "" \/ u_Host u = "")
      then Err (errors_New "base url must include scheme and host, e.g. https://127.0.0.1:9001")
      else Ok u
  end.

Context (values : gmap string defaultValue).
Definition str (k : string) : string := match values !! k with Some (DString s) => s | _ => "" end.
Definition flag (k : string) : bool := match values !! k with Some (DBool b) => b | _ => false end.
Definition num (k : string) : Z := match values !! k with Some (DInt n) => n | _ => 0 end.
Definition float (k : string) : option spec_float := match values !! k with Some (DFloat x) => Some x | _ => None end.
Definition strs (k : string) : option (list string) := match values !! k with Some (DStrings l) => Some l | _ => None end.
Definition strmap (k : string) : option (gmap string string) :=
  match values !! k with Some DStringMap => Some ∅ | _ => None end.
Definition structs (A : Type) (k : string) : option (list A) :=
  match values !! k with Some DEmptyList => Some [] | _ => None end.

Definition decodeGRPC : GRPCConfig := {|
  g_ListenAddr := str "grpc_listen_addr";
  g_TLS := {| tls_Enabled := flag "grpc_tls.enabled"; tls_Cert := str "grpc_tls.cert";
    tls_Key := str "grpc_tls.key"; tls_ClientCA := str "grpc_tls.client_ca";
    tls_RequireClientCert := flag "grpc_tls.require_client_cert";
    tls_MinTLSVersion := str "grpc_tls.min_tls_version" |};
  g_PrimarySelectionMode := str "primary_grpc_selection_mode";
  g_ShadowSelectionMode := str "shadow_grpc_selection_mode";
  g_PrimaryTargets := default [] (structs GRPCTarget "primary_grpc_targets");
  g_ShadowTargets := default [] (structs GRPCTarget "shadow_grpc_targets");
  g_ShadowTimeout := num "grpc_shadow_timeout";
  g_ShadowForceMetadata := str "grpc_shadow_force_metadata";
  g_ShadowQueueSize := num "grpc_shadow_queue_size";
  g_MaxReceiveMessageBytes := num "grpc_max_receive_message_bytes";
  g_MaxSendMessageBytes := num "grpc_max_send_message_bytes";
  g_CompareMode := str "grpc_compare_mode";
  g_CompareMetadata := strs "grpc_compare_metadata";
  g_Rules := structs GRPCRule "grpc_rules";
  g_CallerAuth := {| ca_CAFile := str "grpc_caller_auth.ca_file";
    ca_ServerName := str "grpc_caller_auth.server_name";
    ca_MinTLSVersion := str "grpc_caller_auth.min_tls_version"; ca_Mode := str "grpc_caller_auth.mode";
    ca_AllowUnauthenticated := flag "grpc_caller_auth.allow_unauthenticated";
    ca_IntrospectionEndpoint := str "grpc_caller_auth.introspection_endpoint";
    ca_Issuer := str "grpc_caller_auth.issuer"; ca_Audience := str "grpc_caller_auth.audience";
    ca_ClientID := str "grpc_caller_auth.client_id";
    ca_ClientSecretEnv := str "grpc_caller_auth.client_secret_env";
    ca_RequiredScopes := default [] (strs "grpc_caller_auth.required_scopes");
    ca_MethodScopes := default [] (structs GRPCCallerMethodScopes "grpc_caller_auth.method_scopes");
    ca_Timeout := num "grpc_caller_auth.timeout";
    ca_IntrospectionCacheTTL := num "grpc_caller_auth.introspection_cache_ttl";
    ca_IntrospectionCacheMaxEntries := num "grpc_caller_auth.introspection_cache_max_entries";
    ca_IntrospectionMaxConcurrent := num "grpc_caller_auth.introspection_max_concurrent" |};
  g_BackendOIDCAuth := {| oidc_CAFile := str "grpc_backend_oidc_auth.ca_file";
    oidc_ServerName := str "grpc_backend_oidc_auth.server_name";
    oidc_MinTLSVersion := str "grpc_backend_oidc_auth.min_tls_version";
    oidc_Enabled := flag "grpc_backend_oidc_auth.enabled";
    oidc_ConfigurationURI := str "grpc_backend_oidc_auth.configuration_uri";
    oidc_TokenEndpoint := str "grpc_backend_oidc_auth.token_endpoint";
    oidc_ClientID := str "grpc_backend_oidc_auth.client_id";
    oidc_ClientSecret := str "grpc_backend_oidc_auth.client_secret";
    oidc_ClientSecretEnv := str "grpc_backend_oidc_auth.client_secret_env";
    oidc_AuthMethod := str "grpc_backend_oidc_auth.auth_method";
    oidc_Scopes := strs "grpc_backend_oidc_auth.scopes";
    oidc_Timeout := num "grpc_backend_oidc_auth.timeout";
    oidc_RefreshSkew := num "grpc_backend_oidc_auth.refresh_skew";
    oidc_InsecureTLS := flag "grpc_backend_oidc_auth.insecure_tls" |} |}.

Definition decodeObservability : ObservabilityConfig := {|
  o_PrometheusEnabled := flag "observability.prometheus_enabled";
  o_PrometheusAddress := str "observability.prometheus_address";
  o_PrometheusPort := num "observability.prometheus_port";
  o_PrometheusPath := str "observability.prometheus_path";
  o_PrometheusRuntimeMetrics := flag "observability.prometheus_runtime_metrics";
  o_PrometheusHTTPAuthBasic := str "observability.prometheus_http_auth_basic";
  o_PrometheusTLS := {| p_Enabled := flag "observability.prometheus_tls.enabled";
    p_Cert := str "observability.prometheus_tls.cert"; p_Key := str "observability.prometheus_tls.key";
    p_MinVersion := str "observability.prometheus_tls.min_tls_version" |};
  o_OTelEnabled := flag "observability.otel_enabled";
  o_OTelTracesEnabled := flag "observability.otel_traces_enabled";
  o_OTelMetricsEnabled := flag "observability.otel_metrics_enabled";
  o_OTelServiceName := str "observability.otel_service_name";
  o_OTelServiceVersion := str "observability.otel_service_version";
  o_OTLPEndpoint := str "observability.otel_exporter_otlp_endpoint";
  o_OTLPHeaders := strmap "observability.otel_exporter_otlp_headers";
  o_OTLPInsecure := flag "observability.otel_exporter_otlp_insecure";
  o_OTelSampleRatio := float "observability.otel_sample_ratio";
  o_TraceIDHeader := str "observability.trace_id_header" |}.

Definition decodePlain : PlainConfig := {|
  f_ListenAddr := str "listen_addr"; f_MilterListenAddr := str "milter_listen_addr";
  f_PrimaryMilterAddr := str "primary_milter_addr"; f_ShadowMilterAddr := str "shadow_milter_addr";
  f_MilterTimeout := num "milter_timeout"; f_TLSCertFile := str "tls_cert_file";
  f_TLSKeyFile := str "tls_key_file"; f_ShadowForceHeader := str "shadow_force_header";
  f_PrimaryRequestHeaders := strmap "primary_request_headers";
  f_ShadowRequestHeaders := strmap "shadow_request_headers"; f_RootCAPath := str "root_ca";
  f_PrimaryRootCA := str "primary_root_ca"; f_ShadowRootCA := str "shadow_root_ca";
  f_MaxBackendBodyBytes := num "max_backend_body_bytes"; f_ShadowTimeout := num "shadow_timeout";
  f_ForwardResponseHeaders := default [] (strs "forward_response_headers");
  f_CompareHeaders := default [] (strs "compare_headers"); f_JSONStrict := flag "compare_json_strict";
  f_LogSessionOnlyOnDiff := flag "log_session_only_on_diff"; f_LogOnlyOnDiff := flag "log_only_on_diff";
  f_LogJSON := flag "log_json"; f_InsecureUpstream := flag "insecure_upstream";
  f_PathMapping := match values !! "path_mapping" with
                   | Some (DMapping mode) => {| mapping.c_Mode := mode; mapping.c_Rules := [] |}
                   | _ => {| mapping.c_Mode := ""; mapping.c_Rules := [] |}
                   end |}.

Definition decode : res Config :=
  primary ← res_map parseURL (default [] (strs "primary_base_urls"));
  shadow ← res_map parseURL (default [] (strs "shadow_base_urls"));
  Ok {|
    c_Protocol := str "protocol"; c_PrimaryBaseURLs := primary;
    c_PrimarySelectionMode := str "primary_selection_mode"; c_ShadowBaseURLs := shadow;
    c_ShadowSelectionMode := str "shadow_selection_mode";
    c_Shadow := {| s_RPS := default compare.f0 (float "shadow_rps");
                   s_SamplePercent := num "shadow_sample_percent"; s_Burst := num "shadow_burst" |};
    c_Transport := {| t_DialTimeout := num "upstream_http_dial_timeout";
      t_TLSHandshakeTimeout := num "upstream_http_tls_handshake_timeout";
      t_ResponseHeaderTimeout := num "upstream_http_response_header_timeout";
      t_MaxIdleConns := num "upstream_http_max_idle_conns";
      t_MaxIdleConnsPerHost := num "upstream_http_max_idle_conns_per_host";
      t_MaxConnsPerHost := num "upstream_http_max_conns_per_host";
      t_Protocol := str "upstream_http_protocol" |};
    c_GRPC := decodeGRPC;
    c_Compare := {| m_Mode := str "compare_mode";
                    m_HTMLSimilarityThreshold := default compare.f0 (float "compare_html_threshold") |};
    c_Runtime := {| r_RunAsUser := str "run_as_user"; r_RunAsGroup := str "run_as_group";
                    r_ChrootDir := str "chroot" |};
    c_PathRules := structs PathRule "path_rules"; c_LogLevel := str "log_level";
    c_LogFields := {| logfields.GRPCMessages := []; logfields.MilterMacros := [];
      logfields.RequestJSON := []; logfields.ResponseJSON := []; logfields.RequestHeaders := [];
      logfields.ResponseHeaders := []; logfields.RequestMetadata := []; logfields.ResponseMetadata := [] |};
    c_Observability := decodeObservability; c_Plain := decodePlain |}.
End decode.
End config.
