(* ===== verification/ConfigSpec.v ===== *)
(** * The accepted configurations

    What [validate] accepts and returns, that the result is a fixed point, that
    the defaults are accepted unchanged, and that accepted path rules and
    headers are ones the proxy can use. *)
From Stdlib Require Import SpecFloat.
From S2P Require Export Config ConfigGrpcSpec.

Module configspec.
Import callerauthconfig grpcconfig grpcconfigspec config.

(** ** Headers and methods *)

Lemma token_plain c : token_byte c = true -> plain c.
Proof.
  unfold token_byte, plain. cbn [existsb]. pose proof (code_range c). intros Hc.
  split; [|lia]. repeat (apply orb_true_iff in Hc as [Hc|Hc]); lia.
Qed.
Lemma valid_trimmed s : ValidHeaderFieldName s = true -> TrimSpace s = s.
Proof.
  unfold ValidHeaderFieldName. intros Hs. apply TrimSpace_plain.
  destruct (chars s) as [|c l]; [constructor|]. apply Forall_forall. intros d Hd.
  rewrite forallb_forall in Hs. apply token_plain, Hs. by apply list_elem_of_In.
Qed.

Definition header_ok (name : string) : Prop := ValidHeaderFieldName name = true /\ canonical name.
Lemma normalizeHTTPHeaderName_ok `{Unicode} : normalizes normalizeHTTPHeaderName header_ok.
Proof.
  split.
  - intros raw y. unfold normalizeHTTPHeaderName. case_bool_decide; [done|].
    destruct (ValidHeaderFieldName _) eqn:Ev; [|done]. intros [= <-]. split; [done|apply canonical_CanonicalHeaderKey].
  - intros y [Hv Hc]. unfold normalizeHTTPHeaderName. rewrite (valid_trimmed y Hv), Hc, Hv.
    rewrite bool_decide_false; [done|]. by intros ->.
Qed.

Section spec.
Context `{Regexp} `{Unicode} `{URLs} `{PEMFiles}.

Lemma optional_normalizes {A} (f : list A -> res (list A)) P g :
  (forall x, g x = match x with None => Ok None | Some l => n ← f l; Ok (Some n) end) ->
  normalizes f (Forall P) ->
  normalizes g (fun x => match x with None => True | Some l => Forall P l end).
Proof.
  intros Hg [Hs Hc]. split.
  - intros [l|] y; rewrite Hg; [|by intros [= <-]]. destruct (f l) as [n|] eqn:E; [|done]. intros [= <-]. by eapply Hs.
  - intros [l|] Hy; rewrite Hg; [|done]. by rewrite (Hc l Hy).
Qed.
Lemma normalizeHTTPHeaderNames_ok :
  normalizes normalizeHTTPHeaderNames (fun x => match x with None => True | Some l => Forall header_ok l end).
Proof. apply (optional_normalizes (res_map normalizeHTTPHeaderName)); [by intros []|]. apply res_map_normalizes, normalizeHTTPHeaderName_ok. Qed.

(** A method: a token that the upper-casing made. *)
Definition httpMethod_ok (m : string) : Prop := ValidHeaderFieldName m = true.
Lemma normalizePathRuleMethod_sound raw y : normalizePathRuleMethod raw = Ok y -> httpMethod_ok y.
Proof. unfold normalizePathRuleMethod. case_bool_decide; [done|]. destruct (ValidHeaderFieldName _) eqn:E; [|done]. by intros [= <-]. Qed.
Lemma normalizePathRuleMethod_id y : httpMethod_ok y -> ToUpper y = y -> normalizePathRuleMethod y = Ok y.
Proof.
  intros Hv Hu. unfold normalizePathRuleMethod. rewrite (valid_trimmed y Hv), Hu, Hv.
  rewrite bool_decide_false; [done|]. by intros ->.
Qed.
Definition uppercase (methods : option (list string)) : Prop := Forall (fun m => ToUpper m = m) (default [] methods).
Lemma normalizePathRuleMethods_sound ms y :
  normalizePathRuleMethods ms = Ok y -> match y with None => True | Some l => Forall httpMethod_ok l end.
Proof.
  destruct ms as [l|]; [|by intros [= <-]]. unfold normalizePathRuleMethods.
  destruct (res_map _ l) as [n|] eqn:E; [|done]. intros [= <-]. apply res_map_ok in E.
  induction E; constructor; [by eapply normalizePathRuleMethod_sound|done].
Qed.
Lemma normalizePathRuleMethods_id ms :
  match ms with None => True | Some l => Forall httpMethod_ok l end -> uppercase ms ->
  normalizePathRuleMethods ms = Ok ms.
Proof.
  destruct ms as [l|]; [|done]. unfold uppercase. cbn. intros Hv Hu.
  assert (res_map normalizePathRuleMethod l = Ok l) as ->; [|done].
  apply res_map_ok. induction l as [|m l IH]; [constructor|].
  apply Forall_cons in Hv as [? ?], Hu as [? ?]. constructor; [by apply normalizePathRuleMethod_id|by apply IH].
Qed.

(** Header maps. *)
Definition headers_ok : option (gmap string string) -> Prop := keys_all header_ok.
Lemma normalizeHTTPHeaderMap_ok range : (forall m, range m ≡ₚ map_to_list m) ->
  normalizes (normalizeHTTPHeaderMap range) headers_ok.
Proof.
  intros Hrange. apply (maploop_normalizes normalizeHeaders header_ok) with range; [done| | |done|by intros []].
  - intros acc raw v l m. cbn [normalizeHeaders].
    destruct (normalizeHTTPHeaderName raw) as [name|] eqn:En; [|done]. cbn [mbind res_bind].
    destruct (acc !! name); [done|]. intros E. exists name. split; [by eapply normalizeHTTPHeaderName_ok|done].
  - intros acc k v l Hk Hacc. cbn [normalizeHeaders].
    rewrite (proj2 normalizeHTTPHeaderName_ok k Hk). cbn [mbind res_bind]. by rewrite Hacc.
Qed.
End spec.

Section rules.
Context `{Regexp} `{Unicode} `{URLs} `{PEMFiles}.

(** ** Path rules *)

Record path_rule_ok (r : PathRule) : Prop := {
  po_match : trimmed (pr_Match r) /\ pr_Match r <> "" /\ is_ok (regexp_Compile (pr_Match r)) = true;
  po_name : trimmed (pr_Name r);
  po_methods : match pr_Methods r with None => True | Some l => Forall httpMethod_ok l end;
  po_shadow : pr_Shadow r ∈ [pathRuleShadowInherit; pathRuleShadowAuto; pathRuleShadowNever; pathRuleShadowAlways];
  po_compare : pr_Compare r ∈ [pathRuleCompareInherit; pathRuleCompareOn; pathRuleCompareOff];
  po_mode : pr_CompareMode r = "" \/ pr_CompareMode r ∈ [compareModeHeader; compareModeJSON; compareModeHTML];
  po_headers : match pr_CompareHeaders r with None => True | Some l => Forall header_ok l end;
  po_maps : headers_ok (pr_PrimaryRequestHeaders r) /\ headers_ok (pr_ShadowRequestHeaders r)
}.

Lemma http_words : Forall word [compareModeHeader; compareModeJSON; compareModeHTML] /\
  Forall word [upstreamHTTPProtocolAuto; upstreamHTTPProtocolHTTP1; upstreamHTTPProtocolHTTP2] /\
  Forall word [protocolHTTP; protocolMilter; protocolGRPC] /\
  Forall word [selectionRoundRobin; selectionSourceIPHash] /\
  Forall word ["debug"; "info"; "none"; "notice"; "warn"; "error"].
Proof. split_and!; apply ToLower_words; repeat constructor; done. Qed.

Lemma pathShadow_ok : normalizes normalizePathRuleShadow
  (.∈ [pathRuleShadowInherit; pathRuleShadowAuto; pathRuleShadowNever; pathRuleShadowAlways]).
Proof. apply oneOf_normalizes; [apply shadow_words|apply list_elem_of_here]. Qed.
Lemma pathCompare_ok : normalizes normalizePathRuleCompare
  (.∈ [pathRuleCompareInherit; pathRuleCompareOn; pathRuleCompareOff]).
Proof. apply oneOf_normalizes; [apply compare_decision_words|apply list_elem_of_here]. Qed.
Lemma pathMode_ok : normalizes normalizePathRuleCompareMode
  (fun m => m = "" \/ m ∈ [compareModeHeader; compareModeJSON; compareModeHTML]).
Proof.
  split; [intros x y E; by eapply oneOf_ok|]. intros y [->|Hy]; [done|].
  apply oneOf_word; [|done]. eapply Forall_forall; [apply (proj1 http_words)|done].
Qed.

Context (range : gmap string string -> list (string * string)) (Hrange : forall m, range m ≡ₚ map_to_list m).

Lemma validatePathRule_sound i r y : validatePathRule range i r = Ok y -> path_rule_ok y.
Proof.
  unfold validatePathRule. cbv zeta. cbn [pr_Match]. case_decide as Em; [done|]. intros E.
  apply res_bind_ok in E as (re & Er%res_wrap_ok & E). apply res_bind_ok in E as (r1 & E1 & E2).
  unfold normalizePathRuleModes in E1. cbn in E1.
  apply res_bind_ok in E1 as (methods & M1%res_wrap_ok & E1). apply res_bind_ok in E1 as (shadow & M2%res_wrap_ok & E1).
  apply res_bind_ok in E1 as (compare & M3%res_wrap_ok & E1). apply res_bind_ok in E1 as (mode & M4%res_wrap_ok & [= <-]).
  unfold normalizePathRuleHeaders in E2. cbn in E2.
  apply res_bind_ok in E2 as (headers & M5%res_wrap_ok & E2). apply res_bind_ok in E2 as (primary & M6%res_wrap_ok & E2).
  apply res_bind_ok in E2 as (smap & M7%res_wrap_ok & [= <-]). split; cbn.
  - split_and!; [apply TrimSpace_idemp|done|by rewrite Er].
  - apply TrimSpace_idemp.
  - by eapply normalizePathRuleMethods_sound.
  - by eapply pathShadow_ok.
  - by eapply pathCompare_ok.
  - by eapply pathMode_ok.
  - by eapply normalizeHTTPHeaderNames_ok.
  - split; by eapply (normalizeHTTPHeaderMap_ok range).
Qed.

Lemma validatePathRule_id i r : path_rule_ok r /\ uppercase (pr_Methods r) -> validatePathRule range i r = Ok r.
Proof.
  intros [[(T1 & T2 & T3) T4 T5 T6 T7 T8 T9 [T10 T11]] Hu]. unfold validatePathRule. cbv zeta. cbn [pr_Match].
  rewrite T1, T4, decide_False by done. destruct (regexp_Compile (pr_Match r)); [|done]. cbn [mbind res_bind res_wrap].
  unfold normalizePathRuleModes. cbn [pr_Methods pr_Shadow pr_Compare pr_CompareMode].
  rewrite (normalizePathRuleMethods_id _ T5 Hu), (proj2 pathShadow_ok _ T6). cbn [mbind res_bind res_wrap].
  rewrite (proj2 pathCompare_ok _ T7). cbn [mbind res_bind res_wrap].
  rewrite (proj2 pathMode_ok _ T8). cbn [mbind res_bind res_wrap]. unfold normalizePathRuleHeaders.
  cbn [pr_CompareHeaders pr_PrimaryRequestHeaders pr_ShadowRequestHeaders].
  rewrite (proj2 normalizeHTTPHeaderNames_ok _ T9). cbn [mbind res_bind res_wrap].
  rewrite (proj2 (normalizeHTTPHeaderMap_ok range Hrange) _ T10). cbn [mbind res_bind res_wrap].
  rewrite (proj2 (normalizeHTTPHeaderMap_ok range Hrange) _ T11). by destruct r.
Qed.

Definition path_rules_ok (rules : option (list PathRule)) : Prop :=
  match rules with None => False | Some l => Forall path_rule_ok l end.
Lemma validatePathRules_sound rules y : validatePathRules range rules = Ok y -> path_rules_ok y.
Proof.
  destruct rules as [l|]; unfold validatePathRules; [|intros [= <-]; constructor].
  destruct (res_imap _ 0 l) eqn:E; [|done]. intros [= <-]. eapply res_imap_sound; [|exact E]. apply validatePathRule_sound.
Qed.
Lemma validatePathRules_id rules :
  path_rules_ok rules -> Forall (fun r => uppercase (pr_Methods r)) (default [] rules) ->
  validatePathRules range rules = Ok rules.
Proof.
  destruct rules as [l|]; [|done]. unfold validatePathRules. cbn. intros Hr Hu.
  rewrite (res_imap_keep _ (fun r => path_rule_ok r /\ uppercase (pr_Methods r))); [done|apply validatePathRule_id|].
  by apply Forall_and.
Qed.

(** Accepted rules compile. *)
Lemma path_rules_compile i rules : Forall path_rule_ok rules -> exists cs, pathrules.compileRules i rules = Ok cs.
Proof.
  intros Hr. revert i. induction Hr as [|r rules Hr _ IH]; intros i; [by exists []|].
  cbn [pathrules.compileRules]. destruct Hr as [(_ & _ & T3) _ _ _ _ _ _ _]. unfold pathrules.compileRule.
  destruct (regexp_Compile (pr_Match r)); [|done]. cbn [mbind res_bind]. destruct (IH (i + 1)) as [cs ->]. by eexists.
Qed.
End rules.

Section observability.
Context `{Unicode} `{URLs} `{PEMFiles}.

(** ** Observability *)

Definition prometheus_ok (o : ObservabilityConfig) : Prop :=
  o_PrometheusEnabled o = true ->
  o_PrometheusAddress o <> "" /\ 1 <= o_PrometheusPort o <= 65535 /\ HasPrefix (o_PrometheusPath o) "/" = true /\
  (o_PrometheusHTTPAuthBasic o <> "" ->
    exists user password, Cut (o_PrometheusHTTPAuthBasic o) ":"%char = Some (user, password) /\ user <> "" /\ password <> "") /\
  (p_Enabled (o_PrometheusTLS o) = true ->
    p_Cert (o_PrometheusTLS o) <> "" /\ p_Key (o_PrometheusTLS o) <> "" /\
    is_ok (ResolveTLSMinVersion (p_MinVersion (o_PrometheusTLS o))) = true).
Definition otel_ok (o : ObservabilityConfig) : Prop :=
  SFltb (defaultedOTelSampleRatio o) compare.f0 = false /\ SFltb compare.f1 (defaultedOTelSampleRatio o) = false /\
  (o_OTelEnabled o = true ->
    (o_OTelTracesEnabled o = true \/ o_OTelMetricsEnabled o = true) /\ o_OTLPEndpoint o <> "").
Record obs_ok (o : ObservabilityConfig) : Prop := {
  oo_trimmed : Forall trimmed [o_PrometheusAddress o; o_PrometheusPath o; o_PrometheusHTTPAuthBasic o;
    p_Cert (o_PrometheusTLS o); p_Key (o_PrometheusTLS o); p_MinVersion (o_PrometheusTLS o); o_OTelServiceName o;
    o_OTelServiceVersion o; o_OTLPEndpoint o];
  oo_prometheus : prometheus_ok o;
  oo_otel : otel_ok o;
  oo_header : o_TraceIDHeader o = "" \/ header_ok (o_TraceIDHeader o);
  oo_headers : o_OTLPHeaders o <> None
}.

Lemma SplitBasicAuthCredentials_ok c :
  is_ok (SplitBasicAuthCredentials c) = true <->
  exists user password, Cut c ":"%char = Some (user, password) /\ user <> "" /\ password <> "".
Proof.
  unfold SplitBasicAuthCredentials. destruct (Cut c ":"%char) as [[u p]|].
  - case_decide as E; cbn; split; try done.
    + intros (? & ? & [= <- <-] & ? & ?). tauto.
    + intros _. exists u, p. tauto.
  - cbn. split; [done|]. by intros (? & ? & ? & _).
Qed.
Lemma validatePrometheusTLS_ok t :
  validatePrometheusTLS t = None <->
  (p_Enabled t = true -> p_Cert t <> "" /\ p_Key t <> "" /\ is_ok (ResolveTLSMinVersion (p_MinVersion t)) = true).
Proof.
  unfold validatePrometheusTLS. destruct (p_Enabled t); [|done]. cbn [negb].
  case_decide as E.
  { split; [done|]. intros G. destruct (G eq_refl) as (? & ? & _). tauto. }
  destruct (ResolveTLSMinVersion _); cbn [is_ok]; split; try done; [tauto|]. intros G. by destruct (G eq_refl) as (_ & _ & ?).
Qed.
Lemma validatePrometheusConfig_ok o : validatePrometheusConfig o = None <-> prometheus_ok o.
Proof.
  unfold validatePrometheusConfig, prometheus_ok. destruct (o_PrometheusEnabled o); [|done]. cbn [negb].
  case_decide as Ea; [split; [done|]; intros G; by destruct (G eq_refl) as (? & _)|].
  destruct (Z.ltb_spec (o_PrometheusPort o) 1); cbn [orb];
    [split; [done|]; intros G; destruct (G eq_refl) as (_ & ? & _); lia|].
  destruct (Z.ltb_spec 65535 (o_PrometheusPort o)); [split; [done|]; intros G; destruct (G eq_refl) as (_ & ? & _); lia|].
  destruct (HasPrefix _ _); cbn [negb]; [|split; [done|]; intros G; by destruct (G eq_refl) as (_ & _ & ? & _)].
  rewrite logfields.orElse_None, validatePrometheusTLS_ok, <- SplitBasicAuthCredentials_ok.
  destruct (decide (o_PrometheusHTTPAuthBasic o = "")) as [Eb|Eb].
  { split; [intros [_ G] _; split_and!; try done; lia|]. intros G. destruct (G eq_refl) as (_ & _ & _ & _ & ?). done. }
  destruct (SplitBasicAuthCredentials _); cbn [is_ok]; split; try done.
  - intros [_ G] _. split_and!; try done; lia.
  - intros G. destruct (G eq_refl) as (_ & _ & _ & _ & ?). done.
  - by intros [? _].
  - intros G. destruct (G eq_refl) as (_ & _ & _ & G' & _). by specialize (G' Eb).
Qed.
Lemma validateOTelConfig_ok o : validateOTelConfig o = None <-> otel_ok o.
Proof.
  unfold validateOTelConfig, otel_ok. cbv zeta.
  destruct (SFltb (defaultedOTelSampleRatio o) compare.f0); cbn [orb]; [split; [done|by intros [? _]]|].
  destruct (SFltb compare.f1 _); [split; [done|by intros (_ & ? & _)]|].
  destruct (o_OTelEnabled o); cbn [negb]; [|done].
  destruct (o_OTelTracesEnabled o), (o_OTelMetricsEnabled o); cbn [andb negb];
    [| | |split; [done|]; intros (_ & _ & G); by destruct (G eq_refl) as ([|] & _)];
    case_decide as E; split; try done; try (intros (_ & _ & G); by destruct (G eq_refl) as (_ & ?)); intros _;
    split_and!; try done; intros _; split; try done; tauto.
Qed.

(** A ratio that is not a number passes the range check: both comparisons are
    false. *)
Lemma nan_sample_ratio_accepted o :
  o_OTelSampleRatio o = Some S754_nan -> o_OTelEnabled o = false -> validateOTelConfig o = None.
Proof. intros Hr He. unfold validateOTelConfig, defaultedOTelSampleRatio. by rewrite Hr, He. Qed.

Lemma validateTraceIDHeader_ok : normalizes validateTraceIDHeader (fun h => h = "" \/ header_ok h).
Proof.
  split.
  - intros x y. unfold validateTraceIDHeader. cbv zeta. case_decide as E; [intros [= <-]; by left|].
    case_bool_decide; [done|]. destruct (ValidHeaderFieldName _) eqn:Ev; [|done]. intros [= <-].
    right. split; [done|apply canonical_CanonicalHeaderKey].
  - intros y [->|[Hv Hc]]; [done|]. unfold validateTraceIDHeader. cbv zeta. rewrite Hc, Hv.
    assert (y <> "") by (by intros ->). rewrite decide_False, bool_decide_false by done. done.
Qed.

Lemma validateObservabilityConfig_ok : normalizes validateObservabilityConfig obs_ok.
Proof.
  split.
  - intros o y E. unfold validateObservabilityConfig in E. cbv zeta in E.
    apply res_bind_ok in E as ([] & E1%check_ok & E). apply res_bind_ok in E as ([] & E2%check_ok & E).
    apply res_bind_ok in E as (h & E3 & [= <-]). apply validatePrometheusConfig_ok in E1. apply validateOTelConfig_ok in E2.
    split; cbn.
    + repeat constructor; apply TrimSpace_idemp.
    + exact E1.
    + exact E2.
    + by eapply validateTraceIDHeader_ok.
    + by destruct (o_OTLPHeaders o).
  - intros o [Ht Hp Ho Hh Hm]. unfold validateObservabilityConfig. cbv zeta.
    assert (normalizeObservabilityConfig o = o) as ->.
    { unfold normalizeObservabilityConfig. rewrite !Forall_cons in Ht. destruct Ht as (T1 & T2 & T3 & T4 & T5 & T6 & T7 & T8 & T9 & _).
      assert (TrimSpace (o_TraceIDHeader o) = o_TraceIDHeader o) as ->.
      { destruct Hh as [->|[Hv _]]; [done|by apply valid_trimmed]. }
      rewrite T1, T2, T3, T4, T5, T6, T7, T8, T9. by destruct o as [????????? ? ? ? ? ? ? ? ?], o_PrometheusTLS0. }
    rewrite (proj2 (validatePrometheusConfig_ok o) Hp), (proj2 (validateOTelConfig_ok o) Ho). cbn [check mbind res_bind].
    rewrite (proj2 validateTraceIDHeader_ok _ Hh). cbn [mbind res_bind]. destruct o; cbn in *. by destruct o_OTLPHeaders0.
Qed.
End observability.

Section whole.
Context `{Regexp} `{Unicode} `{URLs} `{PEMFiles}.

(** ** The whole configuration *)

Record transport_ok (t : TransportConfig) : Prop := {
  to_times : 0 < t_DialTimeout t /\ 0 < t_TLSHandshakeTimeout t /\ 0 < t_ResponseHeaderTimeout t;
  to_conns : 0 < t_MaxIdleConns t /\ 0 < t_MaxIdleConnsPerHost t /\ 0 <= t_MaxConnsPerHost t;
  to_protocol : t_Protocol t ∈ [upstreamHTTPProtocolAuto; upstreamHTTPProtocolHTTP1; upstreamHTTPProtocolHTTP2]
}.
Definition shadow_ok (s : ShadowConfig) : Prop :=
  0 <= s_SamplePercent s <= 100 /\ (SFltb compare.f0 (s_RPS s) = true -> 1 <= s_Burst s).
Definition compare_ok (c : CompareConfig) : Prop :=
  m_Mode c ∈ [compareModeHeader; compareModeJSON; compareModeHTML] /\
  SFltb (m_HTMLSimilarityThreshold c) compare.f0 = false /\ SFltb compare.f1 (m_HTMLSimilarityThreshold c) = false.
Definition runtime_ok (r : RuntimeConfig) : Prop :=
  trimmed (r_RunAsUser r) /\ trimmed (r_RunAsGroup r) /\ trimmed (r_ChrootDir r).

Lemma normalizeSelectionMode_sound m : selection_ok (normalizeSelectionMode m).
Proof.
  unfold normalizeSelectionMode, selection_ok. cbv zeta. case_decide as E; [|apply list_elem_of_here].
  case_decide; [apply list_elem_of_here|]. by apply elem_of_cons in E as [?|?].
Qed.
Lemma normalizeSelectionMode_id m : selection_ok m -> normalizeSelectionMode m = m.
Proof.
  intros Hm. destruct (proj1 (Forall_forall _ _) selection_words m Hm) as (Hn & Ht & Hl).
  unfold normalizeSelectionMode. rewrite Ht, Hl. rewrite decide_True by (by apply list_elem_of_further).
  by rewrite decide_False.
Qed.

Lemma normalizeShadowConfig_sound s : shadow_ok (normalizeShadowConfig s).
Proof.
  unfold shadow_ok, normalizeShadowConfig. cbn. split.
  - destruct (Z.ltb_spec (s_SamplePercent s) 0); [done|]. destruct (Z.ltb_spec 100 (s_SamplePercent s)); lia.
  - intros ->. destruct (Z.ltb_spec (s_Burst s) 1); cbn; lia.
Qed.
Lemma normalizeShadowConfig_id s : shadow_ok s -> normalizeShadowConfig s = s.
Proof.
  intros [Hp Hb]. unfold normalizeShadowConfig. cbv zeta.
  rewrite (proj2 (Z.ltb_ge (s_SamplePercent s) 0)) by lia. rewrite (proj2 (Z.ltb_ge 100 _)) by lia.
  destruct (SFltb _ _); [|rewrite andb_false_r; by destruct s].
  specialize (Hb eq_refl). rewrite (proj2 (Z.ltb_ge _ _)) by lia. by destruct s.
Qed.

Lemma normalizeHTTPTransportConfig_ok : normalizes normalizeHTTPTransportConfig transport_ok.
Proof.
  split.
  - intros t y E. apply res_bind_ok in E as (p & Ep & [= <-]).
    assert (G : forall v f, 0 < f -> 0 < positiveOr v f).
    { intros v f Hf. unfold positiveOr. destruct (Z.leb_spec v 0); lia. }
    split; cbn.
    + split_and!; apply G; done.
    + split_and!; [by apply G..|]. destruct (Z.ltb_spec (t_MaxConnsPerHost t) 0); lia.
    + apply oneOf_ok in Ep as [->|?]; [apply list_elem_of_here|done].
  - intros t [(T1 & T2 & T3) (T4 & T5 & T6) Hp]. unfold normalizeHTTPTransportConfig.
    rewrite oneOf_word; [|by apply (proj1 (Forall_forall _ _) (proj1 (proj2 http_words)))|done]. cbn [mbind res_bind].
    unfold positiveOr. rewrite !(proj2 (Z.leb_gt _ _)), (proj2 (Z.ltb_ge _ _)) by lia. by destruct t.
Qed.

Lemma clamp_bounds : SFltb compare.f0 compare.f0 = false /\ SFltb compare.f1 compare.f0 = false /\
  SFltb compare.f1 compare.f1 = false /\ SFltb compare.f0 compare.f1 = true.
Proof. by vm_compute. Qed.

Lemma normalizeCompareConfig_sound c : compare_ok (normalizeCompareConfig c).
Proof.
  destruct clamp_bounds as (B1 & B2 & B3 & B4). unfold compare_ok, normalizeCompareConfig. cbv zeta. cbn [m_Mode m_HTMLSimilarityThreshold].
  split. { case_decide; [by apply list_elem_of_further|apply list_elem_of_here]. }
  destruct (SFltb (m_HTMLSimilarityThreshold c) compare.f0) eqn:E0; [by rewrite B2|].
  destruct (SFltb compare.f1 (m_HTMLSimilarityThreshold c)) eqn:E1; [|done].
  split; [by vm_compute|by vm_compute].
Qed.
Lemma normalizeCompareConfig_id c : compare_ok c -> normalizeCompareConfig c = c.
Proof.
  intros (Hm & H0' & H1'). unfold normalizeCompareConfig. cbv zeta. rewrite H0', H1'.
  destruct (proj1 (Forall_forall _ _) (proj1 http_words) _ Hm) as (_ & -> & ->).
  destruct (decide _) as [_|E]; [by destruct c|]. apply elem_of_cons in Hm as [Hm|Hm]; [|done].
  destruct c; cbn in *. by subst.
Qed.

Lemma normalizeRuntimeConfig_ok r :
  runtime_ok (normalizeRuntimeConfig r) /\ (runtime_ok r -> normalizeRuntimeConfig r = r).
Proof.
  split; [split_and!; apply TrimSpace_idemp|]. intros (T1 & T2 & T3).
  unfold normalizeRuntimeConfig. rewrite T1, T2, T3. by destruct r.
Qed.

Lemma normalizeLogLevel_ok :
  normalizes normalizeLogLevel (.∈ ["debug"; "info"; "none"; "notice"; "warn"; "error"]).
Proof.
  split.
  - intros raw y E. apply res_bind_ok in E as (l & El & [= <-]). unfold logging.ParseLevel in El.
    set (v := ToLower (TrimSpace raw)) in *. cbv zeta in El.
    destruct (decide (v = "")) as [_|Hv]; [apply list_elem_of_further, list_elem_of_here|].
    rewrite !elem_of_cons, elem_of_nil.
    destruct (decide (v = "debug")); [tauto|].
    destruct (decide (v ∈ _)) as [Hi|_]. { rewrite !elem_of_cons, elem_of_nil in Hi. tauto. }
    destruct (decide (v = "notice")); [tauto|]. destruct (decide (v = "warn")); [tauto|].
    destruct (decide (v = "error")); [tauto|done].
  - intros y Hy. pose proof http_words as (_ & _ & _ & _ & Hw).
    destruct (proj1 (Forall_forall _ _) Hw y Hy) as (Hn & Ht & Hl). unfold normalizeLogLevel, logging.ParseLevel.
    rewrite Ht, Hl. rewrite decide_False by done.
    repeat (apply elem_of_cons in Hy as [->|Hy]; [done|]). by apply elem_of_nil in Hy.
Qed.

Lemma normalizeProtocol_ok : normalizes normalizeProtocol (.∈ [protocolHTTP; protocolMilter; protocolGRPC]).
Proof. apply oneOf_normalizes; [apply http_words|apply list_elem_of_here]. Qed.
Lemma validateBackendLists_ok p l : validateBackendLists p l = None <-> (p = protocolHTTP -> l <> []).
Proof.
  unfold validateBackendLists. case_decide as E; [tauto|]. case_decide as E2; [|tauto].
  split; [done|]. intros G. by destruct (G E).
Qed.
End whole.

Section accepted.
Context `{Regexp} `{Unicode} `{URLs} `{PEMFiles}.
Context (unq : string -> option string).

Record config_ok (cfg : Config) : Prop := {
  co_log_fields : logfields.validateLogFields unq (c_LogFields cfg) = None;
  co_level : c_LogLevel cfg ∈ ["debug"; "info"; "none"; "notice"; "warn"; "error"];
  co_protocol : c_Protocol cfg ∈ [protocolHTTP; protocolMilter; protocolGRPC];
  co_backends : c_Protocol cfg = protocolHTTP -> c_PrimaryBaseURLs cfg <> [];
  co_selection : selection_ok (c_PrimarySelectionMode cfg) /\ selection_ok (c_ShadowSelectionMode cfg);
  co_shadow : shadow_ok (c_Shadow cfg);
  co_grpc : c_Protocol cfg = protocolGRPC -> grpc_ok (c_GRPC cfg);
  co_transport : transport_ok (c_Transport cfg);
  co_compare : compare_ok (c_Compare cfg);
  co_runtime : runtime_ok (c_Runtime cfg);
  co_rules : path_rules_ok (c_PathRules cfg);
  co_observability : obs_ok (c_Observability cfg)
}.

(** The words whose case mapping Unicode decides: nothing else can change when
    an accepted configuration is validated again. *)
Definition settled (cfg : Config) : Prop :=
  Forall (fun r => uppercase (pr_Methods r)) (default [] (c_PathRules cfg)) /\
  (let method := oidc_AuthMethod (g_BackendOIDCAuth (c_GRPC cfg)) in
   oidc_Enabled (g_BackendOIDCAuth (c_GRPC cfg)) = false -> method <> "" /\ ToLower (TrimSpace method) = method).

Context (range : gmap string string -> list (string * string)) (Hrange : forall m, range m ≡ₚ map_to_list m).

Lemma validate_sound cfg cfg' : validate unq range cfg = Ok cfg' -> config_ok cfg'.
Proof.
  intros E. unfold validate in E.
  apply res_bind_ok in E as ([] & E1%check_ok & E). apply res_bind_ok in E as (level & E2 & E).
  apply res_bind_ok in E as (protocol & E3 & E). apply res_bind_ok in E as ([] & E4%check_ok & E).
  apply res_bind_ok in E as (grpc & E5 & E). apply res_bind_ok in E as (transport & E6 & E).
  apply res_bind_ok in E as (rules & E7 & E). apply res_bind_ok in E as (obs & E8 & [= <-]). split; cbn.
  - done.
  - by eapply normalizeLogLevel_ok.
  - by eapply normalizeProtocol_ok.
  - by apply validateBackendLists_ok.
  - split; apply normalizeSelectionMode_sound.
  - apply normalizeShadowConfig_sound.
  - intros Hp. unfold normalizeGRPCConfig in E5. rewrite decide_False in E5 by (intros G; by apply G).
    by eapply (normalizeGRPC_sound range Hrange).
  - by eapply normalizeHTTPTransportConfig_ok.
  - apply normalizeCompareConfig_sound.
  - apply normalizeRuntimeConfig_ok.
  - by eapply (validatePathRules_sound range Hrange).
  - by eapply validateObservabilityConfig_ok.
Qed.

Lemma validate_id cfg : config_ok cfg -> settled cfg -> validate unq range cfg = Ok cfg.
Proof.
  intros [C1 C2 C3 C4 [C5 C5'] C6 C7 C8 C9 C10 C11 C12] [S1 S2]. unfold validate.
  rewrite C1. cbn [check mbind res_bind]. rewrite (proj2 normalizeLogLevel_ok _ C2). cbn [mbind res_bind].
  rewrite (proj2 normalizeProtocol_ok _ C3). cbn [mbind res_bind].
  rewrite (proj2 (validateBackendLists_ok _ _) C4). cbn [check mbind res_bind].
  assert (normalizeGRPCConfig range (c_Protocol cfg) (c_GRPC cfg) = Ok (c_GRPC cfg)) as ->.
  { unfold normalizeGRPCConfig. case_decide as Ep; [done|]. apply (normalizeGRPC_id range Hrange); [by apply C7|done]. }
  cbn [mbind res_bind]. rewrite (proj2 normalizeHTTPTransportConfig_ok _ C8). cbn [mbind res_bind].
  rewrite (validatePathRules_id range Hrange _ C11 S1). cbn [mbind res_bind].
  rewrite (proj2 validateObservabilityConfig_ok _ C12). cbn [mbind res_bind].
  rewrite !normalizeSelectionMode_id, normalizeShadowConfig_id, normalizeCompareConfig_id by done.
  rewrite (proj2 (normalizeRuntimeConfig_ok _) C10). by destruct cfg.
Qed.


(** Rules the resolver accepts, with headers under the keys they show. *)
Definition usable_path_rules (cfg : Config) : Prop :=
  exists rules r,
    c_PathRules cfg = Some rules /\ pathrules.NewResolver rules = Ok r /\
    forall rule, rule ∈ rules ->
      (forall name, name ∈ default [] (pr_CompareHeaders rule) -> ValidHeaderFieldName name = true /\ canonical name) /\
      (forall m name value h, pr_PrimaryRequestHeaders rule = Some m \/ pr_ShadowRequestHeaders rule = Some m ->
        m !! name = Some value -> HeaderSet h name value !! name = Some [value]).

(** An accepted HTTP configuration is one the proxy can run with: the
    resolver of the path rules accepts its rules — every pattern compiles — and
    every header a rule adds or compares has a valid name in canonical form, so
    it is read and written under the key the configuration shows. *)
Theorem accepted_path_rules_usable cfg cfg' : validate unq range cfg = Ok cfg' -> usable_path_rules cfg'.
Proof.
  intros E. apply validate_sound in E as [_ _ _ _ _ _ _ _ _ _ Hr _].
  unfold usable_path_rules. unfold path_rules_ok in Hr. destruct (c_PathRules cfg') as [rules|]; [|done].
  destruct (path_rules_compile 0 rules Hr) as [cs Hcs]. exists rules, (Some cs). split_and!; [done| |].
  { unfold pathrules.NewResolver. by rewrite Hcs. }
  intros rule Hin. rewrite Forall_forall in Hr. destruct (Hr _ Hin) as [_ _ _ _ _ _ Hh [Hm1 Hm2]]. split.
  - intros name Hn. destruct (pr_CompareHeaders rule) as [l|]; [|by apply elem_of_nil in Hn].
    by apply (proj1 (Forall_forall _ _) Hh).
  - intros m name value h Hm Hl. assert (canonical name) as Hc.
    { destruct Hm as [Hm|Hm]; rewrite Hm in *; [by apply (Hm1 name value)|by apply (Hm2 name value)]. }
    unfold HeaderSet. rewrite Hc. apply lookup_insert_eq.
Qed.

(** ** Defaults *)

Definition defaults : gmap string defaultValue := list_to_map setDefaults.

Lemma defaults_distinct : NoDup setDefaults.*1.
Proof. apply (bool_decide_unpack _). by vm_compute. Qed.

Lemma parseURL_default s u :
  TrimSpace s = s -> url_Parse s = Some u -> u_Scheme u <> "" -> u_Host u <> "" -> parseURL s = Ok u.
Proof. intros Hs Hu Hu1 Hu2. unfold parseURL. rewrite Hs, Hu, decide_False by tauto. done. Qed.

(** The defaults are consistent: no key is set twice, the values decode as
    long as the two default base URLs parse, and [validate] accepts the decoded
    configuration and changes nothing in it but the spelling of the trace-id
    header, which becomes canonical ([X-Trace-Id]). *)
Theorem defaults_accepted u v :
  url_Parse "https://127.0.0.1:9001" = Some u -> u_Scheme u <> "" -> u_Host u <> "" ->
  url_Parse "https://127.0.0.1:9002" = Some v -> u_Scheme v <> "" -> u_Host v <> "" ->
  NoDup setDefaults.*1 /\
  exists cfg cfg', decode defaults = Ok cfg /\
    decode (<["observability.trace_id_header" := DString "X-Trace-Id"]> defaults) = Ok cfg' /\
    validate unq range cfg = Ok cfg' /\ validate unq range cfg' = Ok cfg'.
Proof.
  intros Hu Hu1 Hu2 Hv Hv1 Hv2. split; [apply defaults_distinct|].
  pose proof (parseURL_default _ u eq_refl Hu Hu1 Hu2) as Eu.
  pose proof (parseURL_default _ v eq_refl Hv Hv1 Hv2) as Ev.
  eexists _, _. split; [|split; [|split]].
  1, 2: unfold decode;
    match goal with |- context [strs ?d "primary_base_urls"] =>
      change (default [] (strs d "primary_base_urls")) with ["https://127.0.0.1:9001"];
      change (default [] (strs d "shadow_base_urls")) with ["https://127.0.0.1:9002"] end;
    cbn [res_map]; rewrite Eu, Ev; cbn [mbind res_bind mret res_ret]; reflexivity.
  all: by vm_compute.
Qed.
End accepted.

(** ** Witnesses *)

Definition baseURL (host : string) : parsedURL :=
  {| u_Scheme := "https"; u_Host := host; u_hasUser := false; u_Fragment := ""; u_RawQuery := "" |}.
Definition exampleURLs : URLs := {| url_Parse := fun s =>
  if HasPrefix s "https://" then Some (baseURL (TrimPrefix s "https://")) else None |}.

Lemma defaults_accepted_witness :
  exists cfg cfg', @decode exampleURLs defaults = Ok cfg /\
    @validate literalRegexp asciiUnicode exampleURLs noFiles (fun _ => None) map_to_list cfg = Ok cfg'.
Proof.
  destruct (@defaults_accepted literalRegexp asciiUnicode exampleURLs noFiles (fun _ => None) map_to_list
    (baseURL "127.0.0.1:9001") (baseURL "127.0.0.1:9002") eq_refl ltac:(discriminate) ltac:(discriminate)
    eq_refl ltac:(discriminate) ltac:(discriminate)) as [_ (cfg & cfg' & Hd & _ & Hv & _)].
  exists cfg, cfg'. exact (conj Hd Hv).
Defined.

(** An HTTP configuration with one path rule. *)
Definition ruleConfig (cfg : Config) : Config := {|
  c_Protocol := "HTTP"; c_PrimaryBaseURLs := c_PrimaryBaseURLs cfg; c_PrimarySelectionMode := "";
  c_ShadowBaseURLs := []; c_ShadowSelectionMode := ""; c_Shadow := c_Shadow cfg; c_Transport := c_Transport cfg;
  c_GRPC := c_GRPC cfg; c_Compare := c_Compare cfg; c_Runtime := c_Runtime cfg;
  c_PathRules := Some [{| pr_Name := ""; pr_Methods := Some ["get "]; pr_Match := "^/api"; pr_Shadow := "Never";
    pr_Compare := ""; pr_CompareMode := ""; pr_CompareHeaders := Some ["x-session-id"];
    pr_PrimaryRequestHeaders := Some {[ "x-tenant" := "t1" ]}; pr_ShadowRequestHeaders := None |}];
  c_LogLevel := ""; c_LogFields := c_LogFields cfg; c_Observability := c_Observability cfg; c_Plain := c_Plain cfg |}.
Definition exampleValidate (r : res Config) : res Config :=
  cfg ← r; @validate literalRegexp asciiUnicode exampleURLs noFiles (fun _ => None) map_to_list (ruleConfig cfg).


Lemma accepted_path_rules_usable_witness :
  match exampleValidate (@decode exampleURLs defaults) with
  | Ok cfg' => @usable_path_rules literalRegexp asciiUnicode cfg'
  | Err _ => False
  end.
Proof.
  destruct (exampleValidate (@decode exampleURLs defaults)) as [c|e] eqn:E.
  - apply res_bind_ok in E as (cfg & _ & E).
    exact (@accepted_path_rules_usable literalRegexp asciiUnicode exampleURLs noFiles (fun _ => None) map_to_list
      example_order (ruleConfig cfg) c E).
  - vm_compute in E. discriminate E.
Defined.
End configspec.
