(* ===== verification/RuntimeSecurity.v ===== *)
(** * [internal/app/runtime_security_unix.go]: chroot and dropping privileges

    The system calls are a trace; [OS] says how each call is answered, given
    the calls before it.  The user database, [filepath.Abs] and the environment
    are read only. *)
From S2P Require Export Config.

Module runtimesecurity.
Import config.

Definition runtimeSecurityAppliedEnv : string := "DOPPELGAENGER_RUNTIME_SECURITY_APPLIED".

Inductive call :=
  | Setgroups (groups : list Z)
  | Setgid (gid : Z)
  | Setuid (uid : Z)
  | Chroot (root : string)
  | Chdir (dir : string)
  | Stat (file : string)
  | Setenv (key value : string).

#[export] Instance call_eq_dec : EqDecision call.
Proof. solve_decision. Defined.

(** A [user.User]: its name, UID text and [GroupIds]. *)
Record osUser := { u_Username : string; u_Uid : string; u_GroupIds : res (list string) }.

Class OS := {
  answer : list call -> call -> option error;
  user_LookupId : string -> res osUser;
  user_Lookup : string -> res osUser;
  user_LookupGroup : string -> res string;     (* the GID text *)
  filepath_Abs : string -> res string;
  os_Getenv : string -> string
}.

(** ** Computations that make system calls *)

Abbreviation eff := (stres (list call)).

Section security.
Context `{Unicode} `{OS}.

(** A system call; its failure is reported through [wrap]. *)
Definition sys (wrap : error -> error) (c : call) : eff unit := fun t =>
  (match answer t c with None => Ok tt | Some e => Err (wrap e) end, (t ++ [c])%list).

(** ** Identities *)

Definition atoiError (s : string) : error :=
  errors_New ("strconv.Atoi: parsing " +:+ Quote s +:+ ": invalid syntax").
Definition atoi (s : string) : res Z := match Atoi s with Some n => Ok n | None => Err (atoiError s) end.

Definition resolveUserID (value : string) : res (Z * option osUser) :=
  match Atoi value with
  | Some numeric =>
      match user_LookupId (Itoa numeric) with
      | Err _ => Ok (numeric, None)
      | Ok u => Ok (numeric, Some u)
      end
  | None =>
      u ← res_wrap (grpcconfig.wrapped ("resolve run_as_user " +:+ Quote value)) (user_Lookup value);
      numeric ← res_wrap (grpcconfig.wrapped ("parse uid " +:+ Quote (u_Uid u) +:+ " for user " +:+ Quote value))
                  (atoi (u_Uid u));
      Ok (numeric, Some u)
  end.

(** The loop of [resolveUserSupplementaryGroups]: [seen] and [groups]. *)
Fixpoint uniqueGroups (username : string) (groups : list Z) (ids : list string) : res (list Z) :=
  match ids with
  | [] => Ok groups
  | groupID :: ids' =>
      numeric ← res_wrap (grpcconfig.wrapped ("parse supplementary group id " +:+ Quote groupID +:+
                                               " for user " +:+ Quote username)) (atoi groupID);
      if decide (numeric ∈ groups) then uniqueGroups username groups ids'
      else uniqueGroups username (groups ++ [numeric])%list ids'
  end.

(** [sort.Ints] *)
Definition sort_Ints (l : list Z) : list Z := merge_sort Z.le l.

Definition resolveUserSupplementaryGroups (u : option osUser) : res (list Z) :=
  match u with
  | None => Ok []
  | Some u =>
      ids ← res_wrap (grpcconfig.wrapped ("resolve supplementary groups for user " +:+ Quote (u_Username u)))
              (u_GroupIds u);
      groups ← uniqueGroups (u_Username u) [] ids;
      Ok (sort_Ints groups)
  end.

Definition resolveGroupID (value : string) : res Z :=
  match Atoi value with
  | Some numeric => Ok numeric
  | None =>
      gid ← res_wrap (grpcconfig.wrapped ("resolve group " +:+ Quote value)) (user_LookupGroup value);
      res_wrap (grpcconfig.wrapped ("parse gid " +:+ Quote gid +:+ " for group " +:+ Quote value)) (atoi gid)
  end.

Definition resolveIdentities (cfg : RuntimeConfig) : res (option Z * option Z * list Z) :=
  if decide (r_RunAsUser cfg <> "") then
    resolved ← resolveUserID (r_RunAsUser cfg);
    groups ← resolveUserSupplementaryGroups resolved.2;
    Ok (Some resolved.1, None, groups)
  else if decide (r_RunAsGroup cfg <> "") then
    gid ← resolveGroupID (r_RunAsGroup cfg);
    Ok (None, Some gid, [])
  else Ok (None, None, []).

(** ** The calls *)

Definition applyResolvedIdentities (uid gid : option Z) (groups : list Z) : eff unit :=
  _ ← (if decide (groups <> []) then sys (grpcconfig.wrapped "set supplementary groups") (Setgroups groups)
       else mret tt);
  _ ← (match gid with
       | Some g => sys (grpcconfig.wrapped ("setgid(" +:+ Itoa g +:+ ")")) (Setgid g)
       | None => mret tt end);
  match uid with
  | Some u => sys (grpcconfig.wrapped ("setuid(" +:+ Itoa u +:+ ")")) (Setuid u)
  | None => mret tt
  end.

Definition requiredFiles : list string := ["/etc/hosts"; "/etc/resolv.conf"; "/etc/nsswitch.conf"].
Definition missingFile (root file : string) (e : error) : error :=
  grpcconfig.wrapped ("chroot " +:+ Quote root +:+ " active, but required runtime file missing (" +:+ file +:+
    ": " +:+ TrimSpace (Error e) +:+ "). Ensure chroot contains /etc/hosts, /etc/resolv.conf and /etc/nsswitch.conf") e.
Fixpoint statFiles (root : string) (files : list string) : eff unit :=
  match files with
  | [] => mret tt
  | file :: files' => _ ← sys (missingFile root file) (Stat file); statFiles root files'
  end.

Definition applyChroot (root : string) : eff unit :=
  absRoot ← lift (res_wrap (grpcconfig.wrapped ("resolve chroot path " +:+ Quote root)) (filepath_Abs root));
  _ ← sys (grpcconfig.wrapped ("chroot " +:+ Quote absRoot +:+ " failed")) (Chroot absRoot);
  _ ← sys (grpcconfig.wrapped "chdir after chroot") (Chdir "/");
  statFiles absRoot requiredFiles.

Definition runtimeSecurityRequested (cfg : RuntimeConfig) : bool :=
  bool_decide (r_RunAsUser cfg <> "") || bool_decide (r_RunAsGroup cfg <> "") || bool_decide (r_ChrootDir cfg <> "").

Definition ApplyRuntimeSecurity (cfg : RuntimeConfig) : eff unit :=
  if negb (runtimeSecurityRequested cfg) then mret tt
  else if decide (os_Getenv runtimeSecurityAppliedEnv = "1") then mret tt
  else
    ids ← lift (resolveIdentities cfg);
    let '(uid, gid, groups) := ids in
    _ ← (if decide (r_ChrootDir cfg <> "") then applyChroot (r_ChrootDir cfg) else mret tt);
    _ ← applyResolvedIdentities uid gid groups;
    sys (grpcconfig.wrapped "set runtime security marker env") (Setenv runtimeSecurityAppliedEnv "1").

(** ** Specification: a plan of calls, in order, up to the first failure *)

(** The calls a configuration asks for. *)
Definition plan (root : option string) (uid gid : option Z) (groups : list Z) : list call :=
  (match root with Some r => Chroot r :: Chdir "/" :: (Stat <$> requiredFiles) | None => [] end) ++
  (if decide (groups <> []) then [Setgroups groups] else []) ++
  (match gid with Some g => [Setgid g] | None => [] end) ++
  (match uid with Some u => [Setuid u] | None => [] end) ++
  [Setenv runtimeSecurityAppliedEnv "1"].

(** [m] makes the calls [cs] one after the other and stops at the first that
    fails, with an error of its own. *)
Inductive follows : eff unit -> list call -> Prop := follows_intro m cs :
  (forall t, (m t = (Ok tt, (t ++ cs)%list) /\ (forall i c, cs !! i = Some c -> answer (t ++ take i cs) c = None)) \/
     exists i c e, cs !! i = Some c /\ answer (t ++ take i cs) c <> None /\
       (forall j d, (j < i)%nat -> cs !! j = Some d -> answer (t ++ take j cs) d = None) /\
       m t = (Err e, (t ++ take (S i) cs)%list)) -> follows m cs.

Lemma follows_ret : follows (mret tt) [].
Proof. constructor. intros t. left. rewrite app_nil_r. split; [done|]. by intros i c Hc; rewrite lookup_nil in Hc. Qed.

Lemma follows_sys wrap c : follows (sys wrap c) [c].
Proof.
  constructor. intros t. unfold sys. destruct (answer t c) as [e|] eqn:Ea.
  - right. exists 0%nat, c, (wrap e). cbn [take]. rewrite app_nil_r. split_and!; [done|by rewrite Ea|lia|done].
  - left. split; [done|]. intros [|i] d Hd; [|by destruct i]. injection Hd as <-. cbn [take]. by rewrite app_nil_r.
Qed.

Lemma follows_bind m1 m2 cs1 cs2 :
  follows m1 cs1 -> follows m2 cs2 -> follows (m1 ≫= fun _ => m2) (cs1 ++ cs2).
Proof.
  intros H1 H2. inversion H1 as [m cs G1]; subst. inversion H2 as [m' cs' G2]; subst. constructor. intros t.
  unfold mbind, stres_bind.
  destruct (G1 t) as [[E1 A1]|(i & c & e & Hc & Ha & Hb & E1)]; rewrite E1.
  - assert (Hpre : forall i d, (i < length cs1)%nat -> (cs1 ++ cs2) !! i = Some d ->
      answer (t ++ take i (cs1 ++ cs2)) d = None).
    { intros i d Hi Hd. rewrite lookup_app_l in Hd by done. rewrite take_app_le by lia. by apply A1. }
    destruct (G2 (t ++ cs1)%list) as [[E2 A2]|(i & c & e & Hc & Ha & Hb & E2)]; rewrite E2.
    + left. split; [by rewrite <- app_assoc|]. intros i d Hd.
      destruct (decide (i < length cs1)%nat) as [|Hi]; [by apply Hpre|].
      rewrite lookup_app_r in Hd by lia. rewrite take_app_ge, app_assoc by lia. by apply A2.
    + right. exists (length cs1 + i)%nat, c, e.
      assert (Ht : forall j, (t ++ take (length cs1 + j) (cs1 ++ cs2))%list = ((t ++ cs1) ++ take j cs2)%list).
      { intros j. rewrite take_app_ge by lia. rewrite Nat.add_comm, Nat.add_sub. by rewrite app_assoc. }
      split_and!.
      * rewrite lookup_app_r by lia. by rewrite Nat.add_comm, Nat.add_sub.
      * by rewrite Ht.
      * intros j d Hj Hd. destruct (decide (j < length cs1)%nat) as [|Hge]; [by apply Hpre|].
        rewrite lookup_app_r in Hd by lia. replace j with (length cs1 + (j - length cs1))%nat by lia.
        rewrite Ht. apply Hb; [lia|done].
      * f_equal. rewrite <- Ht. f_equal. f_equal. lia.
  - right. exists i, c, e. assert (Hi : (i < length cs1)%nat) by (by eapply lookup_lt_Some). split_and!.
    + by rewrite lookup_app_l.
    + by rewrite take_app_le by lia.
    + intros j d Hj Hd. rewrite lookup_app_l in Hd by lia. rewrite take_app_le by lia. by apply Hb.
    + by rewrite take_app_le by lia.
Qed.

Lemma follows_stat root files : follows (statFiles root files) (Stat <$> files).
Proof.
  induction files as [|f files IH]; [apply follows_ret|]. cbn [statFiles]. rewrite fmap_cons.
  apply (follows_bind _ _ [Stat f]); [apply follows_sys|done].
Qed.
Lemma follows_identities uid gid groups : follows (applyResolvedIdentities uid gid groups)
  ((if decide (groups <> []) then [Setgroups groups] else []) ++
   (match gid with Some g => [Setgid g] | None => [] end) ++ (match uid with Some u => [Setuid u] | None => [] end)).
Proof.
  unfold applyResolvedIdentities. apply follows_bind; [|apply follows_bind].
  - case_decide; [apply follows_sys|apply follows_ret].
  - destruct gid; [apply follows_sys|apply follows_ret].
  - destruct uid; [apply follows_sys|apply follows_ret].
Qed.
End security.

Section theorem.
Context `{Unicode} `{OS}.

Lemma uniqueGroups_NoDup username ids acc l :
  uniqueGroups username acc ids = Ok l -> NoDup acc -> NoDup l.
Proof.
  revert acc. induction ids as [|g ids IH]; intros acc; cbn [uniqueGroups]; [by intros [= <-]|].
  destruct (atoi g) as [n|]; [|done]. cbn [mbind res_bind res_wrap]. case_decide as Hn; [by apply IH|].
  intros E Hd. apply (IH _ E). apply NoDup_app. split_and!; [done| |apply NoDup_singleton].
  intros x Hx ->%list_elem_of_singleton. done.
Qed.

Lemma sort_Ints_sorted l : NoDup l -> StronglySorted Z.lt (sort_Ints l).
Proof.
  intros Hd. assert (Hs : StronglySorted Z.le (sort_Ints l)) by (apply StronglySorted_merge_sort; apply _).
  assert (Hd' : NoDup (sort_Ints l)) by (unfold sort_Ints; by rewrite merge_sort_Permutation).
  induction Hs as [|x k Hs IH Hx]; constructor; apply NoDup_cons in Hd' as [Hn Hd']; [by apply IH|].
  apply Forall_forall. intros y Hy. rewrite Forall_forall in Hx. specialize (Hx y Hy).
  assert (x <> y) by (by intros ->). lia.
Qed.

(** What identities are taken on. *)
Definition identities_ok (cfg : RuntimeConfig) (uid gid : option Z) (groups : list Z) : Prop :=
  (r_RunAsUser cfg <> "" -> is_Some uid /\ gid = None /\ StronglySorted Z.lt groups) /\
  (r_RunAsUser cfg = "" -> uid = None /\ groups = [] /\ (is_Some gid <-> r_RunAsGroup cfg <> "")).

Lemma resolveIdentities_ok cfg uid gid groups :
  resolveIdentities cfg = Ok (uid, gid, groups) -> identities_ok cfg uid gid groups.
Proof.
  unfold resolveIdentities, identities_ok. case_decide as Hu.
  - intros E. apply res_bind_ok in E as ([n u] & _ & E). apply res_bind_ok in E as (gs & Eg & [= <- <- <-]).
    split; [|done]. intros _. split_and!; [by eexists|done|]. unfold resolveUserSupplementaryGroups in Eg. cbn in Eg.
    destruct u as [u|]; [|injection Eg as <-; constructor].
    apply res_bind_ok in Eg as (ids & _ & Eg). apply res_bind_ok in Eg as (l & El & [= <-]).
    apply sort_Ints_sorted. by eapply uniqueGroups_NoDup; [exact El|constructor].
  - case_decide as Hg.
    + intros E. apply res_bind_ok in E as (g & _ & [= <- <- <-]). split; [by intros ?|]. intros _.
      split_and!; [done|done|]. split; [done|]. by intros _; eexists.
    + intros [= <- <- <-]. split; [by intros ?|]. intros _. split_and!; [done|done|]. split; [by intros [? ?]|done].
Qed.

(** The trace of a run that follows [cs] from the start. *)
Definition ran (cs : list call) (out : res unit * list call) : Prop :=
  (out = (Ok tt, cs) /\ forall i c, cs !! i = Some c -> answer (take i cs) c = None) \/
  exists i c e, cs !! i = Some c /\ answer (take i cs) c <> None /\
    (forall j d, (j < i)%nat -> cs !! j = Some d -> answer (take j cs) d = None) /\
    out = (Err e, take (S i) cs).
Lemma follows_ran m cs : follows m cs -> ran cs (m []).
Proof. intros Hf. inversion Hf as [m' cs' G]; subst. apply (G []). Qed.

Lemma apply_follows cfg root uid gid groups :
  (if decide (r_ChrootDir cfg <> "") then filepath_Abs (r_ChrootDir cfg) = Ok root else True) ->
  follows (_ ← (if decide (r_ChrootDir cfg <> "") then applyChroot (r_ChrootDir cfg) else mret tt);
           _ ← applyResolvedIdentities uid gid groups;
           sys (grpcconfig.wrapped "set runtime security marker env") (Setenv runtimeSecurityAppliedEnv "1"))
    (plan (if decide (r_ChrootDir cfg <> "") then Some root else None) uid gid groups).
Proof.
  intros Hroot. unfold plan. apply follows_bind.
  - destruct (decide _) as [Hc|Hc]; [|apply follows_ret]. unfold applyChroot. rewrite Hroot.
    change (follows (_ ← sys (grpcconfig.wrapped ("chroot " +:+ Quote root +:+ " failed")) (Chroot root);
      _ ← sys (grpcconfig.wrapped "chdir after chroot") (Chdir "/"); statFiles root requiredFiles)
      ([Chroot root] ++ [Chdir "/"] ++ (Stat <$> requiredFiles))).
    apply follows_bind; [apply follows_sys|]. apply follows_bind; [apply follows_sys|]. apply follows_stat.
  - rewrite !app_assoc. apply follows_bind; [|apply follows_sys]. rewrite <- app_assoc. apply follows_identities.
Qed.

(** C32. Privileges are dropped in the only safe order and never halfway unnoticed.
    When nothing is requested, or the marker says it was done before the last
    reload, no system call is made.  Otherwise identities are resolved first,
    while the user database is still reachable, and then exactly these calls are
    made in this order — chroot, chdir to the new root and the checks for the
    files the runtime needs; the supplementary groups; the group; the user,
    after which nothing else is privileged; the marker — up to the first one that
    fails, whose failure start-up reports; the call succeeds exactly when all of
    them did, so the marker is never set before every other call has succeeded.
    With [run_as_user] the primary group is left alone and the groups are
    distinct and sorted; [run_as_group] alone changes the group only. *)
Theorem ApplyRuntimeSecurity_spec cfg :
  let out := ApplyRuntimeSecurity cfg [] in
  if negb (runtimeSecurityRequested cfg) || bool_decide (os_Getenv runtimeSecurityAppliedEnv = "1")
  then out = (Ok tt, [])
  else match resolveIdentities cfg with
       | Err e => out = (Err e, [])
       | Ok (uid, gid, groups) =>
           identities_ok cfg uid gid groups /\
           if decide (r_ChrootDir cfg <> "") then
             match filepath_Abs (r_ChrootDir cfg) with
             | Err _ => is_ok out.1 = false /\ out.2 = []
             | Ok root => ran (plan (Some root) uid gid groups) out
             end
           else ran (plan None uid gid groups) out
       end.
Proof.
  cbv zeta. unfold ApplyRuntimeSecurity. destruct (negb _); [done|]. cbn [orb].
  destruct (decide (os_Getenv runtimeSecurityAppliedEnv = "1")) as [E|E];
    [by rewrite (bool_decide_true _ E)|rewrite (bool_decide_false _ E)].
  destruct (resolveIdentities cfg) as [[[uid gid] groups]|e] eqn:Ei; [|done].
  split; [by apply resolveIdentities_ok|].
  pose proof (fun root => apply_follows cfg root uid gid groups) as G.
  cbn [mbind stres_bind lift]. destruct (decide (r_ChrootDir cfg <> "")) as [Hc|Hc].
  - destruct (filepath_Abs (r_ChrootDir cfg)) as [root|e] eqn:Ea.
    + apply follows_ran. apply (G root eq_refl).
    + unfold applyChroot, mbind, stres_bind. cbn. by rewrite Ea.
  - apply follows_ran. apply (G "" I).
Qed.
End theorem.
End runtimesecurity.
