(* ===== verification/Activation.v ===== *)
(** * [internal/app/socket_activation.go]: listeners passed by systemd

    A listener is named by the descriptor it was made from.  The environment,
    the process id and what the descriptors turn out to be are parameters. *)
From S2P Require Export GoStrings GoStrconv GoNet.

Module activation.

Definition systemdListenFdsStart : Z := 3.

Record ActivatedListenerInfo := { Name : string; Listener : option Z }.

Class Descriptors := {
  os_Getenv : string -> string;
  os_Getpid : Z;
  prepareActivatedFD : Z -> option error;
  os_NewFile : Z -> bool;                     (* not nil *)
  net_FileListener : Z -> option error;
  listener_Addr : Z -> string
}.

Section activation.
Context `{Unicode} `{Descriptors}.

Definition atoi (s : string) : res Z :=
  match Atoi s with
  | Some n => Ok n
  | None => Err (errors_New ("strconv.Atoi: parsing " +:+ Quote s +:+ ": invalid syntax"))
  end.

(** The loop stops at the shorter of the two. *)
Definition parseFDNames (raw : string) (count : nat) : list string :=
  if decide (raw = "") then replicate count ""
  else
    let parts := TrimSpace <$> take count (Split raw ":") in
    (parts ++ replicate (count - length parts) "")%list.

(** One turn of the loop over the descriptors. *)
Definition activatedFD (fd : Z) (name : string) : res ActivatedListenerInfo :=
  match prepareActivatedFD fd with
  | Some err => Err (errors_Wrap ("prepare activated fd " +:+ Itoa fd +:+ ": " +:+ Error err) err)
  | None =>
      if negb (os_NewFile fd) then Err (errors_New ("failed to access activated fd " +:+ Itoa fd))
      else
        match net_FileListener fd with
        | Some err => Err (errors_Wrap ("fd " +:+ Itoa fd +:+ " is not a supported listener: " +:+ Error err) err)
        | None => Ok {| Name := name; Listener := Some fd |}
        end
  end.
Fixpoint activatedFDs (fd : Z) (names : list string) : res (list ActivatedListenerInfo) :=
  match names with
  | [] => Ok []
  | name :: names' => info ← activatedFD fd name; infos ← activatedFDs (fd + 1) names'; Ok (info :: infos)
  end.

(** A nil result is the empty list. *)
Definition ActivatedListeners : res (list ActivatedListenerInfo) :=
  let pidRaw := TrimSpace (os_Getenv "LISTEN_PID") in
  let fdsRaw := TrimSpace (os_Getenv "LISTEN_FDS") in
  if bool_decide (pidRaw = "") || bool_decide (fdsRaw = "") then Ok []
  else
    pid ← res_wrap (fun err => errors_Wrap ("invalid LISTEN_PID " +:+ Quote pidRaw +:+ ": " +:+ Error err) err) (atoi pidRaw);
    if decide (pid <> os_Getpid) then Ok []
    else
      fdCount ← res_wrap (fun err => errors_Wrap ("invalid LISTEN_FDS " +:+ Quote fdsRaw +:+ ": " +:+ Error err) err)
                  (atoi fdsRaw);
      if fdCount <=? 0 then Ok []
      else
        let names := parseFDNames (TrimSpace (os_Getenv "LISTEN_FDNAMES")) (Z.to_nat fdCount) in
        activatedFDs systemdListenFdsStart names.

Definition tcpPort (addr : string) : string :=
  let trimmed := TrimSpace addr in
  if decide (trimmed = "") then ""
  else
    let normalized := if HasPrefix trimmed ":" then "0.0.0.0" +:+ trimmed else trimmed in
    match SplitHostPort normalized with Ok (_, port) => port | Err _ => "" end.

(** The listeners closed. *)
Definition closeOthers (infos : list ActivatedListenerInfo) (keep : option Z) : list Z :=
  omap (fun info => match Listener info with
                    | None => None
                    | Some l => if decide (Some l = keep) then None else Some l
                    end) infos.

(** The result: the listener picked, and the listeners closed; [None] when a
    nil listener is asked for its address. *)
Definition Picked : Type := option (option Z * bool * list Z).

Fixpoint pickByName (all infos : list ActivatedListenerInfo) (preferredName : string) (next : Picked) : Picked :=
  match infos with
  | [] => next
  | info :: infos' =>
      if decide (Name info = preferredName) then Some (Listener info, true, closeOthers all (Listener info))
      else pickByName all infos' preferredName next
  end.
Fixpoint pickByPort (all infos : list ActivatedListenerInfo) (expectedPort : string) (next : Picked) : Picked :=
  match infos with
  | [] => next
  | info :: infos' =>
      match Listener info with
      | None => None
      | Some l =>
          if decide (tcpPort (listener_Addr l) = expectedPort) then Some (Some l, true, closeOthers all (Some l))
          else pickByPort all infos' expectedPort next
      end
  end.

Definition PickActivatedListener (infos : list ActivatedListenerInfo) (preferredName expectedAddr : string) : Picked :=
  match infos with
  | [] => Some (None, false, [])
  | first :: _ =>
      let chosen := Listener first in
      let rest := Some (chosen, true, closeOthers infos chosen) in
      let expectedPort := tcpPort expectedAddr in
      let byPort := if decide (expectedPort <> "") then pickByPort infos infos expectedPort rest else rest in
      if decide (preferredName <> "") then pickByName infos infos preferredName byPort else byPort
  end.

(** [resolveListener] of the three servers: the listener, if the sockets are
    activated, and the listeners closed. *)
Definition resolveListener (preferredName expectedAddr : string) : res Picked :=
  infos ← ActivatedListeners;
  match infos with
  | [] => Ok (Some (None, false, []))
  | _ => Ok (PickActivatedListener infos preferredName expectedAddr)
  end.

(** ** Specification *)

(** The listener to keep: by name, else by port, else the first. *)
Definition preferred (infos : list ActivatedListenerInfo) (preferredName expectedAddr : string)
    : option ActivatedListenerInfo :=
  let named := if decide (preferredName <> "") then snd <$> list_find (fun i => Name i = preferredName) infos else None in
  let port := tcpPort expectedAddr in
  let ported := if decide (port <> "")
    then snd <$> list_find (fun i => (tcpPort ∘ listener_Addr) <$> Listener i = Some port) infos else None in
  match named with Some i => Some i | None => match ported with Some i => Some i | None => head infos end end.

Lemma activatedFDs_ok fd names infos :
  activatedFDs fd names = Ok infos -> infos = imap (fun i name => {| Name := name; Listener := Some (fd + Z.of_nat i) |}) names.
Proof.
  revert fd infos. induction names as [|name names IH]; intros fd infos; cbn [activatedFDs]; [by intros [= <-]|].
  intros E. apply res_bind_ok in E as (info & Ei & E). apply res_bind_ok in E as (rest & Er & [= <-]).
  rewrite (IH _ _ Er). cbn [imap]. apply f_equal2.
  - unfold activatedFD in Ei. destruct (prepareActivatedFD fd); [done|]. destruct (os_NewFile fd); [|done]. cbn in Ei.
    destruct (net_FileListener fd); [done|]. injection Ei as <-. by rewrite Z.add_0_r.
  - apply imap_ext. intros i x _. cbn. by replace (fd + Z.of_nat (S i)) with (fd + 1 + Z.of_nat i) by lia.
Qed.

Lemma length_parseFDNames raw count : length (parseFDNames raw count) = count.
Proof.
  unfold parseFDNames. case_decide; [apply length_replicate|].
  rewrite length_app, length_replicate, length_fmap, length_take. lia.
Qed.

Lemma pickByName_spec all infos n next :
  pickByName all infos n next =
  match list_find (fun i => Name i = n) infos with
  | Some (_, i) => Some (Listener i, true, closeOthers all (Listener i))
  | None => next
  end.
Proof.
  induction infos as [|i infos IH]; [done|]. cbn [pickByName list_find]. destruct (decide (Name i = n)); [done|].
  rewrite IH. destruct (list_find _ infos) as [[? ?]|]; done.
Qed.
Lemma pickByPort_spec all infos p next :
  Forall (fun i => is_Some (Listener i)) infos ->
  pickByPort all infos p next =
  match list_find (fun i => (tcpPort ∘ listener_Addr) <$> Listener i = Some p) infos with
  | Some (_, i) => Some (Listener i, true, closeOthers all (Listener i))
  | None => next
  end.
Proof.
  induction 1 as [|i infos [l Hl] _ IH]; [done|]. cbn [pickByPort list_find]. rewrite Hl. cbn [fmap option_fmap option_map].
  destruct (decide (tcpPort (listener_Addr l) = p)) as [E|E].
  - rewrite decide_True by (cbn; by rewrite E). cbn. by rewrite Hl.
  - rewrite decide_False by (cbn; congruence). rewrite IH. destruct (list_find _ infos) as [[? ?]|]; done.
Qed.

Lemma PickActivatedListener_ok infos n a :
  Forall (fun i => is_Some (Listener i)) infos -> infos <> [] ->
  exists i, preferred infos n a = Some i /\
    PickActivatedListener infos n a = Some (Listener i, true, closeOthers infos (Listener i)).
Proof.
  intros Hl Hne. destruct infos as [|first rest]; [done|]. set (infos := first :: rest) in *.
  set (next := Some (Listener first, true, closeOthers infos (Listener first)) : Picked).
  assert (PickActivatedListener infos n a =
    (let byPort := if decide (tcpPort a <> "") then pickByPort infos infos (tcpPort a) next else next in
     if decide (n <> "") then pickByName infos infos n byPort else byPort)) as -> by reflexivity.
  unfold preferred. cbv zeta.
  rewrite pickByName_spec, pickByPort_spec by done.
  destruct (decide (n <> "")), (decide (tcpPort a <> ""));
    repeat (destruct (list_find _ infos) as [[? ?]|]; [by eexists|]); by eexists.
Qed.
End activation.

Section theorem.
Context `{Unicode} `{Descriptors}.

(** The listeners of [names], from the first descriptor on. *)
Definition activated (names : list string) : list ActivatedListenerInfo :=
  imap (fun i name => {| Name := name; Listener := Some (systemdListenFdsStart + Z.of_nat i) |}) names.

Lemma activated_listeners names : omap Listener (activated names) = seqZ systemdListenFdsStart (Z.of_nat (length names)).
Proof.
  unfold activated. generalize systemdListenFdsStart. induction names as [|name names IH]; intros fd; [done|].
  rewrite imap_cons. cbn [omap list_omap Listener length]. rewrite seqZ_cons by lia. apply f_equal2; [by rewrite Z.add_0_r|].
  replace (Z.pred (Z.of_nat (S (length names)))) with (Z.of_nat (length names)) by lia. rewrite <- (IH (Z.succ fd)).
  f_equal. apply imap_ext. intros i x _. cbn. by replace (fd + Z.of_nat (S i)) with (Z.succ fd + Z.of_nat i) by lia.
Qed.
Lemma closeOthers_filter infos l :
  closeOthers infos (Some l) = filter (fun k => k <> l) (omap Listener infos).
Proof.
  unfold closeOthers. induction infos as [|i infos IH]; [done|]. cbn [omap list_omap]. destruct (Listener i) as [k|]; [|done].
  destruct (decide (Some k = Some l)) as [[= ->]|Hk].
  - by rewrite filter_cons_False by (by intros []).
  - rewrite filter_cons_True by congruence. by rewrite IH.
Qed.

Lemma ActivatedListeners_ok infos :
  ActivatedListeners = Ok infos ->
  infos = [] \/ exists count,
    Atoi (TrimSpace (os_Getenv "LISTEN_PID")) = Some os_Getpid /\
    Atoi (TrimSpace (os_Getenv "LISTEN_FDS")) = Some count /\ 0 < count /\
    infos = activated (parseFDNames (TrimSpace (os_Getenv "LISTEN_FDNAMES")) (Z.to_nat count)).
Proof.
  unfold ActivatedListeners, atoi. cbv zeta. destruct (_ || _); [intros [= <-]; by left|].
  destruct (Atoi (TrimSpace (os_Getenv "LISTEN_PID"))) as [pid|]; [|done]. cbn [mbind res_bind res_wrap].
  case_decide as Hp; [intros [= <-]; by left|]. subst pid.
  destruct (Atoi (TrimSpace (os_Getenv "LISTEN_FDS"))) as [count|]; [|done]. cbn [mbind res_bind res_wrap].
  destruct (Z.leb_spec count 0); [intros [= <-]; by left|].
  intros E%activatedFDs_ok. right. exists count. done.
Qed.

Lemma preferred_member infos n a i : preferred infos n a = Some i -> i ∈ infos.
Proof.
  unfold preferred. intros G.
  assert (F : forall (P : ActivatedListenerInfo -> Prop) `{forall x, Decision (P x)} j,
    snd <$> list_find P infos = Some j -> j ∈ infos).
  { intros P HP j Hj. destruct (list_find P infos) as [[k x]|] eqn:E; [|done]. injection Hj as <-.
    apply list_find_Some in E as (E & _). by eapply list_elem_of_lookup_2. }
  destruct (if decide (n <> "") then _ else _) as [x|] eqn:E1.
  { injection G as <-. case_decide; [|done]. by eapply F. }
  destruct (if decide (tcpPort a <> "") then _ else _) as [x|] eqn:E2.
  { injection G as <-. case_decide; [|done]. by eapply F. }
  destruct infos; [done|]. injection G as <-. apply list_elem_of_here.
Qed.

Lemma resolveListener_picks preferredName expectedAddr picked :
  resolveListener preferredName expectedAddr = Ok picked ->
  picked = Some (None, false, []) \/
  exists count l name,
    Atoi (TrimSpace (os_Getenv "LISTEN_PID")) = Some os_Getpid /\
    Atoi (TrimSpace (os_Getenv "LISTEN_FDS")) = Some count /\ 0 < count /\
    preferred (activated (parseFDNames (TrimSpace (os_Getenv "LISTEN_FDNAMES")) (Z.to_nat count)))
      preferredName expectedAddr = Some {| Name := name; Listener := Some l |} /\
    l ∈ seqZ systemdListenFdsStart count /\
    picked = Some (Some l, true, filter (fun k => k <> l) (seqZ systemdListenFdsStart count)).
Proof.
  intros E. apply res_bind_ok in E as (infos & Ei & E). apply ActivatedListeners_ok in Ei as [->|(count & Hp & Hf & Hc & ->)].
  { left. congruence. }
  set (names := parseFDNames _ (Z.to_nat count)) in *.
  assert (Hn : length names = Z.to_nat count) by apply length_parseFDNames.
  destruct (PickActivatedListener_ok (activated names) preferredName expectedAddr) as (i & Hi & Hpick).
  { apply Forall_forall. intros x Hx. apply elem_of_lookup_imap in Hx as (j & y & -> & _). by eexists. }
  { destruct names; [cbn in Hn; lia|done]. }
  pose proof (preferred_member _ _ _ _ Hi) as Hin. pose proof Hin as Hin'.
  apply elem_of_lookup_imap in Hin as (j & y & -> & _). cbn [Listener] in *.
  right. exists count, (systemdListenFdsStart + Z.of_nat j), y. split_and!; [done..| |].
  - replace count with (Z.of_nat (length names)) by lia. rewrite <- activated_listeners.
    apply list_elem_of_omap. eexists. by split.
  - rewrite closeOthers_filter, activated_listeners in Hpick.
    replace (Z.of_nat (length names)) with count in Hpick by lia.
    destruct (activated names) eqn:Ea; [by apply elem_of_nil in Hin'|]. rewrite <- Ea in *. congruence.
Qed.

(** With socket activation a server ends up with one listener and no other
    descriptor stays open by mistake: unless the start fails, either the sockets
    were not passed to this process and nothing is taken or closed, or exactly
    [LISTEN_FDS] descriptors from 3 on were taken, the listener kept is the one
    named for the protocol, else the one on the configured port, else the first,
    and exactly the other descriptors are closed.  The choice never panics. *)
Theorem resolveListener_spec preferredName expectedAddr :
  match resolveListener preferredName expectedAddr with
  | Err _ => True
  | Ok picked =>
      picked = Some (None, false, []) \/
      exists count l name,
        Atoi (TrimSpace (os_Getenv "LISTEN_PID")) = Some os_Getpid /\
        Atoi (TrimSpace (os_Getenv "LISTEN_FDS")) = Some count /\ 0 < count /\
        preferred (activated (parseFDNames (TrimSpace (os_Getenv "LISTEN_FDNAMES")) (Z.to_nat count)))
          preferredName expectedAddr = Some {| Name := name; Listener := Some l |} /\
        l ∈ seqZ systemdListenFdsStart count /\
        picked = Some (Some l, true, filter (fun k => k <> l) (seqZ systemdListenFdsStart count))
  end.
Proof.
  pose proof (resolveListener_picks preferredName expectedAddr) as G.
  destruct (resolveListener preferredName expectedAddr); [by apply G|done].
Qed.
End theorem.
End activation.
