(* ===== verification/Lifecycle.v ===== *)
(** * Readiness and the three protocol servers

    [internal/health], and starting and stopping of [internal/server],
    [internal/milterproxy/server.go] and [internal/grpcproxy/server.go], in the
    order of the hooks of [main.go].  What a server does to the outside is a
    list of events; sockets and key files are parameters, logging is left out. *)
From S2P Require Export ConfigSpec Activation Targets.

(** ** [internal/health/health.go] *)
Module health.

Definition Path : string := "/healthz".
Definition statusOK : string := "ok".
Definition statusNotReady : string := "not_ready".

Record State := { protocol : string; ready : bool; shuttingDown : bool }.
Record Snapshot := { Status : string; Protocol : string; Ready : bool; ShuttingDown : bool }.

Definition New (protocol : string) : State := {| protocol := protocol; ready := false; shuttingDown := false |}.
Definition MarkReady (s : State) : State := {| protocol := protocol s; ready := true; shuttingDown := false |}.
Definition MarkNotReady (s : State) : State :=
  {| protocol := protocol s; ready := false; shuttingDown := shuttingDown s |}.
Definition MarkShuttingDown (s : State) : State := {| protocol := protocol s; ready := false; shuttingDown := true |}.

(** [None] is the nil pointer. *)
Definition snapshot (s : option State) : Snapshot :=
  match s with
  | None => {| Status := statusNotReady; Protocol := ""; Ready := false; ShuttingDown := false |}
  | Some s =>
      if ready s && negb (shuttingDown s)
      then {| Status := statusOK; Protocol := protocol s; Ready := true; ShuttingDown := false |}
      else {| Status := statusNotReady; Protocol := protocol s; Ready := false; ShuttingDown := shuttingDown s |}
  end.

(** A response: its status, the headers set and the body. *)
Inductive body := ErrorText (text : string) | JSONSnapshot (s : Snapshot) | NoBody.
Record response := { hr_Status : Z; hr_Header : header; hr_Body : body }.

Definition StatusOK : Z := 200.
Definition StatusMethodNotAllowed : Z := 405.
Definition StatusServiceUnavailable : Z := 503.

Definition Handler (s : option State) (method : string) : response :=
  if bool_decide (method <> "GET") && bool_decide (method <> "HEAD") then
    {| hr_Status := StatusMethodNotAllowed;
       hr_Header := HeaderSet (HeaderSet (HeaderSet ∅ "Allow" "GET, HEAD")
                      "Content-Type" "text/plain; charset=utf-8") "X-Content-Type-Options" "nosniff";
       hr_Body := ErrorText "Method Not Allowed" |}
  else
    let snap := snapshot s in
    {| hr_Status := if Ready snap then StatusOK else StatusServiceUnavailable;
       hr_Header := HeaderSet (HeaderSet ∅ "Content-Type" "application/json") "Cache-Control" "no-store";
       hr_Body := if decide (method = "HEAD") then NoBody else JSONSnapshot snap |}.
End health.

(** ** Servers *)
Module lifecycle.
Import callerauthconfig grpcconfig config activation.

Inductive served :=
  | ServeHTTP (l : Z) (tls : option (string * string))
  | ListenAndServeHTTP (addr : string) (tls : option (string * string))
  | ServeMilter (l : Z)
  | ServeGRPC (l : Z).

Inductive event :=
  | Opened (l : Z)          (* a listener the process holds *)
  | Closed (l : Z)
  | Served (s : served)     (* a goroutine serves it *)
  | GracefulStop
  | Stop
  | ClosePools
  | Shutdown.               (* [fx] is asked to stop the process *)

#[export] Instance served_eq_dec : EqDecision served.
Proof. solve_decision. Defined.
#[export] Instance event_eq_dec : EqDecision event.
Proof. solve_decision. Defined.

Record World := { w_health : health.State; w_events : list event }.

(** What the system answers, and the pools: [pools_Close] is the error of
    closing the connections of [TargetPools.Close] (Targets.v). *)
Class Sockets := {
  net_Listen : string -> res Z;
  tls_LoadX509KeyPair : string -> string -> option error;
  listener_Close : Z -> option error;
  pools_Close : option error
}.

Abbreviation act := (stres World).
Definition emit (es : list event) : act unit := fun w =>
  (Ok tt, {| w_health := w_health w; w_events := (w_events w ++ es)%list |}).
Definition mark (f : health.State -> health.State) : act unit := fun w =>
  (Ok tt, {| w_health := f (w_health w); w_events := w_events w |}).
Definition failIf (e : option error) : act unit := lift (check e).

Section servers.
Context `{Unicode} `{URLs} `{PEMFiles} `{Descriptors} `{Sockets}.

(** [resolveListener] of a server: the listener when the sockets are activated.
    A nil listener is never picked ([Activation.resolveListener_spec]). *)
Definition activatedListener (protocol addr : string) : act (option Z) :=
  picked ← lift (resolveListener protocol addr);
  match picked with
  | Some (Some l, true, closed) => _ ← emit (Opened <$> (l :: closed)); _ ← emit (Closed <$> closed); mret (Some l)
  | _ => mret None
  end.

Definition listen (addr : string) : act Z := l ← lift (net_Listen addr); _ ← emit [Opened l]; mret l.

(** *** [internal/server/server.go] *)

Definition protoHTTP11 : string := "HTTP/1.1".
Definition protoHTTP2TLS : string := "HTTP/2 via ALPN".

Definition resolveInboundMode (listenAddr tlsCertFile tlsKeyFile : string) : res (string * string * bool) :=
  if bool_decide (tlsCertFile = "") && bool_decide (tlsKeyFile = "") then
    Ok ("http://" +:+ listenAddr, protoHTTP11, false)
  else if bool_decide (tlsCertFile <> "") && bool_decide (tlsKeyFile <> "") then
    Ok ("https://" +:+ listenAddr, protoHTTP2TLS, true)
  else
    let missing := if decide (TrimSpace tlsCertFile = "") then "tls_cert_file" else "tls_key_file" in
    Err (errors_New ("incomplete TLS configuration: missing " +:+ missing)).

(** The listener, and its key pair when the activated socket serves TLS. *)
Definition resolveHTTPListener (p : PlainConfig) (useTLS : bool) : act (option (Z * option (string * string))) :=
  activated ← activatedListener protocolHTTP (f_ListenAddr p);
  match activated with
  | None => mret None
  | Some l =>
      if negb useTLS then mret (Some (l, None))
      else
        _ ← failIf (tls_LoadX509KeyPair (f_TLSCertFile p) (f_TLSKeyFile p));
        mret (Some (l, Some (f_TLSCertFile p, f_TLSKeyFile p)))
  end.

(** [listenAndServeHTTP]'s choice; without an activated socket the server binds
    its address in the goroutine. *)
Definition listenAndServeHTTP (listener : option (Z * option (string * string))) (useTLS : bool) (p : PlainConfig) : served :=
  match listener with
  | Some (l, tls) => ServeHTTP l tls
  | None => ListenAndServeHTTP (f_ListenAddr p)
              (if useTLS then Some (f_TLSCertFile p, f_TLSKeyFile p) else None)
  end.

Definition startServer (cfg : Config) : act unit :=
  if decide (c_Protocol cfg <> protocolHTTP) then mret tt
  else
    let p := c_Plain cfg in
    mode ← lift (resolveInboundMode (f_ListenAddr p) (f_TLSCertFile p) (f_TLSKeyFile p));
    let useTLS := mode.2 in
    listener ← resolveHTTPListener p useTLS;
    _ ← mark health.MarkReady;
    emit [Served (listenAndServeHTTP listener useTLS p)].

(** The goroutine of a server, once serving returned: [closed] are the errors
    of an orderly end.  Whether [fx] was asked to shut down. *)
Definition serveReturned (err : option error) (closed : list error) : act bool :=
  match err with
  | Some e =>
      if existsb (errors_Is e) closed then mret false
      else _ ← mark health.MarkNotReady; _ ← emit [Shutdown]; mret true
  | None => mret false
  end.
Definition http_ErrServerClosed : error := errors_New "http: Server closed".
Definition serveHTTP (err : option error) : act bool := serveReturned err [http_ErrServerClosed].

(** *** [internal/milterproxy/server.go] *)

Record MilterServer := { ms_Addr : string; ms_Handler : bool; ms_listener : option Z }.

Definition startMilterListener (srv : MilterServer) : act Z :=
  activated ← activatedListener protocolMilter (ms_Addr srv);
  match activated with None => listen (ms_Addr srv) | Some l => mret l end.

(** The server with its listener; [None] is the nil pointer. *)
Definition startMilterServer (cfg : Config) (srv : option MilterServer) : act (option MilterServer) :=
  if decide (c_Protocol cfg <> protocolMilter) then mret srv
  else
    match srv with
    | Some s =>
        if negb (ms_Handler s) then lift (Err (errors_New "milter server not configured"))
        else if decide (ms_Addr s = "") then lift (Err (errors_New "MILTER_LISTEN must be set for milter mode"))
        else
          l ← startMilterListener s;
          _ ← mark health.MarkReady;
          _ ← emit [Served (ServeMilter l)];
          mret (Some {| ms_Addr := ms_Addr s; ms_Handler := ms_Handler s; ms_listener := Some l |})
    | None => lift (Err (errors_New "milter server not configured"))
    end.

Definition stopMilterServer (srv : MilterServer) : act (option error) :=
  match ms_listener srv with None => mret None | Some l => _ ← emit [Closed l]; mret (listener_Close l) end.

(** The accept loop, given what [Accept] returns: the connections handed to
    handler goroutines and the error it ends with; [None] while it waits. *)
Fixpoint serve (listener : option Z) (accepts : list (res Z)) : list Z * option error :=
  match listener with
  | None => ([], Some net_ErrClosed)
  | Some _ =>
      match accepts with
      | [] => ([], None)
      | Ok conn :: accepts' => let '(handled, err) := serve listener accepts' in (conn :: handled, err)
      | Err e :: _ => ([], Some e)
      end
  end.
Definition serveMilterAsync (err : option error) : act bool := serveReturned err [net_ErrClosed].

(** *** [internal/grpcproxy/server.go] *)

Record tlsServer := { ts_Cert : string; ts_Key : string; ts_MinVersion : Z; ts_ClientCA : option string;
                      ts_RequireClientCert : bool }.
(** The options [grpc.NewServer] gets besides the raw codec and the handler. *)
Record grpcOptions := { go_MaxRecvMsgSize : option Z; go_MaxSendMsgSize : option Z; go_Creds : option tlsServer }.
Record GRPCServer := { gs_Addr : string; gs_Handler : bool; gs_callerHTTPError : option error;
                       gs_listener : option Z; gs_grpcServer : option grpcOptions; gs_Pools : bool }.

Definition appendSizeOptions (cfg : GRPCConfig) (creds : option tlsServer) : grpcOptions :=
  {| go_MaxRecvMsgSize := if 0 <? g_MaxReceiveMessageBytes cfg then Some (g_MaxReceiveMessageBytes cfg) else None;
     go_MaxSendMsgSize := if 0 <? g_MaxSendMessageBytes cfg then Some (g_MaxSendMessageBytes cfg) else None;
     go_Creds := creds |}.

(** The pool is named by its file. *)
Definition certificates (pemBytes : string) : option unit := if pem_HasCertificates pemBytes then Some tt else None.

Definition inboundCredentials (cfg : GRPCTLSConfig) : res (option tlsServer) :=
  if negb (tls_Enabled cfg) then Ok None
  else
    _ ← check (tls_LoadX509KeyPair (tls_Cert cfg) (tls_Key cfg));
    minVersion ← ResolveTLSMinVersion (tls_MinTLSVersion cfg);
    let result ca := Ok (Some {| ts_Cert := tls_Cert cfg; ts_Key := tls_Key cfg; ts_MinVersion := minVersion;
                                 ts_ClientCA := ca; ts_RequireClientCert := tls_RequireClientCert cfg |}) in
    if decide (tls_ClientCA cfg <> "") then
      _ ← targets.certPoolFromFile os_ReadFile certificates (tls_ClientCA cfg); result (Some (tls_ClientCA cfg))
    else result None.

Definition newGRPCServer (cfg : GRPCConfig) (callerHTTPError : option error) : res grpcOptions :=
  _ ← check (ValidateGRPCCallerAuth (g_CallerAuth cfg) (g_TLS cfg) (g_BackendOIDCAuth cfg));
  _ ← check callerHTTPError;
  creds ← inboundCredentials (g_TLS cfg);
  Ok (appendSizeOptions cfg creds).

Definition startListener (addr : string) : act Z :=
  activated ← activatedListener protocolGRPC addr;
  match activated with None => listen addr | Some l => mret l end.

Definition startGRPCServer (cfg : Config) (srv : option GRPCServer) : act (option GRPCServer) :=
  if decide (c_Protocol cfg <> protocolGRPC) then mret srv
  else
    match srv with
    | None => lift (Err (errors_New "grpc proxy server not configured"))
    | Some s =>
        if negb (gs_Handler s) then lift (Err (errors_New "grpc proxy server not configured"))
        else if decide (gs_Addr s = "") then lift (Err (errors_New "grpc_listen_addr must not be empty"))
        else
          l ← startListener (gs_Addr s);
          match newGRPCServer (c_GRPC cfg) (gs_callerHTTPError s) with
          | Err err => _ ← emit [Closed l]; lift (Err err)
          | Ok options =>
              _ ← mark health.MarkReady;
              _ ← emit [Served (ServeGRPC l)];
              mret (Some {| gs_Addr := gs_Addr s; gs_Handler := gs_Handler s;
                            gs_callerHTTPError := gs_callerHTTPError s; gs_listener := Some l;
                            gs_grpcServer := Some options; gs_Pools := gs_Pools s |})
          end
    end.

Definition grpc_ErrServerStopped : error := errors_New "grpc: the server has been stopped".
Definition serveGRPCAsync (err : option error) : act bool := serveReturned err [grpc_ErrServerStopped; net_ErrClosed].

(** [stopGRPCServer]: [ended] when the context of the stop hook ends before the
    graceful stop does. *)
Definition stopGRPCServer (ended : option error) : act (option error) :=
  _ ← emit [GracefulStop];
  match ended with None => mret None | Some e => _ ← emit [Stop]; mret (Some e) end.

(** [detachServerState] *)
Definition detached (srv : GRPCServer) : GRPCServer :=
  {| gs_Addr := gs_Addr srv; gs_Handler := gs_Handler srv; gs_callerHTTPError := gs_callerHTTPError srv;
     gs_listener := None; gs_grpcServer := None; gs_Pools := false |}.

(** The errors joined, and the server left. *)
Definition stopServer (ended : option error) (srv : option GRPCServer) : act (list error * option GRPCServer) :=
  match srv with
  | None => mret ([], None)
  | Some s =>
      stopErr ← (match gs_grpcServer s, gs_listener s with
                 | Some _, _ => stopGRPCServer ended
                 | None, Some l => _ ← emit [Closed l]; mret (listener_Close l)
                 | None, None => mret None
                 end : act (option error));
      poolErr ← (if gs_Pools s then _ ← emit [ClosePools]; mret pools_Close else mret None : act (option error));
      mret ((option_list stopErr ++ option_list poolErr)%list, Some (detached s))
  end.

(** *** [main.go]: the start hooks in the order they are registered *)

Definition startHooks (cfg : Config) (milter : option MilterServer) (grpc : option GRPCServer)
    : act (option MilterServer * option GRPCServer) :=
  _ ← startServer cfg;
  milter ← startMilterServer cfg milter;
  grpc ← startGRPCServer cfg grpc;
  mret (milter, grpc).

Definition newMilterServer (cfg : Config) : MilterServer :=
  {| ms_Addr := f_MilterListenAddr (c_Plain cfg); ms_Handler := true; ms_listener := None |}.
Definition newGRPCServerState (cfg : Config) (callerHTTPError : option error) : GRPCServer :=
  {| gs_Addr := g_ListenAddr (c_GRPC cfg); gs_Handler := true; gs_callerHTTPError := callerHTTPError;
     gs_listener := None; gs_grpcServer := None; gs_Pools := true |}.
End servers.

(** ** Specification *)

Definition servedEvents (es : list event) : list served := omap (fun e => match e with Served s => Some s | _ => None end) es.
(** The listeners still open. *)
Definition openListeners (es : list event) : list Z :=
  filter (fun l => Closed l ∉ es) (omap (fun e => match e with Opened l => Some l | _ => None end) es).
Definition servedProtocol (s : served) : string :=
  match s with
  | ServeHTTP _ _ | ListenAndServeHTTP _ _ => protocolHTTP
  | ServeMilter _ => protocolMilter
  | ServeGRPC _ => protocolGRPC
  end.
Definition servedListener (s : served) : option Z :=
  match s with ServeHTTP l _ | ServeMilter l | ServeGRPC l => Some l | ListenAndServeHTTP _ _ => None end.

Section lemmas.
Context `{Unicode} `{URLs} `{PEMFiles} `{Descriptors} `{Sockets}.

Definition quiet (es : list event) : Prop := servedEvents es = [].

Lemma activated_events l closed :
  l ∉ closed -> let es := ((Opened <$> l :: closed) ++ (Closed <$> closed))%list in quiet es /\ openListeners es = [l].
Proof.
  intros Hl es. split.
  - unfold quiet, servedEvents, es. rewrite omap_app.
    assert (G : forall k, omap (fun e => match e with Served s => Some s | _ => None end) (Opened <$> k) = []
                       /\ omap (fun e => match e with Served s => Some s | _ => None end) (Closed <$> k) = []).
    { intros k. induction k as [|x k [IH1 IH2]]; [done|]. by rewrite !fmap_cons. }
    by rewrite (proj1 (G _)), (proj2 (G _)).
  - unfold openListeners, es. rewrite omap_app.
    assert (G : forall k, omap (fun e => match e with Opened m => Some m | _ => None end) (Opened <$> k) = k
                       /\ omap (fun e => match e with Opened m => Some m | _ => None end) (Closed <$> k) = []).
    { intros k. induction k as [|x k [IH1 IH2]]; [done|]. rewrite !fmap_cons. cbn. by rewrite IH1, IH2. }
    rewrite (proj1 (G _)), (proj2 (G _)), app_nil_r.
    assert (Hm : forall k, Closed k ∈ ((Opened <$> l :: closed) ++ (Closed <$> closed))%list <-> k ∈ closed).
    { intros k. rewrite elem_of_app, !list_elem_of_fmap. split.
      - intros [(? & ? & _)|(x & [= ->] & ?)]; done.
      - intros Hk. right. by exists k. }
    rewrite filter_cons_True by (by rewrite Hm). f_equal.
    apply list_filter_none, Forall_forall. intros k Hk. rewrite Hm. tauto.
Qed.

(** The outcomes of asking for an activated listener. *)
Lemma activatedListener_run protocol addr w :
  (exists e, activatedListener protocol addr w = (Err e, w)) \/
  activatedListener protocol addr w = (Ok None, w) \/
  exists l closed, l ∉ closed /\ activatedListener protocol addr w =
    (Ok (Some l), {| w_health := w_health w;
                     w_events := (w_events w ++ (Opened <$> l :: closed) ++ (Closed <$> closed))%list |}).
Proof.
  unfold activatedListener, lift, mbind, stres_bind. destruct (resolveListener protocol addr) as [picked|e] eqn:E;
    [|left; by eexists].
  right. apply resolveListener_picks in E as [->|(count & l & name & _ & _ & _ & _ & _ & ->)]; [by left|].
  right. exists l, (filter (fun k => k <> l) (seqZ systemdListenFdsStart count)). split.
  - by intros [? _]%list_elem_of_filter.
  - unfold emit, mret, stres_ret. cbn. by rewrite <- app_assoc.
Qed.

(** A start hook on a fresh world: an error leaves the process unready with
    nothing served; otherwise the one thing served is by [P] and every other
    listener is closed again. *)
Definition starts {A} (P : string) (protocol : string) (out : res A * World) : Prop :=
  match out with
  | (Err _, w) => w_health w = health.New protocol /\ servedEvents (w_events w) = []
  | (Ok _, w) => w_health w = health.MarkReady (health.New protocol) /\
      exists s, servedEvents (w_events w) = [s] /\ servedProtocol s = P /\
                openListeners (w_events w) = option_list (servedListener s)
  end.
Definition freshWorld (protocol : string) : World := {| w_health := health.New protocol; w_events := [] |}.

Lemma openListeners_served es s : openListeners (es ++ [Served s]) = openListeners es.
Proof.
  unfold openListeners. rewrite omap_app, app_nil_r. apply list_filter_iff. intros l.
  rewrite elem_of_app, list_elem_of_singleton. split; [tauto|]. by intros Hn [?|?].
Qed.
Lemma servedEvents_app es s : quiet es -> servedEvents (es ++ [Served s]) = [s].
Proof. unfold quiet, servedEvents. intros Hq. by rewrite omap_app, Hq. Qed.

Lemma starts_served {A} (a : A) P p es s :
  quiet es -> servedProtocol s = P -> openListeners es = option_list (servedListener s) ->
  starts P p (Ok a, {| w_health := health.MarkReady (health.New p); w_events := (es ++ [Served s])%list |}).
Proof.
  intros Hq Hs Ho. unfold starts. cbn [w_events w_health]. split; [done|]. exists s. split_and!; [by apply servedEvents_app|done|].
  by rewrite openListeners_served.
Qed.

Lemma startServer_starts cfg : c_Protocol cfg = protocolHTTP -> forall p,
  starts protocolHTTP p (startServer cfg (freshWorld p)).
Proof.
  intros Hp p. unfold startServer. rewrite decide_False by (intros G; by apply G).
  unfold lift, mbind, stres_bind. destruct (resolveInboundMode _ _ _) as [[[addr proto] useTLS]|e]; [|done]. cbn [snd].
  unfold resolveHTTPListener, mbind, stres_bind.
  destruct (activatedListener_run protocolHTTP (f_ListenAddr (c_Plain cfg)) (freshWorld p)) as [[e ->]|[->|(l & closed & Hl & ->)]];
    [done|by apply (starts_served _ _ _ [])|].
  destruct (activated_events l closed Hl) as [Hq Ho]. cbn [freshWorld w_events w_health app].
  revert Hq Ho. generalize ((Opened <$> l :: closed) ++ (Closed <$> closed))%list as es. intros es Hq Ho.
  destruct useTLS; cbn [negb]; [|by apply starts_served].
  unfold failIf, lift, check. destruct (tls_LoadX509KeyPair _ _); [by split|by apply starts_served].
Qed.

(** Getting a listener for milter and gRPC. *)
Lemma obtains_listener protocol addr p (m : act Z) :
  m = (activated ← activatedListener protocol addr; match activated with None => listen addr | Some l => mret l end) ->
  (exists e, m (freshWorld p) = (Err e, freshWorld p)) \/
  exists l es, quiet es /\ openListeners es = [l] /\
    m (freshWorld p) = (Ok l, {| w_health := health.New p; w_events := es |}).
Proof.
  intros ->. unfold mbind, stres_bind.
  destruct (activatedListener_run protocol addr (freshWorld p)) as [[e ->]|[->|(l & closed & Hl & ->)]].
  - left. by eexists.
  - unfold listen, lift, mbind, stres_bind. destruct (net_Listen addr) as [l|e]; [|left; by eexists].
    right. exists l, [Opened l]. split_and!; [done| |done].
    unfold openListeners. cbn [omap list_omap]. rewrite filter_cons_True; [done|]. by intros ?%list_elem_of_singleton.
  - right. destruct (activated_events l closed Hl) as [Hq Ho].
    exists l, ((Opened <$> l :: closed) ++ (Closed <$> closed))%list. done.
Qed.

Lemma startMilterServer_starts cfg srv : c_Protocol cfg = protocolMilter -> forall p,
  starts protocolMilter p (startMilterServer cfg srv (freshWorld p)).
Proof.
  intros Hp p. unfold startMilterServer. rewrite decide_False by (intros G; by apply G).
  destruct srv as [s|]; [|done]. destruct (ms_Handler s); [|done]. cbn [negb].
  case_decide; [done|]. unfold mbind at 1, stres_bind at 1.
  destruct (obtains_listener protocolMilter (ms_Addr s) p (startMilterListener s) eq_refl)
    as [[e ->]|(l & es & Hq & Ho & ->)]; [done|]. by apply starts_served.
Qed.

Lemma startGRPCServer_starts cfg srv : c_Protocol cfg = protocolGRPC -> forall p,
  starts protocolGRPC p (startGRPCServer cfg srv (freshWorld p)).
Proof.
  intros Hp p. unfold startGRPCServer. rewrite decide_False by (intros G; by apply G).
  destruct srv as [s|]; [|done]. destruct (gs_Handler s); [|done]. cbn [negb].
  case_decide; [done|]. unfold mbind at 1, stres_bind at 1.
  destruct (obtains_listener protocolGRPC (gs_Addr s) p (startListener (gs_Addr s)) eq_refl)
    as [[e ->]|(l & es & Hq & Ho & ->)]; [done|].
  destruct (newGRPCServer _ _) as [opts|e]; [by apply starts_served|].
  split; [done|]. change (servedEvents (es ++ [Closed l]) = []). unfold quiet, servedEvents in *. by rewrite omap_app, Hq.
Qed.
End lemmas.

Section theorems.
Context `{Unicode} `{URLs} `{PEMFiles} `{Descriptors} `{Sockets}.

(** The start hooks of the other protocols do nothing. *)
Lemma startHooks_other cfg milter grpc w :
  (c_Protocol cfg <> protocolHTTP -> startServer cfg w = (Ok tt, w)) /\
  (c_Protocol cfg <> protocolMilter -> startMilterServer cfg milter w = (Ok milter, w)) /\
  (c_Protocol cfg <> protocolGRPC -> startGRPCServer cfg grpc w = (Ok grpc, w)).
Proof.
  split_and!; intros Hp; [unfold startServer|unfold startMilterServer|unfold startGRPCServer]; by rewrite decide_True.
Qed.

(** Start-up brings up one server: for a configured protocol the three start
    hooks together serve on exactly one listener, of that protocol, close every
    other socket systemd passed, and report ready only then; when a hook fails,
    nothing is served and the process was never ready. *)
Theorem startHooks_one_server cfg milter grpc protocol :
  c_Protocol cfg ∈ [protocolHTTP; protocolMilter; protocolGRPC] ->
  starts (c_Protocol cfg) protocol (startHooks cfg milter grpc (freshWorld protocol)).
Proof.
  intros Hp. unfold startHooks. destruct (startHooks_other cfg milter grpc (freshWorld protocol)) as (S1 & S2 & S3).
  assert (C : forall {A B} (m : act A) (k : A -> B) P, starts P protocol (m (freshWorld protocol)) ->
    starts P protocol ((x ← m; mret (k x)) (freshWorld protocol))).
  { intros A B m k P. unfold mbind, stres_bind. by destruct (m (freshWorld protocol)) as [[a|e] w]. }
  rewrite !elem_of_cons, elem_of_nil in Hp. destruct Hp as [Hp|[Hp|[Hp|[]]]]; rewrite Hp in *.
  - pose proof (startServer_starts cfg Hp protocol) as G. unfold mbind, stres_bind.
    destruct (startServer cfg (freshWorld protocol)) as [[[]|e] w]; [|done].
    destruct (startHooks_other cfg milter grpc w) as (_ & T2 & T3). rewrite T2, T3 by (by rewrite Hp). done.
  - pose proof (startMilterServer_starts cfg milter Hp protocol) as G. unfold mbind, stres_bind.
    rewrite S1 by done. destruct (startMilterServer cfg milter (freshWorld protocol)) as [[m'|e] w]; [|done].
    destruct (startHooks_other cfg m' grpc w) as (_ & _ & T3). rewrite T3 by (by rewrite Hp). done.
  - pose proof (startGRPCServer_starts cfg grpc Hp protocol) as G. unfold mbind, stres_bind.
    rewrite S1, S2 by done. by destruct (startGRPCServer cfg grpc (freshWorld protocol)) as [[g|e] w].
Qed.

(** Stopping twice closes and stops once: what is left after the first stop has
    nothing to stop, and the pools are closed after the server has stopped. *)
Lemma stopServer_once ended ended' s w :
  exists errs w', stopServer ended (Some s) w = (Ok (errs, Some (detached s)), w') /\
    stopServer ended' (Some (detached s)) w' = (Ok ([], Some (detached s)), w') /\
    (is_Some (gs_grpcServer s) -> gs_Pools s = true ->
     w_events w' = (w_events w ++ [GracefulStop] ++ (if ended then [Stop] else []) ++ [ClosePools])%list).
Proof.
  unfold stopServer, mbind, stres_bind, mret, stres_ret. cbn [gs_grpcServer gs_listener gs_Pools detached].
  destruct (gs_grpcServer s) as [o|], (gs_listener s) as [l|], ended as [e|], (gs_Pools s); cbn;
    eexists _, _; (split; [reflexivity|]); cbn; (split; [reflexivity|]);
    try (intros _ _; rewrite <- ?app_assoc; done); by intros [? ?].
Qed.

(** ** Readiness *)

Inductive marking := Ready_ | NotReady_ | ShuttingDown_.
#[export] Instance marking_eq_dec : EqDecision marking.
Proof. solve_decision. Defined.
Definition apply_mark (s : health.State) (m : marking) : health.State :=
  match m with
  | Ready_ => health.MarkReady s
  | NotReady_ => health.MarkNotReady s
  | ShuttingDown_ => health.MarkShuttingDown s
  end.

(** The health endpoint tells the truth about the last mark, and needs no
    backend: after any sequence of marks, GET and HEAD are answered 200 exactly
    when the last one was [MarkReady], else 503 — shutting down is reported once
    it was marked and not undone — every other method gets 405, and the JSON
    agrees with the status. *)
Theorem health_Handler_spec protocol marks method :
  let s := foldl apply_mark (health.New protocol) marks in
  let r := health.Handler (Some s) method in
  let is_ready := bool_decide (last marks = Some Ready_) in
  if decide (method = "GET" \/ method = "HEAD") then
    health.hr_Status r = (if is_ready then 200 else 503) /\
    health.hr_Body r = (if decide (method = "HEAD") then health.NoBody
      else health.JSONSnapshot {| health.Status := if is_ready then "ok" else "not_ready"; health.Protocol := protocol;
             health.Ready := is_ready; health.ShuttingDown := health.shuttingDown s |}) /\
    (last marks = Some ShuttingDown_ -> health.shuttingDown s = true)
  else health.hr_Status r = 405 /\ health.hr_Header r !! "Allow" = Some ["GET, HEAD"].
Proof.
  intros s r is_ready.
  assert (G : health.protocol s = protocol /\ health.ready s = is_ready /\
    (is_ready = true -> health.shuttingDown s = false) /\ (last marks = Some ShuttingDown_ -> health.shuttingDown s = true)).
  { unfold s, is_ready. induction marks as [|m marks _] using rev_ind; [done|].
    rewrite foldl_snoc, last_snoc. assert (health.protocol (foldl apply_mark (health.New protocol) marks) = protocol) as Hp.
    { clear. induction marks as [|m marks IH] using rev_ind; [done|]. rewrite foldl_snoc. by destruct m. }
    destruct m; cbn; rewrite Hp; split_and!; done. }
  destruct G as (G1 & G2 & G3 & G4). unfold r, health.Handler.
  destruct (decide (method = "GET")) as [->|H1'].
  { rewrite decide_True by (by left). cbn [bool_decide andb decide]. unfold health.snapshot. rewrite G1, G2.
    change (bool_decide ("GET" <> "GET")) with false. cbn [andb].
    destruct is_ready; [pose proof (G3 eq_refl) as E3; rewrite E3; rewrite E3 in G4|]; split_and!; done. }
  destruct (decide (method = "HEAD")) as [->|H2'].
  { rewrite decide_True by (by right). change (bool_decide ("HEAD" <> "HEAD")) with false. rewrite andb_false_r.
    unfold health.snapshot. rewrite G1, G2. destruct is_ready; [pose proof (G3 eq_refl) as E3; rewrite E3; rewrite E3 in G4|]; split_and!; done. }
  rewrite decide_False by tauto. rewrite !bool_decide_true by done. cbn [andb]. split; [done|]. by vm_compute.
Qed.
End theorems.

(** Without socket activation HTTP is ready before its address is bound: the
    listener is opened by the goroutine, after [MarkReady]. *)
Lemma http_ready_before_listening `{Unicode} `{Descriptors} `{Sockets} cfg p :
  c_Protocol cfg = protocolHTTP -> os_Getenv "LISTEN_PID" = "" ->
  f_TLSCertFile (c_Plain cfg) = "" -> f_TLSKeyFile (c_Plain cfg) = "" ->
  startServer cfg (freshWorld p) =
    (Ok tt, {| w_health := health.MarkReady (health.New p);
               w_events := [Served (ListenAndServeHTTP (f_ListenAddr (c_Plain cfg)) None)] |}).
Proof.
  intros Hp Hpid Hc Hk. unfold startServer. rewrite decide_False by (intros G; by apply G). rewrite Hc, Hk.
  unfold resolveHTTPListener, activatedListener, resolveListener, ActivatedListeners. by rewrite Hpid.
Qed.

(** ** Witness *)

Definition exampleDescriptors : Descriptors := {|
  os_Getenv k := if decide (k = "LISTEN_PID") then "7" else if decide (k = "LISTEN_FDS") then "2"
                 else if decide (k = "LISTEN_FDNAMES") then "metrics:http" else "";
  os_Getpid := 7; prepareActivatedFD _ := None; os_NewFile _ := true; net_FileListener _ := None;
  listener_Addr _ := "0.0.0.0:80"
|}.
Definition exampleSockets : Sockets := {|
  net_Listen _ := Ok 9; tls_LoadX509KeyPair _ _ := None;
  listener_Close _ := None; pools_Close := None
|}.

Lemma startHooks_one_server_witness :
  match @decode configspec.exampleURLs configspec.defaults with
  | Ok cfg => @starts (option MilterServer * option GRPCServer) protocolHTTP "http"
      (@startHooks asciiUnicode configspec.exampleURLs grpcconfigspec.noFiles exampleDescriptors exampleSockets cfg None None (freshWorld "http"))
  | Err _ => False
  end.
Proof.
  assert (match @decode configspec.exampleURLs configspec.defaults with
          | Ok cfg => c_Protocol cfg = protocolHTTP | Err _ => False end) as Hp by (by vm_compute).
  destruct (@decode configspec.exampleURLs configspec.defaults) as [cfg|e]; [|exact Hp].
  rewrite <- Hp. apply (@startHooks_one_server asciiUnicode configspec.exampleURLs grpcconfigspec.noFiles exampleDescriptors exampleSockets).
  rewrite Hp. apply list_elem_of_here.
Defined.
End lifecycle.
