(* ===== verification/Telemetry.v ===== *)
(** * [internal/observability/observability.go]: metrics, trace ids and the endpoint

    The collectors are maps from label values to counts and durations, the
    OpenTelemetry instruments maps from attributes.  Exporters and the
    W3C propagator are parameters or left out (Tracing.v has spans and the
    propagator); the listener and TLS of the
    metrics endpoint are events as in Lifecycle.v. *)
From S2P Require Export Observability GoSha256 GrpcMetadata Lifecycle.

Module telemetry.
Import callerauthconfig grpcconfig config lifecycle grpcmetadata.

Definition defaultPrometheusAddress : string := "127.0.0.1".
Definition defaultPrometheusPort : Z := 9464.
Definition defaultPrometheusPath : string := "/metrics".
Definition defaultOTelServiceName : string := "doppelgaenger".
Definition defaultOTelSampleRatio : SpecFloat.spec_float := compare.f1.
Definition defaultTraceIDHeader : string := "X-Trace-ID".

(** ** Collectors *)

(** A vector of counters or histograms with its label names. *)
Record CounterVec := { cv_labels : list string; cv_values : gmap (list string) Z }.
Record HistogramVec := { hv_labels : list string; hv_values : gmap (list string) (list Z) }.

Record prometheusMetrics := {
  ingressRequests : CounterVec;
  ingressDuration : HistogramVec;
  backendRequests : CounterVec;
  backendDuration : HistogramVec;
  comparisons : CounterVec;
  observabilityStarts : CounterVec;
  observabilityStops : CounterVec;
  callerIntrospections : CounterVec;
  callerFlights : Z
}.

(** Instruments by the attributes in the order given, which is the same for every
    call on an instrument. *)
Abbreviation attributes := (list (string * string)).
Record otelMetricInstruments := {
  oi_ingressRequests : gmap attributes Z;
  oi_ingressDuration : gmap attributes (list Z);
  oi_backendRequests : gmap attributes Z;
  oi_backendDuration : gmap attributes (list Z);
  oi_comparisons : gmap attributes Z;
  oi_callerIntrospections : gmap attributes Z;
  oi_callerFlights : Z
}.

(** [ob_registry] comes with the metrics; [ob_tracing] is a tracer provider. *)
Record Observability := {
  ob_config : ObservabilityConfig;
  ob_metrics : option prometheusMetrics;
  ob_otel : option otelMetricInstruments;
  ob_tracing : bool
}.

Definition newCounterVec (labels : list string) : CounterVec := {| cv_labels := labels; cv_values := ∅ |}.
Definition newDurationVec (labels : list string) : HistogramVec := {| hv_labels := labels; hv_values := ∅ |}.
Definition ingressLabels : list string := [LabelProtocol; LabelMethod; LabelOutcome; LabelShadow; LabelShadowStarted].
Definition backendLabels : list string := [LabelProtocol; LabelTarget; LabelMethod; LabelStatus; LabelResult].

Definition newPrometheusMetrics : prometheusMetrics := {|
  ingressRequests := newCounterVec ingressLabels;
  ingressDuration := newDurationVec ingressLabels;
  backendRequests := newCounterVec backendLabels;
  backendDuration := newDurationVec backendLabels;
  comparisons := newCounterVec [LabelProtocol; LabelResult];
  observabilityStarts := newCounterVec [LabelResult];
  observabilityStops := newCounterVec [LabelResult];
  callerIntrospections := newCounterVec [LabelResult];
  callerFlights := 0
|}.
Definition newInstruments : otelMetricInstruments := {|
  oi_ingressRequests := ∅; oi_ingressDuration := ∅; oi_backendRequests := ∅; oi_backendDuration := ∅;
  oi_comparisons := ∅; oi_callerIntrospections := ∅; oi_callerFlights := 0
|}.

(** [WithLabelValues(labels...).Inc()] and [.Observe(d)]: a wrong number of
    labels panics. *)
Definition Inc (labels : list string) (v : CounterVec) : option CounterVec :=
  if decide (length labels = length (cv_labels v))
  then Some {| cv_labels := cv_labels v; cv_values := <[labels := default 0 (cv_values v !! labels) + 1]> (cv_values v) |}
  else None.
Definition Observe (labels : list string) (d : Z) (v : HistogramVec) : option HistogramVec :=
  if decide (length labels = length (hv_labels v))
  then Some {| hv_labels := hv_labels v;
               hv_values := <[labels := (default [] (hv_values v !! labels) ++ [d])%list]> (hv_values v) |}
  else None.
Definition Add1 (attrs : attributes) (m : gmap attributes Z) : gmap attributes Z :=
  <[attrs := default 0 (m !! attrs) + 1]> m.
Definition RecordDuration (attrs : attributes) (d : Z) (m : gmap attributes (list Z)) : gmap attributes (list Z) :=
  <[attrs := (default [] (m !! attrs) ++ [d])%list]> m.

(** ** Recording: [None] is a panic; a nil [*Observability] records nothing. *)

Fixpoint labelValuesAndAttributes (pairs : list string) : list string * attributes :=
  match pairs with
  | key :: value :: pairs' =>
      let '(labels, attrs) := labelValuesAndAttributes pairs' in (value :: labels, (key, value) :: attrs)
  | _ => ([], [])
  end.

Definition withMetrics (o : Observability) (m : option prometheusMetrics) (i : option otelMetricInstruments) : Observability :=
  {| ob_config := ob_config o; ob_metrics := m; ob_otel := i; ob_tracing := ob_tracing o |}.

(** [observeCounterDuration] on the ingress pair, and on the backend pair. *)
Definition observeIngress (labels : list string) (attrs : attributes) (d : Z) (o : Observability) : option Observability :=
  metrics ← (match ob_metrics o with
             | None => Some None
             | Some m =>
                 counter ← Inc labels (ingressRequests m);
                 duration ← Observe labels d (ingressDuration m);
                 Some (Some {| ingressRequests := counter; ingressDuration := duration;
                   backendRequests := backendRequests m; backendDuration := backendDuration m;
                   comparisons := comparisons m; observabilityStarts := observabilityStarts m;
                   observabilityStops := observabilityStops m; callerIntrospections := callerIntrospections m;
                   callerFlights := callerFlights m |})
             end);
  Some (withMetrics o metrics (match ob_otel o with
    | None => None
    | Some i => Some {| oi_ingressRequests := Add1 attrs (oi_ingressRequests i);
        oi_ingressDuration := RecordDuration attrs d (oi_ingressDuration i);
        oi_backendRequests := oi_backendRequests i; oi_backendDuration := oi_backendDuration i;
        oi_comparisons := oi_comparisons i; oi_callerIntrospections := oi_callerIntrospections i;
        oi_callerFlights := oi_callerFlights i |} end)).
Definition observeBackend (labels : list string) (attrs : attributes) (d : Z) (o : Observability) : option Observability :=
  metrics ← (match ob_metrics o with
             | None => Some None
             | Some m =>
                 counter ← Inc labels (backendRequests m);
                 duration ← Observe labels d (backendDuration m);
                 Some (Some {| ingressRequests := ingressRequests m; ingressDuration := ingressDuration m;
                   backendRequests := counter; backendDuration := duration;
                   comparisons := comparisons m; observabilityStarts := observabilityStarts m;
                   observabilityStops := observabilityStops m; callerIntrospections := callerIntrospections m;
                   callerFlights := callerFlights m |})
             end);
  Some (withMetrics o metrics (match ob_otel o with
    | None => None
    | Some i => Some {| oi_ingressRequests := oi_ingressRequests i; oi_ingressDuration := oi_ingressDuration i;
        oi_backendRequests := Add1 attrs (oi_backendRequests i);
        oi_backendDuration := RecordDuration attrs d (oi_backendDuration i);
        oi_comparisons := oi_comparisons i; oi_callerIntrospections := oi_callerIntrospections i;
        oi_callerFlights := oi_callerFlights i |} end)).

Definition on (o : option Observability) (f : Observability -> option Observability) : option (option Observability) :=
  match o with None => Some None | Some o => Some <$> f o end.

Definition ObserveIngressRequest (protocol method outcome shadow shadowStarted : string) (d : Z)
    (o : option Observability) : option (option Observability) :=
  let '(labels, attrs) := labelValuesAndAttributes [LabelProtocol; protocol; LabelMethod; method;
    LabelOutcome; outcome; LabelShadow; shadow; LabelShadowStarted; shadowStarted] in
  on o (observeIngress labels attrs d).
Definition ObserveBackendRequest (protocol target method status result : string) (d : Z)
    (o : option Observability) : option (option Observability) :=
  let '(labels, attrs) := labelValuesAndAttributes [LabelProtocol; protocol; LabelTarget; target;
    LabelMethod; method; LabelStatus; status; LabelResult; result] in
  on o (observeBackend labels attrs d).

Definition ObserveComparison (protocol result : string) (o : option Observability) : option (option Observability) :=
  on o (fun o =>
    metrics ← (match ob_metrics o with
               | None => Some None
               | Some m =>
                   counter ← Inc [protocol; result] (comparisons m);
                   Some (Some {| ingressRequests := ingressRequests m; ingressDuration := ingressDuration m;
                     backendRequests := backendRequests m; backendDuration := backendDuration m;
                     comparisons := counter; observabilityStarts := observabilityStarts m;
                     observabilityStops := observabilityStops m; callerIntrospections := callerIntrospections m;
                     callerFlights := callerFlights m |})
               end);
    Some (withMetrics o metrics (match ob_otel o with
      | None => None
      | Some i => Some {| oi_ingressRequests := oi_ingressRequests i; oi_ingressDuration := oi_ingressDuration i;
          oi_backendRequests := oi_backendRequests i; oi_backendDuration := oi_backendDuration i;
          oi_comparisons := Add1 [(LabelProtocol, protocol); (LabelResult, result)] (oi_comparisons i);
          oi_callerIntrospections := oi_callerIntrospections i; oi_callerFlights := oi_callerFlights i |} end))).

Definition ObserveCallerIntrospection (result : string) (o : option Observability) : option (option Observability) :=
  on o (fun o =>
    metrics ← (match ob_metrics o with
               | None => Some None
               | Some m =>
                   counter ← Inc [result] (callerIntrospections m);
                   Some (Some {| ingressRequests := ingressRequests m; ingressDuration := ingressDuration m;
                     backendRequests := backendRequests m; backendDuration := backendDuration m;
                     comparisons := comparisons m; observabilityStarts := observabilityStarts m;
                     observabilityStops := observabilityStops m; callerIntrospections := counter;
                     callerFlights := callerFlights m |})
               end);
    Some (withMetrics o metrics (match ob_otel o with
      | None => None
      | Some i => Some {| oi_ingressRequests := oi_ingressRequests i; oi_ingressDuration := oi_ingressDuration i;
          oi_backendRequests := oi_backendRequests i; oi_backendDuration := oi_backendDuration i;
          oi_comparisons := oi_comparisons i;
          oi_callerIntrospections := Add1 [(LabelResult, result)] (oi_callerIntrospections i);
          oi_callerFlights := oi_callerFlights i |} end))).

Definition AddCallerIntrospectionFlights (delta : Z) (o : option Observability) : option (option Observability) :=
  on o (fun o => Some (withMetrics o
    (match ob_metrics o with
     | None => None
     | Some m => Some {| ingressRequests := ingressRequests m; ingressDuration := ingressDuration m;
         backendRequests := backendRequests m; backendDuration := backendDuration m; comparisons := comparisons m;
         observabilityStarts := observabilityStarts m; observabilityStops := observabilityStops m;
         callerIntrospections := callerIntrospections m; callerFlights := callerFlights m + delta |}
     end)
    (match ob_otel o with
     | None => None
     | Some i => Some {| oi_ingressRequests := oi_ingressRequests i; oi_ingressDuration := oi_ingressDuration i;
         oi_backendRequests := oi_backendRequests i; oi_backendDuration := oi_backendDuration i;
         oi_comparisons := oi_comparisons i; oi_callerIntrospections := oi_callerIntrospections i;
         oi_callerFlights := oi_callerFlights i + delta |}
     end))).

(** ** Construction *)

Section construct.
Context `{Unicode} `{URLs}.

Definition normalizeConfig (o : ObservabilityConfig) (serviceVersion : string) : ObservabilityConfig :=
  let orElse (s d : string) := if decide (s = "") then d else s in
  let path := orElse (o_PrometheusPath o) defaultPrometheusPath in
  {| o_PrometheusEnabled := o_PrometheusEnabled o;
     o_PrometheusAddress := orElse (o_PrometheusAddress o) defaultPrometheusAddress;
     o_PrometheusPort := if o_PrometheusPort o =? 0 then defaultPrometheusPort else o_PrometheusPort o;
     o_PrometheusPath := if negb (HasPrefix path "/") then "/" +:+ path else path;
     o_PrometheusRuntimeMetrics := o_PrometheusRuntimeMetrics o;
     o_PrometheusHTTPAuthBasic := o_PrometheusHTTPAuthBasic o;
     o_PrometheusTLS := {| p_Enabled := p_Enabled (o_PrometheusTLS o); p_Cert := p_Cert (o_PrometheusTLS o);
       p_Key := p_Key (o_PrometheusTLS o); p_MinVersion := orElse (p_MinVersion (o_PrometheusTLS o)) "1.2" |};
     o_OTelEnabled := o_OTelEnabled o; o_OTelTracesEnabled := o_OTelTracesEnabled o;
     o_OTelMetricsEnabled := o_OTelMetricsEnabled o;
     o_OTelServiceName := orElse (o_OTelServiceName o) defaultOTelServiceName;
     o_OTelServiceVersion := orElse (o_OTelServiceVersion o) serviceVersion;
     o_OTLPEndpoint := o_OTLPEndpoint o;
     o_OTLPHeaders := match o_OTLPHeaders o with None => Some ∅ | Some h => Some h end;
     o_OTLPInsecure := o_OTLPInsecure o;
     o_OTelSampleRatio := match o_OTelSampleRatio o with None => Some defaultOTelSampleRatio | Some r => Some r end;
     o_TraceIDHeader := CanonicalHeaderKey (orElse (o_TraceIDHeader o) defaultTraceIDHeader) |}.

(** Whether the resource and each exporter can be made is a parameter.  The
    functions return the providers they set. *)
Definition initializeOpenTelemetryTracing (traceErr : option error) : res bool :=
  _ ← res_wrap (wrapped "creating OTLP trace exporter") (check traceErr); Ok true.
Definition initializeOpenTelemetryMetrics (metricErr : option error) : res (option otelMetricInstruments) :=
  _ ← res_wrap (wrapped "creating OTLP metric exporter") (check metricErr); Ok (Some newInstruments).
Definition initializeOpenTelemetry (o : ObservabilityConfig) (resourceErr traceErr metricErr : option error)
    : res (bool * option otelMetricInstruments) :=
  _ ← res_wrap (wrapped "creating OpenTelemetry resource") (check resourceErr);
  tracing ← (if o_OTelTracesEnabled o then initializeOpenTelemetryTracing traceErr else Ok false);
  metrics ← (if o_OTelMetricsEnabled o then initializeOpenTelemetryMetrics metricErr else Ok None);
  Ok (tracing, metrics).
Definition New (cfg : ObservabilityConfig) (serviceVersion : string)
    (resourceErr traceErr metricErr : option error) : res Observability :=
  let o := normalizeConfig cfg serviceVersion in
  let metrics := if o_PrometheusEnabled o then Some newPrometheusMetrics else None in
  if negb (o_OTelEnabled o) then Ok {| ob_config := o; ob_metrics := metrics; ob_otel := None; ob_tracing := false |}
  else
    '(tracing, otel) ← initializeOpenTelemetry o resourceErr traceErr metricErr;
    Ok {| ob_config := o; ob_metrics := metrics; ob_otel := otel; ob_tracing := tracing |}.

(** The endpoint and whether the exporter speaks plain HTTP. *)
Definition normalizedOTLPEndpoint (o : ObservabilityConfig) : string * bool :=
  match url_Parse (o_OTLPEndpoint o) with
  | Some u => if decide (u_Host u <> "") then (u_Host u, o_OTLPInsecure o || bool_decide (u_Scheme u = "http"))
              else (o_OTLPEndpoint o, o_OTLPInsecure o)
  | None => (o_OTLPEndpoint o, o_OTLPInsecure o)
  end.
(** [traceHTTPOptions] and [metricHTTPOptions]: endpoint, [WithInsecure], [WithHeaders]. *)
Definition httpOptions (o : ObservabilityConfig) : string * bool * option (gmap string string) :=
  let '(endpoint, insecure) := normalizedOTLPEndpoint o in
  (endpoint, insecure, match o_OTLPHeaders o with Some h => if decide (h = ∅) then None else Some h | None => None end).
End construct.

(** ** Trace ids *)

Section trace.
Context `{Unicode}.

(** The trace id of the active span, empty when there is none. *)
Definition SetTraceIDHeader (o : option Observability) (traceID : string) (h : option header) : option header :=
  match o, h with
  | Some o, Some h =>
      let name := o_TraceIDHeader (ob_config o) in
      if decide (name = "") then Some h
      else if decide (Get h name <> "") then Some h
      else if decide (traceID <> "") then Some (HeaderSet h name traceID) else Some h
  | _, _ => h
  end.

Definition grpcTraceIDMetadataKey (value : string) : string :=
  let key := ToLower (TrimSpace value) in
  if decide (key = "") then "" else if forallb metadataRune (runes key) then key else "".

Definition SetGRPCTraceIDMetadata (o : option Observability) (traceID : string) (md : option MD) : option MD :=
  match o, md with
  | Some o, Some md =>
      let name := o_TraceIDHeader (ob_config o) in
      if decide (name = "") then Some md
      else
        let key := grpcTraceIDMetadataKey name in
        if bool_decide (key = "") || bool_decide (md_Get md key <> []) then Some md
        else if decide (traceID <> "") then Some (md_Set md key [traceID]) else Some md
  | _, _ => md
  end.

(** [grpcMetadataCarrier] *)
Definition carrier_Get (md : MD) (key : string) : string :=
  match md_Get md (ToLower key) with v :: _ => v | [] => "" end.
Definition carrier_Set (md : MD) (key value : string) : MD :=
  let key := ToLower (TrimSpace key) in if decide (key = "") then md else md_Set md key [value].
Definition carrier_Keys (range : list (string * list string)) : list string := range.*1.

(** [InjectHTTPTraceContext] and [InjectGRPCTraceContext]; [inject] is the W3C
    propagator, on the header and on the carrier of the metadata. *)
Definition InjectHTTPTraceContext (o : option Observability) (inject : header -> header) (traceID : string)
    (h : option header) : option header :=
  match o, h with
  | Some _, Some h' => SetTraceIDHeader o traceID (Some (inject h'))
  | _, _ => h
  end.
Definition InjectGRPCTraceContext (o : option Observability) (inject : MD -> MD) (traceID : string)
    (md : option MD) : option MD :=
  match o, md with
  | Some _, Some md' => SetGRPCTraceIDMetadata o traceID (Some (inject md'))
  | _, _ => md
  end.

Definition traceSpansEnabled (o : option Observability) : bool :=
  match o with
  | None => false
  | Some o => o_OTelEnabled (ob_config o) && o_OTelTracesEnabled (ob_config o)
  end.
End trace.

(** ** The metrics endpoint *)

Definition secureStringEqual (got want : string) : bool := bool_decide (sha256_Sum256 got = sha256_Sum256 want).

(** A request: its method, its path and what [BasicAuth] reads. *)
Record request := { rq_Method : string; rq_Path : string; rq_BasicAuth : option (string * string) }.
Inductive answer :=
  | Metrics (m : prometheusMetrics)
  | Health (r : health.response)
  | Unauthorized (challenge : string)
  | NotFound
  | InternalServerError.

Definition basicChallenge : string := of_chars (chars "Basic realm=" ++ [chr 34] ++ chars "doppelgaenger metrics" ++ [chr 34]).

Definition requireHTTPBasicAuth (username password : string) (next : answer) (r : request) : answer :=
  match rq_BasicAuth r with
  | None => Unauthorized basicChallenge
  | Some (gotUser, gotPassword) =>
      if negb (secureStringEqual gotUser username) || negb (secureStringEqual gotPassword password)
      then Unauthorized basicChallenge else next
  end.

Definition PrometheusPath (o : option Observability) : string :=
  match o with
  | None => defaultPrometheusPath
  | Some o => let path := o_PrometheusPath (ob_config o) in if decide (path = "") then defaultPrometheusPath else path
  end.
Definition PrometheusEnabled (o : option Observability) : bool :=
  match o with
  | None => false
  | Some o => o_PrometheusEnabled (ob_config o) && bool_decide (is_Some (ob_metrics o))
  end.

Definition PrometheusHandler (o : option Observability) (r : request) : answer :=
  match o ≫= ob_metrics, o with
  | Some m, Some o =>
      let auth := o_PrometheusHTTPAuthBasic (ob_config o) in
      if decide (auth = "") then Metrics m
      else match SplitBasicAuthCredentials auth with
           | Err _ => InternalServerError
           | Ok (username, password) => requireHTTPBasicAuth username password (Metrics m) r
           end
  | _, _ => NotFound
  end.

(** [prometheusMux] for paths without a trailing slash or wildcards, which match
    themselves only. *)
Definition prometheusMux (o : option Observability) (healthState : option health.State) (r : request) : answer :=
  if bool_decide (rq_Path r = PrometheusPath o) then PrometheusHandler o r
  else if bool_decide (rq_Path r = health.Path) && bool_decide (is_Some healthState)
  then Health (health.Handler healthState (rq_Method r))
  else NotFound.

Section endpoint.
Context `{Unicode} `{Sockets}.

Definition buildPrometheusServerTLSConfig (t : PrometheusTLS) : res (option (string * string * Z)) :=
  if negb (p_Enabled t) then Ok None
  else if bool_decide (p_Cert t = "") || bool_decide (p_Key t = "")
  then Err (errors_New "observability prometheus_tls requires cert and key when enabled")
  else
    minVersion ← res_wrap (wrapped "observability prometheus_tls") (ResolveTLSMinVersion (p_MinVersion t));
    _ ← res_wrap (wrapped "observability prometheus_tls load cert/key") (check (tls_LoadX509KeyPair (p_Cert t) (p_Key t)));
    Ok (Some (p_Cert t, p_Key t, minVersion)).

(** [net.JoinHostPort] *)
Definition JoinHostPort (host port : string) : string :=
  if ContainsByte host ":"%char then "[" +:+ host +:+ "]:" +:+ port else host +:+ ":" +:+ port.

(** The listener served and its TLS settings, the label the attempt is counted
    under, and what happened to the listener. *)
Definition StartPrometheusServer (o : option Observability)
    : res (option (Z * option (string * string * Z))) * option string * list event :=
  match o with
  | None => (Ok None, None, [])
  | Some ob =>
      if negb (PrometheusEnabled o) then (Ok None, None, [])
      else
        let address := JoinHostPort (o_PrometheusAddress (ob_config ob)) (Itoa (o_PrometheusPort (ob_config ob))) in
        match net_Listen address with
        | Err err => (Err (wrapped ("listen prometheus endpoint " +:+ address) err), Some ResultError, [])
        | Ok l =>
            match buildPrometheusServerTLSConfig (o_PrometheusTLS (ob_config ob)) with
            | Err err => (Err err, Some ResultError, [Opened l; Closed l])
            | Ok tls => (Ok (Some (l, tls)), Some ResultOK, [Opened l])
            end
        end
  end.
End endpoint.

(** [Shutdown]: the errors of the endpoint and of the two providers, joined, and
    the label of the attempt. *)
Definition Shutdown (serverErr meterErr traceErr : option error) : list error * string :=
  let errs := (option_list serverErr ++ option_list meterErr ++ option_list traceErr)%list in
  (errs, match errs with [] => ResultOK | _ => ResultError end).

(** ** Specification: what was recorded *)

Inductive observation :=
  | OIngress (protocol method outcome shadow shadowStarted : string) (d : Z)
  | OBackend (protocol target method status result : string) (d : Z)
  | OComparison (protocol result : string)
  | OIntrospection (result : string)
  | OFlights (delta : Z).
Definition record (e : observation) : option Observability -> option (option Observability) :=
  match e with
  | OIngress p m o s st d => ObserveIngressRequest p m o s st d
  | OBackend p t m s r d => ObserveBackendRequest p t m s r d
  | OComparison p r => ObserveComparison p r
  | OIntrospection r => ObserveCallerIntrospection r
  | OFlights delta => AddCallerIntrospectionFlights delta
  end.
Definition recordAll (o : option Observability) (es : list observation) : option (option Observability) :=
  foldl (fun acc e => acc ≫= record e) (Some o) es.

Inductive family := Ingress | Backend | Comparison | Introspection.
#[export] Instance family_eq_dec : EqDecision family.
Proof. solve_decision. Defined.

Definition labelNames (f : family) : list string :=
  match f with
  | Ingress => ingressLabels | Backend => backendLabels
  | Comparison => [LabelProtocol; LabelResult] | Introspection => [LabelResult]
  end.
(** The family, label values and duration of an observation. *)
Definition series (e : observation) : option (family * list string) :=
  match e with
  | OIngress p m o s st _ => Some (Ingress, [p; m; o; s; st])
  | OBackend p t m s r _ => Some (Backend, [p; t; m; s; r])
  | OComparison p r => Some (Comparison, [p; r])
  | OIntrospection r => Some (Introspection, [r])
  | OFlights _ => None
  end.
Definition durationOf (e : observation) : list Z :=
  match e with OIngress _ _ _ _ _ d | OBackend _ _ _ _ _ d => [d] | _ => [] end.
Definition flightsOf (e : observation) : Z := match e with OFlights d => d | _ => 0 end.

Definition hits (f : family) (labels : list string) (es : list observation) : Z :=
  Z.of_nat (length (filter (fun e => series e = Some (f, labels)) es)).
Definition durations (f : family) (labels : list string) (es : list observation) : list Z :=
  filter (fun e => series e = Some (f, labels)) es ≫= durationOf.
Definition flights (es : list observation) : Z := foldr Z.add 0 (flightsOf <$> es).

Definition promVec (f : family) (m : prometheusMetrics) : CounterVec :=
  match f with
  | Ingress => ingressRequests m | Backend => backendRequests m
  | Comparison => comparisons m | Introspection => callerIntrospections m
  end.
Definition promDurations (f : family) (m : prometheusMetrics) : HistogramVec :=
  match f with Ingress => ingressDuration m | Backend => backendDuration m | _ => newDurationVec (labelNames f) end.
Definition otelVec (f : family) (i : otelMetricInstruments) : gmap attributes Z :=
  match f with
  | Ingress => oi_ingressRequests i | Backend => oi_backendRequests i
  | Comparison => oi_comparisons i | Introspection => oi_callerIntrospections i
  end.
Definition otelDurations (f : family) (i : otelMetricInstruments) : gmap attributes (list Z) :=
  match f with Ingress => oi_ingressDuration i | Backend => oi_backendDuration i | _ => ∅ end.

(** The collectors of [m] hold exactly the observations [es]. *)
Record prometheus_holds (m : prometheusMetrics) (es : list observation) : Prop := {
  ph_labels : forall f, cv_labels (promVec f m) = labelNames f /\ hv_labels (promDurations f m) = labelNames f;
  ph_counts : forall f labels, default 0 (cv_values (promVec f m) !! labels) = hits f labels es;
  ph_durations : forall f labels, default [] (hv_values (promDurations f m) !! labels) = durations f labels es;
  ph_flights : callerFlights m = flights es
}.
Record otel_holds (i : otelMetricInstruments) (es : list observation) : Prop := {
  oh_counts : forall f labels, length labels = length (labelNames f) ->
    default 0 (otelVec f i !! zip (labelNames f) labels) = hits f labels es;
  oh_durations : forall f labels, length labels = length (labelNames f) ->
    default [] (otelDurations f i !! zip (labelNames f) labels) = durations f labels es;
  oh_flights : oi_callerFlights i = flights es
}.

Section holds.
Lemma lookup_bump `{Countable K} (m : gmap K Z) k k' :
  default 0 (<[k := default 0 (m !! k) + 1]> m !! k') = default 0 (m !! k') + (if decide (k = k') then 1 else 0).
Proof. case_decide as E; [subst; by rewrite lookup_insert_eq|]. rewrite lookup_insert_ne by done. lia. Qed.
Lemma lookup_push `{Countable K} (m : gmap K (list Z)) k k' d :
  default [] (<[k := (default [] (m !! k) ++ [d])%list]> m !! k') =
  (default [] (m !! k') ++ (if decide (k = k') then [d] else []))%list.
Proof. case_decide as E; [subst; by rewrite lookup_insert_eq|]. by rewrite lookup_insert_ne, app_nil_r. Qed.

Lemma hits_snoc f l es e : hits f l (es ++ [e]) = hits f l es + (if decide (series e = Some (f, l)) then 1 else 0).
Proof.
  unfold hits. rewrite filter_app, length_app. case_decide as E.
  - rewrite filter_cons_True by done. cbn. lia.
  - rewrite filter_cons_False by done. cbn. lia.
Qed.
Lemma durations_snoc f l es e :
  durations f l (es ++ [e]) = (durations f l es ++ (if decide (series e = Some (f, l)) then durationOf e else []))%list.
Proof.
  unfold durations. rewrite filter_app, bind_app. f_equal. case_decide as E.
  - rewrite filter_cons_True by done. cbn. by rewrite app_nil_r.
  - by rewrite filter_cons_False.
Qed.
Lemma flights_snoc es e : flights (es ++ [e]) = flights es + flightsOf e.
Proof. unfold flights. rewrite fmap_app, foldr_app. cbn. induction es as [|x es IH]; cbn; [lia|]. rewrite IH. lia. Qed.

Lemma zip_inj (names l l' : list string) :
  length l = length names -> length l' = length names -> zip names l = zip names l' -> l = l'.
Proof.
  revert l l'. induction names as [|n names IH]; intros [|x l] [|y l'] H1 H2; try done.
  cbn. intros [= -> E]. f_equal. apply IH; cbn in *; lia || done.
Qed.
Lemma zip_decide {A} (names l l' : list string) (a b : A) :
  length l = length names -> length l' = length names ->
  (if decide (zip names l = zip names l') then a else b) = (if decide (l = l') then a else b).
Proof.
  intros H1 H2. destruct (decide (l = l')) as [->|Hn]; [by rewrite decide_True|].
  rewrite decide_False; [done|]. intros E. by apply Hn, (zip_inj names).
Qed.
Lemma series_decide {A} (f f' : family) (l l' : list string) (a b : A) :
  (if decide (Some (f, l) = Some (f', l')) then a else b) = (if decide (f = f') then (if decide (l = l') then a else b) else b).
Proof.
  destruct (decide (f = f')) as [->|], (decide (l = l')) as [->|];
    (rewrite decide_True by done) || (rewrite decide_False by congruence); done.
Qed.
End holds.

Section agree.
Definition holds (o : Observability) (es : list observation) : Prop :=
  (forall m, ob_metrics o = Some m -> prometheus_holds m es) /\
  (forall i, ob_otel o = Some i -> otel_holds i es).

Lemma Inc_ok f labels m : cv_labels (promVec f m) = labelNames f -> length labels = length (labelNames f) ->
  Inc labels (promVec f m) = Some {| cv_labels := labelNames f;
    cv_values := <[labels := default 0 (cv_values (promVec f m) !! labels) + 1]> (cv_values (promVec f m)) |}.
Proof. intros E Hl. unfold Inc. rewrite E. by rewrite decide_True. Qed.
Lemma Observe_ok f labels d m : hv_labels (promDurations f m) = labelNames f -> length labels = length (labelNames f) ->
  Observe labels d (promDurations f m) = Some {| hv_labels := labelNames f;
    hv_values := <[labels := (default [] (hv_values (promDurations f m) !! labels) ++ [d])%list]> (hv_values (promDurations f m)) |}.
Proof. intros E Hl. unfold Observe. rewrite E. by rewrite decide_True. Qed.

(** One observation of the prometheus collectors. *)
Lemma prometheus_step f labels d m m' es e :
  prometheus_holds m es -> length labels = length (labelNames f) ->
  series e = Some (f, labels) -> durationOf e = d -> flightsOf e = 0 ->
  (forall f', promVec f' m' = if decide (f = f') then {| cv_labels := labelNames f;
     cv_values := <[labels := default 0 (cv_values (promVec f m) !! labels) + 1]> (cv_values (promVec f m)) |}
     else promVec f' m) ->
  (forall f', hv_labels (promDurations f' m') = hv_labels (promDurations f' m) /\
     forall l, default [] (hv_values (promDurations f' m') !! l) =
      (default [] (hv_values (promDurations f' m) !! l) ++ (if decide (f = f') then (if decide (labels = l) then d else []) else []))%list) ->
  callerFlights m' = callerFlights m ->
  prometheus_holds m' (es ++ [e]).
Proof.
  intros [P1 P2 P3 P4] Hl Hs Hd Hf Hv Hh Hc. split.
  - intros f'. split; [|rewrite (proj1 (Hh f')); apply P1]. rewrite Hv. case_decide; [by subst|apply P1].
  - intros f' l. rewrite hits_snoc, <- P2, Hs, series_decide, Hv. destruct (decide (f = f')) as [<-|]; [|lia].
    cbn [cv_values]. apply lookup_bump.
  - intros f' l. rewrite durations_snoc, <- P3, Hs, series_decide, Hd. apply Hh.
  - by rewrite flights_snoc, Hf, Hc, P4, Z.add_0_r.
Qed.
Lemma otel_step f labels d i i' es e :
  otel_holds i es -> length labels = length (labelNames f) ->
  series e = Some (f, labels) -> durationOf e = d -> flightsOf e = 0 ->
  (forall f', otelVec f' i' = if decide (f = f') then Add1 (zip (labelNames f) labels) (otelVec f i) else otelVec f' i) ->
  (forall f' l, length l = length (labelNames f') ->
    default [] (otelDurations f' i' !! zip (labelNames f') l) =
      (default [] (otelDurations f' i !! zip (labelNames f') l) ++
       (if decide (f = f') then (if decide (labels = l) then d else []) else []))%list) ->
  oi_callerFlights i' = oi_callerFlights i ->
  otel_holds i' (es ++ [e]).
Proof.
  intros [P1 P2 P3] Hl Hs Hd Hf Hv Hh Hc. split.
  - intros f' l Hl'. rewrite hits_snoc, <- P1, Hs, series_decide, Hv by done. destruct (decide (f = f')) as [<-|]; [|lia].
    unfold Add1. rewrite lookup_bump, zip_decide; done.
  - intros f' l Hl'. rewrite durations_snoc, <- P2, Hs, series_decide, Hd by done. by apply Hh.
  - by rewrite flights_snoc, Hf, Hc, P3, Z.add_0_r.
Qed.

(** The two exporters of a step: goals on the durations of each family. *)
Ltac prometheus_hist L2 :=
  intros []; (split; [first [reflexivity|symmetry; exact L2]|]); intros ?; cbn;
  rewrite ?lookup_empty, ?lookup_push, ?app_nil_r;
  first [reflexivity|by repeat destruct (decide _)].
Ltac otel_hist f labels :=
  intros [] l Hl; cbn -[zip]; rewrite ?lookup_empty, ?app_nil_r; try reflexivity; try (by repeat destruct (decide _));
  unfold RecordDuration; rewrite lookup_push; apply f_equal;
  exact (zip_decide (labelNames f) labels l _ _ eq_refl Hl).
Ltac otel_side f labels d Hi :=
  intros i' Ei; cbn in Ei; destruct (ob_otel _) as [i|]; [|discriminate]; injection Ei as <-;
  specialize (Hi i eq_refl); eapply (otel_step f labels d); try done; [by intros []|otel_hist f labels].

Ltac both_kept := cbn; split; [done|]; destruct (ob_otel _); by split.
Definition Recorded (e : observation) (es : list observation) (o : Observability) : Prop :=
  exists o', record e (Some o) = Some (Some o') /\ holds o' (es ++ [e]) /\
    (is_Some (ob_metrics o') <-> is_Some (ob_metrics o)) /\ (is_Some (ob_otel o') <-> is_Some (ob_otel o)).

Lemma record_OIngress es o p m s sh st d : holds o es -> Recorded (OIngress p m s sh st d) es o.
Proof.
  intros [Hm Hi]. unfold Recorded.
  unfold record, ObserveIngressRequest, on, observeIngress. cbn [labelValuesAndAttributes fmap option_fmap option_map].
  destruct (ob_metrics o) as [pm|] eqn:Em.
  + specialize (Hm pm eq_refl). pose proof (ph_labels _ _ Hm Ingress) as [L1 L2].
    pose proof (Inc_ok Ingress [p; m; s; sh; st] pm L1 eq_refl) as E1. cbn [promVec] in E1. rewrite E1.
    pose proof (Observe_ok Ingress [p; m; s; sh; st] d pm L2 eq_refl) as E2. cbn [promDurations] in E2. cbn. rewrite E2. cbn.
    eexists. split; [reflexivity|]. split; [split|].
    * intros m' [= <-]. eapply (prometheus_step Ingress [p; m; s; sh; st] [d]); try done; [by intros []|].
      prometheus_hist L2.
    * otel_side Ingress [p; m; s; sh; st] [d] Hi.
    * both_kept.
  + cbn. eexists. split; [reflexivity|]. split; [split; [done|]|].
    * otel_side Ingress [p; m; s; sh; st] [d] Hi.
    * both_kept.
Qed.
Lemma record_OBackend es o p t m s r d : holds o es -> Recorded (OBackend p t m s r d) es o.
Proof.
  intros [Hm Hi]. unfold Recorded.
  unfold record, ObserveBackendRequest, on, observeBackend. cbn [labelValuesAndAttributes fmap option_fmap option_map].
  destruct (ob_metrics o) as [pm|] eqn:Em.
  + specialize (Hm pm eq_refl). pose proof (ph_labels _ _ Hm Backend) as [L1 L2].
    pose proof (Inc_ok Backend [p; t; m; s; r] pm L1 eq_refl) as E1. cbn [promVec] in E1. rewrite E1.
    pose proof (Observe_ok Backend [p; t; m; s; r] d pm L2 eq_refl) as E2. cbn [promDurations] in E2. cbn. rewrite E2. cbn.
    eexists. split; [reflexivity|]. split; [split|].
    * intros m' [= <-]. eapply (prometheus_step Backend [p; t; m; s; r] [d]); try done; [by intros []|].
      prometheus_hist L2.
    * otel_side Backend [p; t; m; s; r] [d] Hi.
    * both_kept.
  + cbn. eexists. split; [reflexivity|]. split; [split; [done|]|].
    * otel_side Backend [p; t; m; s; r] [d] Hi.
    * both_kept.
Qed.
Lemma record_OComparison es o p r : holds o es -> Recorded (OComparison p r) es o.
Proof.
  intros [Hm Hi]. unfold Recorded.
  unfold record, ObserveComparison, on. cbn [fmap option_fmap option_map].
  destruct (ob_metrics o) as [pm|] eqn:Em.
  + specialize (Hm pm eq_refl). pose proof (ph_labels _ _ Hm Comparison) as [L1 L2].
    pose proof (Inc_ok Comparison [p; r] pm L1 eq_refl) as E1. cbn [promVec] in E1. cbn. rewrite E1. cbn.
    eexists. split; [reflexivity|]. split; [split|].
    * intros m' [= <-]. eapply (prometheus_step Comparison [p; r] []); try done; [by intros []|].
      prometheus_hist L2.
    * otel_side Comparison [p; r] (@nil Z) Hi.
    * both_kept.
  + cbn. eexists. split; [reflexivity|]. split; [split; [done|]|].
    * otel_side Comparison [p; r] (@nil Z) Hi.
    * both_kept.
Qed.
Lemma record_OIntrospection es o r : holds o es -> Recorded (OIntrospection r) es o.
Proof.
  intros [Hm Hi]. unfold Recorded.
  unfold record, ObserveCallerIntrospection, on. cbn [fmap option_fmap option_map].
  destruct (ob_metrics o) as [pm|] eqn:Em.
  + specialize (Hm pm eq_refl). pose proof (ph_labels _ _ Hm Introspection) as [L1 L2].
    pose proof (Inc_ok Introspection [r] pm L1 eq_refl) as E1. cbn [promVec] in E1. cbn. rewrite E1. cbn.
    eexists. split; [reflexivity|]. split; [split|].
    * intros m' [= <-]. eapply (prometheus_step Introspection [r] []); try done; [by intros []|].
      prometheus_hist L2.
    * otel_side Introspection [r] (@nil Z) Hi.
    * both_kept.
  + cbn. eexists. split; [reflexivity|]. split; [split; [done|]|].
    * otel_side Introspection [r] (@nil Z) Hi.
    * both_kept.
Qed.
Lemma record_OFlights es o delta : holds o es -> Recorded (OFlights delta) es o.
Proof.
  intros [Hm Hi]. unfold Recorded. cbn. eexists. split; [reflexivity|]. split; [split|].
  - intros m' Em. cbn in Em. destruct (ob_metrics o) as [m|]; [|done]. injection Em as <-.
    destruct (Hm m eq_refl) as [P1 P2 P3 P4]. split.
    + intros f. destruct (P1 f). by destruct f.
    + intros f l. rewrite hits_snoc, <- P2. cbn [series]. rewrite decide_False by done. destruct f; cbn; lia.
    + intros f l. rewrite durations_snoc, <- P3. cbn [series]. rewrite decide_False by done. rewrite app_nil_r. by destruct f.
    + rewrite flights_snoc, <- P4. done.
  - intros i' Ei. cbn in Ei. destruct (ob_otel o) as [i|]; [|done]. injection Ei as <-.
    destruct (Hi i eq_refl) as [P1 P2 P3]. split.
    + intros f l Hl. rewrite hits_snoc, <- P1 by done. cbn [series]. rewrite decide_False by done. destruct f; cbn -[zip]; lia.
    + intros f l Hl. rewrite durations_snoc, <- P2 by done. cbn [series]. rewrite decide_False by done. rewrite app_nil_r. by destruct f.
    + rewrite flights_snoc, <- P3. done.
  - destruct (ob_metrics o), (ob_otel o); cbn; split; split; done.
Qed.

(** Any number of observations: none panics. *)
Lemma recordAll_holds es o : holds o [] -> exists o', recordAll (Some o) es = Some (Some o') /\ holds o' es /\
  (is_Some (ob_metrics o') <-> is_Some (ob_metrics o)) /\ (is_Some (ob_otel o') <-> is_Some (ob_otel o)).
Proof.
  intros Ho. induction es as [|e es IH] using rev_ind; [by exists o|].
  destruct IH as (o1 & E & Ho1 & Hm & Hi). unfold recordAll in *. rewrite foldl_snoc, E. cbn.
  assert (G : Recorded e es o1) by (destruct e; [by apply record_OIngress|by apply record_OBackend|
    by apply record_OComparison|by apply record_OIntrospection|by apply record_OFlights]).
  destruct G as (o2 & E2 & Ho2 & Hm2 & Hi2). exists o2. rewrite E2. split_and!; [done..| |]; etrans; done.
Qed.
End agree.

Section theorems.
Context `{Unicode} `{URLs} `{PEMFiles}.

Lemma fresh_holds_prometheus : prometheus_holds newPrometheusMetrics [].
Proof. split; [by intros []|by intros [] l; cbn; rewrite lookup_empty|by intros [] l; cbn; rewrite lookup_empty|done]. Qed.
Lemma fresh_holds_otel : otel_holds newInstruments [].
Proof. split; [by intros [] l Hl; cbn; rewrite lookup_empty|by intros [] l Hl; cbn; rewrite lookup_empty|done]. Qed.

Lemma New_exporters cfg version r t m o : New cfg version r t m = Ok o ->
  ob_metrics o = (if o_PrometheusEnabled cfg then Some newPrometheusMetrics else None) /\
  ob_otel o = (if o_OTelEnabled cfg && o_OTelMetricsEnabled cfg then Some newInstruments else None) /\
  ob_config o = normalizeConfig cfg version.
Proof.
  unfold New, initializeOpenTelemetry. cbv zeta.
  change (o_PrometheusEnabled (normalizeConfig cfg version)) with (o_PrometheusEnabled cfg).
  change (o_OTelEnabled (normalizeConfig cfg version)) with (o_OTelEnabled cfg).
  change (o_OTelTracesEnabled (normalizeConfig cfg version)) with (o_OTelTracesEnabled cfg).
  change (o_OTelMetricsEnabled (normalizeConfig cfg version)) with (o_OTelMetricsEnabled cfg).
  destruct (o_OTelEnabled cfg); cbn [negb andb]; [|by intros [= <-]].
  intros E. apply res_bind_ok in E as ([tracing otel] & Ei & [= <-]). split_and!; [done| |done].
  apply res_bind_ok in Ei as (? & _ & Ei). apply res_bind_ok in Ei as (? & _ & Ei). apply res_bind_ok in Ei as (m' & Em & [= _ <-]).
  destruct (o_OTelMetricsEnabled cfg); [|by injection Em as <-]. by apply res_bind_ok in Em as (? & _ & [= <-]).
Qed.


(** The request carries the configured credentials, up to a SHA-256 collision. *)
Definition authorized (auth : string) (r : request) : Prop :=
  exists user password gotUser gotPassword,
    Cut auth ":"%char = Some (user, password) /\ rq_BasicAuth r = Some (gotUser, gotPassword) /\
    sha256_Sum256 gotUser = sha256_Sum256 user /\ sha256_Sum256 gotPassword = sha256_Sum256 password.

Lemma requireHTTPBasicAuth_spec user password next r :
  requireHTTPBasicAuth user password next r = next \/ requireHTTPBasicAuth user password next r = Unauthorized basicChallenge.
Proof. unfold requireHTTPBasicAuth. destruct (rq_BasicAuth r) as [[? ?]|]; [|by right]. destruct (_ || _); [by right|by left]. Qed.

End theorems.

(** ** Witness *)

Definition protectedConfig : ObservabilityConfig := {|
  o_PrometheusEnabled := true; o_PrometheusAddress := "127.0.0.1"; o_PrometheusPort := 9464;
  o_PrometheusPath := "/metrics"; o_PrometheusRuntimeMetrics := false; o_PrometheusHTTPAuthBasic := "ops:secret";
  o_PrometheusTLS := {| p_Enabled := false; p_Cert := ""; p_Key := ""; p_MinVersion := "" |};
  o_OTelEnabled := false; o_OTelTracesEnabled := false; o_OTelMetricsEnabled := false; o_OTelServiceName := "";
  o_OTelServiceVersion := ""; o_OTLPEndpoint := ""; o_OTLPHeaders := Some ∅; o_OTLPInsecure := false;
  o_OTelSampleRatio := None; o_TraceIDHeader := "" |}.
Lemma protectedConfig_ok : @configspec.obs_ok asciiUnicode protectedConfig.
Proof.
  split; [repeat constructor| | |by left|done].
  - intros _. split_and!; try done. intros _. by exists "ops", "secret".
  - split_and!; [by vm_compute..|done].
Qed.

End telemetry.
