(* ===== verification/Wiring.v ===== *)
(** * [internal/app], [internal/ratelimit], [internal/tlsutil]: the components built from a configuration

    The constructors [main.go] gives to [fx], and what an accepted
    configuration builds.  The files and the PEM parser are parameters; a TLS
    configuration is the pool it trusts and whether it verifies.  The clock is
    an argument. *)
From Stdlib Require Import SpecFloat.
From S2P Require Export ConfigSpec Protocol MilterCodec Lifecycle.

(** ** [internal/ratelimit/token_bucket.go] *)

Module ratelimit.
Import compare.

Definition float64_add (x y : spec_float) : spec_float := SFadd 53 1024 x y.
Definition float64_sub (x y : spec_float) : spec_float := SFsub 53 1024 x y.
Definition float64_mul (x y : spec_float) : spec_float := SFmul 53 1024 x y.

(** [time.Duration.Seconds] *)
Definition Seconds (d : Z) : spec_float :=
  float64_add (float64_of_int (Z.quot d 1000000000))
    (float64_div (float64_of_int (Z.rem d 1000000000)) (float64_of_int 1000000000)).

Record TokenBucket := { tb_last : Z; tb_rate : spec_float; tb_burst : spec_float; tb_tokens : spec_float }.

Definition NewTokenBucket (rate : spec_float) (burst now : Z) : TokenBucket :=
  {| tb_last := now; tb_rate := rate; tb_burst := float64_of_int burst; tb_tokens := float64_of_int burst |}.

(** The tokens once the time since the last call is paid out. *)
Definition refilled (tb : TokenBucket) (now : Z) : spec_float :=
  let tokens := float64_add (tb_tokens tb) (float64_mul (Seconds (now - tb_last tb)) (tb_rate tb)) in
  if SFltb (tb_burst tb) tokens then tb_burst tb else tokens.

(** [None] is the nil bucket. *)
Definition Allow (tb : option TokenBucket) (now : Z) : bool * option TokenBucket :=
  match tb with
  | None => (true, None)
  | Some tb =>
      if SFleb (tb_rate tb) f0 then (true, Some tb)
      else
        let tokens := refilled tb now in
        let keep tokens := Some {| tb_last := now; tb_rate := tb_rate tb; tb_burst := tb_burst tb; tb_tokens := tokens |} in
        if SFleb f1 tokens then (true, keep (float64_sub tokens f1)) else (false, keep tokens)
  end.

(** The answers to calls at the given times. *)
Fixpoint answers (tb : option TokenBucket) (times : list Z) : list bool :=
  match times with
  | [] => []
  | now :: times' => let '(ok, tb) := Allow tb now in ok :: answers tb times'
  end.

(** A burst of two at one instant, then one more per second. *)
Example two_then_one_per_second :
  answers (Some (NewTokenBucket f1 2 0)) [0; 0; 0; 999999999; 1000000000; 1000000000; 9000000000; 9000000000; 9000000000] =
    [true; true; false; false; true; false; true; true; false].
Proof. by vm_compute. Qed.

(** A refill never exceeds the burst, a refused call takes no token, and a rate
    that is not positive lets everything through. *)
Lemma Allow_cases tb now :
  SFltb (tb_burst tb) (tb_burst tb) = false ->
  let '(ok, tb') := Allow (Some tb) now in
  SFltb (tb_burst tb) (refilled tb now) = false /\
  (SFleb (tb_rate tb) f0 = true -> ok = true /\ tb' = Some tb) /\
  (ok = false -> tb_tokens <$> tb' = Some (refilled tb now) /\ SFleb f1 (refilled tb now) = false).
Proof.
  intros Hb. assert (G : SFltb (tb_burst tb) (refilled tb now) = false).
  { unfold refilled. cbv zeta. by case_match. }
  unfold Allow. destruct (SFleb (tb_rate tb) f0); [done|]. cbv zeta.
  by destruct (SFleb f1 (refilled tb now)).
Qed.

(** A rate that is not a number passes for a positive one and refuses every
    call. *)
Lemma nan_rate_refuses tb times :
  tb_rate tb = S754_nan -> answers (Some tb) times = replicate (length times) false.
Proof.
  revert tb. induction times as [|now times IH]; intros tb Hr; [done|]. cbn [answers Allow length replicate]. rewrite Hr.
  change (SFleb S754_nan f0) with false. cbv iota.
  assert (refilled tb now = S754_nan) as ->.
  { unfold refilled, float64_mul, float64_add. rewrite Hr. by destruct (Seconds _), (tb_tokens tb), (tb_burst tb). }
  change (SFleb f1 S754_nan) with false. cbv iota. f_equal. apply IH. done.
Qed.
End ratelimit.

Module wiring.
Import callerauthconfig grpcconfig grpcconfigspec config configspec.

(** ** [internal/tlsutil/tls.go] *)

(** [RootCAs] is the file of the pool, [None] for the system's. *)
Record tlsClient := { tc_InsecureSkipVerify : bool; tc_RootCAs : option string }.

Section tlsutil.
Context `{PEMFiles}.
(** [None]: a pool, named by its file. *)
Definition readCertPoolFromPEM (path : string) : option error :=
  match os_ReadFile path with
  | Err err => Some err
  | Ok pemBytes =>
      if negb (pem_HasCertificates pemBytes) then Some (errors_New ("failed to parse CA PEM: " +:+ path)) else None
  end.

Definition BuildUpstreamTLS (insecure : bool) (caPath : string) : res tlsClient :=
  if insecure then Ok {| tc_InsecureSkipVerify := true; tc_RootCAs := None |}
  else if decide (caPath = "") then Ok {| tc_InsecureSkipVerify := false; tc_RootCAs := None |}
  else _ ← check (readCertPoolFromPEM caPath); Ok {| tc_InsecureSkipVerify := false; tc_RootCAs := Some caPath |}.

(** ** [internal/app/providers.go] *)

Definition NewUpstreamTLS (cfg : Config) : res (tlsClient * tlsClient) :=
  let p := c_Plain cfg in
  let primaryCA := if decide (f_PrimaryRootCA p = "") then f_RootCAPath p else f_PrimaryRootCA p in
  let shadowCA := if decide (f_ShadowRootCA p = "") then f_RootCAPath p else f_ShadowRootCA p in
  primaryTLS ← BuildUpstreamTLS (f_InsecureUpstream p) primaryCA;
  shadowTLS ← BuildUpstreamTLS (f_InsecureUpstream p) shadowCA;
  Ok (primaryTLS, shadowTLS).
End tlsutil.

Definition NewShadowLimiter (cfg : Config) (now : Z) : option ratelimit.TokenBucket :=
  if SFleb (s_RPS (c_Shadow cfg)) compare.f0 then None
  else Some (ratelimit.NewTokenBucket (s_RPS (c_Shadow cfg)) (s_Burst (c_Shadow cfg)) now).

(** ** [internal/app/protocol.go] and [internal/grpcproxy/inactive.go] *)

(** The parts of a [*url.URL] the requester uses. *)
Abbreviation requesterOf := (backend.requester parsedURL selector * backend.httpClient * tlsClient)%type.

Inductive adapter :=
  | HTTPAdapter_ (a : protocol.HTTPAdapter (R := requesterOf))
  | MilterAdapter_ (a : milter.MilterAdapter) (timeout : Z)
  | InactiveAdapter.
Inductive comparator := HTTPComparator_ (c : compare.comparator) | MilterComparator_ | InactiveComparator.

Definition unsupportedProtocol (p : string) : error := errors_New ("unsupported protocol: " +:+ p).
Definition inactiveError : error := errors_New "gRPC mode uses the dedicated grpcproxy lifecycle".

Section app.
Context `{Unicode} (asURL : parsedURL -> backend.URL parsedURL).

Definition clientConfig (t : TransportConfig) : backend.HTTPClientConfig :=
  {| backend.DialTimeout := t_DialTimeout t; backend.TLSHandshakeTimeout := t_TLSHandshakeTimeout t;
     backend.ResponseHeaderTimeout := t_ResponseHeaderTimeout t; backend.MaxIdleConns := t_MaxIdleConns t;
     backend.MaxIdleConnsPerHost := t_MaxIdleConnsPerHost t; backend.MaxConnsPerHost := t_MaxConnsPerHost t;
     backend.Protocol := t_Protocol t |}.

(** A requester with its client and the TLS configuration of the client. *)
Definition newRequester (kind : Kind) (urls : list parsedURL) (mode : string) (tls : tlsClient)
    (cfg : Config) (o : bool) : requesterOf :=
  (backend.NewRequester kind (asURL <$> urls) (Some (NewSelector mode)) (f_MaxBackendBodyBytes (c_Plain cfg))
     (clientConfig (c_Transport cfg)) o, tls).

Definition NewProtocolAdapter (cfg : Config) (tls : tlsClient * tlsClient) (o : bool) : res adapter :=
  if decide (c_Protocol cfg = protocolHTTP) then
    Ok (HTTPAdapter_
      {| protocol.ha_PrimaryRequester := Some (newRequester BackendPrimary (c_PrimaryBaseURLs cfg)
           (c_PrimarySelectionMode cfg) tls.1 cfg o);
         protocol.ha_ShadowRequester := Some (newRequester BackendShadow (c_ShadowBaseURLs cfg)
           (c_ShadowSelectionMode cfg) tls.2 cfg o);
         protocol.ha_PrimaryRequestHeaders := default ∅ (f_PrimaryRequestHeaders (c_Plain cfg));
         protocol.ha_ShadowRequestHeaders := default ∅ (f_ShadowRequestHeaders (c_Plain cfg)) |})
  else if decide (c_Protocol cfg = protocolMilter) then
    Ok (MilterAdapter_
      {| milter.ma_PrimaryAddr := f_PrimaryMilterAddr (c_Plain cfg);
         milter.ma_ShadowAddr := f_ShadowMilterAddr (c_Plain cfg); milter.ma_Observability := o |}
      (f_MilterTimeout (c_Plain cfg)))
  else Err (unsupportedProtocol (c_Protocol cfg)).

Definition NewProtocolComparator (cfg : Config) (http : compare.comparator) : res comparator :=
  if decide (c_Protocol cfg = protocolHTTP) then Ok (HTTPComparator_ http)
  else if decide (c_Protocol cfg = protocolMilter) then Ok MilterComparator_
  else Err (unsupportedProtocol (c_Protocol cfg)).

(** The runner: its comparator and [ShadowTimeout]. *)
Definition NewProtocolRunner (cfg : Config) (c : comparator) : comparator * Z :=
  (c, if decide (c_Protocol cfg = protocolMilter) then f_MilterTimeout (c_Plain cfg) else f_ShadowTimeout (c_Plain cfg)).

(** [main.go]: gRPC has its own lifecycle. *)
Definition newProtocolAdapter (cfg : Config) (tls : tlsClient * tlsClient) (o : bool) : res adapter :=
  if decide (c_Protocol cfg = protocolGRPC) then Ok InactiveAdapter else NewProtocolAdapter cfg tls o.
Definition newProtocolComparator (cfg : Config) (http : compare.comparator) : res comparator :=
  if decide (c_Protocol cfg = protocolGRPC) then Ok InactiveComparator else NewProtocolComparator cfg http.

Definition compareConfigOf (cfg : Config) : compare.compareConfig :=
  {| compare.cc_CompareMode := m_Mode (c_Compare cfg); compare.cc_CompareHeaders := f_CompareHeaders (c_Plain cfg);
     compare.cc_HTMLSimilarityThreshold := m_HTMLSimilarityThreshold (c_Compare cfg);
     compare.cc_JSONStrict := f_JSONStrict (c_Plain cfg) |}.

(** ** [main.go]: what [fx] builds

    The hooks of all three servers are registered in every mode, so every
    constructor runs in every mode; the order only decides which error is
    reported. *)
Context `{Regexp} `{PEMFiles}.

Record components := {
  a_TLS : tlsClient * tlsClient;
  a_Limiter : option ratelimit.TokenBucket;
  a_Comparator : compare.comparator;
  a_Registry : compare.Registry;
  a_Adapter : adapter;
  a_Runner : comparator * Z;
  a_PathMapper : mapping.PathMapper;
  a_PathRules : pathrules.Resolver;
  a_GRPCRules : grpcrules.Resolver
}.

Definition newApp (cfg : Config) (o : bool) (now : Z) : res components :=
  tls ← NewUpstreamTLS cfg;
  http ← compare.NewComparator (compareConfigOf cfg);
  registry ← compare.NewRegistry (compareConfigOf cfg);
  adapter ← newProtocolAdapter cfg tls o;
  protocolComparator ← newProtocolComparator cfg http;
  mapper ← mapping.NewPathMapper (f_PathMapping (c_Plain cfg));
  pathResolver ← pathrules.NewResolver (default [] (c_PathRules cfg));
  grpcResolver ← grpcrules.NewResolver (default [] (g_Rules (c_GRPC cfg)));
  Ok {| a_TLS := tls; a_Limiter := NewShadowLimiter cfg now; a_Comparator := http; a_Registry := registry;
        a_Adapter := adapter; a_Runner := NewProtocolRunner cfg protocolComparator; a_PathMapper := mapper;
        a_PathRules := pathResolver; a_GRPCRules := grpcResolver |}.
End app.

(** ** [internal/app/reload_unix.go] *)

(** [exec] replaces the process when it returns no error. *)
Definition reexecSelf (exe : res string) (exec : string -> option error) : option error :=
  let fallback :=
    match exec "/proc/self/exe" with
    | None => None
    | Some err => Some (errors_New ("exec failed for both executable path and /proc/self/exe: " +:+ Error err))
    end in
  match exe with
  | Ok path => match exec path with None => None | Some _ => fallback end
  | Err _ => fallback
  end.

Inductive reloaded := Replaced | Kept (log : string) (err : error).
(** [load] is [config.Load]. *)
Definition handleSIGHUP (load : res Config) (exe : res string) (exec : string -> option error) : reloaded :=
  match load with
  | Err err => Kept "reload aborted: invalid config" err
  | Ok _ => match reexecSelf exe exec with Some err => Kept "reload failed" err | None => Replaced end
  end.

(** ** Specification *)

Section spec.
Context `{Regexp} `{Unicode} `{URLs} `{PEMFiles}.
Context (asURL : parsedURL -> backend.URL parsedURL).
Context (unq : string -> option string).

(** A requester with the backends, the selection and the limits of [cfg]. *)
Definition as_configured (urls : list parsedURL) (mode : string) (tls : tlsClient) (cfg : Config)
    (o : bool) (r : option requesterOf) : Prop :=
  exists rq client, r = Some (rq, client, tls) /\
    backend.bases rq = asURL <$> urls /\ backend.obs rq = o /\
    backend.rq_selector rq = Some (if decide (mode = selectionSourceIPHash) then SourceIPHashSelector else RoundRobinSelector 0) /\
    backend.maxBody rq = f_MaxBackendBodyBytes (c_Plain cfg) /\
    client = backend.newHTTPClient (clientConfig (c_Transport cfg)) /\
    backend.hc_RequireHTTP2 client = bool_decide (t_Protocol (c_Transport cfg) = upstreamHTTPProtocolHTTP2).

Definition wired (cfg : Config) (o : bool) (a : components) : Prop :=
  compare.defaultMode (a_Registry a) = m_Mode (c_Compare cfg) /\
  compare.comparators (a_Registry a) !! m_Mode (c_Compare cfg) = Some (a_Comparator a) /\
  pathrules.NewResolver (default [] (c_PathRules cfg)) = Ok (a_PathRules a) /\
  mapping.NewPathMapper (f_PathMapping (c_Plain cfg)) = Ok (a_PathMapper a) /\
  grpcrules.NewResolver (default [] (g_Rules (c_GRPC cfg))) = Ok (a_GRPCRules a) /\
  match a_Adapter a with
  | HTTPAdapter_ ad =>
      c_Protocol cfg = protocolHTTP /\ a_Runner a = (HTTPComparator_ (a_Comparator a), f_ShadowTimeout (c_Plain cfg)) /\
      protocol.ha_PrimaryRequestHeaders ad = default ∅ (f_PrimaryRequestHeaders (c_Plain cfg)) /\
      protocol.ha_ShadowRequestHeaders ad = default ∅ (f_ShadowRequestHeaders (c_Plain cfg)) /\
      as_configured (c_PrimaryBaseURLs cfg) (c_PrimarySelectionMode cfg) (a_TLS a).1 cfg o (protocol.ha_PrimaryRequester ad) /\
      as_configured (c_ShadowBaseURLs cfg) (c_ShadowSelectionMode cfg) (a_TLS a).2 cfg o (protocol.ha_ShadowRequester ad)
  | MilterAdapter_ ad timeout =>
      c_Protocol cfg = protocolMilter /\ a_Runner a = (MilterComparator_, timeout) /\ timeout = f_MilterTimeout (c_Plain cfg) /\
      milter.ma_PrimaryAddr ad = f_PrimaryMilterAddr (c_Plain cfg) /\ milter.ma_ShadowAddr ad = f_ShadowMilterAddr (c_Plain cfg)
  | InactiveAdapter => c_Protocol cfg = protocolGRPC /\ (a_Runner a).1 = InactiveComparator
  end.

Lemma NewSelector_configured mode :
  selection_ok mode ->
  NewSelector mode = if decide (mode = selectionSourceIPHash) then SourceIPHashSelector else RoundRobinSelector 0.
Proof.
  intros Hm. destruct (proj1 (Forall_forall _ _) selection_words mode Hm) as (_ & Ht & Hl).
  unfold NewSelector. by rewrite Ht, Hl.
Qed.

Lemma newRequester_configured kind urls mode tls cfg o :
  selection_ok mode -> transport_ok (c_Transport cfg) ->
  as_configured urls mode tls cfg o (Some (newRequester asURL kind urls mode tls cfg o)).
Proof.
  intros Hm [(T1 & T2 & T3) (T4 & T5 & T6) Hp]. unfold newRequester, backend.NewRequester.
  eexists _, _. split; [reflexivity|].
  cbn [backend.bases backend.rq_selector backend.maxBody backend.obs].
  rewrite (NewSelector_configured mode Hm), (backend.normalize_valid (clientConfig (c_Transport cfg))) by done.
  by split_and!.
Qed.

Lemma registry_configured cfg :
  compare_ok (c_Compare cfg) ->
  exists http registry, compare.NewComparator (compareConfigOf cfg) = Ok http /\
    compare.NewRegistry (compareConfigOf cfg) = Ok registry /\
    compare.defaultMode registry = m_Mode (c_Compare cfg) /\
    compare.comparators registry !! m_Mode (c_Compare cfg) = Some http.
Proof.
  intros [Hm _]. unfold compare.NewComparator, compare.NewRegistry, compareConfigOf.
  cbn [compare.cc_CompareMode]. assert (compare.normalizeCompareMode (m_Mode (c_Compare cfg)) = m_Mode (c_Compare cfg)) as ->.
  { destruct (proj1 (Forall_forall _ _) (proj1 http_words) _ Hm) as (Hn & Ht & Hl).
    unfold compare.normalizeCompareMode. rewrite Ht, Hl. cbv zeta. destruct (decide _) as [[?|Eh]|]; [done|by rewrite Eh|done]. }
  rewrite !elem_of_cons, elem_of_nil in Hm.
  destruct Hm as [->|[->|[->|[]]]]; eexists _, _; (split; [reflexivity|]); (split; [reflexivity|]); by vm_compute.
Qed.

Context (range : gmap string string -> list (string * string)) (Hrange : forall m, range m ≡ₚ map_to_list m).

(** Why an accepted configuration may still not build. *)
Definition build_failure (cfg : Config) (e : error) : Prop :=
  NewUpstreamTLS cfg = Err e \/
  mapping.NewPathMapper (f_PathMapping (c_Plain cfg)) = Err e \/
  c_Protocol cfg <> protocolGRPC /\ grpcrules.NewResolver (default [] (g_Rules (c_GRPC cfg))) = Err e.

Lemma newApp_wired cfg o now :
  config_ok unq cfg ->
  match newApp asURL cfg o now with
  | Ok a => wired cfg o a
  | Err e => build_failure cfg e
  end.
Proof.
  intros [_ _ Hproto _ [Hs1 Hs2] _ Hg Ht Hc _ Hr _]. unfold newApp, build_failure.
  destruct (NewUpstreamTLS cfg) as [tls|e]; [|by left]. cbn [mbind res_bind].
  destruct (registry_configured cfg Hc) as (http & registry & -> & -> & Rd & Rc). cbn [mbind res_bind].
  assert (exists rs, pathrules.NewResolver (default [] (c_PathRules cfg)) = Ok rs) as [rs Ers].
  { unfold path_rules_ok in Hr. destruct (c_PathRules cfg) as [rules|]; [|done].
    destruct (path_rules_compile 0 rules Hr) as [cs Hcs]. cbn. unfold pathrules.NewResolver. rewrite Hcs. by eexists. }
  assert (Hgr : c_Protocol cfg = protocolGRPC ->
    exists gs, grpcrules.NewResolver (default [] (g_Rules (c_GRPC cfg))) = Ok gs).
  { intros Hp. destruct (Hg Hp) as [[_ _ _ _ _ _ _ _ _ Hrules] _ _ _]. unfold grpcconfigspec.rules_ok in Hrules.
    destruct (g_Rules (c_GRPC cfg)) as [rules|]; [|done]. destruct (grpcconfigspec.compileRules_ok 0 rules Hrules) as [cs Hcs].
    cbn. unfold grpcrules.NewResolver. rewrite Hcs. by eexists. }
  pose proof (newRequester_configured BackendPrimary (c_PrimaryBaseURLs cfg) (c_PrimarySelectionMode cfg) tls.1 cfg o Hs1 Ht) as Q1.
  pose proof (newRequester_configured BackendShadow (c_ShadowBaseURLs cfg) (c_ShadowSelectionMode cfg) tls.2 cfg o Hs2 Ht) as Q2.
  rewrite !elem_of_cons, elem_of_nil in Hproto. unfold newProtocolAdapter, newProtocolComparator, NewProtocolAdapter,
    NewProtocolComparator.
  rewrite Ers. destruct Hproto as [E|[E|[E|[]]]]; rewrite E; cbn [decide mbind res_bind];
    destruct (mapping.NewPathMapper _) as [mapper|e] eqn:Em; cbn [mbind res_bind]; try (by right; left).
  1,2: (destruct (grpcrules.NewResolver _) as [gs|e] eqn:Eg; [|by right; right]).
  3: (destruct (Hgr E) as [gs Eg]; rewrite Eg).
  all: unfold wired, NewProtocolRunner; cbn; rewrite ?E; split_and!; done.
Qed.

Lemma newApp_limiter cfg o now a :
  newApp asURL cfg o now = Ok a -> a_Limiter a = NewShadowLimiter cfg now.
Proof. unfold newApp. intros E. repeat (apply res_bind_ok in E as (? & _ & E)). by injection E as <-. Qed.

End spec.

(** ** Witnesses *)

Definition exampleURL (u : parsedURL) : backend.URL parsedURL :=
  {| backend.u_Path := "/"; backend.u_RawQuery := u_RawQuery u; backend.u_Host := u_Host u; backend.u_rest := u |}.


(** A path mapping that does not exist is accepted by [validate], so SIGHUP
    replaces the process, and the new one cannot be built. *)
Definition unmapped (cfg : Config) : Config :=
  let p := c_Plain cfg in
  {| c_Protocol := c_Protocol cfg; c_PrimaryBaseURLs := c_PrimaryBaseURLs cfg; c_PrimarySelectionMode := c_PrimarySelectionMode cfg;
     c_ShadowBaseURLs := c_ShadowBaseURLs cfg; c_ShadowSelectionMode := c_ShadowSelectionMode cfg; c_Shadow := c_Shadow cfg;
     c_Transport := c_Transport cfg; c_GRPC := c_GRPC cfg; c_Compare := c_Compare cfg; c_Runtime := c_Runtime cfg;
     c_PathRules := c_PathRules cfg; c_LogLevel := c_LogLevel cfg; c_LogFields := c_LogFields cfg;
     c_Observability := c_Observability cfg;
     c_Plain := {| f_ListenAddr := f_ListenAddr p; f_MilterListenAddr := f_MilterListenAddr p;
       f_PrimaryMilterAddr := f_PrimaryMilterAddr p; f_ShadowMilterAddr := f_ShadowMilterAddr p;
       f_MilterTimeout := f_MilterTimeout p; f_TLSCertFile := f_TLSCertFile p; f_TLSKeyFile := f_TLSKeyFile p;
       f_ShadowForceHeader := f_ShadowForceHeader p; f_PrimaryRequestHeaders := f_PrimaryRequestHeaders p;
       f_ShadowRequestHeaders := f_ShadowRequestHeaders p; f_RootCAPath := f_RootCAPath p; f_PrimaryRootCA := f_PrimaryRootCA p;
       f_ShadowRootCA := f_ShadowRootCA p; f_MaxBackendBodyBytes := f_MaxBackendBodyBytes p;
       f_ShadowTimeout := f_ShadowTimeout p; f_ForwardResponseHeaders := f_ForwardResponseHeaders p;
       f_CompareHeaders := f_CompareHeaders p; f_JSONStrict := f_JSONStrict p;
       f_LogSessionOnlyOnDiff := f_LogSessionOnlyOnDiff p; f_LogOnlyOnDiff := f_LogOnlyOnDiff p; f_LogJSON := f_LogJSON p;
       f_InsecureUpstream := f_InsecureUpstream p;
       f_PathMapping := {| mapping.c_Mode := "regex"; mapping.c_Rules := [] |} |} |}.

Lemma reload_into_a_failing_start :
  let load := cfg ← @decode exampleURLs defaults;
              @validate literalRegexp asciiUnicode exampleURLs noFiles (fun _ => None) map_to_list (unmapped cfg) in
  handleSIGHUP load (Ok "/usr/bin/doppelgaenger") (fun _ => None) = Replaced /\
  match load with
  | Ok cfg => is_ok (@newApp asciiUnicode exampleURL literalRegexp noFiles cfg false 0) = false
  | Err _ => False
  end.
Proof. by vm_compute. Qed.
End wiring.
