(* ===== verification/CommandLine.v ===== *)
(** * The command line: [parseCLI] of [main.go] and its flag parser

    [vendor/github.com/spf13/pflag] is translated as far as the flags of the
    program reach it: string and bool flags, no deprecated or hidden ones, no
    name normalisation, interspersed arguments, [ContinueOnError].  The flag
    set is a list of flags with their values. *)
From S2P Require Export GoStrings.

(** ** [pflag] *)

Module pflag.

Inductive value := boolValue (b : bool) | stringValue (s : string).
Record Flag := { Name : string; Shorthand : string; NoOptDefVal : string; Value : value }.
(** The flags, and the arguments that are none. *)
Record FlagSet := { formal : list Flag; args : list string }.

Definition BoolVarP (name shorthand : string) : Flag :=
  {| Name := name; Shorthand := shorthand; NoOptDefVal := "true"; Value := boolValue false |}.
Definition StringVarP (name shorthand : string) : Flag :=
  {| Name := name; Shorthand := shorthand; NoOptDefVal := ""; Value := stringValue "" |}.

Definition Lookup (f : FlagSet) (name : string) : option Flag := snd <$> list_find (fun fl => Name fl = name) (formal f).
Definition shorthandLookup (f : FlagSet) (c : ascii) : option Flag :=
  snd <$> list_find (fun fl => Shorthand fl = String c "") (formal f).
Definition GetBool (f : FlagSet) (name : string) : bool :=
  match Value <$> Lookup f name with Some (boolValue b) => b | _ => false end.
Definition GetString (f : FlagSet) (name : string) : string :=
  match Value <$> Lookup f name with Some (stringValue s) => s | _ => "" end.

Section parse.
Context `{Unicode}.

(** [strconv.ParseBool] *)
Definition ParseBool (s : string) : res bool :=
  if decide (s ∈ ["1"; "t"; "T"; "TRUE"; "true"; "True"]) then Ok true
  else if decide (s ∈ ["0"; "f"; "F"; "FALSE"; "false"; "False"]) then Ok false
  else Err (errors_New ("strconv.ParseBool: parsing " +:+ Quote s +:+ ": invalid syntax")).

(** [%q] of the rune [name[0]], where [name] is [string(c)] of a byte: a byte
    from 128 on is the first of two. *)
Definition quoteRune (c : ascii) : string :=
  let z := code c in
  let quoted :=
    if z =? 39 then [chr 92; c]
    else if z =? 34 then [c]
    else if z <? 128 then quote1 c
    else [chr 195; chr (if z <? 192 then 130 else 131)] in
  of_chars (chr 39 :: quoted ++ [chr 39])%list.

Definition invalidSyntax (s : string) : error := errors_New ("bad flag syntax: " +:+ s).
Definition unknownFlag (name : string) : error := errors_New ("unknown flag: --" +:+ name).
Definition unknownShorthand (c : ascii) (shorthands : string) : error :=
  errors_New ("unknown shorthand flag: " +:+ quoteRune c +:+ " in -" +:+ shorthands).
Definition valueRequired (name : string) : error := errors_New ("flag needs an argument: --" +:+ name).
Definition shorthandValueRequired (c : ascii) (shorthands : string) : error :=
  errors_New ("flag needs an argument: " +:+ quoteRune c +:+ " in -" +:+ shorthands).
Definition invalidValue (fl : Flag) (v : string) (cause : error) : error :=
  let flagName := if decide (Shorthand fl <> "") then "-" +:+ Shorthand fl +:+ ", --" +:+ Name fl else "--" +:+ Name fl in
  errors_Wrap ("invalid argument " +:+ Quote v +:+ " for " +:+ Quote flagName +:+ " flag: " +:+ Error cause) cause.

(** [FlagSet.Set] on a flag of the set. *)
Definition setValue (fl : Flag) (v : string) : res Flag :=
  new ← (match Value fl with
         | boolValue _ => boolValue <$> res_wrap (invalidValue fl v) (ParseBool v)
         | stringValue _ => Ok (stringValue v)
         end);
  Ok {| Name := Name fl; Shorthand := Shorthand fl; NoOptDefVal := NoOptDefVal fl; Value := new |}.
Definition Set_ (f : FlagSet) (fl : Flag) (v : string) : res FlagSet :=
  new ← setValue fl v;
  Ok {| formal := (fun g => if decide (Name g = Name fl) then new else g) <$> formal f; args := args f |}.

(** [s] starts with two dashes; the arguments left. *)
Definition parseLongArg (f : FlagSet) (s : string) (rest : list string) : res (list string * FlagSet) :=
  let name := of_chars (drop 2 (chars s)) in
  if bool_decide (name = "") || HasPrefix name "-" || HasPrefix name "=" then Err (invalidSyntax s)
  else
    let '(name, given) := match Cut name "="%char with Some (n, v) => (n, Some v) | None => (name, None) end in
    match Lookup f name with
    | None => Err (unknownFlag name)
    | Some fl =>
        match given with
        | Some v => f ← Set_ f fl v; Ok (rest, f)
        | None =>
            if decide (NoOptDefVal fl <> "") then f ← Set_ f fl (NoOptDefVal fl); Ok (rest, f)
            else match rest with
                 | v :: rest => f ← Set_ f fl v; Ok (rest, f)
                 | [] => Err (valueRequired name)
                 end
        end
    end.

(** One shorthand: the shorthands left, the arguments left. *)
Definition parseSingleShortArg (f : FlagSet) (shorthands : string) (rest : list string)
    : res (string * list string * FlagSet) :=
  match shorthands with
  | EmptyString => Ok ("", rest, f)
  | String c left_ =>
      if HasPrefix shorthands "test." then Ok ("", rest, f)
      else
        match shorthandLookup f c with
        | None => Err (unknownShorthand c shorthands)
        | Some fl =>
            if HasPrefix left_ "=" && (1 <? len left_) then
              f ← Set_ f fl (of_chars (drop 1 (chars left_))); Ok ("", rest, f)
            else if decide (NoOptDefVal fl <> "") then f ← Set_ f fl (NoOptDefVal fl); Ok (left_, rest, f)
            else if decide (left_ <> "") then f ← Set_ f fl left_; Ok ("", rest, f)
            else match rest with
                 | v :: rest => f ← Set_ f fl v; Ok ("", rest, f)
                 | [] => Err (shorthandValueRequired c shorthands)
                 end
        end
  end.
(** Each turn is given all the arguments again. *)
Fixpoint shortLoop (fuel : nat) (f : FlagSet) (shorthands : string) (all rest : list string) : res (list string * FlagSet) :=
  match fuel with
  | O => Ok (rest, f)
  | S fuel =>
      if decide (shorthands = "") then Ok (rest, f)
      else '(shorthands, rest, f) ← parseSingleShortArg f shorthands all; shortLoop fuel f shorthands all rest
  end.
Definition parseShortArg (f : FlagSet) (s : string) (rest : list string) : res (list string * FlagSet) :=
  let shorthands := of_chars (drop 1 (chars s)) in shortLoop (String.length shorthands) f shorthands rest rest.

Definition addArgs (f : FlagSet) (more : list string) : FlagSet := {| formal := formal f; args := (args f ++ more)%list |}.
Fixpoint parseArgs (fuel : nat) (f : FlagSet) (arguments : list string) : res FlagSet :=
  match fuel, arguments with
  | S fuel, s :: rest =>
      if negb (HasPrefix s "-") || (len s =? 1) then parseArgs fuel (addArgs f [s]) rest
      else if HasPrefix s "--" then
        if len s =? 2 then Ok (addArgs f rest)
        else '(rest, f) ← parseLongArg f s rest; parseArgs fuel f rest
      else '(rest, f) ← parseShortArg f s rest; parseArgs fuel f rest
  | _, _ => Ok f
  end.
Definition Parse (f : FlagSet) (arguments : list string) : res FlagSet :=
  parseArgs (length arguments) {| formal := formal f; args := [] |} arguments.
End parse.
End pflag.

(** ** [main.go] *)

Module cli.
Import pflag.

Record cliOptions := { help : bool; version : bool; configPath : string }.

Section cli.
Context `{Unicode}.

Definition flags : FlagSet :=
  {| formal := [BoolVarP "help" "h"; StringVarP "config" "c"; BoolVarP "version" ""]; args := [] |}.
Definition parseCLI (arguments : list string) : res cliOptions :=
  f ← Parse flags arguments;
  if decide (args f <> []) then Err (errors_New ("unexpected arguments: " +:+ Join (args f) " "))
  else Ok {| help := GetBool f "help"; version := GetBool f "version"; configPath := GetString f "config" |}.
End cli.

Definition newline : string := String (chr 10) "".
Definition printVersion (value : string) : string := "doppelgaenger " +:+ value +:+ newline.
Definition printUsage (name : string) : string :=
  Join ["Usage: " +:+ name +:+ " [--help|-h] [--version] [--config|-c <path>]"; "Doppelgaenger Shadow Proxy"; "";
        "Command-line options:"; "  --config, -c <path>  Path to the YAML config file";
        "  --version           Print the build version and exit"; "  --help, -h          Show this help"; "";
        "Configuration lookup order:"; "  1) --config / -c"; "  2) CONFIG_FILE environment variable";
        "  3) ./config.yaml"; "  4) /etc/doppelgaenger/config.yaml"; ""] newline.

(** ** Specification: the documented spellings *)

Inductive word :=
  | LongHelp | ShortHelp | LongVersion
  | LongConfig (path : string) | LongConfigEq (path : string)
  | ShortConfig (path : string) | ShortConfigEq (path : string) | ShortConfigJoined (path : string)
  | Positional (text : string).
Definition spell (w : word) : list string :=
  match w with
  | LongHelp => ["--help"] | ShortHelp => ["-h"] | LongVersion => ["--version"]
  | LongConfig p => ["--config"; p] | LongConfigEq p => ["--config=" +:+ p]
  | ShortConfig p => ["-c"; p] | ShortConfigEq p => ["-c=" +:+ p] | ShortConfigJoined p => ["-c" +:+ p]
  | Positional a => [a]
  end.
Definition word_ok (w : word) : Prop :=
  match w with
  | ShortConfigEq p => p <> ""
  | ShortConfigJoined p => p <> "" /\ HasPrefix p "=" = false
  | Positional a => HasPrefix a "-" = false \/ a = "-"
  | _ => True
  end.
Definition apply_word (o : cliOptions) (w : word) : cliOptions :=
  match w with
  | LongHelp | ShortHelp => {| help := true; version := version o; configPath := configPath o |}
  | LongVersion => {| help := help o; version := true; configPath := configPath o |}
  | LongConfig p | LongConfigEq p | ShortConfig p | ShortConfigEq p | ShortConfigJoined p =>
      {| help := help o; version := version o; configPath := p |}
  | Positional _ => o
  end.
Definition positionals (l : list word) : list string :=
  omap (fun w => match w with Positional a => Some a | _ => None end) l.
Definition noOptions : cliOptions := {| help := false; version := false; configPath := "" |}.

Section lemmas.
Context `{Unicode}.

(** The flag set that holds [o]. *)
Definition holding (o : cliOptions) (rest : list string) : FlagSet :=
  {| formal := [{| Name := "help"; Shorthand := "h"; NoOptDefVal := "true"; Value := boolValue (help o) |};
                {| Name := "config"; Shorthand := "c"; NoOptDefVal := ""; Value := stringValue (configPath o) |};
                {| Name := "version"; Shorthand := ""; NoOptDefVal := "true"; Value := boolValue (version o) |}];
     args := rest |}.

Lemma parseLong_config o rest p more : parseLongArg (holding o rest) ("--config=" +:+ p) more
  = Ok (more, holding {| help := help o; version := version o; configPath := p |} rest).
Proof.
  unfold parseLongArg. change (of_chars (drop 2 (chars ("--config=" +:+ p)))) with (of_chars (chars ("config=" +:+ p))).
  rewrite of_chars_chars. change ("config=" +:+ p) with ("config" +:+ String "=" p).
  rewrite (proj2 (Cut_some _ "config" p "=")) by (split; [done|by vm_compute; set_solver]). by vm_compute.
Qed.

Lemma len_nonzero s : s <> "" -> 1 <= len s.
Proof. destruct s as [|c s]; [done|]. intros _. unfold len. change (String.length (String c s)) with (S (String.length s)). lia. Qed.
Lemma parseShort_config o rest p more :
  (p <> "" -> parseShortArg (holding o rest) ("-c=" +:+ p) more
     = Ok (more, holding {| help := help o; version := version o; configPath := p |} rest)) /\
  (p <> "" -> HasPrefix p "=" = false -> parseShortArg (holding o rest) ("-c" +:+ p) more
     = Ok (more, holding {| help := help o; version := version o; configPath := p |} rest)).
Proof.
  unfold parseShortArg. split; intros Hne.
  - change (of_chars (drop 1 (chars ("-c=" +:+ p)))) with (of_chars (chars ("c=" +:+ p))). rewrite of_chars_chars.
    change (String.length ("c=" +:+ p)) with (S (S (String.length p))). cbn [shortLoop]. rewrite decide_False by done.
    unfold parseSingleShortArg. change ("c=" +:+ p) with (String "c" ("=" +:+ p)).
    change (HasPrefix (String "c" ("=" +:+ p)) "test.") with false. cbv iota.
    change (HasPrefix ("=" +:+ p) "=") with (HasPrefix p ""). assert (HasPrefix p "" = true) as -> by (by destruct p).
    assert (1 <? len ("=" +:+ p) = true) as ->.
    { pose proof (len_nonzero p Hne). assert (len ("=" +:+ p) = 1 + len p) by
        (unfold len; change (String.length ("=" +:+ p)) with (S (String.length p)); lia). lia. }
    change (of_chars (drop 1 (chars ("=" +:+ p)))) with (of_chars (chars p)). rewrite of_chars_chars. by destruct p.
  - intros Heq. change (of_chars (drop 1 (chars ("-c" +:+ p)))) with (of_chars (chars ("c" +:+ p))). rewrite of_chars_chars.
    change (String.length ("c" +:+ p)) with (S (String.length p)). cbn [shortLoop]. rewrite decide_False by done.
    unfold parseSingleShortArg. change ("c" +:+ p) with (String "c" p).
    change (HasPrefix (String "c" p) "test.") with false. cbv iota. rewrite Heq. cbn [andb].
    by destruct p as [|c p].
Qed.

Lemma parseArgs_dashes n f name more :
  name <> "" -> parseArgs (S n) f (("--" +:+ name) :: more)
    = ('(rest, f) ← parseLongArg f ("--" +:+ name) more; parseArgs n f rest).
Proof.
  intros Hne. pose proof (len_nonzero name Hne). cbn [parseArgs].
  assert (len ("--" +:+ name) = 2 + len name) as -> by (unfold len; change (String.length ("--" +:+ name)) with (S (S (String.length name))); lia).
  change (HasPrefix ("--" +:+ name) "-") with (HasPrefix ("-" +:+ name) "").
  change (HasPrefix ("--" +:+ name) "--") with (HasPrefix name "").
  assert (forall s, HasPrefix s "" = true) as Hp by (by intros []). rewrite !Hp.
  assert (2 + len name =? 1 = false) as -> by lia. assert (2 + len name =? 2 = false) as -> by lia. done.
Qed.
Lemma parseArgs_dash n f name more :
  name <> "" -> HasPrefix name "-" = false -> parseArgs (S n) f (("-" +:+ name) :: more)
    = ('(rest, f) ← parseShortArg f ("-" +:+ name) more; parseArgs n f rest).
Proof.
  intros Hne Hd. pose proof (len_nonzero name Hne). cbn [parseArgs].
  assert (len ("-" +:+ name) = 1 + len name) as -> by (unfold len; change (String.length ("-" +:+ name)) with (S (String.length name)); lia).
  change (HasPrefix ("-" +:+ name) "-") with (HasPrefix name "").
  change (HasPrefix ("-" +:+ name) "--") with (HasPrefix name "-").
  assert (forall s, HasPrefix s "" = true) as Hp by (by intros []). rewrite Hp, Hd.
  assert (1 + len name =? 1 = false) as -> by lia. done.
Qed.

(** The flag set after the arguments of a word. *)
Definition after (w : word) (o : cliOptions) (rest : list string) : FlagSet :=
  holding (apply_word o w) (rest ++ match w with Positional a => [a] | _ => [] end)%list.
Lemma parse_word fuel w o rest more :
  word_ok w -> (length (spell w ++ more) <= fuel)%nat ->
  exists fuel', (length more <= fuel')%nat /\ parseArgs fuel (holding o rest) (spell w ++ more) = parseArgs fuel' (after w o rest) more.
Proof.
  intros Hok Hf. rewrite length_app in Hf. assert (1 <= length (spell w))%nat as H1 by (destruct w; cbn; lia).
  destruct fuel as [|n]; [lia|]. exists n. split; [lia|]. clear Hf H1. unfold after.
  destruct w; cbn [spell app]; rewrite ?app_nil_r.
  1-4, 6: reflexivity.
  - change ("--config=" +:+ path) with ("--" +:+ "config=" +:+ path).
    rewrite (parseArgs_dashes n (holding o rest) ("config=" +:+ path) more) by done.
    change ("--" +:+ "config=" +:+ path) with ("--config=" +:+ path). by rewrite parseLong_config.
  - change ("-c=" +:+ path) with ("-" +:+ "c=" +:+ path).
    rewrite (parseArgs_dash n (holding o rest) ("c=" +:+ path) more) by done.
    change ("-" +:+ "c=" +:+ path) with ("-c=" +:+ path). by rewrite (proj1 (parseShort_config o rest path more)).
  - destruct Hok as [Hne Heq]. change ("-c" +:+ path) with ("-" +:+ "c" +:+ path).
    rewrite (parseArgs_dash n (holding o rest) ("c" +:+ path) more) by done.
    change ("-" +:+ "c" +:+ path) with ("-c" +:+ path). by rewrite (proj2 (parseShort_config o rest path more)).
  - cbn [parseArgs]. destruct Hok as [->| ->]; reflexivity.
Qed.

Lemma parse_words l : forall fuel o rest, Forall word_ok l -> (length (l ≫= spell) <= fuel)%nat ->
  parseArgs fuel (holding o rest) (l ≫= spell) = Ok (holding (foldl apply_word o l) (rest ++ positionals l)%list).
Proof.
  induction l as [|w l IH]; intros fuel o rest Hok Hf.
  { cbn. rewrite app_nil_r. by destruct fuel. }
  apply Forall_cons in Hok as [Hw Hok]. change ((w :: l) ≫= spell) with (spell w ++ (l ≫= spell))%list in *.
  destruct (parse_word fuel w o rest (l ≫= spell) Hw Hf) as (fuel' & Hf' & ->). unfold after.
  rewrite IH by done. cbn [foldl]. rewrite <- app_assoc. by destruct w.
Qed.

(** C34. The command line means what the usage text says.  Any sequence of the
    documented options, in any order and any of their spellings, is read one
    after the other, the last [--config] winning; arguments that are no options
    are refused, wherever they stand. *)
Theorem parseCLI_words (l : list word) :
  Forall word_ok l ->
  parseCLI (l ≫= spell) =
    if decide (positionals l = []) then Ok (foldl apply_word noOptions l)
    else Err (errors_New ("unexpected arguments: " +:+ Join (positionals l) " ")).
Proof.
  intros Hok. unfold parseCLI, Parse. change {| formal := formal flags; args := [] |} with (holding noOptions []).
  rewrite (parse_words l _ _ [] Hok) by done. cbn [mbind res_bind app args holding].
  destruct (decide (positionals l = [])) as [E|E].
  - rewrite decide_False by (intros Hn; by apply Hn). by destruct (foldl apply_word noOptions l).
  - by rewrite decide_True by done.
Qed.
End lemmas.

Lemma parseCLI_words_witness :
  parseCLI (H := asciiUnicode) ["--config=a.yaml"; "-h"; "-cb.yaml"] = Ok {| help := true; version := false; configPath := "b.yaml" |} /\
  parseCLI (H := asciiUnicode) ["-c"; "--help"; "x"] = Err (errors_New "unexpected arguments: x").
Proof.
  split.
  - pose proof (parseCLI_words (H := asciiUnicode) [LongConfigEq "a.yaml"; ShortHelp; ShortConfigJoined "b.yaml"]
      ltac:(repeat constructor; vm_compute; discriminate)) as E. exact E.
  - pose proof (parseCLI_words (H := asciiUnicode) [ShortConfig "--help"; Positional "x"]
      ltac:(repeat constructor; by vm_compute)) as E. exact E.
Defined.

(** What [pflag] leaves unsaid: an argument that starts with [-test.] is dropped
    without a word, and [-c=] names a file called [=]. *)
Example dropped_argument : parseCLI (H := asciiUnicode) ["-test.v"] = Ok noOptions.
Proof. vm_compute. reflexivity. Qed.
Example empty_short_value :
  parseCLI (H := asciiUnicode) ["-c="] = Ok {| help := false; version := false; configPath := "=" |}.
Proof. vm_compute. reflexivity. Qed.
Example group_of_shorthands :
  parseCLI (H := asciiUnicode) ["-hc"; "f"] = Ok {| help := true; version := false; configPath := "f" |}.
Proof. vm_compute. reflexivity. Qed.
Example unknown_flag :
  parseCLI (H := asciiUnicode) ["-x"] = Err (errors_New "unknown shorthand flag: 'x' in -x").
Proof. vm_compute. reflexivity. Qed.
End cli.
