(* ===== verification/GoFlag.v ===== *)
(** * Go's [flag] package, as the test programs use it

    [FlagSet.Parse] over flags that write to a configuration, and the integers of
    [strconv.ParseInt] with base 0.  The usage text is left out. *)
From S2P Require Export CommandLine.

Module goflag.

(** ** [strconv.ParseInt(s, 0, 64)] *)

Inductive numError := ErrSyntax | ErrRange.

(** The base a prefix names, and the digits behind it. *)
Definition basePrefix (l : list ascii) : Z * list ascii :=
  match l with
  | "0"%char :: c :: d :: rest =>
      if decide (lower1 c = "b"%char) then (2, d :: rest)
      else if decide (lower1 c = "o"%char) then (8, d :: rest)
      else if decide (lower1 c = "x"%char) then (16, d :: rest)
      else (8, c :: d :: rest)
  | "0"%char :: rest => (8, rest)
  | _ => (10, l)
  end.
Definition digit (c : ascii) : option Z :=
  let z := code (lower1 c) in
  if (48 <=? z) && (z <=? 57) then Some (z - 48) else if (97 <=? z) && (z <=? 122) then Some (z - 87) else None.
Fixpoint parseDigits (base : Z) (l : list ascii) (n : Z) : numError + Z :=
  match l with
  | [] => inr n
  | "_"%char :: l => parseDigits base l n
  | c :: l =>
      match digit c with
      | Some d =>
          if base <=? d then inl ErrSyntax
          else if 2 ^ 64 - 1 <? n * base + d then inl ErrRange else parseDigits base l (n * base + d)
      | None => inl ErrSyntax
      end
  end.
(** Underscores stand between digits, or between the prefix and a digit; [before]
    is what stands before: the start, a digit, an underscore, or something else. *)
Inductive seen := AtStart | ADigit | AnUnderscore | Other.
#[export] Instance seen_eq_dec : EqDecision seen.
Proof. solve_decision. Defined.
Fixpoint underscores (hex : bool) (before : seen) (l : list ascii) : bool :=
  match l with
  | [] => negb (bool_decide (before = AnUnderscore))
  | c :: l =>
      let z := code (lower1 c) in
      if ((48 <=? z) && (z <=? 57)) || (hex && (97 <=? z) && (z <=? 102)) then underscores hex ADigit l
      else if decide (c = "_"%char) then bool_decide (before = ADigit) && underscores hex AnUnderscore l
      else negb (bool_decide (before = AnUnderscore)) && underscores hex Other l
  end.
Definition underscoreOK (l : list ascii) : bool :=
  match l with
  | "0"%char :: c :: rest =>
      if decide (lower1 c ∈ ["b"; "o"; "x"]%char) then underscores (bool_decide (lower1 c = "x"%char)) ADigit rest
      else underscores false AtStart l
  | _ => underscores false AtStart l
  end.
Definition ParseUint (l : list ascii) : numError + Z :=
  match l with
  | [] => inl ErrSyntax
  | _ =>
      let '(base, digits) := basePrefix l in
      match parseDigits base digits 0 with
      | inr n => if negb (underscoreOK l) then inl ErrSyntax else inr n
      | inl e => inl e
      end
  end.
Definition ParseInt (s : string) : numError + Z :=
  let '(neg, l) := match chars s with
                   | "+"%char :: l => (false, l) | "-"%char :: l => (true, l) | l => (false, l) end in
  match ParseUint l with
  | inl e => inl e
  | inr n =>
      if neg then if 2 ^ 63 <? n then inl ErrRange else inr (- n)
      else if 2 ^ 63 <=? n then inl ErrRange else inr n
  end.

(** ** [flag.go] *)

(** A flag of a program whose flags write to [C]. *)
Record Flag (C : Type) := { Name : string; IsBoolFlag : bool; Set_ : string -> C -> res C }.
Arguments Name {C} _.
Arguments IsBoolFlag {C} _.
Arguments Set_ {C} _.

Section flag.
Context `{Unicode} {C : Type}.
Implicit Types (flags : list (Flag C)) (c : C).

Definition errParse : error := errors_New "parse error".
Definition errRange : error := errors_New "value out of range".
Definition StringVar (name : string) (put : string -> C -> C) : Flag C :=
  {| Name := name; IsBoolFlag := false; Set_ v c := Ok (put v c) |}.
Definition BoolVar (name : string) (put : bool -> C -> C) : Flag C :=
  {| Name := name; IsBoolFlag := true;
     Set_ v c := match pflag.ParseBool v with Ok b => Ok (put b c) | Err _ => Err errParse end |}.
Definition IntVar (name : string) (put : Z -> C -> C) : Flag C :=
  {| Name := name; IsBoolFlag := false;
     Set_ v c := match ParseInt v with inr n => Ok (put n c) | inl ErrSyntax => Err errParse | inl ErrRange => Err errRange end |}.
Definition DurationVar (time_ParseDuration : string -> option Z) (name : string) (put : Z -> C -> C) : Flag C :=
  {| Name := name; IsBoolFlag := false;
     Set_ v c := match time_ParseDuration v with Some d => Ok (put d c) | None => Err errParse end |}.
Definition Func (name : string) (fn : string -> C -> res C) : Flag C :=
  {| Name := name; IsBoolFlag := false; Set_ := fn |}.

Definition ErrHelp : error := errors_New "flag: help requested".
Definition lookup flags (name : string) : option (Flag C) := snd <$> list_find (fun f => Name f = name) flags.
(** [failf]: the error of a value. *)
Definition invalid (what value name : string) (e : error) : error :=
  errors_New ("invalid " +:+ what +:+ " " +:+ Quote value +:+ " for " +:+ name +:+ ": " +:+ Error e).

(** Whether a flag was seen, what it wrote, and the arguments left. *)
Definition parseOne flags c (args : list string) : res (bool * C * list string) :=
  match args with
  | [] => Ok (false, c, [])
  | s :: rest =>
      if (len s <? 2) || negb (HasPrefix s "-") then Ok (false, c, args)
      else if decide (s = "--") then Ok (false, c, rest)
      else
        let name := of_chars (drop (if HasPrefix s "--" then 2 else 1) (chars s)) in
        if bool_decide (name = "") || HasPrefix name "-" || HasPrefix name "=" then
          Err (errors_New ("bad flag syntax: " +:+ s))
        else
          let '(name, value) := match Cut name "="%char with Some (name, value) => (name, Some value) | None => (name, None) end in
          match lookup flags name with
          | None =>
              if decide (name = "help" \/ name = "h") then Err ErrHelp
              else Err (errors_New ("flag provided but not defined: -" +:+ name))
          | Some f =>
              if IsBoolFlag f then
                match value with
                | Some v => c ← res_wrap (invalid "boolean value" v ("-" +:+ name)) (Set_ f v c); Ok (true, c, rest)
                | None =>
                    c ← res_wrap (fun e => errors_New ("invalid boolean flag " +:+ name +:+ ": " +:+ Error e)) (Set_ f "true" c);
                    Ok (true, c, rest)
                end
              else
                match value, rest with
                | Some v, _ => c ← res_wrap (invalid "value" v ("flag -" +:+ name)) (Set_ f v c); Ok (true, c, rest)
                | None, v :: rest => c ← res_wrap (invalid "value" v ("flag -" +:+ name)) (Set_ f v c); Ok (true, c, rest)
                | None, [] => Err (errors_New ("flag needs an argument: -" +:+ name))
                end
          end
  end.
(** Every flag takes an argument, so their number is fuel enough. *)
Fixpoint parseAll (fuel : nat) flags c (args : list string) : res (C * list string) :=
  match fuel with
  | O => Ok (c, args)
  | S fuel =>
      '(seen, c, rest) ← parseOne flags c args;
      if seen : bool then parseAll fuel flags c rest else Ok (c, rest)
  end.
Definition Parse flags c (args : list string) : res (C * list string) := parseAll (S (length args)) flags c args.

(** ** Lemmas *)

(** A flag seen uses up an argument. *)
Lemma parseOne_shorter flags c args c' rest : parseOne flags c args = Ok (true, c', rest) -> (length rest < length args)%nat.
Proof.
  destruct args as [|s args]; [done|]. cbn [parseOne length]. destruct (_ || _); [done|]. destruct (decide _); [done|].
  destruct (_ || _); [done|]. destruct (match Cut _ _ with Some _ => _ | None => _ end) as [name value].
  destruct (lookup flags name) as [f|]; [|by destruct (decide _)].
  destruct (IsBoolFlag f), value as [v|], args as [|v' args]; intros E; try done;
    apply res_bind_ok in E as (? & _ & [= _ <-]); cbn; lia.
Qed.
Lemma parseAll_fuel flags fuel : forall fuel' c args, (length args < fuel)%nat -> (length args < fuel')%nat ->
  parseAll fuel flags c args = parseAll fuel' flags c args.
Proof.
  induction fuel as [|fuel IH]; intros [|fuel'] c args H1 H2; [lia..|]. cbn [parseAll].
  destruct (parseOne flags c args) as [[[[] c'] rest]|e] eqn:E; [|done..]. cbn.
  apply parseOne_shorter in E. apply IH; lia.
Qed.

(** A flag given as [-name value] or [-name=value], with one dash or two. *)
Inductive spelled (f : Flag C) (v : string) : list string -> Prop :=
  | spelled_one : spelled f v ["-" +:+ Name f; v]
  | spelled_two : spelled f v ["--" +:+ Name f; v]
  | spelled_eq : spelled f v ["-" +:+ Name f +:+ "=" +:+ v]
  | spelled_two_eq : spelled f v ["--" +:+ Name f +:+ "=" +:+ v].
(** A name a flag can be given by. *)
Definition plain_name (name : string) : Prop :=
  name <> "" /\ HasPrefix name "-" = false /\ "="%char ∉ chars name.

Lemma plain_cut name v : plain_name name -> Cut name "="%char = None /\ Cut (name +:+ "=" +:+ v) "="%char = Some (name, v).
Proof. intros (_ & _ & Hn). split; [by apply Cut_none|]. apply Cut_some. done. Qed.
Lemma HasPrefix1 a b s : HasPrefix (String a s) (String b "") = bool_decide (b = a).
Proof.
  unfold HasPrefix. change (String.prefix (String b "") (String a s)) with (if ascii_dec b a then String.prefix "" s else false).
  destruct (ascii_dec b a) as [->|Hn]; [rewrite bool_decide_true by done; by destruct s|by rewrite bool_decide_false].
Qed.
Lemma plain_start name k : plain_name name ->
  bool_decide (name +:+ k = "") || HasPrefix (name +:+ k) "-" || HasPrefix (name +:+ k) "=" = false.
Proof.
  intros (Hn & Hd & He). destruct name as [|a name]; [done|]. change (String a name +:+ k) with (String a (name +:+ k)).
  rewrite HasPrefix1 in Hd |- *. rewrite HasPrefix1, Hd. rewrite !bool_decide_false; [done| |done].
  intros <-. apply He. apply list_elem_of_here.
Qed.

(** The name of an argument with one dash or two. *)
Lemma dashed d name k : d ∈ ["-"; "--"] -> plain_name name ->
  let s := d +:+ name +:+ k in
  (len s <? 2) || negb (HasPrefix s "-") = false /\ s <> "--" /\
  of_chars (drop (if HasPrefix s "--" then 2 else 1) (chars s)) = name +:+ k.
Proof.
  intros Hd (Hn & Hp & _). rewrite !elem_of_cons, elem_of_nil in Hd. destruct name as [|a name]; [done|].
  rewrite HasPrefix1 in Hp. apply bool_decide_eq_false in Hp.
  set (t := name +:+ k). change (String a name +:+ k) with (String a t). cbv zeta.
  assert (Hl : forall u, (len (String "-" (String a u)) <? 2) = false).
  { intros u. apply Z.ltb_ge. unfold len. change (String.length (String "-" (String a u))) with (S (S (String.length u))). lia. }
  destruct Hd as [->|[->|[]]].
  - change ("-" +:+ String a t) with (String "-" (String a t)). rewrite Hl, HasPrefix1. split_and!; [done|congruence|].
    assert (HasPrefix (String "-" (String a t)) "--" = false) as ->; [|apply (of_chars_chars (String a t))].
    unfold HasPrefix. change (String.prefix "--" (String "-" (String a t))) with (HasPrefix (String a t) "-").
    rewrite HasPrefix1. by rewrite bool_decide_false.
  - change ("--" +:+ String a t) with (String "-" (String "-" (String a t))). rewrite HasPrefix1. split_and!; [|congruence|].
    + apply orb_false_intro; [|done]. apply Z.ltb_ge. unfold len.
      change (String.length (String "-" (String "-" (String a t)))) with (S (S (S (String.length t)))). lia.
    + assert (HasPrefix (String "-" (String "-" (String a t))) "--" = true) as ->; [|apply (of_chars_chars (String a t))].
      unfold HasPrefix. change (String.prefix "--" (String "-" (String "-" (String a t)))) with (String.prefix "" (String a t)). done.
Qed.

(** However it is spelled, a flag with a value is set to it, and nothing else is
    consumed. *)
Lemma parseOne_spelled flags f v c args more :
  lookup flags (Name f) = Some f -> IsBoolFlag f = false -> plain_name (Name f) -> spelled f v args ->
  parseOne flags c (args ++ more) = (c ← res_wrap (invalid "value" v ("flag -" +:+ Name f)) (Set_ f v c); Ok (true, c, more)).
Proof.
  intros Hl Hb Hn Hs. destruct (plain_cut (Name f) v Hn) as [C1 C2].
  assert (G : forall d k value, d ∈ ["-"; "--"] -> Cut (Name f +:+ k) "="%char = value ->
    match value with Some (n, _) => n = Name f | None => k = "" end ->
    forall rest, parseOne flags c ((d +:+ Name f +:+ k) :: rest) =
      match match value with Some (_, v) => Some v | None => None end, rest with
      | Some v, _ => c ← res_wrap (invalid "value" v ("flag -" +:+ Name f)) (Set_ f v c); Ok (true, c, rest)
      | None, v :: rest => c ← res_wrap (invalid "value" v ("flag -" +:+ Name f)) (Set_ f v c); Ok (true, c, rest)
      | None, [] => Err (errors_New ("flag needs an argument: -" +:+ Name f))
      end).
  { intros d k value Hd Hc Hv rest. destruct (dashed d (Name f) k Hd Hn) as (D1 & D2 & D3). cbn [parseOne].
    rewrite D1, decide_False by done. cbv zeta. rewrite D3, (plain_start _ k Hn), Hc.
    destruct value as [[n v']|]; [subst n; by rewrite Hl, Hb|]. subst k. rewrite app_empty_r, Hl, Hb. by destruct rest. }
  assert (forall s, s +:+ "" = s) as Hnil by apply app_empty_r.
  destruct Hs.
  - pose proof (G "-" "" None ltac:(set_solver) ltac:(by rewrite Hnil) eq_refl) as G'. rewrite Hnil in G'. apply (G' (v :: more)).
  - pose proof (G "--" "" None ltac:(set_solver) ltac:(by rewrite Hnil) eq_refl) as G'. rewrite Hnil in G'. apply (G' (v :: more)).
  - exact (G "-" ("=" +:+ v) _ ltac:(set_solver) C2 eq_refl more).
  - exact (G "--" ("=" +:+ v) _ ltac:(set_solver) C2 eq_refl more).
Qed.
(** A command line of such flags sets them one after the other. *)
Fixpoint setAll (l : list (Flag C * string * list string)) c : res C :=
  match l with
  | [] => Ok c
  | (f, v, _) :: l => c ← res_wrap (invalid "value" v ("flag -" +:+ Name f)) (Set_ f v c); setAll l c
  end.
Lemma Parse_spelled flags l c :
  Forall (fun x : Flag C * string * list string => lookup flags (Name x.1.1) = Some x.1.1 /\ IsBoolFlag x.1.1 = false /\
            plain_name (Name x.1.1) /\ spelled x.1.1 x.1.2 x.2) l ->
  Parse flags c (l ≫= snd) = (c ← setAll l c; Ok (c, [])).
Proof.
  unfold Parse. generalize (S (length (l ≫= snd))) (Nat.lt_succ_diag_r (length (l ≫= snd))). intros fuel Hf Hl. revert fuel Hf c.
  induction Hl as [|[[f v] args] l (H1 & H2 & H3 & H4) Hl IH]; intros [|fuel] Hf c; [lia|done|lia|]. cbn [fst snd] in *.
  change (((f, v, args) :: l) ≫= snd) with (args ++ (l ≫= snd))%list in *. cbn [parseAll setAll].
  rewrite (parseOne_spelled flags f v c args _ H1 H2 H3 H4).
  destruct (res_wrap _ (Set_ f v c)) as [c'|e]; [|done]. cbn. apply IH. rewrite length_app in Hf.
  assert (length args <> 0)%nat by (by destruct H4). lia.
Qed.
End flag.

(** The integers a flag takes. *)
Example ParseInt_examples :
  ParseInt "42" = inr 42 /\ ParseInt "-0x1F" = inr (-31) /\ ParseInt "0b1_01" = inr 5 /\ ParseInt "017" = inr 15 /\
  ParseInt "1__0" = inl ErrSyntax /\ ParseInt "9223372036854775808" = inl ErrRange /\ ParseInt "-9223372036854775808" = inr (- 2 ^ 63).
Proof. by vm_compute. Qed.
End goflag.
