(* ===== verification/Load.v ===== *)
(** * [config.Load]: where a configuration comes from

    The file search, the formats and the two reads of the vendored viper
    ([vendor/github.com/spf13/viper]), and [Load] of [internal/config/config.go].
    The file system and the decoders of file formats, of structs and of YAML
    nodes are outside: parameters.  A file may change between the two reads. *)
From S2P Require Export ConfigSpec JsonLogFields.

(** ** viper *)

Module viper.
Import grpcconfig config.

Definition SupportedExts : list string :=
  ["json"; "toml"; "yaml"; "yml"; "properties"; "props"; "prop"; "hcl"; "tfvars"; "dotenv"; "env"; "ini"].

Inductive Codec := yaml_Codec | json_Codec | toml_Codec | dotenv_Codec.

(** [Settings] is a [map[string]any] with its keys in lower case. *)
Class Files (Settings : Type) := {
  Stat : string -> option bool;                (* whether it is a directory; [None] is an error *)
  ReadFile : nat -> string -> res string;      (* the contents at a read of the process *)
  absPathify : string -> string;
  Decode : Codec -> string -> res Settings;
  emptySettings : Settings
}.

(** *** [filepath.Ext] and [filepath.Join] of a clean directory and a name *)

Definition Ext (path : string) : string :=
  let fix go (l : list ascii) (acc : list ascii) : list ascii :=
    match l with
    | [] => []
    | c :: l => if decide (c = "/"%char) then [] else if decide (c = "."%char) then c :: acc else go l (c :: acc)
    end in
  of_chars (go (reverse (chars path)) []).
Definition filepath_Join (dir name : string) : string :=
  if decide (dir = "") then name else if HasSuffix dir "/" then dir +:+ name else dir +:+ "/" +:+ name.

Section viper.
Context `{Unicode} {Settings : Type} `{Files Settings}.

Record Viper := {
  configPaths : list string; configName : string; configFile : string; configType : string;
  settings : Settings; defaults : list (string * defaultValue)
}.
Definition New : Viper :=
  {| configPaths := []; configName := "config"; configFile := ""; configType := ""; settings := emptySettings; defaults := [] |}.
Definition SetConfigFile (v : Viper) (path : string) : Viper :=
  if decide (path = "") then v else
  {| configPaths := configPaths v; configName := configName v; configFile := path; configType := configType v;
     settings := settings v; defaults := defaults v |}.
Definition SetConfigName (v : Viper) (name : string) : Viper :=
  if decide (name = "") then v else
  {| configPaths := configPaths v; configName := name; configFile := ""; configType := configType v;
     settings := settings v; defaults := defaults v |}.
Definition SetConfigType (v : Viper) (t : string) : Viper :=
  if decide (t = "") then v else
  {| configPaths := configPaths v; configName := configName v; configFile := configFile v; configType := t;
     settings := settings v; defaults := defaults v |}.
Definition AddConfigPath (v : Viper) (path : string) : Viper :=
  if decide (path = "") then v else
  let abs := absPathify path in
  if decide (abs ∈ configPaths v) then v else
  {| configPaths := (configPaths v ++ [abs])%list; configName := configName v; configFile := configFile v;
     configType := configType v; settings := settings v; defaults := defaults v |}.
Definition withDefaults (v : Viper) (d : list (string * defaultValue)) : Viper :=
  {| configPaths := configPaths v; configName := configName v; configFile := configFile v; configType := configType v;
     settings := settings v; defaults := (defaults v ++ d)%list |}.
Definition withSettings (v : Viper) (s : Settings) : Viper :=
  {| configPaths := configPaths v; configName := configName v; configFile := configFile v; configType := configType v;
     settings := s; defaults := defaults v |}.

(** *** [file.go] *)

Definition exists_ (path : string) : bool := match Stat path with Some isDir => negb isDir | None => false end.
(** The loop over the extensions; the empty text is none. *)
Fixpoint searchExts (v : Viper) (in_ : string) (exts : list string) : string :=
  match exts with
  | [] => ""
  | ext :: exts =>
      let file := filepath_Join in_ (configName v +:+ "." +:+ ext) in if exists_ file then file else searchExts v in_ exts
  end.
Definition searchInPath (v : Viper) (in_ : string) : string :=
  let file := searchExts v in_ SupportedExts in
  if decide (file <> "") then file
  else if bool_decide (configType v <> "") && exists_ (filepath_Join in_ (configName v)) then filepath_Join in_ (configName v) else "".
Definition ConfigFileNotFoundError (name : string) (paths : list string) : error :=
  errors_New ("Config File " +:+ Quote name +:+ " Not Found in " +:+ Quote ("[" +:+ Join paths " " +:+ "]")).
Fixpoint findConfigFileOld (v : Viper) (paths : list string) : res string :=
  match paths with
  | [] => Err (ConfigFileNotFoundError (configName v) (configPaths v))
  | cp :: paths => let file := searchInPath v cp in if decide (file <> "") then Ok file else findConfigFileOld v paths
  end.
Definition findConfigFile (v : Viper) : res string := findConfigFileOld v (configPaths v).

(** *** [viper.go] *)

(** The file, and the viper that remembers it. *)
Definition getConfigFile (v : Viper) : res (string * Viper) :=
  if decide (configFile v = "") then file ← findConfigFile v; Ok (file, SetConfigFile v file) else Ok (configFile v, v).
Definition getConfigType (v : Viper) : string :=
  if decide (configType v <> "") then configType v
  else match getConfigFile v with
       | Err _ => ""
       | Ok (file, _) => let ext := Ext file in if 1 <? len ext then of_chars (drop 1 (chars ext)) else ""
       end.
Definition UnsupportedConfigError (t : string) : error := errors_New ("Unsupported Config Type " +:+ Quote t).
Definition ConfigParseError (e : error) : error := errors_Wrap ("While parsing config: " +:+ Error e) e.

Definition codec (format : string) : option Codec :=
  let format := ToLower format in
  if decide (format ∈ ["yaml"; "yml"]) then Some yaml_Codec
  else if decide (format = "json") then Some json_Codec
  else if decide (format = "toml") then Some toml_Codec
  else if decide (format ∈ ["dotenv"; "env"]) then Some dotenv_Codec
  else None.
Definition Decoder (format : string) : res Codec :=
  match codec format with Some c => Ok c | None => Err (errors_New "decoder not found for this format") end.

Definition unmarshalReader (v : Viper) (buf : string) : res Settings :=
  let format := ToLower (getConfigType v) in
  if decide (format = "") then Err (errors_New "cannot decode configuration: unable to determine config type")
  else if decide (format ∉ SupportedExts) then Err (UnsupportedConfigError format)
  else decoder ← res_wrap ConfigParseError (Decoder format); res_wrap ConfigParseError (Decode decoder buf).

(** [read] is the number of the read. *)
Definition ReadInConfig (read : nat) (v : Viper) : res Viper :=
  '(filename, v) ← getConfigFile v;
  if decide (getConfigType v ∉ SupportedExts) then Err (UnsupportedConfigError (getConfigType v))
  else file ← ReadFile read filename; config ← unmarshalReader v file; Ok (withSettings v config).
Definition ReadConfig (v : Viper) (buf : string) : res Viper := config ← unmarshalReader v buf; Ok (withSettings v config).
End viper.
Arguments Viper : clear implicits.
End viper.

(** ** [Load] *)

Module load.
Import grpcconfig grpcconfigspec config configspec jsonlogfields viper.

(** What [yaml.Unmarshal] makes of a file: its nodes, the pairs of the root in
    range order, and the pairs [Decode] makes of a node. *)
Record yamlDocument := {
  y_nodes : list Node;
  y_root : res (list (string * nat));
  y_fields : nat -> res (list (string * nat));
  y_map : nat -> res (list (string * string))
}.

(** [Unmarshal]: viper's [Unmarshal] of the settings over the defaults, with the
    two decode hooks. *)
Class Decoders (Settings : Type) := {
  Unmarshal : list (string * defaultValue) -> Settings -> res Config;
  yaml_Unmarshal : string -> yamlDocument
}.

Section load.
Context `{Regexp} `{Unicode} `{URLs} `{PEMFiles} {Settings : Type} `{Files Settings} `{Decoders Settings}.
Context (unq : string -> option string) (range : gmap string string -> list (string * string)).

Definition withLogFields (cfg : Config) (l : logfields.LogFieldsConfig) : Config :=
  {| c_Protocol := c_Protocol cfg; c_PrimaryBaseURLs := c_PrimaryBaseURLs cfg;
     c_PrimarySelectionMode := c_PrimarySelectionMode cfg; c_ShadowBaseURLs := c_ShadowBaseURLs cfg;
     c_ShadowSelectionMode := c_ShadowSelectionMode cfg; c_Shadow := c_Shadow cfg; c_Transport := c_Transport cfg;
     c_GRPC := c_GRPC cfg; c_Compare := c_Compare cfg; c_Runtime := c_Runtime cfg; c_PathRules := c_PathRules cfg;
     c_LogLevel := c_LogLevel cfg; c_LogFields := l; c_Observability := c_Observability cfg; c_Plain := c_Plain cfg |}.

Definition decodeAliases (raw : string) (l : logfields.LogFieldsConfig) : res logfields.LogFieldsConfig :=
  let doc := yaml_Unmarshal raw in decodeJSONLogFields (y_nodes doc) (y_fields doc) (y_map doc) (y_root doc) l.

(** The viper of a [CONFIG_FILE]. *)
Definition searching : Viper Settings :=
  AddConfigPath (AddConfigPath (SetConfigType (SetConfigName New "config") "yaml") ".") "/etc/doppelgaenger".
Definition newViper (config_file : string) : Viper Settings :=
  let configFile := TrimSpace config_file in
  if decide (configFile <> "") then SetConfigFile New configFile else searching.

Definition Load (config_file : string) : res Config :=
  let v := withDefaults (newViper config_file) setDefaults in
  v ← res_wrap (wrapped "read config") (ReadInConfig 0 v);
  raw ← res_wrap (wrapped "read config snapshot") (ReadFile 1 (configFile v));
  v ← res_wrap (wrapped "read config snapshot") (ReadConfig v raw);
  cfg ← res_wrap (wrapped "decode config") (Unmarshal (viper.defaults v) (settings v));
  fields ← decodeAliases raw (c_LogFields cfg);
  validate unq range (withLogFields cfg fields).

(** ** Specification *)

(** The files looked for without [CONFIG_FILE], in order. *)
Definition candidates (dir : string) : list string :=
  (((fun ext => filepath_Join dir ("config." +:+ ext)) <$> SupportedExts) ++ [filepath_Join dir "config"])%list.
Definition searched : list string := (candidates (absPathify ".") ++ candidates (absPathify "/etc/doppelgaenger"))%list.

(** The file a configuration is read from, and its format. *)
Definition source (config_file path format : string) : Prop :=
  let given := TrimSpace config_file in
  if decide (given <> "") then path = given /\ format = of_chars (drop 1 (chars (Ext path)))
  else format = "yaml" /\ exists i, searched !! i = Some path /\ exists_ path = true /\
    forall j p, searched !! j = Some p -> (j < i)%nat -> exists_ p <> true.

(** The settings a text holds in a format. *)
Definition decodes (format text : string) (s : Settings) : Prop :=
  exists c, codec format = Some c /\ Decode c text = Ok s.

(** [cfg] is what the text of the second read says. *)
Definition loaded (config_file : string) (cfg : Config) : Prop :=
  exists path format first text s0 s cfg0 fields,
    source config_file path format /\ format ∈ SupportedExts /\
    ReadFile 0 path = Ok first /\ decodes format first s0 /\
    ReadFile 1 path = Ok text /\ decodes format text s /\
    Unmarshal setDefaults s = Ok cfg0 /\ decodeAliases text (c_LogFields cfg0) = Ok fields /\
    validate unq range (withLogFields cfg0 fields) = Ok cfg.

(** ** The search *)

Lemma Join_nonempty dir name : name <> "" -> filepath_Join dir name <> "".
Proof. intros Hn. unfold filepath_Join. destruct dir as [|c dir]; [done|]. rewrite decide_False by done. by destruct (HasSuffix _ _). Qed.

Lemma searchExts_find v dir exts : configName v = "config" ->
  searchExts v dir exts = default "" (snd <$> list_find (fun p => exists_ p = true)
    ((fun ext => filepath_Join dir ("config." +:+ ext)) <$> exts)).
Proof.
  intros Hn. induction exts as [|ext exts IH]; [done|]. cbn [searchExts fmap list_fmap list_find]. rewrite Hn.
  change ("config" +:+ "." +:+ ext) with ("config." +:+ ext).
  destruct (exists_ _) eqn:E; [by rewrite decide_True by done|].
  rewrite decide_False by done. rewrite IH. by destruct (list_find _ _) as [[i x]|].
Qed.

Lemma list_find_app_default {A} (P : A -> Prop) `{!forall x, base.Decision (P x)} (l k : list A) :
  snd <$> list_find P (l ++ k) = match list_find P l with Some (_, x) => Some x | None => snd <$> list_find P k end.
Proof.
  induction l as [|x l IH]; [done|]. cbn [app list_find]. destruct (decide (P x)); [done|].
  rewrite <- option_fmap_compose. change (snd ∘ prod_map S id) with (fun p : nat * A => id (snd p)).
  revert IH. destruct (list_find P (l ++ k)) as [[]|], (list_find P l) as [[]|]; cbn; auto.
Qed.
Lemma find_member (l : list string) p : snd <$> list_find (fun p => exists_ p = true) l = Some p -> p ∈ l.
Proof. intros ([i q] & [Hl _]%list_find_Some & ->)%fmap_Some. by eapply list_elem_of_lookup_2. Qed.
Lemma candidates_nonempty dir p : p ∈ candidates dir -> p <> "".
Proof.
  unfold candidates. rewrite elem_of_app, list_elem_of_fmap, list_elem_of_singleton.
  intros [(ext & -> & _)| ->]; by apply Join_nonempty.
Qed.

(** A viper that looks for [config] of a set type. *)
Lemma searchInPath_find v dir : configName v = "config" -> configType v <> "" ->
  searchInPath v dir = default "" (snd <$> list_find (fun p => exists_ p = true) (candidates dir)).
Proof.
  intros Hn Ht. unfold searchInPath, candidates. rewrite searchExts_find, list_find_app_default, Hn by done.
  rewrite (bool_decide_true (configType v <> "")) by done. cbn [andb].
  destruct (list_find _ (_ <$> _)) as [[i x]|] eqn:E; cbn [fmap option_fmap option_map snd default].
  - apply list_find_Some in E as [E _]. apply list_elem_of_lookup_2, list_elem_of_fmap in E as (ext & -> & _).
    by rewrite decide_True by (by apply Join_nonempty).
  - rewrite decide_False by (intros G; by apply G). cbn [list_find].
    destruct (exists_ (filepath_Join dir "config")) eqn:Ee; [by rewrite decide_True by done|by rewrite decide_False by done].
Qed.

Lemma findConfigFileOld_find v paths : configName v = "config" -> configType v <> "" ->
  findConfigFileOld v paths =
    match snd <$> list_find (fun p => exists_ p = true) (paths ≫= candidates) with
    | Some file => Ok file
    | None => Err (ConfigFileNotFoundError (configName v) (configPaths v))
    end.
Proof.
  intros Hn Ht. induction paths as [|d paths IH]; [done|]. cbn [findConfigFileOld].
  change ((d :: paths) ≫= candidates) with (candidates d ++ (paths ≫= candidates))%list.
  rewrite searchInPath_find, list_find_app_default, IH by done.
  destruct (list_find _ (candidates d)) as [[i x]|] eqn:E; cbn [fmap option_fmap option_map snd default].
  - rewrite decide_True; [done|]. apply (candidates_nonempty d), find_member. by rewrite E.
  - by rewrite decide_False by (intros G; by apply G).
Qed.

(** ** The reads *)

(** A viper that has found its file. *)
Definition found (v : Viper Settings) (path format : string) : Prop :=
  configFile v = path /\ path <> "" /\ getConfigType v = format.
Lemma found_withSettings v s path format : found v path format -> found (withSettings v s) path format.
Proof.
  intros (Hf & Hne & Ht). split_and!; [done|done|]. rewrite <- Ht. unfold getConfigType, getConfigFile. cbn [configType configFile withSettings].
  rewrite Hf, !(decide_False (P := path = "")) by done. done.
Qed.

Lemma SupportedExts_lower : Forall (fun e => ToLower e = e /\ e <> "") SupportedExts.
Proof. repeat (constructor; [split; [by vm_compute|done]|]). constructor. Qed.
Lemma unmarshalReader_decodes v format buf s :
  getConfigType v = format -> format ∈ SupportedExts -> unmarshalReader v buf = Ok s <-> decodes format buf s.
Proof.
  intros Ht Hs. destruct (proj1 (Forall_forall _ _) SupportedExts_lower _ Hs) as [Hl Hne].
  unfold unmarshalReader, decodes, Decoder. rewrite Ht, Hl, decide_False, decide_False by (by intros ?).
  destruct (codec format) as [c|]; cbn [res_wrap mbind res_bind].
  - rewrite res_wrap_ok. naive_solver.
  - naive_solver.
Qed.

Lemma first_existing l p : snd <$> list_find (fun p => exists_ p = true) l = Some p <->
  exists i, l !! i = Some p /\ exists_ p = true /\ forall j q, l !! j = Some q -> (j < i)%nat -> exists_ q <> true.
Proof.
  rewrite fmap_Some. split.
  - intros ([i q] & E & ->). apply list_find_Some in E. by exists i.
  - intros (i & E). exists (i, p). split; [|done]. by apply list_find_Some.
Qed.
Lemma searching_fields : configName searching = "config" /\ configType searching = "yaml" /\ configFile searching = "" /\
  defaults searching = [] /\
  snd <$> list_find (fun p => exists_ p = true) (configPaths searching ≫= candidates)
    = snd <$> list_find (fun p => exists_ p = true) searched.
Proof.
  assert (AddConfigPath (SetConfigType (SetConfigName New "config") "yaml") "." =
    {| configPaths := [absPathify "."]; configName := "config"; configFile := ""; configType := "yaml";
       settings := emptySettings; defaults := [] |}) as E1.
  { unfold AddConfigPath. rewrite decide_False by done. cbv zeta. by rewrite decide_False by apply not_elem_of_nil. }
  unfold searching, searched. rewrite E1. unfold AddConfigPath. rewrite decide_False by done. cbn [configPaths].
  destruct (decide _) as [E%list_elem_of_singleton|_]; cbn [configPaths configName configType configFile defaults app mbind list_bind];
    rewrite ?app_nil_r; (split_and!; [done..|]); [|done].
  rewrite E, !list_find_app_default. by destruct (list_find _ _) as [[]|].
Qed.

(** The search finds the source, if there is one. *)
Lemma getConfigFile_source cf :
  match getConfigFile (withDefaults (newViper cf) setDefaults) with
  | Ok (path, v) => exists format, found v path format /\ defaults v = setDefaults /\
      forall p f, source cf p f <-> p = path /\ f = format
  | Err _ => forall p f, ~ source cf p f
  end.
Proof.
  unfold source, newViper. set (given := TrimSpace cf). destruct (decide (given <> "")) as [Hg|Hg].
  - unfold SetConfigFile. rewrite decide_False by done. unfold getConfigFile. cbn [withDefaults configFile]. rewrite decide_False by done.
    set (v := {| configPaths := _ |}). exists (of_chars (drop 1 (chars (Ext given)))). split_and!; [|done|naive_solver].
    split_and!; [done..|]. unfold getConfigType, getConfigFile. cbn [v withDefaults configType configFile New].
    rewrite decide_False by (intros G; by apply G).
    rewrite decide_False by done. destruct (Ext given) as [|c [|c' e]]; [done|by destruct c as [[] [] [] [] [] [] [] []]|].
    assert (1 <? len (String c (String c' e)) = true) as ->; [|done].
    unfold len. change (String.length (String c (String c' e))) with (S (S (String.length e))). apply Z.ltb_lt. lia.
  - destruct searching_fields as (Sn & St & Sf & Sd & Sp). unfold getConfigFile. cbn [withDefaults configFile]. rewrite Sf.
    rewrite decide_True by done. unfold findConfigFile.
    rewrite findConfigFileOld_find by (cbn [withDefaults configName configType]; rewrite ?Sn, ?St; done).
    cbn [withDefaults configPaths]. rewrite Sp.
    assert (Hx := first_existing searched). destruct (snd <$> list_find _ searched) as [file|] eqn:E; cbn [mbind res_bind].
    + apply find_member in E. assert (Hne : file <> "").
      { unfold searched in E. apply elem_of_app in E as [E|E]; by eapply candidates_nonempty. }
      exists "yaml". unfold SetConfigFile. rewrite decide_False by done. cbn [withDefaults defaults]. rewrite Sd. split_and!; [|done|].
      * split_and!; [done..|]. unfold getConfigType. cbn [withDefaults configType]. rewrite St. by rewrite decide_True by done.
      * intros p f. rewrite <- Hx. naive_solver.
    + intros p f [_ G%Hx]. done.
Qed.

(** The two reads of a file that was found. *)
Definition readTwice (v : Viper Settings) : res (string * Viper Settings) :=
  v ← res_wrap (wrapped "read config") (ReadInConfig 0 v);
  raw ← res_wrap (wrapped "read config snapshot") (ReadFile 1 (configFile v));
  v ← res_wrap (wrapped "read config snapshot") (ReadConfig v raw);
  Ok (raw, v).
Lemma readTwice_ok cf text v :
  readTwice (withDefaults (newViper cf) setDefaults) = Ok (text, v) ->
  exists path format first s0, source cf path format /\ format ∈ SupportedExts /\ ReadFile 0 path = Ok first /\
    decodes format first s0 /\ ReadFile 1 path = Ok text /\ decodes format text (settings v) /\ defaults v = setDefaults.
Proof.
  intros E. pose proof (getConfigFile_source cf) as Hs. unfold readTwice in E.
  apply res_bind_ok in E as (v1 & E1%res_wrap_ok & E). apply res_bind_ok in E as (raw & E2%res_wrap_ok & E).
  apply res_bind_ok in E as (v2 & E3%res_wrap_ok & [= -> ->]). unfold ReadInConfig in E1.
  destruct (getConfigFile _) as [[path w]|e]; [|done]. destruct Hs as (format & Hw & Hd & Hs). cbn [mbind res_bind] in E1.
  pose proof Hw as (Hp & _ & Ht). rewrite Ht in E1. destruct (decide (format ∉ SupportedExts)) as [|Hf]; [done|].
  apply dec_stable in Hf. apply res_bind_ok in E1 as (first & R1 & E1). apply res_bind_ok in E1 as (s0 & D1 & [= <-]).
  unfold ReadConfig in E3. apply res_bind_ok in E3 as (s & D2 & [= <-]). cbn [settings defaults withSettings configFile] in *.
  apply (unmarshalReader_decodes _ format) in D1; [|done..].
  apply (unmarshalReader_decodes _ format) in D2; [|by apply (found_withSettings _ _ path)|done].
  rewrite Hp in E2. exists path, format, first, s0. split_and!; try done. by apply Hs.
Qed.
Lemma ok_readTwice cf path format first text s0 s :
  source cf path format -> format ∈ SupportedExts -> ReadFile 0 path = Ok first -> decodes format first s0 ->
  ReadFile 1 path = Ok text -> decodes format text s ->
  exists v, readTwice (withDefaults (newViper cf) setDefaults) = Ok (text, v) /\ settings v = s /\ defaults v = setDefaults.
Proof.
  intros Hsrc Hf R1 D1 R2 D2. pose proof (getConfigFile_source cf) as Hs. unfold readTwice, ReadInConfig.
  destruct (getConfigFile _) as [[path' w]|e]; [|by destruct (Hs path format)].
  destruct Hs as (format' & Hw & Hd & Hs). apply Hs in Hsrc as [<- <-]. pose proof Hw as (Hp & _ & Ht).
  cbn [mbind res_bind]. rewrite Ht, decide_False by (intros G; by apply G). rewrite R1. cbn [mbind res_bind].
  rewrite (proj2 (unmarshalReader_decodes w format first s0 Ht Hf) D1). cbn [mbind res_bind res_wrap withSettings configFile].
  rewrite Hp, R2. cbn [mbind res_bind res_wrap]. unfold ReadConfig.
  rewrite (proj2 (unmarshalReader_decodes (withSettings w s0) format text s
    (proj2 (proj2 (found_withSettings w s0 path format Hw))) Hf) D2). by eexists.
Qed.

Context (Hrange : forall m, range m ≡ₚ map_to_list m).

(** C6. [Load] reads one file, and one snapshot of it.  It succeeds with [cfg]
    exactly when: the file is the one [CONFIG_FILE] names or, without it, the first
    that exists of [config.json], [config.toml], [config.yaml] ... and [config] in
    the working directory and then in /etc/doppelgaenger; its format is supported;
    a first read of it could be decoded; and the text of a second read, alone,
    gives the settings over the defaults, the JSON aliases with their spelling, and
    after [validate] [cfg].  So a file that changes in between never gives a
    configuration that mixes the two, and what is loaded is well-formed. *)
Theorem Load_reads cf cfg :
  (Load cf = Ok cfg <-> loaded cf cfg) /\ (Load cf = Ok cfg -> config_ok unq cfg).
Proof.
  assert (HL : Load cf = ('(raw, v) ← readTwice (withDefaults (newViper cf) setDefaults);
    cfg ← res_wrap (wrapped "decode config") (Unmarshal (viper.defaults v) (settings v));
    fields ← decodeAliases raw (c_LogFields cfg);
    validate unq range (withLogFields cfg fields))).
  { unfold Load, readTwice. destruct (ReadInConfig _ _) as [v|e]; cbn [mbind res_bind res_wrap]; [|done].
    destruct (ReadFile _ _) as [raw|e]; cbn [mbind res_bind res_wrap]; [|done]. by destruct (ReadConfig v raw). }
  rewrite HL. split; [split|].
  - intros ([text v] & E & G)%res_bind_ok. apply readTwice_ok in E as (path & format & first & s0 & S1 & S2 & S3 & S4 & S5 & S6 & S7).
    apply res_bind_ok in G as (cfg0 & U%res_wrap_ok & G). apply res_bind_ok in G as (fields & A & V). rewrite S7 in U.
    by exists path, format, first, text, s0, (settings v), cfg0, fields.
  - intros (path & format & first & text & s0 & s & cfg0 & fields & S1 & S2 & S3 & S4 & S5 & S6 & U & A & V).
    destruct (ok_readTwice cf path format first text s0 s) as (v & -> & Ev & Ed); [done..|]. cbn [mbind res_bind].
    rewrite Ed, Ev, U. cbn [mbind res_bind res_wrap]. by rewrite A.
  - intros ([text v] & _ & G)%res_bind_ok. apply res_bind_ok in G as (cfg0 & _ & G). apply res_bind_ok in G as (fields & _ & V).
    by eapply (validate_sound unq range Hrange).
Qed.
End load.

(** ** Witnesses *)

(** A system with the given files, working in /srv; a file is empty or holds the
    keys of another listen address. *)
Definition exampleFiles (present : list string) : Files (gmap string defaultValue) := {|
  Stat := fun p => if decide (p ∈ present) then Some false else None;
  ReadFile := fun n p => if decide (p ∈ present) then Ok (if decide (n = 1%nat) then "listen_addr" else "") else Err (errors_New p);
  absPathify := fun p => if decide (p = ".") then "/srv" else p;
  Decode := fun _ text => Ok (if decide (text = "") then ∅ else {[ text := DString ":9090" ]});
  emptySettings := ∅ |}.
Definition exampleDecoders : Decoders (gmap string defaultValue) := {|
  Unmarshal := fun d s => @decode exampleURLs (s ∪ list_to_map d);
  yaml_Unmarshal := fun _ => {| y_nodes := []; y_root := Ok []; y_fields := fun _ => Ok []; y_map := fun _ => Ok [] |} |}.
Notation exampleLoad present config_file := (@Load literalRegexp asciiUnicode exampleURLs noFiles (gmap string defaultValue)
  (exampleFiles present) exampleDecoders (fun _ => None) map_to_list config_file) (only parsing).

(** The address comes from the second read. *)
Lemma Load_reads_witness :
  match exampleLoad ["/etc/doppelgaenger/config.yaml"] " " with
  | Ok cfg => f_ListenAddr (c_Plain cfg) = ":9090" /\ @config_ok literalRegexp asciiUnicode exampleURLs noFiles (fun _ => None) cfg
  | Err _ => False
  end.
Proof.
  assert (match exampleLoad ["/etc/doppelgaenger/config.yaml"] " " with
          | Ok cfg => f_ListenAddr (c_Plain cfg) = ":9090" | Err _ => False end) as Ha by (vm_compute; reflexivity).
  pose proof (fun cfg => proj2 (@Load_reads literalRegexp asciiUnicode exampleURLs noFiles _
    (exampleFiles ["/etc/doppelgaenger/config.yaml"]) exampleDecoders (fun _ => None) map_to_list example_order " " cfg)) as G.
  destruct (Load _ _ " ") as [cfg|e]; [|exact Ha].
  split; [exact Ha|]. exact (G cfg eq_refl).
Defined.

(** Without [CONFIG_FILE], a [config.json] of the working directory hides its
    [config.yaml], and a file named [config] hides the one in /etc. *)
Definition foundAmong (present : list string) : res string :=
  let files := exampleFiles present in @findConfigFile asciiUnicode _ files (@searching _ files).
Lemma other_names_first :
  foundAmong ["/srv/config.json"; "/srv/config.yaml"] = Ok "/srv/config.json" /\
  foundAmong ["/srv/config"; "/etc/doppelgaenger/config.yaml"] = Ok "/srv/config" /\
  foundAmong ["/etc/doppelgaenger/config.yaml"] = Ok "/etc/doppelgaenger/config.yaml".
Proof. split_and!; by vm_compute. Qed.
End load.
