(* ===== verification/Logger.v ===== *)
(** * The logger: [NewHandler] of [internal/logging] and [NewLogger] of [internal/app]

    Writing a record is [log/slog]'s; what the program decides is whether a
    record is written, in which form, and how two attributes are rewritten. *)
From S2P Require Export ConfigSpec JsonLogFields.

Module logger.
Import grpcconfig config configspec logging jsonlogfields.

(** ** [logging.go] *)

Inductive handler := DiscardHandler | JSONHandler (level : Z) | TextHandler (level : Z).
Definition NewHandler `{Unicode} (useJSON : bool) (name : string) : handler :=
  if EqualFold (TrimSpace name) "none" then DiscardHandler
  else
    let level := match ParseLevel name with Ok level => level | Err _ => 0 end in
    if useJSON then JSONHandler level else TextHandler level.
(** [slog.Handler.Enabled] *)
Definition Enabled (h : handler) (level : Z) : bool :=
  match h with DiscardHandler => false | JSONHandler min | TextHandler min => min <=? level end.

(** An attribute as the handler gets it: the level is not yet text. *)
Inductive attrValue := LevelValue (level : Z) | Attribute (v : Value).
Definition LevelKey : string := "level".
(** The empty attribute, which the handlers leave out, is [None]. *)
Definition replaceLevel (groups : list string) (key : string) (v : attrValue) : option (string * attrValue) :=
  match v with
  | Attribute (StringValue "") => if decide (key = "trace_id") then None else Some (key, v)
  | LevelValue level =>
      if bool_decide (groups = []) && bool_decide (key = LevelKey) && (level =? LevelNotice)
      then Some (LevelKey, Attribute (StringValue "NOTICE")) else Some (key, v)
  | _ => Some (key, v)
  end.

(** ** [internal/app/providers.go] *)

Definition NewLogger `{Unicode} (cfg : Config) : handler := NewHandler (UseJSONLogger cfg) (c_LogLevel cfg).

(** ** What [log_level] means *)

Definition severities : list (string * Z) :=
  [("debug", LevelDebug); ("info", LevelInfo); ("notice", LevelNotice); ("warn", LevelWarn); ("error", LevelError)].

(** Of an accepted configuration [none] writes nothing, and any other level the
    records at it and above, in the configured form. *)
Lemma accepted_logger `{Regexp} `{Unicode} `{URLs} `{PEMFiles} unq range cfg0 cfg :
  (forall m, range m ≡ₚ map_to_list m) -> validate unq range cfg0 = Ok cfg ->
  c_LogLevel cfg = "none" /\ NewLogger cfg = DiscardHandler \/
  exists min, (c_LogLevel cfg, min) ∈ severities /\
    NewLogger cfg = (if f_LogJSON (c_Plain cfg) then JSONHandler min else TextHandler min) /\
    forall level, Enabled (NewLogger cfg) level = true <-> min <= level.
Proof.
  intros Hr E. pose proof (co_level _ _ (validate_sound unq range Hr _ _ E)) as Hl.
  assert (Hs : forall name min, c_LogLevel cfg = name -> (name, min) ∈ severities -> EqualFold (TrimSpace name) "none" = false ->
    ParseLevel name = Ok min -> exists min, (c_LogLevel cfg, min) ∈ severities /\
      NewLogger cfg = (if f_LogJSON (c_Plain cfg) then JSONHandler min else TextHandler min) /\
      forall level, Enabled (NewLogger cfg) level = true <-> min <= level).
  { intros name min En Hin Ef Ep. exists min. unfold NewLogger, NewHandler, UseJSONLogger. rewrite En, Ef, Ep. split; [done|].
    split; [done|]. intros level. destruct (f_LogJSON _); apply Z.leb_le. }
  rewrite !elem_of_cons, elem_of_nil in Hl. destruct Hl as [E1|[E1|[E1|[E1|[E1|[E1|[]]]]]]].
  - right. apply (Hs _ LevelDebug E1); [unfold severities; set_solver|by vm_compute..].
  - right. apply (Hs _ LevelInfo E1); [unfold severities; set_solver|by vm_compute..].
  - left. split; [done|]. unfold NewLogger, NewHandler. by rewrite E1.
  - right. apply (Hs _ LevelNotice E1); [unfold severities; set_solver|by vm_compute..].
  - right. apply (Hs _ LevelWarn E1); [unfold severities; set_solver|by vm_compute..].
  - right. apply (Hs _ LevelError E1); [unfold severities; set_solver|by vm_compute..].
Qed.
End logger.
