(* ===== verification/MilterProxy.v ===== *)
(** * The milter proxy between a client and a primary milter

    The connection loop of MilterHandler.v run on the sessions of MilterCodec.v:
    what the two byte streams of a connection have to do with each other.  A
    connection is what its peer sends and what was written to it. *)
From S2P Require Export MilterHandler.

Module milterproxy.
Import protocol milter macros worker milterhandler.

(** The bytes of a sequence of writes. *)
Definition flow (writes : list string) : list ascii := writes ≫= chars.

Lemma flow_snoc ws w : flow (ws ++ [w])%list = (flow ws ++ chars w)%list.
Proof. unfold flow. by rewrite bind_app, bind_cons, app_nil_r. Qed.

Section session.
(** How long the answer took. *)
Context (time_Since : milterSession -> Z).

(** [milterSession] as the runner uses it; [Receive] always returns
    ([MilterCodec.receive_fuel]). *)
#[export] Instance milter_TestSession : TestSession milterSession := {|
  Send := milter_Send;
  Receive s := default ((zeroResponse, None), s) (milter_Receive (time_Since s) s)
|}.

(** What was written to the primary, and what it still has to say. *)
Definition toPrimary (s : milterSession) : list ascii := flow (c_out (ms_conn s)).
Definition fromPrimary (s : milterSession) : list ascii := in_bytes (c_in (ms_conn s)).

(** ** Reading never invents bytes *)

Lemma readMilterFrame_suffix s r s' :
  readMilterFrame s = (r, s') -> exists l, in_bytes s = (l ++ in_bytes s')%list.
Proof.
  assert (G : forall n i q i', io_ReadFull n i = (q, i') -> exists l, in_bytes i = (l ++ in_bytes i')%list).
  { intros n i [l|e] i' E; [apply io_ReadFull_ok in E as [E _]; by exists l|].
    unfold io_ReadFull in E. case_decide; [done|]. injection E as <- <-. exists (in_bytes i). by rewrite app_nil_r. }
  unfold readMilterFrame. destruct (io_ReadFull 4 s) as [[l4|e] s1] eqn:E1; [|intros [= <- <-]; by eapply G].
  apply G in E1 as [l1 E1]. destruct (_ <? 1); [intros [= <- <-]; by exists l1|].
  destruct (io_ReadFull _ s1) as [[l|e] s2] eqn:E2; intros [= <- <-]; apply G in E2 as [l2 E2];
    exists (l1 ++ l2)%list; by rewrite E1, E2, app_assoc.
Qed.

Lemma finishObservation_conn s status result : ms_conn (finishObservation s status result) = ms_conn s.
Proof. done. Qed.

Lemma receiveLoop_flow now fuel s req raw resp err s' :
  receiveLoop now fuel s req raw = Some ((resp, err), s') ->
  c_out (ms_conn s') = c_out (ms_conn s) /\ c_werr (ms_conn s') = c_werr (ms_conn s) /\
  exists l, fromPrimary s = (l ++ fromPrimary s')%list /\
    (p_Err resp = None -> err = None /\ p_Raw resp = raw +:+ of_chars l) /\ (err = None -> p_Err resp = None).
Proof.
  revert s raw. induction fuel as [|fuel IH]; intros s raw; [done|]. cbn [receiveLoop].
  destruct (readMilterFrame (c_in (ms_conn s))) as [[f|e] i] eqn:E.
  - pose proof E as (Eb & _)%readMilterFrame_ok. destruct (milterReplyCompletesRequest req (Command f)); cbn [negb].
    + intros [= <- <- <-]. split_and!; [done..|]. exists (chars (Raw f)). split_and!; [exact Eb| |done].
      intros _. by rewrite of_chars_chars.
    + intros G. apply IH in G as (G1 & G2 & l & G3 & G4 & G5). split_and!; [done..|].
      exists (chars (Raw f) ++ l)%list. split_and!; [|intros Hn|done].
      * unfold fromPrimary in *. rewrite Eb, <- app_assoc. f_equal. exact G3.
      * destruct (G4 Hn) as [-> ->]. split; [done|]. by rewrite of_chars_app, of_chars_chars, app_assoc_s.
  - intros [= <- <- <-]. apply readMilterFrame_suffix in E as [l E]. split_and!; [done..|]. by exists l.
Qed.

Lemma Receive_flow s resp err s' :
  Receive s = ((resp, err), s') ->
  c_out (ms_conn s') = c_out (ms_conn s) /\ c_werr (ms_conn s') = c_werr (ms_conn s) /\
  exists l, fromPrimary s = (l ++ fromPrimary s')%list /\
    (p_Err resp = None -> err = None /\ p_Raw resp = of_chars l) /\ (err = None -> p_Err resp = None).
Proof.
  cbn [Receive milter_TestSession]. unfold milter_Receive.
  destruct (receive_fuel (time_Since s) (S (length (in_bytes (c_in (ms_conn s))))) s (requestCommand s) ""
    (Nat.lt_succ_diag_r _)) as [r Er]. rewrite Er. intros E. change (r = ((resp, err), s')) in E. subst r.
  exact (receiveLoop_flow _ _ _ _ _ _ _ _ Er).
Qed.

(** ** One frame *)

Context `{Unicode} (reqID : nat -> Z).

Lemma string_of_byte_meta k frame :
  eventExpectsResponse (frameEvent (reqID k) frame) = MilterCommandExpectsResponse (Command frame) /\
  meta (frameEvent (reqID k) frame) "command" = string_of_byte (Command frame).
Proof.
  assert (Hm : meta (frameEvent (reqID k) frame) "command" = string_of_byte (Command frame)) by done.
  split; [|done]. unfold eventExpectsResponse. rewrite Hm. cbn [e_Kind frameEvent].
  destruct (Command frame) as [b0 b1 b2 b3 b4 b5 b6 b7]; by destruct b0, b1, b2, b3, b4, b5, b6, b7.
Qed.

Definition sessionSent (s : milterSession) (frame : MilterFrame) : milterSession :=
  {| ms_conn := {| c_in := c_in (ms_conn s); c_out := (c_out (ms_conn s) ++ [Raw frame])%list; c_werr := c_werr (ms_conn s) |};
     ms_addr := ms_addr s; ms_target := ms_target s; ms_command := string_of_byte (Command frame); ms_obs := ms_obs s |}.

(** [Send] of a frame that was read. *)
Lemma Send_frame k frame s :
  Raw frame <> "" ->
  milter_Send s (frameEvent (reqID k) frame) =
    match c_werr (ms_conn s) with
    | Some e => (Some e, finishObservation (sessionSent s frame) StatusError ResultError)
    | None => (None, sessionSent s frame)
    end.
Proof.
  intros Hr. unfold milter_Send. cbn [e_Payload frameEvent]. rewrite decide_False by done.
  rewrite (proj2 (string_of_byte_meta k frame)). rewrite decide_False; [done|].
  unfold string_of_byte. by destruct (_ <? _).
Qed.

(** What relaying a frame does to the streams: the frame goes to the primary
    whole, and what goes to the client is the next part of what the primary
    said; nothing is skipped unless the connection ends. *)
Lemma relay_flow k frame c p :
  Raw frame <> "" ->
  let '(ok, (c', p')) := relay reqID k frame (c, p) in
  c_in c' = c_in c /\ toPrimary p' = (toPrimary p ++ chars (Raw frame))%list /\
  exists got skipped, flow (c_out c') = (flow (c_out c) ++ got)%list /\
    fromPrimary p = (got ++ skipped ++ fromPrimary p')%list /\ (ok = true -> skipped = []).
Proof.
  intros Hr. unfold relay, RunPrimaryEvent, runPrimary. cbn [Send milter_TestSession]. rewrite Send_frame by done.
  assert (Hs : toPrimary (sessionSent p frame) = (toPrimary p ++ chars (Raw frame))%list) by apply flow_snoc.
  destruct (c_werr (ms_conn p)).
  { cbn. split_and!; [done|done|]. exists [], []. by rewrite app_nil_r. }
  rewrite (proj1 (string_of_byte_meta k frame)).
  destruct (MilterCommandExpectsResponse (Command frame)) eqn:Ee; cbn [negb].
  2: { cbn. split_and!; [done|done|]. exists [], []. by rewrite app_nil_r. }
  destruct (Receive (sessionSent p frame)) as [[resp err] p'] eqn:Er.
  apply Receive_flow in Er as (Eo & _ & l & El & Hok & Hno). cbn [default rr_Primary].
  assert (Hp' : toPrimary p' = (toPrimary p ++ chars (Raw frame))%list) by (unfold toPrimary in *; by rewrite Eo).
  change (fromPrimary (sessionSent p frame)) with (fromPrimary p) in El.
  assert (Hk : p_Err (keepErr resp err) = None -> keepErr resp err = resp /\ p_Err resp = None).
  { unfold keepErr. destruct err, (p_Err resp) eqn:En; cbn; intros; split; congruence. }
  destruct (p_Err (keepErr resp err)) eqn:Ek.
  { split_and!; [done|done|]. exists [], l. by rewrite app_nil_r. }
  destruct (Hk eq_refl) as [-> Hn]. destruct (Hok Hn) as [_ Hraw]. rewrite Hraw.
  destruct (decide (of_chars l = "")).
  { split_and!; [done|done|]. exists [], l. by rewrite app_nil_r. }
  split_and!; [done|done|]. exists l, []. cbn [c_out]. by rewrite flow_snoc, chars_of_chars.
Qed.

(** ** The connection *)

Lemma readMilterFrame_raw s f s' : readMilterFrame s = (Ok f, s') -> Raw f <> "".
Proof.
  intros (_ & _ & -> & Hf)%readMilterFrame_ok E. apply (f_equal chars) in E. rewrite encode_chars in E by done. done.
Qed.

Lemma relayLoop_flow fuel k c p c' p' :
  relayLoop reqID fuel k (c, p) = Some (c', p') ->
  exists sent unsent got, in_bytes (c_in c) = (sent ++ unsent)%list /\ toPrimary p' = (toPrimary p ++ sent)%list /\
    flow (c_out c') = (flow (c_out c) ++ got)%list /\ got `prefix_of` fromPrimary p.
Proof.
  revert k c p. induction fuel as [|fuel IH]; intros k c p; [done|]. cbn [relayLoop fst snd].
  destruct (ReadFrame (c_in c)) as [[frame|e] i] eqn:E.
  - pose proof (readMilterFrame_raw _ _ _ E) as Hraw. apply readMilterFrame_ok in E as (Ei & _).
    set (c1 := {| c_in := i; c_out := c_out c; c_werr := c_werr c |}).
    pose proof (relay_flow k frame c1 p Hraw) as Hr.
    destruct (relay reqID k frame (c1, p)) as [[] [c2 p2]]; destruct Hr as (R1 & R2 & got & skipped & R3 & R4 & R5).
    + intros G. apply IH in G as (sent & unsent & got' & G1 & G2 & G3 & rest & G4). rewrite (R5 eq_refl) in R4.
      exists (chars (Raw frame) ++ sent)%list, unsent, (got ++ got')%list. rewrite R1 in G1. cbn in G1.
      split_and!; [by rewrite Ei, G1, app_assoc|by rewrite G2, R2, app_assoc|by rewrite G3, R3, app_assoc|].
      exists rest. rewrite R4, G4. cbn [app]. by rewrite app_assoc.
    + intros [= <- <-]. exists (chars (Raw frame)), (in_bytes i), got. split_and!; [done|done|done|].
      exists (skipped ++ fromPrimary p2)%list. done.
  - intros [= <- <-]. exists [], (in_bytes (c_in c)), []. rewrite !app_nil_r. split_and!; [done..|]. by exists (fromPrimary p).
Qed.

(** ** Dialogues: turns of a client that a primary answers in full *)

Record turn := { t_command : ascii; t_payload : string; t_replies : list (ascii * string) }.
Definition request (t : turn) : ascii * string := (t_command t, t_payload t).

(** A turn that gets no answer, or an answer whose last frame completes it. *)
Definition turn_ok (t : turn) : Prop :=
  frame_fits (request t) /\ Forall frame_fits (t_replies t) /\
  if MilterCommandExpectsResponse (t_command t) then
    exists actions reply, t_replies t = (actions ++ [reply])%list /\
      Forall (fun f => milterReplyCompletesRequest (t_command t) f.1 = false) actions /\
      milterReplyCompletesRequest (t_command t) reply.1 = true
  else t_replies t = [].
Definition requests (ts : list turn) : list ascii := wire (request <$> ts).
Definition answers (ts : list turn) : list ascii := wire (ts ≫= t_replies).

Lemma completes_byte s frame reply :
  milterReplyCompletesRequest (requestCommand (sessionSent s frame)) reply =
    milterReplyCompletesRequest (Command frame) reply.
Proof.
  unfold requestCommand. cbn [ms_command sessionSent]. unfold milterReplyCompletesRequest.
  destruct (Command frame) as [b0 b1 b2 b3 b4 b5 b6 b7]; by destruct b0, b1, b2, b3, b4, b5, b6, b7.
Qed.

Lemma wire_app fs gs : wire (fs ++ gs) = (wire fs ++ wire gs)%list.
Proof. unfold wire. apply bind_app. Qed.

(** The primary's answer to a turn. *)
Lemma Receive_turn frame s actions reply rest :
  Forall frame_fits (actions ++ [reply]) ->
  Forall (fun f => milterReplyCompletesRequest (Command frame) f.1 = false) actions ->
  milterReplyCompletesRequest (Command frame) reply.1 = true ->
  fromPrimary s = (wire (actions ++ [reply]) ++ rest)%list ->
  exists resp s', Receive (sessionSent s frame) = ((resp, None), s') /\ p_Err resp = None /\
    p_Raw resp = of_chars (wire (actions ++ [reply])) /\ fromPrimary s' = rest /\ c_werr (ms_conn s') = c_werr (ms_conn s).
Proof.
  intros Hfit Ha Hr Hin. apply Forall_app in Hfit as [Hfa Hfr]. apply Forall_cons in Hfr as [Hfr _].
  destruct (milter_Receive_spec (time_Since (sessionSent s frame)) (sessionSent s frame) actions rest) as (_ & G & _).
  { done. }
  { eapply Forall_impl; [exact Ha|]. intros f Hf. by rewrite completes_byte. }
  destruct reply as [c payload]. destruct (G c payload Hfr) as (resp & E & Eraw & _ & Eerr).
  { by rewrite completes_byte. }
  { rewrite wire_app, <- app_assoc in Hin. exact Hin. }
  cbn [Receive milter_TestSession]. rewrite E. eexists _, _. split; [reflexivity|]. done.
Qed.

Lemma relay_turn k t c p rest :
  turn_ok t -> c_werr c = None -> c_werr (ms_conn p) = None -> fromPrimary p = (wire (t_replies t) ++ rest)%list ->
  let frame := {| Command := t_command t; Payload := t_payload t; Raw := encodeMilterFrame (t_command t) (t_payload t) |} in
  let '(ok, (c', p')) := relay reqID k frame (c, p) in
  ok = true /\ c_werr c' = None /\ c_werr (ms_conn p') = None /\ fromPrimary p' = rest.
Proof.
  intros (Hfit & Hfits & Ht) Hc Hp Hin frame.
  assert (Hraw : Raw frame <> "") by (apply readMilterFrame_raw with {| in_bytes := chars (Raw frame) ++ []; in_end := io_EOF |}
    {| in_bytes := []; in_end := io_EOF |}; by apply readMilterFrame_encode).
  unfold relay, RunPrimaryEvent, runPrimary. cbn [Send milter_TestSession]. rewrite Send_frame, Hp by done.
  rewrite (proj1 (string_of_byte_meta k frame)). cbn [Command frame].
  destruct (MilterCommandExpectsResponse (t_command t)) eqn:Ee; cbn [negb].
  2: { rewrite Ht in Hin. cbn. done. }
  destruct Ht as (actions & reply & Er & Ha & Hr). rewrite Er in *.
  destruct (Receive_turn frame p actions reply rest Hfits Ha Hr Hin) as (resp & p' & E & Ee' & Eraw & Erest & Ew).
  rewrite E. cbn [default rr_Primary keepErr]. rewrite Ee', Eraw. rewrite decide_False.
  2: { intros Hn. apply (f_equal chars) in Hn. rewrite chars_of_chars in Hn. apply Forall_app in Hfits as [_ Hf].
    apply Forall_cons in Hf as [Hf _]. destruct reply as [rc rp]. rewrite wire_app, wire_one, encode_chars in Hn by done.
    by apply app_nil in Hn as [_ Hn]. }
  rewrite Hc. split_and!; [done|done|exact (eq_trans Ew Hp)|done].
Qed.

Lemma requests_cons t ts :
  requests (t :: ts) = (chars (encodeMilterFrame (t_command t) (t_payload t)) ++ requests ts)%list.
Proof. unfold requests, wire. by rewrite fmap_cons, bind_cons. Qed.
Lemma answers_cons t ts : answers (t :: ts) = (wire (t_replies t) ++ answers ts)%list.
Proof. unfold answers. by rewrite bind_cons, wire_app. Qed.

Lemma relayLoop_dialogue ts fuel k c p rest c' p' :
  relayLoop reqID fuel k (c, p) = Some (c', p') ->
  Forall turn_ok ts -> c_werr c = None -> c_werr (ms_conn p) = None ->
  in_bytes (c_in c) = requests ts -> fromPrimary p = (answers ts ++ rest)%list ->
  toPrimary p' = (toPrimary p ++ requests ts)%list /\ flow (c_out c') = (flow (c_out c) ++ answers ts)%list /\
  fromPrimary p' = rest.
Proof.
  revert fuel k c p. induction ts as [|t ts IH]; intros [|fuel] k c p; try done; cbn [relayLoop fst snd]; intros G Ht Hc Hp Hi Ho.
  - destruct (c_in c) as [bytes e]. cbn in Hi. subst bytes. cbn in G. injection G as <- <-.
    cbn. by rewrite !app_nil_r.
  - apply Forall_cons in Ht as [Ht Hts]. rewrite requests_cons in Hi |- *. rewrite answers_cons in Ho |- *.
    rewrite <- app_assoc in Ho.
    destruct (c_in c) as [bytes e] eqn:Ec. cbn [in_bytes] in Hi. subst bytes.
    pose proof (readMilterFrame_encode (t_command t) (t_payload t) (requests ts) e (proj1 Ht)) as Er.
    unfold ReadFrame in G. rewrite Er in G. set (frame := {| Command := t_command t |}) in *.
    set (c1 := {| c_in := {| in_bytes := requests ts; in_end := e |} |}) in G.
    pose proof (relay_flow k frame c1 p (readMilterFrame_raw _ _ _ Er)) as R.
    pose proof (relay_turn k t c1 p _ Ht Hc Hp Ho) as T. cbv zeta in T. fold frame in T.
    destruct (relay reqID k frame (c1, p)) as [ok [c2 p2]]. destruct T as (-> & Tc & Tp & Tin).
    destruct R as (R1 & R2 & got & skipped & R3 & R4 & R5). rewrite (R5 eq_refl), Tin, Ho in R4.
    cbn [app] in R4. apply app_inv_tail in R4 as <-.
    destruct (IH fuel (S k) c2 p2 G Hts Tc Tp) as (I1 & I2 & I3); [by rewrite R1|exact Tin|].
    rewrite I1, I2, R2, R3, !app_assoc. done.
Qed.

Lemma serve_flows {W} `{ShadowQueue W} obs enabled cfg client cid p (w : W) evolve sh :
  exists s', HandleConn obs enabled reqID cfg client cid p w evolve sh = Some s' /\
    exists fuel, relayLoop reqID fuel 0 (client, p) = Some (st_client s', st_primary s').
Proof.
  unfold HandleConn. match goal with |- context [serve _ _ _ ?f 0 evolve sh ?s] =>
    pose proof (serve_relay obs enabled reqID f 0 evolve sh s) as E;
    destruct (relayLoop_fuel reqID f 0 (visible s) (Nat.lt_succ_diag_r _)) as [v Hv] end.
  rewrite Hv in E. apply fmap_Some in E as (s' & -> & ->). exists s'. split; [done|]. by eexists.
Qed.
End session.

Section theorem.
Context `{Unicode} (time_Since : milterSession -> Z) (reqID : nat -> Z) (obs : bool) (enabled : Z -> bool).
#[local] Existing Instance milter_TestSession.
#[local] Instance session_here : TestSession milterSession := milter_TestSession time_Since.

(** The milter proxy is transparent, byte for byte.  Whatever the two peers
    send and whatever the shadow does, the bytes written to the primary are a
    prefix of the client's and the bytes written to the client a prefix of the
    primary's: nothing is invented, changed or reordered.  And nothing is held
    back: when the client's bytes are a sequence of turns that the primary
    answers in full, all of them arrive, the client gets every answer, and what
    the primary says beyond that is left unread. *)
Lemma milter_transparent {W} `{ShadowQueue W} cfg client cid p (w : W) evolve sh :
  exists s', HandleConn obs enabled reqID cfg client cid p w evolve sh = Some s' /\
    let toClient c := flow (c_out c) in
    (exists sent, toPrimary (st_primary s') = (toPrimary p ++ sent)%list /\ sent `prefix_of` in_bytes (c_in client)) /\
    (exists got, toClient (st_client s') = (toClient client ++ got)%list /\ got `prefix_of` fromPrimary p) /\
    forall ts rest, Forall turn_ok ts -> c_werr client = None -> c_werr (ms_conn p) = None ->
      in_bytes (c_in client) = requests ts -> fromPrimary p = (answers ts ++ rest)%list ->
      toPrimary (st_primary s') = (toPrimary p ++ requests ts)%list /\
      toClient (st_client s') = (toClient client ++ answers ts)%list /\ fromPrimary (st_primary s') = rest.
Proof.
  destruct (serve_flows time_Since reqID obs enabled cfg client cid p w evolve sh) as (s' & E & fuel & R).
  exists s'. split; [exact E|]. cbv zeta.
  destruct (relayLoop_flow time_Since reqID _ _ _ _ _ _ R) as (sent & unsent & got & F1 & F2 & F3 & F4).
  split_and!.
  - exists sent. split; [exact F2|]. by exists unsent.
  - by exists got.
  - intros ts rest. exact (relayLoop_dialogue time_Since reqID ts fuel 0 client p rest _ _ R).
Qed.
End theorem.
End milterproxy.

(** ** [cmd/fakemilterserver] and [cmd/milterprobe]: a primary and a client

    The primary answers every frame with the decision it was started with; the
    probe sends one frame and reads one. *)
Module fakemilter.
Import protocol milter worker milterhandler milterproxy.

Record frameLog := { fl_Command : string; fl_Payload : string; fl_RawBytes : Z; fl_Decision : string }.
Record probeResult := { pr_Decision : string; pr_Command : string; pr_RawBytes : Z }.

Definition commandForDecision `{Unicode} (decision : string) : res ascii :=
  if decide (decision = "accept") then Ok "a"%char
  else if decide (decision = "reject") then Ok "r"%char
  else if decide (decision = "tempfail") then Ok "t"%char
  else if decide (decision = "discard") then Ok "d"%char
  else if decide (decision = "continue") then Ok "c"%char
  else Err (errors_New ("unsupported decision " +:+ Quote decision)).

(** The frames logged and the connection as it is left; [None]: out of fuel. *)
Fixpoint handleLoop (fuel : nat) (decision : string) (responseCommand : ascii) (c : conn) (logs : list frameLog)
    : option (conn * list frameLog) :=
  match fuel with
  | O => None
  | S fuel' =>
      match ReadFrame (c_in c) with
      | (Err _, i) => Some ({| c_in := i; c_out := c_out c; c_werr := c_werr c |}, logs)
      | (Ok frame, i) =>
          let logs := (logs ++ [{| fl_Command := string_of_byte (Command frame); fl_Payload := Payload frame;
            fl_RawBytes := len (Raw frame); fl_Decision := decision |}])%list in
          let c := {| c_in := i; c_out := (c_out c ++ [encodeMilterFrame responseCommand ""])%list; c_werr := c_werr c |} in
          match c_werr c with Some _ => Some (c, logs) | None => handleLoop fuel' decision responseCommand c logs end
      end
  end.
Definition handleConn (decision : string) (responseCommand : ascii) (c : conn) : option (conn * list frameLog) :=
  handleLoop (S (length (in_bytes (c_in c)))) decision responseCommand c [].

Definition firstByte (value : string) : ascii := match value with "" => "c"%char | String c _ => c end.
Definition decisionForCommand (command : ascii) : string :=
  if decide (command = "a"%char) then "accept"
  else if decide (command = "r"%char) then "reject"
  else if decide (command = "t"%char) then "tempfail"
  else if decide (command = "d"%char) then "discard"
  else if decide (command = "c"%char) then "continue"
  else "unknown".

(** [runProbe] on a dialled connection. *)
Definition runProbe (c : conn) (command : ascii) (payload : string) : res probeResult * conn :=
  let c := {| c_in := c_in c; c_out := (c_out c ++ [encodeMilterFrame command payload])%list; c_werr := c_werr c |} in
  match c_werr c with
  | Some err => (Err err, c)
  | None =>
      let '(frame, i) := ReadFrame (c_in c) in
      (frame ← frame; Ok {| pr_Decision := decisionForCommand (Command frame);
                            pr_Command := string_of_byte (Command frame); pr_RawBytes := len (Raw frame) |},
       {| c_in := i; c_out := c_out c; c_werr := c_werr c |})
  end.

(** A connection on which the peer sends [bytes] and closes. *)
Definition sends (bytes : list ascii) : conn :=
  {| c_in := {| in_bytes := bytes; in_end := io_EOF |}; c_out := []; c_werr := None |}.
Definition dialled (bytes : list ascii) (addr : string) : milterSession :=
  {| ms_conn := sends bytes; ms_addr := addr; ms_target := TargetPrimary; ms_command := ""; ms_obs := None |}.

Lemma decision_roundtrip `{Unicode} decision rc : commandForDecision decision = Ok rc -> decisionForCommand rc = decision.
Proof.
  unfold commandForDecision. repeat (case_decide; [subst; by intros [= <-]|]). done.
Qed.
Lemma decision_completes `{Unicode} decision rc command :
  commandForDecision decision = Ok rc -> command <> "O"%char -> milterReplyCompletesRequest command rc = true.
Proof.
  intros E Ho. unfold milterReplyCompletesRequest. rewrite decide_False by done. revert E.
  unfold commandForDecision. repeat (case_decide; [by intros [= <-]|]). done.
Qed.
Lemma handleConn_one decision rc command payload :
  frame_fits (command, payload) ->
  exists fake logs, handleConn decision rc (sends (chars (encodeMilterFrame command payload))) = Some (fake, logs) /\
    c_out fake = [encodeMilterFrame rc ""].
Proof.
  intros Hf. unfold handleConn. cbn [sends c_in in_bytes].
  assert (exists n, length (chars (encodeMilterFrame command payload)) = S n) as [n ->].
  { rewrite encode_chars by done. rewrite length_app, length_PutUint32. by eexists. }
  cbn [handleLoop]. rewrite <- (app_nil_r (chars _)). unfold ReadFrame, sends. cbn [c_in].
  rewrite readMilterFrame_encode by done. eexists _, _. split; [reflexivity|done].
Qed.

Section theorem.
Context `{Unicode} (time_Since : milterSession -> Z) (reqID : nat -> Z) (obs : bool) (enabled : Z -> bool).
#[local] Instance session_there : TestSession milterSession := milter_TestSession time_Since.

End theorem.

Definition idleQueue : ShadowQueue unit := fun w _ => (true, w).
End fakemilter.
