(* ===== verification/MilterServe.v ===== *)
(** * The milter connections of an accepted configuration

    [internal/milterproxy/handler.go] from its construction to the end of a
    connection: the handler [main.go] builds, the sessions its adapter dials,
    and the queue of ShadowWorker.v with the turns its goroutine takes.  A
    schedule says what the network answers and when the goroutine runs. *)
From Stdlib Require Import SpecFloat.
From S2P Require Export MilterProxy Wiring.

Module milterserve.
Import protocol milter macros worker milterhandler milterproxy grpcconfig config configspec wiring.

(** ** [newMilterShadowWorker]: the queue with what has happened to it *)

Abbreviation shadowQueue := (milterShadowWorker (S := milterSession) * history)%type.
#[export] Instance queue_Submit : ShadowQueue shadowQueue := fun wh work =>
  let '(w, h) := wh in
  let '(b, w) := Submit w work in
  (b, (w, if b then {| accepted := (accepted h ++ [work])%list; completed := completed h; sent := sent h |} else h)).

(** ** The handler *)

Record HandlerDeps := {
  d_Config : Config;
  d_Adapter : MilterAdapter;
  d_Comparator : Comparator;
  d_ShadowLimiter : option ratelimit.TokenBucket
}.
(** The generator and the limiter are shared by all connections. *)
Record Handler := {
  h_cfg : milterConfig;
  h_adapter : MilterAdapter;
  h_runner : Comparator;
  h_shadowLimiter : option ratelimit.TokenBucket;
  h_rng : Z
}.

Definition newLockedRand : Z := 1.
Definition milterConfigOf (cfg : Config) : milterConfig :=
  {| mc_ShadowSamplePercent := s_SamplePercent (c_Shadow cfg); mc_MilterMacros := logfields.MilterMacros (c_LogFields cfg) |}.
Definition NewHandler (deps : HandlerDeps) : Handler :=
  {| h_cfg := milterConfigOf (d_Config deps); h_adapter := d_Adapter deps; h_runner := d_Comparator deps;
     h_shadowLimiter := d_ShadowLimiter deps; h_rng := newLockedRand |}.

(** What [fx] gives [NewHandler] in milter mode. *)
Definition depsOf `{Regexp} (cfg : Config) (a : components) : option HandlerDeps :=
  match a_Adapter a, (a_Runner a).1 with
  | MilterAdapter_ ad _, MilterComparator_ =>
      Some {| d_Config := cfg; d_Adapter := ad; d_Comparator := MilterComparator_Compare; d_ShadowLimiter := a_Limiter a |}
  | _, _ => None
  end.

(** The limiter is asked only when the connection was sampled. *)
Definition Handler_shadowEnabled (h : Handler) (now : Z) : bool * Handler :=
  let '(sampled, _) := shadowEnabled (h_cfg h) (h_rng h) None in
  let '(ok, limiter) := ratelimit.Allow (h_shadowLimiter h) now in
  let '(enabled, rng) := shadowEnabled (h_cfg h) (h_rng h) (Some ok) in
  (enabled, {| h_cfg := h_cfg h; h_adapter := h_adapter h; h_runner := h_runner h;
               h_shadowLimiter := if sampled then limiter else h_shadowLimiter h; h_rng := rng |}).

(** ** A connection *)

(** What the network answers the primary's dial; the turns the worker takes
    after each frame, and once it is closed, each with what the network answers
    when it dials and the error of its deadline, if that passes. *)
Record schedule := {
  sc_dial : string -> res conn;
  sc_turns : nat -> nat;
  sc_shadowDial : nat -> nat -> string -> res conn;
  sc_deadline : nat -> nat -> option error;
  sc_closingDial : nat -> string -> res conn;
  sc_closingDeadline : nat -> option error
}.

Inductive connection :=
  | SessionFailed (client : conn) (err : error)
  | Connected (s : connState milterSession shadowQueue).

Section handler.
Context `{Unicode} (time_Since : milterSession -> Z) (reqID : nat -> Z) (obs : bool) (enabled : Z -> bool).
#[local] Instance session_served : TestSession milterSession := milter_TestSession time_Since.

(** [worker.run]: [n] turns, fewer when the queue runs empty. *)
Definition takeTurns (h : Handler) (n : nat) (dial : nat -> string -> res conn) (deadline : nat -> option error)
    (wh : shadowQueue) : shadowQueue :=
  drain (Some (h_runner h)) n (fun j => NewSession (dial j) (h_adapter h) TargetShadow) deadline wh.

(** [shadowWorker.Close], which waits until the queue is empty. *)
Definition closeWorker (h : Handler) (sc : schedule) (wh : shadowQueue) : shadowQueue :=
  takeTurns h (length (w_queue wh.1)) (sc_closingDial sc) (sc_closingDeadline sc) (Close wh.1, wh.2).

(** [None]: out of fuel. *)
Definition Handler_HandleConn (h : Handler) (sc : schedule) (client : conn) (connectionID now : Z)
    : option (connection * Handler) :=
  match NewSession (sc_dial sc) (h_adapter h) TargetPrimary with
  | Err err => Some (SessionFailed client err, h)
  | Ok primarySession =>
      let '(shadow, h) := Handler_shadowEnabled h now in
      s ← HandleConn obs enabled reqID (h_cfg h) client connectionID primarySession (newMilterShadowWorker, emptyHistory)
            (fun k => takeTurns h (sc_turns sc k) (sc_shadowDial sc k) (sc_deadline sc k)) shadow;
      Some (Connected (with_worker s (closeWorker h sc <$> st_worker s)), h)
  end.

(** ** Specification *)

(** A connection that was just dialled has nothing written to it. *)
Definition fresh_dial (dial : string -> res conn) : Prop := forall addr c, dial addr = Ok c -> c_out c = [].
Definition fresh_schedule (sc : schedule) : Prop :=
  fresh_dial (sc_dial sc) /\ (forall k j, fresh_dial (sc_shadowDial sc k j)) /\ (forall j, fresh_dial (sc_closingDial sc j)).

(** The bytes of a list of events. *)
Definition eventBytes (es : list Event) : list ascii := flow (e_Payload <$> es).
Definition acceptedBytes (h : history) : list ascii := eventBytes (wk_event <$> accepted h).

(** What the history of a queue says of the shadow's connection. *)
Record mirrors (addr : string) (wh : shadowQueue) : Prop := {
  mi_worker : inv wh;
  mi_whole : Forall (fun work => e_Payload (wk_event work) <> "") (accepted wh.2);
  mi_session : forall s, w_session wh.1 = Some s -> c_out (ms_conn s) = e_Payload <$> sent wh.2 /\ ms_addr s = addr;
  mi_unopened : w_session wh.1 = None -> w_unavailable wh.1 = false -> sent wh.2 = []
}.

(** ** The shadow's session *)

Lemma receiveLoop_addr now fuel s req raw r s' :
  receiveLoop now fuel s req raw = Some (r, s') -> ms_addr s' = ms_addr s.
Proof.
  revert s raw. induction fuel as [|fuel IH]; intros s raw; [done|]. cbn [receiveLoop].
  destruct (readMilterFrame (c_in (ms_conn s))) as [[f|e] i]; [|by intros [= _ <-]].
  destruct (negb _); [intros E; by rewrite (IH _ _ E)|by intros [= _ <-]].
Qed.

Lemma shadowOutcome_writes (s : milterSession) ev :
  e_Payload ev <> "" ->
  let s' := (shadowOutcome s ev).2 in
  c_out (ms_conn s') = (c_out (ms_conn s) ++ [e_Payload ev])%list /\ ms_addr s' = ms_addr s.
Proof.
  intros Hp. unfold shadowOutcome. cbn [Send session_served milter_TestSession]. unfold milter_Send.
  rewrite decide_False by done. cbv zeta. destruct (c_werr (ms_conn s)); [done|].
  destruct (negb _); [done|]. set (s1 := {| ms_conn := _; ms_addr := ms_addr s |}).
  destruct (Receive s1) as [[resp err] s2] eqn:E. cbn [snd].
  pose proof (Receive_flow time_Since s1 resp err s2 E) as [-> _]. split; [done|].
  cbn [Receive session_served milter_TestSession] in E. unfold milter_Receive in E.
  destruct (receive_fuel (time_Since s1) (S (length (in_bytes (c_in (ms_conn s1))))) s1 (requestCommand s1) ""
    (Nat.lt_succ_diag_r _)) as [[r s3] Er]. rewrite Er in E. cbn [default] in E. injection E as _ <-.
  exact (receiveLoop_addr _ _ _ _ _ _ _ Er).
Qed.

Lemma RunShadowEvent_writes comparator (s : milterSession) ev ctxDone primary :
  e_Payload ev <> "" ->
  let s' := (RunShadowEvent comparator s ev ctxDone primary).2 in
  c_out (ms_conn s') = (c_out (ms_conn s) ++ [e_Payload ev])%list /\ ms_addr s' = ms_addr s.
Proof.
  intros Hp. unfold RunShadowEvent, runShadow. pose proof (shadowOutcome_writes s ev Hp) as G.
  destruct (shadowOutcome s ev) as [o s']. exact G.
Qed.

Lemma NewSession_shadow dial ad s :
  NewSession dial ad TargetShadow = Ok s -> fresh_dial dial -> c_out (ms_conn s) = [] /\ ms_addr s = ma_ShadowAddr ad.
Proof.
  intros (addr & Ea & E)%res_bind_ok Hf. injection Ea as <-. destruct (decide _); [done|].
  apply res_bind_ok in E as (c & Ec & [= <-]). split; [by eapply Hf|done].
Qed.

Lemma processWork_writes comparator ad dial ctxDone session unavailable work sentBefore result wasSent session' unavailable' :
  processWork comparator (NewSession dial ad TargetShadow) ctxDone session unavailable work
    = (result, wasSent, session', unavailable') ->
  fresh_dial dial -> e_Payload (wk_event work) <> "" ->
  (forall s, session = Some s -> c_out (ms_conn s) = sentBefore /\ ms_addr s = ma_ShadowAddr ad) ->
  (session = None -> unavailable = false -> sentBefore = []) -> (unavailable = true -> session = None) ->
  (forall s, session' = Some s ->
     c_out (ms_conn s) = (sentBefore ++ if wasSent then [e_Payload (wk_event work)] else [])%list /\ ms_addr s = ma_ShadowAddr ad) /\
  (session' = None -> unavailable' = true).
Proof.
  intros E Hf Hp Hs Hn Hu. unfold processWork in E.
  assert (Hrun : forall s, c_out (ms_conn s) = sentBefore /\ ms_addr s = ma_ShadowAddr ad ->
    (let '(result, s) := RunShadowEvent comparator s (wk_event work) ctxDone (wk_primary work) in
      if decide (rr_ShadowErr result = "") then (result, true, Some s, false) else (result, true, None, true))
      = (result, wasSent, session', unavailable') ->
    (forall s, session' = Some s ->
       c_out (ms_conn s) = (sentBefore ++ if wasSent then [e_Payload (wk_event work)] else [])%list /\ ms_addr s = ma_ShadowAddr ad) /\
    (session' = None -> unavailable' = true)).
  { intros s [H1 H2]. pose proof (RunShadowEvent_writes comparator s (wk_event work) ctxDone (wk_primary work) Hp) as [W1 W2].
    destruct (RunShadowEvent _ _ _ _ _) as [r s']. cbn [snd] in W1, W2. destruct (decide _); intros [= _ <- <- <-]; [|done].
    split; [intros ? [= <-]|done]. by rewrite W1, W2, H1, H2. }
  destruct unavailable; [injection E as _ <- <- <-; by rewrite (Hu eq_refl)|].
  destruct session as [s|]; [exact (Hrun s (Hs s eq_refl) E)|].
  destruct (NewSession dial ad TargetShadow) as [s|e] eqn:En; [|by injection E as _ <- <- <-].
  apply (Hrun s); [|exact E]. rewrite (Hn eq_refl eq_refl). exact (NewSession_shadow _ _ _ En Hf).
Qed.
(** ** The queue *)

Lemma runStep_mirrors comparator ad dial ctxDone wh wh' :
  runStep comparator (NewSession dial ad TargetShadow) ctxDone wh = Some wh' ->
  fresh_dial dial -> mirrors (ma_ShadowAddr ad) wh ->
  mirrors (ma_ShadowAddr ad) wh' /\ w_closed wh'.1 = w_closed wh.1 /\ accepted wh'.2 = accepted wh.2.
Proof.
  intros E Hf [Hi Hw Hs Hn]. pose proof (inv_step comparator _ _ Hi (step_run _ _ _ _ _ E)) as Hi'.
  destruct wh as [w h]. cbn [runStep] in E. destruct (w_queue w) as [|work queue] eqn:Eq; [done|].
  destruct (processWork _ _ _ _ _) as [[[result wasSent] session'] unavailable'] eqn:Ep. injection E as <-.
  assert (Hp : e_Payload (wk_event work) <> "").
  { pose proof (inv_fifo _ Hi) as Ef. cbn [fst snd] in *. rewrite Ef, Eq in Hw. apply Forall_app in Hw as [_ Hw].
    by apply Forall_cons in Hw as [Hw _]. }
  apply (processWork_writes _ _ _ _ _ _ _ (e_Payload <$> sent h)) in Ep as [P1 P2]; try done.
  - split; [split; cbn [fst snd w_session w_unavailable sent accepted]; try done|done].
    + intros s' E'. destruct (P1 s' E') as [C ?]. split; [|done]. rewrite C. destruct wasSent; [by rewrite fmap_app|apply app_nil_r].
    + intros E' E''. by rewrite (P2 E') in E''.
  - intros E1 E2. cbn [fst snd] in Hn. by rewrite (Hn E1 E2).
  - exact (inv_unavailable _ Hi).
Qed.

Lemma takeTurns_mirrors h n dial deadline wh :
  (forall j, fresh_dial (dial j)) -> mirrors (ma_ShadowAddr (h_adapter h)) wh ->
  let wh' := takeTurns h n dial deadline wh in
  mirrors (ma_ShadowAddr (h_adapter h)) wh' /\ w_closed wh'.1 = w_closed wh.1 /\ accepted wh'.2 = accepted wh.2.
Proof.
  intros Hf. unfold takeTurns. revert dial deadline wh Hf. induction n as [|n IH]; intros dial deadline wh Hf Hm; [done|].
  cbn [drain]. destruct (runStep _ _ _ wh) as [wh1|] eqn:E; [|done].
  apply runStep_mirrors in E as (M & C & A); [|done|done]. rewrite <- C, <- A.
  apply (IH (fun j => dial (S j)) (fun j => deadline (S j))); [intros j; apply Hf|exact M].
Qed.

Lemma mirrors_start addr : mirrors addr (newMilterShadowWorker, emptyHistory).
Proof. split; cbn; try done. apply reachable_init. Qed.

(** The queue holds what the primary was sent, while it takes work. *)
Definition covers (wh : shadowQueue) (bytes : list ascii) : Prop :=
  acceptedBytes wh.2 `prefix_of` bytes /\ (w_closed wh.1 = false -> acceptedBytes wh.2 = bytes).

Lemma submit_covers addr wh work bytes :
  mirrors addr wh -> covers wh bytes -> e_Payload (wk_event work) <> "" ->
  let wh' := (submit wh work).2 in
  mirrors addr wh' /\ covers wh' (bytes ++ chars (e_Payload (wk_event work))) /\
  (w_closed wh.1 = false -> (length (accepted wh.2) < milterShadowQueueCapacity)%nat ->
   w_closed wh'.1 = false /\ length (accepted wh'.2) = S (length (accepted wh.2))).
Proof.
  intros [Hi Hw Hs Hn] [C1 C2] Hp. destruct wh as [w h]. unfold submit, queue_Submit.
  destruct (Submit w work) as [b w'] eqn:Es.
  pose proof (inv_step None _ _ Hi (step_submit None w h work b w' Es)) as Hi'. cbn [fst snd] in *.
  assert (Hq : (length (w_queue w) <= length (accepted h))%nat).
  { pose proof (inv_fifo _ Hi) as Ef. cbn [fst snd] in Ef. rewrite Ef, length_app. lia. }
  assert (Hold : acceptedBytes h `prefix_of` (bytes ++ chars (e_Payload (wk_event work)))) by by apply prefix_app_r.
  unfold Submit in Es. destruct (w_closed w) eqn:Ec.
  { injection Es as <- <-. split; [by split|]. split; [|done]. split; [done|]. cbn [fst]. by rewrite Ec. }
  destruct (decide _) as [Hl|Hl]; injection Es as <- <-.
  - assert (Ha : acceptedBytes {| accepted := (accepted h ++ [work])%list; completed := completed h; sent := sent h |} =
        (bytes ++ chars (e_Payload (wk_event work)))%list).
    { unfold acceptedBytes, eventBytes. cbn [accepted]. rewrite !fmap_app, <- (C2 eq_refl). apply flow_snoc. }
    split; [split; cbn [snd accepted]; try done|split; [split; cbn [snd]; rewrite Ha; done|]].
    + apply Forall_app. split; [done|by constructor].
    + intros _ _. cbn [fst snd w_closed accepted]. by rewrite length_app, Nat.add_comm.
  - split; [by split|]. split; [by split|]. intros _ Hlt. lia.
Qed.

(** ** Serving *)

Section serving.
Context (addr : string) (evolve : nat -> shadowQueue -> shadowQueue).
Context (Hevolve : forall k wh, mirrors addr wh ->
  mirrors addr (evolve k wh) /\ w_closed (evolve k wh).1 = w_closed wh.1 /\ accepted (evolve k wh).2 = accepted wh.2).

Lemma evolve_covers k wh bytes : mirrors addr wh -> covers wh bytes -> covers (evolve k wh) bytes.
Proof. intros (_ & C & A)%(Hevolve k). unfold covers, acceptedBytes. by rewrite C, A. Qed.

Lemma handleFrame_queue k sh frame (s : connState milterSession shadowQueue) wh :
  Raw frame <> "" -> st_worker s = Some wh -> mirrors addr wh -> covers wh (toPrimary (st_primary s)) ->
  let '(ok, s') := handleFrame obs enabled reqID k sh frame s in
  exists wh', st_worker s' = Some wh' /\ mirrors addr wh' /\ acceptedBytes wh'.2 `prefix_of` toPrimary (st_primary s') /\
    (ok = true -> covers wh' (toPrimary (st_primary s')) /\
       (w_closed wh.1 = false -> (length (accepted wh.2) < milterShadowQueueCapacity)%nat ->
        w_closed wh'.1 = false /\ length (accepted wh'.2) = S (length (accepted wh.2)))).
Proof.
  intros Hr Ew Hm Hc. pose proof (handleFrame_relay obs enabled reqID k sh frame s) as R.
  pose proof (handleFrame_worker obs enabled reqID k sh frame s) as W. cbv zeta in W. rewrite Ew in W.
  pose proof (relay_flow time_Since reqID k frame (st_client s) (st_primary s) Hr) as F.
  change (st_client s, st_primary s) with (visible s) in F.
  destruct (handleFrame obs enabled reqID k sh frame s) as [ok s']. unfold session_served in R. rewrite R in F.
  destruct F as (_ & Hp & _).
  destruct ok; cbn [fmap option_fmap option_map] in W.
  - eexists. split; [exact W|].
    set (work := {| wk_event := frameEvent (reqID k) frame; wk_primary := _ |}).
    destruct (submit_covers addr wh work _ Hm Hc Hr) as (M & C & L). rewrite Hp.
    split_and!; [exact M|exact (proj1 C)|]. intros _. by split.
  - exists wh. split_and!; [exact W|exact Hm| |done]. rewrite Hp. apply prefix_app_r, Hc.
Qed.

Lemma serve_queue fuel k sh (s s' : connState milterSession shadowQueue) wh :
  serve obs enabled reqID fuel k evolve sh s = Some s' ->
  st_worker s = Some wh -> mirrors addr wh -> covers wh (toPrimary (st_primary s)) ->
  exists wh', st_worker s' = Some wh' /\ mirrors addr wh' /\ acceptedBytes wh'.2 `prefix_of` toPrimary (st_primary s').
Proof.
  revert k s wh. induction fuel as [|fuel IH]; intros k s wh; [done|]. cbn [serve].
  destruct (ReadFrame (c_in (st_client s))) as [[frame|e] i] eqn:E; intros G Ew Hm Hc.
  - set (s1 := with_client s _) in G.
    pose proof (handleFrame_queue k sh frame s1 wh (readMilterFrame_raw _ _ _ E) Ew Hm Hc) as Q.
    destruct (handleFrame obs enabled reqID k sh frame s1) as [[] s2]; destruct Q as (wh2 & Q1 & Q2 & Q3 & Q4).
    + destruct (Q4 eq_refl) as [Q _]. rewrite Q1 in G. apply (IH _ _ (evolve k wh2)) in G; [exact G|done| |].
      * by apply Hevolve.
      * by apply evolve_covers.
    + injection G as <-. by exists wh2.
  - injection G as <-. exists wh. unfold stopLog. destruct (_ || _); by split_and!; [|..|apply Hc].
Qed.
(** A dialogue the queue is long enough for. *)
Lemma serve_mirrored ts fuel k sh (s s' : connState milterSession shadowQueue) wh rest :
  serve obs enabled reqID fuel k evolve sh s = Some s' ->
  Forall turn_ok ts -> c_werr (st_client s) = None -> c_werr (ms_conn (st_primary s)) = None ->
  in_bytes (c_in (st_client s)) = requests ts -> fromPrimary (st_primary s) = (answers ts ++ rest)%list ->
  st_worker s = Some wh -> mirrors addr wh -> covers wh (toPrimary (st_primary s)) -> w_closed wh.1 = false ->
  (length (accepted wh.2) + length ts <= milterShadowQueueCapacity)%nat ->
  exists wh', st_worker s' = Some wh' /\ acceptedBytes wh'.2 = toPrimary (st_primary s').
Proof.
  revert fuel k s wh. induction ts as [|t ts IH]; intros [|fuel] k s wh; try done;
    cbn [serve]; intros G Ht Hc Hp Hi Ho Ew Hm Hcov Hop Hlen.
  - destruct (c_in (st_client s)) as [bytes e]. cbn in Hi. subst bytes. cbn in G. injection G as <-.
    exists wh. unfold stopLog. destruct (_ || _); (split; [done|by apply Hcov]).
  - apply Forall_cons in Ht as [Ht Hts]. rewrite requests_cons in Hi. rewrite answers_cons, <- app_assoc in Ho.
    destruct (c_in (st_client s)) as [bytes e] eqn:Ec. cbn [in_bytes] in Hi. subst bytes.
    pose proof (readMilterFrame_encode (t_command t) (t_payload t) (requests ts) e (proj1 Ht)) as Er.
    unfold ReadFrame in G. rewrite Er in G. set (frame := {| Command := t_command t |}) in *. set (s1 := with_client s _) in G.
    pose proof (handleFrame_queue k sh frame s1 wh (readMilterFrame_raw _ _ _ Er) Ew Hm Hcov) as Q.
    pose proof (handleFrame_relay obs enabled reqID k sh frame s1) as R.
    pose proof (relay_turn time_Since reqID k t (st_client s1) (st_primary s) _ Ht Hc Hp Ho) as T. cbv zeta in T. fold frame in T.
    pose proof (relay_in reqID k frame (visible s1)) as In.
    destruct (handleFrame obs enabled reqID k sh frame s1) as [ok s2]. rewrite R in In. unfold session_served in R.
    change (st_client s1, st_primary s) with (visible s1) in T. rewrite R in T. destruct T as (-> & Tc & Tp & Tin).
    destruct Q as (wh2 & Q1 & Q2 & Q3 & Q4). destruct (Q4 eq_refl) as [Qc Ql].
    cbn [length] in Hlen. destruct (Ql Hop) as [Qo Qn]; [lia|]. rewrite Q1 in G.
    destruct (Hevolve k wh2 Q2) as (Em & Eo & Ea).
    apply (IH fuel (S k) _ (evolve k wh2) G Hts Tc Tp); try done.
    + change (c_in (st_client s2) = c_in (st_client s1)) in In. cbn [st_client with_worker]. by rewrite In.
    + by apply evolve_covers.
    + by rewrite Eo.
    + rewrite Ea, Qn. lia.
Qed.
End serving.

(** *** The end of a connection *)

Lemma closeWorker_drained h sc wh :
  fresh_schedule sc -> mirrors (ma_ShadowAddr (h_adapter h)) wh ->
  let wh' := closeWorker h sc wh in
  mirrors (ma_ShadowAddr (h_adapter h)) wh' /\ w_queue wh'.1 = [] /\ accepted wh'.2 = accepted wh.2 /\
  (completed wh'.2).*1 = accepted wh.2.
Proof.
  intros (_ & _ & Hf) Hm. destruct Hm as [Hi Hw Hs Hn]. destruct wh as [w h0].
  pose proof (inv_step None _ _ Hi (step_close None w h0)) as Hi'.
  assert (Hm' : mirrors (ma_ShadowAddr (h_adapter h)) (Close w, h0)) by (split; done).
  unfold closeWorker. cbn [fst snd].
  destruct (takeTurns_mirrors h (length (w_queue w)) (sc_closingDial sc) (sc_closingDeadline sc) (Close w, h0) Hf Hm') as (M & _ & A).
  destruct (drain_spec (Some (h_runner h)) (length (w_queue w)) (fun j => NewSession (sc_closingDial sc j) (h_adapter h) TargetShadow)
    (sc_closingDeadline sc) (Close w, h0) eq_refl Hi' eq_refl) as (_ & Id & _ & Q & _).
  fold (takeTurns h (length (w_queue w)) (sc_closingDial sc) (sc_closingDeadline sc) (Close w, h0)) in Id, Q.
  set (wh' := takeTurns _ _ _ _ _) in *. split; [exact M|]. split; [exact Q|]. split; [exact A|].
  pose proof (inv_fifo _ Id) as Ef. rewrite Q, app_nil_r, A in Ef. by rewrite <- Ef.
Qed.

Lemma eventBytes_prefix es es' : es `prefix_of` es' -> eventBytes es `prefix_of` eventBytes es'.
Proof. intros [k ->]. unfold eventBytes, flow. rewrite fmap_app, bind_app. by apply prefix_app_r. Qed.

(** What the shadow milter was sent of what the primary was. *)
Lemma mirrored_bytes addr (wh : shadowQueue) :
  mirrors addr wh -> w_queue wh.1 = [] -> eventBytes (sent wh.2) `prefix_of` acceptedBytes wh.2 /\
  (w_unavailable wh.1 = false -> eventBytes (sent wh.2) = acceptedBytes wh.2) /\
  (forall s, w_session wh.1 = Some s -> toPrimary s = eventBytes (sent wh.2) /\ ms_addr s = addr).
Proof.
  intros [Hi _ Hs _] Hq. pose proof (inv_fifo _ Hi) as Ef. rewrite Hq, app_nil_r in Ef.
  unfold acceptedBytes. rewrite Ef. split; [apply eventBytes_prefix; exact (inv_prefix _ Hi)|]. split.
  - intros Hu. by rewrite (inv_all _ Hi Hu).
  - intros s E. destruct (Hs s E) as [C ?]. split; [|done]. unfold toPrimary, eventBytes. by rewrite C.
Qed.
(** ** What an accepted configuration does with a connection *)

(** A handler of [cfg], whatever connections it has served. *)
Record configured (cfg : Config) (h : Handler) : Prop := {
  cf_cfg : h_cfg h = milterConfigOf cfg;
  cf_runner : h_runner h = MilterComparator_Compare;
  cf_primary : ma_PrimaryAddr (h_adapter h) = f_PrimaryMilterAddr (c_Plain cfg);
  cf_shadow : ma_ShadowAddr (h_adapter h) = f_ShadowMilterAddr (c_Plain cfg);
  cf_limiter : SFleb (s_RPS (c_Shadow cfg)) compare.f0 = true -> h_shadowLimiter h = None
}.

(** What was sent to whom once [client] has been served with the primary's
    connection [pc]. *)
Record proxied (cfg : Config) (client pc : conn) (s : connState milterSession shadowQueue) : Prop := {
  px_toPrimary : toPrimary (st_primary s) `prefix_of` in_bytes (c_in client);
  px_toClient : exists got, flow (c_out (st_client s)) = (flow (c_out client) ++ got)%list /\ got `prefix_of` in_bytes (c_in pc);
  px_never : s_SamplePercent (c_Shadow cfg) <= 0 -> st_worker s = None;
  px_always : 100 <= s_SamplePercent (c_Shadow cfg) -> SFleb (s_RPS (c_Shadow cfg)) compare.f0 = true -> is_Some (st_worker s);
  px_shadow w h : st_worker s = Some (w, h) ->
    w_queue w = [] /\ (completed h).*1 = accepted h /\ eventBytes (sent h) `prefix_of` toPrimary (st_primary s) /\
    forall ss, w_session w = Some ss -> toPrimary ss = eventBytes (sent h) /\ ms_addr ss = f_ShadowMilterAddr (c_Plain cfg);
  px_dialogue ts rest : Forall turn_ok ts -> c_werr client = None -> c_werr pc = None ->
    in_bytes (c_in client) = requests ts -> in_bytes (c_in pc) = (answers ts ++ rest)%list ->
    toPrimary (st_primary s) = requests ts /\ flow (c_out (st_client s)) = (flow (c_out client) ++ answers ts)%list /\
    forall w h, st_worker s = Some (w, h) -> (length ts <= milterShadowQueueCapacity)%nat -> w_unavailable w = false ->
      eventBytes (sent h) = requests ts
}.

Lemma serve_unmirrored fuel k evolve sh (s s' : connState milterSession shadowQueue) :
  serve obs enabled reqID fuel k evolve sh s = Some s' -> st_worker s = None -> st_worker s' = None.
Proof.
  revert k s. induction fuel as [|fuel IH]; intros k s; [done|]. cbn [serve].
  destruct (ReadFrame (c_in (st_client s))) as [[frame|e] i]; intros G Ew.
  - set (s1 := with_client s _) in G. pose proof (handleFrame_worker obs enabled reqID k sh frame s1) as W. cbv zeta in W.
    change (st_worker s1) with (st_worker s) in W. rewrite Ew in W.
    destruct (handleFrame obs enabled reqID k sh frame s1) as [[] s2]; cbn in W.
    + by apply IH in G; [|cbn; by rewrite W].
    + by injection G as <-.
  - injection G as <-. unfold stopLog. by destruct (_ || _).
Qed.

Lemma Handler_shadowEnabled_configured cfg h now :
  configured cfg h ->
  let '(shadow, h') := Handler_shadowEnabled h now in
  configured cfg h' /\ h_adapter h' = h_adapter h /\
  (s_SamplePercent (c_Shadow cfg) <= 0 -> shadow = false) /\
  (100 <= s_SamplePercent (c_Shadow cfg) -> SFleb (s_RPS (c_Shadow cfg)) compare.f0 = true -> shadow = true).
Proof.
  intros [H1 H2 H3 H4 H5]. unfold Handler_shadowEnabled. rewrite H1.
  destruct (shadowEnabled (milterConfigOf cfg) (h_rng h) None) as [sampled rng0].
  destruct (ratelimit.Allow (h_shadowLimiter h) now) as [ok limiter] eqn:El.
  destruct (shadowEnabled (milterConfigOf cfg) (h_rng h) (Some ok)) as [shadow rng] eqn:Es.
  assert (Hl : SFleb (s_RPS (c_Shadow cfg)) compare.f0 = true -> ok = true /\ limiter = None).
  { intros E. rewrite (H5 E) in El. by injection El as <- <-. }
  unfold shadowEnabled in Es. cbn [mc_ShadowSamplePercent milterConfigOf] in Es. split.
  - split; cbn; try done. intros E. destruct sampled; [by apply Hl|by apply H5].
  - split; [done|]. split.
    + intros Hp. rewrite (proj2 (Z.leb_gt _ _)), (proj2 (Z.ltb_ge _ _)) in Es by lia. by injection Es as <- <-.
    + intros Hp E. rewrite (proj2 (Z.leb_le _ _)) in Es by lia. destruct (Hl E) as [-> _]. by injection Es as <- <-.
Qed.

(** The queue of a connection that is mirrored, once it is closed. *)
Lemma HandleConn_queue cfg h sc client cid (p : milterSession) s :
  configured cfg h -> fresh_schedule sc -> toPrimary p = [] ->
  HandleConn obs enabled reqID (h_cfg h) client cid p (newMilterShadowWorker, emptyHistory)
    (fun k => takeTurns h (sc_turns sc k) (sc_shadowDial sc k) (sc_deadline sc k)) true = Some s ->
  exists wh, st_worker s = Some wh /\ let wh' := closeWorker h sc wh in
    mirrors (f_ShadowMilterAddr (c_Plain cfg)) wh' /\ w_queue wh'.1 = [] /\ (completed wh'.2).*1 = accepted wh'.2 /\
    acceptedBytes wh'.2 `prefix_of` toPrimary (st_primary s) /\
    forall ts rest, Forall turn_ok ts -> c_werr client = None -> c_werr (ms_conn p) = None ->
      in_bytes (c_in client) = requests ts -> fromPrimary p = (answers ts ++ rest)%list ->
      (length ts <= milterShadowQueueCapacity)%nat -> acceptedBytes wh'.2 = toPrimary (st_primary s).
Proof.
  intros Hcf Hsc Hp E. pose proof Hsc as (_ & Hf & _). unfold HandleConn in E. set (addr := ma_ShadowAddr (h_adapter h)).
  set (evolve := fun k => takeTurns _ _ _ _) in E.
  assert (He : forall k wh, mirrors addr wh -> mirrors addr (evolve k wh) /\
    w_closed (evolve k wh).1 = w_closed wh.1 /\ accepted (evolve k wh).2 = accepted wh.2).
  { intros k wh Hm. by apply takeTurns_mirrors. }
  pose proof (mirrors_start addr) as M.
  match type of E with serve _ _ _ ?f 0 _ _ ?s0 = _ => pose proof (serve_queue addr evolve He f 0 true s0 s (newMilterShadowWorker, emptyHistory) E eq_refl M) as Q;
    pose proof (fun ts rest => serve_mirrored addr evolve He ts f 0 true s0 s (newMilterShadowWorker, emptyHistory) rest E) as D end.
  cbn [st_primary st_client st_worker fst snd] in *.
  assert (C : covers (newMilterShadowWorker, emptyHistory) (toPrimary p)) by by rewrite Hp.
  destruct (Q C) as (wh & Ew & Q2 & Q3). exists wh. split; [done|].
  destruct (closeWorker_drained h sc wh Hsc Q2) as (M' & D1 & D2 & D3). rewrite <- (cf_shadow _ _ Hcf).
  unfold acceptedBytes in *. cbv zeta. rewrite D2, D3. split_and!; [done..|]. intros ts rest Ht Hc Hpe Hi Ho Hl.
  destruct (D ts rest Ht Hc Hpe Hi Ho eq_refl M C eq_refl Hl) as (wh' & Ew' & Ea). rewrite Ew in Ew'. by injection Ew' as <-.
Qed.

Lemma NewSession_primary dial ad p :
  NewSession dial ad TargetPrimary = Ok p -> fresh_dial dial ->
  dial (ma_PrimaryAddr ad) = Ok (ms_conn p) /\ toPrimary p = [].
Proof.
  intros (addr & Ea & E)%res_bind_ok Hf. injection Ea as <-. destruct (decide _); [done|].
  apply res_bind_ok in E as (c & Ec & [= <-]). split; [exact Ec|]. unfold toPrimary. cbn [ms_conn]. by rewrite (Hf _ _ Ec).
Qed.

Lemma NewSession_fails dial ad err :
  NewSession dial ad TargetPrimary = Err err -> ma_PrimaryAddr ad = "" \/ dial (ma_PrimaryAddr ad) = Err err.
Proof.
  unfold NewSession. rewrite decide_True by done. cbn [mbind res_bind]. case_decide; [by left|].
  destruct (dial _); cbn; intros [= ->]. by right.
Qed.

(** The connection once the primary has been dialled. *)
Lemma HandleConn_proxied cfg h sc client cid now p :
  configured cfg h -> fresh_schedule sc -> NewSession (sc_dial sc) (h_adapter h) TargetPrimary = Ok p ->
  exists s h', Handler_HandleConn h sc client cid now = Some (Connected s, h') /\ configured cfg h' /\ proxied cfg client (ms_conn p) s.
Proof.
  intros Hcf Hf Ep. unfold Handler_HandleConn. rewrite Ep. apply NewSession_primary in Ep as [_ Hp]; [|apply Hf].
  pose proof (Handler_shadowEnabled_configured cfg h now Hcf) as S.
  destruct (Handler_shadowEnabled h now) as [shadow h1]. destruct S as (C1 & Ead & S1 & S2).
  set (evolve := fun k => takeTurns h1 _ _ _).
  destruct (milter_transparent time_Since reqID obs enabled (h_cfg h1) client cid p (newMilterShadowWorker, emptyHistory) evolve shadow)
    as (s & E & (sentP & T1 & T1') & T2 & T3).
  change (HandleConn obs enabled reqID (h_cfg h1) client cid p (newMilterShadowWorker, emptyHistory) evolve shadow = Some s) in E.
  rewrite E. cbn [mbind option_bind]. eexists _, h1. split; [reflexivity|]. split; [exact C1|].
  rewrite Hp in T1. cbn [app] in T1.
  assert (Hn : shadow = false -> st_worker s = None).
  { intros ->. unfold HandleConn in E. by apply serve_unmirrored in E. }
  assert (Hw : shadow = true -> _) by (intros ->; exact (HandleConn_queue cfg h1 sc client cid p s C1 Hf Hp E)).
  split; cbn [st_primary st_client st_worker with_worker].
  - by rewrite T1.
  - exact T2.
  - intros Hl. by rewrite (Hn (S1 Hl)).
  - intros Hl Hr. destruct (Hw (S2 Hl Hr)) as (wh & -> & _). by eexists.
  - intros w h0 Ew. destruct shadow; [|by rewrite (Hn eq_refl) in Ew]. destruct (Hw eq_refl) as (wh & Ew' & M & D1 & D2 & D3 & _).
    rewrite Ew' in Ew. injection Ew as Ew. rewrite Ew in *. destruct (mirrored_bytes _ _ M D1) as (B1 & _ & B3).
    split_and!; [exact D1|exact D2|by etrans|exact B3].
  - intros ts rest Ht Hc Hpe Hi Ho. destruct (T3 ts rest Ht Hc Hpe Hi Ho) as (U1 & U2 & _). rewrite Hp in U1. cbn [app] in U1.
    split_and!; [exact U1|exact U2|]. intros w h0 Ew Hl Hu. destruct shadow; [|by rewrite (Hn eq_refl) in Ew].
    destruct (Hw eq_refl) as (wh & Ew' & M & D1 & _ & _ & D4). rewrite Ew' in Ew. injection Ew as Ew. rewrite Ew in *.
    destruct (mirrored_bytes _ _ M D1) as (_ & B2 & _). cbn [fst snd] in *. by rewrite (B2 Hu), (D4 ts rest Ht Hc Hpe Hi Ho Hl), U1.
Qed.
End handler.

Section theorem.
Context `{Regexp} `{Unicode} `{URLs} `{PEMFiles}.
Context (asURL : parsedURL -> backend.URL parsedURL) (unq : string -> option string).
Context (range : gmap string string -> list (string * string)) (Hrange : forall m, range m ≡ₚ map_to_list m).
Context (time_Since : milterSession -> Z) (reqID : nat -> Z) (obs : bool) (enabled : Z -> bool).

(** C9. An accepted milter configuration proxies every connection as it
    describes.  The connection is served until it ends, unless the configured
    primary cannot be dialled, and then the client is sent nothing.  Whatever
    the two peers send, the primary is sent a prefix of the client's bytes and
    the client a prefix of the primary's; turns the primary answers in full all
    arrive, and so do the answers.  Whatever the shadow answers and whenever its
    goroutine runs, every frame taken for it is completed before the connection
    is over, and what it is sent, at its configured address, is a prefix of what
    the primary was sent: all of it when the dialogue is no longer than the
    queue and the shadow stays available.  No connection is mirrored at a
    sampling of 0, every one at 100 without a rate limit. *)
Theorem accepted_milter_proxied cfg0 cfg now a :
  validate unq range cfg0 = Ok cfg -> c_Protocol cfg = config.protocolMilter ->
  newApp asURL cfg obs now = Ok a ->
  exists deps, depsOf cfg a = Some deps /\ configured cfg (NewHandler deps) /\
  forall h sc client cid t, configured cfg h -> fresh_schedule sc ->
  exists out h', Handler_HandleConn time_Since reqID obs enabled h sc client cid t = Some (out, h') /\ configured cfg h' /\
    let addr := f_PrimaryMilterAddr (c_Plain cfg) in
    match out with
    | SessionFailed c err => c = client /\ (addr = "" \/ sc_dial sc addr = Err err)
    | Connected s => exists pc, sc_dial sc addr = Ok pc /\ proxied cfg client pc s
    end.
Proof.
  intros Hv Hp Ha. pose proof (newApp_wired asURL unq cfg obs now (validate_sound unq range Hrange _ _ Hv)) as Hw.
  rewrite Ha in Hw. assert (Hlim : a_Limiter a = NewShadowLimiter cfg now) by exact (newApp_limiter _ _ _ _ _ Ha).
  destruct Hw as (_ & _ & _ & _ & _ & Hw). rewrite Hp in Hw. unfold depsOf.
  destruct (a_Adapter a) as [ad|ad timeout|]; [by destruct Hw| |by destruct Hw]. destruct Hw as (_ & -> & _ & W1 & W2).
  eexists. split; [reflexivity|]. split.
  { split; [done|done|exact W1|exact W2|]. intros E. unfold NewShadowLimiter in Hlim. by rewrite E in Hlim. }
  intros h sc client cid t Hc Hf. destruct (NewSession (sc_dial sc) (h_adapter h) TargetPrimary) as [p|err] eqn:Ep.
  - destruct (HandleConn_proxied time_Since reqID obs enabled cfg h sc client cid t p Hc Hf Ep) as (s & h' & E & C & P).
    exists (Connected s), h'. split_and!; [exact E|exact C|]. exists (ms_conn p). split; [|exact P].
    rewrite <- (cf_primary _ _ Hc). by eapply NewSession_primary; [|apply Hf].
  - exists (SessionFailed client err), h. unfold Handler_HandleConn. rewrite Ep. split_and!; [done..|].
    rewrite <- (cf_primary _ _ Hc). exact (NewSession_fails _ _ _ Ep).
Qed.
End theorem.

(** ** Witness: a message accepted by both milters *)

Definition milterDefaults : gmap string defaultValue :=
  <["protocol" := DString "Milter"]> (<["shadow_sample_percent" := DInt 100]>
    (<["shadow_rps" := DFloat compare.f0]> defaults)).
Definition exampleAccepted : res Config :=
  cfg ← @decode configspec.exampleURLs milterDefaults;
  @validate literalRegexp asciiUnicode configspec.exampleURLs grpcconfigspec.noFiles (fun _ => None) map_to_list cfg.
Definition exampleBuilt (cfg : Config) : res components :=
  @newApp asciiUnicode exampleURL literalRegexp grpcconfigspec.noFiles cfg false 0.

Definition exampleTurn : turn := {| t_command := "E"; t_payload := ""; t_replies := [("a"%char, "")] |}.
Definition exampleClient : conn := fakemilter.sends (requests [exampleTurn]).
Definition examplePeer : string -> res conn := fun _ => Ok (fakemilter.sends (answers [exampleTurn])).
(** The worker runs only once it is closed. *)
Definition exampleSchedule : schedule :=
  {| sc_dial := examplePeer; sc_turns := fun _ => O; sc_shadowDial := fun _ _ => examplePeer; sc_deadline := fun _ _ => None;
     sc_closingDial := fun _ => examplePeer; sc_closingDeadline := fun _ => None |}.
Definition exampleServed (h : Handler) : option (connection * Handler) :=
  @Handler_HandleConn asciiUnicode (fun _ => 0) Z.of_nat false (fun _ => true) h exampleSchedule exampleClient 1 0.

Lemma example_fresh : fresh_schedule exampleSchedule.
Proof. split; [|split]; repeat intros ?; by match goal with E : _ = Ok _ |- _ => injection E as <- end. Qed.
Lemma example_turn_ok : Forall turn_ok [exampleTurn].
Proof. repeat constructor. by exists [], ("a"%char, ""). Qed.

Lemma milter_example_accepted :
  exists cfg0 cfg a, @validate literalRegexp asciiUnicode configspec.exampleURLs grpcconfigspec.noFiles (fun _ => None) map_to_list cfg0 = Ok cfg /\
    exampleBuilt cfg = Ok a /\ c_Protocol cfg = config.protocolMilter /\ 100 <= s_SamplePercent (c_Shadow cfg) /\
    SFleb (s_RPS (c_Shadow cfg)) compare.f0 = true /\ f_PrimaryMilterAddr (c_Plain cfg) <> "".
Proof.
  destruct exampleAccepted as [cfg|e] eqn:E; [|vm_compute in E; discriminate E].
  pose proof E as E0. apply res_bind_ok in E as (cfg0 & _ & E). exists cfg0, cfg.
  destruct (exampleBuilt cfg) as [a|e] eqn:Ea.
  - exists a. split_and!; [exact E|reflexivity|..]; vm_compute in E0; injection E0 as <-; vm_compute; done.
  - exfalso. vm_compute in E0. injection E0 as <-. vm_compute in Ea. discriminate Ea.
Qed.

Lemma accepted_milter_proxied_witness :
  exists cfg a deps s h' pc w, exampleBuilt cfg = Ok a /\ depsOf cfg a = Some deps /\
    exampleServed (NewHandler deps) = Some (Connected s, h') /\ proxied cfg exampleClient pc s /\
    st_worker s = Some w /\ flow (c_out (st_client s)) = answers [exampleTurn].
Proof.
  destruct milter_example_accepted as (cfg0 & cfg & a & Ev & Ea & Ep & Hs & Hr & Hn).
  destruct (@accepted_milter_proxied literalRegexp asciiUnicode configspec.exampleURLs grpcconfigspec.noFiles exampleURL (fun _ => None)
    map_to_list grpcconfigspec.example_order (fun _ => 0) Z.of_nat false (fun _ => true) cfg0 cfg 0 a Ev Ep Ea) as (deps & Ed & Hc & G).
  destruct (G (NewHandler deps) exampleSchedule exampleClient 1 0 Hc example_fresh) as (out & h' & E & _ & Ho).
  destruct out as [c err|s]; [by destruct Ho as (_ & [?|[=]])|].
  destruct Ho as (pc & Epc & P). destruct (px_always _ _ _ _ P Hs Hr) as [w Ew]. exists cfg, a, deps, s, h', pc, w.
  split; [exact Ea|]. split; [exact Ed|]. split; [exact E|]. split; [exact P|]. split; [exact Ew|]. injection Epc as <-.
  destruct (px_dialogue _ _ _ _ P [exampleTurn] [] example_turn_ok eq_refl eq_refl) as (_ & D & _); [done|by rewrite app_nil_r|exact D].
Defined.
End milterserve.
