(* ===== verification/TraceContext.v ===== *)
(** * W3C trace context: span contexts and the headers that carry them

    The program propagates traces with the vendored [propagation.TraceContext]
    and [trace.SpanContext] of OpenTelemetry
    ([vendor/go.opentelemetry.io/otel/trace], [.../propagation]); they are
    translated here because what the backends receive is made of them.  Trace
    and span ids are byte strings of their length.  A carrier is what the
    context is written to: HTTP headers and gRPC metadata. *)
From S2P Require Export Telemetry.

(** ** [encoding/hex] *)

Module hex.
Definition fromHexChar (c : ascii) : option Z :=
  let z := code c in
  if (48 <=? z) && (z <=? 57) then Some (z - 48)
  else if (97 <=? z) && (z <=? 102) then Some (z - 87)
  else if (65 <=? z) && (z <=? 70) then Some (z - 55)
  else None.
Fixpoint decode_go (l : list ascii) : option (list ascii) :=
  match l with
  | [] => Some []
  | [_] => None
  | p :: q :: l' => a ← fromHexChar p; b ← fromHexChar q; d ← decode_go l'; Some (chr (16 * a + b) :: d)
  end.
(** [None]: an invalid byte or an odd length. *)
Definition Decode (s : string) : option string := of_chars <$> decode_go (chars s).

Lemma fromHexChar_digit z : 0 <= z < 16 -> fromHexChar (hex_digit z) = Some z.
Proof.
  intros Hz. assert (H : Forall (fun z => fromHexChar (hex_digit z) = Some z) (seqZ 0 16)) by (vm_compute; repeat constructor).
  eapply Forall_forall in H; [exact H|]. apply elem_of_seqZ. lia.
Qed.

Lemma Decode_Encode s : Decode (hex_EncodeToString s) = Some s.
Proof.
  unfold Decode, hex_EncodeToString. rewrite chars_of_chars. rewrite <- (of_chars_chars s) at 2.
  change (Some (of_chars (chars s))) with (of_chars <$> Some (chars s)). f_equal.
  induction (chars s) as [|c l IH]; [done|]. change ((c :: l) ≫= ?f) with (f c ++ (l ≫= f))%list. cbn [app decode_go].
  pose proof (code_range c). rewrite !fromHexChar_digit; cbn [mbind option_bind].
  - rewrite IH. cbn. rewrite <- Z.div_mod by lia. by rewrite chr_code.
  - split; [apply Z.div_pos|apply Z.div_lt_upper_bound]; lia.
  - apply Z.mod_pos_bound. lia.
Qed.

Lemma length_Encode s : String.length (hex_EncodeToString s) = (2 * String.length s)%nat.
Proof.
  unfold hex_EncodeToString. rewrite <- !length_chars, chars_of_chars. induction (chars s) as [|c l IH]; [done|].
  change ((c :: l) ≫= ?f) with (f c ++ (l ≫= f))%list. rewrite length_app, IH. cbn. lia.
Qed.

(** The digits are [0-9a-f]. *)
Lemma Encode_digits s : Forall (fun c => exists z, 0 <= z < 16 /\ c = hex_digit z) (chars (hex_EncodeToString s)).
Proof.
  unfold hex_EncodeToString. rewrite chars_of_chars. apply Forall_forall. intros c Hc.
  apply list_elem_of_bind in Hc as (d & Hc & _). pose proof (code_range d).
  assert (0 <= code d / 16 < 16) by (split; [apply Z.div_pos|apply Z.div_lt_upper_bound]; lia).
  assert (0 <= code d mod 16 < 16) by (apply Z.mod_pos_bound; lia).
  apply elem_of_cons in Hc as [->|Hc]; [by exists (code d / 16)|]. apply list_elem_of_singleton in Hc as ->. by exists (code d mod 16).
Qed.
End hex.

(** ** [trace]: ids, flags, trace state *)

Module trace.
(** [TraceID], 16 bytes, and [SpanID], 8 bytes. *)
Abbreviation TraceID := string.
Abbreviation SpanID := string.
Definition nilTraceID : TraceID := bytes (replicate 16 0).
Definition nilSpanID : SpanID := bytes (replicate 8 0).
Definition TraceID_IsValid (t : TraceID) : bool := bool_decide (t <> nilTraceID).
Definition SpanID_IsValid (s : SpanID) : bool := bool_decide (s <> nilSpanID).
Definition TraceID_String (t : TraceID) : string := hex_EncodeToString t.
Definition FlagsSampled : Z := 1.
Definition FlagsRandom : Z := 2.
Definition IsSampled (flags : Z) : bool := Z.land flags FlagsSampled =? FlagsSampled.

(** *** [TraceState] *)

Record member := { Key : string; Value : string }.
Definition maxListMembers : nat := 32.
Definition listDelimiters : ascii := ","%char.
Definition memberDelimiter : ascii := "="%char.
Definition errInvalidKey : error := errors_New "invalid tracestate key".
Definition errInvalidValue : error := errors_New "invalid tracestate value".
Definition errInvalidMember : error := errors_New "invalid tracestate list-member".
Definition errMemberNumber : error := errors_New "too many list-members in tracestate".
Definition errDuplicate : error := errors_New "duplicate list-member in tracestate".

Definition checkValueChar (v : ascii) : bool :=
  (32 <=? code v) && (code v <=? 126) && negb (code v =? 44) && negb (code v =? 61).
Definition checkValueLast (v : ascii) : bool :=
  (33 <=? code v) && (code v <=? 126) && negb (code v =? 44) && negb (code v =? 61).
Definition checkValue (val : string) : bool :=
  let n := len val in
  if (n =? 0) || (256 <? n) then false
  else
    match reverse (chars val) with
    | [] => false
    | last :: rest => forallb checkValueChar (reverse rest) && checkValueLast last
    end.

Definition isAlphaNumASCII (z : Z) : bool := ((97 <=? z) && (z <=? 122)) || ((48 <=? z) && (z <=? 57)).
Definition keyRune (v : Z) : bool :=
  if 127 <? v then false else isAlphaNumASCII v || existsb (Z.eqb v) (code <$> ["_"; "-"; "*"; "/"])%char.
Definition checkKeyRemain (key : string) : bool := forallb keyRune (runes key).
(** The key with its first byte and the rest. *)
Definition checkKeyPart (key : string) (n : Z) : bool :=
  match key with
  | EmptyString => false
  | String first rest => (len rest <=? n) && ((97 <=? code first) && (code first <=? 122)) && checkKeyRemain rest
  end.
Definition checkKeyTenant (key : string) (n : Z) : bool :=
  match key with
  | EmptyString => false
  | String first rest => isAlphaNumASCII (code first) && (len rest <=? n) && checkKeyRemain rest
  end.
Definition checkKey (key : string) : bool :=
  match Cut key "@"%char with
  | None => checkKeyPart key 255
  | Some (tenant, system) => checkKeyTenant tenant 240 && checkKeyPart system 13
  end.

Definition newMember (key value : string) : res member :=
  if negb (checkKey key) then Err errInvalidKey
  else if negb (checkValue value) then Err errInvalidValue
  else Ok {| Key := key; Value := value |}.

(** [strings.TrimLeft(s, " \t")] and [strings.TrimRight(s, " \t")] *)
Definition blank (c : ascii) : bool := (code c =? 32) || (code c =? 9).
Fixpoint dropBlanks (l : list ascii) : list ascii :=
  match l with c :: l' => if blank c then dropBlanks l' else l | [] => [] end.
Definition TrimLeft (s : string) : string := of_chars (dropBlanks (chars s)).
Definition TrimRight (s : string) : string := of_chars (reverse (dropBlanks (reverse (chars s)))).

Definition invalidMember (m : string) : error :=
  errors_Wrap (Error errInvalidMember +:+ ": " +:+ m) errInvalidMember.
Definition parseMember (m : string) : res member :=
  match Cut m memberDelimiter with
  | None => Err (invalidMember m)
  | Some (key, val) =>
      match newMember (TrimLeft key) (TrimRight val) with Ok r => Ok r | Err _ => Err (invalidMember m) end
  end.
Definition member_String (m : member) : string := Key m +:+ "=" +:+ Value m.

(** A slice of members; nil and empty read the same. *)
Abbreviation TraceState := (list member).

(** [strings.Cut] with the separator left out when there is none. *)
Definition cutOr (s : string) (sep : ascii) : string * string := default (s, "") (Cut s sep).

Definition wrapErr (err : error) : error := errors_Wrap ("failed to parse tracestate: " +:+ Error err) err.
(** The loop; a turn consumes a byte at least. *)
Fixpoint parse_loop (fuel : nat) (ts : string) (found : gset string) (members : list member) : res TraceState :=
  match fuel with
  | O => Ok members
  | S fuel =>
      if decide (ts = "") then Ok members
      else
        let '(memberStr, ts) := cutOr ts listDelimiters in
        if decide (memberStr = "") then parse_loop fuel ts found members
        else
          m ← res_wrap wrapErr (parseMember memberStr);
          if decide (Key m ∈ found) then Err (wrapErr errDuplicate)
          else
            let members := (members ++ [m])%list in
            if (maxListMembers <? length members)%nat then Err (wrapErr errMemberNumber)
            else parse_loop fuel ts ({[Key m]} ∪ found) members
  end.
Definition ParseTraceState (ts : string) : res TraceState :=
  if decide (ts = "") then Ok [] else parse_loop (S (String.length ts)) ts ∅ [].

Definition TraceState_String (ts : TraceState) : string := Join (member_String <$> ts) ",".

(** *** [SpanContext] *)

Record SpanContext := {
  sc_traceID : TraceID;
  sc_spanID : SpanID;
  sc_traceFlags : Z;
  sc_traceState : TraceState;
  sc_remote : bool
}.
Definition emptySpanContext : SpanContext :=
  {| sc_traceID := nilTraceID; sc_spanID := nilSpanID; sc_traceFlags := 0; sc_traceState := []; sc_remote := false |}.
Definition IsValid (sc : SpanContext) : bool := TraceID_IsValid (sc_traceID sc) && SpanID_IsValid (sc_spanID sc).
Definition WithRemote (sc : SpanContext) (remote : bool) : SpanContext :=
  {| sc_traceID := sc_traceID sc; sc_spanID := sc_spanID sc; sc_traceFlags := sc_traceFlags sc;
     sc_traceState := sc_traceState sc; sc_remote := remote |}.
End trace.

(** ** [propagation]: carriers and the [traceparent] and [tracestate] headers *)

Module propagation.
Import trace.

Definition supportedVersion : Z := 0.
Definition maxVersion : Z := 254.
Definition traceparentHeader : string := "traceparent".
Definition tracestateHeader : string := "tracestate".
Definition delimiter : ascii := "-"%char.
Definition versionPart : string := "00".

(** [TextMapCarrier]; [Keys] is not used by this propagator. *)
Class Carrier (C : Type) := { carrier_get : C -> string -> string; carrier_set : C -> string -> string -> C }.

(** The flags are masked with [FlagsSampled | FlagsRandom]. *)
Definition specFlags (flags : Z) : Z := Z.land flags (Z.lor FlagsSampled FlagsRandom).
Definition traceparent (sc : SpanContext) : string :=
  versionPart +:+ "-" +:+ hex_EncodeToString (sc_traceID sc) +:+ "-" +:+ hex_EncodeToString (sc_spanID sc)
    +:+ "-" +:+ hex_EncodeToString (bytes [specFlags (sc_traceFlags sc)]).
Definition Inject `{Carrier C} (sc : SpanContext) (carrier : C) : C :=
  if negb (IsValid sc) then carrier
  else
    let ts := TraceState_String (sc_traceState sc) in
    let carrier := if decide (ts = "") then carrier else carrier_set carrier tracestateHeader ts in
    carrier_set carrier traceparentHeader (traceparent sc).

Definition upperHex (v : string) : bool := existsb (fun c => (65 <=? c) && (c <=? 70)) (runes v).
(** The bytes of the part and the text left. *)
Definition extractPart (h : string) (n : Z) : option (string * string) :=
  let '(part, rest) := cutOr h delimiter in
  if negb (len part =? n) || upperHex part then None
  else p ← hex.Decode part; Some (p, rest).

(** The first byte. *)
Definition byte0 (p : string) : Z := match p with String c _ => code c | EmptyString => 0 end.

Definition extract `{Carrier C} (carrier : C) : SpanContext :=
  default emptySpanContext (
    let h := carrier_get carrier traceparentHeader in
    if decide (h = "") then None
    else
      '(ver, h) ← extractPart h 2;
      let version := byte0 ver in
      if maxVersion <? version then None
      else
        '(traceID, h) ← extractPart h 32;
        '(spanID, h) ← extractPart h 16;
        '(opts, h) ← extractPart h 2;
        if (version =? 0) && (bool_decide (h <> "") || (3 <? byte0 opts)) then None
        else
          let ts := match ParseTraceState (carrier_get carrier tracestateHeader) with Ok ts => ts | Err _ => [] end in
          let sc := {| sc_traceID := traceID; sc_spanID := spanID; sc_traceFlags := specFlags (byte0 opts);
                       sc_traceState := ts; sc_remote := true |} in
          if IsValid sc then Some sc else None).

(** ** Specification *)

(** A member as [newMember] makes it, and a trace state as [ParseTraceState]
    does. *)
Definition member_ok (m : member) : Prop := checkKey (Key m) = true /\ checkValue (Value m) = true.
Definition traceState_ok (ts : TraceState) : Prop :=
  Forall member_ok ts /\ NoDup (Key <$> ts) /\ (length ts <= maxListMembers)%nat.
Record spanContext_ok (sc : SpanContext) : Prop := {
  ok_traceID : String.length (sc_traceID sc) = 16%nat;
  ok_spanID : String.length (sc_spanID sc) = 8%nat;
  ok_flags : 0 <= sc_traceFlags sc < 256;
  ok_state : traceState_ok (sc_traceState sc)
}.

(** *** Trace states *)

Lemma cutOr_sep a b sep : sep ∉ chars a -> cutOr (a +:+ String sep b) sep = (a, b).
Proof. intros H. unfold cutOr. by rewrite (proj2 (Cut_some _ a b sep)). Qed.
Lemma cutOr_none a sep : sep ∉ chars a -> cutOr a sep = (a, "").
Proof. intros H. unfold cutOr. by rewrite (proj2 (Cut_none a sep)). Qed.

Lemma dropBlanks_ok l : (forall c l', l = c :: l' -> blank c = false) -> dropBlanks l = l.
Proof. intros H. destruct l as [|c l]; [done|]. cbn. by rewrite (H c l). Qed.
Lemma dropBlanks_stop l : match dropBlanks l with c :: _ => blank c = false | [] => True end.
Proof. induction l as [|c l IH]; [done|]. cbn. by destruct (blank c) eqn:E. Qed.

(** The bytes of a key and of a value. *)
Lemma keyRune_byte c : keyRune (code c) = true -> code c < 128 /\ c <> listDelimiters /\ c <> memberDelimiter /\ blank c = false.
Proof. by destruct c as [[] [] [] [] [] [] [] []]; vm_compute; intros ?. Qed.
Lemma alphaNum_byte c : isAlphaNumASCII (code c) = true -> c <> listDelimiters /\ c <> memberDelimiter /\ blank c = false.
Proof. by destruct c as [[] [] [] [] [] [] [] []]; vm_compute; intros ?. Qed.
Lemma lower_alphaNum z : (97 <=? z) && (z <=? 122) = true -> isAlphaNumASCII z = true.
Proof. unfold isAlphaNumASCII. by intros ->. Qed.

Definition keyByte (c : ascii) : Prop := c <> listDelimiters /\ c <> memberDelimiter.
Lemma keyRune_range v : keyRune v = true -> 0 <= v < 128.
Proof.
  unfold keyRune, isAlphaNumASCII. destruct (Z.ltb_spec 127 v); [done|].
  change (code <$> ["_"; "-"; "*"; "/"]%char) with [95; 45; 42; 47]. cbn [existsb]. lia.
Qed.
Lemma checkKeyRemain_bytes s : checkKeyRemain s = true -> Forall keyByte (chars s).
Proof.
  unfold checkKeyRemain. intros Hr. rewrite forallb_forall in Hr.
  assert (Ha : runes s = code <$> chars s).
  { apply grpcconfig.runes_ascii, Forall_forall. intros r Hin. apply keyRune_range, Hr. by apply list_elem_of_In. }
  apply Forall_forall. intros c Hc.
  destruct (keyRune_byte c) as (_ & ? & ? & _); [|done]. apply Hr, list_elem_of_In. rewrite Ha. by apply list_elem_of_fmap_2.
Qed.

(** A key is not empty, starts with a letter or a digit and has none of the
    delimiters. *)
Definition keyText (k : string) : Prop :=
  match k with
  | EmptyString => False
  | String c _ => isAlphaNumASCII (code c) = true
  end /\ Forall keyByte (chars k).
Lemma alphaNum_keyText c s : isAlphaNumASCII (code c) = true -> checkKeyRemain s = true -> keyText (String c s).
Proof.
  intros Hc Hs. split; [done|]. constructor; [|by apply checkKeyRemain_bytes].
  destruct (alphaNum_byte c Hc) as (? & ? & _). done.
Qed.
Lemma checkKeyPart_text k n : checkKeyPart k n = true -> keyText k.
Proof.
  destruct k as [|c s]; [done|]. cbn. intros [[_ Hc]%andb_true_iff Hs]%andb_true_iff.
  by apply alphaNum_keyText; [apply lower_alphaNum|].
Qed.
Lemma checkKeyTenant_text k n : checkKeyTenant k n = true -> keyText k.
Proof. destruct k as [|c s]; [done|]. cbn. intros [[Hc _]%andb_true_iff Hs]%andb_true_iff. by apply alphaNum_keyText. Qed.
Lemma checkKey_text k : checkKey k = true -> keyText k.
Proof.
  unfold checkKey. destruct (Cut k "@"%char) as [[tenant system]|] eqn:E; [|apply checkKeyPart_text].
  apply Cut_some in E as [-> _]. intros [Ht%checkKeyTenant_text Hs%checkKeyPart_text]%andb_true_iff.
  destruct Ht as [Hc Ht], Hs as [_ Hs]. split; [by destruct tenant|].
  rewrite chars_app. apply Forall_app. split; [done|]. by constructor.
Qed.

Lemma checkValueLast_char c : checkValueLast c = true -> checkValueChar c = true /\ blank c = false.
Proof. unfold checkValueLast, checkValueChar, blank. lia. Qed.
Lemma checkValueChar_byte c : checkValueChar c = true -> c <> listDelimiters /\ c <> memberDelimiter.
Proof. by destruct c as [[] [] [] [] [] [] [] []]; vm_compute; intros ?. Qed.
(** A value has none of the delimiters and does not end in a blank. *)
Lemma checkValue_text v :
  checkValue v = true -> Forall keyByte (chars v) /\ dropBlanks (reverse (chars v)) = reverse (chars v).
Proof.
  unfold checkValue. destruct (_ || _); [done|]. destruct (reverse (chars v)) as [|last rest] eqn:E; [done|].
  intros [Hr Hl]%andb_true_iff. destruct (checkValueLast_char _ Hl) as [Hc Hb]. split.
  - rewrite <- (reverse_involutive (chars v)), E, reverse_cons. apply Forall_app. split.
    + apply Forall_forall. intros c Hin. rewrite forallb_forall in Hr. apply checkValueChar_byte, Hr. by apply list_elem_of_In.
    + apply Forall_singleton. by apply checkValueChar_byte.
  - by apply dropBlanks_ok; intros ? ? [= <- <-].
Qed.

Lemma not_in_text s sep : sep = listDelimiters \/ sep = memberDelimiter -> Forall keyByte (chars s) -> sep ∉ chars s.
Proof. intros Hsep Hs Hin. rewrite Forall_forall in Hs. destruct (Hs _ Hin). by destruct Hsep as [->| ->]. Qed.

(** A member reads back as it was written. *)
Lemma parseMember_String m : member_ok m -> parseMember (member_String m) = Ok m.
Proof.
  intros [Hk Hv]. destruct m as [k v]. cbn [Key Value] in *. unfold parseMember, member_String. cbn [Key Value].
  destruct (checkKey_text k Hk) as [Hk1 Hk2]. destruct (checkValue_text v Hv) as [Hv1 Hv2].
  change ("=" +:+ v) with (String memberDelimiter v).
  rewrite (proj2 (Cut_some _ k v memberDelimiter)) by (split; [done|apply not_in_text; [by right|done]]).
  assert (TrimLeft k = k) as ->.
  { destruct k as [|c k]; [done|]. unfold TrimLeft. destruct (alphaNum_byte c Hk1) as (_ & _ & Hb).
    rewrite dropBlanks_ok by (by intros ? ? [= <- <-]). apply of_chars_chars. }
  assert (TrimRight v = v) as ->. { unfold TrimRight. rewrite Hv2, reverse_involutive. apply of_chars_chars. }
  unfold newMember. by rewrite Hk, Hv.
Qed.

Lemma member_String_text m : member_ok m -> listDelimiters ∉ chars (member_String m) /\ member_String m <> "".
Proof.
  intros [Hk Hv]. destruct (checkKey_text _ Hk) as [Hk1 Hk2]. destruct (checkValue_text _ Hv) as [Hv1 _]. unfold member_String. split.
  - rewrite !chars_app. rewrite !not_elem_of_app. split_and!; [apply not_in_text; [by left|done]| |apply not_in_text; [by left|done]].
    by intros ?%list_elem_of_singleton.
  - by destruct (Key m).
Qed.

Lemma parse_loop_String fuel ts found members :
  Forall member_ok ts -> NoDup (Key <$> ts) -> (forall m, m ∈ ts -> Key m ∉ found) ->
  (length members + length ts <= maxListMembers)%nat -> (String.length (TraceState_String ts) < fuel)%nat ->
  parse_loop fuel (TraceState_String ts) found members = Ok (members ++ ts)%list.
Proof.
  revert fuel found members. induction ts as [|m ts IH]; intros fuel found members Hok Hd Hf Hl Hfuel.
  { destruct fuel; cbn; by rewrite app_nil_r. }
  apply Forall_cons in Hok as [Hm Hok]. rewrite fmap_cons in Hd. apply NoDup_cons in Hd as [Hnew Hd].
  destruct (member_String_text m Hm) as [Hsep Hne].
  assert (Hcut : cutOr (TraceState_String (m :: ts)) listDelimiters = (member_String m, TraceState_String ts)).
  { unfold TraceState_String. destruct ts as [|m' ts]; [by apply cutOr_none|].
    change (Join (member_String <$> m :: m' :: ts) ",")
      with (member_String m +:+ String listDelimiters (Join (member_String <$> m' :: ts) ",")). by apply cutOr_sep. }
  assert (Hlen : (String.length (TraceState_String ts) < String.length (TraceState_String (m :: ts)))%nat).
  { rewrite <- !length_chars. unfold TraceState_String. destruct ts as [|m' ts].
    - cbn. rewrite length_chars. destruct (member_String m); [done|cbn; lia].
    - change (Join (member_String <$> m :: m' :: ts) ",")
        with (member_String m +:+ String listDelimiters (Join (member_String <$> m' :: ts) ",")).
      rewrite chars_app, length_app. change (chars (String ?c ?s)) with (c :: chars s). cbn [length]. lia. }
  assert (Hts : TraceState_String (m :: ts) <> ""). { intros E. rewrite E in Hlen. cbn in Hlen. lia. }
  destruct fuel as [|fuel]; [lia|]. cbn [parse_loop]. rewrite decide_False by done. rewrite Hcut, decide_False by done.
  rewrite (parseMember_String m Hm). cbn [res_wrap mbind res_bind].
  rewrite decide_False by (apply Hf; by left). cbn [length] in Hl.
  assert ((maxListMembers <? length (members ++ [m]))%nat = false) as ->.
  { apply Nat.ltb_ge. rewrite length_app. cbn. lia. }
  rewrite IH; [by rewrite <- app_assoc|done|done| | |lia].
  - intros m' Hm'. rewrite not_elem_of_union, not_elem_of_singleton. split; [|apply Hf; by right].
    intros E. apply Hnew. rewrite <- E. by apply list_elem_of_fmap_2.
  - rewrite length_app. cbn. lia.
Qed.

(** A trace state reads back as it was written. *)
Lemma ParseTraceState_String ts : traceState_ok ts -> ParseTraceState (TraceState_String ts) = Ok ts.
Proof.
  intros (Hok & Hd & Hl). unfold ParseTraceState. destruct (decide (TraceState_String ts = "")) as [E|_].
  - destruct ts as [|m ts]; [done|]. exfalso. apply Forall_cons in Hok as [Hm _].
    destruct (member_String_text m Hm) as [_ Hne]. unfold TraceState_String in E.
    destruct ts; cbn in E; [done|]. by destruct (member_String m).
  - apply parse_loop_String; [done|done|set_solver|done|lia].
Qed.

(** *** The traceparent header *)

Lemma hex_digit_byte z : 0 <= z < 16 ->
  hex_digit z <> delimiter /\ code (hex_digit z) < 128 /\ (65 <=? code (hex_digit z)) && (code (hex_digit z) <=? 70) = false.
Proof.
  intros Hz. assert (H : Forall (fun z => hex_digit z <> delimiter /\ code (hex_digit z) < 128 /\
    (65 <=? code (hex_digit z)) && (code (hex_digit z) <=? 70) = false) (seqZ 0 16)) by (vm_compute; by repeat constructor).
  eapply Forall_forall in H; [exact H|]. apply elem_of_seqZ. lia.
Qed.
Lemma hex_text s : delimiter ∉ chars (hex_EncodeToString s) /\ upperHex (hex_EncodeToString s) = false.
Proof.
  pose proof (hex.Encode_digits s) as Hd. split.
  - intros Hin. rewrite Forall_forall in Hd. destruct (Hd _ Hin) as (z & Hz & E). by destruct (hex_digit_byte z Hz) as [? _].
  - unfold upperHex. assert (runes (hex_EncodeToString s) = code <$> chars (hex_EncodeToString s)) as ->.
    { apply grpcconfig.runes_of_ascii_go; [by rewrite length_chars|]. eapply Forall_impl; [exact Hd|].
      intros c (z & Hz & ->). by apply hex_digit_byte in Hz as (_ & ? & _). }
    induction Hd as [|c l (z & Hz & ->) _ IH]; [done|]. cbn [fmap list_fmap existsb].
    destruct (hex_digit_byte z Hz) as (_ & _ & ->). exact IH.
Qed.

Lemma extractPart_hex p n : len (hex_EncodeToString p) = n ->
  (forall rest, extractPart (hex_EncodeToString p +:+ "-" +:+ rest) n = Some (p, rest)) /\
  extractPart (hex_EncodeToString p) n = Some (p, "").
Proof.
  intros Hn. destruct (hex_text p) as [Hd Hu]. unfold extractPart. split.
  - intros rest. change ("-" +:+ rest) with (String delimiter rest). rewrite cutOr_sep by done.
    by rewrite Hn, Z.eqb_refl, Hu, hex.Decode_Encode.
  - rewrite cutOr_none by done. by rewrite Hn, Z.eqb_refl, Hu, hex.Decode_Encode.
Qed.

Lemma specFlags_range f : 0 <= specFlags f <= 3.
Proof.
  unfold specFlags. change (Z.lor FlagsSampled FlagsRandom) with (Z.ones 2). rewrite Z.land_ones by lia.
  change (2 ^ 2) with 4. pose proof (Z.mod_pos_bound f 4). lia.
Qed.
Lemma specFlags_idemp f : specFlags (specFlags f) = specFlags f.
Proof. unfold specFlags. by rewrite <- Z.land_assoc, Z.land_diag. Qed.

(** A carrier that keeps what is set under the two keys. *)
Class CarrierOk (C : Type) `{Carrier C} := {
  get_set_eq (c : C) k v : k ∈ [traceparentHeader; tracestateHeader] -> carrier_get (carrier_set c k v) k = v;
  get_set_ne (c : C) k k' v : k ∈ [traceparentHeader; tracestateHeader] -> k' ∈ [traceparentHeader; tracestateHeader] ->
    k <> k' -> carrier_get (carrier_set c k v) k' = carrier_get c k'
}.

(** What the next hop reads of a context written over a carrier: a carrier that
    is written no trace state keeps the one it had. *)
Definition received `{Carrier C} (sc : SpanContext) (carrier : C) : SpanContext :=
  {| sc_traceID := sc_traceID sc; sc_spanID := sc_spanID sc; sc_traceFlags := specFlags (sc_traceFlags sc);
     sc_traceState := if decide (sc_traceState sc = [])
       then match ParseTraceState (carrier_get carrier tracestateHeader) with Ok ts => ts | Err _ => [] end
       else sc_traceState sc;
     sc_remote := true |}.

Lemma TraceState_String_empty ts : traceState_ok ts -> TraceState_String ts = "" <-> ts = [].
Proof.
  intros Hok. split; [|by intros ->]. intros E. pose proof (ParseTraceState_String ts Hok) as P. rewrite E in P.
  by injection P as <-.
Qed.

Lemma traceparent_get `{CarrierOk C} sc (carrier : C) :
  spanContext_ok sc -> IsValid sc = true ->
  carrier_get (Inject sc carrier) traceparentHeader = traceparent sc /\
  match ParseTraceState (carrier_get (Inject sc carrier) tracestateHeader) with Ok ts => ts | Err _ => [] end
    = sc_traceState (received sc carrier).
Proof.
  intros Hok Hv. unfold Inject, received. rewrite Hv. cbn [negb sc_traceState].
  rewrite get_set_eq, get_set_ne by (by repeat first [left|right]). split; [done|].
  destruct (decide (TraceState_String (sc_traceState sc) = "")) as [E|E];
    [pose proof E as Ets|]; rewrite (TraceState_String_empty _ (ok_state _ Hok)) in E.
  - by rewrite (decide_True (P := sc_traceState sc = [])).
  - rewrite (decide_False (P := sc_traceState sc = [])) by done.
    rewrite get_set_eq by (right; by left). by rewrite ParseTraceState_String by apply Hok.
Qed.

(** What a carrier with the traceparent of a valid context reads as. *)
Definition readWith `{Carrier C} (sc : SpanContext) (carrier : C) : SpanContext :=
  {| sc_traceID := sc_traceID sc; sc_spanID := sc_spanID sc; sc_traceFlags := specFlags (sc_traceFlags sc);
     sc_traceState := match ParseTraceState (carrier_get carrier tracestateHeader) with Ok ts => ts | Err _ => [] end;
     sc_remote := true |}.
Lemma extract_traceparent `{Carrier C} sc (carrier : C) :
  spanContext_ok sc -> IsValid sc = true -> carrier_get carrier traceparentHeader = traceparent sc ->
  extract carrier = readWith sc carrier.
Proof.
  intros [H16 H8 Hf _] Hv Hp. unfold extract, readWith. rewrite Hp. clear Hp.
  pose proof (specFlags_range (sc_traceFlags sc)) as Hspec. set (flags := bytes [specFlags (sc_traceFlags sc)]).
  assert (Hlen : forall p n, String.length p = n -> len (hex_EncodeToString p) = 2 * Z.of_nat n).
  { intros p n <-. unfold len. rewrite hex.length_Encode. lia. }
  unfold traceparent. fold flags. change versionPart with (hex_EncodeToString (bytes [0])).
  rewrite decide_False by done.
  rewrite (proj1 (extractPart_hex (bytes [0]) 2 eq_refl)). cbn [mbind option_bind].
  change (maxVersion <? byte0 (bytes [0])) with false. cbv iota.
  rewrite (proj1 (extractPart_hex (sc_traceID sc) 32 (Hlen _ _ H16))). cbn [mbind option_bind].
  rewrite (proj1 (extractPart_hex (sc_spanID sc) 16 (Hlen _ _ H8))). cbn [mbind option_bind].
  rewrite (proj2 (extractPart_hex flags 2 eq_refl)). cbn [mbind option_bind].
  assert (byte0 flags = specFlags (sc_traceFlags sc)) as ->.
  { unfold flags, bytes. cbn. apply code_chr. lia. }
  assert (3 <? specFlags (sc_traceFlags sc) = false) as -> by lia. cbn.
  rewrite specFlags_idemp. unfold IsValid in *. cbn. by rewrite Hv.
Qed.

(** A valid context is read by the next hop as it was written. *)
Lemma extract_Inject `{CarrierOk C} sc (carrier : C) :
  spanContext_ok sc -> IsValid sc = true -> extract (Inject sc carrier) = received sc carrier.
Proof.
  intros Hok Hv. destruct (traceparent_get sc carrier Hok Hv) as [Hp Hs].
  rewrite (extract_traceparent sc _ Hok Hv Hp). unfold readWith. by rewrite Hs.
Qed.

(** *** What is read is well-formed *)

Lemma parseMember_ok s m : parseMember s = Ok m -> member_ok m.
Proof.
  unfold parseMember. destruct (Cut s memberDelimiter) as [[key val]|]; [|done].
  unfold newMember. destruct (checkKey (TrimLeft key)) eqn:Ek; [|done]. destruct (checkValue (TrimRight val)) eqn:Ev; [|done].
  by intros [= <-].
Qed.

Lemma parse_loop_ok fuel ts found members r :
  parse_loop fuel ts found members = Ok r -> (forall k, k ∈ found <-> k ∈ Key <$> members) ->
  traceState_ok members -> traceState_ok r.
Proof.
  revert ts found members. induction fuel as [|fuel IH]; intros ts found members; cbn [parse_loop]; [by intros [= <-]|].
  destruct (decide (ts = "")); [by intros [= <-]|]. destruct (cutOr ts listDelimiters) as [memberStr rest].
  destruct (decide (memberStr = "")); [apply IH|]. intros E Hf (Hok & Hd & Hl).
  apply res_bind_ok in E as (m & Em%res_wrap_ok & E). destruct (decide (Key m ∈ found)) as [|Hnew]; [done|].
  destruct (Nat.ltb_spec maxListMembers (length (members ++ [m]))); [done|].
  apply (IH _ _ _ E).
  - intros k. rewrite fmap_app, elem_of_union, elem_of_singleton, elem_of_app, (Hf k). cbn. rewrite list_elem_of_singleton. tauto.
  - split_and!; [|rewrite fmap_app|done].
    + apply Forall_app. split; [done|]. apply Forall_singleton. by eapply parseMember_ok.
    + apply NoDup_app. split_and!; [done| |by apply NoDup_singleton].
      intros k Hk ->%list_elem_of_singleton. by apply Hnew, Hf.
Qed.
Lemma ParseTraceState_ok s ts : ParseTraceState s = Ok ts -> traceState_ok ts.
Proof.
  assert (Hnil : traceState_ok []) by (split_and!; [constructor|constructor|cbn; lia]).
  unfold ParseTraceState. destruct (decide (s = "")); [by intros [= <-]|]. intros E.
  apply (parse_loop_ok _ _ _ _ _ E); [|done]. intros k. cbn. by rewrite elem_of_empty, elem_of_nil.
Qed.

Lemma decode_go_length l d : hex.decode_go l = Some d -> length l = (2 * length d)%nat.
Proof.
  revert l. induction d as [|b d IH]; intros [|p [|q l]]; cbn; try done.
  - destruct (hex.fromHexChar p), (hex.fromHexChar q); cbn; try done. by destruct (hex.decode_go l).
  - destruct (hex.fromHexChar p), (hex.fromHexChar q); cbn; try done.
    destruct (hex.decode_go l) eqn:E; cbn; [|done]. intros [= _ ->]. rewrite (IH _ E). lia.
Qed.
Lemma extractPart_length h n p rest : extractPart h n = Some (p, rest) -> 2 * Z.of_nat (String.length p) = n.
Proof.
  unfold extractPart. destruct (cutOr h delimiter) as [part rest']. destruct (Z.eqb_spec (len part) n); [|done]. cbn [negb orb].
  destruct (upperHex part); [done|]. destruct (hex.Decode part) as [d|] eqn:E; [|done]. intros [= <- _].
  apply fmap_Some in E as (l & E & ->). apply decode_go_length in E. rewrite length_chars in E.
  rewrite <- length_chars, chars_of_chars. unfold len in *. lia.
Qed.

Lemma extract_ok `{Carrier C} (carrier : C) :
  IsValid (extract carrier) = true -> spanContext_ok (extract carrier) /\ sc_remote (extract carrier) = true.
Proof.
  unfold extract. destruct (decide _); [done|].
  destruct (extractPart _ 2) as [[ver h1]|]; [|done]. cbn [mbind option_bind].
  destruct (maxVersion <? byte0 ver); [done|].
  destruct (extractPart h1 32) as [[traceID h2]|] eqn:E1; [|done]. cbn [mbind option_bind].
  destruct (extractPart h2 16) as [[spanID h3]|] eqn:E2; [|done]. cbn [mbind option_bind].
  destruct (extractPart h3 2) as [[opts h4]|]; [|done]. cbn [mbind option_bind].
  destruct (_ && _); [done|]. cbv zeta. destruct (IsValid {| sc_traceID := _ |}) eqn:Ev; [|done]. intros _. split; [|done].
  apply extractPart_length in E1, E2. pose proof (specFlags_range (byte0 opts)). split; cbn; [lia..|lia|].
  destruct (ParseTraceState _) eqn:E; [by eapply ParseTraceState_ok|]. split_and!; [constructor|constructor|cbn; lia].
Qed.
End propagation.
