(* ===== verification/HttpProxy.v ===== *)
(** * An accepted HTTP configuration, end to end

    The handler of HttpHandler.v on the sessions of Protocol.v, whose requesters
    (Backend.v) are the ones Wiring.v builds from a configuration that Config.v
    accepts, behind the router.  Only the network is left: it answers one request
    of one client. *)
From S2P Require Export HttpHandler Wiring.
From S2P Require Import Router.

Module httpproxy.
Import mapping pathrules backend protocol forwarding httphandler config configspec wiring.

(** ** [NewHandler] in [internal/proxy/handler.go] *)

Section construction.
Context `{Regexp} `{Unicode} `{comparejson.JSONLib} (html_Parse : string -> res compare.Node).
Context (url_String : backend.URL parsedURL -> string) (asURL : parsedURL -> backend.URL parsedURL).

(** The configuration as the handler reads it. *)
Definition httpConfigOf (cfg : Config) : httpConfig :=
  let p := c_Plain cfg in
  {| hc_ShadowForceHeader := f_ShadowForceHeader p;
     hc_ShadowBaseURLs := (fun u => url_String (asURL u)) <$> c_ShadowBaseURLs cfg;
     hc_ShadowSamplePercent := s_SamplePercent (c_Shadow cfg);
     hc_MaxBackendBodyBytes := f_MaxBackendBodyBytes p;
     hc_CompareMode := m_Mode (c_Compare cfg);
     hc_ForwardResponseHeaders := f_ForwardResponseHeaders p;
     hc_LogSessionOnlyOnDiff := f_LogSessionOnlyOnDiff p;
     hc_LogOnlyOnDiff := f_LogOnlyOnDiff p;
     hc_RequestHeaders := logfields.RequestHeaders (c_LogFields cfg);
     hc_ResponseHeaders := logfields.ResponseHeaders (c_LogFields cfg);
     hc_RequestJSON := list_to_map (logfields.RequestJSON (c_LogFields cfg));
     hc_ResponseJSON := list_to_map (logfields.ResponseJSON (c_LogFields cfg)) |}.

(** [Compare] of the comparator the runner holds. *)
Definition comparatorOf (cfg : Config) (c : wiring.comparator) : Comparator :=
  match c with
  | HTTPComparator_ c => HTTPComparator_Compare (Some (fun primary shadow =>
      compare.CompareWithHeaders html_Parse c (compareConfigOf cfg) primary shadow None))
  | MilterComparator_ => MilterComparator_Compare
  | InactiveComparator => fun _ _ => (zeroCompareResult, None)
  end.

Definition NewHandler (cfg : Config) (a : components) (observability : option tracing)
    (logger_Enabled : Z -> bool) : Handler :=
  {| h_cfg := httpConfigOf cfg; h_comparator := Some (comparatorOf cfg (a_Runner a).1);
     h_hasLimiter := bool_decide (is_Some (a_Limiter a)); h_pathMapper := a_PathMapper a;
     h_pathRuleResolver := a_PathRules a; h_httpComparators := Some (a_Registry a);
     h_observability := observability; h_logger_Enabled := logger_Enabled |}.
End construction.

(** ** The router in front of the handler *)

Inductive middleware := Recovery | HandlerHandle.
(** The request [Handle] sees, with the parameter of its route; [None] when the
    router answers. *)
Definition routed (r : httpRequest) : option httpRequest :=
  match router.NewRouter Recovery HandlerHandle with
  | Ok e =>
      match gin.handleHTTPRequest e (r_Method r) (r_Path r) with
      | gin.Run [Recovery; HandlerHandle] ps =>
          Some {| r_Method := r_Method r; r_Path := gin.ByName ps "path"; r_RawQuery := r_RawQuery r; r_Host := r_Host r;
                  r_RemoteAddr := r_RemoteAddr r; r_TLS := r_TLS r; r_Header := r_Header r; r_Body := r_Body r |}
      | _ => None
      end
  | Err _ => None
  end.
Lemma routed_any r : routed r = if bool_decide (r_Method r ∈ gin.anyMethods) && HasPrefix (r_Path r) "/" then Some r else None.
Proof.
  unfold routed. destruct (router.NewRouter_spec Recovery HandlerHandle (r_Method r) (r_Path r)) as (e & -> & ->).
  destruct (decide (r_Method r ∉ gin.anyMethods)) as [Hm|Hm]; [by rewrite bool_decide_false|].
  apply dec_stable in Hm. rewrite (bool_decide_true (r_Method r ∈ _)) by done. destruct (HasPrefix _ _); [by destruct r|].
  by destruct (bool_decide _).
Qed.

(** ** The requesters of the configuration, over a network *)

Section network.
Context (url_String url_Redacted : backend.URL parsedURL -> string).
Context (http_CheckRequest : string -> string -> option error).
Context (InjectHTTPTraceContext : header -> header) (time_Since : Z).
Context (network : httpClient -> tlsClient -> HTTPRequest -> res HTTPResponse).

(** One request with the client and the TLS settings of a side. *)
Definition ask (client : httpClient) (tls : tlsClient) : HTTPRequest -> res HTTPResponse :=
  roundTrip client (network client tls).

(** [requester.Do]; a selector that panics is shown unreachable by [Send_backed]. *)
#[export] Instance app_Requester : Requester requesterOf := fun r item =>
  let '(rq, client, tls) := r in
  match Do url_String url_Redacted http_CheckRequest (ask client tls) InjectHTTPTraceContext time_Since rq item with
  | Some (result, _, rq) => (result, (rq, client, tls))
  | None => (errorResult time_Since item "" (errors_New "panic"), r)
  end.

(** ** Specification *)

Context (asURL : parsedURL -> backend.URL parsedURL) (rangeS : gmap string string -> list (string * string)).

(** A requester of the configuration, wherever its selector stands. *)
Definition backed (urls : list parsedURL) (tls : tlsClient) (cfg : Config) (o : bool) (r : requesterOf) : Prop :=
  exists rq, r = (rq, newHTTPClient (clientConfig (c_Transport cfg)), tls) /\
    bases rq = asURL <$> urls /\ obs rq = o /\ maxBody rq = f_MaxBackendBodyBytes (c_Plain cfg).

(** The headers sent for [h]: the static headers of the side set over it, the
    headers of the path rule over both, hop-by-hop headers removed. *)
Definition sentHeaders (configured rule : gmap string string) (h sent : header) : Prop :=
  exists h1 h2, overridden configured h h1 /\ overridden rule h1 h2 /\ sent = RemoveHopByHop h2.

(** One exchange of a side for the event of a request: a configured backend is
    asked, and what comes of it. *)
Definition exchanged (urls : list parsedURL) (tls : tlsClient) (cfg : Config) (o : bool)
    (configured rule : gmap string string) (path : string) (ev : Event) (result : Result) : Prop :=
  exists base, base ∈ asURL <$> urls /\
    let u := url_String {| u_Path := singleJoiningSlash (backend.u_Path base) path; backend.u_RawQuery := e_RawQuery ev;
               backend.u_Host := backend.u_Host base; u_rest := u_rest base |} in
    match http_CheckRequest (e_Method ev) u with
    | Some e => rs_Err result = Some e
    | None =>
        exists req sent,
          hr_Method req = (if decide (e_Method ev = "") then "GET" else e_Method ev) /\ hr_URL req = u /\
          hr_Host req = (if decide (e_Host ev = "") then backend.u_Host base else e_Host ev) /\
          hr_Body req = e_Body ev /\ sentHeaders configured rule (e_Header ev) sent /\
          hr_Header req = (if o then InjectHTTPTraceContext sent else sent) /\
          match ask (newHTTPClient (clientConfig (c_Transport cfg))) tls req with
          | Err e => rs_Err result = Some e
          | Ok resp =>
              rs_Err result = None /\ rs_Status result = resp_StatusCode resp /\ rs_Header result = resp_Header resp /\
              let max := f_MaxBackendBodyBytes (c_Plain cfg) in
              (max <= 0 -> rs_Body result = resp_Body resp) /\
              (0 < max -> HasPrefix (resp_Body resp) (rs_Body result) = true /\
                 len (rs_Body result) = Z.min max (len (resp_Body resp)))
          end
    end.

(** ** Lemmas *)

Context (HrangeS : forall m, rangeS m ≡ₚ map_to_list m).

Lemma RemoveHopByHop_again h2 h :
  (forall k, (hopByHop (RemoveHopByHop h2) k -> h !! k = None) /\
             (~ hopByHop (RemoveHopByHop h2) k -> h !! k = RemoveHopByHop h2 !! k)) -> h = RemoveHopByHop h2.
Proof.
  intros H. apply map_eq. intros k. destruct (H k) as [H1 H2].
  destruct (decide (RemoveHopByHop h2 !! k = None)) as [E|E].
  - destruct (base.decide (k ∈ CanonicalHeaderKey <$> hopByHopKeys ++ connectionTokens (RemoveHopByHop h2))) as [Hk|Hk]; [by rewrite E, H1|by rewrite H2].
  - apply H2. unfold hopByHop. rewrite <- (proj2 (RemoveHopByHop_spec h2)) in E.
    rewrite lookup_RemoveHopByHop in E. destruct (decide _) as [|Hn] in E; [done|].
    contradict Hn. rewrite fmap_app in Hn |- *. apply elem_of_app in Hn as [?|?]; apply elem_of_app; tauto.
Qed.

(** [Do] on a requester of the configuration. *)
Lemma Do_backed urls tls cfg o r item configured rule h :
  backed urls tls cfg o r -> urls <> [] -> Z.of_nat (length urls) < 2 ^ 32 ->
  sentHeaders configured rule h (rq_Header item) ->
  let '(result, r1) := Requester_Do r item in
  backed urls tls cfg o r1 /\
  forall ev, rq_Method item = e_Method ev -> rq_RawQuery item = e_RawQuery ev -> rq_Host item = e_Host ev ->
    rq_Body item = e_Body ev -> e_Header ev = h ->
    exchanged urls tls cfg o configured rule (rq_Path item) ev result.
Proof.
  intros (rq & -> & Hb & Ho & Hm) Hne Hl Hh. set (client := newHTTPClient _).
  destruct (Do_spec url_String url_Redacted http_CheckRequest InjectHTTPTraceContext time_Since (ask client tls) rq item)
    as (result & obs' & rq' & base & E & Hin & Hb' & Ho' & Hm' & _ & _ & _ & _ & Hres).
  { rewrite Hb. by intros ?%fmap_nil_inv. }
  { by rewrite Hb, length_fmap. }
  cbn [Requester_Do app_Requester]. unfold app_Requester. fold client. rewrite E.
  split.
  { exists rq'. split_and!; [done|by rewrite Hb'|by rewrite Ho'|by rewrite Hm']. }
  intros ev E1 E2 E3 E4 <-. rewrite Hb in Hin. exists base. split; [exact Hin|]. cbv zeta in Hres |- *. unfold asked in Hres.
  rewrite Ho, Hm, E1, E2, E3, E4 in Hres. destruct (http_CheckRequest _ _); [by destruct Hres|].
  destruct Hres as (req & (A1 & A2 & A3 & A4 & sent & A5 & A6) & Hres).
  pose proof Hh as (h1 & h2 & Hh1 & Hh2 & Hh3). rewrite Hh3 in A6. apply RemoveHopByHop_again in A6. rewrite <- Hh3 in A6. subst sent.
  exists req, (rq_Header item). split_and!; [done..| |].
  - rewrite A5. by destruct o.
  - fold client. destruct (ask client tls req); [|by destruct Hres]. destruct Hres as (? & ? & ? & _ & ? & ?). done.
Qed.
(** The adapter of a configuration, wherever its selectors stand. *)
Record ready (cfg : Config) (tls : tlsClient * tlsClient) (o : bool) (ad : HTTPAdapter (R := requesterOf)) : Prop := {
  rd_primary : exists r, ha_PrimaryRequester ad = Some r /\ backed (c_PrimaryBaseURLs cfg) tls.1 cfg o r;
  rd_shadow : exists r, ha_ShadowRequester ad = Some r /\ backed (c_ShadowBaseURLs cfg) tls.2 cfg o r;
  rd_primary_headers : ha_PrimaryRequestHeaders ad = default ∅ (f_PrimaryRequestHeaders (c_Plain cfg));
  rd_shadow_headers : ha_ShadowRequestHeaders ad = default ∅ (f_ShadowRequestHeaders (c_Plain cfg))
}.

Lemma wired_ready `{Regexp} `{Unicode} cfg o a ad :
  wired asURL cfg o a -> a_Adapter a = HTTPAdapter_ ad -> ready cfg (a_TLS a) o ad.
Proof.
  intros (_ & _ & _ & _ & _ & Hw) E. rewrite E in Hw. destruct Hw as (_ & _ & Hp & Hs & H1 & H2).
  assert (forall urls mode tls r, as_configured asURL urls mode tls cfg o r -> exists r0, r = Some r0 /\ backed urls tls cfg o r0) as G.
  { intros urls mode tls r (rq & client & -> & Hb & Ho & _ & Hm & -> & _). eexists. split; [done|]. by exists rq. }
  split; [by eapply G..|done|done].
Qed.

(** What a side of the proxy uses of the configuration. *)
Definition baseURLs (primary : bool) (cfg : Config) : list parsedURL :=
  if primary then c_PrimaryBaseURLs cfg else c_ShadowBaseURLs cfg.
Definition sideTLS (primary : bool) (tls : tlsClient * tlsClient) : tlsClient := if primary then tls.1 else tls.2.
Definition staticHeaders (primary : bool) (cfg : Config) : gmap string string :=
  default ∅ (if primary then f_PrimaryRequestHeaders (c_Plain cfg) else f_ShadowRequestHeaders (c_Plain cfg)).
Definition ruleHeaders (primary : bool) (ev : Event) : gmap string string :=
  if primary then e_PrimaryRequestHeaders ev else e_ShadowRequestHeaders ev.
Definition sidePath (primary : bool) (ev : Event) : string :=
  let path := if primary then e_PrimaryPath ev else e_ShadowPath ev in
  if decide (path = "") then e_Path ev else path.
Definition sideTarget (primary : bool) : Target := if primary then TargetPrimary else TargetShadow.

#[local] Instance http_session : TestSession (httpSession * requesterOf) := http_TestSession rangeS.

(** A session of either side makes one exchange. *)
Lemma session_exchange cfg tls o ad primary ev :
  ready cfg tls o ad -> baseURLs primary cfg <> [] -> Z.of_nat (length (baseURLs primary cfg)) < 2 ^ 32 ->
  distinct_headers (staticHeaders primary cfg) -> distinct_headers (ruleHeaders primary ev) ->
  exists s, NewSession ad (sideTarget primary) = Ok s /\
    exists result s1 r1, Send s ev = (None, (s1, r1)) /\
      Receive (s1, r1) = ((responseOf result, rs_Err result), (s1, r1)) /\
      backed (baseURLs primary cfg) (sideTLS primary tls) cfg o r1 /\
      exchanged (baseURLs primary cfg) (sideTLS primary tls) cfg o (staticHeaders primary cfg) (ruleHeaders primary ev)
        (sidePath primary ev) ev result.
Proof.
  intros Hr Hne Hl Hd1 Hd2.
  assert (exists s r, NewSession ad (sideTarget primary) = Ok (s, r) /\
    backed (baseURLs primary cfg) (sideTLS primary tls) cfg o r /\
    (if primary then ha_PrimaryRequestHeaders ad else ha_ShadowRequestHeaders ad) = staticHeaders primary cfg)
    as (s & r & EN & Hb & Eh).
  { destruct Hr as [(r1 & E1 & B1) (r2 & E2 & B2) H1 H2]. destruct primary; unfold NewSession, sideTarget.
    - rewrite decide_True, E1 by done. eexists _, r1. split_and!; [reflexivity|exact B1|exact H1].
    - rewrite decide_False, decide_True, E2 by done. eexists _, r2. split_and!; [reflexivity|exact B2|exact H2]. }
  exists (s, r). split; [done|].
  assert (Et : bool_decide (sideTarget primary = TargetPrimary) = primary) by by destruct primary.
  pose proof (http_session_spec rangeS HrangeS ad (sideTarget primary) s r ev EN) as G. cbv zeta in G. rewrite Et, Eh in G.
  destruct (G Hd1 Hd2) as (item & s1 & G').
  pose proof (Do_backed _ _ _ _ r item (staticHeaders primary cfg) (ruleHeaders primary ev) (e_Header ev) Hb Hne Hl) as D.
  destruct (Requester_Do r item) as [result r1].
  destruct G' as (G1 & G2 & _ & _ & _ & G3 & G4 & G5 & G6 & _ & _ & G7 & G8).
  destruct D as [D1 D2]; [exact G8|]. exists result, s1, r1. split_and!; [exact G1|exact G2|exact D1|].
  specialize (D2 ev G3 G5 G6 G4 eq_refl). unfold sidePath. rewrite G7 in D2. exact D2.
Qed.
(** ** The proxy *)

Context `{Regexp} `{Unicode} `{comparejson.JSONLib} `{URLs} `{grpcconfig.PEMFiles} {G : Type} `{Shared G}.
Context (html_Parse : string -> res compare.Node).
Context (unq : string -> option string) (dec : string -> option logging.document).
Context (rangeH : header -> list (string * list string)) (HrangeH : forall src, rangeH src ≡ₚ map_to_list src).
(** The header of a response read by net/http has canonical keys. *)
Context (Hcanonical : forall client tls req resp, network client tls req = Ok resp -> canonical_header (resp_Header resp)).

Lemma exchanged_canonical urls tls cfg o configured rule path ev result :
  exchanged urls tls cfg o configured rule path ev result -> rs_Err result = None ->
  canonical_header (rs_Header result).
Proof.
  intros (base & _ & E) Hn. cbv zeta in E. destruct (http_CheckRequest _ _); [congruence|].
  destruct E as (req & sent & _ & _ & _ & _ & _ & _ & E).
  destruct (ask _ tls req) as [resp|] eqn:Ea; [|congruence]. destruct E as (_ & _ & -> & _).
  revert Ea. unfold ask, roundTrip, requireHTTP2_RoundTrip. destruct (hc_RequireHTTP2 _); [|by apply Hcanonical].
  destruct (network _ _ _) as [resp'|] eqn:En; [|done]. destruct (_ =? 2); [|done]. intros [= <-]. by eapply Hcanonical.
Qed.

(** What the client gets of a result. *)
Definition relayed (cfg : Config) (observability : option tracing) (corrID : string) (result : Result) (w : writer) : Prop :=
  w_Status w = (if 0 <? rs_Status result then rs_Status result else 200) /\ w_Body w = rs_Body result /\
  forall k, w_Header w !! k =
    if decide (k = "X-Request-Id") then Some [corrID]
    else
      let traced := SetTraceIDHeader observability ∅ !! k in
      if decide (k ∈ forwardedHeaders (httpConfigOf url_String asURL cfg) (rs_Status result)) then
        match rs_Header result !! k with Some [] => None | Some vs => Some vs | None => traced end
      else traced.

Lemma shouldShadow_backends (hc : httpConfig) limiter r d (g : G) :
  sd_doShadow (fst (shouldShadow hc limiter r d g)) = true -> hc_ShadowBaseURLs hc <> [].
Proof. unfold shouldShadow. by destruct (hc_ShadowBaseURLs hc). Qed.

(** The headers of the rules of an accepted configuration are canonical, hence distinct. *)
Lemma headers_distinct m : headers_ok m -> distinct_headers (default ∅ m).
Proof.
  intros Hm n1 n2 [v1 E1] [v2 E2]. destruct m as [m|]; cbn in *; [|by apply lookup_empty_Some in E1].
  destruct (Hm _ _ E1) as [_ C1], (Hm _ _ E2) as [_ C2]. unfold canonical in *. congruence.
Qed.
Lemma resolveLoop_rules i rules cs method path :
  pathrules.compileRules i rules = Ok cs ->
  PrimaryRequestHeaders (resolveLoop cs method path) = None /\ ShadowRequestHeaders (resolveLoop cs method path) = None \/
  exists rule, rule ∈ rules /\ PrimaryRequestHeaders (resolveLoop cs method path) = pr_PrimaryRequestHeaders rule /\
    ShadowRequestHeaders (resolveLoop cs method path) = pr_ShadowRequestHeaders rule.
Proof.
  revert i cs. induction rules as [|rule rules IH]; intros i cs E; cbn [pathrules.compileRules] in E.
  { injection E as <-. by left. }
  apply res_bind_ok in E as (c & Ec & E). apply res_bind_ok in E as (cs' & Ecs & [= <-]). cbn [resolveLoop].
  destruct (_ || _).
  - destruct (IH _ _ Ecs) as [?|(r & Hr & ?)]; [by left|right]. exists r. split; [by right|done].
  - right. exists rule. split; [by left|]. by rewrite (decision_compileRule i rule c Ec).
Qed.
Lemma rules_distinct cfg resolver r :
  path_rules_ok (c_PathRules cfg) -> NewResolver (default [] (c_PathRules cfg)) = Ok resolver ->
  let d := resolvePathRule resolver r in
  distinct_headers (default ∅ (PrimaryRequestHeaders d)) /\ distinct_headers (default ∅ (ShadowRequestHeaders d)).
Proof.
  intros Hr E. apply res_bind_ok in E as (cs & Ecs & [= <-]). unfold path_rules_ok in Hr.
  destruct (c_PathRules cfg) as [rules|]; [|done]. cbn [default] in Ecs. cbv zeta.
  assert (Hn : headers_ok None) by done.
  unfold resolvePathRule, Resolve. destruct cs as [|c cs]; [by split; apply headers_distinct|].
  destruct (resolveLoop_rules 0 rules (c :: cs) (GoStrings.ToUpper (TrimSpace (r_Method r))) (r_Path r) Ecs)
    as [[-> ->]|(rule & Hin & -> & ->)]; [by split; apply headers_distinct|].
  rewrite Forall_forall in Hr. destruct (po_maps _ (Hr _ Hin)). by split; apply headers_distinct.
Qed.

Section one.
Context (cfg : Config) (a : components) (observability : option tracing) (enabled : Z -> bool) (ad : HTTPAdapter (R := requesterOf)).
Let o := bool_decide (is_Some observability).
Let h := NewHandler html_Parse url_String asURL cfg a observability enabled.
Context (Hready : ready cfg (a_TLS a) o ad) (Hprimary : c_PrimaryBaseURLs cfg <> []).
Context (Hlen : forall primary, Z.of_nat (length (baseURLs primary cfg)) < 2 ^ 32).
Context (Hmax : f_MaxBackendBodyBytes (c_Plain cfg) < 2 ^ 63 - 1).
Context (Hstatic : forall primary, distinct_headers (staticHeaders primary cfg)).

(** The exchange of one side of a request. *)
Definition side (primary : bool) (ev : Event) (result : Result) : Prop :=
  exchanged (baseURLs primary cfg) (sideTLS primary (a_TLS a)) cfg o (staticHeaders primary cfg) (ruleHeaders primary ev)
    (sidePath primary ev) ev result.

(** One request, answered by the two sides. *)
Definition proxied (now : Z) (r : httpRequest) (g : G) (body : string) : Prop :=
  let '((corrID, _), hdr, _) := ensureRequestID now (snd (requestID_Add g)) (r_Header r) in
  let out := Handle unq dec rangeH h (NewSession ad TargetPrimary) (NewSession ad TargetShadow) now r g in
  exists ev result s1 r1,
    eventOf h r (fst (requestID_Add g)) hdr body ev /\ side true ev result /\
    o_primary out = Some (s1, r1) /\ backed (c_PrimaryBaseURLs cfg) (a_TLS a).1 cfg o r1 /\
    match rs_Err result with
    | Some e => w_Status (o_writer out) = 502 /\ w_Body (o_writer out) = "" /\ o_spanErr out = Some e /\ o_job out = None
    | None => relayed cfg observability corrID result (o_writer out)
    end /\
    match o_job out with
    | None => True
    | Some j => exists result' s2 r2, j_event j = ev /\ Send (j_session j) ev = (None, (s2, r2)) /\
        Receive (s2, r2) = ((responseOf result', rs_Err result'), (s2, r2)) /\ side false ev result'
    end.

Lemma Handle_proxied now r g body :
  acceptedBody (h_cfg h) r body ->
  (let d := resolvePathRule (h_pathRuleResolver h) r in
   distinct_headers (default ∅ (PrimaryRequestHeaders d)) /\ distinct_headers (default ∅ (ShadowRequestHeaders d))) ->
  proxied now r g body.
Proof.
  intros Hbody [Hd1 Hd2]. unfold proxied.
  destruct (Handle_call unq dec rangeH (P := httpSession * requesterOf) h now r g body Hmax Hbody)
    as (ev & rq & tid & cid & Hev & Hcall).
  specialize (Hcall (httpSession * requesterOf)%type (NewSession ad TargetPrimary) (NewSession ad TargetShadow)).
  unfold called in Hcall.
  destruct (ensureRequestID now (snd (requestID_Add g)) (r_Header r)) as [[[corrID gen] hdr] g2].
  set (out := Handle _ _ _ _ _ _ _ _ _) in *. pose proof (ev_rule _ _ _ _ _ _ Hev) as [Er1 Er2].
  destruct (session_exchange cfg (a_TLS a) o ad true ev Hready Hprimary (Hlen true) (Hstatic true))
    as ((s & r0) & EN & result & s1 & r1 & ES & ER & Hb & Hx); [unfold ruleHeaders; by rewrite Er1|].
  change (sideTarget true) with TargetPrimary in EN. rewrite EN in Hcall. unfold callPrimary in Hcall.
  rewrite ES, ER in Hcall. exists ev, result, s1, r1. split; [exact Hev|]. split; [exact Hx|].
  assert (Ek : p_Err (keepErr (responseOf result) (rs_Err result)) = rs_Err result).
  { unfold keepErr. cbn [p_Err responseOf]. by destruct (rs_Err result) eqn:E; cbn; rewrite ?E. }
  rewrite Ek in Hcall. destruct (rs_Err result) as [e|] eqn:Ee.
  - destruct Hcall as ([= Hw Hout Hse Hp] & _ & Hj & _). rewrite Hw, Hp, Hse, Hj, AbortWithStatus_new by done.
    split_and!; done.
  - destruct Hcall as [[= Hw Hout Hse Hp] Hj]. rewrite Hw, Hp. split; [done|]. split; [exact Hb|]. split.
    { destruct (writePrimaryResponse_spec rangeH HrangeH (h_cfg h) corrID (responseOf result)
        (newWriter (SetTraceIDHeader observability ∅))) as (W1 & W2 & W3); [|done..|].
      { exact (exchanged_canonical _ _ _ _ _ _ _ _ _ Hx Ee). }
      split_and!; [exact W1|exact W2|exact W3]. }
    destruct (o_job out) as [j|]; [|done]. destruct Hj as (Hsh & Ho & Hje & _).
    destruct (session_exchange cfg (a_TLS a) o ad false ev Hready) as (s' & EN' & result' & s2 & r2 & X1 & X2 & _ & X3).
    { apply shouldShadow_backends in Hsh. intros E0. apply Hsh. cbn [h_cfg h NewHandler hc_ShadowBaseURLs httpConfigOf].
      cbn [baseURLs] in E0. by rewrite E0. }
    { exact (Hlen false). } { exact (Hstatic false). } { unfold ruleHeaders. by rewrite Er2. }
    change (sideTarget false) with TargetShadow in EN'. rewrite EN' in Ho. injection Ho as <-.
    exists result', s2, r2. split_and!; [exact Hje|exact X1|exact X2|exact X3].
Qed.
End one.

End network.

(** ** Witness *)

Definition exampleApp (cfg : Config) : res components :=
  @newApp asciiUnicode exampleURL literalRegexp grpcconfigspec.noFiles cfg false 0.
Definition exampleNetwork (_ : httpClient) (_ : tlsClient) (req : HTTPRequest) : res HTTPResponse :=
  Ok {| resp_StatusCode := 201; resp_Proto := "HTTP/1.1"; resp_ProtoMajor := 1; resp_Header := ∅; resp_Body := hr_URL req |}.

Lemma distinct_empty : distinct_headers ∅.
Proof. intros n1 n2 [v E]. by apply lookup_empty_Some in E. Qed.

Lemma example_canonical client tls req resp :
  exampleNetwork client tls req = Ok resp -> canonical_header (resp_Header resp).
Proof. intros E. injection E as <-. apply map_Forall_empty. Qed.

(** The example configuration is small and sets no request headers. *)
Definition small (cfg : Config) : Prop :=
  (forall primary, Z.of_nat (length (baseURLs primary cfg)) < 2 ^ 32) /\
  f_MaxBackendBodyBytes (c_Plain cfg) < 2 ^ 63 - 1 /\
  (forall primary, staticHeaders primary cfg = ∅).

Lemma example_accepted :
  exists cfg0 cfg a, @validate literalRegexp asciiUnicode exampleURLs grpcconfigspec.noFiles (fun _ => None) map_to_list cfg0 = Ok cfg /\
    exampleApp cfg = Ok a /\ c_Protocol cfg = grpcconfig.protocolHTTP /\ small cfg.
Proof.
  destruct (exampleValidate (@decode exampleURLs defaults)) as [cfg|e] eqn:E; [|vm_compute in E; discriminate E].
  pose proof E as E0. apply res_bind_ok in E as (cfg0 & _ & E). exists (ruleConfig cfg0), cfg.
  destruct (exampleApp cfg) as [a|e] eqn:Ea.
  - exists a. split; [exact E|]. split; [reflexivity|]. vm_compute in E0. injection E0 as <-. vm_compute in Ea. injection Ea as <-.
    split; [reflexivity|]. repeat split; by intros [].
  - exfalso. vm_compute in E0. injection E0 as <-. vm_compute in Ea. discriminate Ea.
Qed.


(** A client that lists X-Request-ID in Connection: the id is drawn before the
    hop-by-hop headers are removed, so the backends do not get it. *)
Lemma request_id_dropped :
  let h : header := {["Connection" := ["X-Request-ID"]]} in
  let '((id, generated), hdr, _) := @ensureRequestID Z exampleShared 5 0 h in
  generated = true /\ Get hdr "X-Request-Id" = id /\
  Get (prepareForwardedHeaders (exampleHTTPRequest h None) hdr) "X-Request-Id" = "".
Proof. by vm_compute. Qed.
End httpproxy.
