(* ===== verification/GrpcProxy.v ===== *)
(** * An accepted gRPC configuration, end to end

    The handler of GrpcHandler.v on the resolver Wiring.v compiles and the
    connections Targets.v opens for a configuration that Config.v accepts.  The
    network is left: the upstream streams, the token issuer and the
    introspection endpoint answer as they like. *)
From S2P Require Export GrpcHandler Wiring.

Module grpcproxy.
Import callerauthconfig grpcconfig grpcconfigspec config configspec wiring targets grpcrules grpchandler
  bearer callerauth grpcmetadata grpccompare grpcshadow grpcreport.

(** ** Construction *)

Section construction.
Context `{PEMFiles} `{Unicode}.

(** A [*tls.Config] of [config.AuthClientTLSConfig]. *)
Record authTLS := { at_MinVersion : Z; at_ServerName : string; at_RootCAs : option string; at_InsecureSkipVerify : bool }.
Definition asAuthTLS (insecure : bool) (t : Z * string * option string) : authTLS :=
  {| at_MinVersion := t.1.1; at_ServerName := t.1.2; at_RootCAs := t.2; at_InsecureSkipVerify := insecure |}.

(** *** [newCallerHTTPClient] and [callerRuntime] of caller_auth.go

    A client that follows no redirect; a nil TLS configuration does not occur. *)
Record callerHTTPClient := { ch_TLS : authTLS; ch_MaxIdleConnsPerHost : Z }.
Definition newCallerHTTPClient (a : GRPCCallerAuthConfig) : res callerHTTPClient :=
  tlsConfig ← AuthClientTLSConfig (ca_CAFile a) (ca_ServerName a) (ca_MinTLSVersion a);
  Ok {| ch_TLS := asAuthTLS false tlsConfig; ch_MaxIdleConnsPerHost := EffectiveIntrospectionMaxConcurrent a |}.

(** [callerAuthRuntime] as [once.Do] leaves it. *)
Record callerAuthRuntime := {
  cr_client : option callerHTTPClient;
  cr_clientErr : option error;
  cr_cache : option introspectionCache;
  cr_slots : Z
}.
Definition callerRuntime (a : GRPCCallerAuthConfig) (callerHTTP : option callerHTTPClient) (callerHTTPError : option error)
    : callerAuthRuntime :=
  let '(client, clientErr) :=
    match callerHTTP, callerHTTPError with
    | None, None =>
        match newCallerHTTPClient a with Ok client => (Some client, None) | Err err => (None, Some err) end
    | _, _ => (callerHTTP, callerHTTPError)
    end in
  {| cr_client := client; cr_clientErr := clientErr;
     cr_cache := newIntrospectionCache (ca_IntrospectionCacheTTL a) (ca_IntrospectionCacheMaxEntries a);
     cr_slots := EffectiveIntrospectionMaxConcurrent a |}.

(** *** [newBearerTokenSource] of bearer.go *)

(** The fields of [clientCredentialsTokenSource] that do not change. *)
Record clientCredentialsTokenSource := {
  cs_cfg : GRPCBackendOIDCAuthConfig;
  cs_initError : option error;
  cs_TLS : option authTLS
}.
Definition insecureTLSWarning : string :=
  "grpc_backend_oidc_auth.insecure_tls disables certificate and hostname verification; use ca_file and server_name".

(** The source, and what is logged when there is a logger. *)
Definition newBearerTokenSource (a : GRPCBackendOIDCAuthConfig) (logger : bool)
    : option clientCredentialsTokenSource * list string :=
  if negb (oidc_Enabled a) then (None, [])
  else
    let '(tlsConfig, initError) :=
      match AuthClientTLSConfig (oidc_CAFile a) (oidc_ServerName a) (oidc_MinTLSVersion a) with
      | Ok t => (Some (asAuthTLS (oidc_InsecureTLS a) t), None)
      | Err err => (None, Some err)
      end in
    let initError :=
      if oidc_InsecureTLS a && (bool_decide (oidc_CAFile a <> "") || bool_decide (oidc_ServerName a <> ""))
      then Some (errors_New "grpc_backend_oidc_auth: insecure_tls cannot be combined with ca_file or server_name")
      else initError in
    (Some {| cs_cfg := a; cs_initError := initError; cs_TLS := tlsConfig |},
     if oidc_InsecureTLS a && logger then [insecureTLSWarning] else []).

(** *** [NewTargetPools] and [NewHandler] of a configuration *)

Definition poolConfigOf (cfg : Config) : poolConfig :=
  let g := c_GRPC cfg in
  {| pc_Protocol := c_Protocol cfg;
     pc_PrimaryGRPCTargets := g_PrimaryTargets g; pc_PrimaryGRPCSelectionMode := g_PrimarySelectionMode g;
     pc_ShadowGRPCTargets := g_ShadowTargets g; pc_ShadowGRPCSelectionMode := g_ShadowSelectionMode g;
     pc_GRPCMaxReceiveMessageBytes := g_MaxReceiveMessageBytes g;
     pc_GRPCMaxSendMessageBytes := g_MaxSendMessageBytes g |}.

(** The configuration as the handler reads it. *)
Definition grpcConfigOf (cfg : Config) : grpcConfig :=
  let g := c_GRPC cfg in
  {| GRPCCompareMode := g_CompareMode g; GRPCCompareMetadata := g_CompareMetadata g;
     GRPCShadowForceMetadata := g_ShadowForceMetadata g; ShadowSamplePercent := s_SamplePercent (c_Shadow cfg);
     GRPCShadowTimeout := g_ShadowTimeout g; GRPCShadowQueueSize := g_ShadowQueueSize g;
     LogOnlyOnDiff := f_LogOnlyOnDiff (c_Plain cfg); LogFields := c_LogFields cfg |}.

(** The handler with the fields of its callers' HTTP client. *)
Record builtHandler := {
  b_handler : handler;
  b_callOptions : list callOption;
  b_callerHTTP : option callerHTTPClient;
  b_callerHTTPError : option error
}.
Definition NewHandler (jsonString : string -> option string) (jsonStrings : string -> option (list string))
    (cfg : Config) (resolver : Resolver) (hasLimiter : bool) (logger : option (Z -> bool)) (hasObs : bool) : builtHandler :=
  let g := c_GRPC cfg in
  let callerHTTP :=
    if decide (ca_Mode (g_CallerAuth g) = callerIntrospectionMode) then
      match newCallerHTTPClient (g_CallerAuth g) with Ok client => (Some client, None) | Err err => (None, Some err) end
    else (None, None) in
  {| b_handler :=
       {| h_cfg := grpcConfigOf cfg; h_auth := g_CallerAuth g; h_tls := g_TLS g; h_oidc := g_BackendOIDCAuth g;
          h_resolver := resolver; h_hasLimiter := hasLimiter; h_enabled := logger; h_hasObs := hasObs;
          h_bearerInit := (newBearerTokenSource (g_BackendOIDCAuth g) (bool_decide (is_Some logger))).1 ≫= cs_initError;
          h_jsonString := jsonString; h_jsonStrings := jsonStrings |};
     b_callOptions := defaultCallOptions (poolConfigOf cfg);
     b_callerHTTP := callerHTTP.1; b_callerHTTPError := callerHTTP.2 |}.
End construction.

(** ** Specification *)

Section proxy.
Context {G W : Type} `{forwarding.Shared G, TokenWorld W, NetIP, Unicode, URLs, PEMFiles}.
Implicit Types (cfg : Config) (h : handler) (rq : rpc) (s : handlerState (G := G) (W := W)).

(** A pool of the configured targets, wherever its selection stands. *)
Record pool_of (entries : list GRPCTarget) (mode : string) (p : TargetPool) : Prop := {
  po_length : length (tp_targets p) = length entries;
  po_built : forall k t entry, tp_targets p !! k = Some t -> entries !! k = Some entry -> builtFrom (Z.of_nat k) entry t;
  po_mode : tp_mode p = mode;
  po_next : 0 <= tp_next p < 2 ^ 64
}.
(** A connection of the configured targets. *)
Definition configured (entries : list GRPCTarget) (t : Target) : Prop :=
  exists k entry, entries !! k = Some entry /\ builtFrom (Z.of_nat k) entry (Some t).

(** The state RPCs find: the pools of the configuration. *)
Definition ready cfg s : Prop :=
  exists p q, hs_pools s = Some {| Primary := Some p; Shadow := Some q |} /\
    pool_of (g_PrimaryTargets (c_GRPC cfg)) (g_PrimarySelectionMode (c_GRPC cfg)) p /\
    pool_of (g_ShadowTargets (c_GRPC cfg)) (g_ShadowSelectionMode (c_GRPC cfg)) q.

(** The policy of a method: that of the first rule that admits it, the
    inherited one without rules, never when no rule admits it. *)
Definition policy (rules : list GRPCRule) (svc method : string) (d : Decision) : Prop :=
  (rules = [] /\ d = plainDecision svc method ShadowModeInherit CompareDecisionInherit "") \/
  (exists before rule after, rules = (before ++ rule :: after)%list /\
     Forall (fun r => ~ ruleAdmits r svc method) before /\ ruleAdmits rule svc method /\
     d = configDecision (Z.of_nat (length before)) rule svc method) \/
  (rules <> [] /\ Forall (fun r => ~ ruleAdmits r svc method) rules /\
     d = plainDecision svc method ShadowModeNever CompareDecisionOff SkipReasonGRPCRuleUnmatched).

(** The client's metadata with the entries of an overlay in the place of its
    own, under the trace context. *)
Definition carries rq (inject : MD -> MD) (overlay : gmap string string) (md : MD) : Prop :=
  exists plain, md = inject plain /\ forall k, plain !! k =
    match overlay !! k with
    | Some v => Some [v]
    | None => cloneIncomingMetadata (default [] (rq_incoming rq)) !! k
    end.

(** The token of the primary, when the configuration asks for one. *)
Definition token cfg s : option (res string) :=
  let a := g_BackendOIDCAuth (c_GRPC cfg) in
  if oidc_Enabled a then Some (Authorization a None (hs_token s) (hs_world s)).1.1 else None.

(** What the shadow is sent, if it is called. *)
Definition shadowed cfg h rq (d : Decision) (out : rpcOutput) : Prop :=
  (forall t md, o_shadow out = Some (t, md) ->
     configured (g_ShadowTargets (c_GRPC cfg)) t /\ d_ShadowMode d <> ShadowModeNever /\
     carries rq (rq_injectShadow rq) (default ∅ (ShadowMetadata d)) md) /\
  (d_ShadowMode d = ShadowModeAlways -> h_hasLimiter h = false -> g_ShadowTargets (c_GRPC cfg) <> [] ->
     is_Some (o_shadow out)).

(** The primary of an RPC and its shadow. *)
Definition sent cfg h rq (d : Decision) (out : rpcOutput) (overlay : gmap string string) : Prop :=
  exists target md err, configured (g_PrimaryTargets (c_GRPC cfg)) target /\
    relays out rq target md err /\ carries rq (rq_injectPrimary rq) overlay md /\ shadowed cfg h rq d out.

(** One RPC. *)
Definition proxied cfg h rq s (m : string) : Prop :=
  let '(out, s') := Handle h rq s in
  ready cfg s' /\
  match authenticate h rq m with
  | Some e => untouched out /\ o_error out = Some (inl e)
  | None =>
      (~ (exists svc method, names m svc method) /\
         exists text, refused h out m (status_Error codes_Unimplemented text) OutcomeBadRequest) \/
      (exists svc method d, names m svc method /\ policy (default [] (g_Rules (c_GRPC cfg))) svc method d /\
         match token cfg s with
         | None => sent cfg h rq d out (default ∅ (PrimaryMetadata d))
         | Some (Ok value) => sent cfg h rq d out (<[bearerAuthHeader := value]> (default ∅ (PrimaryMetadata d)))
         | Some (Err _) =>
             refused h out m (status_Error codes_Unavailable "primary bearer token unavailable") OutcomeError
         end)
  end.

(** ** Lemmas *)

(** *** Connections *)

Lemma Pick_next p info :
  0 <= tp_next p < 2 ^ 64 ->
  match (Pick (Some p) info).2 with Some p' => 0 <= tp_next p' < 2 ^ 64 | None => False end.
Proof.
  intros Hn. pose proof (u64_range (tp_next p + 1)). unfold Pick.
  destruct (tp_targets p) as [|t [|t' l]]; [done|done|].
  destruct (decide _); [destruct (pickSourceIPHash p info)|]; done.
Qed.

Lemma Pick_configured entries mode p info :
  pool_of entries mode p -> entries <> [] ->
  exists t p', Pick (Some p) info = (Some t, Some p') /\ pool_of entries mode p' /\ configured entries t.
Proof.
  intros [Hl Hb Hm Hn] Hne.
  assert (Hlook : forall k t, tp_targets p !! k = Some t -> exists entry, entries !! k = Some entry).
  { intros k t Hk. apply lookup_lt_is_Some. rewrite <- Hl. by eapply lookup_lt_Some. }
  destruct (Pick_spec p info) as (t & p' & E & Hin & Ht & Hm' & _).
  { intros E. rewrite E in Hl. by destruct entries. }
  { apply Forall_lookup. intros k t Hk. destruct (Hlook k t Hk) as [entry He]. specialize (Hb _ _ _ Hk He).
    by destruct t. }
  { done. }
  exists t, p'. split; [exact E|]. split.
  - pose proof (Pick_next p info Hn) as Hn'. rewrite E in Hn'. split; [by rewrite Ht|by rewrite Ht|by rewrite Hm'|exact Hn'].
  - apply list_elem_of_lookup in Hin as [k Hk]. destruct (Hlook k _ Hk) as [entry He]. exists k, entry.
    split; [exact He|]. by apply (Hb _ _ _ Hk He).
Qed.

Lemma configured_conn entries t : configured entries t -> exists c, t_Conn t = Some c.
Proof. by intros (k & entry & _ & _ & _ & _ & [c ?]); exists c. Qed.

Lemma NewTargetPools_ready {cert pool : Type} (rf : string -> res string) (pem : string -> option pool)
    (kp : string -> string -> res cert)
    (nc : string -> option (tlsConfig cert pool) -> list callOption -> option string -> option error)
    (cc : nat -> option error) cfg w pools w' s :
  conns_ok w -> c_Protocol cfg = protocolGRPC ->
  NewTargetPools rf pem kp nc cc (poolConfigOf cfg) w = (Ok pools, w') -> hs_pools s = Some pools -> ready cfg s.
Proof.
  intros Hw Hp. unfold NewTargetPools. cbn [poolConfigOf pc_Protocol]. rewrite Hp, decide_True by done. unfold newTargetPool.
  destruct (newTargetPool_loop _ _ _ _ _ 0 _ _ _ w) as [[p|e] w1] eqn:E1; [|done].
  apply newTargetPool_loop_spec in E1 as [Hw1 (new1 & Ht1 & _ & _ & Hm1 & Hn1 & Hl1 & Hk1)]; [|done].
  destruct (newTargetPool_loop _ _ _ _ _ 0 _ _ _ w1) as [[q|e] w2] eqn:E2; [|by destruct (TargetPool_Close _ _ _)].
  apply newTargetPool_loop_spec in E2 as [_ (new2 & Ht2 & _ & _ & Hm2 & Hn2 & Hl2 & Hk2)]; [|done].
  intros [= <- <-] Hs. exists p, q. split; [done|]. cbn in *.
  split; split; rewrite ?Ht1, ?Ht2, ?Hn1, ?Hn2; done.
Qed.

(** *** Policy and metadata *)

#[local] Instance ruleAdmits_dec rule svc method : base.Decision (ruleAdmits rule svc method).
Proof. unfold ruleAdmits. apply _. Defined.

Lemma first_admitting rules svc method :
  Forall (fun r => ~ ruleAdmits r svc method) rules \/
  exists before rule after, rules = (before ++ rule :: after)%list /\
    Forall (fun r => ~ ruleAdmits r svc method) before /\ ruleAdmits rule svc method.
Proof.
  induction rules as [|r rules IH]; [by left; constructor|].
  destruct (base.decide (ruleAdmits r svc method)) as [Hr|Hr].
  { right. by exists [], r, rules. }
  destruct IH as [IH|(before & rule & after & -> & Hb & Ha)]; [left; by constructor|right].
  exists (r :: before), rule, after. by split_and!; [|constructor|].
Qed.

Lemma Resolve_policy rules r m :
  NewResolver rules = Ok r ->
  match Resolve r m with
  | Ok d => exists svc method, names m svc method /\ policy rules svc method d
  | Err _ => ~ exists svc method, names m svc method
  end.
Proof.
  intros Hr. destruct (grpc_Resolve_first_match rules r m Hr) as [Hok Hd].
  destruct (Resolve r m) as [d|e].
  2: { intros Hn. by apply Hok in Hn. }
  destruct (proj1 Hok eq_refl) as (svc & method & Hn). exists svc, method. split; [done|].
  destruct (Hd svc method Hn) as (D1 & D2 & D3).
  destruct (decide (rules = [])) as [E|E]; [left; split; [done|]; by specialize (D1 E) as [= ->]|right].
  destruct (first_admitting rules svc method) as [Hf|(before & rule & after & Er & Hb & Ha)].
  - right. split_and!; [done|done|]. by specialize (D3 E Hf) as [= ->].
  - left. exists before, rule, after. split_and!; [done..|]. by specialize (D2 _ _ _ Er Hb Ha) as [= ->].
Qed.

Lemma Resolve_plain r m e : Resolve r m = Err e -> status_FromError e = None.
Proof.
  unfold Resolve. destruct (SplitFullMethod m) as [[svc method]|e'] eqn:E; [by destruct r as [[|]|]|].
  intros [= <-]. unfold SplitFullMethod in E. repeat (case_match; simplify_eq; try done).
Qed.

(** The overlays of an accepted configuration reach the backend. *)
Lemma outgoing_carries rq inject overlay :
  rq_range rq overlay ≡ₚ map_to_list overlay -> (forall k v, overlay !! k = Some v -> overlayKey k) ->
  carries rq inject overlay (outgoing rq inject overlay).
Proof.
  intros Hr Hk. unfold outgoing, outgoingMetadata. eexists. split; [done|]. intros k.
  assert (Hin : forall kv, kv ∈ rq_range rq overlay -> overlay !! kv.1 = Some kv.2).
  { intros [j w] Hj. rewrite Hr in Hj. by apply elem_of_map_to_list in Hj. }
  assert (Hself : forall kv, kv ∈ rq_range rq overlay -> ToLower (normalizeMetadataKey kv.1) = kv.1).
  { intros kv Hj. destruct (overlayKey_normal kv.1 (Hk _ _ (Hin _ Hj))) as [(_ & E1 & E2) _]. by rewrite E1, E2. }
  destruct (overlay !! k) as [v|] eqn:E.
  - destruct (overlayKey_normal k (Hk k v E)) as [Hn Hres]. apply overlay_set; [done|done| |].
    + rewrite Hr. by apply elem_of_map_to_list.
    + intros [j w] Hj Ej. rewrite (Hself _ Hj) in Ej. cbn in Ej. subst j. specialize (Hin _ Hj). cbn in Hin. congruence.
  - apply overlay_untouched. intros kv Hj. right. right. rewrite (Hself _ Hj). intros Ek.
    specialize (Hin _ Hj). rewrite Ek, E in Hin. done.
Qed.

Lemma authorization_overlayKey : overlayKey bearerAuthHeader.
Proof. split; [|by vm_compute]. split; [done|]. repeat constructor; vm_compute; done. Qed.

(** The metadata of a policy over accepted rules. *)
Definition overlays_ok (d : Decision) : Prop :=
  (forall k v, default ∅ (PrimaryMetadata d) !! k = Some v -> overlayKey k) /\
  (forall k v, default ∅ (ShadowMetadata d) !! k = Some v -> overlayKey k).

Lemma policy_overlays rules svc method d :
  Forall rule_ok rules -> policy rules svc method d -> overlays_ok d.
Proof.
  intros Hr Hd. assert (Hnone : forall k v, default (∅ : gmap string string) None !! k = Some v -> overlayKey k).
  { intros k v. change (default (∅ : gmap string string) None !! k) with ((∅ : gmap string string) !! k). by rewrite lookup_empty. }
  destruct Hd as [[_ ->]|[(before & rule & after & -> & _ & _ & ->)|(_ & _ & ->)]]; [by split| |by split].
  apply Forall_app in Hr as [_ [Hr _]%Forall_cons]. destruct (ok_overlays _ Hr) as [Ho1 Ho2].
  unfold overlays_ok, configDecision. cbn [PrimaryMetadata ShadowMetadata].
  split; [destruct (gr_PrimaryMetadata rule)|destruct (gr_ShadowMetadata rule)]; done.
Qed.

(** *** The shadow *)

Lemma ready_pools cfg s s' : hs_pools s' = hs_pools s -> ready cfg s -> ready cfg s'.
Proof. unfold ready. by intros ->. Qed.

Lemma noShadowTargets_ready cfg s :
  ready cfg s -> noShadowTargets s = bool_decide (g_ShadowTargets (c_GRPC cfg) = []).
Proof.
  intros (p & q & Es & _ & [Hl _ _ _]). unfold noShadowTargets. rewrite Es. cbn [Shadow].
  apply bool_decide_ext. rewrite <- !length_zero_iff_nil. by rewrite Hl.
Qed.

Lemma sampleShadow_pools h s : hs_pools (sampleShadow h s).2 = hs_pools s.
Proof. unfold sampleShadow. by repeat case_match. Qed.

(** Who is shadowed, as far as the theorem needs it. *)
Lemma shouldShadow_ready cfg h rq d s :
  ready cfg s ->
  let '(sd, s1) := shouldShadow h rq d s in
  ready cfg s1 /\
  (doShadow sd = true -> g_ShadowTargets (c_GRPC cfg) <> [] /\ d_ShadowMode d <> ShadowModeNever) /\
  (d_ShadowMode d = ShadowModeAlways -> h_hasLimiter h = false -> g_ShadowTargets (c_GRPC cfg) <> [] -> doShadow sd = true).
Proof.
  intros Hr. unfold shouldShadow. rewrite (noShadowTargets_ready cfg s Hr).
  destruct (bool_decide_reflect (g_ShadowTargets (c_GRPC cfg) = [])) as [E|Hne]; [by split_and!|].
  destruct (decide (d_ShadowMode d = ShadowModeNever)) as [En|En]; [split_and!; [done|done|congruence]|].
  set (pick := if decide (d_ShadowMode d = ShadowModeAlways) then _ else _).
  assert (Hpick : hs_pools pick.2 = hs_pools s /\ (d_ShadowMode d = ShadowModeAlways -> pick.1 = true)).
  { unfold pick. destruct (decide _); [done|]. destruct (forcedShadow h rq); [done|]. by rewrite sampleShadow_pools. }
  destruct pick as [b s1]. cbn [fst snd] in Hpick. destruct Hpick as [Hp Ha].
  apply (ready_pools cfg s s1 Hp) in Hr.
  destruct (b && negb (forcedShadow h rq) && h_hasLimiter h) eqn:El; [|by split_and!; [..|intros ? _ _; apply Ha]].
  apply andb_true_iff in El as [_ El]. destruct (forwarding.limiter_Allow _) as [allowed g].
  split_and!; [exact Hr|done|congruence].
Qed.

Lemma prepareShadow_ready cfg h rq m d rx s :
  ready cfg s ->
  let '(sd, (shadow, st), rx', s') := prepareShadow h rq m d rx s in
  ready cfg s' /\
  (forall t, st = Some t -> configured (g_ShadowTargets (c_GRPC cfg)) t /\ d_ShadowMode d <> ShadowModeNever) /\
  (d_ShadowMode d = ShadowModeAlways -> h_hasLimiter h = false -> g_ShadowTargets (c_GRPC cfg) <> [] -> is_Some st).
Proof.
  intros Hr. unfold prepareShadow. pose proof (shouldShadow_ready cfg h rq d s Hr) as Hs.
  destruct (shouldShadow h rq d s) as [sd s1]. destruct Hs as (Hr1 & Hyes & Halways). unfold pickShadowTarget.
  destruct (doShadow sd) eqn:Ed.
  - destruct (Hyes eq_refl) as [Hne Hmode]. destruct Hr1 as (p & q & Es & Hp & Hq). rewrite Es. cbn [Shadow Primary].
    destruct (Pick_configured _ _ q (requestInfo rq m d) Hq Hne) as (t & q' & -> & Hq' & Ht).
    unfold startShadow. rewrite Ed. cbn [negb]. destruct (configured_conn _ _ Ht) as [c ->].
    split_and!; [by exists p, q'| |by eexists]. by intros ? [= <-].
  - unfold startShadow. rewrite Ed. cbn [negb]. split_and!; [done|done|]. intros Ha Hl Hne. specialize (Halways Ha Hl Hne). congruence.
Qed.

Lemma proceed_ready cfg h rq m rx d target overlay s :
  (forall overlay, rq_range rq overlay ≡ₚ map_to_list overlay) -> ready cfg s -> overlays_ok d ->
  let '(out, s') := proceed h rq m rx d target overlay s in
  ready cfg s' /\ shadowed cfg h rq d out.
Proof.
  intros Hrange Hr [_ Hsh]. unfold proceed. pose proof (prepareShadow_ready cfg h rq m d rx s Hr) as Hs.
  destruct (prepareShadow h rq m d rx s) as [[[sd [shadow st]] rx1] s1]. destruct Hs as (Hr1 & Ht & Ha).
  destruct (callPrimary rq target _) as [[[requests responses] result] err].
  destruct (finishRPCResult _ _ _ _ _ _ _ _ _ _) as [[rx2 observed] logs]. split; [exact Hr1|]. split; cbn [o_shadow].
  - intros t md E. apply fmap_Some in E as (t' & -> & [= -> ->]). destruct (Ht _ eq_refl) as [? ?].
    split_and!; [done|done|]. by apply outgoing_carries.
  - intros H1' H2' H3'. destruct (Ha H1' H2' H3') as [t ->]. by eexists.
Qed.

(** *** One RPC *)

Lemma pickPrimary_ready cfg rq m d s :
  ready cfg s -> g_PrimaryTargets (c_GRPC cfg) <> [] ->
  exists t s', pickPrimaryTarget rq m d s = (Some t, s') /\ ready cfg s' /\ configured (g_PrimaryTargets (c_GRPC cfg)) t.
Proof.
  intros (p & q & Es & Hp & Hq) Hne. unfold pickPrimaryTarget. rewrite Es. cbn [Primary Shadow].
  destruct (Pick_configured _ _ p (requestInfo rq m d) Hp Hne) as (t & p' & -> & Hp' & Ht).
  eexists t, _. split_and!; [reflexivity|by exists p', q|done].
Qed.

(** The handler of an accepted configuration. *)
Record handlerOf cfg h : Prop := {
  ho_oidc : h_oidc h = g_BackendOIDCAuth (c_GRPC cfg);
  ho_bearer : oidc_Enabled (h_oidc h) = true -> h_bearerInit h = None;
  ho_resolver : exists r, NewResolver (default [] (g_Rules (c_GRPC cfg))) = Ok (Some r) /\ h_resolver h = Some r;
  ho_rules : Forall rule_ok (default [] (g_Rules (c_GRPC cfg)));
  ho_targets : g_PrimaryTargets (c_GRPC cfg) <> []
}.

(** [primaryMetadata], with the token of the state before the RPC. *)
Lemma primaryMetadata_token cfg h d s s0 :
  handlerOf cfg h -> hs_token s = hs_token s0 -> hs_world s = hs_world s0 -> ready cfg s ->
  let '(r, s') := primaryMetadata h d s in
  ready cfg s' /\
  match token cfg s0 with
  | None => r = Ok (default ∅ (PrimaryMetadata d))
  | Some (Ok value) => r = Ok (<[bearerAuthHeader := value]> (default ∅ (PrimaryMetadata d)))
  | Some (Err e) => r = Err e
  end.
Proof.
  intros [Ho Hb _ _ _] Et Ew Hr. pose proof (primaryMetadata_spec h d s) as Hp.
  destruct (primaryMetadata h d s) as [r s']. destruct Hp as (_ & Hpools & Hp). split; [by eapply ready_pools|].
  unfold token. rewrite Ho in Hp, Hb. destruct (oidc_Enabled _); [|by destruct Hp].
  destruct Hp as (a & Ha & ->). rewrite (Hb eq_refl), Et, Ew in Ha. rewrite Ha. by destruct a.
Qed.

Lemma proceed_sent cfg h rq m rx d t overlay s :
  (forall overlay, rq_range rq overlay ≡ₚ map_to_list overlay) -> ready cfg s -> overlays_ok d ->
  configured (g_PrimaryTargets (c_GRPC cfg)) t -> (forall k v, overlay !! k = Some v -> overlayKey k) ->
  let '(out, s') := proceed h rq m rx d t overlay s in ready cfg s' /\ sent cfg h rq d out overlay.
Proof.
  intros Hrange Hr Hov Ht Hk. pose proof (proceed_ready cfg h rq m rx d t overlay s Hrange Hr Hov) as P.
  pose proof (proceed_view h rq m rx d t overlay s) as [Hv _].
  pose proof (callPrimary_relays rq t (outgoing rq (rq_injectPrimary rq) overlay)) as Hc.
  destruct (proceed h rq m rx d t overlay s) as [out s']. destruct P as [P1 P2]. split; [exact P1|].
  cbn [fst] in Hv. destruct (callPrimary _ _ _) as [[[requests responses] result] err]. injection Hv as E1 E2 E3 E4.
  exists t, (outgoing rq (rq_injectPrimary rq) overlay), err.
  split_and!; [exact Ht| |by apply outgoing_carries|exact P2].
  unfold relays. rewrite E1, E2, E3, E4. by split_and!.
Qed.

Lemma Handle_rpc_proxied cfg h rq s m :
  handlerOf cfg h -> ready cfg s -> rq_method rq = Some m ->
  (forall overlay, rq_range rq overlay ≡ₚ map_to_list overlay) -> proxied cfg h rq s m.
Proof.
  intros Hh Hr Hm Hrange. unfold proxied, Handle. rewrite Hm. unfold prepareRPCContext.
  destruct (forwarding.requestID_Add (hs_shared s)) as [reqID g]. set (rx := with_trace _ _).
  assert (Erx : rx_fullMethod rx = m) by done. clearbody rx.
  destruct (authenticate h rq m) as [authErr|].
  { pose proof (rejectCaller_spec h rq rx authErr (set_shared s g)) as Hrej.
    destruct (rejectCaller _ _ _ _ _) as [[rx' logs] s']. destruct Hrej as (_ & _ & Hp & _).
    split; [by eapply ready_pools|done]. }
  destruct (ho_resolver _ _ Hh) as (rules & Er & Ehr). pose proof (Resolve_policy _ _ m Er) as Hpol.
  unfold serve, resolveDecision, resolve. rewrite Ehr. destruct (Resolve (Some rules) m) as [d|err] eqn:Ed.
  2: { split; [done|]. left. split; [done|]. eexists. rewrite (Resolve_plain _ _ _ Ed). by apply ended_refused. }
  destruct Hpol as (svc & method & Hn & Hpol). pose proof (policy_overlays _ _ _ _ (ho_rules _ _ Hh) Hpol) as Hov.
  destruct (pickPrimary_ready cfg rq m d (set_shared s g) Hr (ho_targets _ _ Hh)) as (t & s1 & Ep & Hr1 & Ht).
  pose proof (pickPrimary_token rq m d (set_shared s g)) as [Et Ew]. rewrite Ep in Et, Ew |- *. cbn [snd] in Et, Ew.
  pose proof (primaryMetadata_token cfg h d s1 s Hh Et Ew Hr1) as Hp.
  destruct (primaryMetadata h d s1) as [r s2]. destruct Hp as [Hr2 Hp].
  assert (Hkeys : forall overlay, r = Ok overlay -> forall k v, overlay !! k = Some v -> overlayKey k).
  { destruct Hov as [Hov _]. intros overlay -> k v. destruct (token cfg s) as [[value|e]|]; [|done|].
    - injection Hp as ->. destruct (decide (k = bearerAuthHeader)) as [->|Hk]; [intros _; apply authorization_overlayKey|].
      rewrite lookup_insert_ne by done. apply Hov.
    - injection Hp as ->. apply Hov. }
  destruct r as [overlay|err].
  - pose proof (proceed_sent cfg h rq m rx d t overlay s2 Hrange Hr2 Hov Ht (Hkeys _ eq_refl)) as P.
    destruct (proceed h rq m rx d t overlay s2) as [out s3]. destruct P as [P1 P2]. split; [exact P1|right].
    exists svc, method, d. split_and!; [done|done|]. destruct (token cfg s) as [[value|e]|]; [|done|]; by injection Hp as <-.
  - split; [done|]. right. exists svc, method, d. split_and!; [done|done|].
    destruct (token cfg s) as [[value|e]|]; [done|by apply ended_refused|done].
Qed.

(** *** The handler that is built *)

Lemma newBearerTokenSource_ok a logger rules source logs :
  oidc_ok rules a -> newBearerTokenSource a logger = (Some source, logs) -> cs_cfg source = a /\ cs_initError source = None.
Proof.
  intros Ha. unfold newBearerTokenSource. destruct (oidc_Enabled a) eqn:Ee; [|done]. cbn [negb].
  destruct (od_enabled _ _ Ha Ee) as (Htls & Hins & _). destruct (AuthClientTLSConfig _ _ _) as [t|]; [|done].
  destruct (oidc_InsecureTLS a); cbn [andb]; [|by intros [= <- _]].
  destruct (Hins eq_refl) as [-> ->]. rewrite !bool_decide_eq_false_2 by (intros []; done). by intros [= <- _].
Qed.

Lemma NewHandler_ok jsonString jsonStrings cfg resolver hasLimiter logger hasObs :
  grpc_ok (c_GRPC cfg) -> NewResolver (default [] (g_Rules (c_GRPC cfg))) = Ok resolver ->
  let b := NewHandler jsonString jsonStrings cfg resolver hasLimiter logger hasObs in
  b_callerHTTPError b = None /\ handlerOf cfg (b_handler b).
Proof.
  intros [Hst Ho _ Hi] Hr. cbv zeta. unfold NewHandler. split.
  - destruct (decide (ca_Mode (g_CallerAuth (c_GRPC cfg)) = callerIntrospectionMode)) as [Em|]; [|done].
    specialize (Hi Em). unfold newCallerHTTPClient. by destruct (AuthClientTLSConfig _ _ _).
  - split; cbn [b_handler h_oidc h_bearerInit h_resolver].
    + done.
    + intros _. destruct (newBearerTokenSource _ _) as [[source|] logs] eqn:Es; [|done].
      by apply (newBearerTokenSource_ok _ _ _ _ _ Ho) in Es as [_ ?].
    + pose proof Hr as Hr'. apply res_bind_ok in Hr' as (cs & _ & [= <-]). by exists cs.
    + pose proof (st_rules _ Hst) as Hrules. unfold rules_ok in Hrules. by destruct (g_Rules (c_GRPC cfg)).
    + exact (st_primary _ Hst).
Qed.

Context {cert pool : Type} (os_ReadFile : string -> res string) (AppendCertsFromPEM : string -> option pool)
  (LoadX509KeyPair : string -> string -> res cert)
  (grpc_NewClient : string -> option (tlsConfig cert pool) -> list callOption -> option string -> option error)
  (conn_Close : nat -> option error).
Context `{Regexp} (asURL : parsedURL -> backend.URL parsedURL).
Context (unq : string -> option string).
Context (range : gmap string string -> list (string * string)) (Hrange : forall m, range m ≡ₚ map_to_list m).

(** C8. An accepted gRPC configuration proxies exactly what it describes.  The
    handler it builds has a usable token source and introspection client, and
    from the pools it opens on, every RPC leaves pools of the configured
    targets.  A caller that is not admitted gets its error and reaches nobody.
    Otherwise a method that is no [/service/method] is unimplemented; any other
    is decided by the first rule of the configuration that admits it, and is
    relayed over one of the configured primary targets, with the client's
    metadata under that rule's overlay and the issuer's token when one is
    configured — if the issuer gives none, the RPC is unavailable and nothing
    is sent.  A shadow call goes to a configured shadow target, never against
    the rule, with the client's metadata under the shadow overlay, and it is
    always made when the rule says so and no rate limit is set. *)
Theorem accepted_grpc_proxied jsonString jsonStrings cfg0 cfg logger hasObs now a w pools w' :
  validate unq range cfg0 = Ok cfg -> c_Protocol cfg = protocolGRPC ->
  newApp asURL cfg hasObs now = Ok a ->
  conns_ok w ->
  NewTargetPools os_ReadFile AppendCertsFromPEM LoadX509KeyPair grpc_NewClient conn_Close (poolConfigOf cfg) w = (Ok pools, w') ->
  let b := NewHandler jsonString jsonStrings cfg (a_GRPCRules a) (bool_decide (is_Some (a_Limiter a))) logger hasObs in
  b_callerHTTPError b = None /\
  (forall s, hs_pools s = Some pools -> ready cfg s) /\
  forall s rq m, ready cfg s -> rq_method rq = Some m ->
    (forall overlay, rq_range rq overlay ≡ₚ map_to_list overlay) -> proxied cfg (b_handler b) rq s m.
Proof.
  intros Hv Hp Ha Hw Hpools b. pose proof (validate_sound unq range Hrange _ _ Hv) as Hok.
  pose proof (newApp_wired asURL unq cfg hasObs now Hok) as Hwired. rewrite Ha in Hwired.
  destruct Hwired as (_ & _ & _ & _ & Hr & _).
  destruct (NewHandler_ok jsonString jsonStrings cfg (a_GRPCRules a) (bool_decide (is_Some (a_Limiter a))) logger hasObs
    (co_grpc _ _ Hok Hp) Hr) as [Hc Hh].
  split; [exact Hc|]. split; [|intros; by apply Handle_rpc_proxied].
  intros s Hs. exact (NewTargetPools_ready _ _ _ _ _ _ _ _ _ _ Hw Hp Hpools Hs).
Qed.
End proxy.

(** ** Witness: a rule that always shadows *)

Definition exampleGRPC (g : GRPCConfig) : GRPCConfig :=
  {| g_ListenAddr := g_ListenAddr g; g_TLS := g_TLS g; g_PrimarySelectionMode := ""; g_ShadowSelectionMode := "";
     g_PrimaryTargets := [exampleGRPCTarget "p:1"]; g_ShadowTargets := [exampleGRPCTarget "s:1"];
     g_ShadowTimeout := g_ShadowTimeout g; g_ShadowForceMetadata := ""; g_ShadowQueueSize := g_ShadowQueueSize g;
     g_MaxReceiveMessageBytes := g_MaxReceiveMessageBytes g; g_MaxSendMessageBytes := g_MaxSendMessageBytes g;
     g_CompareMode := g_CompareMode g; g_CompareMetadata := g_CompareMetadata g;
     g_Rules := Some [{| gr_Name := "r"; gr_Service := "*"; gr_Methods := None; gr_Shadow := "always"; gr_Compare := "";
       gr_CompareMode := ""; gr_CompareMetadata := None; gr_PrimaryMetadata := Some {["x-tenant" := "t1"]};
       gr_ShadowMetadata := None |}];
     g_CallerAuth := g_CallerAuth g; g_BackendOIDCAuth := g_BackendOIDCAuth g |}.
Definition grpcExample (cfg : Config) : Config :=
  {| c_Protocol := " gRPC "; c_PrimaryBaseURLs := c_PrimaryBaseURLs cfg; c_PrimarySelectionMode := c_PrimarySelectionMode cfg;
     c_ShadowBaseURLs := c_ShadowBaseURLs cfg; c_ShadowSelectionMode := c_ShadowSelectionMode cfg; c_Shadow := c_Shadow cfg;
     c_Transport := c_Transport cfg; c_GRPC := exampleGRPC (c_GRPC cfg); c_Compare := c_Compare cfg; c_Runtime := c_Runtime cfg;
     c_PathRules := c_PathRules cfg; c_LogLevel := c_LogLevel cfg; c_LogFields := c_LogFields cfg;
     c_Observability := c_Observability cfg; c_Plain := c_Plain cfg |}.
Definition exampleAccepted : res Config :=
  cfg ← @decode configspec.exampleURLs defaults;
  @validate literalRegexp asciiUnicode configspec.exampleURLs grpcconfigspec.noFiles (fun _ => None) map_to_list (grpcExample cfg).
Definition exampleBuilt (cfg : Config) : res components :=
  @newApp asciiUnicode exampleURL literalRegexp grpcconfigspec.noFiles cfg true 0.
Definition noConns : conns := {| opened := 0; live := ∅ |}.
Definition exampleOpened (cfg : Config) : res TargetPools * conns :=
  NewTargetPools (cert := unit) (pool := unit) (fun _ => Ok "") (fun _ => None) (fun _ _ => Ok tt) (fun _ _ _ _ => None)
    (fun _ => None) (poolConfigOf cfg) noConns.
Definition stateOf (pools : TargetPools) : handlerState :=
  {| hs_shared := 0; hs_pools := Some pools; hs_token := newTokenState; hs_world := 1; hs_logs := newCallerLogLimiter |}.

Lemma grpc_example_accepted :
  exists cfg0 cfg a pools w', @validate literalRegexp asciiUnicode configspec.exampleURLs grpcconfigspec.noFiles (fun _ => None)
      map_to_list cfg0 = Ok cfg /\
    exampleBuilt cfg = Ok a /\ exampleOpened cfg = (Ok pools, w') /\ c_Protocol cfg = protocolGRPC.
Proof.
  destruct exampleAccepted as [cfg|e] eqn:E; [|vm_compute in E; discriminate E].
  pose proof E as E0. apply res_bind_ok in E as (cfg0 & _ & E). exists (grpcExample cfg0), cfg.
  destruct (exampleBuilt cfg) as [a|e] eqn:Ea.
  - destruct (exampleOpened cfg) as [[pools|e] w'] eqn:Ep.
    + exists a, pools, w'. split_and!; [exact E|reflexivity|reflexivity|]. vm_compute in E0. by injection E0 as <-.
    + exfalso. vm_compute in E0. injection E0 as <-. vm_compute in Ep. discriminate Ep.
  - exfalso. vm_compute in E0. injection E0 as <-. vm_compute in Ea. discriminate Ea.
Qed.

Lemma accepted_grpc_proxied_witness :
  exists cfg a pools w', exampleBuilt cfg = Ok a /\ exampleOpened cfg = (Ok pools, w') /\
    @proxied Z Z forwarding.exampleShared exampleTokens textIP asciiUnicode configspec.exampleURLs cfg
      (b_handler (@NewHandler grpcconfigspec.noFiles asciiUnicode callerauth.exampleJSON callerauth.noStrings cfg (a_GRPCRules a)
         (bool_decide (is_Some (a_Limiter a))) (Some (fun _ => true)) true))
      (exampleRPC None) (stateOf pools) "/s/m".
Proof.
  destruct grpc_example_accepted as (cfg0 & cfg & a & pools & w' & Ev & Ea & Eo & Ep).
  destruct (@accepted_grpc_proxied Z Z forwarding.exampleShared exampleTokens textIP asciiUnicode configspec.exampleURLs
    grpcconfigspec.noFiles unit unit (fun _ => Ok "") (fun _ => None) (fun _ _ => Ok tt) (fun _ _ _ _ => None) (fun _ => None)
    literalRegexp exampleURL (fun _ => None) map_to_list example_order callerauth.exampleJSON callerauth.noStrings
    cfg0 cfg (Some (fun _ => true)) true 0 a noConns pools w' Ev Ep Ea ltac:(intros c []%elem_of_empty) Eo) as (_ & Hr & G).
  exists cfg, a, pools, w'. split; [exact Ea|]. split; [exact Eo|].
  apply G; [exact (Hr (stateOf pools) eq_refl)|reflexivity|reflexivity].
Defined.
End grpcproxy.
