(* ===== verification/Process.v ===== *)
(** * The process: [main], the [fx] application and its hooks

    [fx.New], [Start], [Stop] and [Run] of the vendored [fx] on a list of hooks,
    the hooks the packages register, and [main.go].  Dependency injection is the
    composition of the constructors; a context is what its [Err] answers each
    time it is asked.  A hook that does not return is left out: [Run] gives up on
    it when the context ends, and the process exits. *)
From S2P Require Export CommandLine Logger Load RuntimeSecurity Telemetry GrpcProxy.

(** ** [vendor/go.uber.org/fx] *)

Module fx.

(** Both callbacks are set in this program. *)
Record Hook (S : Type) := { OnStart : stres S unit; OnStop : stres S unit }.
Arguments OnStart {S} _.
Arguments OnStop {S} _.
Abbreviation Context_ := (nat -> option error).

Record ShutdownSignal := { Signal : string; ExitCode : Z }.
Definition sigTERM : string := "terminated".
(** A signal of the operating system, and a call of [Shutdown] without options. *)
Definition osSignal (name : string) : ShutdownSignal := {| Signal := name; ExitCode := 0 |}.
Definition Shutdown : ShutdownSignal := {| Signal := sigTERM; ExitCode := 0 |}.

Section fx.
Context {S : Type}.
Implicit Types (ctx : Context_) (hooks : list (Hook S)) (s : S).

(** *** [internal/lifecycle/lifecycle.go]

    The context has been asked [asked] times. *)
Fixpoint startLoop ctx hooks (numStarted : nat) s : option error * nat * S :=
  match hooks with
  | [] => (None, numStarted, s)
  | hook :: hooks =>
      match ctx numStarted with
      | Some err => (Some err, numStarted, s)
      | None =>
          match OnStart hook s with
          | (Err err, s) => (Some err, numStarted, s)
          | (Ok _, s) => startLoop ctx hooks (1 + numStarted) s
          end
      end
  end.
Definition lifecycle_Start ctx hooks s : option error * nat * S := startLoop ctx hooks 0 s.

(** Errors are kept, and the other hooks run all the same. *)
Fixpoint stopLoop ctx (asked : nat) hooks (errs : list error) s : list error * nat * S :=
  match hooks with
  | [] => (errs, asked, s)
  | hook :: hooks =>
      match ctx asked with
      | Some err => ([err], (1 + asked)%nat, s)
      | None =>
          let '(r, s) := OnStop hook s in
          stopLoop ctx (1 + asked) hooks (match r with Err err => (errs ++ [err])%list | Ok _ => errs end) s
      end
  end.
Definition lifecycle_Stop ctx (asked : nat) hooks (numStarted : nat) s : list error * nat * S :=
  stopLoop ctx asked (reverse (take numStarted hooks)) [] s.

(** *** [app.go] *)

Definition withTimeout ctx (asked : nat) (errs : list error) : list error :=
  match ctx asked with Some err => [err] | None => errs end.
(** [start] with [withRollback]: the errors, none when it has started. *)
Definition start ctx hooks s : list error * nat * S :=
  match lifecycle_Start ctx hooks s with
  | (None, numStarted, s) => ([], numStarted, s)
  | (Some err, numStarted, s) =>
      let '(stopErr, asked, s) := lifecycle_Stop ctx (1 + numStarted) hooks numStarted s in (err :: stopErr, asked, s)
  end.

Record App := { err : option error; hooks : list (Hook S) }.

Definition Start (app : App) ctx s : list error * S :=
  match err app with
  | Some err => ([err], s)
  | None => let '(errs, asked, s) := start ctx (hooks app) s in (withTimeout ctx asked errs, s)
  end.
Definition Stop (app : App) ctx s : list error * S :=
  let '(errs, asked, s) := lifecycle_Stop ctx 0 (hooks app) (length (hooks app)) s in (withTimeout ctx asked errs, s).

(** The exit code, given what happens until [Wait] delivers a signal; without a
    signal the program runs on. *)
Definition run (app : App) (startCtx stopCtx : Context_) (wait : S -> option ShutdownSignal * S) s : option Z * S :=
  match Start app startCtx s with
  | ([], s) =>
      match wait s with
      | (Some sig, s) => match Stop app stopCtx s with ([], s) => (Some (ExitCode sig), s) | (_ :: _, s) => (Some 1, s) end
      | (None, s) => (None, s)
      end
  | (_ :: _, s) => (Some 1, s)
  end.
(** ** Specification: hooks that keep a discipline

    [up i] holds once [i] hooks have started, [down b i] while [i] hooks are still
    to be stopped, [b] saying whether all had started: a hook that starts leads up,
    one that fails to start or that is stopped leads down. *)
Record disciplined (up : nat -> S -> Prop) (down : bool -> nat -> S -> Prop) (i : nat) (hook : Hook S) : Prop := {
  d_start : forall s, up i s ->
    match OnStart hook s with (Ok _, s') => up (1 + i)%nat s' | (Err _, s') => down false i s' end;
  d_stop : forall b s, down b (1 + i)%nat s -> down b i (OnStop hook s).2
}.

Section discipline.
Context (up : nat -> S -> Prop) (down : bool -> nat -> S -> Prop) (all : list (Hook S)).
Context (Hall : forall i hook, all !! i = Some hook -> disciplined up down i hook).

Lemma startLoop_disciplined ctx l : forall i s, (forall k, ctx k = None) -> drop i all = l -> up i s ->
  match startLoop ctx l i s with
  | (None, n, s') => n = (i + length l)%nat /\ up n s'
  | (Some _, n, s') => (n <= length all)%nat /\ down false n s'
  end.
Proof.
  intros i s Hctx Hl Hup. revert i s Hl Hup. induction l as [|hook l IH]; intros i s Hl Hup; cbn [startLoop].
  { rewrite Nat.add_0_r. done. }
  assert (Hi : all !! i = Some hook) by (by rewrite <- (Nat.add_0_r i), <- lookup_drop, Hl).
  rewrite Hctx. pose proof (d_start _ _ _ _ (Hall i hook Hi) s Hup) as Hstart.
  destruct (OnStart hook s) as [[[]|e] s'].
  - assert (Hdrop : drop (1 + i) all = l) by (rewrite (drop_S all hook i Hi) in Hl; by injection Hl).
    specialize (IH (1 + i)%nat s' Hdrop Hstart). cbn [length]. rewrite Nat.add_succ_r. exact IH.
  - split; [|done]. apply lookup_lt_Some in Hi. lia.
Qed.

Lemma stopLoop_disciplined ctx b n : forall asked errs s, (forall k, ctx k = None) -> (n <= length all)%nat -> down b n s ->
  down b 0 (stopLoop ctx asked (reverse (take n all)) errs s).2.
Proof.
  induction n as [|n IH]; intros asked errs s Hctx Hn Hd; [done|].
  destruct (lookup_lt_is_Some_2 all n ltac:(lia)) as [hook Hi]. rewrite (take_S_r _ _ hook Hi), reverse_snoc. cbn [stopLoop].
  rewrite Hctx. pose proof (d_stop _ _ _ _ (Hall n hook Hi) b s Hd) as Hstop.
  destruct (OnStop hook s) as [r s']. apply IH; [done|lia|done].
Qed.

(** Whatever fails, a run that ends is down when the contexts outlast it; its exit
    code is 1 when a hook did not start, and else that of the signal or 1.  A run
    that does not end is up. *)
Lemma run_disciplined startCtx stopCtx wait s :
  (forall k, startCtx k = None) -> (forall k, stopCtx k = None) -> up 0 s ->
  (forall s', up (length all) s' -> up (length all) (wait s').2) ->
  (forall s', up (length all) s' -> down true (length all) s') ->
  match run {| err := None; hooks := all |} startCtx stopCtx wait s with
  | (Some code, s') => exists b, down b 0 s' /\
      (code = 1 \/ b = true /\ exists sig s1, (wait s1).1 = Some sig /\ code = ExitCode sig)
  | (None, s') => up (length all) s'
  end.
Proof.
  intros Hs1 Hs2 Hup Hwait Hturn. unfold run, Start, Stop, start, lifecycle_Start, lifecycle_Stop, withTimeout. cbn [err hooks].
  pose proof (startLoop_disciplined startCtx all 0 s Hs1 eq_refl Hup) as G.
  destruct (startLoop startCtx all 0 s) as [[[e|] n] s1].
  - destruct G as [Hn Hd]. pose proof (stopLoop_disciplined startCtx false n (1 + n) [] s1 Hs1 Hn Hd) as G.
    destruct (stopLoop _ _ _ _ _) as [[errs asked] s2]. rewrite Hs1. exists false. split; [done|by left].
  - destruct G as [-> Hu]. rewrite Hs1. apply Hwait in Hu. destruct (wait s1) as [[sig|] s2] eqn:Ew; [|done].
    pose proof (stopLoop_disciplined stopCtx true (length all) 0 [] s2 Hs2 (le_n _) (Hturn s2 Hu)) as G.
    destruct (stopLoop _ _ _ _ _) as [[errs asked] s3]. rewrite Hs2.
    destruct errs; exists true; (split; [done|]); [right|by left]. split; [done|]. exists sig, s1. by rewrite Ew.
Qed.
End discipline.
End fx.
Arguments App : clear implicits.
End fx.

(** ** The hooks *)

Module process.
Import callerauthconfig grpcconfig config activation lifecycle wiring telemetry runtimesecurity targets grpcproxy cli load viper.

(** What the process holds: health and listeners, the servers, the metrics
    endpoint, and whether SIGHUP is notified. *)
Record state := {
  p_world : World;
  p_milter : option MilterServer;
  p_grpc : option GRPCServer;
  p_metrics : option (Z * option (string * string * Z));
  p_notified : bool
}.

(** How the parts end that take time: the drain of the HTTP server, the context
    of the gRPC stop hook, the metrics endpoint and the two providers. *)
Class Shutdowns := {
  http_drain : option error;
  grpc_ended : option error;
  metrics_drain : option error;
  meter_Shutdown : option error;
  trace_Shutdown : option error
}.

Definition withWorld (w : World) (s : state) : state :=
  {| p_world := w; p_milter := p_milter s; p_grpc := p_grpc s; p_metrics := p_metrics s; p_notified := p_notified s |}.
Definition withMilter (m : option MilterServer) (s : state) : state :=
  {| p_world := p_world s; p_milter := m; p_grpc := p_grpc s; p_metrics := p_metrics s; p_notified := p_notified s |}.
Definition withGRPC (g : option GRPCServer) (s : state) : state :=
  {| p_world := p_world s; p_milter := p_milter s; p_grpc := g; p_metrics := p_metrics s; p_notified := p_notified s |}.
Definition withMetricsServer (m : option (Z * option (string * string * Z))) (s : state) : state :=
  {| p_world := p_world s; p_milter := p_milter s; p_grpc := p_grpc s; p_metrics := m; p_notified := p_notified s |}.
Definition withNotify (b : bool) (s : state) : state :=
  {| p_world := p_world s; p_milter := p_milter s; p_grpc := p_grpc s; p_metrics := p_metrics s; p_notified := b |}.

(** A computation on the world, in the process; [k] does the rest. *)
Definition zoom {A} (m : act A) (k : A -> stres state unit) : stres state unit := fun s =>
  match m (p_world s) with
  | (Ok a, w) => k a (withWorld w s)
  | (Err e, w) => (Err e, withWorld w s)
  end.
Definition store {A} (put : A -> state -> state) (a : A) : stres state unit := fun s => (Ok tt, put a s).

(** [errors.Join] of errors that are not nil. *)
Definition joined (errs : list error) : option error := foldr (fun e acc => errors_Join (Some e) acc) None errs.

Section hooks.
Context `{Unicode} `{URLs} `{PEMFiles} `{Descriptors} `{Sockets} `{Shutdowns}.

(** *** [internal/server/server.go] *)

(** [http.Server.Shutdown]: the listeners it serves are closed, then it waits. *)
Definition httpListeners (es : list event) : list Z :=
  omap (fun e => match e with Served (ServeHTTP l _) => Some l | _ => None end) es.
Definition servesHTTP (es : list event) : bool :=
  existsb (fun e => match e with Served (ServeHTTP _ _) | Served (ListenAndServeHTTP _ _) => true | _ => false end) es.
Definition srv_Shutdown : act (option error) := fun w =>
  (Ok (if servesHTTP (w_events w) then http_drain else None),
   {| w_health := w_health w; w_events := (w_events w ++ (Closed <$> httpListeners (w_events w)))%list |}).

Definition serverHook (cfg : Config) : fx.Hook state := {|
  fx.OnStart := zoom (startServer cfg) mret;
  fx.OnStop := zoom (_ ← mark health.MarkShuttingDown; srv_Shutdown) (fun e => lift (check e)) |}.

(** *** [internal/milterproxy/server.go] *)

Definition milterHook (cfg : Config) : fx.Hook state := {|
  fx.OnStart := fun s => zoom (startMilterServer cfg (p_milter s)) (store withMilter) s;
  fx.OnStop := fun s =>
    zoom (_ ← mark health.MarkShuttingDown;
          match p_milter s with Some m => stopMilterServer m | None => mret None end) (fun e => lift (check e)) s |}.

(** *** [internal/grpcproxy/server.go] *)

Definition grpcHook (cfg : Config) : fx.Hook state := {|
  fx.OnStart := fun s => zoom (startGRPCServer cfg (p_grpc s)) (store withGRPC) s;
  fx.OnStop := fun s =>
    zoom (_ ← mark health.MarkShuttingDown; stopServer grpc_ended (p_grpc s))
      (fun r s => (check (joined r.1), withGRPC r.2 s)) s |}.

(** *** [internal/observability/observability.go] *)

Definition startMetrics (o : option Observability) : act (option (Z * option (string * string * Z))) := fun w =>
  let '(r, _, es) := StartPrometheusServer o in
  (r, {| w_health := w_health w; w_events := (w_events w ++ es)%list |}).
Definition shutdownObservability (o : option Observability) (server : option (Z * option (string * string * Z)))
    : act (option error) := fun w =>
  match o with
  | None => (Ok None, w)
  | Some ob =>
      let '(errs, _) := telemetry.Shutdown (match server with Some _ => metrics_drain | None => None end)
                          (match ob_otel ob with Some _ => meter_Shutdown | None => None end)
                          (if ob_tracing ob then trace_Shutdown else None) in
      (Ok (joined errs),
       {| w_health := w_health w; w_events := (w_events w ++ match server with Some (l, _) => [Closed l] | None => [] end)%list |})
  end.
Definition observabilityHook (o : option Observability) : fx.Hook state := {|
  fx.OnStart := zoom (startMetrics o) (store withMetricsServer);
  fx.OnStop := fun s =>
    zoom (_ ← mark health.MarkShuttingDown; shutdownObservability o (p_metrics s)) (fun e => lift (check e)) s |}.

(** *** [internal/app/reload_unix.go] *)

Definition reloadHook : fx.Hook state := {|
  fx.OnStart := fun s => (Ok tt, withNotify true s);
  fx.OnStop := fun s => (Ok tt, withNotify false s) |}.

(** *** [main.go]: [fx.Invoke] in order *)

Definition RegisterHooks (cfg : Config) (o : option Observability) : list (fx.Hook state) :=
  [serverHook cfg; milterHook cfg; grpcHook cfg; observabilityHook o; reloadHook].
End hooks.

(** ** [main.go]: construction *)

Section main.
Context `{Regexp} `{Unicode} `{URLs} `{PEMFiles} `{Descriptors} `{Sockets} `{Shutdowns} `{OS}.
Context {cert pool : Type} (asURL : parsedURL -> backend.URL parsedURL).
Context (os_ReadFile : string -> res string) (AppendCertsFromPEM : string -> option pool)
  (LoadX509KeyPair : string -> string -> res cert)
  (grpc_NewClient : string -> option (tlsConfig cert pool) -> list callOption -> option string -> option error)
  (conn_Close : nat -> option error).
Context (jsonString : string -> option string) (jsonStrings : string -> option (list string)).
(** What the OpenTelemetry resource and exporters say, and the clock. *)
Context (resourceErr traceErr metricErr : option error) (now : Z).

(** What the constructors make of a configuration. *)
Record built := {
  b_Config : Config; b_Observability : Observability; b_Components : components;
  b_Pools : TargetPools; b_Handler : builtHandler
}.
Definition construct (loaded : res Config) (version : string) : stres conns built :=
  cfg ← lift loaded;
  obs ← lift (telemetry.New (c_Observability cfg) version resourceErr traceErr metricErr);
  parts ← lift (wiring.newApp asURL cfg true now);
  pools ← NewTargetPools os_ReadFile AppendCertsFromPEM LoadX509KeyPair grpc_NewClient conn_Close (poolConfigOf cfg);
  mret {| b_Config := cfg; b_Observability := obs; b_Components := parts; b_Pools := pools;
          b_Handler := grpcproxy.NewHandler jsonString jsonStrings cfg (a_GRPCRules parts)
                         (bool_decide (is_Some (a_Limiter parts))) (Some (logger.Enabled (logger.NewLogger cfg))) true |}.

(** The state before the start hooks. *)
Definition initial (b : built) : state := {|
  p_world := freshWorld (c_Protocol (b_Config b));
  p_milter := Some (newMilterServer (b_Config b));
  p_grpc := Some (newGRPCServerState (b_Config b) (b_callerHTTPError (b_Handler b)));
  p_metrics := None; p_notified := false |}.
(** A process that could not be built holds nothing. *)
Definition nothing : state :=
  {| p_world := freshWorld ""; p_milter := None; p_grpc := None; p_metrics := None; p_notified := false |}.

(** The hooks are registered, then [ApplyRuntimeSecurity] is invoked. *)
Definition newApp (loaded : res Config) (version : string) (w : conns) : fx.App state * state :=
  match construct loaded version w with
  | (Err e, _) => ({| fx.err := Some e; fx.hooks := [] |}, nothing)
  | (Ok b, _) =>
      ({| fx.err := match (ApplyRuntimeSecurity (c_Runtime (b_Config b)) []).1 with Err e => Some e | Ok _ => None end;
          fx.hooks := RegisterHooks (b_Config b) (Some (b_Observability b)) |}, initial b)
  end.

(** What happens while the program runs: SIGINT or SIGTERM, or the serving call of
    the server returns. *)
Inductive incident := OSSignal (name : string) | ServeReturned (err : option error).
Definition serving (cfg : Config) (err : option error) : act bool :=
  if decide (c_Protocol cfg = protocolHTTP) then serveHTTP err
  else if decide (c_Protocol cfg = protocolMilter) then serveMilterAsync err else serveGRPCAsync err.
Fixpoint await (cfg : Config) (l : list incident) s : option fx.ShutdownSignal * state :=
  match l with
  | [] => (None, s)
  | OSSignal name :: _ => (Some (fx.osSignal name), s)
  | ServeReturned err :: l =>
      let '(asked, w) := serving cfg err (p_world s) in
      match asked with Ok true => (Some fx.Shutdown, withWorld w s) | _ => await cfg l (withWorld w s) end
  end.
Definition awaiting (loaded : res Config) (l : list incident) s : option fx.ShutdownSignal * state :=
  match loaded with Ok cfg => await cfg l s | Err _ => (None, s) end.

(** What [main] prints, the exit code if it ended, and the process it leaves if
    it was run. *)
Record ending := { e_Stdout : string; e_Stderr : string; e_Code : option Z; e_Process : option state }.
(** [load] is [config.Load] of the value of [CONFIG_FILE]; [setenvErr] what
    [os.Setenv] says. *)
Definition main (name version config_file : string) (arguments : list string) (setenvErr : option error)
    (load : string -> res Config) (startCtx stopCtx : fx.Context_) (incidents : list incident) (w : conns) : ending :=
  match parseCLI arguments with
  | Err e => {| e_Stdout := ""; e_Stderr := Error e +:+ newline; e_Code := Some 2; e_Process := None |}
  | Ok opts =>
      if help opts then {| e_Stdout := printUsage name; e_Stderr := ""; e_Code := Some 0; e_Process := None |}
      else if cli.version opts then {| e_Stdout := printVersion version; e_Stderr := ""; e_Code := Some 0; e_Process := None |}
      else
        match (if decide (configPath opts <> "") then setenvErr else None) with
        | Some e => {| e_Stdout := ""; e_Stderr := "failed to set CONFIG_FILE: " +:+ Error e +:+ newline; e_Code := Some 1; e_Process := None |}
        | None =>
            let config_file := if decide (configPath opts <> "") then configPath opts else config_file in
            let '(app, s) := newApp (load config_file) version w in
            let '(code, s) := fx.run app startCtx stopCtx (awaiting (load config_file) incidents) s in
            {| e_Stdout := ""; e_Stderr := ""; e_Code := code; e_Process := Some s |}
        end
  end.
End main.

(** ** Specification *)

Definition events (s : state) : list event := w_events (p_world s).
(** A listener is closed, or the gRPC server that serves it was told to stop. *)
Definition released (es : list event) (l : Z) : Prop :=
  Closed l ∈ es \/ (Served (ServeGRPC l) ∈ es /\ GracefulStop ∈ es).
(** The pools are closed once the server was stopped. *)
Definition drained (es : list event) : Prop := exists before after, es = (before ++ GracefulStop :: after)%list /\ ClosePools ∈ after.

(** What hook [i] closes when it is stopped. *)
Definition owns (i : nat) (s : state) (l : Z) : Prop :=
  match i with
  | 0%nat => l ∈ httpListeners (events s)
  | 1%nat => exists m, p_milter s = Some m /\ ms_listener m = Some l
  | 2%nat => exists g, p_grpc s = Some g /\ is_Some (gs_grpcServer g) /\ Served (ServeGRPC l) ∈ events s
  | 3%nat => exists t, p_metrics s = Some (l, t)
  | _ => False
  end.
(** The hook of the configured protocol. *)
Definition slot (cfg : Config) : nat :=
  if decide (c_Protocol cfg = protocolHTTP) then 0 else if decide (c_Protocol cfg = protocolMilter) then 1 else 2.

(** The key pair of an HTTP server with TLS can be read. *)
Definition keyPairReadable `{Sockets} (cfg : Config) : Prop :=
  let p := c_Plain cfg in
  c_Protocol cfg = protocolHTTP -> f_TLSCertFile p <> "" -> f_TLSKeyFile p <> "" ->
  tls_LoadX509KeyPair (f_TLSCertFile p) (f_TLSKeyFile p) = None.

Section spec.
Context (cfg : Config) (start : state).
Implicit Types (s : state) (i : nat).

Definition serves (es : list event) : Prop := exists srv, servedEvents es = [srv] /\ servedProtocol srv = c_Protocol cfg.
Definition grpcServing s : Prop := exists g, p_grpc s = Some g /\ is_Some (gs_grpcServer g) /\ gs_Pools g = true.
Definition held i s : Prop := forall l, Opened l ∈ events s -> released (events s) l \/ exists j, (j < i)%nat /\ owns j s l.

Record up i s : Prop := {
  u_before : (i <= slot cfg)%nat -> s = start;
  u_held : held i s;
  u_serves : (slot cfg < i)%nat -> serves (events s) /\ (c_Protocol cfg = protocolGRPC -> grpcServing s);
  u_notified : (i <= 4)%nat -> p_notified s = false
}.
Record down (b : bool) i s : Prop := {
  dn_held : held i s;
  dn_serves : b = false /\ servedEvents (events s) = [] \/ serves (events s) /\
    ((slot cfg < i)%nat /\ (c_Protocol cfg = protocolGRPC -> grpcServing s) \/
     health.shuttingDown (w_health (p_world s)) = true /\ (c_Protocol cfg = protocolGRPC -> drained (events s)));
  dn_ready : (i <= slot cfg)%nat -> health.ready (w_health (p_world s)) = false;
  dn_notified : (i <= 4)%nat -> p_notified s = false
}.
End spec.

#[local] Ltac run := cbv [zoom mark emit failIf mbind stres_bind mret stres_ret lift store option_bind]; cbn.

(** ** Listeners *)

Lemma elem_openListeners l es : l ∈ openListeners es <-> Opened l ∈ es /\ Closed l ∉ es.
Proof.
  unfold openListeners. rewrite list_elem_of_filter, list_elem_of_omap. split.
  - intros [Hc ([] & He & Hm)]; try done. by injection Hm as ->.
  - intros [Ho Hc]. split; [done|]. by exists (Opened l).
Qed.
Lemma opened_closed es l : openListeners es = [] -> Opened l ∈ es -> Closed l ∈ es.
Proof.
  intros Ho Hl. destruct (decide (Closed l ∈ es)) as [|Hc]; [done|].
  assert (l ∈ openListeners es) as G by (by apply elem_openListeners). rewrite Ho in G. by apply not_elem_of_nil in G.
Qed.
Lemma opened_one es l l0 : openListeners es = [l0] -> Opened l ∈ es -> Closed l ∈ es \/ l = l0.
Proof.
  intros Ho Hl. destruct (decide (Closed l ∈ es)) as [|Hc]; [by left|]. right.
  assert (l ∈ openListeners es) as G by (by apply elem_openListeners). rewrite Ho in G. by apply list_elem_of_singleton in G.
Qed.
Lemma elem_servedEvents srv es : srv ∈ servedEvents es <-> Served srv ∈ es.
Proof.
  unfold servedEvents. rewrite list_elem_of_omap. split.
  - intros ([] & He & Hm); try done. by injection Hm as ->.
  - intros He. by exists (Served srv).
Qed.
Lemma elem_httpListeners l es : l ∈ httpListeners es <-> exists tls, Served (ServeHTTP l tls) ∈ es.
Proof.
  unfold httpListeners. rewrite list_elem_of_omap. split.
  - intros ([| |[]| | | |] & He & Hm); try done. injection Hm as ->. by eexists.
  - intros [tls He]. by eexists.
Qed.
Lemma released_app es more l : released es l -> released (es ++ more) l.
Proof. unfold released. rewrite !elem_of_app. tauto. Qed.
Lemma drained_app es more : drained es -> drained (es ++ more).
Proof.
  intros (before & after & -> & Hc). exists before, (after ++ more)%list. rewrite <- app_assoc. split; [done|].
  apply elem_of_app. by left.
Qed.
Lemma servedEvents_quiet es more : servedEvents more = [] -> servedEvents (es ++ more) = servedEvents es.
Proof. unfold servedEvents. intros Hq. by rewrite omap_app, Hq, app_nil_r. Qed.
Lemma withWorld_id s : withWorld (p_world s) s = s.
Proof. by destruct s. Qed.

(** Events of a server that ends. *)
Definition ends (es : list event) : Prop := Forall (fun e => match e with Opened _ | Served _ => False | _ => True end) es.
Lemma ends_quiet es : ends es -> servedEvents es = [] /\ forall l, Opened l ∉ es.
Proof.
  induction 1 as [|e es He _ [IH1 IH2]]; [split; [done|intros k; apply not_elem_of_nil]|].
  split; [by destruct e|]. intros k Hk. apply elem_of_cons in Hk as [<-|Hk]; [done|by apply (IH2 k)].
Qed.
Lemma ends_closed ls : ends (Closed <$> ls).
Proof. unfold ends. induction ls as [|l ls IH]; [constructor|]. rewrite fmap_cons. by constructor. Qed.
Lemma slot_grpc cfg : c_Protocol cfg = protocolGRPC -> slot cfg = 2%nat.
Proof. unfold slot. intros ->. by rewrite !decide_False by done. Qed.

(** ** Stopping *)

Section stopping.
Context `{Unicode} `{URLs} `{PEMFiles} `{Descriptors} `{Sockets} `{Shutdowns} (cfg : Config) (o : Observability).
Implicit Types (s : state) (b : bool).

(** What a stop hook has to do. *)
Lemma down_stop j b s s' more :
  down cfg b (1 + j) s -> (j <= 3)%nat -> events s' = (events s ++ more)%list -> ends more ->
  w_health (p_world s') = health.MarkShuttingDown (w_health (p_world s)) -> p_notified s' = p_notified s ->
  (forall l, owns j s l -> released (events s') l) ->
  (forall i l, (i < j)%nat -> owns i s l -> owns i s' l) ->
  (if decide (j = 2%nat) then grpcServing s -> drained (events s') else p_grpc s' = p_grpc s) ->
  down cfg b j s'.
Proof.
  intros [D1 D2 D3 D4] Hj He [Hq Hnew]%ends_quiet Hh Hn Hown Hkeep Hg. split.
  - intros l Hl. rewrite He in Hl. apply elem_of_app in Hl as [Hl|Hl]; [|by apply Hnew in Hl].
    destruct (D1 l Hl) as [Hr|(i & Hi & Ho)]; [left; rewrite He; by apply released_app|].
    destruct (decide (i = j)) as [->|]; [left; by apply Hown|]. right. exists i. split; [lia|]. apply Hkeep; [lia|done].
  - assert (Hse : servedEvents (events s') = servedEvents (events s)) by (by rewrite He, servedEvents_quiet).
    unfold serves. rewrite Hse. destruct D2 as [|[Hs D2]]; [by left|]. right. split; [done|].
    destruct D2 as [[Hslot D2]|[D2 D2']].
    + pose proof (slot_grpc cfg) as Hsl. destruct (decide (slot cfg = j)) as [Hsj|].
      * right. rewrite Hh. split; [done|]. intros Hgrpc. specialize (Hsl Hgrpc).
        rewrite decide_True in Hg by lia. by apply Hg, D2.
      * left. split; [lia|]. intros Hgrpc. specialize (Hsl Hgrpc). rewrite decide_False in Hg by lia.
        destruct (D2 Hgrpc) as (g & Hgs). exists g. by rewrite Hg.
    + right. rewrite Hh. split; [done|]. intros Hgrpc. rewrite He. apply drained_app. by apply D2'.
  - intros _. by rewrite Hh.
  - intros _. rewrite Hn. apply D4. lia.
Qed.

Lemma owns0_more s s' more : events s' = (events s ++ more)%list -> forall l, owns 0 s l -> owns 0 s' l.
Proof. intros He l. cbn. rewrite !elem_httpListeners, He. intros [tls Ht]. exists tls. apply elem_of_app. by left. Qed.

Lemma server_stops b s : down cfg b 1 s -> down cfg b 0 (fx.OnStop (serverHook cfg) s).2.
Proof.
  intros Hd. set (s' := (fx.OnStop (serverHook cfg) s).2).
  apply (down_stop 0 b s s' (Closed <$> httpListeners (events s))); try done; [lia|apply ends_closed| |by intros i l Hi; lia].
  intros l Hl. left. apply elem_of_app. right. by apply list_elem_of_fmap_2.
Qed.
Lemma milter_stops b s : down cfg b 2 s -> down cfg b 1 (fx.OnStop (milterHook cfg) s).2.
Proof.
  intros Hd. set (s' := (fx.OnStop (milterHook cfg) s).2).
  set (more := match p_milter s ≫= ms_listener with Some l => [Closed l] | None => [] end).
  assert (He : events s' = (events s ++ more)%list /\ p_milter s' = p_milter s /\ p_grpc s' = p_grpc s /\ p_notified s' = p_notified s /\
    w_health (p_world s') = health.MarkShuttingDown (w_health (p_world s))).
  { subst s' more. unfold milterHook, stopMilterServer. cbn [fx.OnStop].
    destruct (p_milter s) as [m|] eqn:Em; [destruct (ms_listener m) as [l|] eqn:El|]; run; rewrite ?El; run; rewrite ?app_nil_r; by split_and!. }
  destruct He as (He & Em & Eg & En & Eh). apply (down_stop 1 b s s' more); try done; [lia| | |].
  - subst more. destruct (_ ≫= _); repeat constructor.
  - intros l (m & Hm & Hl). left. rewrite He. apply elem_of_app. right. subst more. rewrite Hm. cbn. rewrite Hl. by apply list_elem_of_singleton.
  - intros i l Hi. assert (i = 0%nat) as -> by lia. by eapply owns0_more.
Qed.
(** What [stopServer] does. *)
Definition grpcEnds (g : option GRPCServer) : list event :=
  match g with
  | None => []
  | Some g =>
      (match gs_grpcServer g, gs_listener g with
       | Some _, _ => GracefulStop :: match grpc_ended with Some _ => [Stop] | None => [] end
       | None, Some l => [Closed l]
       | None, None => []
       end ++ if gs_Pools g then [ClosePools] else [])%list
  end.
Lemma stopServer_events g w : exists errs, stopServer grpc_ended g w =
  (Ok (errs, detached <$> g), {| w_health := w_health w; w_events := (w_events w ++ grpcEnds g)%list |}).
Proof.
  destruct w as [h es], g as [g|]; [|eexists; cbn; by rewrite app_nil_r]. unfold stopServer, stopGRPCServer, grpcEnds.
  destruct (gs_grpcServer g), (gs_listener g), grpc_ended, (gs_Pools g); run; eexists; rewrite <- ?app_assoc, ?app_nil_r; reflexivity.
Qed.

Lemma grpc_stops b s : down cfg b 3 s -> down cfg b 2 (fx.OnStop (grpcHook cfg) s).2.
Proof.
  intros Hd. set (s' := (fx.OnStop (grpcHook cfg) s).2).
  assert (He : events s' = (events s ++ grpcEnds (p_grpc s))%list /\ p_milter s' = p_milter s /\ p_notified s' = p_notified s /\
    w_health (p_world s') = health.MarkShuttingDown (w_health (p_world s))).
  { subst s'. unfold grpcHook. cbn [fx.OnStop]. unfold zoom, mark, mbind, stres_bind.
    edestruct stopServer_events as [errs ->]. by split_and!. }
  destruct He as (He & Em & En & Eh). apply (down_stop 2 b s s' (grpcEnds (p_grpc s))); try done; [lia| | | |].
  - unfold grpcEnds. destruct (p_grpc s) as [g|]; [|constructor].
    destruct (gs_grpcServer g), (gs_listener g), grpc_ended, (gs_Pools g); repeat constructor.
  - intros l (g & Hg & [opts Ho] & Hserved). right. rewrite He, !elem_of_app. split; [by left|]. right.
    rewrite Hg. cbn [grpcEnds]. rewrite Ho. cbn. apply elem_of_cons. by left.
  - intros i l Hi Ho. destruct i as [|[|i]]; [by eapply owns0_more| |lia].
    destruct Ho as (m & Hm & Hl). exists m. by rewrite Em.
  - rewrite decide_True by done. intros (g & Hg & [opts Ho] & Hp). exists (events s).
    eexists. rewrite He, Hg. cbn [grpcEnds]. rewrite Ho, Hp. cbn. split; [done|].
    apply elem_of_app. right. by apply list_elem_of_singleton.
Qed.

Lemma observability_stops b s : down cfg b 4 s -> down cfg b 3 (fx.OnStop (observabilityHook (Some o)) s).2.
Proof.
  intros Hd. set (s' := (fx.OnStop (observabilityHook (Some o)) s).2).
  set (more := match p_metrics s with Some (l, _) => [Closed l] | None => [] end).
  assert (He : events s' = (events s ++ more)%list /\ p_milter s' = p_milter s /\ p_grpc s' = p_grpc s /\ p_notified s' = p_notified s /\
    w_health (p_world s') = health.MarkShuttingDown (w_health (p_world s))) by done.
  destruct He as (He & Em & Eg & En & Eh). apply (down_stop 3 b s s' more); try done; [| |].
  - subst more. destruct (p_metrics s) as [[l t]|]; repeat constructor.
  - intros l [t Ht]. left. rewrite He. apply elem_of_app. right. subst more. rewrite Ht. by apply list_elem_of_singleton.
  - intros i l Hi Ho. destruct i as [|[|[|i]]]; [by eapply owns0_more| | |lia].
    + destruct Ho as (m & Hm & Hl). exists m. by rewrite Em.
    + destruct Ho as (g & Hg & Hs & Hl). exists g. rewrite Eg, He. split_and!; [done|done|]. apply elem_of_app. by left.
Qed.

Lemma reload_stops b s : down cfg b 5 s -> down cfg b 4 (fx.OnStop reloadHook s).2.
Proof.
  intros [D1 D2 D3 D4]. split; [| | |done].
  - intros l Hl. destruct (D1 l Hl) as [|(j & Hj & Ho)]; [by left|right]. exists j. split; [|done].
    destruct (decide (j = 4%nat)) as [->|]; [done|lia].
  - assert (slot cfg <= 2)%nat by (unfold slot; repeat case_decide; lia).
    destruct D2 as [|[Hs [[_ Hg]|Hd]]]; [by left| |]; right; (split; [done|]); [left; split; [lia|done]|by right].
  - assert (slot cfg <= 2)%nat by (unfold slot; repeat case_decide; lia). lia.
Qed.
End stopping.

(** ** Starting *)

Section starting.
Context `{Unicode} `{URLs} `{PEMFiles} `{Descriptors} `{Sockets} `{Shutdowns} (cfg : Config) (o : Observability) (protocol : string).
Context (m0 : MilterServer) (g0 : GRPCServer) (Hpools : gs_Pools g0 = true).
Implicit Types (s : state).
Definition fresh : state := {| p_world := freshWorld protocol; p_milter := Some m0; p_grpc := Some g0; p_metrics := None; p_notified := false |}.
Notation up := (up cfg fresh).

Lemma slot_cases : c_Protocol cfg ∈ [protocolHTTP; protocolMilter; protocolGRPC] ->
  (slot cfg = 0%nat /\ c_Protocol cfg = protocolHTTP) \/ (slot cfg = 1%nat /\ c_Protocol cfg = protocolMilter) \/
  (slot cfg = 2%nat /\ c_Protocol cfg = protocolGRPC).
Proof. rewrite !elem_of_cons, elem_of_nil. unfold slot. intros [->|[->|[->|[]]]]; repeat case_decide; naive_solver. Qed.

(** A hook of another protocol does nothing. *)
Lemma other_starts i s : i <> slot cfg -> up i s -> up (1 + i) s.
Proof.
  intros Hi [U1 U2 U3 U4]. split.
  - intros Hle. apply U1. lia.
  - intros l Hl. destruct (U2 l Hl) as [|(j & Hj & Ho)]; [by left|right]. exists j. split; [lia|done].
  - intros Hlt. apply U3. lia.
  - intros Hle. apply U4. lia.
Qed.

(** The hook of the protocol serves. *)
Lemma slot_starts i s srv :
  i = slot cfg -> w_health (p_world s) = health.MarkReady (health.New protocol) ->
  servedEvents (events s) = [srv] -> servedProtocol srv = c_Protocol cfg ->
  openListeners (events s) = option_list (servedListener srv) -> (forall l, servedListener srv = Some l -> owns i s l) ->
  (c_Protocol cfg = protocolGRPC -> grpcServing s) -> p_notified s = false -> up (1 + i) s.
Proof.
  intros Hi Hh Hs Hp Ho Hown Hg Hn. split; [lia| | |done].
  - intros l Hl. destruct (servedListener srv) as [l0|] eqn:El; cbn in Ho.
    + destruct (opened_one _ _ _ Ho Hl) as [| ->]; [by left; left|]. right. exists i. split; [lia|by apply Hown].
    + left. left. by apply opened_closed.
  - intros _. split; [by exists srv|done].
Qed.

(** The hook of the protocol fails, and has closed what it opened. *)
Lemma slot_fails i s :
  w_health (p_world s) = health.New protocol -> servedEvents (events s) = [] -> openListeners (events s) = [] ->
  p_notified s = false -> down cfg false i s.
Proof.
  intros Hh Hs Ho Hn. split; [|by left|by rewrite Hh|done]. intros l Hl. left. left. by apply opened_closed.
Qed.

Lemma useTLS_files addr cert key mode : resolveInboundMode addr cert key = Ok mode -> mode.2 = true -> cert <> "" /\ key <> "".
Proof.
  unfold resolveInboundMode. repeat case_bool_decide; cbn [andb]; by intros [= <-].
Qed.
Lemma startServer_fails w0 e w :
  startServer cfg w0 = (Err e, w) -> keyPairReadable cfg -> w = w0.
Proof.
  unfold startServer. destruct (decide _) as [|Hp]; [done|]. apply dec_stable in Hp. unfold lift, mbind, stres_bind.
  destruct (resolveInboundMode _ _ _) as [mode|] eqn:Em; [|by intros [= _ <-]]. pose proof (useTLS_files _ _ _ _ Em) as Htls. unfold resolveHTTPListener, mbind, stres_bind.
  intros E Hk. revert E. destruct (activatedListener_run protocolHTTP (f_ListenAddr (c_Plain cfg)) w0) as [[e' ->]|[->|(l & closed & Hl & ->)]];
    [by intros [= _ <-]|by run|].
  destruct (mode.2); cbn [negb]; [|by run]. destruct (Htls eq_refl) as [Hc Hf]. unfold failIf, lift. rewrite (Hk Hp Hc Hf). by run.
Qed.

Lemma server_starts s : c_Protocol cfg ∈ [protocolHTTP; protocolMilter; protocolGRPC] ->
  keyPairReadable cfg ->
  up 0 s -> match fx.OnStart (serverHook cfg) s with (Ok _, s') => up 1 s' | (Err _, s') => down cfg false 0 s' end.
Proof.
  intros Hp Hkey Hup. cbn [serverHook fx.OnStart]. unfold zoom.
  destruct (slot_cases Hp) as [[Hs E]|Hs].
  - rewrite (u_before _ _ _ _ Hup) by lia. cbn [fresh p_world]. pose proof (startServer_starts cfg E protocol) as G.
    destruct (startServer cfg (freshWorld protocol)) as [[[]|e] w] eqn:Es.
    + destruct G as (Hh & srv & G1 & G2 & G3). apply (slot_starts 0 _ srv); try done; [by rewrite E| |by rewrite E].
      intros l Hl. apply elem_httpListeners. destruct srv as [l' tls| | |]; try done. injection Hl as ->. exists tls.
      apply elem_servedEvents. change (ServeHTTP l tls ∈ servedEvents (w_events w)). rewrite G1. by apply list_elem_of_singleton.
    + apply startServer_fails in Es as ->; [|done]. by apply (slot_fails 0).
  - rewrite (proj1 (startHooks_other cfg None None (p_world s))) by (destruct Hs as [[_ ->]|[_ ->]]; done).
    rewrite withWorld_id. apply (other_starts 0); [lia|done].
Qed.

Lemma obtains_err protocol' addr (m : act Z) e w0 w :
  m = (activated ← activatedListener protocol' addr; match activated with None => listen addr | Some l => mret l end) ->
  m w0 = (Err e, w) -> w = w0.
Proof.
  intros ->. unfold mbind, stres_bind.
  destruct (activatedListener_run protocol' addr w0) as [[e' ->]|[->|(l & closed & Hl & ->)]]; [by intros [= _ <-]| |done].
  unfold listen, lift, mbind, stres_bind. by destruct (net_Listen addr); [|intros [= _ <-]].
Qed.

(** What the milter and gRPC servers keep when they start, and leave when they do not. *)
Lemma startMilterServer_keeps m w0 : c_Protocol cfg = protocolMilter ->
  match startMilterServer cfg (Some m) w0 with
  | (Ok m', w) => exists m1 l, m' = Some m1 /\ ms_listener m1 = Some l /\ Served (ServeMilter l) ∈ w_events w
  | (Err _, w) => w = w0
  end.
Proof.
  intros Hp. unfold startMilterServer. rewrite decide_False by (by rewrite Hp; intros G). destruct (negb (ms_Handler m)); [done|].
  destruct (decide _); [done|]. destruct (startMilterListener m w0) as [[l|e] w] eqn:El; unfold mbind at 1, stres_bind at 1; rewrite El.
  - run. eexists _, l. split_and!; [done|done|]. apply elem_of_app. right. by apply list_elem_of_singleton.
  - by apply (obtains_err protocolMilter (ms_Addr m) (startMilterListener m) e).
Qed.
Lemma closes_last es l : openListeners es = [l] -> openListeners (es ++ [Closed l]) = [].
Proof.
  intros Ho. apply elem_of_nil_inv. intros k [Hk Hn]%elem_openListeners. rewrite elem_of_app, list_elem_of_singleton in Hk, Hn.
  destruct Hk as [Hk|]; [|done]. destruct (opened_one es k l Ho Hk) as [?| ->]; tauto.
Qed.
Lemma startGRPCServer_keeps : c_Protocol cfg = protocolGRPC ->
  match startGRPCServer cfg (Some g0) (freshWorld protocol) with
  | (Ok g', w) => grpcServing {| p_world := w; p_milter := None; p_grpc := g'; p_metrics := None; p_notified := false |}
  | (Err _, w) => openListeners (w_events w) = []
  end.
Proof.
  intros Hp. unfold startGRPCServer. rewrite decide_False by (by rewrite Hp; intros G). destruct (negb (gs_Handler g0)); [done|].
  destruct (decide _); [done|]. unfold mbind at 1, stres_bind at 1.
  destruct (obtains_listener protocolGRPC (gs_Addr g0) protocol (startListener (gs_Addr g0)) eq_refl)
    as [[e ->]|(l & es & _ & Ho & ->)]; [done|].
  destruct (newGRPCServer _ _) as [opts|e]; [run; eexists; split_and!; [done|by eexists|done]|]. by apply closes_last.
Qed.

Lemma milter_starts s : c_Protocol cfg ∈ [protocolHTTP; protocolMilter; protocolGRPC] ->
  up 1 s -> match fx.OnStart (milterHook cfg) s with (Ok _, s') => up 2 s' | (Err _, s') => down cfg false 1 s' end.
Proof.
  intros Hp Hup. cbn [milterHook fx.OnStart]. unfold zoom. destruct (decide (slot cfg = 1%nat)) as [Hs|Hs].
  - assert (E : c_Protocol cfg = protocolMilter) by (destruct (slot_cases Hp) as [[]|[[]|[]]]; [lia|done|lia]).
    rewrite (u_before _ _ _ _ Hup) by lia. cbn [fresh p_world p_milter].
    pose proof (startMilterServer_starts cfg (Some m0) E protocol) as G. pose proof (startMilterServer_keeps m0 (freshWorld protocol) E) as K.
    destruct (startMilterServer cfg (Some m0) (freshWorld protocol)) as [[m'|e] w]; [|subst w; by apply (slot_fails 1)].
    destruct G as (Hh & srv & G1 & G2 & G3), K as (m1 & l & -> & K1 & K2).
    apply (slot_starts 1 _ srv); try done; [by rewrite E| |by rewrite E].
    intros l' Hl'. exists m1. split; [done|]. apply elem_servedEvents in K2. rewrite G1 in K2. apply list_elem_of_singleton in K2 as <-. by rewrite K1.
  - assert (E : c_Protocol cfg <> protocolMilter) by (destruct (slot_cases Hp) as [[? ->]|[[]|[? ->]]]; done).
    rewrite (proj1 (proj2 (startHooks_other cfg (p_milter s) None (p_world s))) E).
    unfold store. assert (withMilter (p_milter s) (withWorld (p_world s) s) = s) as -> by (by destruct s).
    by apply (other_starts 1).
Qed.

Lemma grpc_starts s : c_Protocol cfg ∈ [protocolHTTP; protocolMilter; protocolGRPC] ->
  up 2 s -> match fx.OnStart (grpcHook cfg) s with (Ok _, s') => up 3 s' | (Err _, s') => down cfg false 2 s' end.
Proof.
  intros Hp Hup. cbn [grpcHook fx.OnStart]. unfold zoom. destruct (decide (slot cfg = 2%nat)) as [Hs|Hs].
  - assert (E : c_Protocol cfg = protocolGRPC) by (destruct (slot_cases Hp) as [[]|[[]|[]]]; [lia|lia|done]).
    rewrite (u_before _ _ _ _ Hup) by lia. cbn [fresh p_world p_grpc].
    pose proof (startGRPCServer_starts cfg (Some g0) E protocol) as G. pose proof (startGRPCServer_keeps E) as K.
    destruct (startGRPCServer cfg (Some g0) (freshWorld protocol)) as [[g'|e] w]; [|destruct G as [Hh Hq]; by apply (slot_fails 2)].
    destruct G as (Hh & srv & G1 & G2 & G3), K as (g1 & Hg1 & K1 & K2). cbn in Hg1. subst g'.
    apply (slot_starts 2 _ srv); try done; [by rewrite E| |by intros _; exists g1].
    intros l Hl. exists g1. split_and!; [done|done|]. destruct srv as [| | |l']; try done. injection Hl as ->.
    apply elem_servedEvents. change (ServeGRPC l ∈ servedEvents (w_events w)). rewrite G1. by apply list_elem_of_singleton.
  - assert (E : c_Protocol cfg <> protocolGRPC) by (destruct (slot_cases Hp) as [[? ->]|[[? ->]|[]]]; done).
    rewrite (proj2 (proj2 (startHooks_other cfg None (p_grpc s) (p_world s))) E).
    unfold store. assert (withGRPC (p_grpc s) (withWorld (p_world s) s) = s) as -> by (by destruct s).
    by apply (other_starts 2).
Qed.

Lemma slot_bound : (slot cfg <= 2)%nat.
Proof. unfold slot. repeat case_decide; lia. Qed.
Lemma owns_more i s s' more l :
  events s' = (events s ++ more)%list -> p_milter s' = p_milter s -> p_grpc s' = p_grpc s -> (i < 3)%nat -> owns i s l -> owns i s' l.
Proof.
  intros He Em Eg Hi. destruct i as [|[|[|i]]]; [by apply (owns0_more _ _ more)| | |lia]; cbn; rewrite ?Em, ?Eg, ?He; [done|].
  intros (g & Hg & Hs & Hl). exists g. split_and!; [done|done|]. apply elem_of_app. by left.
Qed.
(** The metrics endpoint on top of a server that is up. *)
Lemma serving_more i s s' more :
  up 3 s -> (3 <= i)%nat -> events s' = (events s ++ more)%list -> p_milter s' = p_milter s -> p_grpc s' = p_grpc s ->
  p_notified s' = p_notified s -> servedEvents more = [] ->
  (forall l, Opened l ∈ more -> released (events s') l \/ (3 < i)%nat /\ owns 3 s' l) ->
  held i s' /\ serves cfg (events s') /\ (c_Protocol cfg = protocolGRPC -> grpcServing s') /\ p_notified s' = false.
Proof.
  intros [_ U2 U3 U4] Hi He Em Eg En Hq Hm. pose proof slot_bound. destruct U3 as [U3 U3']; [lia|]. split_and!.
  - intros l Hl. rewrite He in Hl. apply elem_of_app in Hl as [Hl|Hl].
    + destruct (U2 l Hl) as [Hr|(j & Hj & Ho)]; [left; rewrite He; by apply released_app|right]. exists j. split; [lia|].
      by eapply owns_more.
    + destruct (Hm l Hl) as [|[Ht Ho]]; [by left|right]. by exists 3%nat.
  - destruct U3 as (srv & U3). exists srv. by rewrite He, servedEvents_quiet.
  - intros Hg. destruct (U3' Hg) as (g & Hgs). exists g. by rewrite Eg.
  - rewrite En. apply U4. lia.
Qed.
Lemma serving_up i s : (3 <= i)%nat -> (i <= 4 -> p_notified s = false)%nat ->
  held i s -> serves cfg (events s) -> (c_Protocol cfg = protocolGRPC -> grpcServing s) -> up i s.
Proof. intros Hi Hn Hh Hs Hg. pose proof slot_bound. split; [lia|done|done|done]. Qed.
Lemma up_down b i s : (3 <= i)%nat -> up i s -> down cfg b i s.
Proof.
  intros Hi [_ U2 U3 U4]. pose proof slot_bound. destruct U3 as [U3 U3']; [lia|]. split; [done| |lia|done].
  right. split; [done|]. left. split; [lia|done].
Qed.

(** While the program runs. *)
Lemma serving_marks err w : (serving cfg err w).2 = w \/
  (serving cfg err w).2 = {| w_health := health.MarkNotReady (w_health w); w_events := (w_events w ++ [lifecycle.Shutdown])%list |}.
Proof.
  unfold serving, serveHTTP, serveMilterAsync, serveGRPCAsync, serveReturned.
  repeat case_decide; (destruct err as [e|]; [|by left]); destruct (existsb _ _); [by left|by right|by left|by right|by left|by right].
Qed.
Lemma await_up l : forall s, up 5 s -> up 5 (await cfg l s).2.
Proof.
  induction l as [|[name|err] l IH]; intros s Hup; cbn [await]; [done..|].
  assert (up 5 (withWorld (serving cfg err (p_world s)).2 s)) as Hw; [|destruct (serving cfg err (p_world s)) as [[[]|e] w]; [done|by apply IH..]].
  destruct (serving_marks err (p_world s)) as [->| ->]; [by rewrite withWorld_id|]. destruct Hup as [_ U2 U3 _]. pose proof slot_bound.
  destruct U3 as [U3 U3']; [lia|]. apply serving_up; [lia|lia| | |done].
  - intros l' Hl. unfold events in *. cbn in *. apply elem_of_app in Hl as [Hl|Hl]; [|by apply list_elem_of_singleton in Hl].
    destruct (U2 l' Hl) as [Hr|(j & Hj & Ho)]; [left; by apply released_app|right]. exists j. split; [done|].
    destruct (decide (j < 3)%nat) as [Hj3|Hj3]; [by eapply (owns_more j s _ [lifecycle.Shutdown])|by destruct j as [|[|[|j]]]; try lia].
  - unfold events. cbn. destruct U3 as (srv & U3). exists srv. by rewrite servedEvents_quiet.
Qed.

Lemma observability_starts s :
  up 3 s -> match fx.OnStart (observabilityHook (Some o)) s with (Ok _, s') => up 4 s' | (Err _, s') => down cfg false 3 s' end.
Proof.
  intros Hup. cbn [observabilityHook fx.OnStart]. unfold zoom, startMetrics, StartPrometheusServer, store.
  assert (G : forall i more s', (3 <= i <= 4)%nat -> events s' = (events s ++ more)%list -> p_milter s' = p_milter s ->
    p_grpc s' = p_grpc s -> p_notified s' = p_notified s -> servedEvents more = [] ->
    (forall l, Opened l ∈ more -> released (events s') l \/ (3 < i)%nat /\ owns 3 s' l) -> up i s').
  { intros i more s' Hi He Em Eg En Hq Hm.
    destruct (serving_more i s s' more Hup) as (G1 & G2 & G3 & G4); try done; [lia|]. apply serving_up; auto; lia. }
  destruct (negb (PrometheusEnabled (Some o))).
  { apply (G 4%nat []); try done; [lia|]. intros l Hl. by apply not_elem_of_nil in Hl. }
  destruct (net_Listen _) as [l|e].
  - destruct (buildPrometheusServerTLSConfig _) as [tls|e].
    + apply (G 4%nat [Opened l]); try done; [lia|]. intros k Hk. apply list_elem_of_singleton in Hk as [= ->]. right.
      split; [lia|by exists tls].
    + apply up_down; [lia|]. apply (G 3%nat [Opened l; Closed l]); try done; [lia|]. intros k Hk. left. left.
      rewrite !elem_of_cons, elem_of_nil in Hk. destruct Hk as [[= ->]|[?|[]]]; [|done].
      apply elem_of_app. right. apply elem_of_cons. right. by apply list_elem_of_singleton.
  - apply up_down; [lia|]. apply (G 3%nat []); try done; [lia|]. intros k Hk. by apply not_elem_of_nil in Hk.
Qed.
Lemma reload_starts s : up 4 s -> match fx.OnStart reloadHook s with (Ok _, s') => up 5 s' | (Err _, s') => down cfg false 4 s' end.
Proof.
  intros [_ U2 U3 U4]. pose proof slot_bound. destruct U3 as [U3 U3']; [lia|]. cbn.
  apply serving_up; [lia|lia| |done|done]. intros l Hl. destruct (U2 l Hl) as [|(j & Hj & Ho)]; [by left|right]. exists j. split; [lia|].
  by destruct j as [|[|[|[|j]]]].
Qed.

(** The five hooks keep the discipline. *)
Lemma hooks_disciplined i hook : c_Protocol cfg ∈ [protocolHTTP; protocolMilter; protocolGRPC] ->
  keyPairReadable cfg ->
  RegisterHooks cfg (Some o) !! i = Some hook -> fx.disciplined up (down cfg) i hook.
Proof.
  intros Hp Hkey. destruct i as [|[|[|[|[|i]]]]]; intros [= <-]; split; [intros s|intros b s..].
  - by apply server_starts.
  - apply server_stops.
  - by apply milter_starts.
  - apply milter_stops.
  - by apply grpc_starts.
  - apply grpc_stops.
  - by apply observability_starts.
  - apply observability_stops.
  - by apply reload_starts.
  - apply reload_stops.
Qed.
Lemma fresh_up : up 0 fresh.
Proof. split; [done| |lia|done]. intros l Hl. by apply not_elem_of_nil in Hl. Qed.
End starting.

(** ** A run of the program *)

Section run.
Context `{Regexp} `{Unicode} `{URLs} `{PEMFiles} `{Descriptors} `{Sockets} `{Shutdowns} `{OS}.
Context {cert pool : Type} (asURL : parsedURL -> backend.URL parsedURL).
Context (os_ReadFile : string -> res string) (AppendCertsFromPEM : string -> option pool)
  (LoadX509KeyPair : string -> string -> res cert)
  (grpc_NewClient : string -> option (tlsConfig cert pool) -> list callOption -> option string -> option error)
  (conn_Close : nat -> option error).
Context (jsonString : string -> option string) (jsonStrings : string -> option (list string)).
Context (resourceErr traceErr metricErr : option error) (now : Z).
Notation newApp := (newApp asURL os_ReadFile AppendCertsFromPEM LoadX509KeyPair grpc_NewClient conn_Close
  jsonString jsonStrings resourceErr traceErr metricErr now).

(** What a run leaves behind: nothing. *)
Record left_clean (loaded : res Config) (s : state) (code : Z) : Prop := {
  lc_released : forall l, Opened l ∈ events s -> released (events s) l;
  lc_unready : health.ready (w_health (p_world s)) = false;
  lc_unnotified : p_notified s = false;
  lc_served : code = 1 /\ servedEvents (events s) = [] \/
    (code = 1 \/ code = 0) /\ exists cfg, loaded = Ok cfg /\ serves cfg (events s) /\
      health.shuttingDown (w_health (p_world s)) = true /\ (c_Protocol cfg = protocolGRPC -> drained (events s))
}.

Lemma down_clean b cfg s code : down cfg b 0 s -> code = 1 \/ b = true /\ code = 0 -> left_clean (Ok cfg) s code.
Proof.
  intros [D1 D2 D3 D4] Hc. split.
  - intros l Hl. destruct (D1 l Hl) as [|(j & Hj & _)]; [done|lia].
  - apply D3. lia.
  - apply D4. lia.
  - destruct D2 as [[-> D2]|[D2 [[? _]|D5]]]; [left; by destruct Hc as [|[? _]]|lia|right]. split; [tauto|]. exists cfg.
    split_and!; [done|apply D2|apply D5|apply D5].
Qed.
Lemma nothing_clean loaded s p : p_world s = freshWorld p -> p_notified s = false -> left_clean loaded s 1.
Proof.
  intros Hw Hn. split; unfold events; rewrite ?Hw; [|done|done|by left].
  intros l Hl. by apply not_elem_of_nil in Hl.
Qed.

Lemma construct_config loaded version w b w' :
  construct asURL os_ReadFile AppendCertsFromPEM LoadX509KeyPair grpc_NewClient conn_Close
    jsonString jsonStrings resourceErr traceErr metricErr now loaded version w = (Ok b, w') -> loaded = Ok (b_Config b).
Proof.
  unfold construct. unfold lift, mbind, stres_bind. destruct loaded as [cfg|e]; [|done].
  destruct (telemetry.New _ _ _ _ _); [|done]. destruct (wiring.newApp _ _ _ _); [|done].
  destruct (NewTargetPools _ _ _ _ _ _ _) as [[pools|e] w1]; [|done]. by intros [= <- _].
Qed.

(** The signals of [await]: none carries an exit code. *)
Lemma await_code cfg l : forall s sig, (await cfg l s).1 = Some sig -> fx.ExitCode sig = 0.
Proof.
  induction l as [|[name|err] l IH]; intros s sig; cbn [await]; [done|by intros [= <-]|].
  destruct (serving cfg err (p_world s)) as [[[]|e] w]; [by intros [= <-]|apply IH..].
Qed.


(** An error of the start-up is not reported: [fx] logs to [NopLogger] and [main]
    prints nothing of its own. *)
Lemma startup_error_is_silent name version config_file arguments setenvErr opts load e startCtx stopCtx incidents w :
  parseCLI arguments = Ok opts -> help opts = false -> cli.version opts = false -> configPath opts = "" ->
  load config_file = Err e ->
  main asURL os_ReadFile AppendCertsFromPEM LoadX509KeyPair grpc_NewClient conn_Close
    jsonString jsonStrings resourceErr traceErr metricErr now name version config_file arguments setenvErr load
    startCtx stopCtx incidents w = {| e_Stdout := ""; e_Stderr := ""; e_Code := Some 1; e_Process := Some nothing |}.
Proof. intros Hp Hh Hv Hc He. unfold main. rewrite Hp, Hh, Hv, Hc. rewrite !decide_False by (intros G; by apply G). by rewrite He. Qed.
End run.

(** ** Witnesses and examples *)

Definition never : fx.Context_ := fun _ => None.
Definition exampleShutdowns : Shutdowns := {|
  http_drain := None; grpc_ended := None; metrics_drain := None; meter_Shutdown := None; trace_Shutdown := None |}.
Definition exampleOS : OS := {|
  runtimesecurity.answer := fun _ _ => None; user_LookupId := fun s => Err (errors_New s); user_Lookup := fun s => Err (errors_New s);
  user_LookupGroup := fun s => Err (errors_New s); filepath_Abs := fun s => Ok s; os_Getenv := fun _ => "" |}.
Notation exampleNewApp loaded :=
  (@newApp literalRegexp asciiUnicode configspec.exampleURLs grpcconfigspec.noFiles exampleDescriptors exampleSockets exampleShutdowns
    exampleOS unit unit exampleURL (fun _ => Ok "") (fun _ => None) (fun _ _ => Ok tt) (fun _ _ _ _ => None)
    (fun _ => None) (fun _ => None) (fun _ => None) None None None 0 loaded "dev"
    {| targets.opened := 0; live := ∅ |}) (only parsing).
Notation exampleConfig := (exampleLoad ["/etc/doppelgaenger/config.yaml"] "") (only parsing).


(** A server that fails while it runs, as one whose address is taken, ends the
    process with exit code 0: [Shutdown] is called without [ExitCode]. *)
Lemma failed_server_exits_zero :
  let '(app, s0) := exampleNewApp exampleConfig in
  let '(code, s) := fx.run app never never
    (awaiting exampleConfig [ServeReturned (Some (errors_New "listen tcp :8080: bind: address already in use"))]) s0 in
  code = Some 0 /\ lifecycle.Shutdown ∈ events s.
Proof. vm_compute. split; [reflexivity|]. repeat (apply list_elem_of_here || apply list_elem_of_further). Qed.
End process.
