(* ===== verification/Tracing.v ===== *)
(** * Spans: what is started, ended and passed on to the backends

    The span functions of [internal/observability/observability.go] and their
    callers in the HTTP and gRPC handlers, the requester and the milter, over
    the vendored tracer ([sdk/trace/tracer.go], [sampling.go]).  A context is
    the span it carries; a nil span, and the span of a context without one, do
    nothing and are both [None].  Calls on a recording span are events; the
    ids it draws come from an [IDGenerator]. *)
From Stdlib Require Import SpecFloat.
From S2P Require Export TraceContext HttpHandler GrpcReport.

(** ** The carriers of the program *)

Module carriers.
Import propagation.

(** [propagation.HeaderCarrier] and [grpcMetadataCarrier]; both kinds of maps
    are [gmap string (list string)], so the instances are named where they are
    used. *)
Definition HeaderCarrier : Carrier header := {| carrier_get := Get; carrier_set := HeaderSet |}.
Definition grpcMetadataCarrier `{Unicode} : Carrier MD :=
  {| carrier_get := telemetry.carrier_Get; carrier_set := telemetry.carrier_Set |}.

Lemma header_keys k k' :
  k ∈ [traceparentHeader; tracestateHeader] -> k' ∈ [traceparentHeader; tracestateHeader] -> k <> k' ->
  CanonicalHeaderKey k <> CanonicalHeaderKey k'.
Proof.
  rewrite !elem_of_cons, !elem_of_nil. intros [->|[->|[]]] [->|[->|[]]] Hne; try done; vm_compute; discriminate.
Qed.
Lemma HeaderCarrier_ok : @CarrierOk header HeaderCarrier.
Proof.
  split; cbn.
  - intros c k v _. apply Get_HeaderSet_eq.
  - intros c k k' v Hk Hk' Hne. apply Get_Set_ne. by apply header_keys.
Qed.

Section metadata.
Context `{Unicode}.
Lemma metadata_keys k : k ∈ [traceparentHeader; tracestateHeader] ->
  ToLower k = k /\ TrimSpace k = k /\ k <> "".
Proof. rewrite !elem_of_cons, !elem_of_nil. by intros [->|[->|[]]]; vm_compute. Qed.
Lemma grpcMetadataCarrier_ok : CarrierOk MD (H := grpcMetadataCarrier).
Proof.
  split; cbn; unfold telemetry.carrier_Get, telemetry.carrier_Set, grpcmetadata.md_Get, grpcmetadata.md_Set.
  - intros c k v Hk. destruct (metadata_keys k Hk) as (E1 & E2 & E3). rewrite E2, !E1, decide_False by done.
    by rewrite lookup_insert_eq.
  - intros c k k' v Hk Hk' Hne. destruct (metadata_keys k Hk) as (E1 & E2 & E3), (metadata_keys k' Hk') as (F1 & F2 & F3).
    rewrite E2, !E1, !F1, decide_False by done. by rewrite lookup_insert_ne.
Qed.
End metadata.
End carriers.

(** ** [sdk/trace]: sampling and the start of a span *)

Module tracer.
Import trace propagation logging.

(** [SamplingDecision]; [RecordOnly] is not used by these samplers. *)
Inductive SamplingDecision := Drop | RecordAndSample.
(** The samplers [TraceIDRatioBased] makes. *)
Inductive ratioSampler := predeterminedSampler (d : SamplingDecision) | traceIDRatioSampler (traceIDUpperBound : Z).

(** [uint64(x)] of a positive double below 2^64; Go leaves the rest to the
    machine. *)
Definition uint64_of (x : spec_float) : Z :=
  match x with
  | S754_finite false m e => if 0 <=? e then Z.pos m * 2 ^ e else Z.pos m / 2 ^ (- e)
  | _ => 0
  end.
Definition TraceIDRatioBased (fraction : spec_float) : ratioSampler :=
  if SFleb compare.f1 fraction then predeterminedSampler RecordAndSample
  else if SFleb fraction compare.f0 then predeterminedSampler Drop
  else traceIDRatioSampler (uint64_of (SFmul 53 1024 fraction (compare.float64_of_int (2 ^ 63)))).

Definition ratio_ShouldSample (s : ratioSampler) (tid : TraceID) : SamplingDecision :=
  match s with
  | predeterminedSampler d => d
  | traceIDRatioSampler bound =>
      let x := Z.shiftr (be_value (code <$> drop 8 (chars tid))) 1 in
      if x <? bound then RecordAndSample else Drop
  end.
(** [ParentBased(root)] with its four defaults; the trace state is the
    parent's. *)
Definition ShouldSample (root : ratioSampler) (parent : SpanContext) (tid : TraceID) : SamplingDecision * TraceState :=
  (if IsValid parent then if IsSampled (sc_traceFlags parent) then RecordAndSample else Drop
   else ratio_ShouldSample root tid, sc_traceState parent).

(** [IDGenerator]: random ids that are not zero. *)
Class IDGenerator (G : Type) := { NewIDs : G -> (TraceID * SpanID) * G; NewSpanID : G -> TraceID -> SpanID * G }.
Definition traceID_ok (t : TraceID) : Prop := String.length t = 16%nat /\ TraceID_IsValid t = true.
Definition spanID_ok (s : SpanID) : Prop := String.length s = 8%nat /\ SpanID_IsValid s = true.
Class IDGeneratorOk (G : Type) `{IDGenerator G} := {
  NewIDs_ok (g : G) : traceID_ok (NewIDs g).1.1 /\ spanID_ok (NewIDs g).1.2;
  NewSpanID_ok (g : G) t : spanID_ok (NewSpanID g t).1
}.

(** A span: its number among the spans started, its context, and whether it
    records. *)
Record span := { sn_number : nat; sn_context : SpanContext; sn_recording : bool }.
Abbreviation context := (option span).
Definition SpanContextFromContext (ctx : context) : SpanContext :=
  match ctx with Some s => sn_context s | None => emptySpanContext end.
(** [ContextWithRemoteSpanContext]: a span that records nothing. *)
Definition ContextWithRemoteSpanContext (sc : SpanContext) : context :=
  Some {| sn_number := 0; sn_context := WithRemote sc true; sn_recording := false |}.

Inductive SpanKind := SpanKindInternal | SpanKindServer | SpanKindClient.
Inductive spanEvent :=
  | Started (number : nat) (name : string) (kind : SpanKind) (attrs : list Attr) (sc parent : SpanContext)
  | AttributesSet (number : nat) (attrs : list Attr)
  | StatusSet (number : nat) (description : string)
  | ErrorRecorded (number : nat) (text : string)
  | LinkAdded (number : nat) (sc : SpanContext)
  | Ended (number : nat).

Record world (G : Type) := { wd_gen : G; wd_next : nat; wd_events : list spanEvent }.
Arguments wd_gen {G}.
Arguments wd_next {G}.
Arguments wd_events {G}.

Section spans.
Context {G : Type} `{IDGenerator G}.

(** A span records until it is ended. *)
Definition ends (number : nat) (e : spanEvent) : bool :=
  match e with Ended n => (n =? number)%nat | _ => false end.
Definition isRecording (s : span) (w : world G) : bool :=
  sn_recording s && negb (existsb (ends (sn_number s)) (wd_events w)).
Definition emit (s : context) (e : nat -> spanEvent) (w : world G) : world G :=
  match s with
  | Some s =>
      if isRecording s w
      then {| wd_gen := wd_gen w; wd_next := wd_next w; wd_events := (wd_events w ++ [e (sn_number s)])%list |} else w
  | None => w
  end.
Definition SetAttributes (s : context) (attrs : list Attr) : world G -> world G :=
  emit s (fun n => AttributesSet n attrs).
Definition SetStatusError (s : context) (description : string) : world G -> world G :=
  emit s (fun n => StatusSet n description).
Definition RecordError (s : context) (err : error) : world G -> world G := emit s (fun n => ErrorRecorded n (Error err)).
Definition AddLink (s : context) (sc : SpanContext) : world G -> world G := emit s (fun n => LinkAdded n sc).
Definition End_ (s : context) : world G -> world G := emit s Ended.

(** [tracer.Start] and [newSpan] *)
Definition newSpan (root : ratioSampler) (ctx : context) (w : world G) : span * world G :=
  let psc := SpanContextFromContext ctx in
  let '(tid, sid, g) :=
    if negb (TraceID_IsValid (sc_traceID psc)) then NewIDs (wd_gen w)
    else let '(sid, g) := NewSpanID (wd_gen w) (sc_traceID psc) in (sc_traceID psc, sid, g) in
  let '(decision, state) := ShouldSample root psc tid in
  let sampled := match decision with RecordAndSample => true | Drop => false end in
  ({| sn_number := wd_next w;
      sn_context := {| sc_traceID := tid; sc_spanID := sid;
        sc_traceFlags := if sampled then Z.lor (sc_traceFlags psc) FlagsSampled else Z.ldiff (sc_traceFlags psc) FlagsSampled;
        sc_traceState := state; sc_remote := false |};
      sn_recording := sampled |},
   {| wd_gen := g; wd_next := S (wd_next w); wd_events := wd_events w |}).
Definition Start (root : ratioSampler) (ctx : context) (name : string) (kind : SpanKind) (attrs : list Attr) (w : world G)
    : context * world G :=
  let '(s, w) := newSpan root ctx w in
  (Some s, emit (Some s) (fun n => Started n name kind attrs (sn_context s) (SpanContextFromContext ctx)) w).
End spans.
End tracer.

(** ** The spans of the program *)

Module spans.
Import trace propagation logging telemetry tracer carriers config httphandler.

(** [http.StatusText] of the codes from 500 on. *)
Definition StatusText (code : Z) : string :=
  default "" (list_to_map (M := gmap Z string)
    [(500, "Internal Server Error"); (501, "Not Implemented"); (502, "Bad Gateway"); (503, "Service Unavailable");
     (504, "Gateway Timeout"); (505, "HTTP Version Not Supported"); (506, "Variant Also Negotiates");
     (507, "Insufficient Storage"); (508, "Loop Detected"); (510, "Not Extended");
     (511, "Network Authentication Required")] !! code).

(** [SpanContext().TraceID()] of the active span. *)
Definition TraceIDFromContext (ctx : context) : string :=
  let tid := sc_traceID (SpanContextFromContext ctx) in if TraceID_IsValid tid then TraceID_String tid else "".

Definition defaultedOTelSampleRatio (o : ObservabilityConfig) : SpecFloat.spec_float :=
  default defaultOTelSampleRatio (o_OTelSampleRatio o).
Definition sampler (o : Observability) : ratioSampler := TraceIDRatioBased (defaultedOTelSampleRatio (ob_config o)).

(** [propagator.Extract]: a context without a valid span context stays. *)
Definition Extract `{Carrier C} (ctx : context) (carrier : C) : context :=
  let sc := extract carrier in if negb (IsValid sc) then ctx else ContextWithRemoteSpanContext sc.

Section spans.
Context `{Unicode} {G : Type} `{IDGenerator G}.

Definition ExtractHTTPContext (o : option Observability) (ctx : context) (h : option header) : context :=
  match o, h with
  | Some _, Some h => Extract (H := HeaderCarrier) ctx h
  | _, _ => ctx
  end.
Definition ExtractGRPCContext (o : option Observability) (ctx : context) (md : option MD) : context :=
  match o, md with
  | Some _, Some md => Extract (H := grpcMetadataCarrier) ctx md
  | _, _ => ctx
  end.
Definition InjectHTTPTraceContext (o : option Observability) (ctx : context) : option header -> option header :=
  telemetry.InjectHTTPTraceContext o (Inject (H := HeaderCarrier) (SpanContextFromContext ctx)) (TraceIDFromContext ctx).
Definition InjectGRPCTraceContext (o : option Observability) (ctx : context) : option MD -> option MD :=
  telemetry.InjectGRPCTraceContext o (Inject (H := grpcMetadataCarrier) (SpanContextFromContext ctx)) (TraceIDFromContext ctx).

(** The context and its span; both are the context's own without tracing. *)
Definition StartSpanWithKind (o : option Observability) (ctx : context) (name : string) (kind : SpanKind)
    (attrs : list Attr) (w : world G) : context * context * world G :=
  match o with
  | Some ob =>
      if negb (traceSpansEnabled o) then (ctx, ctx, w)
      else let '(s, w) := Start (sampler ob) ctx name kind attrs w in (s, s, w)
  | None => (ctx, ctx, w)
  end.
Definition StartSpan (o : option Observability) (ctx : context) (name : string) (attrs : list Attr) (w : world G)
    : context * context * world G :=
  StartSpanWithKind o ctx name SpanKindInternal attrs w.
Definition RecordSpanError (s : context) (err : option error) (w : world G) : world G :=
  match s, err with
  | Some _, Some err => SetStatusError s (Error err) (RecordError s err w)
  | _, _ => w
  end.
Definition EndSpan (s : context) (err : option error) (w : world G) : world G :=
  match s with
  | Some _ => End_ s (match err with Some _ => RecordSpanError s err w | None => w end)
  | None => w
  end.

(** *** HTTP *)

(** [startHTTPObservation] up to the trace id, and the function it returns. *)
Definition startHTTPObservation (o : option Observability) (request : httpRequestContext) (ctx : context)
    (h : header) (w : world G) : context * string * context * world G :=
  match o with
  | None => (ctx, "", None, w)
  | Some _ =>
      let requestCtx := ExtractHTTPContext o ctx (Some h) in
      let '(requestCtx, span, w) :=
        StartSpanWithKind o requestCtx ("HTTP " +:+ c_method request) SpanKindServer
          [(LabelProtocol, StringValue "http"); (LabelMethod, StringValue (c_method request));
           ("url.path", StringValue (c_path request)); ("client.address", StringValue (c_remoteAddr request));
           ("doppelgaenger.request_id", Int64Value (i64 (c_reqID request)))] w in
      (requestCtx, TraceIDFromContext requestCtx, span, w)
  end.
Definition finishHTTPObservation (o : option Observability) (span : context) (status : Z)
    (outcome shadow shadowStarted : string) (spanErr : option error) (w : world G) : world G :=
  match o with
  | None => w
  | Some _ =>
      let w := SetAttributes span [("http.response.status_code", Int64Value status);
        (LabelOutcome, StringValue outcome); (LabelShadow, StringValue shadow);
        (LabelShadowStarted, StringValue shadowStarted)] w in
      let w := if 500 <=? status then SetStatusError span (StatusText status) w else w in
      EndSpan span spanErr w
  end.

(** [requester.startBackendSpan], [setBackendSpanAttributes] and
    [finishBackendObservation] of a requester of a kind. *)
Definition startBackendSpan (o : option Observability) (kind : Kind) (item : Selectors.Request) (ctx : context) (w : world G)
    : context * context * world G :=
  match o with
  | None => (ctx, None, w)
  | Some _ =>
      StartSpanWithKind o ctx ("HTTP " +:+ Selectors.rq_Method item +:+ " " +:+ kind) SpanKindClient
        [(LabelProtocol, StringValue "http"); (LabelTarget, StringValue kind);
         ("http.request.method", StringValue (Selectors.rq_Method item));
         ("doppelgaenger.request_id", Int64Value (i64 (Selectors.rq_RequestID item)))] w
  end.
Definition setBackendSpanAttributes (span : context) (hostname port scheme escapedPath : string) (w : world G) : world G :=
  SetAttributes span [("server.address", StringValue hostname); ("server.port", StringValue port);
    ("url.scheme", StringValue scheme); ("url.path", StringValue escapedPath)] w.
Definition finishBackendObservation (o : option Observability) (span : context)
    (b : backend.backendObservation) (w : world G) : world G :=
  match o with
  | None => w
  | Some _ =>
      let status := backend.bo_statusCode b in
      let w := SetAttributes span [("http.response.status_code", Int64Value status);
        (LabelStatus, StringValue (backend.bo_status b)); (LabelResult, StringValue (backend.bo_result b))] w in
      let w := if 500 <=? status then SetStatusError span (StatusText status) w else w in
      EndSpan span (backend.bo_err b) w
  end.
End spans.
End spans.

(** ** gRPC *)

Module rpcspans.
Import trace propagation logging telemetry tracer carriers config targets grpcreport.

Definition callerLookupAttribute : string := "doppelgaenger.caller_auth.introspection".

Section rpc.
Context `{Unicode} {G : Type} `{IDGenerator G}.

Definition rpcAttrs (fullMethod : string) : list Attr :=
  [(LabelMethod, StringValue fullMethod); ("rpc.system", StringValue "grpc"); ("rpc.method", StringValue fullMethod)].

(** [startGRPCObservation] up to the trace id; [incoming] is the incoming
    metadata of the context. *)
Definition startGRPCObservation (o : option Observability) (rpcCtx : grpcRPCContext) (ctx : context)
    (incoming : option MD) (w : world G) : context * string * context * world G :=
  match o with
  | None => (ctx, "", None, w)
  | Some _ =>
      let requestCtx := spans.ExtractGRPCContext o ctx incoming in
      let '(requestCtx, span, w) :=
        spans.StartSpanWithKind o requestCtx ("gRPC " +:+ rx_fullMethod rpcCtx) SpanKindServer
          ((LabelProtocol, StringValue ProtocolName) :: rpcAttrs (rx_fullMethod rpcCtx) ++
           [("client.address", StringValue (rx_remote rpcCtx));
            ("doppelgaenger.request_id", Int64Value (i64 (rx_reqID rpcCtx)))])%list w in
      (requestCtx, spans.TraceIDFromContext requestCtx, span, w)
  end.

Definition backendAttrs (targetLabel fullMethod : string) (target : option Target) : list Attr :=
  ((LabelProtocol, StringValue ProtocolName) :: (LabelTarget, StringValue targetLabel) :: rpcAttrs fullMethod ++
   [("server.address", StringValue (match target with Some t => t_Address t | None => "" end))])%list.
Definition startBackendSpan (o : option Observability) (targetLabel fullMethod : string) (target : option Target)
    (ctx : context) (w : world G) : context * context * world G :=
  match o with
  | None => (ctx, None, w)
  | Some _ =>
      spans.StartSpanWithKind o ctx ("gRPC " +:+ targetLabel +:+ " " +:+ fullMethod) SpanKindClient
        (backendAttrs targetLabel fullMethod target) w
  end.
Definition startShadowBackendSpan (o : option Observability) (fullMethod : string) (target : option Target)
    (ctx : context) (w : world G) : context * context * world G :=
  match o with
  | None => (ctx, None, w)
  | Some _ =>
      spans.StartSpanWithKind o ctx ("gRPC shadow " +:+ fullMethod) SpanKindClient
        (backendAttrs "shadow" fullMethod target) w
  end.

(** The end of a span as it is reported: attributes, status, error. *)
Definition endReported (span : context) (attrs : list Attr) (status : option string) (err : option string) (w : world G)
    : world G :=
  let w := SetAttributes span attrs w in
  let w := match status with Some description => SetStatusError span description w | None => w end in
  spans.EndSpan span (errors_New <$> err) w.
Definition report (span : context) (r : observation) (w : world G) : world G :=
  match r with EndSpan _ attrs status err => endReported span attrs status err w | _ => w end.
(** The functions [startGRPCObservation] returns, [finishBackendObservation]
    and [finishSpan], on the span they were started with. *)
Definition finishGRPC (o : option Observability) (span : context) (r : grpcRPCContext) (w : world G) : world G :=
  foldl (fun w r => report span r w) w (finishGRPCObservation (bool_decide (is_Some o)) r).
Definition finishBackend (o : option Observability) (span : context) (targetLabel fullMethod : string)
    (result : grpcstream.grpcStreamResult) (err : option error) (w : world G) : world G :=
  foldl (fun w r => report span r w) w
    (finishBackendObservation (bool_decide (is_Some o)) targetLabel fullMethod result err).

(** The span of an introspection flight; with tracing disabled it is the
    caller's own, and is not ended here. *)
Definition startIntrospection (o : option Observability) (ctx : context) (w : world G)
    : context * context * bool * world G :=
  let parent := SpanContextFromContext ctx in
  let '(ctx, span, w) := spans.StartSpanWithKind o ctx "gRPC caller introspection" SpanKindClient [] w in
  let sc := SpanContextFromContext span in
  (ctx, span, IsValid sc && bool_decide (sc_spanID sc <> sc_spanID parent), w).
(** The span context of the result; [cause] is that of the error. *)
Definition finishIntrospection (span : context) (created : bool) (err : option error) (cause : string) (w : world G)
    : SpanContext * world G :=
  if negb created then (emptySpanContext, w)
  else
    let w := match err with
             | Some _ => SetAttributes span [(callerAuthCauseAttribute, StringValue cause)] w
             | None => w
             end in
    (SpanContextFromContext span, spans.EndSpan span err w).
Definition recordCallerLookup (ctx : context) (result : string) (introspection : SpanContext) (w : world G) : world G :=
  let w := SetAttributes ctx [(callerLookupAttribute, StringValue result)] w in
  if IsValid introspection && bool_decide (sc_spanID introspection <> sc_spanID (SpanContextFromContext ctx))
  then AddLink ctx introspection w else w.
End rpc.
End rpcspans.

(** ** Milter *)

Module milterspans.
Import trace logging telemetry tracer config.

Section milter.
Context {G : Type} `{IDGenerator G}.

Definition startFrameSpan (o : option Observability) (ctx : context) (reqID : Z) (command : string) (w : world G)
    : context * context * world G :=
  match o with
  | None => (ctx, None, w)
  | Some _ =>
      spans.StartSpanWithKind o ctx (protocolMilter +:+ " " +:+ command) SpanKindServer
        [(LabelProtocol, StringValue protocolMilter); (LabelMethod, StringValue command);
         ("doppelgaenger.request_id", Int64Value (i64 reqID))] w
  end.
Definition startDialSpan (o : option Observability) (ctx : context) (target addr : string) (w : world G)
    : context * context * world G :=
  match o with
  | None => (ctx, None, w)
  | Some _ =>
      spans.StartSpanWithKind o ctx ("milter " +:+ target +:+ " connect") SpanKindClient
        [(LabelProtocol, StringValue protocolMilter); (LabelTarget, StringValue target);
         (LabelMethod, StringValue "connect"); ("server.address", StringValue addr)] w
  end.
(** The span of a session's [Send]. *)
Definition startSendSpan (o : option Observability) (ctx : context) (target command : string) (w : world G)
    : context * context * world G :=
  match o with
  | None => (ctx, None, w)
  | Some _ =>
      spans.StartSpanWithKind o ctx ("milter " +:+ target +:+ " " +:+ command) SpanKindClient
        [(LabelProtocol, StringValue protocolMilter); (LabelTarget, StringValue target);
         (LabelMethod, StringValue command)] w
  end.
(** The span part of [finishDialObservation], of [finishFrame] and of the
    session's [finishObservation]. *)
Definition finishObservation (o : option Observability) (span : context) (err : option error) (w : world G) : world G :=
  match o with None => w | Some _ => spans.EndSpan span err w end.
End milter.
End milterspans.

(** ** Traces continue through the proxy *)

Module continuation.
Import trace propagation logging telemetry tracer carriers config spans.

(** *** Span contexts *)

(** A context as the handlers have it: its trace id is set exactly when the
    span context is valid. *)
Definition context_ok (ctx : context) : Prop :=
  spanContext_ok (SpanContextFromContext ctx) /\
  IsValid (SpanContextFromContext ctx) = TraceID_IsValid (sc_traceID (SpanContextFromContext ctx)).

Lemma emptySpanContext_ok : spanContext_ok emptySpanContext.
Proof. split; [by vm_compute..| |]; cbn; [lia|]. split_and!; [constructor|constructor|cbn; lia]. Qed.
Lemma background_ok : context_ok None.
Proof. split; [apply emptySpanContext_ok|by vm_compute]. Qed.

Lemma extract_invalid `{Carrier C} (carrier : C) : IsValid (extract carrier) = false -> extract carrier = emptySpanContext.
Proof.
  unfold extract. destruct (decide _); [done|].
  destruct (extractPart _ 2) as [[ver h1]|]; [|done]. cbn [mbind option_bind].
  destruct (maxVersion <? byte0 ver); [done|].
  destruct (extractPart h1 32) as [[traceID h2]|]; [|done]. cbn [mbind option_bind].
  destruct (extractPart h2 16) as [[spanID h3]|]; [|done]. cbn [mbind option_bind].
  destruct (extractPart h3 2) as [[opts h4]|]; [|done]. cbn [mbind option_bind].
  destruct (_ && _); [done|]. cbv zeta. destruct (IsValid {| sc_traceID := _ |}) eqn:E; [|done]. cbn. by rewrite E.
Qed.

Lemma Extract_ok `{Carrier C} (carrier : C) :
  context_ok (Extract None carrier) /\
  sc_traceID (SpanContextFromContext (Extract None carrier)) = sc_traceID (extract carrier) /\
  SpanContextFromContext (Extract None carrier) = extract carrier.
Proof.
  unfold Extract. destruct (IsValid (extract carrier)) eqn:E; cbn [negb].
  - destruct (extract_ok carrier E) as [Hok Hr].
    assert (SpanContextFromContext (ContextWithRemoteSpanContext (extract carrier)) = extract carrier) as Es.
    { revert Hr. clear. destruct (extract carrier). cbn. by intros ->. }
    unfold context_ok. rewrite !Es. split_and!; [done| |done|done]. rewrite E.
    unfold IsValid in E. by apply andb_true_iff in E as [-> _].
  - rewrite (extract_invalid carrier E). split_and!; [apply background_ok|done|done].
Qed.

Lemma land_FlagsSampled f : Z.land f FlagsSampled = f mod 2.
Proof. change FlagsSampled with (Z.ones 1). by rewrite Z.land_ones. Qed.
Lemma flags_range f : 0 <= f < 256 ->
  0 <= Z.lor f FlagsSampled < 256 /\ 0 <= Z.ldiff f FlagsSampled < 256.
Proof.
  intros Hf. pose proof (Z.add_lor_land f FlagsSampled) as E. pose proof (Z.ldiff_ones_r f 1) as Ed.
  rewrite land_FlagsSampled in E. change (Z.ones 1) with FlagsSampled in Ed.
  rewrite Z.shiftr_div_pow2, Z.shiftl_mul_pow2 in Ed by lia. change (2 ^ 1) with 2 in Ed. unfold FlagsSampled in *.
  pose proof (Z.mod_pos_bound f 2). pose proof (Z.div_mod f 2). lia.
Qed.
Lemma flags_set f :
  IsSampled (Z.lor f FlagsSampled) = true /\ IsSampled (Z.ldiff f FlagsSampled) = false.
Proof.
  unfold IsSampled. rewrite Z.land_ldiff. split; [|done]. apply Z.eqb_eq, Z.bits_inj'. intros n _.
  rewrite Z.land_spec, Z.lor_spec. by destruct (Z.testbit f n), (Z.testbit FlagsSampled n).
Qed.
Lemma flags_kept f :
  (if IsSampled f then Z.lor f FlagsSampled else Z.ldiff f FlagsSampled) = f.
Proof.
  unfold IsSampled. pose proof (Z.lor_ldiff_and f FlagsSampled) as E. pose proof (land_FlagsSampled f) as El.
  destruct (Z.eqb_spec (Z.land f FlagsSampled) FlagsSampled) as [H1|H1].
  - rewrite H1 in E. rewrite <- E at 1. rewrite <- Z.lor_assoc, Z.lor_diag. exact E.
  - assert (Z.land f FlagsSampled = 0) as H0.
    { unfold FlagsSampled in *. pose proof (Z.mod_pos_bound f 2). lia. }
    rewrite H0, Z.lor_0_r in E. exact E.
Qed.

Section spans.
Context {G : Type} `{IDGenerator G} `{!IDGeneratorOk G}.

(** What a context hands on of its parent [psc]. *)
Definition inherits (psc sc : SpanContext) : Prop :=
  (IsValid psc = true -> sc_traceID sc = sc_traceID psc) /\
  sc_traceState sc = sc_traceState psc /\
  (IsValid psc = true -> sc_traceFlags sc = sc_traceFlags psc).
#[export] Instance inherits_refl : Reflexive inherits.
Proof. by intros sc. Qed.

(** The events are of spans that were started. *)
Definition number (e : spanEvent) : nat :=
  match e with
  | Started n _ _ _ _ _ | AttributesSet n _ | StatusSet n _ | ErrorRecorded n _ | LinkAdded n _ | Ended n => n
  end.
Definition world_ok (w : world G) : Prop := Forall (fun e => (number e < wd_next w)%nat) (wd_events w).

(** What starting a span under [ctx] leaves: a new span of the trace of [ctx],
    and its start among the events when it records. *)
Definition newborn (ctx : context) (name : string) (kind : SpanKind) (s : context) (w w' : world G) : Prop :=
  let psc := SpanContextFromContext ctx in
  let sc := SpanContextFromContext s in
  spanContext_ok sc /\ IsValid sc = true /\ inherits psc sc /\
  sn_number <$> s = Some (wd_next w) /\ wd_next w' = S (wd_next w) /\ world_ok w' /\
  exists attrs, wd_events w' = (wd_events w ++
    (if IsSampled (sc_traceFlags sc) then [Started (wd_next w) name kind attrs sc psc] else []))%list.

Lemma newSpan_spec root ctx (w : world G) :
  context_ok ctx ->
  let '(s, w') := newSpan root ctx w in
  spanContext_ok (sn_context s) /\ IsValid (sn_context s) = true /\
  inherits (SpanContextFromContext ctx) (sn_context s) /\
  sn_number s = wd_next w /\ sn_recording s = IsSampled (sc_traceFlags (sn_context s)) /\
  wd_next w' = S (wd_next w) /\ wd_events w' = wd_events w.
Proof.
  intros [[H16 H8 Hf Hs] Hv]. unfold newSpan, ShouldSample. set (psc := SpanContextFromContext ctx) in *.
  pose proof (NewIDs_ok (wd_gen w)) as [[Ht1 Ht2] [Hs1 Hs2]].
  pose proof (NewSpanID_ok (wd_gen w) (sc_traceID psc)) as [Hn1 Hn2].
  destruct (NewIDs (wd_gen w)) as [[t i] g] eqn:EN. destruct (NewSpanID (wd_gen w) (sc_traceID psc)) as [j g'] eqn:EJ.
  cbn [fst snd] in *. rewrite Hv. unfold inherits. rewrite Hv.
  destruct (TraceID_IsValid (sc_traceID psc)) eqn:Et; cbn [negb].
  - pose proof (flags_kept (sc_traceFlags psc)) as Hkeep. destruct (IsSampled (sc_traceFlags psc)) eqn:Es; cbn;
      rewrite Hkeep; unfold IsValid; cbn; rewrite Et, Hn2; by split_and!.
  - set (d := ratio_ShouldSample _ _). unfold IsValid. cbn. rewrite Ht2, Hs2.
    split_and!; try done; [|destruct d; symmetry; apply flags_set].
    split; cbn; [done|done| |done]. by destruct d; apply flags_range.
Qed.

(** A span started under a context is one of the same trace. *)
Lemma Start_spec root ctx name kind attrs (w : world G) :
  context_ok ctx -> world_ok w ->
  let '(s, w') := Start root ctx name kind attrs w in newborn ctx name kind s w w'.
Proof.
  intros Hctx Hw. unfold Start. pose proof (newSpan_spec root ctx w Hctx) as Hn.
  destruct (newSpan root ctx w) as [s v]. destruct Hn as (Hok & Hv & Hi & Hnum & Hrec & Hnext & Hev).
  assert (Hfresh : existsb (ends (sn_number s)) (wd_events v) = false).
  { rewrite Hev, Hnum. apply not_true_iff_false. rewrite existsb_exists. intros (e & Hin & He).
    unfold world_ok in Hw. rewrite Forall_forall in Hw. apply list_elem_of_In, Hw in Hin. destruct e; cbn in *; try done.
    apply Nat.eqb_eq in He. lia. }
  unfold newborn, emit, isRecording. rewrite Hfresh, Hrec, andb_true_r. cbn [SpanContextFromContext fmap option_fmap option_map].
  split_and!; try done; [by rewrite Hnum|by destruct (IsSampled _)| |exists attrs].
  - unfold world_ok in *. destruct (IsSampled _); cbn [wd_next wd_events]; rewrite Hnext, ?Hev.
    + apply Forall_app. split; [|apply Forall_singleton; cbn; lia]. eapply Forall_impl; [exact Hw|]. cbn. lia.
    + eapply Forall_impl; [exact Hw|]. cbn. lia.
  - destruct (IsSampled _); cbn [wd_events]; rewrite Hev, ?app_nil_r; [by rewrite Hnum|done].
Qed.

(** [StartSpanWithKind]: a new span, or the context as it is. *)
Definition opened (o : Observability) (ctx : context) (name : string) (kind : SpanKind) (ctx' : context) (w w' : world G) : Prop :=
  if traceSpansEnabled (Some o) then newborn ctx name kind ctx' w w' else ctx' = ctx /\ w' = w.
Lemma StartSpanWithKind_spec (o : Observability) ctx name kind attrs (w : world G) :
  context_ok ctx -> world_ok w ->
  let '(ctx', span, w') := StartSpanWithKind (Some o) ctx name kind attrs w in
  span = ctx' /\ opened o ctx name kind ctx' w w'.
Proof.
  intros Hctx Hw. unfold StartSpanWithKind, opened. destruct (traceSpansEnabled (Some o)); cbn [negb]; [|done].
  pose proof (Start_spec (sampler o) ctx name kind attrs w Hctx Hw) as Hs.
  by destruct (Start (sampler o) ctx name kind attrs w).
Qed.
Lemma opened_ok o ctx name kind ctx' (w w' : world G) :
  opened o ctx name kind ctx' w w' -> context_ok ctx ->
  context_ok ctx' /\ inherits (SpanContextFromContext ctx) (SpanContextFromContext ctx') /\
  IsValid (SpanContextFromContext ctx') = IsValid (SpanContextFromContext ctx) || traceSpansEnabled (Some o).
Proof.
  unfold opened. destruct (traceSpansEnabled (Some o)).
  - intros (Hok & Hv & Hi & _) _. rewrite orb_true_r. split_and!; [split; [done|]|done|done].
    rewrite Hv. unfold IsValid in Hv. by apply andb_true_iff in Hv as [-> _].
  - intros [-> _] Hok. by rewrite orb_false_r.
Qed.
Lemma opened_world o ctx name kind ctx' (w w' : world G) :
  opened o ctx name kind ctx' w w' -> world_ok w -> world_ok w'.
Proof. unfold opened. destruct (traceSpansEnabled (Some o)); [by intros (_ & _ & _ & _ & _ & ? & _)|by intros [_ ->]]. Qed.
End spans.

(** *** What the next hop reads *)

(** The span context [got] is the one of [ctx]: its trace id is [traceID] in
    hexadecimal, and it goes on with [incoming] if that is valid. *)
Definition continues (incoming : SpanContext) (traceID : string) (ctx : context) (got : SpanContext) : Prop :=
  IsValid got = true /\ sc_remote got = true /\ TraceID_String (sc_traceID got) = traceID /\
  sc_spanID got = sc_spanID (SpanContextFromContext ctx) /\
  (IsValid incoming = true -> sc_traceID got = sc_traceID incoming /\ sc_traceFlags got = sc_traceFlags incoming /\
     (sc_traceState incoming <> [] -> sc_traceState got = sc_traceState incoming)).

Lemma extract_flags `{Carrier C} (carrier : C) :
  specFlags (sc_traceFlags (extract carrier)) = sc_traceFlags (extract carrier).
Proof.
  unfold extract. destruct (decide _); [done|].
  destruct (extractPart _ 2) as [[ver h1]|]; [|done]. cbn [mbind option_bind].
  destruct (maxVersion <? byte0 ver); [done|].
  destruct (extractPart h1 32) as [[traceID h2]|]; [|done]. cbn [mbind option_bind].
  destruct (extractPart h2 16) as [[spanID h3]|]; [|done]. cbn [mbind option_bind].
  destruct (extractPart h3 2) as [[opts h4]|]; [|done]. cbn [mbind option_bind].
  destruct (_ && _); [done|]. cbv zeta. destruct (IsValid {| sc_traceID := _ |}) eqn:E; [|done]. cbn. apply specFlags_idemp.
Qed.

(** A carrier that keeps what was injected reads as the context. *)
Definition keeps `{Carrier C} (c c' : C) : Prop :=
  forall k, k ∈ [traceparentHeader; tracestateHeader] -> carrier_get c k <> "" -> carrier_get c' k = carrier_get c k.
Lemma hop `{CarrierOk C} (incoming : C) (ctx : context) (sent received : C) :
  context_ok ctx -> IsValid (SpanContextFromContext ctx) = true ->
  inherits (extract incoming) (SpanContextFromContext ctx) ->
  keeps (Inject (SpanContextFromContext ctx) sent) received ->
  continues (extract incoming) (TraceIDFromContext ctx) ctx (extract received).
Proof.
  intros [Hok Hsame] Hv (Ht & Hs & Hf) Hk. set (sc := SpanContextFromContext ctx) in *.
  destruct (traceparent_get sc sent Hok Hv) as [Hp Hst]. pose proof Hv as Hv'. unfold IsValid in Hv'.
  apply andb_true_iff in Hv' as [Htid Hsid].
  rewrite (extract_traceparent sc received Hok Hv) by (rewrite Hk; [done|by left|by rewrite Hp]).
  unfold continues, readWith, TraceIDFromContext. fold sc. cbn [sc_traceID sc_spanID sc_traceFlags sc_traceState sc_remote].
  rewrite Htid. split_and!; [unfold IsValid; cbn; by rewrite Htid, Hsid|done|done|done|].
  intros Hin. split_and!; [by apply Ht|rewrite (Hf Hin); apply extract_flags|].
  intros Hne. rewrite <- Hs in Hne |- *. unfold Inject in Hk. rewrite Hv in Hk. cbn [negb] in Hk.
  pose proof (TraceState_String_empty _ (ok_state _ Hok)) as He.
  rewrite decide_False in Hk by (rewrite He; done).
  specialize (Hk tracestateHeader ltac:(right; by left)).
  rewrite get_set_ne, get_set_eq in Hk by (by repeat first [left|right]).
  rewrite Hk by (rewrite He; done). by rewrite ParseTraceState_String by apply Hok.
Qed.

(** What is handed on for [sent]: a context that is not valid changes
    nothing. *)
Definition handed `{Carrier C} (incoming : SpanContext) (ctx : context) (sent received : C) : Prop :=
  if IsValid (SpanContextFromContext ctx) then continues incoming (TraceIDFromContext ctx) ctx (extract received)
  else received = sent /\ TraceIDFromContext ctx = "".
Lemma hop_injected `{CarrierOk C} (client : C) (ctx : context) (sent received : C) :
  context_ok ctx -> inherits (extract client) (SpanContextFromContext ctx) ->
  keeps (Inject (SpanContextFromContext ctx) sent) received ->
  (TraceIDFromContext ctx = "" -> received = Inject (SpanContextFromContext ctx) sent) ->
  handed (extract client) ctx sent received.
Proof.
  intros Hctx Hi Hk Hsame. unfold handed. destruct (IsValid (SpanContextFromContext ctx)) eqn:Hv; [by eapply hop|].
  destruct Hctx as [_ Hc]. rewrite Hv in Hc. unfold TraceIDFromContext in *. rewrite <- Hc in *. split; [|done].
  rewrite Hsame by done. unfold Inject. by rewrite Hv.
Qed.

(** *** The trace-id header *)

Section carriers.
Context `{Unicode}.

Lemma SetTraceIDHeader_keeps (o : Observability) traceID h :
  exists h', SetTraceIDHeader (Some o) traceID (Some h) = Some h' /\ keeps (H := HeaderCarrier) h h' /\
    (traceID = "" -> h' = h).
Proof.
  unfold SetTraceIDHeader, keeps. destruct (decide (o_TraceIDHeader (ob_config o) = "")) as [|Hn]; [by eauto|].
  set (name := o_TraceIDHeader (ob_config o)) in *.
  destruct (decide (Get h name <> "")) as [|Hg]; [by eauto|]. destruct (decide (traceID <> "")) as [Ht|Ht]; [|by eauto].
  eexists. split_and!; [done| |done]. cbn. intros k _ Hk.
  destruct (decide (CanonicalHeaderKey name = CanonicalHeaderKey k)) as [E|E]; [|by apply Get_Set_ne].
  exfalso. apply Hg. unfold Get, Values in *. by rewrite E.
Qed.

Lemma SetGRPCTraceIDMetadata_keeps (o : Observability) traceID md :
  exists md', SetGRPCTraceIDMetadata (Some o) traceID (Some md) = Some md' /\ keeps (H := grpcMetadataCarrier) md md' /\
    (traceID = "" -> md' = md).
Proof.
  unfold SetGRPCTraceIDMetadata, keeps. destruct (decide (o_TraceIDHeader (ob_config o) = "")) as [|Hn]; [by eauto|].
  set (key := grpcTraceIDMetadataKey _). destruct (bool_decide (key = "")); [by eauto|]. cbn [orb].
  destruct (bool_decide_reflect (grpcmetadata.md_Get md key <> [])) as [|Hg]; [by eauto|].
  destruct (decide (traceID <> "")) as [Ht|Ht]; [|by eauto].
  eexists. split_and!; [done| |done]. cbn. unfold carrier_Get, grpcmetadata.md_Get, grpcmetadata.md_Set in *.
  intros k Hk Hne. destruct (metadata_keys k Hk) as (E1 & _ & _). rewrite !E1 in *.
  destruct (decide (ToLower key = k)) as [E|E]; [|by rewrite lookup_insert_ne].
  exfalso. rewrite E in Hg. apply Hne. by destruct (md !! k) as [[|]|] eqn:Em; cbn in Hg; [|contradict Hg|].
Qed.

Lemma hop_http (o : Observability) client ctx sent :
  context_ok ctx -> inherits (extract (H := HeaderCarrier) client) (SpanContextFromContext ctx) ->
  exists received, InjectHTTPTraceContext (Some o) ctx (Some sent) = Some received /\
    handed (H := HeaderCarrier) (extract (H := HeaderCarrier) client) ctx sent received.
Proof.
  intros Hctx Hi. unfold InjectHTTPTraceContext, telemetry.InjectHTTPTraceContext.
  destruct (SetTraceIDHeader_keeps o (TraceIDFromContext ctx) (Inject (H := HeaderCarrier) (SpanContextFromContext ctx) sent))
    as (h' & -> & Hk & Hsame). exists h'. split; [done|]. by eapply (hop_injected (H0 := HeaderCarrier_ok)).
Qed.
Lemma hop_grpc (o : Observability) client ctx sent :
  context_ok ctx -> inherits (extract (H := grpcMetadataCarrier) client) (SpanContextFromContext ctx) ->
  exists received, InjectGRPCTraceContext (Some o) ctx (Some sent) = Some received /\
    handed (H := grpcMetadataCarrier) (extract (H := grpcMetadataCarrier) client) ctx sent received.
Proof.
  intros Hctx Hi. unfold InjectGRPCTraceContext, telemetry.InjectGRPCTraceContext.
  destruct (SetGRPCTraceIDMetadata_keeps o (TraceIDFromContext ctx) (Inject (H := grpcMetadataCarrier) (SpanContextFromContext ctx) sent))
    as (h' & -> & Hk & Hsame). exists h'. split; [done|]. by eapply (hop_injected (H0 := grpcMetadataCarrier_ok)).
Qed.
End carriers.

(** *** From the client's request to a backend's *)

Section traces.
Context `{Unicode} {G : Type} `{IDGenerator G} `{!IDGeneratorOk G}.

Lemma inherits_trans a b c :
  inherits a b -> inherits b c -> (IsValid a = true -> IsValid b = true) -> inherits a c.
Proof.
  intros (E1 & E2 & E3) (F1 & F2 & F3) Hv. split_and!.
  - intros Ha. by rewrite F1, E1 by auto.
  - by rewrite F2, E2.
  - intros Ha. by rewrite F3, E3 by auto.
Qed.

(** The next span that is started, and what is left of it. *)
Ltac start_span ctx span w Hspan :=
  match goal with
  | |- context [StartSpanWithKind (Some ?o) ?c ?n ?k ?a ?v] =>
      assert (let '(ctx', span, w') := StartSpanWithKind (Some o) c n k a v in span = ctx' /\ opened o c n k ctx' v w')
        as Hspan; [apply StartSpanWithKind_spec|
        destruct (StartSpanWithKind (Some o) c n k a v) as [[ctx span] w]; destruct Hspan as [-> Hspan]]
  end.

(** Two spans in a row: of the request, and of a backend. *)
Lemma request_to_backend {C} `{Carrier C} o (client : C) n1 k1 n2 k2 requestCtx ctx (w w1 w' w2 : world G) :
  opened o (Extract None client) n1 k1 requestCtx w w1 -> opened o requestCtx n2 k2 ctx w' w2 ->
  context_ok ctx /\ inherits (extract client) (SpanContextFromContext ctx) /\
  TraceIDFromContext requestCtx = TraceIDFromContext ctx /\
  IsValid (SpanContextFromContext ctx) = IsValid (extract client) || traceSpansEnabled (Some o).
Proof.
  intros E1 E2. destruct (Extract_ok client) as (Hok0 & _ & Esc).
  destruct (opened_ok _ _ _ _ _ _ _ E1 Hok0) as (Hok1 & Hi1 & Hv1).
  destruct (opened_ok _ _ _ _ _ _ _ E2 Hok1) as (Hok2 & Hi2 & Hv2). rewrite Esc in Hi1, Hv1.
  assert (Hv : IsValid (extract client) = true -> IsValid (SpanContextFromContext requestCtx) = true).
  { intros Ev. by rewrite Hv1, Ev. }
  split_and!; [done|by eapply inherits_trans| |].
  - destruct (IsValid (SpanContextFromContext requestCtx)) eqn:Ev.
    + unfold TraceIDFromContext. destruct Hi2 as (-> & _ & _); [done|]. done.
    + symmetry in Hv1. apply orb_false_iff in Hv1 as [_ He]. unfold opened in E2. rewrite He in E2. by destruct E2 as [-> _].
  - rewrite Hv2, Hv1. by destruct (IsValid (extract client)), (traceSpansEnabled (Some o)).
Qed.


(** C11. A trace goes on through the gRPC proxy, to the primary and to the
    shadow alike: the span of the RPC is started under the client's span, the
    span of each backend under that one, and what a backend reads of its
    metadata is the span context of its own stream, with the trace, flags and
    trace state of a client that sent them.  With tracing disabled the client's
    span is handed on as it came, or nothing. *)
Theorem grpc_trace_continues (o : Observability) rpcCtx incomingMD target (w w' : world G) label start :
  world_ok w -> world_ok w' ->
  (label, start) ∈ [("primary", rpcspans.startBackendSpan (Some o) "primary"); ("shadow", rpcspans.startShadowBackendSpan (Some o))] ->
  let fullMethod := grpcreport.rx_fullMethod rpcCtx in
  let incoming := extract (H := grpcMetadataCarrier) incomingMD in
  let '(requestCtx, traceID, server, w1) := rpcspans.startGRPCObservation (Some o) rpcCtx None (Some incomingMD) w in
  let '(ctx, span, w2) := start fullMethod target requestCtx w' in
  server = requestCtx /\ span = ctx /\
  opened o (Extract (H := grpcMetadataCarrier) None incomingMD) ("gRPC " +:+ fullMethod) SpanKindServer requestCtx w w1 /\
  opened o requestCtx ("gRPC " +:+ label +:+ " " +:+ fullMethod) SpanKindClient ctx w' w2 /\
  forall range overlay,
    let inject md := default md (InjectGRPCTraceContext (Some o) ctx (Some md)) in
    let out := grpcmetadata.outgoingMetadata inject range overlay in
    if IsValid incoming || traceSpansEnabled (Some o)
    then continues incoming traceID ctx (extract (H := grpcMetadataCarrier) out)
    else out = grpcmetadata.outgoingMetadata id range overlay /\ traceID = "".
Proof.
  intros Hw Hw' Hin. unfold rpcspans.startGRPCObservation. cbn [ExtractGRPCContext].
  destruct (Extract_ok (H := grpcMetadataCarrier) incomingMD) as (Hok0 & _ & _).
  start_span requestCtx server w1 E1; [done..|]. destruct (opened_ok _ _ _ _ _ _ _ E1 Hok0) as (Hok1 & _).
  set (fullMethod := grpcreport.rx_fullMethod rpcCtx) in *.
  assert (let '(ctx', sp, w2) := start fullMethod target requestCtx w' in
    sp = ctx' /\ opened o requestCtx ("gRPC " +:+ label +:+ " " +:+ fullMethod) SpanKindClient ctx' w' w2) as E2.
  { apply elem_of_cons in Hin as [[= -> ->]|[= -> ->]%list_elem_of_singleton]; by apply StartSpanWithKind_spec. }
  destruct (start fullMethod target requestCtx w') as [[ctx sp] w2]. destruct E2 as [-> E2].
  set (inject := InjectGRPCTraceContext (Some o) ctx). split_and!; [done..|]. intros range overlay. unfold grpcmetadata.outgoingMetadata.
  destruct (request_to_backend (H1 := grpcMetadataCarrier) _ _ _ _ _ _ _ _ _ _ _ _ E1 E2) as (Hok2 & Hi & -> & Hv).
  set (sent := foldl _ _ _).
  destruct (hop_grpc o incomingMD ctx sent Hok2 Hi) as (received & Er & Hh).
  fold inject in Er. rewrite Er. unfold handed in Hh. by rewrite Hv in Hh.
Qed.
End traces.

(** *** Examples *)

#[local] Instance exampleIDs : IDGenerator nat := {
  NewIDs n := (bytes (replicate 15 0 ++ [1]), bytes (replicate 7 0 ++ [Z.of_nat n mod 255 + 1]), S n);
  NewSpanID n _ := (bytes (replicate 7 0 ++ [Z.of_nat n mod 255 + 1]), S n)
}.
Lemma exampleSpanID_ok n : spanID_ok (bytes (replicate 7 0 ++ [Z.of_nat n mod 255 + 1])).
Proof.
  split; [done|]. unfold SpanID_IsValid. apply bool_decide_eq_true. pose proof (Z.mod_pos_bound (Z.of_nat n) 255).
  intros E. assert (code (chr (Z.of_nat n mod 255 + 1)) = code (chr 0)) as Ec.
  { f_equal. unfold bytes, nilSpanID in E. cbn in E. by injection E. }
  rewrite !code_chr in Ec by lia. lia.
Qed.
#[local] Instance exampleIDs_ok : IDGeneratorOk nat.
Proof. split; [|intros; apply exampleSpanID_ok]. intros n. split; [by vm_compute|apply exampleSpanID_ok]. Qed.

Definition exampleWorld : world nat := {| wd_gen := 0%nat; wd_next := 0; wd_events := [] |}.
Definition exampleObservability (enabled : bool) : Observability := {|
  ob_config := {|
    o_PrometheusEnabled := false; o_PrometheusAddress := ""; o_PrometheusPort := 9464; o_PrometheusPath := "";
    o_PrometheusRuntimeMetrics := false; o_PrometheusHTTPAuthBasic := "";
    o_PrometheusTLS := {| p_Enabled := false; p_Cert := ""; p_Key := ""; p_MinVersion := "" |};
    o_OTelEnabled := enabled; o_OTelTracesEnabled := enabled; o_OTelMetricsEnabled := false; o_OTelServiceName := "";
    o_OTelServiceVersion := ""; o_OTLPEndpoint := ""; o_OTLPHeaders := None; o_OTLPInsecure := false;
    o_OTelSampleRatio := None; o_TraceIDHeader := "X-Trace-Id" |};
  ob_metrics := None; ob_otel := None; ob_tracing := enabled
|}.
Definition exampleContext : httphandler.httpRequestContext := {|
  httphandler.c_requestFields := ("request_headers", GroupValue []); httphandler.c_requestJSONFields := None;
  httphandler.c_reqID := 1; httphandler.c_method := "GET"; httphandler.c_path := "/"; httphandler.c_rawQuery := "";
  httphandler.c_host := "h"; httphandler.c_remoteAddr := "10.0.0.1"
|}.
Definition exampleParent : string := "00-0af7651916cd43dd8448eb211c80319c-b7ad6b7169203331-01".
Definition exampleItem (h : header) : Selectors.Request := {|
  Selectors.rq_Kind := BackendPrimary; Selectors.rq_Method := "GET"; Selectors.rq_Path := "/"; Selectors.rq_RawQuery := "";
  Selectors.rq_Host := "h"; Selectors.rq_RemoteAddr := ""; Selectors.rq_Header := h; Selectors.rq_Body := "";
  Selectors.rq_RequestID := 1
|}.

Definition exampleRequester : backend.requester unit selector :=
  (backend.NewRequester BackendPrimary [backend.exampleURL] None 0 (backend.hc_Config (backend.newHTTPClient
    {| backend.DialTimeout := 0; backend.TLSHandshakeTimeout := 0; backend.ResponseHeaderTimeout := 0; backend.MaxIdleConns := 0;
       backend.MaxIdleConnsPerHost := 0; backend.MaxConnsPerHost := 0; backend.Protocol := "" |})) true).1.

(** The trace id logged and the header a backend is sent for a client's. *)
Definition exampleSent (enabled : bool) (client : header) : string * header :=
  let o := Some (exampleObservability enabled) in
  let '(requestCtx, traceID, _, _) := startHTTPObservation o exampleContext None client exampleWorld in
  let '(ctx, _, _) := startBackendSpan o BackendPrimary (exampleItem client) requestCtx exampleWorld in
  (traceID, match backend.newBackendRequest backend.u_Path backend.u_Path (fun _ _ => None)
             (fun h => default h (InjectHTTPTraceContext o ctx (Some h))) exampleRequester (exampleItem client) backend.exampleURL with
   | (Ok req, _) => backend.hr_Header req
   | (Err _, _) => client
   end).
Example exampleSent_enabled :
  Get (exampleSent true (HeaderSet ∅ traceparentHeader exampleParent)).2 traceparentHeader
    = "00-0af7651916cd43dd8448eb211c80319c-0000000000000001-01".
Proof. vm_compute. reflexivity. Qed.
Example exampleSent_disabled :
  (exampleSent false (HeaderSet ∅ traceparentHeader exampleParent)).2
    = HeaderSet (HeaderSet ∅ traceparentHeader exampleParent) "X-Trace-Id" "0af7651916cd43dd8448eb211c80319c".
Proof. vm_compute. reflexivity. Qed.

(** A client that sends a [tracestate] and no valid [traceparent]: the trace
    started for it is handed on with the client's trace state. *)
Lemma stale_tracestate :
  let client := HeaderSet (HeaderSet ∅ traceparentHeader "00-broken") tracestateHeader "vendor=1" in
  extract (H := HeaderCarrier) client = emptySpanContext /\
  sc_traceState (extract (H := HeaderCarrier) (exampleSent true client).2) = [{| Key := "vendor"; trace.Value := "1" |}].
Proof. split; vm_compute; reflexivity. Qed.


Definition exampleRPC : grpcreport.grpcRPCContext := {|
  grpcreport.rx_requestFields := ("request_metadata", GroupValue []); grpcreport.rx_requestProtobuf := None;
  grpcreport.rx_responseProtobuf := None; grpcreport.rx_reqID := 1; grpcreport.rx_traceID := ""; grpcreport.rx_remote := "";
  grpcreport.rx_fullMethod := "/s/m"; grpcreport.rx_outcome := OutcomeOK; grpcreport.rx_spanErr := None;
  grpcreport.rx_primaryStatus := 0; grpcreport.rx_callerAuthCause := ""; grpcreport.rx_shadowEnabled := false;
  grpcreport.rx_shadowStarted := false |}.
Definition exampleShadowMD (incoming : MD) : string * MD :=
  let o := Some (exampleObservability true) in
  let '(requestCtx, traceID, _, _) := rpcspans.startGRPCObservation (H := asciiUnicode) o exampleRPC None (Some incoming) exampleWorld in
  let '(ctx, _, _) := rpcspans.startShadowBackendSpan o "/s/m" None requestCtx exampleWorld in
  (traceID, grpcmetadata.outgoingMetadata (H := asciiUnicode)
     (fun md => default md (InjectGRPCTraceContext (H := asciiUnicode) o ctx (Some md))) (map_to_list incoming) []).

Lemma grpc_trace_continues_witness :
  let incoming : MD := {[traceparentHeader := [exampleParent]]} in
  let '(traceID, md) := exampleShadowMD incoming in
  sc_traceID (extract (H := grpcMetadataCarrier (H := asciiUnicode)) md)
    = sc_traceID (extract (H := grpcMetadataCarrier (H := asciiUnicode)) incoming) /\
  TraceID_String (sc_traceID (extract (H := grpcMetadataCarrier (H := asciiUnicode)) md)) = traceID.
Proof.
  intros incoming.
  assert (IsValid (extract (H := grpcMetadataCarrier (H := asciiUnicode)) incoming) = true) as Ev by (vm_compute; reflexivity).
  pose proof (grpc_trace_continues (H := asciiUnicode) (exampleObservability true) exampleRPC incoming None exampleWorld exampleWorld
    "shadow" (rpcspans.startShadowBackendSpan (Some (exampleObservability true))) (Forall_nil_2 _) (Forall_nil_2 _)
    ltac:(right; left)) as Ht.
  unfold exampleShadowMD. cbv zeta in Ht |- *. change (grpcreport.rx_fullMethod exampleRPC) with "/s/m" in Ht.
  destruct (rpcspans.startGRPCObservation _ _ _ _ _) as [[[requestCtx traceID] server] w1].
  destruct (rpcspans.startShadowBackendSpan _ _ _ _ _) as [[ctx sp] w2]. destruct Ht as (_ & _ & _ & _ & Ht).
  specialize (Ht (map_to_list incoming) []). rewrite Ev in Ht. destruct Ht as (_ & _ & Hlog & _ & Hin).
  split; [apply (Hin Ev)|exact Hlog].
Defined.
End continuation.
