(* ===== verification/FakeGrpc.v ===== *)
(** * [cmd/fakegrpcserver] and [cmd/grpcprobe]: a gRPC backend and a client

    A stream answers with a script, as in GrpcStream.v; a handler gives the list
    of its calls on the stream.  The flags and the mains are in TestMains.v; files
    and sockets are parameters, durations are parsed by one. *)
From S2P Require Export GrpcHandler.
From S2P Require Import GoStrconv JsonLogFields ConfigGrpc.

(** ** [cmd/fakegrpcserver/main.go] *)

Module fakegrpc.
Import grpcmetadata grpcstream.

Definition modeAuto : string := "auto".
Definition modeUnaryEcho : string := "unary-echo".
Definition modeServerStreamCount : string := "server-stream-count".
Definition modeClientStreamCount : string := "client-stream-count".
Definition modeBidiEcho : string := "bidi-echo".

Definition codes_InvalidArgument : Z := 3.

(** [strings.Contains] *)
Definition Contains (s sub : string) : bool :=
  existsb (fun k => HasPrefix (of_chars (drop k (chars s))) sub) (seq 0 (S (length (chars s)))).

(** [strings.Cut] at the first [=]. *)
Definition equals : ascii := "="%char.

Record config := {
  addr : string;
  mode : string;
  status : Z;
  statusMessage : string;
  statusMetadataKey : string;
  delayMetadataKey : string;
  responsePrefix : string;
  streamCount : Z;
  header : MD;
  trailer : MD;
  logMetadataKeys : list string;
  tlsCert : string;
  tlsKey : string;
  clientCA : string;
  requireClientCert : bool
}.
Record fakeFlagValues := { headers : list string; trailers : list string; metadataKeys : list string }.

(** The configuration without any flag. *)
Definition registerFakeFlags : config :=
  {| addr := "127.0.0.1:9445"; mode := modeAuto; status := codes_OK; statusMessage := "";
     statusMetadataKey := "x-fake-status"; delayMetadataKey := "x-fake-delay"; responsePrefix := "";
     streamCount := 3; header := ∅; trailer := ∅; logMetadataKeys := []; tlsCert := ""; tlsKey := "";
     clientCA := ""; requireClientCert := false |}.

Record logEntry := {
  FullMethod : string;
  Service : string;
  Method : string;
  Mode : string;
  Metadata : gmap string (list string);
  TraceMetadata : gmap string (list string);
  MessageCount : Z;
  ResponseMessageCount : Z;
  Status : string;
  StatusMessage : string
}.

Section server.
Context `{Unicode}.

(** [codes.Code(n)] is a [uint32]. *)
Definition parseCode (value : string) : res Z :=
  let trimmed := TrimSpace value in
  if decide (trimmed = "") then Ok codes_OK
  else
    let unsupported := Err (errors_New ("unsupported gRPC status code " +:+ Quote value)) in
    match Atoi trimmed with
    | Some n =>
        let code := u32 n in
        if decide (Code_String code = "Code(" +:+ trimmed +:+ ")") then unsupported else Ok code
    | None =>
        match list_find (fun code => jsonlogfields.EqualFold trimmed (Code_String code)) (seqZ 0 17) with
        | Some (_, code) => Ok code
        | None => unsupported
        end
    end.

(** The loop of [parseMetadataPairs]; [what] starts its messages. *)
Fixpoint metadataPairs (what : string) (md : MD) (values : list string) : res MD :=
  match values with
  | [] => Ok md
  | value :: values' =>
      match Cut value equals with
      | None => Err (errors_New (what +:+ Quote value +:+ " must use key=value"))
      | Some (key, item) =>
          let key := ToLower (TrimSpace key) in
          if decide (key = "") then Err (errors_New (what +:+ Quote value +:+ " has an empty key"))
          else metadataPairs what (md_Append md key [item]) values'
      end
  end.
Definition parseMetadataPairs (values : list string) : res MD := metadataPairs "" ∅ values.

Definition normalizeKeys (keys : list string) : list string :=
  filter (fun key => key <> "") ((fun key => ToLower (TrimSpace key)) <$> keys).

Definition modes : list string :=
  [modeAuto; modeUnaryEcho; modeServerStreamCount; modeClientStreamCount; modeBidiEcho].

Definition normalizeFakeConfig (cfg : config) (values : fakeFlagValues) : res config :=
  let m := ToLower (TrimSpace (mode cfg)) in
  if decide (m ∉ modes) then Err (errors_New ("unsupported mode " +:+ Quote (mode cfg)))
  else if streamCount cfg <? 0 then Err (errors_New "stream-count must not be negative")
  else
    headerMD ← res_wrap (grpcconfig.wrapped "header") (parseMetadataPairs (headers values));
    trailerMD ← res_wrap (grpcconfig.wrapped "trailer") (parseMetadataPairs (trailers values));
    Ok {| addr := addr cfg; mode := m; status := status cfg; statusMessage := statusMessage cfg;
          statusMetadataKey := statusMetadataKey cfg; delayMetadataKey := delayMetadataKey cfg;
          responsePrefix := responsePrefix cfg; streamCount := streamCount cfg; header := headerMD;
          trailer := trailerMD; logMetadataKeys := normalizeKeys (metadataKeys values); tlsCert := tlsCert cfg;
          tlsKey := tlsKey cfg; clientCA := clientCA cfg; requireClientCert := requireClientCert cfg |}.

(** ** Requests *)

Definition modeFor (cfg : config) (method : string) : string :=
  if decide (mode cfg <> modeAuto) then mode cfg
  else if Contains (ToLower method) "serverstream" then modeServerStreamCount
  else if Contains (ToLower method) "clientstream" then modeClientStreamCount
  else if Contains (ToLower method) "bidi" then modeBidiEcho
  else modeUnaryEcho.

(** The first value under a configured key, if it says anything. *)
Definition firstValue (key : string) (md : MD) : option string :=
  if decide (key = "") then None
  else match md_Get md (ToLower key) with [] => None | v :: _ => if decide (v = "") then None else Some v end.

Definition statusFor (cfg : config) (md : MD) : Z :=
  match firstValue (statusMetadataKey cfg) md with
  | None => status cfg
  | Some v => match parseCode v with Ok code => code | Err _ => codes_InvalidArgument end
  end.

Context (time_ParseDuration : string -> option Z).
Definition delayFor (cfg : config) (md : MD) : Z :=
  match firstValue (delayMetadataKey cfg) md with
  | None => 0
  | Some v => default 0 (time_ParseDuration v)
  end.

Definition metadataExcerpt (md : MD) (keys : list string) : gmap string (list string) :=
  foldl (fun out key => match md_Get md key with [] => out | values => <[key := copy_slice values]> out end) ∅ keys.

Definition splitFullMethod (fullMethod : string) : string * string :=
  default ("", "") (Cut (TrimPrefix fullMethod "/") "/"%char).

Definition newLogEntry (cfg : config) (fullMethod : string) (requestMD : MD) (code : Z) : logEntry :=
  let '(service, method) := splitFullMethod fullMethod in
  {| FullMethod := fullMethod; Service := service; Method := method; Mode := modeFor cfg method;
     Metadata := metadataExcerpt requestMD (logMetadataKeys cfg);
     TraceMetadata := metadataExcerpt requestMD ["traceparent"; "tracestate"; "x-trace-id"];
     MessageCount := 0; ResponseMessageCount := 0; Status := Code_String code;
     StatusMessage := if decide (statusMessage cfg = "") then Code_String code else statusMessage cfg |}.

(** ** Handlers *)

(** The calls on the stream; a message received is its answer. *)
Inductive serverCall :=
  | CallSendHeader (md : MD)
  | CallSleep (d : Z)
  | CallRecvMsg (m : rawMessage)
  | CallSetTrailer (md : MD)
  | CallSendMsg (m : rawMessage).

(** A handler: its calls, the requests and responses it counts, its error. *)
Abbreviation handled := (list serverCall * (Z * Z * option error))%type.

Definition cloneMetadata (md : MD) : MD := if decide (md = ∅) then ∅ else copy_map md.
Definition setTrailer (cfg : config) : list serverCall :=
  if decide (trailer cfg = ∅) then [] else [CallSetTrailer (cloneMetadata (trailer cfg))].
Definition after (calls : list serverCall) (h : handled) : handled := ((calls ++ h.1)%list, h.2).

Definition unaryEcho (cfg : config) (stream : serverScript) (code : Z) (message : string) : handled :=
  match ss_messages stream with
  | [] => ([], (0, 0, Some (ss_end stream)))
  | req :: _ =>
      after (CallRecvMsg req :: setTrailer cfg)
        (if decide (code <> codes_OK) then ([], (1, 0, Some (status_Error code message)))
         else ([CallSendMsg (responsePrefix cfg +:+ req)],
               match ss_send stream 0 with Some err => (1, 0, Some err) | None => (1, 1, None) end))
  end.

(** The loop, [n] messages from the [i]-th on. *)
Fixpoint countResponses (cfg : config) (stream : serverScript) (seed : rawMessage) (n : nat) (i : Z) : handled :=
  match n with
  | O => ([], (1, streamCount cfg, None))
  | S n' =>
      let payload := responsePrefix cfg +:+ Itoa i +:+ ":" +:+ seed in
      match ss_send stream (Z.to_nat (i - 1)) with
      | Some err => ([CallSendMsg payload], (1, i - 1, Some err))
      | None => after [CallSendMsg payload] (countResponses cfg stream seed n' (i + 1))
      end
  end.
Definition serverStreamCount (cfg : config) (stream : serverScript) (code : Z) (message : string) : handled :=
  match ss_messages stream with
  | [] => ([], (0, 0, Some (ss_end stream)))
  | seed :: _ =>
      after (CallRecvMsg seed :: setTrailer cfg)
        (if decide (code <> codes_OK) then ([], (1, 0, Some (status_Error code message)))
         else countResponses cfg stream seed (Z.to_nat (streamCount cfg)) 1)
  end.

Definition receiveAll (stream : serverScript) : list serverCall * Z * option error :=
  (CallRecvMsg <$> ss_messages stream, Z.of_nat (length (ss_messages stream)),
   if decide (ss_end stream = io_EOF) then None else Some (ss_end stream)).
Definition clientStreamCount (cfg : config) (stream : serverScript) (code : Z) (message : string) : handled :=
  match receiveAll stream with
  | (calls, requests, Some err) => (calls, (requests, 0, Some err))
  | (calls, requests, None) =>
      after (calls ++ setTrailer cfg)
        (if decide (code <> codes_OK) then ([], (requests, 0, Some (status_Error code message)))
         else ([CallSendMsg (responsePrefix cfg +:+ "count:" +:+ Itoa requests)],
               match ss_send stream 0 with Some err => (requests, 0, Some err) | None => (requests, 1, None) end))
  end.

(** The loop: what is left to receive, and what was counted. *)
Fixpoint bidiLoop (cfg : config) (stream : serverScript) (code : Z) (message : string) (msgs : list rawMessage)
    (requests responses : Z) : handled :=
  match msgs with
  | [] =>
      if decide (ss_end stream = io_EOF) then
        (setTrailer cfg, (requests, responses, if decide (code <> codes_OK) then Some (status_Error code message) else None))
      else ([], (requests, responses, Some (ss_end stream)))
  | req :: msgs' =>
      let requests := requests + 1 in
      after [CallRecvMsg req]
        (if decide (code = codes_OK) then
           after [CallSendMsg (responsePrefix cfg +:+ req)]
             match ss_send stream (Z.to_nat responses) with
             | Some err => ([], (requests, responses, Some err))
             | None => bidiLoop cfg stream code message msgs' requests (responses + 1)
             end
         else bidiLoop cfg stream code message msgs' requests responses)
  end.
Definition bidiEcho (cfg : config) (stream : serverScript) (code : Z) (message : string) : handled :=
  bidiLoop cfg stream code message (ss_messages stream) 0 0.

Definition handleMode (cfg : config) (stream : serverScript) (m : string) (code : Z) (message : string) : handled :=
  if decide (m = modeServerStreamCount) then serverStreamCount cfg stream code message
  else if decide (m = modeClientStreamCount) then clientStreamCount cfg stream code message
  else if decide (m = modeBidiEcho) then bidiEcho cfg stream code message
  else unaryEcho cfg stream code message.

(** [server.handle]: the calls, the error and the log entry. *)
Definition handle (cfg : config) (fullMethod : option string) (incoming : option MD) (stream : serverScript)
    : list serverCall * option error * logEntry :=
  let fullMethod := default "" fullMethod in
  let requestMD := default ∅ incoming in
  let code := statusFor cfg requestMD in
  let delay := delayFor cfg requestMD in
  let result := newLogEntry cfg fullMethod requestMD code in
  let sent := if decide (header cfg = ∅) then [] else [CallSendHeader (cloneMetadata (header cfg))] in
  match (if decide (header cfg = ∅) then None else ss_sendHeader stream) with
  | Some err => (sent, Some err, result)
  | None =>
      let slept := if 0 <? delay then [CallSleep delay] else [] in
      let '(calls, (requests, responses, err)) := handleMode cfg stream (Mode result) code (StatusMessage result) in
      ((sent ++ slept ++ calls)%list, err,
       {| FullMethod := FullMethod result; Service := Service result; Method := Method result; Mode := Mode result;
          Metadata := Metadata result; TraceMetadata := TraceMetadata result; MessageCount := requests;
          ResponseMessageCount := responses; Status := Status result; StatusMessage := StatusMessage result |})
  end.
End server.

(** ** [serverCredentials] *)

(** The pair that is loaded and the pool of client certificates. *)
Record tlsServer := { ts_Certificate : string * string; ts_ClientCAs : option string; ts_RequireAndVerify : bool }.

(** Reading the key pair, and reading and parsing a pool. *)
Definition serverCredentials (LoadX509KeyPair : string -> string -> option error)
    (ReadFile : string -> option error) (AppendCertsFromPEM : string -> bool) (cfg : config)
    : res (option tlsServer) :=
  if decide (tlsCert cfg = "" /\ tlsKey cfg = "") then
    if decide (clientCA cfg <> "") then Err (errors_New "mTLS requires -tls-cert and -tls-key")
    else if requireClientCert cfg then Err (errors_New "mTLS requires -tls-cert and -tls-key")
    else Ok None
  else if decide (tlsCert cfg = "" \/ tlsKey cfg = "") then
    Err (errors_New "TLS requires both -tls-cert and -tls-key")
  else
    _ ← grpcconfig.check (LoadX509KeyPair (tlsCert cfg) (tlsKey cfg));
    pool ← (if decide (clientCA cfg <> "") then
              _ ← grpcconfig.check (ReadFile (clientCA cfg));
              if AppendCertsFromPEM (clientCA cfg) then Ok (Some (clientCA cfg))
              else Err (errors_New "failed to parse client CA PEM")
            else Ok None);
    Ok (Some {| ts_Certificate := (tlsCert cfg, tlsKey cfg); ts_ClientCAs := pool;
                ts_RequireAndVerify := requireClientCert cfg |}).
End fakegrpc.

(** ** Status codes *)

Module statuscodes.
Import fakegrpc.
Section codes.
Context `{Unicode}.

Lemma parse_known : Forall (fun c => parseCode (Code_String c) = Ok c /\ parseCode (Itoa c) = Ok c) (seqZ 0 17).
Proof. repeat constructor; by vm_compute. Qed.

Lemma Code_String_unknown c : 17 <= c -> Code_String c = "Code(" +:+ Itoa c +:+ ")".
Proof.
  intros Hc. unfold Code_String. rewrite (proj2 (Z.ltb_ge _ _)) by lia.
  rewrite lookup_ge_None_2; [done|]. cbn [length]. lia.
Qed.

(** A code is read from its name and from its number, no code from none, and a
    number no code has in the way it prints is refused. *)
Theorem parseCode_spec :
  (forall c, 0 <= c <= 16 -> parseCode (Code_String c) = Ok c /\ parseCode (Itoa c) = Ok c) /\
  parseCode "" = Ok codes_OK /\
  (forall c, 17 <= c < 2 ^ 32 -> exists e, parseCode (Itoa c) = Err e).
Proof.
  split_and!; [|done|].
  - intros c Hc. apply (proj1 (Forall_forall _ _) parse_known c). apply elem_of_seqZ. lia.
  - intros c Hc. unfold parseCode. rewrite (TrimSpace_plain (Itoa c)) by (apply Itoa_plain; lia).
    destruct (decide (Itoa c = "")) as [E|E].
    { destruct (Itoa_digits c ltac:(lia)) as [_ N]. by rewrite E in N. }
    rewrite Atoi_Itoa by lia. rewrite u32_small by lia. rewrite Code_String_unknown by lia.
    rewrite decide_True by done. by eexists.
Qed.

(** Numbers written otherwise are not refused: the test is on the text. *)
Lemma parseCode_lenient :
  parseCode "+20" = Ok 20 /\ parseCode "017" = Ok 17 /\ parseCode "-1" = Ok 4294967295.
Proof.
  split_and!; [by vm_compute..|]. unfold parseCode. change (TrimSpace "-1") with "-1".
  rewrite decide_False by done. change (Atoi "-1") with (Some (-1)). cbv beta iota zeta. change (u32 (-1)) with 4294967295.
  rewrite Code_String_unknown by lia. change (Itoa 4294967295) with "4294967295". by rewrite decide_False.
Qed.
End codes.
End statuscodes.

(** ** [cmd/grpcprobe/main.go] *)

Module grpcprobe.
Import grpcmetadata grpcstream fakegrpc.

Definition probeUnary : string := "unary".
Definition probeServerStream : string := "server-stream".
Definition probeClientStream : string := "client-stream".
Definition probeBidi : string := "bidi".

Record probeConfig := {
  p_addr : string;
  p_method : string;
  p_mode : string;
  p_payloads : list string;
  p_metadata : MD;
  p_expectStatus : Z;
  p_expectStatusSet : bool;
  p_expectCount : Z;
  p_expectCountSet : bool;
  p_expectMessages : list string;
  p_printMetadata : bool;
  p_timeout : Z;
  p_tlsEnabled : bool;
  p_rootCA : string;
  p_serverName : string;
  p_insecureSkipVerify : bool
}.
Record probeFlagValues := { metadataPairs : list string; payloads : list string; expectedMessages : list string }.

(** The configuration without any flag. *)
Definition registerProbeFlags : probeConfig :=
  {| p_addr := "127.0.0.1:9444"; p_method := ""; p_mode := probeUnary; p_payloads := []; p_metadata := ∅;
     p_expectStatus := codes_OK; p_expectStatusSet := false; p_expectCount := 0; p_expectCountSet := false;
     p_expectMessages := []; p_printMetadata := false; p_timeout := 5000000000; p_tlsEnabled := false;
     p_rootCA := ""; p_serverName := ""; p_insecureSkipVerify := false |}.

(** The server's [parseCode], word for word. *)
Definition parseCode `{Unicode} (value : string) : res Z := fakegrpc.parseCode value.

(** The flag [-expect-status]. *)
Definition expectStatus `{Unicode} (cfg : probeConfig) (value : string) : res probeConfig :=
  code ← parseCode value;
  Ok {| p_addr := p_addr cfg; p_method := p_method cfg; p_mode := p_mode cfg; p_payloads := p_payloads cfg;
        p_metadata := p_metadata cfg; p_expectStatus := code; p_expectStatusSet := true;
        p_expectCount := p_expectCount cfg; p_expectCountSet := p_expectCountSet cfg;
        p_expectMessages := p_expectMessages cfg; p_printMetadata := p_printMetadata cfg; p_timeout := p_timeout cfg;
        p_tlsEnabled := p_tlsEnabled cfg; p_rootCA := p_rootCA cfg; p_serverName := p_serverName cfg;
        p_insecureSkipVerify := p_insecureSkipVerify cfg |}.

Record summary := {
  Method : string;
  Mode : string;
  Status : string;
  Messages : list string;
  Headers : option MD;
  Trailers : option MD
}.

Definition containsArg (args : list string) (name : string) : bool :=
  existsb (fun arg => bool_decide (arg = name) || HasPrefix arg (name +:+ "=")) args.

(** The TLS settings of the connection. *)
Record tlsClient := { tc_ServerName : string; tc_InsecureSkipVerify : bool; tc_RootCAs : option string }.

Section probe.
Context `{Unicode}.

(** [parseMetadataPairs]: the server's, with other messages. *)
Definition parseMetadataPairs (values : list string) : res MD := fakegrpc.metadataPairs "metadata " ∅ values.

Definition normalizeProbeConfig (cfg : probeConfig) (values : probeFlagValues) (args : list string) : res probeConfig :=
  let m := ToLower (TrimSpace (p_mode cfg)) in
  if decide (m ∉ [probeUnary; probeServerStream; probeClientStream; probeBidi]) then
    Err (errors_New ("unsupported mode " +:+ Quote (p_mode cfg)))
  else if decide (TrimSpace (p_addr cfg) = "") then Err (errors_New "addr must not be empty")
  else if negb (HasPrefix (p_method cfg) "/") then
    Err (errors_New "method must be a full gRPC method starting with /")
  else
    md ← parseMetadataPairs (metadataPairs values);
    if p_timeout cfg <=? 0 then Err (errors_New "timeout must be positive")
    else
      Ok {| p_addr := p_addr cfg; p_method := p_method cfg; p_mode := m;
            p_payloads := match copy_slice (payloads values) with [] => [""] | l => l end;
            p_metadata := md; p_expectStatus := p_expectStatus cfg; p_expectStatusSet := p_expectStatusSet cfg;
            p_expectCount := p_expectCount cfg;
            p_expectCountSet := bool_decide (Itoa (p_expectCount cfg) <> "0") || containsArg args "-expect-count";
            p_expectMessages := copy_slice (expectedMessages values); p_printMetadata := p_printMetadata cfg;
            p_timeout := p_timeout cfg; p_tlsEnabled := p_tlsEnabled cfg; p_rootCA := p_rootCA cfg;
            p_serverName := p_serverName cfg; p_insecureSkipVerify := p_insecureSkipVerify cfg |}.

(** A nil map prints as none. *)
Definition cloneMetadata (md : MD) : option MD := if decide (md = ∅) then None else Some (copy_map md).

(** [conn.Invoke]: its error, or the response; the metadata received. *)
Record invocation := { iv_result : res rawMessage; iv_header : MD; iv_trailer : MD }.

Definition callUnary (Invoke : string -> rawMessage -> invocation) (cfg : probeConfig) : summary :=
  let r := Invoke (p_method cfg) (default "" (p_payloads cfg !! 0%nat)) in
  {| Method := p_method cfg; Mode := p_mode cfg;
     Status := Code_String (match iv_result r with Ok _ => codes_OK | Err err => status_Code err end);
     Messages := match iv_result r with Ok response => [response] | Err _ => [] end;
     Headers := if p_printMetadata cfg then cloneMetadata (iv_header r) else None;
     Trailers := if p_printMetadata cfg then cloneMetadata (iv_trailer r) else None |}.

(** [for _, payload := range cfg.payloads { stream.SendMsg(...) }]. *)
Fixpoint sendAll (stream : clientScript) (payloads : list string) (k : nat) : option error :=
  match payloads with
  | [] => None
  | _ :: payloads' => match cs_send stream k with Some err => Some err | None => sendAll stream payloads' (S k) end
  end.

Definition callStream (newStream : res clientScript) (cfg : probeConfig) : res summary :=
  stream ← newStream;
  _ ← grpcconfig.check (sendAll stream (p_payloads cfg) 0);
  _ ← grpcconfig.check (cs_closeSend stream);
  let header := match p_printMetadata cfg, cs_header stream with true, Ok h => list_to_map h | _, _ => ∅ end in
  let finalCode := if decide (cs_end stream = io_EOF) then codes_OK else status_Code (cs_end stream) in
  Ok {| Method := p_method cfg; Mode := p_mode cfg; Status := Code_String finalCode; Messages := cs_messages stream;
        Headers := if p_printMetadata cfg then cloneMetadata header else None;
        Trailers := if p_printMetadata cfg then cloneMetadata (list_to_map (cs_trailer stream)) else None |}.

(** [call]: the descriptor of a stream is which sides may send many messages. *)
Definition call (Invoke : string -> rawMessage -> invocation) (NewStream : bool -> bool -> res clientScript)
    (cfg : probeConfig) : res summary :=
  if decide (p_mode cfg = probeUnary) then Ok (callUnary Invoke cfg)
  else if decide (p_mode cfg = probeServerStream) then callStream (NewStream true true) cfg
  else if decide (p_mode cfg = probeClientStream) then callStream (NewStream false true) cfg
  else if decide (p_mode cfg = probeBidi) then callStream (NewStream true true) cfg
  else Err (errors_New ("unsupported mode " +:+ Quote (p_mode cfg))).

(** [%q] of a list is a parameter: it is only text. *)
Context (QuoteList : list string -> string).

Fixpoint sameMessages (expected got : list string) : bool :=
  match expected, got with
  | e :: expected', g :: got' => if decide (e <> g) then false else sameMessages expected' got'
  | _, _ => true
  end.
Definition checkExpectations (cfg : probeConfig) (result : summary) : option error :=
  let unexpected := errors_New ("expected messages " +:+ QuoteList (p_expectMessages cfg) +:+ ", got " +:+ QuoteList (Messages result)) in
  if p_expectStatusSet cfg && negb (bool_decide (Status result = Code_String (p_expectStatus cfg))) then
    Some (errors_New ("expected status " +:+ Code_String (p_expectStatus cfg) +:+ ", got " +:+ Status result))
  else if p_expectCountSet cfg && negb (Z.of_nat (length (Messages result)) =? p_expectCount cfg) then
    Some (errors_New ("expected " +:+ Itoa (p_expectCount cfg) +:+ " response messages, got " +:+
      Itoa (Z.of_nat (length (Messages result))) +:+ ": " +:+ QuoteList (Messages result)))
  else if decide (p_expectMessages cfg = []) then None
  else if negb (Nat.eqb (length (p_expectMessages cfg)) (length (Messages result))) then Some unexpected
  else if sameMessages (p_expectMessages cfg) (Messages result) then None else Some unexpected.

(** [run] after the connection: the metadata sent, and the result or an error. *)
Definition run (newClient : option error) (Invoke : option MD -> string -> rawMessage -> invocation)
    (NewStream : option MD -> bool -> bool -> res clientScript) (creds : res (option tlsClient)) (cfg : probeConfig)
    : res summary :=
  _ ← creds;
  _ ← grpcconfig.check newClient;
  let md := if decide (p_metadata cfg = ∅) then None else Some (p_metadata cfg) in
  result ← call (Invoke md) (NewStream md) cfg;
  _ ← grpcconfig.check (checkExpectations cfg result);
  Ok result.
End probe.

(** [clientCredentials]: [None] is plaintext. *)
Definition clientCredentials (ReadFile : string -> option error) (AppendCertsFromPEM : string -> bool) (cfg : probeConfig)
    : res (option tlsClient) :=
  let tls pool := {| tc_ServerName := p_serverName cfg; tc_InsecureSkipVerify := p_insecureSkipVerify cfg; tc_RootCAs := pool |} in
  if negb (p_tlsEnabled cfg) then Ok None
  else if decide (p_rootCA cfg = "") then Ok (Some (tls None))
  else
    _ ← grpcconfig.check (ReadFile (p_rootCA cfg));
    if AppendCertsFromPEM (p_rootCA cfg) then Ok (Some (tls (Some (p_rootCA cfg))))
    else Err (errors_New "failed to parse root CA PEM").
End grpcprobe.

(** ** The server, the proxy and the probe together *)

Module grpcend.
Import grpcmetadata grpcstream grpchandler fakegrpc grpcprobe.

(** What a handler sends: its header, messages and trailer. *)
Definition sentMessages (calls : list serverCall) : list rawMessage :=
  omap (fun c => match c with CallSendMsg m => Some m | _ => None end) calls.
Definition sentHeaders (calls : list serverCall) : list MD :=
  omap (fun c => match c with CallSendHeader md => Some md | _ => None end) calls.
Definition sentTrailers (calls : list serverCall) : list MD :=
  omap (fun c => match c with CallSetTrailer md => Some md | _ => None end) calls.
Definition relayedMessages (ops : list responseOp) : list rawMessage :=
  omap (fun op => match op with OpSendClient m => Some m | _ => None end) ops.
Definition relayedHeaders (ops : list responseOp) : list MD :=
  omap (fun op => match op with OpSendHeader md => Some md | _ => None end) ops.
Definition relayedTrailers (ops : list responseOp) : list MD :=
  omap (fun op => match op with OpSetTrailer md => Some md | _ => None end) ops.
Definition forwarded (ops : list requestOp) : list rawMessage :=
  omap (fun op => match op with OpSendPrimary m => Some m | _ => None end) ops.

(** What the fake server answers to a request without error. *)
Definition replies (cfg : config) (m : string) (code : Z) (msgs : list rawMessage) : list rawMessage :=
  if decide (code <> codes_OK) then []
  else if decide (m = modeServerStreamCount) then
    (fun i => responsePrefix cfg +:+ Itoa i +:+ ":" +:+ default "" (head msgs)) <$> seqZ 1 (streamCount cfg)
  else if decide (m = modeClientStreamCount) then [responsePrefix cfg +:+ "count:" +:+ Itoa (Z.of_nat (length msgs))]
  else if decide (m = modeBidiEcho) then (fun req => responsePrefix cfg +:+ req) <$> msgs
  else [responsePrefix cfg +:+ default "" (head msgs)].
Definition failure (code : Z) (message : string) : option error :=
  if decide (code <> codes_OK) then Some (status_Error code message) else None.

(** A client that sends [msgs], half-closes and takes every answer. *)
Definition patient (msgs : list rawMessage) : serverScript :=
  {| ss_messages := msgs; ss_end := io_EOF; ss_sendHeader := None; ss_send := fun _ => None |}.

Lemma sentMessages_app l1 l2 : sentMessages (l1 ++ l2) = (sentMessages l1 ++ sentMessages l2)%list.
Proof. apply omap_app. Qed.
Lemma setTrailer_messages cfg : sentMessages (setTrailer cfg) = [].
Proof. unfold setTrailer. by destruct (decide _). Qed.

Section server.
Context `{Unicode} (time_ParseDuration : string -> option Z).

Lemma countResponses_replies cfg msgs seed n i :
  let '(calls, r) := countResponses cfg (patient msgs) seed n i in
  sentMessages calls = ((fun j => responsePrefix cfg +:+ Itoa j +:+ ":" +:+ seed) <$> seqZ i (Z.of_nat n)) /\
  r = (1, streamCount cfg, None).
Proof.
  revert i. induction n as [|n IH]; intros i; [done|]. cbn [countResponses patient ss_send]. specialize (IH (i + 1)).
  destruct (countResponses cfg (patient msgs) seed n (i + 1)) as [calls r]. destruct IH as [IH ->].
  split; [|done]. rewrite seqZ_cons by lia. replace (Z.pred (Z.of_nat (S n))) with (Z.of_nat n) by lia.
  replace (Z.succ i) with (i + 1) by lia. cbn. by rewrite <- IH.
Qed.

Lemma bidiLoop_replies cfg msgs code message todo q p :
  let '(calls, (requests, responses, err)) := bidiLoop cfg (patient msgs) code message todo q p in
  let sent := if decide (code <> codes_OK) then [] else (fun req => responsePrefix cfg +:+ req) <$> todo in
  sentMessages calls = sent /\ requests = q + Z.of_nat (length todo) /\ responses = p + Z.of_nat (length sent) /\
  err = failure code message.
Proof.
  revert q p. induction todo as [|req todo IH]; intros q p; cbn [bidiLoop patient ss_end ss_send].
  - rewrite decide_True by done. cbv zeta. unfold failure. rewrite setTrailer_messages.
    destruct (decide (code <> codes_OK)); cbn; split_and!; (done || lia).
  - destruct (decide (code = codes_OK)) as [E|E].
    + specialize (IH (q + 1) (p + 1)). destruct (bidiLoop _ _ _ _ todo _ _) as [calls [[requests responses] err]].
      cbv zeta in IH |- *. rewrite decide_False in IH |- * by (by intros G). destruct IH as (I1 & I2 & I3 & I4).
      cbn [after fst snd sentMessages omap list_omap app]. cbn. split_and!; [by rewrite <- I1|lia|rewrite length_fmap in *; lia|done].
    + specialize (IH (q + 1) p). destruct (bidiLoop _ _ _ _ todo _ _) as [calls [[requests responses] err]].
      cbv zeta in IH |- *. rewrite decide_True in IH |- * by done. destruct IH as (I1 & I2 & I3 & I4).
      split_and!; [exact I1|cbn; lia|exact I3|done].
Qed.

Lemma receive_messages msgs : sentMessages (CallRecvMsg <$> msgs) = [].
Proof. by induction msgs. Qed.

(** Every mode answers a patient client with its replies and its status. *)
Lemma handleMode_replies cfg m msgs code message :
  msgs <> [] -> 0 <= streamCount cfg ->
  let '(calls, (requests, responses, err)) := handleMode cfg (patient msgs) m code message in
  sentMessages calls = replies cfg m code msgs /\ responses = Z.of_nat (length (replies cfg m code msgs)) /\
  err = failure code message.
Proof.
  intros Hne Hc. unfold handleMode, replies, failure. destruct msgs as [|req msgs]; [done|].
  set (bad := decide (code <> codes_OK)).
  destruct (decide (m = modeServerStreamCount)).
  { cbn [serverStreamCount patient ss_messages]. fold bad. destruct bad.
    - cbn [after fst snd]. cbn [app]. split_and!; [|done|done]. rewrite app_nil_r. apply setTrailer_messages.
    - pose proof (countResponses_replies cfg (req :: msgs) req (Z.to_nat (streamCount cfg)) 1) as G.
      unfold patient in G. destruct (countResponses _ _ _ _ _) as [calls r]. destruct G as [G ->].
      rewrite Z2Nat.id in G by done. cbn [after fst snd app]. cbn [sentMessages omap list_omap].
      fold (sentMessages (setTrailer cfg ++ calls)). rewrite sentMessages_app, setTrailer_messages, G.
      split_and!; [done| |done]. rewrite length_fmap, length_seqZ. lia. }
  destruct (decide (m = modeClientStreamCount)).
  { unfold clientStreamCount, receiveAll. cbn [patient ss_end ss_messages ss_send]. rewrite decide_True by done. fold bad.
    destruct bad; cbn [after fst snd]; rewrite !sentMessages_app, setTrailer_messages, receive_messages; done. }
  destruct (decide (m = modeBidiEcho)).
  { unfold bidiEcho. pose proof (bidiLoop_replies cfg (req :: msgs) code message (req :: msgs) 0 0) as G.
    cbn [patient ss_messages]. cbn [patient] in G. destruct (bidiLoop _ _ _ _ _ _ _) as [calls [[requests responses] err]].
    cbv zeta in G. fold bad in G. unfold failure in G. fold bad in G. destruct G as (-> & _ & -> & ->). done. }
  cbn [unaryEcho patient ss_messages ss_send]. fold bad. destruct bad; cbn [after fst snd app].
  - split_and!; [|done|done]. rewrite app_nil_r. apply setTrailer_messages.
  - split_and!; [|done|done]. cbn [sentMessages omap list_omap]. fold (sentMessages (setTrailer cfg ++ [CallSendMsg (responsePrefix cfg +:+ req)])).
    by rewrite sentMessages_app, setTrailer_messages.
Qed.

(** What a mode sets as trailer. *)
Definition one (md : MD) : list MD := if decide (md = ∅) then [] else [md].

Lemma clone_id md : fakegrpc.cloneMetadata md = md.
Proof. unfold fakegrpc.cloneMetadata. destruct (decide _) as [->|]; [done|]. apply copy_map_id. Qed.
Lemma setTrailer_one cfg : sentTrailers (setTrailer cfg) = one (trailer cfg).
Proof. unfold setTrailer, one. destruct (decide _); [done|]. cbn. by rewrite clone_id. Qed.
Lemma sentTrailers_app l1 l2 : sentTrailers (l1 ++ l2) = (sentTrailers l1 ++ sentTrailers l2)%list.
Proof. apply omap_app. Qed.

Lemma sentHeaders_app l1 l2 : sentHeaders (l1 ++ l2) = (sentHeaders l1 ++ sentHeaders l2)%list.
Proof. apply omap_app. Qed.
Lemma setTrailer_headers cfg : sentHeaders (setTrailer cfg) = [].
Proof. unfold setTrailer. by destruct (decide _). Qed.
Lemma receive_quiet msgs : sentTrailers (CallRecvMsg <$> msgs) = [] /\ sentHeaders (CallRecvMsg <$> msgs) = [].
Proof. by induction msgs. Qed.
Lemma countResponses_quiet cfg stream seed n i :
  sentTrailers (countResponses cfg stream seed n i).1 = [] /\ sentHeaders (countResponses cfg stream seed n i).1 = [].
Proof. revert i. induction n as [|n IH]; intros i; [done|]. cbn [countResponses]. destruct (ss_send _ _); [done|]. apply IH. Qed.
Lemma bidiLoop_metadata cfg msgs code message todo q p :
  let calls := (bidiLoop cfg (patient msgs) code message todo q p).1 in
  sentTrailers calls = one (trailer cfg) /\ sentHeaders calls = [].
Proof.
  revert q p. induction todo as [|req todo IH]; intros q p; cbn [bidiLoop patient ss_end ss_send].
  - rewrite decide_True by done. split; [apply setTrailer_one|apply setTrailer_headers].
  - destruct (decide (code = codes_OK)); cbn [after fst]; apply IH.
Qed.

Lemma handleMode_metadata cfg m msgs code message :
  msgs <> [] ->
  let calls := (handleMode cfg (patient msgs) m code message).1 in
  sentTrailers calls = one (trailer cfg) /\ sentHeaders calls = [].
Proof.
  intros Hne. unfold handleMode. destruct msgs as [|req msgs]; [done|].
  assert (G : forall l, sentTrailers l = [] /\ sentHeaders l = [] ->
    sentTrailers ((CallRecvMsg req :: setTrailer cfg) ++ l) = one (trailer cfg) /\
    sentHeaders ((CallRecvMsg req :: setTrailer cfg) ++ l) = []).
  { intros l [L1 L2]. rewrite sentTrailers_app, sentHeaders_app, L1, L2, !app_nil_r.
    split; [exact (setTrailer_one cfg)|exact (setTrailer_headers cfg)]. }
  destruct (decide (m = modeServerStreamCount)).
  { cbn [serverStreamCount patient ss_messages]. apply G. destruct (decide _); [done|]. apply countResponses_quiet. }
  destruct (decide (m = modeClientStreamCount)).
  { unfold clientStreamCount, receiveAll. cbn [patient ss_end ss_messages]. rewrite decide_True by done. cbn [after fst].
    destruct (receive_quiet (req :: msgs)) as [R1 R2].
    rewrite !sentTrailers_app, !sentHeaders_app, R1, R2, setTrailer_one, setTrailer_headers.
    destruct (decide _); cbn; by rewrite ?app_nil_r. }
  destruct (decide (m = modeBidiEcho)); [apply bidiLoop_metadata|].
  cbn [unaryEcho patient ss_messages]. apply G. by destruct (decide _).
Qed.

(** The server as a client sees it. *)
Lemma handle_replies cfg fullMethod incoming msgs :
  msgs <> [] -> 0 <= streamCount cfg ->
  let code := statusFor cfg (default ∅ incoming) in
  let m := modeFor cfg (splitFullMethod (default "" fullMethod)).2 in
  let '(calls, err, entry) := handle time_ParseDuration cfg fullMethod incoming (patient msgs) in
  sentMessages calls = replies cfg m code msgs /\ sentHeaders calls = one (header cfg) /\
  sentTrailers calls = one (trailer cfg) /\ err = failure code (fakegrpc.StatusMessage entry) /\
  fakegrpc.Status entry = Code_String code /\ fakegrpc.Mode entry = m /\
  ResponseMessageCount entry = Z.of_nat (length (replies cfg m code msgs)).
Proof.
  intros Hne Hc code m. unfold handle. fold code. cbn [patient ss_sendHeader].
  assert (E : (if decide (header cfg = ∅) then None else None) = @None error) by by destruct (decide _). rewrite E.
  assert (Em : fakegrpc.Mode (newLogEntry cfg (default "" fullMethod) (default ∅ incoming) code) = m).
  { unfold newLogEntry, m. by destruct (splitFullMethod _). }
  rewrite Em. set (message := fakegrpc.StatusMessage _).
  pose proof (handleMode_replies cfg m msgs code message Hne Hc) as G.
  pose proof (handleMode_metadata cfg m msgs code message Hne) as [M1 M2].
  cbn [patient] in *. unfold patient in *. destruct (handleMode _ _ _ _ _) as [calls [[requests responses] err]].
  destruct G as (G1 & G2 & G3). cbn [fst] in M1, M2.
  set (slept := if 0 <? _ then _ else _).
  assert (S : sentMessages slept = [] /\ sentTrailers slept = [] /\ sentHeaders slept = []) by (unfold slept; by destruct (0 <? _)).
  set (head := if decide _ then [] else _).
  assert (D : sentMessages head = [] /\ sentTrailers head = [] /\ sentHeaders head = one (header cfg)).
  { unfold head, one. destruct (decide _); [done|]. by rewrite clone_id. }
  clearbody slept head. destruct S as (S1 & S2 & S3), D as (D1 & D2 & D3).
  rewrite !sentMessages_app, !sentTrailers_app, !sentHeaders_app, S1, S2, S3, D1, D2, D3, M1, M2, app_nil_r.
  split_and!; [exact G1|done|done|exact G3| |done|exact G2].
  unfold newLogEntry. by destruct (splitFullMethod _).
Qed.
End server.

(** ** Delivery, as grpc documents it *)

(** Metadata [md] was received as [range], perhaps with more keys. *)
Definition carries `{Unicode} (range : mdRange) (md : MD) : Prop :=
  Forall (fun kv => normalKey kv.1) range /\ NoDup range.*1 /\
  forall k vs, md !! k = Some vs -> vs <> [] -> list_to_map (M := MD) range !! k = Some vs.

(** A client stream on which what a handler sent arrives: a nil error ends it
    with [io.EOF], a status error with that status. *)
Record delivered `{Unicode} (headers : list MD) (messages : list rawMessage) (trailers : list MD) (err : option error)
    (s : clientScript) : Prop := {
  dl_header : exists h, cs_header s = Ok h /\ forall md, md ∈ headers -> carries h md;
  dl_messages : cs_messages s = messages;
  dl_trailer : forall md, md ∈ trailers -> carries (cs_trailer s) md;
  dl_end : match err with
           | None => cs_end s = io_EOF
           | Some e => exists c m, status_FromError e = Some (c, m) /\ cs_end s = status_Error c m
           end;
  dl_send : forall k, cs_send s k = None;
  dl_closeSend : cs_closeSend s = None
}.

Section proxy.
Context {G W : Type} `{forwarding.Shared G, bearer.TokenWorld W, NetIP, Unicode, URLs}.

Lemma clone_carries range md k vs :
  carries range md -> md !! k = Some vs -> vs <> [] -> grpcmetadata.cloneMetadata range !! k = Some vs.
Proof.
  intros (Hn & Hd & Hc) Hk Hv. specialize (Hc k vs Hk Hv).
  destruct range as [|kv range]; [done|]. unfold grpcmetadata.cloneMetadata.
  pose proof (cloneIncomingMetadata_lookup _ k Hn Hd) as E. unfold cloneIncomingMetadata in E. rewrite Hc in E.
  cbn [default] in E. change (id vs) with vs in E. destruct (foldl _ _ _ !! k) as [vs'|]; cbn in E; [by subst|by subst].
Qed.

(** The RPC the primary of which was called. *)
Lemma Handle_relays h (rq : rpc) (s : handlerState (G := G) (W := W)) target md :
  o_primary (Handle h rq s).1 = Some (target, md) -> exists err, relays (Handle h rq s).1 rq target md err.
Proof.
  unfold Handle. destruct (rq_method rq) as [m|]; [|done]. destruct (prepareRPCContext h rq m s) as [rx s1].
  destruct (authenticate h rq m) as [e|]; [by destruct (rejectCaller h rq rx e s1) as [[? ?] ?]|].
  unfold serve. destruct (resolveDecision h m rx) as [[d|err] rx1]; [|done].
  destruct (pickPrimaryTarget rq m d s1) as [[t|] s2]; [|done].
  destruct (primaryMetadata h d s2) as [[overlay|err] s3]; [|done].
  pose proof (proceed_view h rq m rx1 d t overlay s3) as [V _]. unfold clientView in V.
  pose proof (callPrimary_relays rq t (outgoing rq (rq_injectPrimary rq) overlay)) as R.
  destruct (callPrimary _ _ _) as [[[requests responses] result] err].
  injection V as V1 V2 V3 V4. rewrite V2. intros [= <- <-]. exists err. unfold relays. rewrite V1, V2, V3, V4.
  split_and!; [done|done|exact R].
Qed.

(** What the proxy makes of a primary's stream for a patient client. *)
Definition relayedOps (primary : clientScript) (h : mdRange) : list responseOp :=
  ((if decide (h = []) then [] else [OpSendHeader (grpcmetadata.cloneMetadata h)]) ++
   (OpSendClient <$> cs_messages primary) ++ [OpSetTrailer (grpcmetadata.cloneMetadata (cs_trailer primary))])%list.

Lemma forward_delivered msgs primary headers messages trailers err :
  delivered headers messages trailers err primary ->
  exists h result err', cs_header primary = Ok h /\
    forwardPrimaryToClient (patient msgs) primary = (relayedOps primary h, result, err') /\
    match err with None => err' = None | Some e => exists c m, status_FromError e = Some (c, m) /\ err' = Some (status_Error c m) end.
Proof.
  intros [(h & Eh & _) _ _ De _ _]. exists h. unfold forwardPrimaryToClient, receivePrimaryHeader. rewrite Eh.
  assert (R : forall header, exists result err', forwardResponses (patient msgs) primary header (cs_messages primary) 0 newMessageHashRecorder 0 =
    (((OpSendClient <$> cs_messages primary) ++ [OpSetTrailer (grpcmetadata.cloneMetadata (cs_trailer primary))])%list, result, err') /\
    match err with None => err' = None | Some e => exists c m, status_FromError e = Some (c, m) /\ err' = Some (status_Error c m) end).
  { intros header. rewrite forwardResponses_relay by done. cbn [forwardResponses]. destruct err as [e|].
    - destruct De as (c & m & E1 & E2). rewrite E2. eexists _, _. split; [reflexivity|]. by exists c, m.
    - rewrite De. by eexists _, _. }
  unfold relayedOps. destruct h as [|kv h].
  - destruct (R ∅) as (result & err' & E & He). rewrite E. by exists result, err'.
  - destruct (R (grpcmetadata.cloneMetadata (kv :: h))) as (result & err' & E & He). cbn [patient ss_sendHeader].
    unfold patient in *. rewrite E. by exists result, err'.
Qed.

Lemma relayedMessages_ops primary h : relayedMessages (relayedOps primary h) = cs_messages primary.
Proof.
  unfold relayedMessages, relayedOps. rewrite !omap_app. destruct (decide _); cbn [omap list_omap app];
    rewrite app_nil_r; induction (cs_messages primary) as [|m l IH]; cbn; by f_equal.
Qed.
Lemma relayedTrailers_ops primary h : relayedTrailers (relayedOps primary h) = [grpcmetadata.cloneMetadata (cs_trailer primary)].
Proof.
  unfold relayedTrailers, relayedOps. rewrite !omap_app. destruct (decide _); cbn [omap list_omap app];
    induction (cs_messages primary) as [|m l IH]; done.
Qed.
Lemma relayedHeaders_ops primary h :
  relayedHeaders (relayedOps primary h) = if decide (h = []) then [] else [grpcmetadata.cloneMetadata h].
Proof.
  unfold relayedHeaders, relayedOps. rewrite !omap_app.
  assert (E : omap (fun op => match op with OpSendHeader md => Some md | _ => None end) (OpSendClient <$> cs_messages primary) = [])
    by (induction (cs_messages primary); done).
  rewrite E. by destruct (decide _).
Qed.

Lemma forwarded_all msgs primary :
  (forall k, cs_send primary k = None) -> cs_closeSend primary = None ->
  forwarded (forwardClientToPrimary (patient msgs) primary true).1 = msgs /\
  (forwardClientToPrimary (patient msgs) primary true).2 = None.
Proof.
  intros Hs Hc. unfold forwardClientToPrimary. cbn [patient ss_end ss_messages].
  assert (F : forall k, exists ops, forwardRequests io_EOF primary true msgs k = (ops, None) /\ forwarded ops = msgs).
  { induction msgs as [|m msgs IH]; intros k; cbn [forwardRequests]; [eexists; split; [by rewrite Hc|done]|].
    rewrite Hs, cloneRawMessage_id. destruct (IH (S k)) as (ops & -> & E). eexists. split; [reflexivity|].
    unfold forwarded in *. cbn [omap list_omap]. cbn. by rewrite E. }
  destruct (F 0%nat) as (ops & -> & E). cbn. split; [|done]. unfold forwarded in *. by rewrite omap_app, E, app_nil_r.
Qed.

(** The error the client's stream ends with. *)
Definition endedWith (out : rpcOutput) : option error :=
  match o_error out with Some (inr e) => Some e | _ => None end.

(** What the probe was told to expect. *)
Definition expected (probe : probeConfig) (code : Z) (msgs : list rawMessage) : Prop :=
  (p_expectStatusSet probe = true -> Code_String (p_expectStatus probe) = Code_String code) /\
  (p_expectCountSet probe = true -> Z.of_nat (length msgs) = p_expectCount probe) /\
  (p_expectMessages probe <> [] -> p_expectMessages probe = msgs).

Lemma sameMessages_spec l1 l2 : length l1 = length l2 -> sameMessages l1 l2 = bool_decide (l1 = l2).
Proof.
  revert l2. induction l1 as [|x l1 IH]; intros [|y l2] Hl; try done. cbn [sameMessages].
  destruct (decide (x <> y)) as [E|E]; [symmetry; apply bool_decide_false; congruence|].
  apply dec_stable in E as ->. rewrite IH by (cbn in Hl; lia). apply bool_decide_ext. naive_solver.
Qed.

Lemma guard_none {A} (b : bool) (x : A) y : (if b then Some x else y) = None <-> b = false /\ y = None.
Proof. by destruct b; split; [|intros [? _]| |intros [_ ?]]. Qed.
Lemma flag_false (b c : bool) (P : Prop) : (c = true <-> P) -> (b && negb c = false <-> (b = true -> P)).
Proof. intros HP. destruct b, c; cbn; intuition congruence. Qed.

Lemma checkExpectations_spec QuoteList probe result code :
  Status result = Code_String code ->
  checkExpectations QuoteList probe result = None <-> expected probe code (Messages result).
Proof.
  intros Hs. unfold checkExpectations, expected. rewrite Hs. cbv zeta. rewrite !guard_none.
  rewrite (flag_false _ _ (Code_String (p_expectStatus probe) = Code_String code)) by (rewrite bool_decide_eq_true; split; congruence).
  rewrite (flag_false _ _ _ (Z.eqb_eq _ _)). apply and_iff_compat_l, and_iff_compat_l.
  destruct (decide (p_expectMessages probe = [])) as [E|E]; [by split|].
  destruct (Nat.eqb_spec (length (p_expectMessages probe)) (length (Messages result))) as [El|El]; cbn [negb].
  - rewrite sameMessages_spec by done. destruct (bool_decide_reflect (p_expectMessages probe = Messages result)); split; intuition congruence.
  - split; [done|]. intros Em. by rewrite (Em E) in El.
Qed.

Lemma sendAll_ok stream l k : (forall k, cs_send stream k = None) -> sendAll stream l k = None.
Proof. intros Hs. revert k. induction l as [|x l IH]; intros k; [done|]. cbn [sendAll]. by rewrite Hs. Qed.

Lemma one_elem md k (vs : list string) : md !! k = Some vs -> md ∈ one md.
Proof. intros E. unfold one. destruct (decide (md = ∅)) as [->|]; [by apply lookup_empty_Some in E|by left]. Qed.

(** A value survives the hop through the proxy. *)
Lemma header_hop primary h range md k vs :
  (forall md', md' ∈ one md -> carries h md') -> (forall md', md' ∈ relayedHeaders (relayedOps primary h) -> carries range md') ->
  md !! k = Some vs -> vs <> [] -> list_to_map (M := MD) range !! k = Some vs.
Proof.
  intros C1 C2 E Hv. specialize (C1 _ (one_elem _ _ _ E)). pose proof (clone_carries _ _ _ _ C1 E Hv) as E1.
  rewrite relayedHeaders_ops in C2. destruct (decide (h = [])) as [->|].
  { exfalso. exact (lookup_empty_Some k vs E1). }
  destruct (C2 _ (list_elem_of_here _ _)) as (_ & _ & C). exact (C k vs E1 Hv).
Qed.
Lemma trailer_hop primary h range md k vs :
  (forall md', md' ∈ one md -> carries (cs_trailer primary) md') ->
  (forall md', md' ∈ relayedTrailers (relayedOps primary h) -> carries range md') ->
  md !! k = Some vs -> vs <> [] -> list_to_map (M := MD) range !! k = Some vs.
Proof.
  intros C1 C2 E Hv. specialize (C1 _ (one_elem _ _ _ E)). pose proof (clone_carries _ _ _ _ C1 E Hv) as E1.
  rewrite relayedTrailers_ops in C2. destruct (C2 _ (list_elem_of_here _ _)) as (_ & _ & C). exact (C k vs E1 Hv).
Qed.

(** What the probe makes of a stream that was delivered. *)
Lemma callStream_delivered headers messages trailers err stream probe :
  delivered headers messages trailers err stream ->
  exists result h, callStream (Ok stream) probe = Ok result /\ cs_header stream = Ok h /\
    Status result = Code_String (match err with None => codes_OK | Some e => status_Code e end) /\
    Messages result = messages /\
    (p_printMetadata probe = true -> default ∅ (Headers result) = list_to_map h /\
       default ∅ (Trailers result) = list_to_map (cs_trailer stream)).
Proof.
  intros [(h & Eh & _) Em _ De Hs Hc]. unfold callStream. cbn [mbind res_bind]. rewrite (sendAll_ok _ _ _ Hs), Hc.
  cbn [grpcconfig.check mbind res_bind]. eexists _, h. split; [reflexivity|]. split; [done|]. cbn [Status Messages Headers Trailers].
  split_and!; [|done|].
  - f_equal. destruct err as [e|]; [|by rewrite De, decide_True].
    destruct De as (c & m & E1 & ->). rewrite decide_False by done. unfold status_Code. by rewrite E1.
  - intros ->. rewrite Eh.
    assert (Cl : forall md, default ∅ (grpcprobe.cloneMetadata md) = md).
    { intros m. unfold grpcprobe.cloneMetadata. destruct (decide _) as [->|]; [done|]. apply copy_map_id. }
    by rewrite !Cl.
Qed.

(** The fake server, the proxy and the probe together.  For every RPC the
    proxy calls its primary for, when the primary is the fake server, grpc
    delivers what a handler sends, and the probe sends its payloads and takes
    every answer: the server receives exactly the payloads, the probe gets
    exactly the server's replies in its mode and the status its metadata asks
    for, the headers and trailers the server was started with are among those
    the probe prints, and the probe succeeds exactly when these are what it was
    told to expect. *)
Theorem probe_sees_fake time_ParseDuration QuoteList cfg h (rq : rpc) (s : handlerState (G := G) (W := W))
    target md primary probe probeStream :
  let out := (Handle h rq s).1 in
  rq_server rq = patient (p_payloads probe) -> p_payloads probe <> [] -> 0 <= streamCount cfg ->
  o_primary out = Some (target, md) -> rq_newStream rq target md = Ok primary ->
  let '(calls, err, entry) := handle time_ParseDuration cfg (rq_method rq) (Some md) (patient (forwarded (o_requests out))) in
  delivered (sentHeaders calls) (sentMessages calls) (sentTrailers calls) err primary ->
  delivered (relayedHeaders (o_responses out)) (relayedMessages (o_responses out)) (relayedTrailers (o_responses out))
    (endedWith out) probeStream ->
  forwarded (o_requests out) = p_payloads probe /\
  exists result, callStream (Ok probeStream) probe = Ok result /\
    let code := statusFor cfg md in
    Status result = Code_String code /\
    Messages result = replies cfg (modeFor cfg (splitFullMethod (default "" (rq_method rq))).2) code (p_payloads probe) /\
    (p_printMetadata probe = true -> forall k vs, vs <> [] ->
      (header cfg !! k = Some vs -> default ∅ (Headers result) !! k = Some vs) /\
      (trailer cfg !! k = Some vs -> default ∅ (Trailers result) !! k = Some vs)) /\
    (checkExpectations QuoteList probe result = None <-> expected probe code (Messages result)).
Proof.
  intros out Hserver Hne Hcount Hprimary Hstream.
  destruct (Handle_relays h rq s target md Hprimary) as (err' & _ & Rerr & Rest). fold out in Rerr, Rest.
  rewrite Hstream, Hserver in Rest. destruct Rest as (Rreq & Rresp & result & Rres).
  destruct (handle _ _ _ _ (patient (forwarded _))) as [[calls err] entry] eqn:Ef. intros D1 D2.
  destruct (forwarded_all (p_payloads probe) primary (dl_send _ _ _ _ _ D1) (dl_closeSend _ _ _ _ _ D1)) as [Fw Fe].
  rewrite <- Rreq in Fw. split; [done|]. rewrite Fw in Ef.
  pose proof (handle_replies time_ParseDuration cfg (rq_method rq) (Some md) (p_payloads probe) Hne Hcount) as F. cbv zeta in F.
  rewrite Ef in F. cbn [default] in F. destruct F as (F1 & F2 & F3 & F4 & _).
  destruct (forward_delivered (p_payloads probe) primary _ _ _ _ D1) as (hd & r' & e' & Eh & Efw & He).
  rewrite Efw in Rresp. cbn [fst] in Rresp. unfold forwardPrimaryStream in Rres. rewrite Efw in Rres.
  destruct (forwardClientToPrimary _ _ _) as [reqs sendErr]. cbn [snd] in Fe. subst sendErr.
  assert (err' = e') as ->. { destruct (rq_requestsFirst rq); cbn in Rres; by injection Rres. }
  destruct (callStream_delivered _ _ _ _ _ probe D2) as (res & h' & Ec & Eh' & Es & Em & Ep).
  exists res. split; [exact Ec|]. rewrite Rresp, relayedMessages_ops, (dl_messages _ _ _ _ _ D1), F1 in Em.
  assert (Est : Status res = Code_String (statusFor cfg md)).
  { rewrite Es. f_equal. unfold endedWith. rewrite Rerr. rewrite F4 in He. unfold failure in He. change (id md) with md in He.
    destruct (decide (statusFor cfg md <> codes_OK)) as [En|En].
    - destruct He as (c & m & [= <- <-] & ->). done.
    - rewrite He. by apply dec_stable in En. }
  split_and!; [exact Est|exact Em| |by apply checkExpectations_spec].
  intros Hp k vs Hv. destruct (Ep Hp) as [-> ->].
  destruct (dl_header _ _ _ _ _ D1) as (h1 & Eh1 & C1). destruct (dl_header _ _ _ _ _ D2) as (h2 & Eh2 & C2).
  pose proof (dl_trailer _ _ _ _ _ D1) as T1. pose proof (dl_trailer _ _ _ _ _ D2) as T2.
  rewrite Eh in Eh1. injection Eh1 as <-. rewrite Eh' in Eh2. injection Eh2 as <-.
  rewrite Rresp in C2, T2. rewrite F2 in C1. rewrite F3 in T1.
  split; intros E; [exact (header_hop _ _ _ _ _ _ C1 C2 E Hv)|exact (trailer_hop primary hd _ _ _ _ T1 T2 E Hv)].
Qed.
End proxy.

(** ** Witness *)

Definition exampleFake : config :=
  {| addr := ""; mode := modeAuto; status := codes_OK; statusMessage := ""; statusMetadataKey := "x-fake-status";
     delayMetadataKey := "x-fake-delay"; responsePrefix := "re:"; streamCount := 3; header := ∅; trailer := {["x-t" := ["1"]]};
     logMetadataKeys := []; tlsCert := ""; tlsKey := ""; clientCA := ""; requireClientCert := false |}.
Definition exampleProbe : probeConfig :=
  {| p_addr := "127.0.0.1:9444"; p_method := "/s/m"; p_mode := probeServerStream; p_payloads := ["q"]; p_metadata := ∅;
     p_expectStatus := codes_OK; p_expectStatusSet := true; p_expectCount := 1; p_expectCountSet := true;
     p_expectMessages := ["re:q"]; p_printMetadata := true; p_timeout := 1; p_tlsEnabled := false; p_rootCA := "";
     p_serverName := ""; p_insecureSkipVerify := false |}.
Definition exampleStream : clientScript :=
  {| cs_header := Ok []; cs_messages := ["re:q"]; cs_end := io_EOF; cs_trailer := [("x-t", ["1"])];
     cs_send := fun _ => None; cs_closeSend := None |}.
Definition exampleFakeRPC : rpc :=
  let r := exampleRPC (Some [1%nat]) in
  {| rq_method := rq_method r; rq_incoming := rq_incoming r; rq_peerAddr := rq_peerAddr r; rq_chains := rq_chains r;
     rq_traceID := rq_traceID r; rq_server := patient ["q"]; rq_range := rq_range r; rq_requestsFirst := rq_requestsFirst r;
     rq_elapsed := rq_elapsed r; rq_injectPrimary := rq_injectPrimary r; rq_injectShadow := rq_injectShadow r;
     rq_newStream := fun _ _ => Ok exampleStream; rq_introspect := rq_introspect r; rq_nowUnix := rq_nowUnix r;
     rq_now := rq_now r; rq_shadow := rq_shadow r |}.

Lemma example_delivered :
  @delivered asciiUnicode [] ["re:q"] [{["x-t" := ["1"]]}] None exampleStream.
Proof.
  split; [|done| |done|done|done].
  - exists []. split; [done|]. by intros md ?%elem_of_nil.
  - intros md Hm. apply list_elem_of_singleton in Hm as ->. split_and!.
    + apply (bool_decide_unpack _). by vm_compute.
    + apply (bool_decide_unpack _). by vm_compute.
    + intros k vs Hk _. apply lookup_singleton_Some in Hk as [<- <-]. done.
Qed.

Lemma probe_sees_fake_witness :
  exists result, callStream (Ok exampleStream) exampleProbe = Ok result /\ Messages result = ["re:q"] /\
    checkExpectations (fun _ => "") exampleProbe result = None.
Proof.
  pose (out := (@Handle Z Z forwarding.exampleShared exampleTokens textIP asciiUnicode callerauth.exampleURLs exampleProxy exampleFakeRPC exampleState).1).
  assert (Ep : o_primary out = Some (exampleTargetNamed "p" 0, {["k" := ["v"]; "authorization" := ["Bearer tok"]]})) by (vm_compute; reflexivity).
  pose proof (@probe_sees_fake Z Z forwarding.exampleShared exampleTokens textIP asciiUnicode callerauth.exampleURLs (fun _ => None) (fun _ => "")
    exampleFake exampleProxy exampleFakeRPC exampleState (exampleTargetNamed "p" 0) _ exampleStream exampleProbe exampleStream
    eq_refl ltac:(discriminate) ltac:(vm_compute; discriminate) Ep eq_refl) as G.
  fold out in G.
  assert (Ef : @handle asciiUnicode (fun _ => None) exampleFake (rq_method exampleFakeRPC)
    (Some {["k" := ["v"]; "authorization" := ["Bearer tok"]]}) (patient (forwarded (o_requests out))) =
    ([CallRecvMsg "q"; CallSetTrailer {["x-t" := ["1"]]}; CallSendMsg "re:q"], None,
     {| FullMethod := "/s/m"; Service := "s"; fakegrpc.Method := "m"; fakegrpc.Mode := modeUnaryEcho; Metadata := ∅;
        TraceMetadata := ∅; MessageCount := 1; ResponseMessageCount := 1; fakegrpc.Status := "OK"; StatusMessage := "OK" |}))
    by (vm_compute; reflexivity).
  rewrite Ef in G. destruct (G example_delivered) as (_ & result & Ec & Es & Em & _ & Hc).
  { assert (Er : relayedHeaders (o_responses out) = [] /\ relayedMessages (o_responses out) = ["re:q"] /\
      relayedTrailers (o_responses out) = [{["x-t" := ["1"]]}] /\ endedWith out = None) by (split_and!; vm_compute; reflexivity).
    destruct Er as (-> & -> & -> & ->). exact example_delivered. }
  exists result. split; [exact Ec|].
  assert (Em' : Messages result = ["re:q"]) by (rewrite Em; vm_compute; reflexivity).
  split; [exact Em'|]. apply Hc. rewrite Em'. unfold expected. split_and!; intros; vm_compute; reflexivity.
Defined.
End grpcend.
