(* ===== verification/FakeHttp.v ===== *)
(** * [internal/fakehttpserver] and [cmd/fakeotlpcollector]: two HTTP test servers

    The fake backend echoes request headers and may randomise some of them; the
    collector counts the spans and metrics it is sent.  The random source, the
    order of map ranges, protobuf and JSON are parameters; the fake backend as a
    program is in FakeMain.v, the flags and [main] of the collector in TestMains.v. *)
From S2P Require Export GoSha256 GoHttp Headers.
From S2P Require Import GoStrconv.

(** ** [internal/fakehttpserver] *)

Module fakehttp.

Definition modeEcho : string := "echo".
Definition modeRandom : string := "random".
Definition randomDefaultValue : string := "random".

Record Config := {
  ListenAddr : string;
  TLSCertFile : string;
  TLSKeyFile : string;
  Mode : string;
  EchoHeaders : list string;
  ResponseHeaders : gmap string string;
  RandomChance : Z;
  RandomHeaders : list string;
  RandomValues : list string;
  LogJSON : bool
}.
Definition UseJSONLogger (c : Config) : bool := LogJSON c.

Definition defaultEchoHeaders : list string :=
  ["Auth-Status"; "Auth-Server"; "Auth-Port"; "Auth-User"; "Auth-Error"; "X-Session-ID"].

(** What [setDefaults] leaves a file to override. *)
Definition setDefaults : Config :=
  {| ListenAddr := ":9001"; TLSCertFile := ""; TLSKeyFile := ""; Mode := modeEcho; EchoHeaders := defaultEchoHeaders;
     ResponseHeaders := ∅; RandomChance := 10; RandomHeaders := []; RandomValues := [randomDefaultValue]; LogJSON := true |}.

Definition validate `{Unicode} (cfg : Config) : res Config :=
  let mode := ToLower (TrimSpace (Mode cfg)) in
  if decide (mode <> modeEcho /\ mode <> modeRandom) then Err (errors_New ("invalid mode: " +:+ Mode cfg))
  else
    let echo := if decide (EchoHeaders cfg = []) then copy_slice defaultEchoHeaders else EchoHeaders cfg in
    let random := if decide (RandomHeaders cfg = []) then copy_slice echo else RandomHeaders cfg in
    let values := if decide (RandomValues cfg = []) then [randomDefaultValue] else RandomValues cfg in
    let chance := if RandomChance cfg <? 0 then 0 else RandomChance cfg in
    let chance := if 100 <? chance then 100 else chance in
    if existsb (fun kv : string * string => bool_decide (TrimSpace kv.1 = "")) (map_to_list (ResponseHeaders cfg)) then
      Err (errors_New "response_headers contains an empty header name")
    else
      Ok {| ListenAddr := ListenAddr cfg; TLSCertFile := TLSCertFile cfg; TLSKeyFile := TLSKeyFile cfg; Mode := mode;
            EchoHeaders := echo; ResponseHeaders := ResponseHeaders cfg; RandomChance := chance;
            RandomHeaders := random; RandomValues := values; LogJSON := LogJSON cfg |}.

(** The random source, under its mutex. *)
Class Rng (R : Type) := Intn : R -> Z -> Z * R.

(** The record of [logResponse]. *)
Record fakeResponse := {
  method : string; path : string; query : string; mode : string;
  request_headers : header; response_headers : header;
  request_content_type : string; request_content_length : Z;
  response_content_type : string; response_content_length : Z
}.
Record fakeRequest := {
  q_Method : string; q_Path : string; q_RawQuery : string; q_Header : header; q_ContentLength : Z }.
(** What is written to the client. *)
Record written := { w_Status : Z; w_Header : header; w_Body : string }.

Section handler.
Context {R : Type} `{Rng R} (range : gmap string string -> list (string * string)).
Context (cfg : Config).

Definition shouldRandomize (rng : R) : bool * R :=
  if RandomChance cfg <=? 0 then (false, rng)
  else if 100 <=? RandomChance cfg then (true, rng)
  else let '(n, rng) := Intn rng 100 in (n <? RandomChance cfg, rng).

(** [None]: an index out of range. *)
Definition randomValue (rng : R) : option string * R :=
  match RandomValues cfg with
  | [] => (Some randomDefaultValue, rng)
  | values => let '(n, rng) := Intn rng (Z.of_nat (length values)) in
      ((if n <? 0 then None else values !! Z.to_nat n), rng)
  end.

Definition echoHeader (request out : header) (key : string) : header :=
  let ck := CanonicalHeaderKey key in
  let value := Join (Values request ck) "," in
  if decide (value = "") then out else HeaderSet out ck value.

(** The loop of the random mode. *)
Fixpoint randomHeaders (keys : list string) (out : header) (rng : R) : option header * R :=
  match keys with
  | [] => (Some out, rng)
  | key :: keys' =>
      let '(yes, rng) := shouldRandomize rng in
      if yes then
        match randomValue rng with
        | (Some value, rng) => randomHeaders keys' (HeaderSet out (CanonicalHeaderKey key) value) rng
        | (None, rng) => (None, rng)
        end
      else randomHeaders keys' out rng
  end.

Definition requestContentLength (r : fakeRequest) : Z :=
  if q_ContentLength r <? 0 then
    let raw := Get (q_Header r) "Content-Length" in
    if decide (raw = "") then q_ContentLength r else default (q_ContentLength r) (Atoi raw)
  else q_ContentLength r.

(** A header that is set when it reads empty. *)
Definition orElse (h : header) (key value : string) : header :=
  if decide (Get h key = "") then HeaderSet h key value else h.

Definition logResponse (w : header) (r : fakeRequest) (reqHeaders : header) (reqContentType : string)
    (reqContentLength bodyLength : Z) : fakeResponse :=
  {| method := q_Method r; path := q_Path r; query := q_RawQuery r; mode := Mode cfg; request_headers := reqHeaders;
     response_headers := Clone w; request_content_type := reqContentType; request_content_length := reqContentLength;
     response_content_type := Get w "Content-Type"; response_content_length := bodyLength |}.

(** [ServeHTTP]; [None]: the handler panicked. *)
Definition ServeHTTP (r : fakeRequest) (rng : R) : option (written * fakeResponse) * R :=
  let reqHeaders := Clone (q_Header r) in
  let out := foldl (echoHeader (q_Header r)) ∅ (EchoHeaders cfg) in
  let '(out, rng) := if decide (Mode cfg = modeRandom) then randomHeaders (RandomHeaders cfg) out rng else (Some out, rng) in
  match out with
  | None => (None, rng)
  | Some out =>
      let out := foldl (fun out kv => HeaderSet out kv.1 kv.2) out (range (ResponseHeaders cfg)) in
      let body := "ok" in
      let out := orElse out "Content-Type" "text/plain; charset=utf-8" in
      let out := orElse out "Content-Length" (Itoa (len body)) in
      (Some ({| w_Status := 200; w_Header := out; w_Body := body |},
             logResponse out r reqHeaders (Get (q_Header r) "Content-Type") (requestContentLength r) (len body)), rng)
  end.
End handler.

(** ** What holds of it *)

Record wf (c : Config) : Prop := {
  wf_mode : Mode c = modeEcho \/ Mode c = modeRandom;
  wf_lists : EchoHeaders c <> [] /\ RandomHeaders c <> [] /\ RandomValues c <> [];
  wf_chance : 0 <= RandomChance c <= 100;
  wf_headers : forall k v, ResponseHeaders c !! k = Some v -> TrimSpace k <> ""
}.

Lemma blank_header (m : gmap string string) :
  existsb (fun kv : string * string => bool_decide (TrimSpace kv.1 = "")) (map_to_list m) = false <->
  forall k v, m !! k = Some v -> TrimSpace k <> "".
Proof.
  rewrite <- not_true_iff_false, existsb_exists. split.
  - intros Hn k v E Hk. apply Hn. exists (k, v). rewrite bool_decide_eq_true, <- list_elem_of_In. by rewrite elem_of_map_to_list.
  - intros Hm ([k v] & Hin%list_elem_of_In & Hk%bool_decide_eq_true). apply elem_of_map_to_list in Hin. by apply (Hm k v).
Qed.

Lemma modes_plain `{Unicode} m : m = modeEcho \/ m = modeRandom -> ToLower (TrimSpace m) = m.
Proof. by intros [-> | ->]. Qed.

(** An accepted configuration is well formed, and validating it again changes
    nothing. *)
Theorem validate_accepts `{Unicode} cfg c : validate cfg = Ok c -> wf c /\ validate c = Ok c.
Proof.
  intros E. assert (W : wf c).
  { unfold validate in E. destruct (decide (_ /\ _)) as [|Hm]; [done|].
    destruct (existsb _ _) eqn:Eh; [done|]. injection E as <-. split; cbn.
    - destruct (decide (ToLower (TrimSpace (Mode cfg)) = modeEcho)); [by left|right].
      destruct (decide (ToLower (TrimSpace (Mode cfg)) = modeRandom)); [done|tauto].
    - destruct (decide (EchoHeaders cfg = [])), (decide (RandomHeaders cfg = [])), (decide (RandomValues cfg = []));
        rewrite ?copy_slice_id; split_and!; done.
    - destruct (Z.ltb_spec (RandomChance cfg) 0) as [H0|H0]; [done|].
      destruct (Z.ltb_spec 100 (RandomChance cfg)); lia.
    - by apply blank_header. }
  split; [done|]. destruct W as [W1 (W2 & W3 & W4) W5 W6]. unfold validate. rewrite (modes_plain _ W1).
  rewrite (decide_False (P := _ /\ _)) by tauto. rewrite !decide_False by done. rewrite (proj2 (blank_header _) W6).
  rewrite (proj2 (Z.ltb_ge (RandomChance c) 0)) by lia. rewrite (proj2 (Z.ltb_ge 100 _)) by lia. by destruct c.
Qed.

Section serve.
Context {R : Type} `{Rng R} (range : gmap string string -> list (string * string)).
Context (Hrng : forall rng n, 0 < n -> 0 <= fst (Intn rng n) < n).

Lemma randomHeaders_total cfg keys out rng : RandomValues cfg <> [] -> exists h rng', randomHeaders cfg keys out rng = (Some h, rng').
Proof.
  intros Hv. revert out rng. induction keys as [|key keys IH]; intros out rng; cbn [randomHeaders]; [by do 2 eexists|].
  destruct (shouldRandomize cfg rng) as [[] rng1]; [|apply IH]. unfold randomValue.
  destruct (RandomValues cfg) as [|v vs] eqn:Ev; [done|].
  pose proof (Hrng rng1 (Z.of_nat (length (v :: vs))) ltac:(cbn; lia)) as Hn.
  destruct (Intn rng1 _) as [n rng2]. cbn [fst] in Hn. rewrite (proj2 (Z.ltb_ge n 0)) by lia.
  destruct (lookup_lt_is_Some_2 (v :: vs) (Z.to_nat n)) as [x ->]; [lia|]. apply IH.
Qed.

Lemma orElse_set h key value : value <> "" -> Get (orElse h key value) key <> "".
Proof. intros Hv. unfold orElse. destruct (decide _); [by rewrite Get_HeaderSet_eq|done]. Qed.
Lemma orElse_other h key value k : CanonicalHeaderKey key <> CanonicalHeaderKey k -> Get (orElse h key value) k = Get h k.
Proof. intros Hk. unfold orElse. destruct (decide _); [|done]. by apply Get_Set_ne. Qed.

(** Every request is answered with 200 and [ok], whatever the configuration
    draws; in echo mode nothing is drawn. *)
Theorem ServeHTTP_answers cfg r rng :
  wf cfg -> exists w l rng', ServeHTTP range cfg r rng = (Some (w, l), rng') /\
    w_Status w = 200 /\ w_Body w = "ok" /\ response_headers l = w_Header w /\ request_headers l = q_Header r /\
    Get (w_Header w) "Content-Type" <> "" /\ Get (w_Header w) "Content-Length" <> "" /\
    (Mode cfg = modeEcho -> rng' = rng).
Proof.
  intros [_ (_ & _ & Hv) _ _]. unfold ServeHTTP. set (echoed := foldl _ ∅ (EchoHeaders cfg)).
  assert (D : exists h rng', (if decide (Mode cfg = modeRandom) then randomHeaders cfg (RandomHeaders cfg) echoed rng
    else (Some echoed, rng)) = (Some h, rng') /\ (Mode cfg = modeEcho -> rng' = rng)).
  { destruct (decide (Mode cfg = modeRandom)) as [Em|Em].
    - destruct (randomHeaders_total cfg (RandomHeaders cfg) echoed rng Hv) as (h & rng' & E). exists h, rng'.
      split; [done|]. intros Em'. rewrite Em in Em'. discriminate Em'.
    - by exists echoed, rng. }
  destruct D as (h & rng' & -> & Hrng'). eexists _, _, rng'. split; [reflexivity|]. cbn [w_Status w_Body w_Header].
  split_and!; [done|done|apply Clone_id|apply Clone_id| |by apply orElse_set|done].
  rewrite orElse_other by done. by apply orElse_set.
Qed.
End serve.
End fakehttp.

(** ** [cmd/fakeotlpcollector] *)

Module collector.

Record span := { sp_Name : string; sp_TraceId : string }.
(** An export request: resources, scopes, items. *)
Definition traceRequest := list (list (list span)).
Definition metricRequest := list (list (list string)).

Record spanRecord := { name : string; traceID : string }.
Record collectorState := {
  traceRequests : Z;
  metricRequests : Z;
  spans : gmap string Z;
  traceIDs : gmap string Z;
  metrics : gmap string Z
}.
Record summary := {
  TraceRequests : Z; MetricRequests : Z; Spans : list string; TraceIDs : list string; Metrics : list string }.

Definition newCollectorState : collectorState :=
  {| traceRequests := 0; metricRequests := 0; spans := ∅; traceIDs := ∅; metrics := ∅ |}.

(** [m[key]++] *)
Definition bump (m : gmap string Z) (key : string) : gmap string Z := <[key := i64 (default 0 (m !! key) + 1)]> m.

Definition collectSpanNames (request : traceRequest) : list spanRecord :=
  request ≫= fun resourceSpans => resourceSpans ≫= fun scopeSpans =>
    (fun s => {| name := sp_Name s; traceID := hex_EncodeToString (sp_TraceId s) |}) <$> scopeSpans.
Definition spanNames (records : list spanRecord) : list string := name <$> records.
Definition collectMetricNames (request : metricRequest) : list string :=
  request ≫= fun resourceMetrics => resourceMetrics ≫= fun scopeMetrics => scopeMetrics.

Definition recordTraces (s : collectorState) (request : traceRequest) : list string * collectorState :=
  let names := collectSpanNames request in
  (spanNames names,
   {| traceRequests := i64 (traceRequests s + 1); metricRequests := metricRequests s;
      spans := foldl (fun m item => bump m (name item)) (spans s) names;
      traceIDs := foldl (fun m item => bump m (traceID item)) (traceIDs s) names; metrics := metrics s |}).
Definition recordMetrics (s : collectorState) (request : metricRequest) : list string * collectorState :=
  let names := collectMetricNames request in
  (names,
   {| traceRequests := traceRequests s; metricRequests := i64 (metricRequests s + 1); spans := spans s;
      traceIDs := traceIDs s; metrics := foldl bump (metrics s) names |}).

Definition sortedKeys (values : gmap string Z) : list string := sort_Strings (map_to_list values).*1.
Definition snapshot (s : collectorState) : summary :=
  {| TraceRequests := traceRequests s; MetricRequests := metricRequests s; Spans := sortedKeys (spans s);
     TraceIDs := sortedKeys (traceIDs s); Metrics := sortedKeys (metrics s) |}.

Section handlers.
(** [proto.Unmarshal] of the two requests, [proto.Marshal] of the two empty
    responses, [json.Encoder.Encode] of the summary. *)
Context (UnmarshalTraces : string -> res traceRequest) (UnmarshalMetrics : string -> res metricRequest).
Context (MarshalTraces MarshalMetrics : res string) (EncodeSummary : summary -> res string).

Record response := { r_Status : Z; r_ContentType : string; r_Body : string }.
(** [http.Error] *)
Definition http_Error (text : string) (code : Z) : response :=
  {| r_Status := code; r_ContentType := "text/plain; charset=utf-8"; r_Body := text +:+ of_chars [ascii_of_nat 10] |}.

Definition healthHandler : response := {| r_Status := 200; r_ContentType := ""; r_Body := "ok" +:+ of_chars [ascii_of_nat 10] |}.

(** An encoding that fails has written nothing. *)
Definition summaryHandler (s : collectorState) : response :=
  match EncodeSummary (snapshot s) with
  | Ok text => {| r_Status := 200; r_ContentType := "application/json"; r_Body := text |}
  | Err err => http_Error (Error err) 500
  end.

(** [readProto]: the message, or the response of the refusal; the body is what
    reading it gives. *)
Definition readProto {M} (Unmarshal : string -> res M) (body : res string) : M + response :=
  match body with
  | Err err => inr (http_Error (Error err) 400)
  | Ok bytes =>
      match Unmarshal bytes with
      | Err err => inr (http_Error (Error err) 400)
      | Ok message => inl message
      end
  end.
Definition writeProto (marshalled : res string) : response :=
  match marshalled with
  | Err err => http_Error (Error err) 500
  | Ok body => {| r_Status := 200; r_ContentType := "application/x-protobuf"; r_Body := body |}
  end.

(** [collectionHandler]: the response, the event logged, the state. *)
Definition collectionHandler {M} (kind : string) (Unmarshal : string -> res M) (marshalled : res string)
    (record : collectorState -> M -> list string * collectorState) (s : collectorState) (body : res string)
    : response * option (string * list string) * collectorState :=
  match readProto Unmarshal body with
  | inr refused => (refused, None, s)
  | inl request => let '(names, s) := record s request in (writeProto marshalled, Some (kind, names), s)
  end.
Definition traceHandler := collectionHandler "traces" UnmarshalTraces MarshalTraces recordTraces.
Definition metricHandler := collectionHandler "metrics" UnmarshalMetrics MarshalMetrics recordMetrics.

(** The multiplexer of [main]. *)
Inductive request := Healthz | Summary | PostTraces (body : res string) | PostMetrics (body : res string).
Definition serve (s : collectorState) (r : request) : response * collectorState :=
  match r with
  | Healthz => (healthHandler, s)
  | Summary => (summaryHandler s, s)
  | PostTraces body => let '(resp, _, s) := traceHandler s body in (resp, s)
  | PostMetrics body => let '(resp, _, s) := metricHandler s body in (resp, s)
  end.

(** ** What holds of it *)

(** The state after a sequence of requests: the mutex makes each one a step. *)
Definition after (s : collectorState) (rs : list request) : collectorState := foldl (fun s r => snd (serve s r)) s rs.

Lemma bump_comm m k j : bump (bump m k) j = bump (bump m j) k.
Proof.
  destruct (decide (k = j)) as [->|Hk]; [done|]. unfold bump. rewrite !lookup_insert_ne by done.
  by rewrite insert_insert_ne.
Qed.
Lemma bumps_comm m ks k : bump (foldl bump m ks) k = foldl bump (bump m k) ks.
Proof. revert m. induction ks as [|j ks IH]; intros m; cbn; [done|]. by rewrite IH, bump_comm. Qed.
Lemma bumps_swap m ks js : foldl bump (foldl bump m ks) js = foldl bump (foldl bump m js) ks.
Proof. revert m. induction js as [|j js IH]; intros m; cbn; [done|]. by rewrite bumps_comm, IH. Qed.
Lemma bumps_fmap {A} (f : A -> string) (l : list A) m : foldl (fun m x => bump m (f x)) m l = foldl bump m (f <$> l).
Proof. revert m. induction l as [|x l IH]; intros m; cbn; [done|]. apply IH. Qed.

(** What a request adds, if it is read and decoded. *)
Definition accepted (r : request) : option (traceRequest + metricRequest) :=
  match r with
  | PostTraces body => match readProto UnmarshalTraces body with inl m => Some (inl m) | inr _ => None end
  | PostMetrics body => match readProto UnmarshalMetrics body with inl m => Some (inr m) | inr _ => None end
  | _ => None
  end.
Definition counted (s : collectorState) (r : option (traceRequest + metricRequest)) : collectorState :=
  match r with
  | None => s
  | Some (inl m) =>
      let names := collectSpanNames m in
      {| traceRequests := i64 (traceRequests s + 1); metricRequests := metricRequests s;
         spans := foldl bump (spans s) (name <$> names); traceIDs := foldl bump (traceIDs s) (traceID <$> names);
         metrics := metrics s |}
  | Some (inr m) =>
      {| traceRequests := traceRequests s; metricRequests := i64 (metricRequests s + 1); spans := spans s;
         traceIDs := traceIDs s; metrics := foldl bump (metrics s) (collectMetricNames m) |}
  end.
Lemma serve_counted s r : snd (serve s r) = counted s (accepted r).
Proof.
  destruct r as [| |b|b]; [done|done| |]; unfold serve, traceHandler, metricHandler, collectionHandler, accepted.
  - destruct (readProto _ b); [|done]. unfold recordTraces. cbn [snd]. rewrite (bumps_fmap name), (bumps_fmap traceID). reflexivity.
  - by destruct (readProto _ b).
Qed.
Lemma counted_swap s r1 r2 : counted (counted s r1) r2 = counted (counted s r2) r1.
Proof.
  destruct r1 as [[m1|m1]|], r2 as [[m2|m2]|]; cbn [counted traceRequests metricRequests spans traceIDs metrics]; try reflexivity.
  - rewrite (bumps_swap (spans s) (name <$> collectSpanNames m1) (name <$> collectSpanNames m2)).
    rewrite (bumps_swap (traceIDs s) (traceID <$> collectSpanNames m1) (traceID <$> collectSpanNames m2)). reflexivity.
  - rewrite (bumps_swap (metrics s) (collectMetricNames m1) (collectMetricNames m2)). reflexivity.
Qed.
Lemma serve_swap s r1 r2 : snd (serve (snd (serve s r1)) r2) = snd (serve (snd (serve s r2)) r1).
Proof. rewrite !serve_counted. apply counted_swap. Qed.

Lemma after_perm s rs rs' : rs ≡ₚ rs' -> after s rs = after s rs'.
Proof.
  unfold after. intros E. revert s. induction E as [|r rs rs' _ IH|r1 r2 rs|rs1 rs2 rs3 _ IH1 _ IH2]; intros s; cbn [foldl].
  - reflexivity.
  - apply IH.
  - rewrite serve_swap. reflexivity.
  - rewrite IH1. apply IH2.
Qed.

Lemma elem_of_sortedKeys m k : k ∈ sortedKeys m <-> is_Some (m !! k).
Proof.
  unfold sortedKeys. rewrite sort_Strings_perm, list_elem_of_fmap. split.
  - intros ([j v] & -> & Hin). apply elem_of_map_to_list in Hin. by exists v.
  - intros [v E]. exists (k, v). by rewrite elem_of_map_to_list.
Qed.
Lemma bumps_keys m ks k : is_Some (foldl bump m ks !! k) <-> is_Some (m !! k) \/ k ∈ ks.
Proof.
  revert m. induction ks as [|j ks IH]; intros m; cbn [foldl]; [rewrite elem_of_nil; tauto|].
  rewrite IH, elem_of_cons. unfold bump. destruct (decide (k = j)) as [->|Hk].
  - rewrite lookup_insert_eq. split; [tauto|]. intros _. left. by eexists.
  - rewrite lookup_insert_ne by done. tauto.
Qed.

(** The requests the collector has counted. *)
Definition traces (rs : list request) : list traceRequest :=
  omap (fun r => match accepted r with Some (inl m) => Some m | _ => None end) rs.
Definition metricRequestsOf (rs : list request) : list metricRequest :=
  omap (fun r => match accepted r with Some (inr m) => Some m | _ => None end) rs.

Lemma after_keys rs s k :
  (is_Some (spans (after s rs) !! k) <-> is_Some (spans s !! k) \/ exists m, m ∈ traces rs /\ k ∈ name <$> collectSpanNames m) /\
  (is_Some (metrics (after s rs) !! k) <-> is_Some (metrics s !! k) \/ exists m, m ∈ metricRequestsOf rs /\ k ∈ collectMetricNames m).
Proof.
  revert s. induction rs as [|r rs IH]; intros s; unfold after; cbn [foldl].
  { unfold traces, metricRequestsOf. cbn. setoid_rewrite elem_of_nil. split; naive_solver. }
  fold (after (snd (serve s r)) rs). rewrite serve_counted. destruct (IH (counted s (accepted r))) as [IH1 IH2].
  rewrite IH1, IH2. unfold traces, metricRequestsOf. cbn [omap list_omap].
  destruct (accepted r) as [[m|m]|]; cbn [counted spans metrics].
  - rewrite bumps_keys. split; [|done]. setoid_rewrite elem_of_cons. naive_solver.
  - rewrite bumps_keys. split; [done|]. setoid_rewrite elem_of_cons. naive_solver.
  - done.
Qed.

Lemma after_counts rs s :
  0 <= traceRequests s -> 0 <= metricRequests s ->
  traceRequests s + Z.of_nat (length rs) < 2 ^ 63 -> metricRequests s + Z.of_nat (length rs) < 2 ^ 63 ->
  traceRequests (after s rs) = traceRequests s + Z.of_nat (length (traces rs)) /\
  metricRequests (after s rs) = metricRequests s + Z.of_nat (length (metricRequestsOf rs)).
Proof.
  revert s. induction rs as [|r rs IH]; intros s T M HT HM; unfold after; cbn [foldl length] in *.
  { cbn. lia. }
  fold (after (snd (serve s r)) rs). rewrite serve_counted. unfold traces, metricRequestsOf in *. cbn [omap list_omap].
  assert (E : i64 (traceRequests s + 1) = traceRequests s + 1 /\ i64 (metricRequests s + 1) = metricRequests s + 1)
    by (split; apply i64_small; lia).
  destruct E as [E1 E2]. specialize (IH (counted s (accepted r))).
  destruct (accepted r) as [[m|m]|]; cbn [counted traceRequests metricRequests length] in *; rewrite ?E1, ?E2 in IH |- *;
    destruct IH as [-> ->]; lia.
Qed.

(** The summary after any requests: how many were counted, and, sorted, exactly
    the names of their spans and metrics; a request that cannot be read or decoded
    is refused with 400 and changes nothing; and the order in which concurrent
    requests take the lock does not matter. *)
Theorem collector_summary rs :
  Z.of_nat (length rs) < 2 ^ 63 ->
  let s := after newCollectorState rs in
  TraceRequests (snapshot s) = Z.of_nat (length (traces rs)) /\
  MetricRequests (snapshot s) = Z.of_nat (length (metricRequestsOf rs)) /\
  StronglySorted String.le (Spans (snapshot s)) /\ StronglySorted String.le (Metrics (snapshot s)) /\
  (forall k, k ∈ Spans (snapshot s) <-> exists m, m ∈ traces rs /\ k ∈ name <$> collectSpanNames m) /\
  (forall k, k ∈ Metrics (snapshot s) <-> exists m, m ∈ metricRequestsOf rs /\ k ∈ collectMetricNames m) /\
  (forall body err, body = Err err \/ (exists b, body = Ok b /\ UnmarshalTraces b = Err err) ->
     r_Status (serve s (PostTraces body)).1 = 400 /\ (serve s (PostTraces body)).2 = s) /\
  (forall rs', rs ≡ₚ rs' -> snapshot (after newCollectorState rs') = snapshot s).
Proof.
  intros Hl s. destruct (after_counts rs newCollectorState) as [C1 C2]; [done|done|cbn; lia..|].
  split_and!.
  - exact C1.
  - exact C2.
  - apply sort_Strings_sorted.
  - apply sort_Strings_sorted.
  - intros k. cbn [Spans snapshot]. rewrite elem_of_sortedKeys. unfold s. rewrite (proj1 (after_keys rs _ k)).
    cbn [spans newCollectorState]. rewrite lookup_empty. split; [intros [[? [=]]|?]; done|by right].
  - intros k. cbn [Metrics snapshot]. rewrite elem_of_sortedKeys. unfold s. rewrite (proj2 (after_keys rs _ k)).
    cbn [metrics newCollectorState]. rewrite lookup_empty. split; [intros [[? [=]]|?]; done|by right].
  - intros body err Hb. unfold serve, traceHandler, collectionHandler, readProto.
    destruct Hb as [->|(b & -> & ->)]; split; reflexivity.
  - intros rs' E. unfold s. by rewrite (after_perm _ _ _ E).
Qed.
End handlers.
End collector.
