(* ===== verification/FakeMain.v ===== *)
(** * The fake HTTP backend as a program

    [Load], [NewServer] and [RegisterHooks] of [internal/fakehttpserver] and
    [cmd/fakehttpserver/main.go], on the viper of Load.v and the fx of Process.v.
    What the server does to the outside is a list of events; log lines are left
    out. *)
From S2P Require Export FakeHttp Process.

Module fakemain.
Import grpcconfig lifecycle fakehttp viper.

(** ** [config.go]: [Load] *)

Section load.
Context `{Unicode} {Settings : Type} `{Files Settings}.
(** viper's [Unmarshal] of settings over the defaults. *)
Context (Unmarshal : Config -> Settings -> res Config).

Definition searching : Viper Settings :=
  AddConfigPath (AddConfigPath (SetConfigType (SetConfigName New "fakehttpserver") "yaml") ".") "/etc/doppelgaenger".
Definition newViper (config_file : string) : Viper Settings :=
  let configFile := TrimSpace config_file in
  if decide (configFile <> "") then SetConfigFile New configFile else searching.
Definition Load (config_file : string) : res Config :=
  v ← res_wrap (wrapped "read config") (ReadInConfig 0 (newViper config_file));
  cfg ← res_wrap (wrapped "decode config") (Unmarshal setDefaults (settings v));
  validate cfg.
End load.

(** ** [logger.go] *)

Definition newLogHandler (useJSON : bool) : logger.handler :=
  if useJSON then logger.JSONHandler logging.LevelInfo else logger.TextHandler logging.LevelInfo.
Definition NewLogger (cfg : Config) : logger.handler := newLogHandler (UseJSONLogger cfg).

(** ** [server.go] *)

Record server := { srv_Addr : string; srv_ReadHeaderTimeout : Z; srv_IdleTimeout : Z }.
Definition NewServer (cfg : Config) : server :=
  {| srv_Addr := ListenAddr cfg; srv_ReadHeaderTimeout := 5000000000; srv_IdleTimeout := 60000000000 |}.

Inductive event :=
  | Serving (addr : string) (tls : option (string * string))   (* the goroutine *)
  | ShutdownServer
  | ShutdownRequested.                                         (* [fx] is asked to stop *)
Definition serve (cfg : Config) (srv : server) : event :=
  Serving (srv_Addr srv)
    (if decide (TLSCertFile cfg <> "" /\ TLSKeyFile cfg <> "") then Some (TLSCertFile cfg, TLSKeyFile cfg) else None).

(** [drain] is what [srv.Shutdown] says of connections that do not end. *)
Definition RegisterHooks (drain : option error) (cfg : Config) (srv : server) : fx.Hook (list event) := {|
  fx.OnStart := fun s => (Ok tt, (s ++ [serve cfg srv])%list);
  fx.OnStop := fun s => (check drain, (s ++ [ShutdownServer])%list) |}.

(** What happens while it runs: the end of the goroutine, or a signal. *)
Fixpoint await (l : list process.incident) (s : list event) : option fx.ShutdownSignal * list event :=
  match l with
  | [] => (None, s)
  | process.OSSignal name :: _ => (Some (fx.osSignal name), s)
  | process.ServeReturned (Some err) :: l =>
      if errors_Is err http_ErrServerClosed then await l s else (Some fx.Shutdown, (s ++ [ShutdownRequested])%list)
  | process.ServeReturned None :: l => await l s
  end.

(** ** [cmd/fakehttpserver/main.go] *)

Definition newApp (drain : option error) (loaded : res Config) : fx.App (list event) :=
  match loaded with
  | Err e => {| fx.err := Some e; fx.hooks := [] |}
  | Ok cfg => {| fx.err := None; fx.hooks := [RegisterHooks drain cfg (NewServer cfg)] |}
  end.
(** The exit code and the events. *)
Definition main (drain : option error) (loaded : res Config) (startCtx stopCtx : fx.Context_)
    (incidents : list process.incident) : option Z * list event :=
  fx.run (newApp drain loaded) startCtx stopCtx (await incidents) [].

(** ** Properties *)

Section properties.
Context (drain : option error) (startCtx stopCtx : fx.Context_).
Context (Hstart : forall k, startCtx k = None) (Hstop : forall k, stopCtx k = None).

Lemma await_events l : forall s, exists more, (await l s).2 = (s ++ more)%list /\
  ((await l s).1 = None -> more = []) /\ (more = [] \/ more = [ShutdownRequested]) /\
  (forall sig, (await l s).1 = Some sig -> fx.ExitCode sig = 0).
Proof.
  induction l as [|[name|[err|]] l IH]; intros s; cbn [await]; [| | |apply IH].
  - exists []. rewrite app_nil_r. split_and!; [done|done|by left|done].
  - exists []. rewrite app_nil_r. split_and!; [done|done|by left|by intros ? [= <-]].
  - destruct (errors_Is err http_ErrServerClosed); [apply IH|]. exists [ShutdownRequested].
    split_and!; [done|done|by right|by intros ? [= <-]].
Qed.

(** The program serves once, and shuts the server down when it ends; it ends with
    1 when there is no configuration or the server does not drain, and with 0
    otherwise, also when serving has failed. *)
Lemma main_serves loaded incidents :
  match loaded with
  | Err _ => main drain loaded startCtx stopCtx incidents = (Some 1, [])
  | Ok cfg => exists failed, (failed = [] \/ failed = [ShutdownRequested]) /\
      (main drain loaded startCtx stopCtx incidents = (None, [serve cfg (NewServer cfg)]) \/
       main drain loaded startCtx stopCtx incidents =
         (Some (match drain with Some _ => 1 | None => 0 end), (serve cfg (NewServer cfg) :: failed ++ [ShutdownServer])%list))
  end.
Proof.
  destruct loaded as [cfg|e]; [|done]. unfold main, newApp, fx.run, fx.Start, fx.start, fx.lifecycle_Start, fx.withTimeout.
  cbn [fx.err fx.hooks fx.startLoop fx.OnStart RegisterHooks app]. rewrite !Hstart.
  destruct (await_events incidents [serve cfg (NewServer cfg)]) as (more & E1 & E2 & E3 & E4).
  destruct (await incidents [serve cfg (NewServer cfg)]) as [[sig|] s]; cbn [fst snd] in *; subst s; exists more; (split; [done|]).
  - right. unfold fx.Stop, fx.lifecycle_Stop, fx.withTimeout. cbn [fx.hooks length take reverse rev_append fx.stopLoop fx.OnStop RegisterHooks].
    change (reverse [RegisterHooks drain cfg (NewServer cfg)]) with [RegisterHooks drain cfg (NewServer cfg)].
    cbn [fx.stopLoop fx.OnStop RegisterHooks]. rewrite !Hstop. rewrite <- app_assoc, (E4 sig eq_refl). by destruct drain.
  - left. rewrite (E2 eq_refl). done.
Qed.
End properties.

(** One of the two TLS files is not enough, and is not reported either. *)
Lemma half_tls cfg : TLSKeyFile cfg = "" -> serve cfg (NewServer cfg) = Serving (ListenAddr cfg) None.
Proof. intros E. unfold serve. rewrite decide_False; [done|]. rewrite E. by intros [_ G]. Qed.

(** A server whose address is taken. *)
Example failed_fake_server :
  main None (Ok setDefaults) process.never process.never [process.ServeReturned (Some (errors_New "address already in use"))] =
    (Some 0, [Serving ":9001" None; ShutdownRequested; ShutdownServer]).
Proof. reflexivity. Qed.
End fakemain.
