(* ===== verification/TestMains.v ===== *)
(** * The flags and the mains of the test programs

    [parseFlags] and [main] of [cmd/fakegrpcserver] and [cmd/grpcprobe], and [main]
    of [cmd/fakemilterserver], [cmd/milterprobe] and [cmd/fakeotlpcollector].
    Opening files and sockets and serving are parameters; what is printed is left
    out, but for the result of a probe. *)
From S2P Require Export GoFlag FakeGrpc FakeHttp MilterProxy.

(** ** [cmd/fakegrpcserver/main.go] *)

Module fakegrpcmain.
Import goflag fakegrpc.

Section main.
Context `{Unicode}.

(** The text flags, by name. *)
Definition putString (name v : string) (s : config * fakeFlagValues) : config * fakeFlagValues :=
  let '(cfg, values) := s in
  let var n old := if decide (name = n) then v else old in
  ({| addr := var "listen" (addr cfg); mode := var "mode" (mode cfg); status := status cfg;
      statusMessage := var "status-message" (statusMessage cfg);
      statusMetadataKey := var "status-metadata-key" (statusMetadataKey cfg);
      delayMetadataKey := var "delay-metadata-key" (delayMetadataKey cfg);
      responsePrefix := var "response-prefix" (responsePrefix cfg); streamCount := streamCount cfg;
      header := header cfg; trailer := trailer cfg; logMetadataKeys := logMetadataKeys cfg;
      tlsCert := var "tls-cert" (tlsCert cfg); tlsKey := var "tls-key" (tlsKey cfg); clientCA := var "client-ca" (clientCA cfg);
      requireClientCert := requireClientCert cfg |}, values).
Definition putNumbers (code count : option Z) (require : option bool) (s : config * fakeFlagValues) : config * fakeFlagValues :=
  let '(cfg, values) := s in
  ({| addr := addr cfg; mode := mode cfg; status := default (status cfg) code; statusMessage := statusMessage cfg;
      statusMetadataKey := statusMetadataKey cfg; delayMetadataKey := delayMetadataKey cfg;
      responsePrefix := responsePrefix cfg; streamCount := default (streamCount cfg) count; header := header cfg;
      trailer := trailer cfg; logMetadataKeys := logMetadataKeys cfg; tlsCert := tlsCert cfg; tlsKey := tlsKey cfg;
      clientCA := clientCA cfg; requireClientCert := default (requireClientCert cfg) require |}, values).
(** [stringSlice.Set] *)
Definition appendValue (name v : string) (s : config * fakeFlagValues) : config * fakeFlagValues :=
  let more n l := if decide (name = n) then (l ++ [v])%list else l in
  (s.1, {| headers := more "header" (headers s.2); trailers := more "trailer" (trailers s.2);
           metadataKeys := more "log-metadata-key" (metadataKeys s.2) |}).

Definition flags : list (Flag (config * fakeFlagValues)) :=
  (((fun name => StringVar name (putString name)) <$>
      ["listen"; "mode"; "status-message"; "status-metadata-key"; "delay-metadata-key"; "response-prefix"; "tls-cert"; "tls-key";
       "client-ca"]) ++
   ((fun name => StringVar name (appendValue name)) <$> ["header"; "trailer"; "log-metadata-key"]) ++
   [Func "status-code" (fun v s => code ← parseCode v; Ok (putNumbers (Some code) None None s));
    IntVar "stream-count" (fun n => putNumbers None (Some n) None);
    BoolVar "require-client-cert" (fun b => putNumbers None None (Some b))])%list.

Definition parseFlags (args : list string) : res config :=
  '((cfg, values), _) ← Parse flags (registerFakeFlags, {| headers := []; trailers := []; metadataKeys := [] |}) args;
  normalizeFakeConfig cfg values.

(** The exit code, and the configuration that was served with its TLS settings. *)
Definition main (net_Listen : string -> option error) (LoadX509KeyPair : string -> string -> option error)
    (ReadFile : string -> option error) (AppendCertsFromPEM : string -> bool) (Serve : option error) (args : list string)
    : Z * option (config * option tlsServer) :=
  match parseFlags args with
  | Err _ => (2, None)
  | Ok cfg =>
      match net_Listen (addr cfg) with
      | Some _ => (1, None)
      | None =>
          match serverCredentials LoadX509KeyPair ReadFile AppendCertsFromPEM cfg with
          | Err _ => (1, None)
          | Ok creds => (match Serve with Some _ => 1 | None => 0 end, Some (cfg, creds))
          end
      end
  end.
(** Every flag but [-require-client-cert] can be spelled in four ways, in any order,
    and means what it is registered to. *)
Lemma flags_known f : f ∈ flags -> lookup flags (Name f) = Some f /\ plain_name (Name f).
Proof.
  intros Hf. assert (G : Forall (fun f => lookup flags (Name f) = Some f /\ plain_name (Name f)) flags).
  { repeat (apply Forall_cons; split); [..|apply Forall_nil; done]; (split; [reflexivity|]); split_and!; try done; cbn; set_solver. }
  by apply (proj1 (Forall_forall _ _) G).
Qed.
Lemma parseFlags_spelled l :
  Forall (fun x : Flag (config * fakeFlagValues) * string * list string =>
    x.1.1 ∈ flags /\ IsBoolFlag x.1.1 = false /\ spelled x.1.1 x.1.2 x.2) l ->
  parseFlags (l ≫= snd) =
    ('(cfg, values) ← setAll l (registerFakeFlags, {| headers := []; trailers := []; metadataKeys := [] |});
     normalizeFakeConfig cfg values).
Proof.
  intros Hl. unfold parseFlags. rewrite Parse_spelled.
  - by destruct (setAll l _) as [[cfg values]|e].
  - eapply Forall_impl; [exact Hl|]. intros x (H1 & H2 & H3). destruct (flags_known _ H1). done.
Qed.
End main.
End fakegrpcmain.

(** ** [cmd/grpcprobe/main.go] *)

Module grpcprobemain.
Import goflag grpcstream grpcprobe.

Section main.
Context `{Unicode} (time_ParseDuration : string -> option Z).

Definition putString (name v : string) (s : probeConfig * probeFlagValues) : probeConfig * probeFlagValues :=
  let '(cfg, values) := s in
  let var n old := if decide (name = n) then v else old in
  ({| p_addr := var "addr" (p_addr cfg); p_method := var "method" (p_method cfg); p_mode := var "mode" (p_mode cfg);
      p_payloads := p_payloads cfg; p_metadata := p_metadata cfg; p_expectStatus := p_expectStatus cfg;
      p_expectStatusSet := p_expectStatusSet cfg; p_expectCount := p_expectCount cfg;
      p_expectCountSet := p_expectCountSet cfg; p_expectMessages := p_expectMessages cfg;
      p_printMetadata := p_printMetadata cfg; p_timeout := p_timeout cfg; p_tlsEnabled := p_tlsEnabled cfg;
      p_rootCA := var "root-ca" (p_rootCA cfg); p_serverName := var "server-name" (p_serverName cfg);
      p_insecureSkipVerify := p_insecureSkipVerify cfg |}, values).
Definition putBool (name : string) (b : bool) (s : probeConfig * probeFlagValues) : probeConfig * probeFlagValues :=
  let '(cfg, values) := s in
  let var n old := if decide (name = n) then b else old in
  ({| p_addr := p_addr cfg; p_method := p_method cfg; p_mode := p_mode cfg; p_payloads := p_payloads cfg;
      p_metadata := p_metadata cfg; p_expectStatus := p_expectStatus cfg; p_expectStatusSet := p_expectStatusSet cfg;
      p_expectCount := p_expectCount cfg; p_expectCountSet := p_expectCountSet cfg; p_expectMessages := p_expectMessages cfg;
      p_printMetadata := var "print-metadata" (p_printMetadata cfg); p_timeout := p_timeout cfg;
      p_tlsEnabled := var "tls" (p_tlsEnabled cfg); p_rootCA := p_rootCA cfg; p_serverName := p_serverName cfg;
      p_insecureSkipVerify := var "insecure-skip-verify" (p_insecureSkipVerify cfg) |}, values).
Definition putNumber (count timeout : option Z) (s : probeConfig * probeFlagValues) : probeConfig * probeFlagValues :=
  let '(cfg, values) := s in
  ({| p_addr := p_addr cfg; p_method := p_method cfg; p_mode := p_mode cfg; p_payloads := p_payloads cfg;
      p_metadata := p_metadata cfg; p_expectStatus := p_expectStatus cfg; p_expectStatusSet := p_expectStatusSet cfg;
      p_expectCount := default (p_expectCount cfg) count; p_expectCountSet := p_expectCountSet cfg;
      p_expectMessages := p_expectMessages cfg; p_printMetadata := p_printMetadata cfg;
      p_timeout := default (p_timeout cfg) timeout; p_tlsEnabled := p_tlsEnabled cfg; p_rootCA := p_rootCA cfg;
      p_serverName := p_serverName cfg; p_insecureSkipVerify := p_insecureSkipVerify cfg |}, values).
Definition appendValue (name v : string) (s : probeConfig * probeFlagValues) : probeConfig * probeFlagValues :=
  let more n l := if decide (name = n) then (l ++ [v])%list else l in
  (s.1, {| metadataPairs := more "metadata" (metadataPairs s.2); payloads := more "payload" (payloads s.2);
           expectedMessages := more "expect-message" (expectedMessages s.2) |}).

Definition flags : list (Flag (probeConfig * probeFlagValues)) :=
  (((fun name => StringVar name (putString name)) <$> ["addr"; "method"; "mode"; "root-ca"; "server-name"]) ++
   ((fun name => StringVar name (appendValue name)) <$> ["payload"; "metadata"; "expect-message"]) ++
   [Func "expect-status" (fun v s => cfg ← expectStatus s.1 v; Ok (cfg, s.2));
    IntVar "expect-count" (fun n => putNumber (Some n) None);
    DurationVar time_ParseDuration "timeout" (fun d => putNumber None (Some d))] ++
   ((fun name => BoolVar name (putBool name)) <$> ["print-metadata"; "tls"; "insecure-skip-verify"]))%list.

Definition parseFlags (args : list string) : res probeConfig :=
  '((cfg, values), _) ← Parse flags (registerProbeFlags, {| metadataPairs := []; payloads := []; expectedMessages := [] |}) args;
  normalizeProbeConfig cfg values args.

(** The exit code and the result printed. *)
Definition main (run : probeConfig -> res summary) (write : option error) (args : list string) : Z * option summary :=
  match parseFlags args with
  | Err _ => (2, None)
  | Ok cfg =>
      match run cfg with
      | Err _ => (1, None)
      | Ok result => (match write with Some _ => 1 | None => 0 end, Some result)
      end
  end.
End main.

(** [-expect-count] given with two dashes and zero is not noticed: no count is
    expected then. *)
Lemma zero_count_unnoticed `{Unicode} time_ParseDuration :
  (p_expectCountSet <$> parseFlags time_ParseDuration ["-method=/s/m"; "-expect-count=0"]) = Ok true /\
  (p_expectCountSet <$> parseFlags time_ParseDuration ["-method=/s/m"; "--expect-count=0"]) = Ok false.
Proof. split; by vm_compute. Qed.
End grpcprobemain.

(** ** [flag.Parse] of the process: its exit code when the command line is refused *)

Module commandline.
Import goflag.
Definition Parse `{Unicode} {C} (flags : list (Flag C)) (c : C) (args : list string) : Z + C :=
  match goflag.Parse flags c args with
  | Ok (c, _) => inr c
  | Err e => inl (if decide (e = ErrHelp) then 0 else 2)
  end.
End commandline.

(** ** [cmd/fakemilterserver/main.go] and [cmd/milterprobe/main.go] *)

Module fakemiltermain.
Import goflag milter milterproxy fakemilter.

Section main.
Context `{Unicode} (time_ParseDuration : string -> option Z).

Record serverFlags := { f_listen : string; f_decision : string; f_logFile : string }.
Definition serverFlagSet : list (Flag serverFlags) :=
  [StringVar "listen" (fun v s => {| f_listen := v; f_decision := f_decision s; f_logFile := f_logFile s |});
   StringVar "decision" (fun v s => {| f_listen := f_listen s; f_decision := v; f_logFile := f_logFile s |});
   StringVar "log-file" (fun v s => {| f_listen := f_listen s; f_decision := f_decision s; f_logFile := v |})].

(** The accept loop on what [Accept] returns: each connection served, with what it
    logs, and the error that ends it. *)
Definition serve (net_Listen : string -> option error) (accepts : list conn) (acceptErr : error)
    (addr decision : string) (responseCommand : ascii) : list (option (conn * list frameLog)) * error :=
  match net_Listen addr with
  | Some err => ([], err)
  | None => (handleConn decision responseCommand <$> accepts, acceptErr)
  end.

(** [newMilterLogger]: no file without a path; [None] is an error. *)
Definition newMilterLogger (os_Create : string -> option error) (path : string) : res (option string) :=
  if decide (path = "") then Ok None else match os_Create path with Some e => Err e | None => Ok (Some path) end.
(** [milterLogger.write] *)
Definition write (logger : option string) (entries : list frameLog) : list (string * frameLog) :=
  match logger with None => [] | Some file => (fun e => (file, e)) <$> entries end.

(** The exit code, the connections served, and the lines of the log file when
    every connection is let run to its end. *)
Definition main (os_Create net_Listen : string -> option error) (accepts : list conn) (acceptErr : error) (args : list string)
    : Z * list (option (conn * list frameLog)) * list (string * frameLog) :=
  match commandline.Parse serverFlagSet {| f_listen := "127.0.0.1:19997"; f_decision := "accept"; f_logFile := "" |} args with
  | inl code => (code, [], [])
  | inr f =>
      match commandForDecision (f_decision f), newMilterLogger os_Create (f_logFile f) with
      | Ok rc, Ok logger =>
          let '(served, _) := serve net_Listen accepts acceptErr (f_listen f) (f_decision f) rc in
          (1, served, served ≫= (fun r => match r with Some (_, logs) => write logger logs | None => [] end))
      | _, _ => (1, [], [])
      end
  end.

Record probeFlags := { f_addr : string; f_command : string; f_payload : string; f_expect : string; f_timeout : Z }.
Definition putProbe (name v : string) (s : probeFlags) : probeFlags :=
  let var n old := if decide (name = n) then v else old in
  {| f_addr := var "addr" (f_addr s); f_command := var "command" (f_command s); f_payload := var "payload" (f_payload s);
     f_expect := var "expect-decision" (f_expect s); f_timeout := f_timeout s |}.
Definition probeFlagSet : list (Flag probeFlags) :=
  (((fun name => StringVar name (putProbe name)) <$> ["addr"; "command"; "payload"; "expect-decision"]) ++
   [DurationVar time_ParseDuration "timeout" (fun d s => {| f_addr := f_addr s; f_command := f_command s;
      f_payload := f_payload s; f_expect := f_expect s; f_timeout := d |})])%list.
(** The exit code and the result printed; [dial] is [net.DialTimeout] with
    [SetDeadline]. *)
Definition probeMain (dial : string -> Z -> res conn) (write : option error) (args : list string) : Z * option probeResult :=
  match commandline.Parse probeFlagSet
          {| f_addr := "127.0.0.1:19999"; f_command := "c"; f_payload := "e2e"; f_expect := "accept"; f_timeout := 2000000000 |} args with
  | inl code => (code, None)
  | inr f =>
      match (c ← dial (f_addr f) (f_timeout f); (runProbe c (firstByte (f_command f)) (f_payload f)).1) with
      | Err _ => (1, None)
      | Ok result =>
          if decide (pr_Decision result <> f_expect f) then (1, None)
          else (match write with Some _ => 1 | None => 0 end, Some result)
      end
  end.
End main.
End fakemiltermain.

(** A run that expects another decision fails. *)
Example probe_expectation :
  let reply := fakemilter.sends (chars (milter.encodeMilterFrame "a" "")) in
  (fakemiltermain.probeMain (H := asciiUnicode) (fun _ => None) (fun _ _ => Ok reply) None ["-expect-decision=reject"]).1 = 1 /\
  (fakemiltermain.probeMain (H := asciiUnicode) (fun _ => None) (fun _ _ => Ok reply) None []).1 = 0.
Proof. by vm_compute. Qed.

(** ** [cmd/fakeotlpcollector/main.go] *)

Module collectormain.
Import goflag collector.

Section main.
Context `{Unicode}.
Context (UnmarshalTraces : string -> res traceRequest) (UnmarshalMetrics : string -> res metricRequest).
Context (MarshalTraces MarshalMetrics : res string) (EncodeSummary : summary -> res string).

Record collectorFlags := { f_listen : string; f_logFile : string }.
Definition flagSet : list (Flag collectorFlags) :=
  [StringVar "listen" (fun v s => {| f_listen := v; f_logFile := f_logFile s |});
   StringVar "log-file" (fun v s => {| f_listen := f_listen s; f_logFile := v |})].

(** [newEventLogger]: no file without a path. *)
Definition newEventLogger (os_Create : string -> option error) (path : string) : res (option string) :=
  if decide (path = "") then Ok None else match os_Create path with Some e => Err e | None => Ok (Some path) end.

Definition http_ErrServerClosed : error := errors_New "http: Server closed".
(** The exit code and the state after the requests that were served; [ended] is
    what [ListenAndServe] returns. *)
Definition main (os_Create : string -> option error) (requests : list request) (ended : option error) (args : list string)
    : Z * collectorState :=
  match commandline.Parse flagSet {| f_listen := "127.0.0.1:14318"; f_logFile := "" |} args with
  | inl code => (code, newCollectorState)
  | inr f =>
      match newEventLogger os_Create (f_logFile f) with
      | Err _ => (1, newCollectorState)
      | Ok _ =>
          (match ended with Some e => if decide (e = http_ErrServerClosed) then 0 else 1 | None => 0 end,
           after UnmarshalTraces UnmarshalMetrics MarshalTraces MarshalMetrics EncodeSummary newCollectorState requests)
      end
  end.
End main.
End collectormain.
